(* ===== verification/_CoqProject ===== *)
-Q . S2P
Prelude.v
Sql.v
Feed.v
PyFloat.v
Calendar.v
Order.v
Json.v
Text.v
BillingCatalog.v
BillingLedger.v
BillingWebhook.v
BillingInvariant.v
BillingTheorems.v
BillingOnce.v
BillingWitness.v
Deployment.v
DeploymentTheorems.v
Activity.v
ActivityInvariant.v
ActivityTheorems.v
ActivityWitness.v
Objectives.v
Execution.v
ObjectiveInvariant.v
ObjectiveSteps.v
ObjectiveTheorems.v
ObjectiveWitness.v
Chat.v
ChatInvariant.v
ChatSteps.v
ChatTheorems.v
ChatOwners.v
ChatWitness.v
Routing.v
RoutingTheorems.v
RoutingWitness.v
Hosted.v
HostedInvariant.v
HostedTheorems.v
HostedRuns.v
HostedWitness.v
Decisions.v
DecisionInvariant.v
DecisionTheorems.v
DecisionOutcomes.v
DecisionWitness.v
Memory.v
MemoryInvariant.v
MemoryTheorems.v
MemorySearch.v
MemoryOwners.v
Samples.v
MemoryWitness.v
AuthStore.v
Sessions.v
Identity.v
ProviderAuth.v
AuthInvariant.v
AuthSteps.v
AuthReach.v
AuthHistory.v
AuthTheorems.v
AuthClaims.v
AuthIssue.v
AuthWitness.v
Push.v
Notifications.v
PushTheorems.v
NotificationTheorems.v
Attention.v
AttentionTheorems.v
OAuth.v
OAuthTheorems.v
PiEnvelope.v
Pi.v
PiInvariant.v
PiSteps.v
PiTheorems.v
PiClaims.v
PiWitness.v
