(* ===== verification/Prelude.v ===== *)
(** * Magistrate gateway: verification development

    The gateway ([src/gateway/app], Python) is the authority of the product: it
    owns the credits of a user, the objectives handed to the execution runtime,
    the events that come back, the activity feed and the conversation. Each of
    those lives in SQLite tables that short transactions read and write. This
    library models those transactions, statement by statement, and proves what
    the rest of the product relies on.

    ** How the code is modelled

    - A table is the list of its rows ([Sql]); [SELECT], [UPDATE], [INSERT] and
      [ORDER BY ... LIMIT] are functions over it, and an insert that violates a
      primary key or a unique constraint is [IntegrityError]. Foreign keys are
      not checked: every row they guard is read in the same transaction, and
      the invariants prove the reference exists.
    - A transaction is a [tx]: it threads the database and returns a value or an
      exception; [commit] keeps the state of a success and rolls an exception
      back. Transactions are serialized ([BEGIN IMMEDIATE]), so a run of the
      gateway is a sequence of transactions in any order: the invariants are
      proved for every sequence ([reachable], [obj_reachable],
      [chat_reachable], [act_state], [auth_reachable], [pi_after], [oauth_after], [push_after]).
    - Code that runs several transactions, with awaits between them, is an
      [io]: it keeps the transactions that committed before an exception, and
      what other tasks commit at each await is an argument ([surroundings] of
      [Routing], [others] of [Hosted], [Notifications] and [Attention]) that the theorems quantify over.
    - The clock is an argument, read once per call where the code reads it
      several times in a row; random identities are arguments too.
    - Python integers are [Z]; SQLite's 64-bit columns are not exceeded within
      the bounds the contracts check ([MAX_CONTRACT_INTEGER]). The one place that
      computes in floating point, the price of a usage, is modelled on binary64
      ([PyFloat]). A [str] is a [string] of characters below 256.
    - What is not in the repository is a parameter: SHA-256 and HMAC, [json]
      ([Codec]), regular expressions for credential-like text and
      [unicodedata] ([TextEngine]). Where a theorem needs a law of one of them
      (no collision among the keys in use, [json.loads] inverts [json.dumps])
      the law is a hypothesis and a witness instantiates it.
    - Pydantic contracts are validated values: a function receives the typed
      fields the contract admits.

    ** Files, and the code they model

    - [Prelude], [Sql], [Feed], [Json], [PyFloat], [Calendar],
      [Order], [Text]: results and transactions with their inversion tactics
      ([tx_inv], [preserve]), tables, gap-free numbered columns and pages of
      them, JSON values, binary64 division, decimal rounding, the UTC calendar,
      lexicographic orders with what [ORDER BY] promises, string methods.
    - [BillingCatalog], [BillingLedger], [BillingWebhook] ([billing.py], tables
      of [db.py]): the catalog, [CreditLedger], [StripeWebhookProcessor].
      [BillingInvariant], [BillingTheorems], [BillingOnce]: the
      balance is the sum of the ledger and the holds are the open reservations
      in every state reached while refunds and credit grants use keys of their
      own ([clean_key]), and a reused key breaks it; admission bounds; closed reservations, events
      and settlements happen once; the price in floating point.
    - [Deployment] ([contracts.py], [deployment_mode.py]): deployment contract,
      principal gate, admission, the projection of persisted facts to an
      objective state and its replacement order. [DeploymentTheorems].
    - [Activity] ([activity_store.py]): records, change feed, source journals,
      snapshots. [ActivityInvariant], [ActivityTheorems]: the feed and the
      journals have no gap; replay is complete.
    - [Objectives] (submissions of [magi_firstmate_tools.py], holds of
      [firstmate_execution.py], [persist_objective_state]) and [Execution]
      (events and completions of [firstmate_execution.py],
      [objective_cancellation.py]) share one database. [ObjectiveInvariant]
      supports every stored projection by facts that only grow, [ObjectiveSteps]
      has one lemma per operation, [ObjectiveTheorems] the claims.
    - [Chat] ([magi_chat_store.py]). [ChatInvariant] states the contract of the
      store as a step relation ([turn]) and the well-formedness it preserves;
      [ChatSteps] shows that every operation implements it; [ChatTheorems] and
      [ChatOwners] have the claims: attempts with one claimant and one outcome,
      idempotent submission, convergence of replay, recovery, isolation.
    - [Routing] ([magi_routing.py]): the route ledger, selection and the
      failover loop of [complete_routed]; [RoutingTheorems] bounds the charges
      of a month and the attempts of a request.
    - [Hosted] ([hosted_execution.py]): the queue of hosted runs over the
      objective stores, the controller and the worker's routes.
      [HostedInvariant] states the life of a run as a relation ([lifecycle])
      every transaction follows; [HostedTheorems] has capacity, fencing and
      retirement, [HostedRuns] the controller methods.
    - [Decisions] ([firstmate_decisions.py]): captain holds of the runtime, the
      confirmation of one answer to one revision, its execution claim and its
      outcome, over the chat and objective stores. [DecisionInvariant] states
      what a snapshot and a transaction may do to a decision;
      [DecisionTheorems] and [DecisionOutcomes] have the claims: one live answer
      per revision, exclusive and fenced execution, release of exactly what was
      confirmed, complete snapshots, separate owners.

    - [Memory] ([project_memory.py]): the entries of a project with their
      revisions, the search index, the hash-chained audit log and the contexts
      given to models. [MemoryInvariant] reduces every write to one step
      ([revise]); [MemoryTheorems] has the audit log, [MemorySearch] the index
      and deletion, [MemoryOwners] isolation and the bounds of contexts.

    - [AuthStore] (with [onboarding.py]), [Sessions] ([auth.py]), [Identity] and
      [ProviderAuth] ([provider_auth.py]): sessions, beta
      grants, sign-in with Apple and Google, refresh tokens. [AuthInvariant]
      states that every session is covered by its authority, once for grants
      and for families; [AuthSteps] and [AuthReach] show that
      every operation keeps it ([auth_reachable]); [AuthHistory] states what
      never comes back ([remembers]); [AuthTheorems], [AuthClaims] and
      [AuthIssue] have the claims: principals are backed by live authorities,
      logout is final, a refresh token rotates once and leaves one successor,
      an assertion is exchanged once while its digest is kept (a day), an
      identity keeps its user.
    - [OAuth] ([oauth_transactions.py]): the redirect policy over a model of
      [urlsplit], the one-time states and their retention. [OAuthTheorems]: a
      callback gets what a connect stored, once.
    - [PiEnvelope] and [Pi] ([pi_ownership.py]): the envelopes of the adapter
      with their validators, and the store of dispatches over the conversation
      tables. [PiEnvelope] also says in terms of lists what a validated sequence
      proves; [PiInvariant] has the life of a dispatch ([life]) and the contract
      of the store ([pi_turn]), which [PiSteps] shows every operation to follow;
      [PiTheorems] and [PiClaims] have the claims: exact delivery, stable
      answers, silent frozen turns, one owner per prompt and answer entry,
      recognised retries.

    - [Push] ([push_receipts.py]) and [Notifications] ([notifications.py]): the
      store of push deliveries with the tables a receipt touches, and the
      policy, devices, preferences, reconciliation and programs around it.
      [PushTheorems] states the life of a delivery ([push_turns]), which every
      operation follows, and the claims over runs ([push_run]): bounded sends,
      one reporter, receipts that reach only their device.
      [NotificationTheorems]: the delivery programs are runs of the store
      ([program]), what a reconciliation offers and until when, and that the
      rows of a dispatch or a poll say what the push service answered.

    - [Attention] ([attention_actions.py]): actions of attention items, their
      confirmations and outcomes, [execute_confirmation] with its awaits.
      [AttentionTheorems]: the runtime is told only what was confirmed, once.

    - [Samples] and [*Witness]: concrete databases, catalogs and codecs on which the
      hypotheses of the theorems hold.

    ** Fuel and bounds

    Only clients and text filters recurse without a structural argument.
    [catch_up] and [follow] page through a feed: fuel above the number of
    missed changes is enough, which their theorems state. Decoding text takes
    the three rounds the code takes, and finding the words of a text ([findall])
    as many steps as it has characters ([findall_fuel]).

    ** Not modelled

    HTTP routes and middleware, calls to Stripe and to model providers, file
    system and subprocess transports, schema migrations, token encryption, the
    Django service, scripts and clients: input and output around the stores.
    The routing configuration in JSON is validated input of [Routing], the
    environment of hosted execution one of [Hosted]. The chat service, the
    readers of runtime files, the erasure and the retention of accounts (apart
    from OAuth states), the management of projects, execution profiles and the
    GitHub connection are left out:
    they call the stores modelled here around HTTP, files or subprocesses. *)

From stdpp Require Import base option list strings numbers sets.
From Stdlib Require Import ZArith Lia.

Open Scope Z_scope.

(** ** Boolean equality

    [a == b] is the decision of [a = b] as a boolean: Python's [==] on the
    scalar types and SQL's [=] on non-null columns. *)

Declare Scope gateway_scope.
Delimit Scope gateway_scope with gw.

Notation "a == b" := (bool_decide (a = b)) (at level 70, no associativity) : gateway_scope.
Notation "a != b" := (negb (bool_decide (a = b))) (at level 70, no associativity) : gateway_scope.
Open Scope gateway_scope.

Lemma eqb_refl {A} `{EqDecision A} (a : A) : (a == a) = true.
Proof. by apply bool_decide_eq_true. Qed.

Lemma eqb_true {A} `{EqDecision A} (a b : A) : (a == b) = true → a = b.
Proof. by intros ?%bool_decide_eq_true. Qed.

Lemma eqb_false {A} `{EqDecision A} (a b : A) : (a == b) = false → a ≠ b.
Proof. by intros ?%bool_decide_eq_false. Qed.

Lemma eqb_neq {A} `{EqDecision A} (a b : A) : a ≠ b → (a == b) = false.
Proof. intros. by apply bool_decide_eq_false. Qed.

(** ** Results and transactions

    A fallible Python function returns a value or raises: [res]. Code that
    runs inside one [BEGIN IMMEDIATE] block is a [tx]: it threads the state of
    the database, and a raise carries no state because the context manager
    rolls the transaction back. [commit] is that context manager. *)

Inductive res (E A : Type) : Type :=
| Ok (a : A)
| Err (e : E).
Arguments Ok {E A} a.
Arguments Err {E A} e.

#[export] Instance res_eq_dec {E A} `{EqDecision E, EqDecision A} : EqDecision (res E A).
Proof. solve_decision. Defined.

#[export] Instance res_ret {E} : MRet (res E) := λ A a, Ok a.
#[export] Instance res_bind {E} : MBind (res E) := λ A B f m,
  match m with Ok a => f a | Err e => Err e end.

#[export] Instance res_fmap {E} : FMap (res E) := λ A B f m,
  match m with Ok a => Ok (f a) | Err e => Err e end.

Definition is_ok {E A} (r : res E A) : bool := match r with Ok _ => true | Err _ => false end.

(** [ensure b e] is [if not b: raise e]. *)
Definition ensure {E} (b : bool) (e : E) : res E unit := if b then Ok tt else Err e.

Definition of_option {E A} (e : E) (o : option A) : res E A :=
  match o with Some a => Ok a | None => Err e end.

Definition tx (E S A : Type) : Type := S → res E (A * S).

#[export] Instance tx_ret {E S} : MRet (tx E S) := λ A a s, Ok (a, s).
#[export] Instance tx_bind {E S} : MBind (tx E S) := λ A B f m s,
  match m s with Ok (a, s') => f a s' | Err e => Err e end.

Definition read {E S A} (f : S → A) : tx E S A := λ s, Ok (f s, s).
Definition modify {E S} (f : S → S) : tx E S unit := λ s, Ok (tt, f s).
Definition raise {E S A} (e : E) : tx E S A := λ _, Err e.
Definition lift {E S A} (r : res E A) : tx E S A := λ s,
  match r with Ok a => Ok (a, s) | Err e => Err e end.
Definition require {E S} (b : bool) (e : E) : tx E S unit := lift (ensure b e).

Definition commit {E S A} (m : tx E S A) (s : S) : res E A * S :=
  match m s with Ok (a, s') => (Ok a, s') | Err e => (Err e, s) end.

(** Inversion lemmas, collected in the hint database [txinv]. *)

Section TxLemmas.
Context {E S A B : Type}.
Implicit Types (s : S) (e : E).

Lemma bind_ok (m : tx E S A) (f : A → tx E S B) s b s' :
  (m ≫= f) s = Ok (b, s') ↔ ∃ a s1, m s = Ok (a, s1) ∧ f a s1 = Ok (b, s').
Proof.
  unfold mbind, tx_bind. destruct (m s) as [[a s1]|e].
  - split; [eauto|]. intros (a' & s1' & [= -> ->] & H); exact H.
  - split; [done|]. by intros (? & ? & ? & ?).
Qed.

Lemma ret_ok (a b : A) s s' : (mret a : tx E S A) s = Ok (b, s') ↔ a = b ∧ s = s'.
Proof. unfold mret, tx_ret. naive_solver. Qed.

Lemma read_ok (f : S → A) s b s' : @read E S A f s = Ok (b, s') ↔ f s = b ∧ s = s'.
Proof. unfold read. naive_solver. Qed.

Lemma modify_ok (f : S → S) s (u : unit) s' : @modify E S f s = Ok (u, s') ↔ s' = f s.
Proof. unfold modify. destruct u. naive_solver. Qed.

Lemma raise_ok e s (b : A) s' : @raise E S A e s = Ok (b, s') ↔ False.
Proof. unfold raise. naive_solver. Qed.

Lemma lift_ok (r : res E A) s b s' : @lift E S A r s = Ok (b, s') ↔ r = Ok b ∧ s = s'.
Proof. unfold lift. destruct r; naive_solver. Qed.

Lemma require_ok (c : bool) e s (u : unit) s' :
  @require E S c e s = Ok (u, s') ↔ c = true ∧ s = s'.
Proof. unfold require, lift, ensure. destruct c, u; naive_solver. Qed.

Lemma ensure_ok (c : bool) e (u : unit) : ensure c e = Ok u ↔ c = true.
Proof. unfold ensure. destruct c, u; naive_solver. Qed.

Lemma of_option_ok e (o : option A) a : of_option e o = Ok a ↔ o = Some a.
Proof. destruct o; naive_solver. Qed.

Lemma res_bind_ok (m : res E A) (f : A → res E B) b :
  (m ≫= f) = Ok b ↔ ∃ a, m = Ok a ∧ f a = Ok b.
Proof. destruct m; naive_solver. Qed.

(** Running a known first step. *)
Lemma bind_run (m : tx E S A) (f : A → tx E S B) s a s1 :
  m s = Ok (a, s1) → (m ≫= f) s = f a s1.
Proof. unfold mbind, tx_bind. by intros ->. Qed.

Lemma bind_fail (m : tx E S A) (f : A → tx E S B) s e :
  m s = Err e → (m ≫= f) s = Err e.
Proof. unfold mbind, tx_bind. by intros ->. Qed.

Lemma bind_of_eq (m : tx E S A) (f : A → tx E S B) s r :
  m s = r → (m ≫= f) s = match r with Ok (a, s1) => f a s1 | Err e => Err e end.
Proof. unfold mbind, tx_bind. by intros ->. Qed.

(** Rollback: a transaction that raises leaves the database as it was. *)
Lemma commit_err (m : tx E S A) s e s' : commit m s = (Err e, s') → s' = s.
Proof. unfold commit. destruct (m s) as [[??]|]; naive_solver. Qed.

Lemma commit_ok (m : tx E S A) s a s' : commit m s = (Ok a, s') ↔ m s = Ok (a, s').
Proof. unfold commit. destruct (m s) as [[??]|]; naive_solver. Qed.

(** The two outcomes of a committed transaction. *)
Lemma commit_cases (m : tx E S A) s :
  (∃ a s', m s = Ok (a, s') ∧ commit m s = (Ok a, s')) ∨
  (∃ e, m s = Err e ∧ commit m s = (Err e, s)).
Proof. unfold commit. destruct (m s) as [[??]|]; naive_solver. Qed.
End TxLemmas.

(** ** Programs of several transactions

    A method that runs several transactions keeps those that committed before
    an exception. [others n] is what the other tasks commit at its [n]th
    await. *)

Definition io (E S A : Type) : Type := S → res E A * S.
#[export] Instance io_ret {E S} : MRet (io E S) := λ A a s, (Ok a, s).
#[export] Instance io_bind {E S} : MBind (io E S) := λ A B f m s,
  match m s with (Ok a, s') => f a s' | (Err e, s') => (Err e, s') end.

Section Programs.
Context {E S : Type}.

Definition pure {A} (r : res E A) : io E S A := λ s, (r, s).
Definition run_tx {A} (m : tx E S A) : io E S A := commit m.
(** [except Exception: handler; raise] *)
Definition or_else_do {A} (m handler : io E S A) : io E S A := λ s,
  match m s with (Ok a, s') => (Ok a, s') | (Err e, s') => (Err e, (handler s').2) end.
Definition await (others : nat → S → S) (n : nat) : io E S unit := λ s, (Ok tt, others n s).

(** An invariant of a program, and a Hoare triple over its outcome. *)
Definition io_keeps {A} (P : S → Prop) (m : io E S A) : Prop := ∀ s, P s → P (m s).2.
Definition io_post {A} (P : S → Prop) (m : io E S A) (Q : res E A → S → Prop) : Prop := ∀ s, P s → Q (m s).1 (m s).2.

Lemma io_bind_ok {A B} (m : io E S A) (f : A → io E S B) s a s' : m s = (Ok a, s') → (m ≫= f) s = f a s'.
Proof. unfold mbind, io_bind. by intros ->. Qed.
Lemma io_bind_err {A B} (m : io E S A) (f : A → io E S B) s e s' : m s = (Err e, s') → (m ≫= f) s = (Err e, s').
Proof. unfold mbind, io_bind. by intros ->. Qed.
Lemma io_bind_keeps {A B} P (m : io E S A) (f : A → io E S B) : io_keeps P m → (∀ a, io_keeps P (f a)) → io_keeps P (m ≫= f).
Proof.
  intros Hm Hf s Hs. specialize (Hm s Hs). unfold mbind, io_bind. destruct (m s) as [[a|e] s1]; simpl in *; [by apply Hf|done].
Qed.
Lemma io_pure_keeps {A} P (r : res E A) : io_keeps P (pure r).
Proof. by intros s Hs. Qed.
Lemma io_ret_keeps {A} P (a : A) : io_keeps P (mret a : io E S A).
Proof. by intros s Hs. Qed.
Lemma io_tx_keeps {A} P (m : tx E S A) : (∀ s a s', P s → m s = Ok (a, s') → P s') → io_keeps P (run_tx m).
Proof.
  intros H s Hs. unfold run_tx, commit. destruct (m s) as [[a s']|e] eqn:Em; simpl; [by eapply H|done].
Qed.
Lemma io_bind_post {A B} P (m : io E S A) (f : A → io E S B) Q : io_keeps P m → (∀ a, io_post P (f a) Q) →
  (∀ e s, P s → Q (Err e) s) → io_post P (m ≫= f) Q.
Proof.
  intros Hm Hf He s Hs. specialize (Hm s Hs). unfold mbind, io_bind. destruct (m s) as [[a|e] s1]; simpl in *; [by apply Hf|by apply He].
Qed.
End Programs.

(** [preserves P m]: from a state where [P] holds, a run of [m] that returns
    ends in one. The database [preserves] composes it along the code. *)
Definition preserves {E S A} (P : S → Prop) (m : tx E S A) : Prop :=
  ∀ s a s', P s → m s = Ok (a, s') → P s'.

Create HintDb preserves.

Section Preserves.
Context {E S : Type} (P : S → Prop).

Lemma preserves_ret {A} (a : A) : preserves P (mret a : tx E S A).
Proof. intros s b s' H [_ <-]%ret_ok. done. Qed.

Lemma preserves_bind {A B} (m : tx E S A) (f : A → tx E S B) :
  preserves P m → (∀ a, preserves P (f a)) → preserves P (m ≫= f).
Proof. intros Hm Hf s b s' H (a & s1 & H1 & H2)%bind_ok. eapply Hf; [|done]. by eapply Hm. Qed.

Lemma preserves_read {A} (f : S → A) : preserves P (@read E S A f).
Proof. intros s b s' H [_ <-]%read_ok. done. Qed.

Lemma preserves_lift {A} (r : res E A) : preserves P (@lift E S A r).
Proof. intros s b s' H [_ <-]%lift_ok. done. Qed.

Lemma preserves_require (b : bool) (e : E) : preserves P (require (S := S) b e).
Proof. apply preserves_lift. Qed.

Lemma preserves_raise {A} (e : E) : preserves P (@raise E S A e).
Proof. intros s b s' _ H. by apply raise_ok in H. Qed.

Lemma preserves_modify (f : S → S) : (∀ s, P s → P (f s)) → preserves P (@modify E S f).
Proof. intros Hf s a s' H ->%modify_ok. auto. Qed.

Lemma preserves_commit {A} (m : tx E S A) s : preserves P m → P s → P (commit m s).2.
Proof.
  intros Hm Hs. destruct (commit_cases m s) as [(a & s' & H & ->)|(e & _ & ->)]; [by eapply Hm|done].
Qed.
End Preserves.
#[export] Hint Resolve preserves_ret preserves_read preserves_lift preserves_require preserves_raise : preserves.

(** Splits binds, options and tests, and closes the known steps. *)
Ltac preserve :=
  repeat (intros; match goal with
  | |- preserves _ (mbind _ _) => apply preserves_bind
  | |- preserves _ (match ?x with _ => _ end) => destruct x
  | |- preserves _ (if ?x then _ else _) => destruct x
  | |- preserves _ _ => solve [eauto with preserves]
  end); intros.

(** One step of inversion of a successful computation, and its closure. *)
Ltac tx_inv1 :=
  match goal with
  | H : (mbind _ _) _ = Ok (_, _) |- _ =>
      let a := fresh "a" in let s := fresh "s" in let H1 := fresh "H" in
      apply bind_ok in H as (a & s & H1 & H)
  | H : mbind _ _ = Ok _ |- _ =>
      let a := fresh "a" in let H1 := fresh "H" in
      apply res_bind_ok in H as (a & H1 & H)
  | H : (mret _) _ = Ok (_, _) |- _ => apply ret_ok in H as [? ?]
  | H : mret _ = Ok _ |- _ => injection H as ?
  | H : read _ _ = Ok (_, _) |- _ => apply read_ok in H as [? ?]
  | H : modify _ _ = Ok (_, _) |- _ => apply modify_ok in H
  | H : raise _ _ = Ok (_, _) |- _ => apply raise_ok in H; destruct H
  | H : require _ _ _ = Ok (_, _) |- _ => apply require_ok in H as [? ?]
  | H : lift _ _ = Ok (_, _) |- _ => apply lift_ok in H as [? ?]
  | H : ensure _ _ = Ok _ |- _ => apply ensure_ok in H
  | H : of_option _ _ = Ok _ |- _ => apply of_option_ok in H
  | H : (if ?c then _ else _) _ = Ok _ |- _ => destruct c eqn:?
  | H : (if ?c then _ else _) = Ok _ |- _ => destruct c eqn:?
  | H : (match ?c with Some _ => _ | None => _ end) _ = Ok _ |- _ => destruct c eqn:?
  | H : (match ?c with Some _ => _ | None => _ end) = Ok _ |- _ => destruct c eqn:?
  | H : Ok _ = Ok _ |- _ => injection H as ?
  | H : Err _ = Ok _ |- _ => discriminate H
  | u : unit |- _ => destruct u
  end.
Ltac tx_inv := repeat (tx_inv1; subst; try discriminate).

(** Boolean connectives to propositions, everywhere. *)
Ltac bools :=
  repeat match goal with
  | H : _ && _ = true |- _ => apply andb_true_iff in H as [? ?]
  | H : _ || _ = false |- _ => apply orb_false_iff in H as [? ?]
  | H : negb _ = true |- _ => apply negb_true_iff in H
  | H : negb _ = false |- _ => apply negb_false_iff in H
  | H : bool_decide _ = true |- _ => apply bool_decide_eq_true in H
  | H : bool_decide _ = false |- _ => apply bool_decide_eq_false in H
  | H : (_ <? _) = true |- _ => apply Z.ltb_lt in H
  | H : (_ <? _) = false |- _ => apply Z.ltb_ge in H
  | H : (_ <=? _) = true |- _ => apply Z.leb_le in H
  | H : (_ <=? _) = false |- _ => apply Z.leb_gt in H
  | H : (_ =? _) = true |- _ => apply Z.eqb_eq in H
  | H : (_ =? _) = false |- _ => apply Z.eqb_neq in H
  end.

(** ** Integers *)

(** [math.ceil] of an exact quotient. *)
Definition cdiv (a b : Z) : Z := - ((- a) / b).

Lemma cdiv_spec a b : 0 < b → b * (cdiv a b - 1) < a ≤ b * cdiv a b.
Proof.
  intros Hb. unfold cdiv. pose proof (Z.div_mod (- a) b ltac:(lia)).
  pose proof (Z.mod_pos_bound (- a) b Hb). nia.
Qed.

Lemma cdiv_unique a b q : 0 < b → b * (q - 1) < a ≤ b * q → cdiv a b = q.
Proof. intros Hb Hq. pose proof (cdiv_spec a b Hb). nia. Qed.

Lemma cdiv_mono a a' b : 0 < b → a ≤ a' → cdiv a b ≤ cdiv a' b.
Proof. intros Hb Ha. pose proof (cdiv_spec a b Hb). pose proof (cdiv_spec a' b Hb). nia. Qed.

Lemma cdiv_nonneg a b : 0 < b → 0 ≤ a → 0 ≤ cdiv a b.
Proof. intros Hb Ha. pose proof (cdiv_spec a b Hb). nia. Qed.

(** Largest integer a JSON number carries exactly in the clients
    ([MAX_CONTRACT_INTEGER], [MAX_SAFE_INTEGER]). *)
Definition MAX_CONTRACT_INTEGER : Z := 9007199254740991.

(** ** Option helpers *)

(** [s in l] *)
Definition listed (s : string) (l : list string) : bool := existsb (String.eqb s) l.
Lemma listed_spec s l : listed s l = true ↔ s ∈ l.
Proof.
  unfold listed. rewrite existsb_exists. split; [intros (x & Hx & ->%String.eqb_eq); by apply list_elem_of_In|].
  intros Hs%list_elem_of_In. exists s. split; [done|apply String.eqb_refl].
Qed.

(** Python's [x or y] on an optional value whose [Some] is truthy. *)
Definition or_else {A} (x y : option A) : option A :=
  match x with Some _ => x | None => y end.

(** ** Record update

    [r <| f := v |>] replaces the field [f]. A record declares its eta
    expansion once, as an instance of [Settable]; the field to replace is
    found in it by matching. *)

Class Settable (R : Type) := eta : R → R.
Class FieldSetter {R E : Type} (proj : R → E) := set_field : (E → E) → R → R.

(** The binders have names no section uses. *)
Ltac derive_setter R E proj :=
  let body := eval hnf in (@eta R _) in
  exact (fun (change_of_field : E → E) (row_to_change : R) =>
    ltac:(let b := eval cbv beta in (body row_to_change) in
          match b with
          | context C [proj row_to_change] => let b' := context C [change_of_field (proj row_to_change)] in exact b'
          end)).
#[export] Hint Extern 0 (@FieldSetter ?R ?E ?proj) => derive_setter R E proj : typeclass_instances.

Notation "r <| f := v |>" := (set_field (proj := f) (λ _, v) r)
  (at level 12, f at next level, v at level 99, left associativity) : gateway_scope.
Notation "r <| f ::= g |>" := (set_field (proj := f) g r)
  (at level 12, f at next level, g at level 99, left associativity) : gateway_scope.
