(* ===== verification/Sql.v ===== *)
(** * Tables

    A database table is the list of its rows in rowid order; a statement is a
    function over that list. A [WHERE] clause is a boolean predicate on rows. *)

From stdpp Require Import base option list sorting strings numbers sets.
From Stdlib Require Import ZArith Lia.
From S2P Require Import Prelude.

Section Statements.
Context {R : Type}.
Implicit Types (p : R → bool) (t : list R).

(** [SELECT ... WHERE p] *)
Definition select p t : list R := List.filter p t.
(** [SELECT ... WHERE p] followed by [fetchone()] *)
Definition fetchone p t : option R := List.find p t.
(** [SELECT 1 ... WHERE p] tested for a row *)
Definition exists_row p t : bool := existsb p t.
(** [SELECT COUNT( * ) WHERE p] *)
Definition count p t : Z := Z.of_nat (length (select p t)).
(** [COALESCE(SUM(f), 0) WHERE p] *)
Definition sum (f : R → Z) p t : Z :=
  foldr (λ r acc, (if p r then f r else 0) + acc) 0 t.
(** [MAX(f) WHERE p]: [None] is [NULL]. *)
Definition max_of (f : R → Z) p t : option Z :=
  foldr (λ r acc, if p r then Some (match acc with Some m => Z.max (f r) m | None => f r end) else acc) None t.
(** [UPDATE ... SET f WHERE p] *)
Definition update p (f : R → R) t : list R := map (λ r, if p r then f r else r) t.
(** [DELETE ... WHERE p] *)
Definition delete_where p t : list R := List.filter (λ r, negb (p r)) t.
(** [INSERT]: [clash] says whether two rows violate a primary key or a
    unique constraint; [None] is [sqlite3.IntegrityError]. *)
Definition insert (clash : R → R → bool) (r : R) t : option (list R) :=
  if existsb (clash r) t then None else Some (t ++ [r]).

(** [ORDER BY key]: stable insertion sort. *)
Fixpoint order_insert (le : R → R → bool) (r : R) t : list R :=
  match t with
  | [] => [r]
  | r' :: t' => if le r r' then r :: t else r' :: order_insert le r t'
  end.
Definition order_by (le : R → R → bool) t : list R := foldr (order_insert le) [] t.

(** ** Lookup *)

Lemma fetchone_some p t r : fetchone p t = Some r → r ∈ t ∧ p r = true.
Proof. intros [??]%find_some. by rewrite list_elem_of_In. Qed.

Lemma fetchone_none p t r : fetchone p t = None → r ∈ t → p r = false.
Proof. intros H Hr. eapply find_none in H; [done|]. by apply list_elem_of_In. Qed.

Lemma fetchone_all_false p t : (∀ r, r ∈ t → p r = false) → fetchone p t = None.
Proof.
  intros H. destruct (fetchone p t) as [r|] eqn:E; [|done].
  apply fetchone_some in E as [Hr Hp]. rewrite H in Hp; done.
Qed.

Lemma fetchone_app p t r :
  fetchone p (t ++ [r]) =
    match fetchone p t with Some x => Some x | None => if p r then Some r else None end.
Proof. induction t as [|x t IH]; simpl; [done|]. by destruct (p x). Qed.

Lemma fetchone_app_some p t u r : fetchone p t = Some r → fetchone p (t ++ u) = Some r.
Proof. induction t as [|x t IH]; simpl; [done|]. by destruct (p x). Qed.

Lemma fetchone_app_none p t u : fetchone p t = None → fetchone p (t ++ u) = fetchone p u.
Proof. induction t as [|x t IH]; simpl; [done|]. by destruct (p x). Qed.

Lemma fetchone_update p q f t :
  (∀ r, q r = true → p (f r) = p r) →
  fetchone p (update q f t) = (λ r, if q r then f r else r) <$> fetchone p t.
Proof.
  intros Hf. induction t as [|x t IH]; simpl; [done|].
  destruct (q x) eqn:Hq.
  - rewrite Hf by done. destruct (p x); simpl; by rewrite ?Hq.
  - destruct (p x); simpl; by rewrite ?Hq.
Qed.

Lemma elem_of_update p f t r :
  r ∈ update p f t ↔ ∃ r', r' ∈ t ∧ r = (if p r' then f r' else r').
Proof.
  unfold update. rewrite list_elem_of_fmap. naive_solver.
Qed.

Lemma update_in p f t r : r ∈ t → (if p r then f r else r) ∈ update p f t.
Proof. intros Hr. apply elem_of_update. by exists r. Qed.

Lemma elem_of_select p t r : r ∈ select p t ↔ r ∈ t ∧ p r = true.
Proof. unfold select. by rewrite !list_elem_of_In, filter_In. Qed.

Lemma exists_row_spec p t : exists_row p t = true ↔ ∃ r, r ∈ t ∧ p r = true.
Proof.
  unfold exists_row. rewrite existsb_exists. by setoid_rewrite list_elem_of_In.
Qed.

Lemma exists_row_false p t : exists_row p t = false ↔ ∀ r, r ∈ t → p r = false.
Proof.
  split.
  - intros H r Hr. destruct (p r) eqn:E; [|done].
    assert (exists_row p t = true) by (apply exists_row_spec; eauto). congruence.
  - intros H. destruct (exists_row p t) eqn:E; [|done].
    apply exists_row_spec in E as (r & Hr & Hp). rewrite H in Hp; done.
Qed.

Lemma update_id p f t : (∀ r, r ∈ t → p r = true → f r = r) → update p f t = t.
Proof.
  induction t as [|x t IH]; intros H; simpl; [done|].
  rewrite IH by set_solver. destruct (p x) eqn:E; [|done]. rewrite H; set_solver.
Qed.

Lemma length_update p f t : length (update p f t) = length t.
Proof. apply length_map. Qed.

Lemma update_app p f t u : update p f (t ++ u) = update p f t ++ update p f u.
Proof. apply map_app. Qed.

Lemma map_update {K} (k : R → K) p f t :
  (∀ r, k (f r) = k r) → map k (update p f t) = map k t.
Proof.
  intros H. unfold update. rewrite map_map. apply map_ext. intros r. by destruct (p r).
Qed.

Lemma map_update_in {K} (k : R → K) p f t :
  (∀ r, r ∈ t → p r = true → k (f r) = k r) → map k (update p f t) = map k t.
Proof.
  intros H. unfold update. rewrite map_map. apply map_ext_in. intros r Hr%list_elem_of_In.
  destruct (p r) eqn:E; auto.
Qed.

Lemma NoDup_key_inj {K} (k : R → K) t x y :
  NoDup (map k t) → x ∈ t → y ∈ t → k x = k y → x = y.
Proof.
  induction t as [|z t IH]; simpl; [set_solver|].
  intros [Hz Hn]%NoDup_cons Hx Hy E.
  apply elem_of_cons in Hx as [->|Hx]; apply elem_of_cons in Hy as [->|Hy]; eauto.
  - exfalso. apply Hz. rewrite E. by apply list_elem_of_fmap_2.
  - exfalso. apply Hz. rewrite <- E. by apply list_elem_of_fmap_2.
Qed.

(** Statements see only rows their predicate admits. *)
Lemma fetchone_within p q t : (∀ r, p r = true → q r = true) → fetchone p t = fetchone p (select q t).
Proof.
  intros Hpq. induction t as [|x t IH]; simpl; [done|]. destruct (p x) eqn:E; [rewrite (Hpq x E); simpl; by rewrite E|].
  destruct (q x); simpl; [by rewrite E|done].
Qed.

Lemma select_none p t : (∀ r, r ∈ t → p r = false) → select p t = [].
Proof.
  intros Hp. unfold select. induction t as [|x t IH]; [done|]. simpl. rewrite (Hp x) by (by left). apply IH. intros r Hr. apply Hp. by right.
Qed.
Lemma select_within p q t : (∀ r, p r = true → q r = true) → select p t = select p (select q t).
Proof.
  intros Hpq. unfold select. induction t as [|x t IH]; simpl; [done|].
  destruct (p x) eqn:E; [rewrite (Hpq x E); simpl; by rewrite E, IH|]. destruct (q x); simpl; [by rewrite E|done].
Qed.

Lemma select_update_other p q f t : (∀ r, r ∈ t → q r = true → p r = false ∧ p (f r) = false) → select p (update q f t) = select p t.
Proof.
  unfold select. induction t as [|x t IH]; intros Hf; simpl; [done|]. rewrite IH by (intros r Hr; apply Hf; by right).
  destruct (q x) eqn:E; [|done]. destruct (Hf x ltac:(by left) E) as [-> ->]. done.
Qed.

Lemma select_app p t t' : select p (t ++ t') = select p t ++ select p t'.
Proof. apply List.filter_app. Qed.

(** A [WHERE] on a unique key writes one row. *)
Lemma update_unique {K} (k : R → K) p q f r t :
  NoDup (map k t) → r ∈ t → p r = true → q r = true → (∀ x, p x = true → k x = k r) → (∀ x, q x = true → k x = k r) →
  update p f t = update q (λ _, f r) t.
Proof.
  intros Hn Hr Hp Hq Hpk Hqk. apply map_ext_in. intros x Hx%list_elem_of_In.
  destruct (p x) eqn:Ep.
  - rewrite (NoDup_key_inj k t x r Hn Hx Hr (Hpk x Ep)). by rewrite Hq.
  - destruct (q x) eqn:Eq; [|done]. rewrite (NoDup_key_inj k t x r Hn Hx Hr (Hqk x Eq)) in Ep. congruence.
Qed.

Lemma Forall_update (P : R → Prop) p f t :
  Forall P t → (∀ r, r ∈ t → p r = true → P r → P (f r)) → Forall P (update p f t).
Proof.
  rewrite !Forall_forall. intros Ht Hf r (r' & Hr' & ->)%elem_of_update.
  destruct (p r') eqn:E; eauto.
Qed.

(** ** Insertion and unique keys *)

Lemma insert_some clash r t t' :
  insert clash r t = Some t' → t' = t ++ [r] ∧ ∀ x, x ∈ t → clash r x = false.
Proof.
  unfold insert. destruct (existsb _ _) eqn:E; [done|]. intros [= <-]. split; [done|].
  by apply exists_row_false.
Qed.

Lemma insert_fresh clash r t :
  (∀ x, x ∈ t → clash r x = false) → insert clash r t = Some (t ++ [r]).
Proof. intros H. unfold insert. apply exists_row_false in H. unfold exists_row in H. by rewrite H. Qed.

Lemma insert_NoDup {K} (k : R → K) clash r t t' :
  (∀ a b, k a = k b → clash a b = true) →
  insert clash r t = Some t' → NoDup (map k t) → NoDup (map k t').
Proof.
  intros Hc [-> Hf]%insert_some Hn. rewrite map_app. apply NoDup_app. split; [done|].
  split; [|apply NoDup_singleton]. intros x Hx. simpl. intros ->%list_elem_of_singleton.
  apply list_elem_of_fmap in Hx as (y & Hy & Hin). specialize (Hf _ Hin).
  rewrite Hc in Hf; congruence.
Qed.

Lemma NoDup_select {K} (k : R → K) p t : NoDup (map k t) → NoDup (select p t).
Proof.
  induction t as [|x t IH]; simpl; [intros; constructor|]. intros [Hx Hn]%NoDup_cons.
  destruct (p x); [|auto]. apply NoDup_cons. split; [|auto].
  intros [Hin _]%elem_of_select. apply Hx. by apply list_elem_of_fmap_2.
Qed.
Lemma NoDup_map_select {K} (k : R → K) p t : NoDup (map k t) → NoDup (map k (select p t)).
Proof.
  unfold select. induction t as [|x t IH]; simpl; [constructor|]. intros [Hx Hn]%NoDup_cons. destruct (p x); simpl; [|auto].
  apply NoDup_cons. split; [|auto]. intros (y & Hy & [Hin _]%elem_of_select)%list_elem_of_fmap. apply Hx. rewrite Hy. by apply list_elem_of_fmap_2.
Qed.

Lemma elem_of_delete p t r : r ∈ delete_where p t ↔ r ∈ t ∧ p r = false.
Proof. unfold delete_where. rewrite !list_elem_of_In, filter_In. by rewrite negb_true_iff. Qed.
Lemma NoDup_map_delete {K} (k : R → K) p t : NoDup (map k t) → NoDup (map k (delete_where p t)).
Proof.
  unfold delete_where. induction t as [|x t IH]; simpl; [done|]. intros [Hx Hn]%NoDup_cons. destruct (negb (p x)); [|auto].
  apply NoDup_cons. split; [|auto]. intros (y & E & [Hy _]%elem_of_delete)%list_elem_of_fmap. apply Hx. rewrite E. by apply list_elem_of_fmap_2.
Qed.

Lemma fetchone_unique {K} (k : R → K) p t r :
  NoDup (map k t) → r ∈ t → p r = true → (∀ x, p x = true → k x = k r) →
  fetchone p t = Some r.
Proof.
  intros Hn Hr Hp Hk. destruct (fetchone p t) as [x|] eqn:E.
  - apply fetchone_some in E as [Hx Hpx]. f_equal. eapply NoDup_key_inj; eauto.
  - eapply fetchone_none in E; [|done]. congruence.
Qed.

Lemma fetchone_only p t r : r ∈ t → p r = true → (∀ x, x ∈ t → p x = true → x = r) → fetchone p t = Some r.
Proof.
  intros Hr Hp Hx. destruct (fetchone p t) as [x|] eqn:E.
  - apply fetchone_some in E as [Hin Hpx]. by rewrite (Hx x Hin Hpx).
  - by rewrite (fetchone_none _ _ _ E Hr) in Hp.
Qed.

Lemma fetchone_split p t r : fetchone p t = Some r →
  ∃ l1 l2, t = l1 ++ r :: l2 ∧ Forall (λ x, p x = false) l1 ∧ p r = true.
Proof.
  induction t as [|x t IH]; simpl; [done|]. destruct (p x) eqn:E.
  - intros [= <-]. by exists [], t.
  - intros (l1 & l2 & -> & Hf & Hp)%IH. exists (x :: l1), l2. split_and!; [done|by constructor|done].
Qed.

Lemma fetchone_none_forall p t : fetchone p t = None → Forall (λ x, p x = false) t.
Proof. intros H. apply Forall_forall. intros x Hx. by eapply fetchone_none. Qed.

(** ** Sums and counts *)

Lemma sum_app f p t u : sum f p (t ++ u) = sum f p t + sum f p u.
Proof. induction t as [|x t IH]; simpl; [done|]. rewrite IH. lia. Qed.

Lemma sum_snoc f p t r : sum f p (t ++ [r]) = sum f p t + (if p r then f r else 0).
Proof. rewrite sum_app. simpl. lia. Qed.

Lemma sum_ext f p t t' :
  Forall2 (λ r r', (if p r then f r else 0) = (if p r' then f r' else 0)) t t' →
  sum f p t = sum f p t'.
Proof. induction 1; simpl; lia. Qed.

Lemma sum_update_same f p q g t :
  (∀ r, r ∈ t → q r = true → (if p (g r) then f (g r) else 0) = (if p r then f r else 0)) →
  sum f p (update q g t) = sum f p t.
Proof.
  induction t as [|x t IH]; intros H; simpl; [done|].
  rewrite IH by set_solver. destruct (q x) eqn:E; [|done]. rewrite H; set_solver.
Qed.

Lemma sum_update_le f p q g t :
  (∀ r, r ∈ t → q r = true → (if p (g r) then f (g r) else 0) ≤ (if p r then f r else 0)) →
  sum f p (update q g t) ≤ sum f p t.
Proof.
  induction t as [|x t IH]; intros H; simpl; [done|].
  pose proof (IH ltac:(set_solver)). destruct (q x) eqn:E; [|lia]. pose proof (H x ltac:(set_solver) E). lia.
Qed.

(** A [WHERE] on a unique key changes one summand. *)
Lemma sum_update_unique {K} (k : R → K) f p q g t r :
  NoDup (map k t) → r ∈ t → q r = true → (∀ x, q x = true → k x = k r) →
  sum f p (update q g t) =
    sum f p t - (if p r then f r else 0) + (if p (g r) then f (g r) else 0).
Proof.
  intros Hn Hr Hq Hk. induction t as [|x t IH]; [set_solver|].
  simpl in *. apply NoDup_cons in Hn as [Hx Hn].
  apply elem_of_cons in Hr as [<-|Hr].
  - rewrite Hq. rewrite (sum_update_same f p q g t); [lia|].
    intros y Hy Hqy. exfalso. apply Hx. rewrite <- (Hk y Hqy). by apply list_elem_of_fmap_2.
  - rewrite IH by done. destruct (q x) eqn:E; [|lia].
    exfalso. apply Hx. rewrite (Hk x E). by apply list_elem_of_fmap_2.
Qed.

Lemma sum_nonneg f p t : (∀ r, r ∈ t → p r = true → 0 ≤ f r) → 0 ≤ sum f p t.
Proof.
  induction t as [|x t IH]; intros H; simpl; [done|].
  assert (0 ≤ sum f p t) by (apply IH; set_solver).
  destruct (p x) eqn:E; [|lia]. pose proof (H x ltac:(set_solver) E). lia.
Qed.

Lemma sum_le_elem f p t r :
  (∀ r, r ∈ t → p r = true → 0 ≤ f r) → r ∈ t → p r = true → f r ≤ sum f p t.
Proof.
  induction t as [|x t IH]; intros H Hr Hp; [set_solver|]. simpl.
  apply elem_of_cons in Hr as [<-|Hr].
  - rewrite Hp. pose proof (sum_nonneg f p t ltac:(set_solver)). lia.
  - pose proof (IH ltac:(set_solver) Hr Hp).
    destruct (p x) eqn:E; [pose proof (H x ltac:(set_solver) E)|]; lia.
Qed.

Lemma sum_none f p t : (∀ r, r ∈ t → p r = false) → sum f p t = 0.
Proof.
  induction t as [|x t IH]; intros H; simpl; [done|].
  rewrite IH by set_solver. rewrite (H x) by set_solver. done.
Qed.

Lemma count_sum p t : count p t = sum (λ _, 1) p t.
Proof.
  unfold count, select. induction t as [|x t IH]; simpl; [done|].
  destruct (p x); simpl; lia.
Qed.

Lemma count_only {K} (k : R → K) p t r : NoDup (map k t) → r ∈ t → p r = true → (∀ x, x ∈ t → p x = true → x = r) → count p t = 1.
Proof.
  intros Hn Hr Hp Ho. pose proof (NoDup_select k p t Hn) as Hs. unfold count.
  assert (r ∈ select p t) as Hin by (by apply elem_of_select).
  assert (∀ x, x ∈ select p t → x = r) as Hall by (intros x [? ?]%elem_of_select; auto).
  destruct (select p t) as [|a [|b l]]; [by apply not_elem_of_nil in Hin|done|].
  rewrite (Hall a), (Hall b) in Hs by set_solver. apply NoDup_cons in Hs as [Hs _]. set_solver.
Qed.

Lemma max_of_none f p t : max_of f p t = None ↔ ∀ r, r ∈ t → p r = false.
Proof.
  induction t as [|x t IH]; simpl; [set_solver|]. destruct (p x) eqn:E.
  - split; [by destruct (max_of f p t)|]. intros H. rewrite H in E; set_solver.
  - rewrite IH. set_solver.
Qed.

Lemma max_of_some f p t m : max_of f p t = Some m →
  (∃ r, r ∈ t ∧ p r = true ∧ f r = m) ∧ ∀ r, r ∈ t → p r = true → f r ≤ m.
Proof.
  revert m. induction t as [|x t IH]; simpl; [done|]. intros m H. destruct (p x) eqn:E.
  - destruct (max_of f p t) as [k|] eqn:K; injection H as <-.
    + destruct (IH k eq_refl) as [(r & Hr & Hp & Hf) Hle]. split.
      * destruct (Z.max_spec (f x) k) as [[? ->]|[? ->]]; [exists r|exists x]; set_solver.
      * intros y [->|Hy]%elem_of_cons Py; [lia|]. specialize (Hle y Hy Py). lia.
    + split; [exists x; set_solver|]. intros y [->|Hy]%elem_of_cons Py; [lia|].
      rewrite max_of_none in K. rewrite K in Py; done.
  - destruct (IH m H) as [(r & Hr & Hp & Hf) Hle]. split; [exists r; set_solver|].
    intros y [->|Hy]%elem_of_cons Py; [congruence|]. auto.
Qed.

Lemma max_of_snoc f p t r : max_of f p (t ++ [r]) =
  if p r then Some (match max_of f p t with Some m => Z.max (f r) m | None => f r end) else max_of f p t.
Proof.
  induction t as [|x t IH]; simpl; [by destruct (p r)|]. rewrite IH.
  destruct (p x), (p r), (max_of f p t); f_equal; lia.
Qed.

(** ** Ordering *)

Lemma elem_of_order_insert le r t x : x ∈ order_insert le r t ↔ x = r ∨ x ∈ t.
Proof.
  induction t as [|y t IH]; simpl; [set_solver|]. destruct (le r y); set_solver.
Qed.

Lemma elem_of_order_by le t x : x ∈ order_by le t ↔ x ∈ t.
Proof.
  induction t as [|y t IH]; simpl; [done|]. rewrite elem_of_order_insert. set_solver.
Qed.

Lemma order_insert_perm le r t : order_insert le r t ≡ₚ r :: t.
Proof.
  induction t as [|y t IH]; simpl; [done|]. destruct (le r y); [done|].
  rewrite IH. apply Permutation_swap.
Qed.

(** Rows already in order stay as they are. *)
Lemma order_by_sorted le t : StronglySorted (λ a b, le a b = true) t → order_by le t = t.
Proof.
  induction 1 as [|x t Hs IH Hx]; simpl; [done|]. rewrite IH. destruct t as [|y t]; simpl; [done|].
  apply Forall_inv in Hx. by rewrite Hx.
Qed.

Lemma select_and p q t : select (λ r, p r && q r) t = select q (select p t).
Proof. unfold select. induction t as [|x t IH]; simpl; [done|]. destruct (p x); simpl; [|done]. by rewrite IH. Qed.

Lemma order_by_perm le t : order_by le t ≡ₚ t.
Proof. induction t as [|y t IH]; simpl; [done|]. by rewrite order_insert_perm, IH. Qed.
End Statements.

Create HintDb sql.
#[export] Hint Rewrite @sum_snoc @sum_app @length_update @update_app @count_sum : sql.
#[export] Hint Resolve fetchone_some insert_fresh : sql.
