(* ===== verification/Feed.v ===== *)
(** * Numbered feeds and their pages

    A change feed is a table whose column is numbered without a gap; a client
    reads it in pages of at most [limit] rows after a cursor. *)

From stdpp Require Import base option list sorting strings numbers sets.
From Stdlib Require Import ZArith Lia.
From S2P Require Import Prelude Sql.

Open Scope Z_scope.

(** ** Pages *)

(** [rows[:limit]], and [LIMIT] of a statement. *)
Definition take (n : Z) {A} (l : list A) : list A := firstn (Z.to_nat n) l.

Definition clamp (limit : Z) (top : Z) : Z := Z.max 1 (Z.min limit top).

(** A list comprehension whose element may raise. *)
Fixpoint map_res {E A B} (f : A → res E B) (l : list A) : res E (list B) :=
  match l with
  | [] => Ok []
  | a :: l' => b ← f a; bs ← map_res f l'; Ok (b :: bs)
  end.

(** ** Numbered columns *)

(** Column [f] of the selected rows is [base + 1, base + 2, ...]. *)
Definition numbered {R} (f : R → Z) (p : R → bool) (base : Z) (t : list R) : Prop :=
  map f (select p t) = seqZ (base + 1) (count p t).

Section Numbered.
Context {R : Type} (f : R → Z) (p : R → bool) (base : Z).
Implicit Type t : list R.

Lemma select_snoc t r : select p (t ++ [r]) = select p t ++ (if p r then [r] else []).
Proof. unfold select. rewrite List.filter_app. simpl. by destruct (p r). Qed.

Lemma count_snoc t r : count p (t ++ [r]) = count p t + (if p r then 1 else 0).
Proof. unfold count. rewrite select_snoc, length_app. destruct (p r); simpl; lia. Qed.

Lemma count_nonneg t : 0 ≤ count p t.
Proof. unfold count. lia. Qed.

Lemma numbered_skip t r : p r = false → numbered f p base t → numbered f p base (t ++ [r]).
Proof. unfold numbered. intros E H. rewrite select_snoc, count_snoc, E, app_nil_r, Z.add_0_r. done. Qed.

Lemma numbered_next t r :
  p r = true → f r = base + count p t + 1 → numbered f p base t → numbered f p base (t ++ [r]).
Proof.
  unfold numbered. intros E Hf H. rewrite select_snoc, count_snoc, E, map_app, H. simpl.
  unfold count in *. replace (Z.of_nat (length (select p t)) + 1) with (Z.of_nat (S (length (select p t)))) by lia.
  rewrite seqZ_S, Hf. do 2 f_equal. lia.
Qed.

Lemma numbered_elem t r : numbered f p base t → r ∈ t → p r = true → base < f r ≤ base + count p t.
Proof.
  intros H Hr Hp. assert (f r ∈ map f (select p t)) as Hin by (apply list_elem_of_fmap_2, elem_of_select; done).
  rewrite H in Hin. apply elem_of_seqZ in Hin. lia.
Qed.

Lemma numbered_max_from t : numbered f p base t → default base (max_of f p t) = base + count p t.
Proof.
  intros H. destruct (max_of f p t) as [m|] eqn:E; simpl.
  - apply max_of_some in E as [(r & Hr & Hp & <-) Hle].
    assert (0 < count p t) as Hc.
    { unfold count. destruct (select p t) eqn:Es; [|simpl; lia].
      assert (r ∈ select p t) as Hin by by apply elem_of_select. rewrite Es in Hin. set_solver. }
    assert (base + count p t ∈ map f (select p t)) as Hin by (rewrite H; apply elem_of_seqZ; lia).
    apply list_elem_of_fmap in Hin as (x & Hx & [Hin Px]%elem_of_select). specialize (Hle x Hin Px).
    pose proof (numbered_elem t r H Hr Hp). lia.
  - assert (select p t = []) as Hs.
    { destruct (select p t) as [|x l] eqn:Es; [done|]. exfalso.
      assert (x ∈ select p t) as [Hx Px]%elem_of_select by (rewrite Es; set_solver).
      rewrite max_of_none in E. rewrite E in Px; done. }
    unfold count. rewrite Hs. simpl. lia.
Qed.

Lemma select_update_map {K} (k : R → K) q g t :
  (∀ r, r ∈ t → q r = true → p (g r) = p r) → (∀ r, r ∈ t → q r = true → k (g r) = k r) →
  map k (select p (update q g t)) = map k (select p t).
Proof.
  induction t as [|x t IH]; intros Hp Hk; simpl; [done|].
  specialize (IH ltac:(set_solver) ltac:(set_solver)).
  destruct (q x) eqn:Q.
  - rewrite Hp by set_solver. destruct (p x); simpl; [|done]. rewrite Hk by set_solver. by f_equal.
  - destruct (p x); simpl; [|done]. by f_equal.
Qed.

Lemma count_update q g t : (∀ r, r ∈ t → q r = true → p (g r) = p r) → count p (update q g t) = count p t.
Proof.
  intros Hp. unfold count. rewrite <- (length_map f (select p (update q g t))), <- (length_map f (select p t)).
  pose proof (select_update_map (λ _, tt) q g t Hp ltac:(done)) as E.
  apply (f_equal length) in E. rewrite !length_map in *. by rewrite E.
Qed.

Lemma numbered_update q g t :
  (∀ r, r ∈ t → q r = true → p (g r) = p r) → (∀ r, r ∈ t → q r = true → f (g r) = f r) →
  numbered f p base t → numbered f p base (update q g t).
Proof. unfold numbered. intros Hp Hf H. by rewrite select_update_map, count_update. Qed.
End Numbered.

Lemma numbered_max {R} (f : R → Z) p t : numbered f p 0 t → default 0 (max_of f p t) = count p t.
Proof. intros H. by rewrite (numbered_max_from _ _ _ _ H). Qed.

(** ** Pages of a numbered column *)

Lemma seq_sorted {R} (f : R → Z) m n l :
  map f l = seqZ m n → StronglySorted (λ a b, (f a <=? f b) = true) l.
Proof.
  revert m n. induction l as [|x l IH]; intros m n E; constructor.
  - destruct (decide (0 < n)) as [Hn|Hn]; [|by rewrite seqZ_nil in E by lia].
    rewrite seqZ_cons in E by done. injection E as _ E. by eapply IH.
  - destruct (decide (0 < n)) as [Hn|Hn]; [|by rewrite seqZ_nil in E by lia].
    rewrite seqZ_cons in E by done. injection E as Hx E. rewrite Forall_forall. intros y Hy.
    assert (f y ∈ map f l) as Hin by by apply list_elem_of_fmap_2.
    rewrite E in Hin. apply elem_of_seqZ in Hin. apply Z.leb_le. lia.
Qed.

Lemma seq_after {R} (f : R → Z) m n l after :
  map f l = seqZ m n → m ≤ after + 1 →
  map f (select (λ c, after <? f c) l) = seqZ (after + 1) (m + n - (after + 1)).
Proof.
  revert m n. induction l as [|x l IH]; intros m n E Hm.
  - destruct (decide (0 < n)) as [Hn|Hn]; [by rewrite seqZ_cons in E|]. rewrite seqZ_nil by lia. done.
  - destruct (decide (0 < n)) as [Hn|Hn]; [|by rewrite seqZ_nil in E by lia].
    rewrite seqZ_cons in E by done. injection E as Hx E. simpl.
    destruct (after <? f x) eqn:Hc; bools.
    + assert (m = after + 1) as -> by lia. simpl. rewrite Hx.
      assert (select (λ c, after <? f c) l = l) as ->.
      { unfold select. apply forallb_filter_id, forallb_forall. intros y Hy%list_elem_of_In.
        assert (f y ∈ map f l) as Hin by by apply list_elem_of_fmap_2.
        rewrite E in Hin. apply elem_of_seqZ in Hin. apply Z.ltb_lt. lia. }
      rewrite E, (seqZ_cons (after + 1)) by lia. f_equal. f_equal; lia.
    + rewrite (IH _ _ E) by lia. f_equal. lia.
Qed.

Lemma seq_take {R} (f : R → Z) m n k l : map f l = seqZ m n → 0 ≤ k → map f (take k l) = seqZ m (Z.min k n).
Proof.
  intros E Hk. unfold take. rewrite <- firstn_map, E.
  destruct (decide (k < n)) as [Hkn|Hkn].
  - replace n with (k + (n - k)) at 1 by lia. rewrite seqZ_app by lia.
    rewrite take_app_length' by (rewrite length_seqZ; lia). f_equal. lia.
  - rewrite take_ge by (rewrite length_seqZ; lia). f_equal. lia.
Qed.

Lemma seq_length {R} (f : R → Z) m n l : map f l = seqZ m n → 0 ≤ n → Z.of_nat (length l) = n.
Proof. intros E Hn. rewrite <- (length_map f), E, length_seqZ. lia. Qed.

Lemma seq_last {R} (f : R → Z) after n l :
  map f l = seqZ (after + 1) n → 0 ≤ n → from_option f after (last l) = after + n.
Proof.
  intros E Hn. destruct (decide (n = 0)) as [->|Hz].
  - apply map_eq_nil in E as ->. simpl. lia.
  - replace n with (Z.of_nat (S (Z.to_nat (n - 1)))) in E by lia. rewrite seqZ_S in E.
    destruct l as [|x l _] using rev_ind; [by destruct (seqZ _ _)|].
    rewrite map_app in E. apply app_inj_tail in E as [_ E]. rewrite last_snoc. simpl. lia.
Qed.

Lemma map_res_ok {E A B} (f : A → res E B) (P : A → B → Prop) l :
  (∀ a, a ∈ l → ∃ b, f a = Ok b ∧ P a b) → ∃ bs, map_res f l = Ok bs ∧ Forall2 P l bs.
Proof.
  induction l as [|x l IH]; intros Hf; simpl; [by exists []|].
  destruct (Hf x) as (b & Eb & Pb); [set_solver|]. destruct IH as (bs & Ebs & Pbs); [set_solver|].
  exists (b :: bs). rewrite Eb. simpl. rewrite Ebs. split; [done|by constructor].
Qed.

Lemma elem_of_take {A} k (l : list A) x : x ∈ take k l → x ∈ l.
Proof.
  unfold take. intros (i & Hi)%list_elem_of_lookup. apply lookup_take_Some in Hi as [? _].
  by eapply list_elem_of_lookup_2.
Qed.

(** A page and the rows after it. *)
Lemma seq_split {R} (f : R → Z) a n k l : map f l = seqZ (a + 1) n → 0 ≤ k → l = take k l ++ select (λ c, a + k <? f c) l.
Proof.
  revert a n k. induction l as [|x l IH]; intros a n k E Hk; [unfold take; by rewrite firstn_nil|].
  destruct (decide (0 < n)) as [Hn|Hn]; [|by rewrite seqZ_nil in E by lia].
  rewrite seqZ_cons in E by done. injection E as Hx E.
  assert (Z.succ (a + 1) = (a + 1) + 1) as Ha by lia. rewrite Ha in E. unfold take in *. simpl.
  destruct (decide (k = 0)) as [->|Hz].
  - simpl. assert ((a + 0 <? f x) = true) as -> by lia. f_equal.
    pose proof (IH (a + 1) _ 0 E ltac:(lia)) as Hl. simpl in Hl. symmetry. unfold select. apply forallb_filter_id, forallb_forall.
    intros y Hy%list_elem_of_In. assert (f y ∈ map f l) as Hin by by apply list_elem_of_fmap_2.
    rewrite E in Hin. apply elem_of_seqZ in Hin. lia.
  - replace (Z.to_nat k) with (S (Z.to_nat (k - 1))) by lia. simpl. assert ((a + k <? f x) = false) as -> by lia. f_equal.
    rewrite (IH (a + 1) _ (k - 1) E ltac:(lia)) at 1. by replace (a + 1 + (k - 1)) with (a + k) by lia.
Qed.

Lemma numbered_suffix {R} (f : R → Z) p t u r : numbered f p 0 (t ++ u) → r ∈ u → p r = true → count p t < f r.
Proof.
  unfold numbered, count, select. rewrite List.filter_app, map_app, length_app. intros E Hr Hp.
  rewrite Nat2Z.inj_add, seqZ_app in E by lia. apply app_inj_1 in E as [_ E]; [|by rewrite length_map, length_seqZ; lia].
  assert (f r ∈ map f (List.filter p u)) as Hin by (apply list_elem_of_fmap_2, (elem_of_select p u r); done).
  rewrite E in Hin. apply elem_of_seqZ in Hin. lia.
Qed.
