(* ===== verification/PyFloat.v ===== *)
(** * Python's true division of integers and [math.ceil]

    The billing code divides integers with [/] and rounds up with
    [math.ceil]. [/] on two [int]s yields the IEEE-754 double nearest to the
    exact quotient (ties to even) or raises [OverflowError]; a double is held
    here as [fman * 2 ^ fexp]. *)

From Stdlib Require Import ZArith Lia.
From stdpp Require Import base option numbers.
From S2P Require Import Prelude.

Open Scope Z_scope.

Record double := { fman : Z; fexp : Z }.

(** Nearest integer to [a / b], ties to even. *)
Definition rne (a b : Z) : Z :=
  let q := a / b in
  let r := a mod b in
  if 2 * r <? b then q
  else if b <? 2 * r then q + 1
  else if Z.even q then q else q + 1.

(** The quotient of positive integers scaled by [2 ^ -e], as a fraction. *)
Definition scaled_num (n e : Z) : Z := if 0 <=? e then n else n * 2 ^ (- e).
Definition scaled_den (d e : Z) : Z := if 0 <=? e then d * 2 ^ e else d.

(** Exponent that leaves a 53-bit significand, or the subnormal one. *)
Definition quot_exp (n d : Z) : Z :=
  let e := Z.log2 n - Z.log2 d - 52 in
  let e := if scaled_num n e <? scaled_den d e * 2 ^ 52 then e - 1 else e in
  Z.max e (-1074).

(** [n / d] for [0 <= n] and [0 < d]; [None] is [OverflowError]. *)
Definition truediv (n d : Z) : option double :=
  if n =? 0 then Some {| fman := 0; fexp := 0 |}
  else
    let e := quot_exp n d in
    let m := rne (scaled_num n e) (scaled_den d e) in
    if (0 <=? e) && (2 ^ 1024 <=? m * 2 ^ e) then None
    else Some {| fman := m; fexp := e |}.

(** [math.ceil] of a double is an exact integer. *)
Definition ceil (f : double) : Z :=
  if 0 <=? fexp f then fman f * 2 ^ fexp f else cdiv (fman f) (2 ^ (- fexp f)).

(** [math.ceil(n / d)] *)
Definition ceil_truediv (n d : Z) : option Z := ceil <$> truediv n d.

(** [math.floor] of a double, and of [n / d]. *)
Definition floor (f : double) : Z :=
  if 0 <=? fexp f then fman f * 2 ^ fexp f else fman f / 2 ^ (- fexp f).
Definition floor_truediv (n d : Z) : option Z := floor <$> truediv n d.

(** ** Rounding *)

Lemma rne_error a b : 0 < b → - b ≤ 2 * (rne a b * b - a) ≤ b.
Proof.
  intros Hb. unfold rne. pose proof (Z.div_mod a b ltac:(lia)).
  pose proof (Z.mod_pos_bound a b Hb).
  destruct (Z.ltb_spec (2 * (a mod b)) b); [nia|].
  destruct (Z.ltb_spec b (2 * (a mod b))); [nia|].
  destruct (Z.even _); nia.
Qed.

Lemma rne_nonneg a b : 0 < b → 0 ≤ a → 0 ≤ rne a b.
Proof. intros Hb Ha. pose proof (rne_error a b Hb). nia. Qed.

Lemma rne_exact q b : 0 < b → rne (q * b) b = q.
Proof. intros Hb. pose proof (rne_error (q * b) b Hb). nia. Qed.

Lemma quot_exp_ge n d : -1074 ≤ quot_exp n d.
Proof. unfold quot_exp. lia. Qed.

Lemma quot_exp_small n d :
  0 < n < 2 ^ 53 → 0 < d < 2 ^ 1000 → quot_exp n d ≤ - Z.log2 d.
Proof.
  intros Hn Hd. unfold quot_exp.
  assert (Z.log2 n ≤ 52) by (apply Z.lt_succ_r, Z.log2_lt_pow2; lia).
  assert (Z.log2 d < 1000) by (apply Z.log2_lt_pow2; lia).
  destruct (_ <? _); lia.
Qed.

(** The product of a small numerator fits the 53-bit significand, so the
    rounding of the quotient cannot cross an integer. *)
Lemma ceil_truediv_exact n d :
  0 ≤ n < 2 ^ 53 → 0 < d < 2 ^ 1000 → ceil_truediv n d = Some (cdiv n d).
Proof.
  intros Hn Hd. unfold ceil_truediv, truediv.
  destruct (Z.eqb_spec n 0) as [->|Hn0].
  { reflexivity. }
  pose proof (quot_exp_small n d ltac:(lia) Hd) as He.
  pose proof (Z.log2_nonneg d) as Hl.
  set (e := quot_exp n d) in *. unfold scaled_num, scaled_den.
  destruct (Z.eq_dec e 0) as [E0|E0].
  - (* a unit divisor: the quotient is the numerator *)
    rewrite E0. simpl. assert (d = 1) as ->.
    { pose proof (Z.log2_spec d ltac:(lia)).
      assert (Z.log2 d = 0) as El by lia. rewrite El in *. simpl in *. lia. }
    change (1 * 2 ^ 0) with 1.
    assert (rne n 1 = n) as Hr by (pose proof (rne_exact n 1); rewrite Z.mul_1_r in *; auto with lia).
    rewrite Hr. destruct (Z.leb_spec (2 ^ 1024) (n * 2 ^ 0)); [lia|]. simpl. f_equal.
    unfold ceil. simpl. symmetry. apply cdiv_unique; lia.
  - destruct (Z.leb_spec 0 e); [lia|]. simpl. f_equal. unfold ceil. simpl.
    destruct (Z.leb_spec 0 e); [lia|].
    pose proof (Z.log2_spec d ltac:(lia)) as [_ Hd2].
    assert (0 < 2 ^ (- e)) as HE by (apply Z.pow_pos_nonneg; lia).
    assert (d < 2 * 2 ^ (- e)) as HdE.
    { eapply Z.lt_le_trans; [exact Hd2|].
      rewrite <- Z.pow_succ_r by lia. apply Z.pow_le_mono_r; lia. }
    pose proof (rne_error (n * 2 ^ (- e)) d ltac:(lia)) as Hr.
    pose proof (cdiv_spec n d ltac:(lia)) as Hc.
    apply cdiv_unique; [done|]. nia.
Qed.

Lemma floor_truediv_exact n d :
  0 ≤ n < 2 ^ 53 → 1 < d < 2 ^ 1000 → floor_truediv n d = Some (n / d).
Proof.
  intros Hn Hd. unfold floor_truediv, truediv.
  destruct (Z.eqb_spec n 0) as [->|Hn0]; [reflexivity|].
  pose proof (quot_exp_small n d ltac:(lia) ltac:(lia)) as He.
  assert (0 < Z.log2 d) by (apply Z.log2_pos; lia).
  set (e := quot_exp n d) in *. unfold scaled_num, scaled_den.
  destruct (Z.leb_spec 0 e); [lia|]. simpl. f_equal. unfold floor. simpl.
  destruct (Z.leb_spec 0 e); [lia|].
  pose proof (Z.log2_spec d ltac:(lia)) as [_ Hd2].
  assert (0 < 2 ^ (- e)) as HE by (apply Z.pow_pos_nonneg; lia).
  assert (d < 2 * 2 ^ (- e)) as HdE.
  { eapply Z.lt_le_trans; [exact Hd2|]. rewrite <- Z.pow_succ_r by lia. apply Z.pow_le_mono_r; lia. }
  pose proof (rne_error (n * 2 ^ (- e)) d ltac:(lia)) as Hr.
  pose proof (Z.div_mod n d ltac:(lia)). pose proof (Z.mod_pos_bound n d ltac:(lia)).
  symmetry. apply Z.div_unique with (rne (n * 2 ^ - e) d - 2 ^ (- e) * (n / d)); [left|lia]. nia.
Qed.

(** Rounding is monotone in the direction that matters for a charge: a
    non-negative quotient never rounds to a negative one. *)
Lemma ceil_truediv_nonneg n d c : 0 ≤ n → 0 < d → ceil_truediv n d = Some c → 0 ≤ c.
Proof.
  intros Hn Hd. unfold ceil_truediv, truediv.
  destruct (Z.eqb_spec n 0) as [->|Hn0].
  { simpl. intros [= <-]. unfold ceil. simpl. lia. }
  set (e := quot_exp n d).
  assert (0 < scaled_den d e) as Hden.
  { unfold scaled_den. destruct (Z.leb_spec 0 e); [|lia].
    pose proof (Z.pow_pos_nonneg 2 e ltac:(lia) ltac:(lia)). nia. }
  assert (0 ≤ scaled_num n e) as Hnum.
  { unfold scaled_num. destruct (Z.leb_spec 0 e); [lia|].
    pose proof (Z.pow_pos_nonneg 2 (- e) ltac:(lia) ltac:(lia)). nia. }
  pose proof (rne_nonneg _ _ Hden Hnum).
  destruct (_ && _); [done|]. simpl. intros [= <-]. unfold ceil. simpl.
  destruct (Z.leb_spec 0 e).
  - pose proof (Z.pow_pos_nonneg 2 e ltac:(lia) ltac:(lia)). nia.
  - apply cdiv_nonneg; [|done]. apply Z.pow_pos_nonneg; lia.
Qed.

(** * Decimal arithmetic

    The router compares reliabilities as [decimal.Decimal]s. A finite decimal
    is a signed coefficient and a power of ten; comparison is exact, and
    operations round to the 28 significant digits of the default context, ties
    to even. Results carry the value of the code's result; the exponent it is
    stored under is not observed. *)

Record Decimal := mkDecimal { dcoef : Z; dexp : Z }.
#[export] Instance Decimal_eq_dec : EqDecision Decimal.
Proof. solve_decision. Defined.

(** [Decimal(n)] *)
Definition dec_of_Z (n : Z) : Decimal := mkDecimal n 0.
(** The coefficient under a smaller exponent. *)
Definition dec_scale (e : Z) (a : Decimal) : Z := dcoef a * 10 ^ (dexp a - e).
(** [a <=> b], on the values. *)
Definition dec_compare (a b : Decimal) : comparison :=
  let e := Z.min (dexp a) (dexp b) in dec_scale e a ?= dec_scale e b.
Definition dec_ltb (a b : Decimal) : bool := match dec_compare a b with Lt => true | _ => false end.

Definition PREC : Z := 28.
(** Decimal digits of a positive integer. *)
Fixpoint count_digits (fuel : nat) (n : Z) : Z :=
  match fuel with
  | O => 0
  | S fuel' => if n <=? 0 then 0 else 1 + count_digits fuel' (n / 10)
  end.
Definition digits (n : Z) : Z := count_digits (S (Z.to_nat (Z.log2 n))) n.

(** Rounding of a coefficient that is too long. *)
Definition dec_fix (a : Decimal) : Decimal :=
  let drop := digits (Z.abs (dcoef a)) - PREC in
  if 0 <? drop then
    mkDecimal (Z.sgn (dcoef a) * rne (Z.abs (dcoef a)) (10 ^ drop)) (dexp a + drop)
  else a.
(** [-a] *)
Definition dec_neg (a : Decimal) : Decimal := dec_fix (mkDecimal (- dcoef a) (dexp a)).
(** [Decimal(n) / Decimal(d)] for [0 <= n] and [0 < d]. *)
Definition dec_div (n d : Z) : Decimal :=
  if n =? 0 then dec_of_Z 0
  else
    let k := PREC + digits d - digits n in
    let k := if d * 10 ^ PREC <=? n * 10 ^ k then k - 1 else k in
    if 0 <=? k then mkDecimal (rne (n * 10 ^ k) d) (- k)
    else mkDecimal (rne n (d * 10 ^ (- k))) (- k).
(** [min(a, b)] keeps the first of equal values. *)
Definition dec_min (a b : Decimal) : Decimal := if dec_ltb b a then b else a.

(** ** Comparison is a total order *)

Lemma dec_scale_exp e e' a : e' ≤ e ≤ dexp a → dec_scale e' a = dec_scale e a * 10 ^ (e - e').
Proof.
  intros H. unfold dec_scale. rewrite <- Z.mul_assoc, <- Z.pow_add_r by lia. do 2 f_equal. lia.
Qed.

(** Any common exponent gives the same answer. *)
Lemma dec_compare_at e a b : e ≤ dexp a → e ≤ dexp b →
  dec_compare a b = (dec_scale e a ?= dec_scale e b).
Proof.
  intros Ha Hb. unfold dec_compare. set (m := Z.min (dexp a) (dexp b)).
  rewrite (dec_scale_exp m e a), (dec_scale_exp m e b) by lia.
  assert (0 < 10 ^ (m - e)) by (apply Z.pow_pos_nonneg; lia).
  symmetry. destruct (Z.compare_spec (dec_scale m a) (dec_scale m b)) as [->|Hl|Hl].
  - apply Z.compare_refl.
  - apply Z.compare_lt_iff. nia.
  - apply Z.compare_gt_iff. nia.
Qed.

Lemma dec_compare_opp a b : dec_compare b a = CompOpp (dec_compare a b).
Proof. unfold dec_compare. rewrite (Z.min_comm (dexp b)). apply Z.compare_antisym. Qed.

Lemma dec_compare_trans a b c :
  dec_compare a b ≠ Gt → dec_compare b c ≠ Gt → dec_compare a c ≠ Gt.
Proof.
  set (e := Z.min (dexp a) (Z.min (dexp b) (dexp c))).
  rewrite (dec_compare_at e a b), (dec_compare_at e b c), (dec_compare_at e a c) by lia.
  rewrite !Z.compare_le_iff. lia.
Qed.

Lemma dec_min_le a b : dec_compare (dec_min a b) a ≠ Gt.
Proof.
  unfold dec_min, dec_ltb. destruct (dec_compare b a) eqn:E; try congruence;
    unfold dec_compare; by rewrite Z.compare_refl.
Qed.
