(* ===== verification/Calendar.v ===== *)
(** * The calendar

    [time.gmtime] and [calendar.timegm] on the proleptic Gregorian calendar:
    the billing period of the ledger and the budget month of the router are
    months of Unix time. Years are counted from March, in eras of 400, so that
    the leap day is the last of its year. *)

From Stdlib Require Import ZArith Lia.
From stdpp Require Import base option numbers.
From S2P Require Import Prelude PyFloat.

Open Scope Z_scope.

(** ** Days and dates *)

(** An era is 400 years; its centuries, their cycles of four years and the
    years of a cycle have equal lengths except the last, which is a day longer. *)
Definition day_of_era (days : Z) : Z := (days + 719468) mod 146097.
Definition century (doe : Z) : Z := Z.min 3 (doe / 36524).
Definition cycle (doe : Z) : Z := (doe - 36524 * century doe) / 1461.
Definition cycle_year (doe : Z) : Z := Z.min 3 ((doe - 36524 * century doe - 1461 * cycle doe) / 365).
Definition year_of_era (doe : Z) : Z := 100 * century doe + 4 * cycle doe + cycle_year doe.
Definition day_of_year (doe : Z) : Z :=
  doe - (36524 * century doe + 1461 * cycle doe + 365 * cycle_year doe).
(** Months since March. *)
Definition march_month (doy : Z) : Z := (5 * doy + 2) / 153.

(** Year, month and day of a day count from 1970-01-01. *)
Definition civil_from_days (days : Z) : Z * Z * Z :=
  let era := (days + 719468) / 146097 in
  let doe := day_of_era days in
  let mp := march_month (day_of_year doe) in
  let m := if mp <? 10 then mp + 3 else mp - 9 in
  (year_of_era doe + era * 400 + (if m <=? 2 then 1 else 0), m,
   day_of_year doe - (153 * mp + 2) / 5 + 1).
Definition civil_month (days : Z) : Z * Z := (civil_from_days days).1.

Definition days_from_civil (date : Z * Z * Z) : Z :=
  let '(y, m, d) := date in
  let y := if m <=? 2 then y - 1 else y in
  let era := y / 400 in
  let yoe := y mod 400 in
  let doy := (153 * (if 2 <? m then m - 3 else m + 9) + 2) / 5 + d - 1 in
  era * 146097 + (yoe * 365 + yoe / 4 - yoe / 100 + doy) - 719468.

(** ** [calendar.timegm] inverts [time.gmtime] *)

Lemma cycle_bounds doe : 0 ≤ doe < 146097 →
  0 ≤ century doe ≤ 3 ∧ 0 ≤ cycle doe ≤ 24 ∧ 0 ≤ cycle_year doe ≤ 3 ∧ 0 ≤ day_of_year doe ≤ 365.
Proof.
  intros H. assert (0 ≤ century doe ≤ 3 ∧ 0 ≤ doe - 36524 * century doe ≤ 36524) as [Hc Hr].
  { unfold century. Z.div_mod_to_equations. lia. }
  assert (0 ≤ cycle doe ≤ 24 ∧ 0 ≤ doe - 36524 * century doe - 1461 * cycle doe ≤ 1460) as [Hy Hs].
  { unfold cycle. revert Hr. generalize (doe - 36524 * century doe). intros. Z.div_mod_to_equations. lia. }
  split; [done|]. split; [done|]. unfold day_of_year, cycle_year. revert Hs.
  generalize (century doe) (cycle doe). intros. Z.div_mod_to_equations. lia.
Qed.

Lemma era_day_bounds days :
  let doe := day_of_era days in 0 ≤ year_of_era doe < 400 ∧ 0 ≤ day_of_year doe ≤ 365.
Proof.
  intros doe. pose proof (cycle_bounds doe ltac:(apply Z.mod_pos_bound; lia)). unfold year_of_era. lia.
Qed.

(** Days before a year of the era. *)
Lemma days_before_year doe : 0 ≤ doe < 146097 → let y := year_of_era doe in
  doe = y * 365 + y / 4 - y / 100 + day_of_year doe.
Proof.
  intros H y. pose proof (cycle_bounds doe H) as (? & ? & ? & _). unfold day_of_year.
  assert (y / 4 = 25 * century doe + cycle doe) as ->.
  { symmetry. apply Z.div_unique with (cycle_year doe); unfold y, year_of_era; lia. }
  assert (y / 100 = century doe) as ->.
  { symmetry. apply Z.div_unique with (4 * cycle doe + cycle_year doe); unfold y, year_of_era; lia. }
  unfold y, year_of_era. lia.
Qed.

Lemma march_month_bounds doy : 0 ≤ doy ≤ 365 → 0 ≤ march_month doy < 12 ∧ (153 * march_month doy + 2) / 5 ≤ doy.
Proof. intros H. unfold march_month. split; Z.div_mod_to_equations; lia. Qed.

(** A date with its day replaced is as many days away as the days differ. *)
Lemma days_from_civil_from_days days d :
  let '(y, m, d0) := civil_from_days days in days_from_civil (y, m, d) = days + (d - d0).
Proof.
  unfold civil_from_days, days_from_civil.
  pose proof (era_day_bounds days) as [Hy Hd]. pose proof (march_month_bounds _ Hd) as [Hm _].
  assert (days + 719468 = 146097 * ((days + 719468) / 146097) + day_of_era days) as He by (apply Z.div_mod; lia).
  pose proof (days_before_year (day_of_era days) ltac:(apply Z.mod_pos_bound; lia)) as Hdoy.
  generalize dependent (day_of_era days). intros doe. generalize ((days + 719468) / 146097).
  cbv zeta. generalize (year_of_era doe) as yoe, (day_of_year doe) as doy.
  intros yoe doy era Hy Hd Hm He Hdoy. set (mp := march_month doy) in *.
  destruct (Z.ltb_spec mp 10).
  - destruct (Z.leb_spec (mp + 3) 2); [lia|]. destruct (Z.ltb_spec 2 (mp + 3)); [|lia].
    replace (yoe + era * 400 + 0) with (yoe + era * 400) by lia.
    rewrite Z.div_add, Z.mod_add, Z.div_small, Z.mod_small by lia.
    replace (mp + 3 - 3) with mp by lia. lia.
  - destruct (Z.leb_spec (mp - 9) 2); [|lia]. destruct (Z.ltb_spec 2 (mp - 9)); [lia|].
    replace (yoe + era * 400 + 1 - 1) with (yoe + era * 400) by lia.
    rewrite Z.div_add, Z.mod_add, Z.div_small, Z.mod_small by lia.
    replace (mp - 9 + 9) with mp by lia. lia.
Qed.

Lemma civil_day_positive days : 1 ≤ (civil_from_days days).2.
Proof.
  unfold civil_from_days. simpl. pose proof (era_day_bounds days) as [_ Hd].
  pose proof (march_month_bounds _ Hd) as [_ H]. lia.
Qed.

(** ** First instant of the month *)

(** [time.gmtime(ms / 1000)] reads the floor of the nearest double;
    [None] is [OverflowError]. *)
Definition gmtime (ms : Z) : option (Z * Z * Z) :=
  (λ secs, civil_from_days (secs / 86400)) <$> floor_truediv ms 1000.
(** [calendar.timegm((y, m, 1, 0, 0, 0, 0, 0, 0)) * 1000] *)
Definition month_start (date : Z * Z * Z) : Z := days_from_civil (date.1, 1) * 86400 * 1000.

Lemma month_start_le ms date : 0 ≤ ms < 2 ^ 53 → gmtime ms = Some date → month_start date ≤ ms.
Proof.
  intros Hms. unfold gmtime. rewrite floor_truediv_exact by lia. simpl. intros [= <-].
  pose proof (days_from_civil_from_days (ms / 1000 / 86400) 1) as H.
  pose proof (civil_day_positive (ms / 1000 / 86400)) as Hd.
  destruct (civil_from_days (ms / 1000 / 86400)) as [[y m] d]. unfold month_start. simpl in *.
  rewrite H. Z.div_mod_to_equations. lia.
Qed.

Lemma gmtime_total ms : 0 ≤ ms < 2 ^ 53 → is_Some (gmtime ms).
Proof. intros H. unfold gmtime. rewrite floor_truediv_exact by lia. eauto. Qed.
