(* ===== verification/Order.v ===== *)
(** * Orders of selection

    Candidates of a selection are ordered by tuples. [lex] compares tuples the
    way Python does; [Ordering] says that a comparison is a total preorder,
    which makes [order_by] a sort. *)

From stdpp Require Import base option list sorting strings numbers sets.
From Stdlib Require Import ZArith Lia.
From S2P Require Import Prelude Sql.

(** ** Lexicographic order

    Python compares tuples by their first difference. [Ordering c] says that
    the comparison [c] is a total preorder; [lex] builds one from the fields
    of a key. *)

Definition lex (c d : comparison) : comparison := match c with Eq => d | _ => c end.
Definition not_greater (c : comparison) : bool := match c with Gt => false | _ => true end.

Class Ordering {A} (c : A → A → comparison) : Prop := {
  ordering_opp x y : c y x = CompOpp (c x y);
  ordering_trans x y z : c x y ≠ Gt → c y z ≠ Gt → c x z ≠ Gt
}.

#[export] Instance Z_ordering : Ordering Z.compare.
Proof.
  split; [intros; apply Z.compare_antisym|]. intros x y z. rewrite !Z.compare_le_iff. lia.
Qed.

#[export] Instance on_ordering {A B} (f : A → B) c `{!Ordering c} : Ordering (λ x y, c (f x) (f y)).
Proof. split; intros; [apply ordering_opp|by eapply ordering_trans]. Qed.

Lemma flip_ordering {A} (c : A → A → comparison) `{!Ordering c} : Ordering (λ x y, c y x).
Proof. split; intros x y; [apply ordering_opp|]. intros z Hxy Hyz. by eapply ordering_trans. Qed.

#[export] Instance lex_ordering {A} (c d : A → A → comparison) `{!Ordering c, !Ordering d} :
  Ordering (λ x y, lex (c x y) (d x y)).
Proof.
  split; intros x y.
  - rewrite (ordering_opp (c := c)), (ordering_opp (c := d)). by destruct (c x y).
  - intros z. pose proof (ordering_trans (c := c) x y z) as T. pose proof (ordering_trans (c := d) x y z) as D.
    pose proof (ordering_trans (c := c) y z x) as T1. pose proof (ordering_trans (c := c) z x y) as T2.
    rewrite (ordering_opp (c := c) x y), (ordering_opp (c := c) x z), (ordering_opp (c := c) y z) in *.
    destruct (c x y), (c y z), (c x z); simpl in *; intuition congruence.
Qed.

#[export] Instance string_ordering : Ordering String.compare.
Proof.
  split; [intros; apply String.compare_antisym|].
  assert (∀ x y, String.compare x y ≠ Gt ↔ String.le x y) as H.
  { intros x y. unfold String.le, String.leb. by destruct (String.compare x y). }
  intros x y z. rewrite !H. by intros; etransitivity.
Qed.

(** ** Sorting *)

Section Sorting.
Context {A : Type} (c : A → A → comparison) `{!Ordering c}.
Definition before (x y : A) : bool := not_greater (c x y).

Lemma before_spec x y : before x y = true ↔ c x y ≠ Gt.
Proof. unfold before. by destruct (c x y). Qed.

Lemma before_total x y : before x y = true ∨ before y x = true.
Proof. rewrite !before_spec, (ordering_opp (c := c) x y). destruct (c x y); simpl; intuition congruence. Qed.

Lemma before_trans x y z : before x y = true → before y z = true → before x z = true.
Proof. rewrite !before_spec. apply (ordering_trans (c := c)). Qed.

Lemma order_insert_sorted x t :
  StronglySorted (λ a b, before a b = true) t → StronglySorted (λ a b, before a b = true) (order_insert before x t).
Proof.
  induction 1 as [|y t Hs IH Hy]; simpl; [repeat constructor|].
  destruct (before x y) eqn:E.
  - constructor; [by constructor|]. constructor; [done|].
    eapply Forall_impl; [done|]. intros z. by apply before_trans.
  - constructor; [done|]. apply Forall_forall. intros z [->|Hz]%elem_of_order_insert.
    + destruct (before_total x y); congruence.
    + rewrite Forall_forall in Hy. auto.
Qed.

Lemma order_by_is_sorted t : StronglySorted (λ a b, before a b = true) (order_by before t).
Proof. induction t as [|x t IH]; simpl; [constructor|]. by apply order_insert_sorted. Qed.

Lemma sorted_select p t :
  StronglySorted (λ a b, before a b = true) t → StronglySorted (λ a b, before a b = true) (select p t).
Proof.
  induction 1 as [|x t Hs IH Hx]; simpl; [constructor|]. destruct (p x); [|done]. constructor; [done|].
  apply Forall_forall. intros y [Hy _]%elem_of_select. rewrite Forall_forall in Hx. auto.
Qed.
End Sorting.

(** A sort does not depend on the order its input comes in. *)
Lemma order_by_unique {A} (c : A → A → comparison) `{!Ordering c} t t' :
  t ≡ₚ t' → (∀ x y, x ∈ t → y ∈ t → c x y = Eq → x = y) → order_by (before c) t = order_by (before c) t'.
Proof.
  intros Hp Hu. apply (StronglySorted_unique_strong (λ a b, before c a b = true)); [|apply (order_by_is_sorted c)..|by rewrite !order_by_perm].
  intros x y Hx Hy Hxy Hyx. rewrite order_by_perm in Hx, Hy. rewrite <- Hp in Hy. apply Hu; [done..|].
  rewrite (before_spec c) in Hxy, Hyx. rewrite (ordering_opp (c := c) x y) in Hyx. by destruct (c x y).
Qed.

(** A sorted list begins with a least element. *)
Lemma sorted_head {A} (le : A → A → bool) x t y :
  (∀ a, le a a = true) → StronglySorted (λ a b, le a b = true) (x :: t) → y ∈ x :: t → le x y = true.
Proof.
  intros Hr Hs Hy. apply StronglySorted_inv in Hs as [_ Hs]. rewrite Forall_forall in Hs.
  apply elem_of_cons in Hy as [->|Hy]; auto.
Qed.

Lemma select_split_perm {A} (p : A → bool) t : select p t ++ select (λ x, negb (p x)) t ≡ₚ t.
Proof.
  induction t as [|x t IH]; simpl; [done|]. destruct (p x); simpl; [by constructor|].
  by rewrite <- Permutation_middle, IH.
Qed.

(** An order that a list contradicts everywhere reverses it. *)
Lemma order_insert_last {A} (le : A → A → bool) x l : (∀ y, y ∈ l → le x y = false) → order_insert le x l = l ++ [x].
Proof.
  induction l as [|y l IH]; intros Hl; simpl; [done|]. rewrite (Hl y) by (by left). rewrite IH; [done|]. intros z Hz. apply Hl. by right.
Qed.
Lemma order_by_reverse {A} (le : A → A → bool) t : StronglySorted (λ a b, le a b = false) t → order_by le t = rev t.
Proof.
  induction 1 as [|x t Hs IH Hx]; [done|]. change (order_by le (x :: t)) with (order_insert le x (order_by le t)). rewrite IH. simpl.
  apply order_insert_last. intros y Hy%list_elem_of_In%in_rev%list_elem_of_In. rewrite Forall_forall in Hx. auto.
Qed.
