(* ===== verification/Json.v ===== *)
(** * Python values read from JSON

    The values [json.loads] returns, with the Python operations the gateway
    applies to them: [dict.get], [isinstance], [type(x) is int], [==] and
    truthiness. A text is a [string]; [len] counts its characters. *)

From Stdlib Require Import ZArith Lia.
From stdpp Require Import base option list strings numbers.
From S2P Require Import Prelude.

Open Scope Z_scope.

(** A finite float is [m * 2 ^ e]. *)
Inductive pyfloat := FFin (m e : Z) | FInf (negative : bool) | FNaN.

#[warnings="-register-all"]
Inductive json :=
| JNull
| JBool (b : bool)
| JInt (z : Z)
| JFloat (f : pyfloat)
| JStr (s : string)
| JList (l : list json)
| JObj (kvs : list (string * json)).

Definition dict := list (string * json).

(** [d.get(k)]: [JNull] when the key is absent, as Python's [None]. *)
Fixpoint assoc {A} (k : string) (d : list (string * A)) : option A :=
  match d with
  | [] => None
  | (k', v) :: d' => if k == k' then Some v else assoc k d'
  end.
Definition get (k : string) (d : dict) : json := default JNull (assoc k d).
Definition keys {A} (d : list (string * A)) : list string := map fst d.

(** [isinstance(x, dict)] and the others, as projections. *)
Definition as_dict (j : json) : option dict := match j with JObj d => Some d | _ => None end.
Definition as_list (j : json) : option (list json) := match j with JList l => Some l | _ => None end.
Definition as_str (j : json) : option string := match j with JStr s => Some s | _ => None end.
(** [type(x) is int]: a [bool] is excluded, unlike [isinstance(x, int)]. *)
Definition as_int (j : json) : option Z := match j with JInt z => Some z | _ => None end.
Definition as_bool (j : json) : option bool := match j with JBool b => Some b | _ => None end.

Definition is_none (j : json) : bool := match j with JNull => true | _ => false end.
Definition is_true (j : json) : bool := match j with JBool true => true | _ => false end.

(** Truth value of a Python object. *)
Definition truthy (j : json) : bool :=
  match j with
  | JNull => false
  | JBool b => b
  | JInt z => negb (z =? 0)
  | JFloat (FFin m _) => negb (m =? 0)
  | JFloat _ => true
  | JStr s => negb (String.eqb s "")
  | JList l => match l with [] => false | _ => true end
  | JObj d => match d with [] => false | _ => true end
  end.

(** [x == n] for an [int] constant [n]: numbers compare by value, and [True]
    is the number one. *)
Definition eq_int (j : json) (n : Z) : bool :=
  match j with
  | JInt z => z =? n
  | JBool b => (if b then 1 else 0) =? n
  | JFloat (FFin m e) => if 0 <=? e then m * 2 ^ e =? n else m =? n * 2 ^ (- e)
  | _ => false
  end.

(** [x == s] for a [str] constant [s]. *)
Definition eq_str (j : json) (s : string) : bool :=
  match j with JStr s' => s' == s | _ => false end.

Definition in_strs (j : json) (l : list string) : bool := existsb (eq_str j) l.

(** ** Text *)

Definition str_len (s : string) : Z := Z.of_nat (String.length s).

Fixpoint str_forall (p : Ascii.ascii → bool) (s : string) : bool :=
  match s with
  | EmptyString => true
  | String c s' => p c && str_forall p s'
  end.

Fixpoint str_exists (p : Ascii.ascii → bool) (s : string) : bool :=
  match s with
  | EmptyString => false
  | String c s' => p c || str_exists p s'
  end.

(** Character classes of the patterns. *)
Definition in_range (lo hi : nat) (c : Ascii.ascii) : bool :=
  (lo <=? Ascii.nat_of_ascii c)%nat && (Ascii.nat_of_ascii c <=? hi)%nat.
Definition is_lower := in_range 97 122.
Definition is_upper := in_range 65 90.
Definition is_digit := in_range 48 57.
Definition is_alnum (c : Ascii.ascii) : bool := is_lower c || is_upper c || is_digit c.
Definition one_of (s : string) (c : Ascii.ascii) : bool := str_exists (Ascii.eqb c) s.

(** [re.fullmatch(first rest{lo,hi}, s)]: one character of [first], then
    between [lo] and [hi] characters of [rest]. *)
Definition fullmatch1 (first rest : Ascii.ascii → bool) (lo hi : Z) (s : string) : bool :=
  match s with
  | EmptyString => false
  | String c s' => first c && str_forall rest s' && (lo <=? str_len s') && (str_len s' <=? hi)
  end.

(** The character that separates the parts of a hashed identity. *)
Definition NUL : string := String (Ascii.ascii_of_nat 0) EmptyString.

(** [s.startswith(p)] *)
Definition startswith (p s : string) : bool := String.prefix p s.

(** [s[:n]] *)
Definition str_take (n : nat) (s : string) : string := String.substring 0 n s.

(** Removes a known prefix. *)
Definition str_drop (n : nat) (s : string) : string := String.substring n (String.length s - n) s.

Lemma prefix_app p s : String.prefix p (p +:+ s) = true.
Proof. induction p as [|c p IH]; simpl; [by destruct s|]. destruct (Ascii.ascii_dec c c); done. Qed.

Lemma startswith_app p s : startswith p (p +:+ s) = true.
Proof. apply prefix_app. Qed.

Lemma app_inj_l p s t : p +:+ s = p +:+ t → s = t.
Proof. induction p as [|c p IH]; simpl; [done|]. intros [= ?]; auto. Qed.

(** Two texts that start differently are different. *)
Lemma startswith_neq p s t : startswith p s = false → s ≠ p +:+ t.
Proof. intros H ->. by rewrite startswith_app in H. Qed.

Lemma assoc_some_in {A} k (d : list (string * A)) v : assoc k d = Some v → (k, v) ∈ d.
Proof.
  induction d as [|[k' v'] d IH]; simpl; [done|]. case_bool_decide; subst.
  - intros [= ->]. left.
  - intros H'. right. auto.
Qed.

Lemma assoc_app_none {A} k (d : list (string * A)) k' v :
  assoc k d = None → assoc k (d ++ [(k', v)]) = if k == k' then Some v else None.
Proof. induction d as [|[k1 v1] d IH]; simpl; [done|]. destruct (k == k1); [done|]. auto. Qed.
