(* ===== verification/Text.v ===== *)
(** * Text checks shared by the stores

    Python's string operations on the characters a [string] holds, and the
    text guards of [gateway/app/activity_store.py] that the other stores reuse:
    control characters, bounded text, credential-like text, pull-request URLs.
    The regular-expression engine, [unicodedata.category] and
    [urllib.parse.unquote] are the library's: parameters. *)

From stdpp Require Import base option list strings numbers sets.
From Stdlib Require Import ZArith Lia Ascii.
From S2P Require Import Prelude Json.

Open Scope string_scope.
Open Scope list_scope.
Open Scope Z_scope.

(** ** [str] methods *)

(** [c.isspace()] on the characters below 256. *)
Definition is_space (c : Ascii.ascii) : bool :=
  in_range 9 13 c || in_range 28 32 c || in_range 133 133 c || in_range 160 160 c.

Fixpoint lstrip (s : string) : string :=
  match s with
  | EmptyString => EmptyString
  | String c s' => if is_space c then lstrip s' else s
  end.
Fixpoint rstrip (s : string) : string :=
  match s with
  | EmptyString => EmptyString
  | String c s' =>
      match rstrip s' with
      | EmptyString => if is_space c then EmptyString else String c EmptyString
      | t => String c t
      end
  end.
Definition strip (s : string) : string := rstrip (lstrip s).

(** [s.split(sep)] for a one-character separator. *)
Fixpoint split (sep : Ascii.ascii) (s : string) : list string :=
  match s with
  | EmptyString => [""]
  | String c s' =>
      if Ascii.eqb c sep then "" :: split sep s'
      else match split sep s' with
           | w :: ws => String c w :: ws
           | [] => [String c ""]
           end
  end.

(** [s.split()] *)
Fixpoint words (s : string) : list string :=
  match s with
  | EmptyString => []
  | String c s' =>
      if is_space c then words s'
      else let rest := words s' in
           match s', rest with
           | String d _, w :: ws => if is_space d then String c "" :: rest else String c w :: ws
           | _, _ => String c "" :: rest
           end
  end.
(** [s.partition(c)]: [None] when the separator is absent. *)
Fixpoint partition_on (c : Ascii.ascii) (s : string) : option (string * string) :=
  match s with
  | EmptyString => None
  | String x s' =>
      if Ascii.eqb x c then Some ("", s')
      else '(k, v) ← partition_on c s'; Some (String x k, v)
  end.

(** Decimal digits with single underscores between them. [acc] is the value
    read so far, [after_digit] whether an underscore may follow. *)
Fixpoint digits_value (acc : Z) (after_digit : bool) (s : string) : option Z :=
  match s with
  | EmptyString => if after_digit then Some acc else None
  | String c s' =>
      if is_digit c then digits_value (10 * acc + (Z.of_nat (Ascii.nat_of_ascii c) - 48)) true s'
      else if one_of "_" c && after_digit then digits_value acc false s'
      else None
  end.
(** [int(s)]; [None] is [ValueError]. *)
Definition py_int (s : string) : option Z :=
  match strip s with
  | String "+"%char s' => digits_value 0 false s'
  | String "-"%char s' => Z.opp <$> digits_value 0 false s'
  | s' => digits_value 0 false s'
  end.

Definition is_ascii (s : string) : bool := str_forall (in_range 0 127) s.

(** [c.isalnum()] on the characters below 256. *)
Definition py_isalnum (c : Ascii.ascii) : bool :=
  is_alnum c || existsb (λ n, in_range n n c) [170%nat; 178%nat; 179%nat; 181%nat; 185%nat; 186%nat; 188%nat; 189%nat; 190%nat] ||
  in_range 192 214 c || in_range 216 246 c || in_range 248 255 c.
(** A word character of [re] below 256. *)
Definition is_word (c : Ascii.ascii) : bool := py_isalnum c || one_of "_" c.

(** [lower()] of SQLite: ASCII letters only. *)
Fixpoint sql_lower (s : string) : string :=
  match s with
  | EmptyString => EmptyString
  | String c s' => String (if is_upper c then Ascii.ascii_of_nat (Ascii.nat_of_ascii c + 32) else c) (sql_lower s')
  end.

(** [sep.join(l)] *)
Fixpoint join (sep : string) (l : list string) : string :=
  match l with
  | [] => ""
  | [s] => s
  | s :: l' => s +:+ sep +:+ join sep l'
  end.

(** [s.endswith(t)] *)
Definition endswith (t s : string) : bool :=
  (String.length t <=? String.length s)%nat && (str_drop (String.length s - String.length t) s == t).

(** [t in s] for texts *)
Fixpoint contains (t s : string) : bool :=
  startswith t s || match s with EmptyString => false | String _ s' => contains t s' end.

(** [x or None] on a text *)
Definition nonempty (s : string) : option string := if s == "" then None else Some s.

(** [re.fullmatch('[class]{lo,hi}', s)] *)
Definition fullmatch_class (p : Ascii.ascii → bool) (lo hi : Z) (s : string) : bool :=
  str_forall p s && (lo <=? str_len s) && (str_len s <=? hi).

Definition is_hex (c : Ascii.ascii) : bool := is_digit c || in_range 97 102 c.
(** [_SAFE_HASH] *)
Definition _SAFE_HASH (s : string) : bool := fullmatch_class is_hex 64 64 s.

(** ** Guards *)

(** What the guards take from the libraries: the Unicode category of a
    character, whether each compiled pattern finds a match, percent-decoding. *)
Class TextEngine := {
  category : Ascii.ascii → string;
  _ENV_ASSIGNMENT : string → bool;
  _SENSITIVE_TEXT : string → bool;
  unquote : string → string;
}.

(** [hashlib.sha256(...).hexdigest()], [json.dumps] with sorted keys ([None]
    is [ValueError], on a number JSON cannot hold), [json.loads] and
    [len(s.encode('utf-8'))]. *)
Class Codec := {
  sha256_hex : string → string;
  dumps : json → option string;
  loads : string → option json;
  utf8_length : string → Z;
}.

Section Guards.
Context `{TextEngine}.

Definition _has_controls (value : string) : bool :=
  str_exists (λ c, startswith "C" (category c) || (category c == "Zl") || (category c == "Zp")) value.

Fixpoint sensitive_rounds (n : nat) (decoded : string) : bool :=
  if _ENV_ASSIGNMENT decoded || _SENSITIVE_TEXT decoded then true
  else match n with
       | O => false
       | S n => if unquote decoded == decoded then false else sensitive_rounds n (unquote decoded)
       end.
Definition _contains_sensitive_text (value : string) : bool := sensitive_rounds 3 value.

(** [_bounded_text]; [None] is a value that is not a [str], and the error is
    [ValueError]. *)
Definition _bounded_text (value : option string) (maximum : Z) (required : bool) : res unit string :=
  match value with
  | None => if required then Err tt else Ok ""
  | Some value =>
      ensure (negb (_has_controls value || (maximum <? str_len value))) tt;;
      let text := strip value in
      ensure (negb (maximum <? str_len text)) tt;;
      ensure (negb (required && (text == ""))) tt;;
      Ok text
  end.
End Guards.

(** ** Pull-request URLs *)

Definition is_path_char (c : Ascii.ascii) : bool := is_alnum c || one_of "._-" c.
(** [[1-9][0-9]*] *)
Definition is_number (s : string) : bool :=
  match s with
  | EmptyString => false
  | String c s' => in_range 49 57 c && str_forall is_digit s'
  end.
(** [[A-Za-z0-9]|[A-Za-z0-9][A-Za-z0-9-]{0,37}[A-Za-z0-9]] *)
Definition is_owner (s : string) : bool :=
  match s with
  | EmptyString => false
  | String c s' => is_alnum c && str_forall (λ c, is_alnum c || one_of "-" c) s' &&
      (str_len s <=? 39) && negb (endswith "-" s)
  end.

(** [_GITHUB_PR_URL.fullmatch] with its groups: no group holds a slash. *)
Definition github_url (value : string) : option (string * string) :=
  match split "/"%char value with
  | ["https:"; ""; "github.com"; owner; repository; "pull"; n] =>
      if is_owner owner && fullmatch_class is_path_char 1 100 repository && is_number n
      then Some (owner, repository) else None
  | _ => None
  end.

(** [_GITLAB_MR_URL.fullmatch] with its groups: the number holds no slash, so
    the suffix is the last three segments. *)
Definition gitlab_url (value : string) : option (string * list string) :=
  match split "/"%char value with
  | "https:" :: "" :: host :: rest =>
      match rev rest with
      | n :: "merge_requests" :: "-" :: path =>
          let path := rev path in
          if fullmatch_class (λ c, is_lower c || is_digit c || one_of ".-" c) 1 253 host &&
             forallb (str_forall is_path_char) path && negb (join "/" path == "") && is_number n
          then Some (host, path) else None
      | _ => None
      end
  | _ => None
  end.

Definition bad_label (label : string) : bool :=
  (label == "") || (63 <? str_len label) || startswith "-" label || endswith "-" label.
Definition bad_segment (segment : string) : bool :=
  (segment == "") || (255 <? str_len segment) || (segment == ".") || (segment == "..") ||
  startswith "-" segment || endswith ".git" segment || endswith ".atom" segment.

Definition safe_pull_request_url (value : string) : option string :=
  if (value == "") || (2048 <? str_len value) then None
  else match github_url value with
  | Some (owner, repository) =>
      if negb (contains "--" owner) && negb ((repository == ".") || (repository == ".."))
      then Some value else None
  | None =>
      match gitlab_url value with
      | None => None
      | Some (host, segments) =>
          if (host == "github.com") || startswith "." host || endswith "." host || contains ".." host then None
          else if existsb bad_label (split "."%char host) then None
          else if (str_len (join "/" segments) <? 3) || (1024 <? str_len (join "/" segments)) then None
          else if (length segments <? 2)%nat || (20 <? length segments)%nat then None
          else if existsb bad_segment segments then None
          else Some value
      end
  end.

(** ** Lemmas *)

Lemma safe_pull_request_url_same v v' : safe_pull_request_url v = Some v' → v' = v.
Proof. unfold safe_pull_request_url. repeat case_match; naive_solver. Qed.

Lemma nonempty_some s t : nonempty s = Some t → t = s ∧ s ≠ "".
Proof. unfold nonempty. case_bool_decide; naive_solver. Qed.
