(* ===== verification/BillingCatalog.v ===== *)
(** * Billing catalog ([gateway/app/billing.py], [BillingCatalog])

    The catalog file is a JSON object; the constructor checks it and indexes
    plans, credit packs and rates. As in the code, an indexed plan or rate is
    the JSON object itself, read through [get]; the theorems show which reads
    the validation makes safe. *)

From stdpp Require Import base option list strings numbers pretty sets.
From Stdlib Require Import ZArith Lia.
From S2P Require Import Prelude Json.

Open Scope string_scope.
Open Scope list_scope.
Open Scope Z_scope.

(** [BillingError(code, message, status_code)], and the exceptions of the
    interpreter and of [sqlite3] that the module lets through. *)
Inductive error :=
| BillingError (code : string) (status_code : Z)
| PyTypeError
| PyAttributeError
| PyKeyError
| PyOverflowError
| IntegrityError
| BindError.

#[export] Instance error_eq_dec : EqDecision error.
Proof. solve_decision. Defined.

Definition InsufficientCredits : error := BillingError "insufficient_credits" 402.
Definition catalog_invalid : error := BillingError "catalog_invalid" 503.

Definition CATALOG_SCHEMA : string := "magistrate.billing-catalog.v1".
Definition MICROCREDITS_PER_CREDIT : Z := 1000000.
Definition _microcredits (credits : Z) : Z := credits * MICROCREDITS_PER_CREDIT.

Record catalog := {
  usd_micros_per_credit : Z;
  plans : list (json * dict);
  packs : list (json * dict);
  default_plan : json;
  rates : list ((string * string) * dict);
  payload : dict;
}.

(** ** Python dictionaries keyed by JSON scalars *)

(** [hash(k)] raises [TypeError] on a list or a dict. *)
Definition hashable (j : json) : bool :=
  match j with JList _ | JObj _ => false | _ => true end.

(** Key equality: numbers by value, [nan] equal to nothing. *)
Definition key_eq (a b : json) : bool :=
  match a, b with
  | JNull, JNull => true
  | JStr s, JStr s' => s == s'
  | JInt z, _ => eq_int b z
  | JBool x, _ => eq_int b (if x then 1 else 0)
  | JFloat (FFin m e), JFloat (FFin m' e') =>
      if e <=? e' then m =? m' * 2 ^ (e' - e) else m * 2 ^ (e - e') =? m'
  | JFloat (FFin _ _), JInt z => eq_int a z
  | JFloat (FFin _ _), JBool x => eq_int a (if x then 1 else 0)
  | JFloat (FInf s), JFloat (FInf s') => eqb s s'
  | _, _ => false
  end.

Fixpoint lookup_key (k : json) (d : list (json * dict)) : option dict :=
  match d with
  | [] => None
  | (k', v) :: d' => if key_eq k k' then Some v else lookup_key k d'
  end.

Fixpoint lookup_rate (k : string * string) (d : list ((string * string) * dict)) : option dict :=
  match d with
  | [] => None
  | (k', v) :: d' => if k == k' then Some v else lookup_rate k d'
  end.

(** [x in {"a", ...}] for an [x] that may be unhashable. *)
Definition in_set (j : json) (l : list string) : res error bool :=
  if hashable j then Ok (in_strs j l) else Err PyTypeError.

Section Validation.
(** [repr] of a float is left to the interpreter. *)
Context (float_repr : pyfloat → string).

(** [re.fullmatch(r"[a-z0-9][a-z0-9-]{0,63}", str(x))]; the text of a
    constant, a list or a dict starts with a character the class excludes. *)
Definition id_pattern (s : string) : bool :=
  fullmatch1 (λ c, is_lower c || is_digit c)
    (λ c, is_lower c || is_digit c || one_of "-" c) 0 63 s.
Definition id_valid (j : json) : bool :=
  match j with
  | JStr s => id_pattern s
  | JInt z => id_pattern (pretty z)
  | JFloat f => id_pattern (float_repr f)
  | _ => false
  end.

(** [_indexed]: the ids are distinct keys of the index, in catalog order. *)
Definition index_one (d : list (json * dict)) (value : json) : res error (list (json * dict)) :=
  match as_dict value with
  | None => Err catalog_invalid
  | Some v =>
      if negb (id_valid (default (JStr "") (assoc "id" v))) then Err catalog_invalid
      else match lookup_key (get "id" v) d with
           | Some _ => Err catalog_invalid
           | None => Ok (d ++ [(get "id" v, v)])
           end
  end.
Fixpoint index_all (d : list (json * dict)) (values : list json) : res error (list (json * dict)) :=
  match values with
  | [] => Ok d
  | v :: vs => d' ← index_one d v; index_all d' vs
  end.
Definition _indexed (payload : dict) (field : string) : res error (list (json * dict)) :=
  match as_list (get field payload) with
  | None => Err catalog_invalid
  | Some values => index_all [] values
  end.

(** [re.fullmatch(r"price_[A-Za-z0-9_]+", value)] *)
Definition price_pattern (s : string) : bool :=
  startswith "price_" s &&
  (let rest := str_drop 6 s in (1 <=? str_len rest) && str_forall (λ c, is_alnum c || one_of "_" c) rest).
Definition _price (value : json) : res error unit :=
  match value with
  | JNull => Ok tt
  | JStr s => ensure (price_pattern s) catalog_invalid
  | _ => Err catalog_invalid
  end.

Definition PLAN_INTS : list string :=
  ["monthly_included_credits"; "objective_reserve_credits"; "monthly_spend_limit_credits";
   "concurrency_limit"; "low_credit_warning_credits"; "grace_days"].

(** A non-negative integer field. *)
Definition nat_field (d : dict) (field : string) : bool :=
  match get field d with JInt z => 0 <=? z | _ => false end.
(** [d[field]] once checked to be an integer. *)
Definition int_field (d : dict) (field : string) : Z :=
  match get field d with JInt z => z | _ => 0 end.

Definition nonempty_str (j : json) : bool :=
  match j with JStr s => negb (s == "") | _ => false end.
Definition strs (l : list json) : list string := omap as_str l.

(** [_validate_plan] *)
Definition _validate_plan (plan : dict) : res error unit :=
  kind_ok ← in_set (get "kind" plan) ["free"; "demo"; "subscription"];
  _ ← ensure (kind_ok && match as_str (get "name" plan) with Some _ => true | None => false end) catalog_invalid;
  _ ← _price (get "stripe_price_id" plan);
  _ ← ensure (forallb (nat_field plan) PLAN_INTS) catalog_invalid;
  _ ← ensure (1 <=? int_field plan "concurrency_limit") catalog_invalid;
  _ ← ensure (int_field plan "objective_reserve_credits" <=? int_field plan "monthly_spend_limit_credits") catalog_invalid;
  entitlements ← of_option catalog_invalid (as_list (get "entitlements" plan));
  _ ← ensure (forallb nonempty_str entitlements && bool_decide (NoDup (strs entitlements))) catalog_invalid;
  ensure (eq_str (get "kind" plan) "subscription" || is_none (get "stripe_price_id" plan)) catalog_invalid.

(** [_validate_pack] *)
Definition _validate_pack (pack : dict) : res error unit :=
  _ ← _price (get "stripe_price_id" pack);
  ensure (match get "name" pack, get "credits" pack with
          | JStr _, JInt z => 0 <? z
          | _, _ => false
          end) catalog_invalid.

Definition RATE_INTS : list string :=
  ["input_usd_micros_per_million"; "output_usd_micros_per_million";
   "compute_usd_micros_per_hour"; "margin_bps"].

(** One iteration of the loop over [rates]. *)
Definition index_rate (d : list ((string * string) * dict)) (rate : json)
  : res error (list ((string * string) * dict)) :=
  match rate with
  | JObj r =>
      match get "provider" r, get "model" r with
      | JStr p, JStr m =>
          match lookup_rate (p, m) d with
          | Some _ => Err catalog_invalid
          | None =>
              _ ← ensure (forallb (nat_field r) RATE_INTS) catalog_invalid;
              Ok (d ++ [((p, m), r)])
          end
      | _, _ => Err catalog_invalid
      end
  | _ => Err catalog_invalid
  end.
Fixpoint index_rates (d : list ((string * string) * dict)) (l : list json) : res error (list ((string * string) * dict)) :=
  match l with
  | [] => Ok d
  | r :: l' => d' ← index_rate d r; index_rates d' l'
  end.

Fixpoint check_all (f : dict → res error unit) (l : list (json * dict)) : res error unit :=
  match l with
  | [] => Ok tt
  | (_, d) :: l' => _ ← f d; check_all f l'
  end.

(** [BillingCatalog.__init__] *)
Definition BillingCatalog (payload : dict) : res error catalog :=
  _ ← ensure (eq_str (get "schema_version" payload) CATALOG_SCHEMA && eq_str (get "currency" payload) "usd") catalog_invalid;
  unit_ ← of_option catalog_invalid (as_dict (get "credit_unit" payload));
  _ ← ensure (eq_int (get "microcredits_per_credit" unit_) MICROCREDITS_PER_CREDIT) catalog_invalid;
  usd ← of_option catalog_invalid (as_int (get "usd_micros_per_credit" unit_));
  _ ← ensure (0 <? usd) catalog_invalid;
  plans ← _indexed payload "plans";
  packs ← _indexed payload "credit_packs";
  let dflt := get "default_plan" payload in
  _ ← ensure (hashable dflt) PyTypeError;
  dplan ← of_option catalog_invalid (lookup_key dflt plans);
  free ← in_set (get "kind" dplan) ["free"; "demo"];
  _ ← ensure free catalog_invalid;
  _ ← check_all _validate_plan plans;
  _ ← check_all _validate_pack packs;
  rates ← of_option catalog_invalid (as_list (get "rates" payload));
  rates ← index_rates [] rates;
  Ok {| usd_micros_per_credit := usd; plans := plans; packs := packs;
        default_plan := dflt; rates := rates; payload := payload |}.
End Validation.

(** [price_item]: plans are searched before packs. *)
Inductive item_kind := Subscription | CreditPack.
Definition has_price (price_id : string) (kd : json * dict) : bool :=
  eq_str (get "stripe_price_id" (snd kd)) price_id.
Definition price_item (c : catalog) (price_id : string) : option (item_kind * dict) :=
  match List.find (has_price price_id) (plans c) with
  | Some (_, plan) => Some (Subscription, plan)
  | None =>
      match List.find (has_price price_id) (packs c) with
      | Some (_, pack) => Some (CreditPack, pack)
      | None => None
      end
  end.

(** [public]: the catalog without price ids. [configured] is
    [stripe_configured()], a fact of the environment. *)
Definition set_key (k : string) (v : json) (d : dict) : dict :=
  if existsb (λ kv, fst kv == k) d
  then map (λ kv, if fst kv == k then (k, v) else kv) d
  else d ++ [(k, v)].
Definition public_item (configured : bool) (d : dict) : json :=
  JObj (set_key "checkout_available"
          (JBool (truthy (get "stripe_price_id" d) && configured))
          (List.filter (λ kv, fst kv != "stripe_price_id") d)).
Definition public (configured : bool) (c : catalog) : dict :=
  [("schema_version", JStr CATALOG_SCHEMA);
   ("currency", get "currency" (payload c));
   ("credit_unit", get "credit_unit" (payload c));
   ("plans", JList (map (λ kd, public_item configured (snd kd)) (plans c)));
   ("credit_packs", JList (map (λ kd, public_item configured (snd kd)) (packs c)));
   ("activation", JStr (if configured
       && forallb (λ kd, negb (eq_str (get "kind" (snd kd)) "subscription") || truthy (get "stripe_price_id" (snd kd))) (plans c)
       && forallb (λ kd, truthy (get "stripe_price_id" (snd kd))) (packs c)
     then "active" else "blocked_external"))].

(** ** What validation establishes *)

(** A plan the ledger can read without a default. *)
Definition plan_ok (p : dict) : Prop :=
  (∀ f, f ∈ PLAN_INTS → ∃ z, get f p = JInt z ∧ 0 ≤ z) ∧
  1 ≤ int_field p "concurrency_limit" ∧
  int_field p "objective_reserve_credits" ≤ int_field p "monthly_spend_limit_credits" ∧
  in_strs (get "kind" p) ["free"; "demo"; "subscription"] = true ∧
  (eq_str (get "kind" p) "subscription" = false → get "stripe_price_id" p = JNull).
Definition pack_ok (p : dict) : Prop := ∃ z, get "credits" p = JInt z ∧ 0 < z.
Definition rate_ok (r : dict) : Prop := ∀ f, f ∈ RATE_INTS → ∃ z, get f r = JInt z ∧ 0 ≤ z.

Record catalog_ok (c : catalog) : Prop := {
  ok_usd : 0 < usd_micros_per_credit c;
  ok_plans : Forall (λ kd, plan_ok (snd kd)) (plans c);
  ok_packs : Forall (λ kd, pack_ok (snd kd)) (packs c);
  ok_rates : Forall (λ kd, rate_ok (snd kd)) (rates c);
  ok_default : ∃ p, lookup_key (default_plan c) (plans c) = Some p ∧
                    in_strs (get "kind" p) ["free"; "demo"] = true;
}.

Lemma nat_fields_ok d l :
  forallb (nat_field d) l = true → ∀ f, f ∈ l → ∃ z, get f d = JInt z ∧ 0 ≤ z.
Proof.
  rewrite forallb_forall. intros H f Hf%list_elem_of_In. specialize (H f Hf).
  unfold nat_field in H. destruct (get f d); try done. bools. eauto.
Qed.

Lemma in_set_ok j l b : in_set j l = Ok b → b = in_strs j l.
Proof. unfold in_set. destruct (hashable j); naive_solver. Qed.

Lemma is_none_true j : is_none j = true → j = JNull.
Proof. by destruct j. Qed.

Lemma validate_plan_ok p : _validate_plan p = Ok tt → plan_ok p.
Proof.
  unfold _validate_plan. intros H. tx_inv. bools. subst.
  match goal with H : in_set _ _ = Ok true |- _ => apply in_set_ok in H end.
  split_and!; try done.
  - intros f Hf. by eapply nat_fields_ok.
  - intros Hk. rewrite Hk in *. simpl in *. by apply is_none_true.
Qed.

Lemma validate_pack_ok p : _validate_pack p = Ok tt → pack_ok p.
Proof.
  unfold _validate_pack, pack_ok. intros H. tx_inv.
  destruct (get "name" p), (get "credits" p); try done. bools. eauto.
Qed.

Lemma check_all_ok f (P : dict → Prop) l :
  (∀ d, f d = Ok tt → P d) → check_all f l = Ok tt → Forall (λ kd, P (snd kd)) l.
Proof.
  intros Hf. induction l as [|[k d] l IH]; simpl; [constructor|]. intros H. tx_inv.
  constructor; eauto.
Qed.

Lemma index_rates_ok d l d' :
  index_rates d l = Ok d' → Forall (λ kd, rate_ok (snd kd)) d → Forall (λ kd, rate_ok (snd kd)) d'.
Proof.
  revert d. induction l as [|r l IH]; simpl; intros d H Hd; tx_inv; [done|].
  eapply IH; [done|]. unfold index_rate in *.
  destruct r; try done. destruct (get "provider" kvs), (get "model" kvs); try done.
  tx_inv. apply Forall_app. split; [done|]. constructor; [|done].
  intros f Hf. by eapply nat_fields_ok.
Qed.

Lemma lookup_key_in k d v : lookup_key k d = Some v → ∃ k', (k', v) ∈ d.
Proof.
  induction d as [|[k' v'] d IH]; simpl; [done|]. destruct (key_eq k k').
  - intros [= ->]. exists k'. left.
  - intros H. destruct (IH H) as [k'' ?]. exists k''. by right.
Qed.

Lemma lookup_rate_in k d v : lookup_rate k d = Some v → (k, v) ∈ d.
Proof.
  induction d as [|[k' v'] d IH]; simpl; [done|]. case_bool_decide; subst.
  - intros [= ->]. left.
  - intros ?. right. auto.
Qed.

Lemma lookup_plan_ok c k p : catalog_ok c → lookup_key k (plans c) = Some p → plan_ok p.
Proof.
  intros Hc [k' Hp]%lookup_key_in. pose proof (ok_plans c Hc) as H.
  rewrite Forall_forall in H. exact (H _ Hp).
Qed.

Lemma lookup_rate_ok c k r : catalog_ok c → lookup_rate k (rates c) = Some r → rate_ok r.
Proof.
  intros Hc Hr%lookup_rate_in. pose proof (ok_rates c Hc) as H.
  rewrite Forall_forall in H. exact (H _ Hr).
Qed.

Lemma int_field_nonneg p f : plan_ok p → f ∈ PLAN_INTS → 0 ≤ int_field p f.
Proof. intros [H _] Hf. destruct (H f Hf) as (z & Hz & ?). unfold int_field. by rewrite Hz. Qed.

Lemma rate_field_nonneg r f : rate_ok r → f ∈ RATE_INTS → 0 ≤ int_field r f.
Proof. intros H Hf. destruct (H f Hf) as (z & Hz & ?). unfold int_field. by rewrite Hz. Qed.

Create HintDb billing.
#[export] Hint Resolve lookup_plan_ok lookup_rate_ok int_field_nonneg rate_field_nonneg : billing.

Lemma build_ok float_repr payload c :
  BillingCatalog float_repr payload = Ok c → catalog_ok c.
Proof.
  unfold BillingCatalog. intros H. tx_inv. simpl in *. bools.
  match goal with H : in_set _ _ = Ok true |- _ => apply in_set_ok in H end.
  split; simpl; try done.
  - by eapply check_all_ok; [apply validate_plan_ok|].
  - by eapply check_all_ok; [apply validate_pack_ok|].
  - by eapply index_rates_ok.
  - naive_solver.
Qed.

(** C38. A catalog that the constructor accepts has positive credit value,
    complete non-negative plan, pack and rate figures, an objective reserve
    inside the monthly limit of its plan, no Stripe price on a plan that is
    not a subscription, and a default plan of kind free or demo. *)
Theorem catalog_validated float_repr payload c :
  BillingCatalog float_repr payload = Ok c → catalog_ok c.
Proof. apply build_ok. Qed.
