(* ===== verification/BillingLedger.v ===== *)
(** * Credit ledger ([gateway/app/billing.py], [CreditLedger])

    The billing tables as one state, and every operation of [CreditLedger] as
    a transaction over it. The invariants are in [BillingInvariant]. *)

From stdpp Require Import base option list strings numbers pretty sets.
From Stdlib Require Import ZArith Lia.
From S2P Require Import Prelude Sql PyFloat Json Calendar BillingCatalog.

Open Scope string_scope.
Open Scope list_scope.
Open Scope Z_scope.

(** ** Tables *)

(** [billing_accounts]; the two period columns hold whatever scalar the
    webhook carried. *)
Record account := mkAccount {
  a_owner : string; a_provider : string; a_customer : option string; a_status : string;
  a_created : Z; a_updated : Z; a_subscription : option string;
  a_period_end : json; a_event_created : option Z; a_catalog : option string;
  a_period_start : json; a_cancel_at_end : bool; a_grace : option Z;
  a_available : Z; a_reserved : Z; a_spend : Z; a_period_key : option string;
}.
#[export] Instance account_eta : Settable account := λ a,
  mkAccount (a_owner a) (a_provider a) (a_customer a) (a_status a) (a_created a) (a_updated a)
    (a_subscription a) (a_period_end a) (a_event_created a) (a_catalog a) (a_period_start a)
    (a_cancel_at_end a) (a_grace a) (a_available a) (a_reserved a) (a_spend a) (a_period_key a).

Inductive entry_type :=
| included_grant | topup | reservation_entry | release_entry | settlement | refund | adjustment.
#[export] Instance entry_type_eq_dec : EqDecision entry_type.
Proof. solve_decision. Defined.

(** [credit_ledger]; [l_metadata] is the object whose canonical text the
    column holds. *)
Record ledger_row := mkLedger {
  l_entry_id : string; l_owner : string; l_key : string; l_type : entry_type;
  l_amount : Z; l_balance : Z; l_reservation : option string; l_objective : option string;
  l_source : string; l_metadata : dict; l_created : Z;
}.

(** The five fields of a measured usage. The canonical JSON text the code
    compares is a function of them. *)
Record usage := mkUsage {
  u_provider : string; u_model : string;
  u_input_tokens : Z; u_output_tokens : Z; u_compute_milliseconds : Z;
}.
#[export] Instance usage_eq_dec : EqDecision usage.
Proof. solve_decision. Defined.

Inductive reservation_status := reserved | settled | released.
#[export] Instance reservation_status_eq_dec : EqDecision reservation_status.
Proof. solve_decision. Defined.

(** [credit_reservations] *)
Record reservation := mkReservation {
  r_id : string; r_owner : string; r_objective : string; r_key : string;
  r_estimated : Z; r_actual : option Z; r_status : reservation_status;
  r_usage : option usage; r_created : Z; r_updated : Z;
}.
#[export] Instance reservation_eta : Settable reservation := λ r,
  mkReservation (r_id r) (r_owner r) (r_objective r) (r_key r) (r_estimated r) (r_actual r)
    (r_status r) (r_usage r) (r_created r) (r_updated r).

(** [execution_usage_ledger] *)
Record usage_row := mkUsageRow {
  v_id : string; v_owner : string; v_event : string; v_objective : string;
  v_reservation : string; v_usage : usage; v_cost : Z; v_created : Z;
}.

(** [billing_webhook_events] *)
Record webhook_event := mkWebhookEvent {
  w_event : string; w_type : string; w_received : Z; w_digest : option string;
}.

(** [billing_checkout_sessions] *)
Record checkout_session := mkCheckout {
  c_session : string; c_owner : string; c_catalog : string; c_kind : item_kind; c_key : string; c_created : Z;
}.

Record db := mkDb {
  accounts : list account; ledger : list ledger_row; reservations : list reservation;
  usage_rows : list usage_row; webhook_events : list webhook_event;
  checkouts : list checkout_session; profiles : list string;
}.
#[export] Instance db_eta : Settable db := λ s,
  mkDb (accounts s) (ledger s) (reservations s) (usage_rows s) (webhook_events s) (checkouts s) (profiles s).

(** ** Row predicates and unique constraints *)

Definition account_of (owner : string) (a : account) : bool := a_owner a == owner.
Definition ledger_clash (x y : ledger_row) : bool :=
  (l_entry_id x == l_entry_id y) || ((l_owner x == l_owner y) && (l_key x == l_key y)).
Definition reservation_clash (x y : reservation) : bool :=
  (r_id x == r_id y) || ((r_owner x == r_owner y) && (r_objective x == r_objective y)) ||
  ((r_owner x == r_owner y) && (r_key x == r_key y)).
Definition usage_clash (x y : usage_row) : bool :=
  (v_id x == v_id y) || ((v_owner x == v_owner y) && (v_event x == v_event y)) || ((v_owner x == v_owner y) && (v_objective x == v_objective y)).
Definition by_key (owner key : string) (r : ledger_row) : bool := (l_owner r == owner) && (l_key r == key).
Definition for_objective (owner objective : string) (r : reservation) : bool :=
  (r_owner r == owner) && (r_objective r == objective).
Definition is_reserved (owner : string) (r : reservation) : bool := (r_owner r == owner) && (r_status r == reserved).

Definition set_account (owner : string) (f : account → account) : tx error db unit :=
  modify (λ s, s <| accounts ::= update (account_of owner) f |>).
Definition get_account (owner : string) : tx error db (option account) :=
  read (λ s, fetchone (account_of owner) (accounts s)).
(** Subscripting a missing row is a [TypeError]. *)
Definition the {A} (o : option A) : tx error db A := lift (of_option PyTypeError o).

(** ** Calendar month of a Unix time ([time.strftime("%Y-%m", time.gmtime(now))]) *)

Definition pad2 (n : Z) : string := if n <? 10 then "0" +:+ pretty n else pretty n.
Definition _period_key (now : Z) : string :=
  let '(y, m) := civil_month (now / 86400) in pretty y +:+ "-" +:+ pad2 m.

Section Ledger.
Context (sha256_hex : string → string).
Context (cat : catalog).

Definition _ledger_id (owner key : string) : string :=
  "cle_" +:+ str_take 32 (sha256_hex (owner +:+ NUL +:+ key)).
Definition _reservation_id (owner objective : string) : string :=
  "cr_" +:+ str_take 32 (sha256_hex (owner +:+ NUL +:+ objective)).
Definition _usage_id (owner event_id : string) : string :=
  "use_" +:+ str_take 32 (sha256_hex (owner +:+ NUL +:+ event_id)).

(** [_insert_ledger]: [INSERT OR IGNORE], true when a row was written. *)
Definition _insert_ledger (owner key : string) (t : entry_type) (amount balance : Z)
    (source : string) (now : Z) (rid objective : option string) (metadata : dict) : tx error db bool :=
  λ s,
    let row := mkLedger (_ledger_id owner key) owner key t amount balance rid objective source metadata now in
    match insert ledger_clash row (ledger s) with
    | Some l => Ok (true, s <| ledger := l |>)
    | None => Ok (false, s)
    end.

(** A plan of the catalog by the account's [catalog_id] column. *)
Definition plan_of (catalog_id : option string) : option dict :=
  match catalog_id with Some i => lookup_key (JStr i) (plans cat) | None => None end.
Definition entitlements (plan : dict) : list json := default [] (as_list (get "entitlements" plan)).
Definition entitled (plan : dict) (name : string) : bool := existsb (λ j, eq_str j name) (entitlements plan).

(** The [catalog_id] column has text affinity. *)
Definition text_affinity (j : json) : option string :=
  match j with JStr t => Some t | JInt z => Some (pretty z) | JBool b => Some (if b then "1" else "0") | _ => None end.

Definition new_account (owner : string) (now : Z) : account :=
  mkAccount owner "stripe" None "active" now now None JNull None (text_affinity (default_plan cat))
    JNull false None 0 0 0 None.

(** The insertion checks the primary key and the reference to a profile. *)
Definition insert_account (a : account) : tx error db unit := λ s,
  if negb (bool_decide (a_owner a ∈ profiles s)) then Err IntegrityError
  else match insert (λ x y, a_owner x == a_owner y) a (accounts s) with
       | Some l => Ok (tt, s <| accounts := l |>)
       | None => Err IntegrityError
       end.

Definition is_calendar_plan (plan : dict) : bool := in_strs (get "kind" plan) ["free"; "demo"].

(** [_account]: creates the account on first use and makes the monthly
    grant of a free or demo plan. *)
Definition _account (owner : string) (now : Z) : tx error db account :=
  found ← get_account owner;
  row ← match found with
        | Some a => mret a
        | None => insert_account (new_account owner now) ;; mret (new_account owner now)
        end;
  plan ← lift (of_option (BillingError "account_plan_invalid" 503) (plan_of (a_catalog row)));
  let period := _period_key now in
  if is_calendar_plan plan && (a_period_key row != Some period) then
    let grant := _microcredits (int_field plan "monthly_included_credits") in
    let balance := a_available row + grant in
    let plan_id := default "" (as_str (get "id" plan)) in
    inserted ← _insert_ledger owner ("included:" +:+ plan_id +:+ ":" +:+ period) included_grant
      grant balance "catalog" now None None [("catalog_id", get "id" plan); ("period", JStr period)];
    (if (inserted : bool) then
      set_account owner (λ a, a <| a_available := balance |> <| a_spend := 0 |>
                                <| a_period_key := Some period |> <| a_updated := now |>)
     else mret tt) ;;
    row ← get_account owner; the row
  else mret row.

(** A grace period that has not ended, for a past-due account. *)
Definition in_grace (a : account) (now : Z) : bool :=
  (a_status a == "past_due") &&
  match a_grace a with Some g => negb (g =? 0) && (now <? g) | None => false end.
Definition status_live (a : account) : bool := (a_status a == "active") || (a_status a == "trialing").
Definition may_execute (plan : dict) (a : account) (now : Z) : bool :=
  entitled plan "execution" && (status_live a || in_grace a now).

Definition idempotency_conflict : error := BillingError "idempotency_conflict" 409.

(** [plan] of the account's catalog entry, by subscript. *)
Definition plan_at (a : account) : tx error db dict := the (plan_of (a_catalog a)).

(** [reserve_objective] *)
Definition reserve_objective (owner objective_id key : string) (now : Z) : tx error db reservation :=
  account ← _account owner now;
  plan ← plan_at account;
  existing ← read (λ s, fetchone (λ r, (r_owner r == owner) && (r_key r == key)) (reservations s));
  match existing with
  | Some r => require (r_objective r == objective_id) idempotency_conflict ;; mret r
  | None =>
      require (may_execute plan account now) (BillingError "execution_not_entitled" 403) ;;
      active ← read (λ s, count (is_reserved owner) (reservations s));
      require (active <? int_field plan "concurrency_limit") (BillingError "concurrency_limit" 409) ;;
      let estimate := _microcredits (int_field plan "objective_reserve_credits") in
      require (negb (a_available account <? estimate)) InsufficientCredits ;;
      let spend_limit := _microcredits (int_field plan "monthly_spend_limit_credits") in
      require (negb (spend_limit <? a_spend account + a_reserved account + estimate)) (BillingError "spend_limit" 402) ;;
      let rid := _reservation_id owner objective_id in
      let balance := a_available account - estimate in
      let row := mkReservation rid owner objective_id key estimate None reserved None now now in
      rows ← read (λ s, insert reservation_clash row (reservations s));
      rows ← lift (of_option IntegrityError rows);
      modify (λ s, s <| reservations := rows |>) ;;
      set_account owner (λ a, a <| a_available := balance |> <| a_reserved ::= Z.add estimate |> <| a_updated := now |>) ;;
      _insert_ledger owner ("reserve:" +:+ key) reservation_entry (- estimate) balance "execution" now
        (Some rid) (Some objective_id) [("estimated_microcredits", JInt estimate)] ;;
      stored ← read (λ s, fetchone (λ r, r_id r == rid) (reservations s)); the stored
  end.

(** [release_objective]; [reason] is cut to 64 characters. *)
Definition release_objective (owner objective_id reason : string) (now : Z) : tx error db bool :=
  found ← read (λ s, fetchone (for_objective owner objective_id) (reservations s));
  match found with
  | Some r =>
      if negb (r_status r == reserved) then mret false
      else
        account ← get_account owner; account ← the account;
        let amount := r_estimated r in
        let balance := a_available account + amount in
        modify (λ s, s <| reservations ::= update (λ x, r_id x == r_id r)
                            (λ x, x <| r_status := released |> <| r_updated := now |>) |>) ;;
        set_account owner (λ a, a <| a_available := balance |> <| a_reserved ::= (λ v, v - amount) |> <| a_updated := now |>) ;;
        _insert_ledger owner ("release:" +:+ r_id r) release_entry amount balance "execution" now
          (Some (r_id r)) (Some objective_id) [("reason", JStr (str_take 64 reason))] ;;
        mret true
  | None => mret false
  end.

(** ** Cost of a measured usage *)

Definition usage_invalid : error := BillingError "usage_invalid" 422.
Definition USAGE_KEYS : list string := ["provider"; "model"; "input_tokens"; "output_tokens"; "compute_milliseconds"].
(** [set(usage) == {...}] *)
Definition same_keys (d : dict) (l : list string) : bool :=
  forallb (λ k, bool_decide (k ∈ l)) (keys d) && forallb (λ k, bool_decide (k ∈ keys d)) l.

Definition token_field (d : dict) (f : string) : res error Z :=
  match get f d with JInt z => if 0 <=? z then Ok z else Err usage_invalid | _ => Err usage_invalid end.

(** The checks at the head of [measured_cost]: shape, rate, counts. *)
Definition read_usage (j : json) : res error (usage * dict) :=
  d ← of_option usage_invalid (as_dict j);
  _ ← ensure (same_keys d USAGE_KEYS) usage_invalid;
  _ ← ensure (hashable (get "provider" d) && hashable (get "model" d)) PyTypeError;
  let no_rate := BillingError "rate_not_configured" 422 in
  provider ← of_option no_rate (as_str (get "provider" d));
  model ← of_option no_rate (as_str (get "model" d));
  rate ← of_option no_rate (lookup_rate (provider, model) (rates cat));
  i ← token_field d "input_tokens";
  o ← token_field d "output_tokens";
  ms ← token_field d "compute_milliseconds";
  Ok (mkUsage provider model i o ms, rate).

Definition ceil_div (n d : Z) : res error Z := of_option PyOverflowError (ceil_truediv n d).

Definition usage_cost (u : usage) (rate : dict) : res error Z :=
  let numerator := u_input_tokens u * int_field rate "input_usd_micros_per_million"
                 + u_output_tokens u * int_field rate "output_usd_micros_per_million" in
  tokens ← ceil_div numerator 1000000;
  compute ← ceil_div (u_compute_milliseconds u * int_field rate "compute_usd_micros_per_hour") 3600000;
  let usd_micros := tokens + compute in
  billable ← ceil_div (usd_micros * (10000 + int_field rate "margin_bps")) 10000;
  ceil_div (billable * MICROCREDITS_PER_CREDIT) (usd_micros_per_credit cat).

(** [measured_cost] *)
Definition measured_cost (j : json) : res error Z :=
  '(u, rate) ← read_usage j; usage_cost u rate.

Definition settlement_conflict : error := BillingError "settlement_conflict" 409.

Definition usage_json (u : usage) : json :=
  JObj [("compute_milliseconds", JInt (u_compute_milliseconds u)); ("input_tokens", JInt (u_input_tokens u));
        ("model", JStr (u_model u)); ("output_tokens", JInt (u_output_tokens u)); ("provider", JStr (u_provider u))].

(** [settle_objective] *)
Definition settle_objective (owner objective_id : string) (measured : json) (event_id : string) (now : Z)
  : tx error db reservation :=
  '(u, rate) ← lift (read_usage measured);
  actual ← lift (usage_cost u rate);
  found ← read (λ s, fetchone (for_objective owner objective_id) (reservations s));
  r ← lift (of_option (BillingError "reservation_not_found" 409) found);
  if r_status r == settled then
    prior ← read (λ s, fetchone (λ v, (v_owner v == owner) && (v_objective v == objective_id)) (usage_rows s));
    require ((r_actual r == Some actual) && (r_usage r == Some u) &&
             match prior with Some v => v_event v == event_id | None => false end) settlement_conflict ;;
    mret r
  else
    require (r_status r == reserved) (BillingError "reservation_released" 409) ;;
    account ← get_account owner; account ← the account;
    let estimate := r_estimated r in
    let adjust := estimate - actual in
    let balance := a_available account + adjust in
    modify (λ s, s <| reservations ::= update (λ x, r_id x == r_id r)
      (λ x, x <| r_status := settled |> <| r_actual := Some actual |> <| r_usage := Some u |> <| r_updated := now |>) |>) ;;
    rows ← read (λ s, insert usage_clash
      (mkUsageRow (_usage_id owner event_id) owner event_id objective_id (r_id r) u actual now) (usage_rows s));
    rows ← lift (of_option IntegrityError rows);
    modify (λ s, s <| usage_rows := rows |>) ;;
    set_account owner (λ a, a <| a_available := balance |> <| a_reserved ::= (λ v, v - estimate) |>
                              <| a_spend ::= Z.add actual |> <| a_updated := now |>) ;;
    _insert_ledger owner ("settle:" +:+ event_id) settlement adjust balance "execution" now
      (Some (r_id r)) (Some objective_id)
      [("actual_microcredits", JInt actual); ("estimated_microcredits", JInt estimate); ("usage", usage_json u)] ;;
    stored ← read (λ s, fetchone (λ x, r_id x == r_id r) (reservations s)); the stored.

Definition refund_row (owner rid : string) (l : ledger_row) : bool :=
  (l_owner l == owner) && (l_reservation l == Some rid) && (l_type l == refund).

(** [refund_objective]; [microcredits] is what the caller passed, any JSON
    value. *)
Definition refund_objective (owner objective_id : string) (microcredits : json) (key reason : string) (now : Z)
  : tx error db bool :=
  let invalid := BillingError "refund_invalid" 400 in
  m ← lift (of_option invalid (as_int microcredits));
  require (0 <? m) invalid ;;
  found ← read (λ s, fetchone (λ r, for_objective owner objective_id r && (r_status r == settled)) (reservations s));
  r ← lift (of_option (BillingError "refund_invalid" 409) found);
  actual ← the (r_actual r);
  require (negb (actual <? m)) (BillingError "refund_invalid" 409) ;;
  account ← get_account owner;
  existing ← read (λ s, fetchone (by_key owner key) (ledger s));
  match existing with
  | Some l =>
      require ((l_type l == refund) && (l_amount l =? m) && (l_objective l == Some objective_id)) idempotency_conflict ;;
      mret false
  | None =>
      refunded ← read (λ s, sum l_amount (refund_row owner (r_id r)) (ledger s));
      require (negb (actual <? refunded + m)) (BillingError "refund_invalid" 409) ;;
      account ← the account;
      let balance := a_available account + m in
      _insert_ledger owner key refund m balance "execution" now
        (Some (r_id r)) (Some objective_id) [("reason", JStr (str_take 128 reason))] ;;
      set_account owner (λ a, a <| a_available := balance |>
        <| a_spend ::= (λ v, if m <? v then v - m else 0) |> <| a_updated := now |>) ;;
      mret true
  end.

(** [add_credits] *)
Definition add_credits (owner : string) (credits : json) (key source : string) (now : Z) : tx error db bool :=
  let invalid := BillingError "credits_invalid" 400 in
  c ← lift (of_option invalid (as_int credits));
  require (0 <? c) invalid ;;
  let amount := _microcredits c in
  account ← _account owner now;
  existing ← read (λ s, fetchone (by_key owner key) (ledger s));
  match existing with
  | Some l =>
      require ((l_type l == topup) && (l_amount l =? amount) && (l_source l == source)) idempotency_conflict ;;
      mret false
  | None =>
      let balance := a_available account + amount in
      _insert_ledger owner key topup amount balance source now None None [] ;;
      set_account owner (λ a, a <| a_available := balance |> <| a_updated := now |>) ;;
      mret true
  end.

(** ** [summary] *)

Definition newest_first (l l' : ledger_row) : bool :=
  (l_created l' <? l_created l) ||
  ((l_created l' =? l_created l) && String.leb (l_entry_id l') (l_entry_id l)).
Definition newest_usage (v v' : usage_row) : bool :=
  (v_created v' <? v_created v) || ((v_created v' =? v_created v) && String.leb (v_id v') (v_id v)).
(** [LIMIT n]: a negative limit is no limit. *)
Definition limit {A} (n : Z) (l : list A) : list A := if n <? 0 then l else take (Z.to_nat n) l.

Record account_summary := mkSummary {
  s_plan : dict; s_account : account; s_low_credit_warning : bool;
  s_entitlements : list string; s_execution : bool; s_spend_limit : Z;
  s_ledger : list ledger_row; s_usage : list usage_row;
}.

Definition summary (owner : string) (now ledger_limit : Z) : tx error db account_summary :=
  account ← _account owner now;
  plan ← plan_at account;
  entries ← read (λ s, limit ledger_limit (order_by newest_first (select (λ l, l_owner l == owner) (ledger s))));
  usages ← read (λ s, limit ledger_limit (order_by newest_usage (select (λ v, v_owner v == owner) (usage_rows s))));
  mret (mkSummary plan account
    (a_available account <=? _microcredits (int_field plan "low_credit_warning_credits"))
    (strs (entitlements plan)) (may_execute plan account now)
    (_microcredits (int_field plan "monthly_spend_limit_credits")) entries usages).
End Ledger.
