(* ===== verification/BillingWebhook.v ===== *)
(** * Stripe webhooks ([gateway/app/billing.py], [StripeWebhookProcessor] and
    the legacy [accept_webhook])

    A webhook is verified, decoded and applied in one transaction that first
    records the event identity. HMAC, SHA-256 and the JSON decoder are
    parameters: they are library code. *)

From stdpp Require Import base option list strings numbers pretty sets.
From Stdlib Require Import ZArith Lia Ascii.
From S2P Require Import Prelude Sql Json Text BillingCatalog BillingLedger.

Open Scope string_scope.
Open Scope list_scope.
Open Scope Z_scope.

Inductive webhook_result := Duplicate | Processed.

Definition MAX_WEBHOOK_BYTES : Z := 256 * 1024.
Definition signature_invalid : error := BillingError "webhook_signature_invalid" 400.

(** A value [sqlite3] can bind; a boolean is stored as an integer. *)
Definition sql_bind (j : json) : res error json :=
  match j with
  | JList _ | JObj _ => Err BindError
  | JBool b => Ok (JInt (if b then 1 else 0))
  | _ => Ok j
  end.

Section Webhook.
Context (sha256_hex : string → string).
Context (hmac_sha256_hex : string → string → string).
Context (json_loads : string → option json).
Context (cat : catalog).

(** ** Verification *)

Definition header_fields (signature : string) : list (string * string) :=
  omap (partition_on "="%char) (split ","%char signature).
Definition values_of (k : string) (fields : list (string * string)) : list string :=
  map snd (List.filter (λ kv, fst kv == k) fields).

(** [any(hmac.compare_digest(expected, v) for v in candidates)]: comparing
    a text that is not ASCII raises. *)
Fixpoint any_digest (expected : string) (candidates : list string) : res error bool :=
  match candidates with
  | [] => Ok false
  | v :: vs =>
      if negb (is_ascii v) then Err PyTypeError
      else if v == expected then Ok true else any_digest expected vs
  end.

(** [StripeWebhookProcessor.verify] *)
Definition verify (payload signature secret : string) (now : Z) : res error unit :=
  _ ← ensure (negb (MAX_WEBHOOK_BYTES <? str_len payload)) (BillingError "webhook_too_large" 413);
  let fields := header_fields signature in
  let timestamp := default 0 (py_int (default "" (head (values_of "t" fields)))) in
  _ ← ensure (negb (300 <? Z.abs (now - timestamp))) signature_invalid;
  let expected := hmac_sha256_hex secret (pretty timestamp +:+ "." +:+ payload) in
  ok ← any_digest expected (values_of "v1" fields);
  ensure ok signature_invalid.

(** [_metadata] *)
Definition _metadata (obj : dict) : option string * option string :=
  match as_dict (get "metadata" obj) with
  | Some m => (as_str (get "magistrate_owner" m), as_str (get "catalog_id" m))
  | None => (None, None)
  end.

(** ** Event application *)

Definition nonempty (o : option string) : option string :=
  match o with Some "" => None | _ => o end.

(** [items[0].get("price", {}).get("id")], guarded as in the source. *)
Definition first_price (obj : dict) : res error json :=
  let items := match as_dict (get "items" obj) with
               | Some d => default (JList []) (assoc "data" d)
               | None => JList []
               end in
  if negb (truthy items) then Ok JNull
  else
    match items with
    | JList (JObj item :: _) =>
        match as_dict (get "price" item) with
        | Some p => Ok (get "id" p)
        | None => Ok JNull
        end
    | JList _ | JStr _ => Ok JNull
    | JObj _ => Err PyKeyError
    | _ => Err PyTypeError
    end.

Definition customer_row (customer : string) (a : account) : bool := a_customer a == Some customer.
Definition subscription_row (sub : string) (a : account) : bool := a_subscription a == Some sub.

(** The unique index on [subscription_id]. *)
Definition subscription_free (owner : string) (sub : option string) (s : db) : bool :=
  match sub with
  | Some v => negb (exists_row (λ a, subscription_row v a && (a_owner a != owner)) (accounts s))
  | None => true
  end.

Definition grace_after (a : account) (plan : dict) (now : Z) : Z :=
  match a_grace a with Some g => g | None => now + int_field plan "grace_days" * 86400 end.

(** The event is older than the newest one applied. *)
Definition stale (a : account) (event_created : Z) : bool :=
  match a_event_created a with Some c => event_created <? c | None => false end.

(** [_subscription] *)
Definition _subscription (event_type : string) (obj : dict) (now event_created : Z) : tx error db unit :=
  let '(meta_owner, meta_catalog) := _metadata obj in
  customer_owner ← match as_str (get "customer" obj) with
                   | Some c => read (λ s, a_owner <$> fetchone (customer_row c) (accounts s))
                   | None => mret None
                   end;
  let customer_owner := nonempty customer_owner in
  let meta_owner := nonempty meta_owner in
  require (match meta_owner, customer_owner with Some o, Some c => o == c | _, _ => true end)
    (BillingError "subscription_owner_conflict" 409) ;;
  let unknown := BillingError "subscription_unknown" 409 in
  owner ← lift (of_option unknown (or_else meta_owner customer_owner));
  require (customer_owner == Some owner) unknown ;;
  subscription_id ← lift (of_option unknown (as_str (get "id" obj)));
  price ← lift (first_price obj);
  let price_plan := p ← as_str price; '(k, plan) ← price_item cat p;
                    match k with Subscription => Some plan | CreditPack => None end in
  let price_catalog_id := match price_plan with Some plan => get "id" plan | None => JNull end in
  require (match nonempty meta_catalog with
           | Some m => negb (truthy price_catalog_id) || eq_str price_catalog_id m
           | None => true
           end) (BillingError "subscription_price_conflict" 409) ;;
  plan ← lift (of_option (BillingError "subscription_price_unknown" 409) (lookup_key price_catalog_id (plans cat)));
  require (eq_str (get "kind" plan) "subscription") (BillingError "subscription_price_unknown" 409) ;;
  account ← _account sha256_hex cat owner now;
  if stale account event_created then mret tt
  else
    let status := if event_type == "customer.subscription.deleted" then "canceled"
                  else default "canceled" (as_str (get "status" obj)) in
    let canceled := status == "canceled" in
    let grace := if (status == "past_due") || (status == "unpaid")
                 then Some (grace_after account plan now) else None in
    let selected := if canceled then default_plan cat else price_catalog_id in
    let sub := if canceled then None else Some subscription_id in
    period_start ← lift (sql_bind (get "current_period_start" obj));
    period_end ← lift (sql_bind (get "current_period_end" obj));
    free ← read (subscription_free owner sub);
    require free IntegrityError ;;
    set_account owner (λ a, a <| a_catalog := text_affinity selected |>
      <| a_status := (if canceled then "active" else status) |> <| a_subscription := sub |>
      <| a_period_start := period_start |> <| a_period_end := period_end |>
      <| a_cancel_at_end := is_true (get "cancel_at_period_end" obj) |> <| a_grace := grace |>
      <| a_event_created := Some event_created |> <| a_updated := now |>).

(** [_invoice] *)
Definition _invoice (event_id event_type : string) (obj : dict) (now event_created : Z) : tx error db unit :=
  let subscription := match get "subscription" obj with JObj d => get "id" d | j => j end in
  match as_str subscription with
  | None => mret tt
  | Some sub =>
      found ← read (λ s, fetchone (subscription_row sub) (accounts s));
      account ← lift (of_option (BillingError "subscription_unknown" 409) found);
      if stale account event_created then mret tt
      else
        plan ← lift (of_option (BillingError "subscription_price_unknown" 409) (plan_of cat (a_catalog account)));
        require (eq_str (get "kind" plan) "subscription") (BillingError "subscription_price_unknown" 409) ;;
        let owner := a_owner account in
        if event_type == "invoice.payment_failed" then
          set_account owner (λ a, a <| a_status := "past_due" |> <| a_grace := Some (grace_after account plan now) |>
            <| a_event_created := Some event_created |> <| a_updated := now |>)
        else
          let period_start := default now (as_int (get "period_start" obj)) in
          let period_end := match get "period_end" obj with JInt z => JInt z | _ => a_period_end account end in
          let grant := _microcredits (int_field plan "monthly_included_credits") in
          let balance := a_available account + grant in
          inserted ← _insert_ledger sha256_hex owner ("included:" +:+ sub +:+ ":" +:+ pretty period_start)
            included_grant grant balance "stripe" now None None
            [("catalog_id", get "id" plan); ("invoice_id", get "id" obj); ("event_id", JStr event_id)];
          set_account owner (λ a, a <| a_status := "active" |> <| a_grace := None |>
            <| a_period_start := JInt period_start |> <| a_period_end := period_end |>
            <| a_period_key := Some (pretty period_start) |> <| a_spend := 0 |>
            <| a_available ::= Z.add (if (inserted : bool) then grant else 0) |>
            <| a_event_created := Some event_created |> <| a_updated := now |>)
  end.

(** A paid checkout of a credit pack. *)
Definition _checkout_paid (event_id : string) (obj : dict) (now : Z) : tx error db unit :=
  id ← lift (sql_bind (get "id" obj));
  found ← read (λ s, session ← as_str id; fetchone (λ c, c_session c == session) (checkouts s));
  let unknown := BillingError "checkout_unknown" 409 in
  session ← lift (of_option unknown found);
  require (match c_kind session with CreditPack => true | Subscription => false end) unknown ;;
  pack ← lift (of_option (BillingError "catalog_item_not_found" 409) (lookup_key (JStr (c_catalog session)) (packs cat)));
  let owner := c_owner session in
  account ← _account sha256_hex cat owner now;
  let amount := _microcredits (int_field pack "credits") in
  let balance := a_available account + amount in
  _insert_ledger sha256_hex owner ("stripe:" +:+ event_id) topup amount balance "stripe" now None None
    [("catalog_id", get "id" pack); ("stripe_session_id", get "id" obj)] ;;
  set_account owner (λ a, a <| a_available := balance |> <| a_updated := now |>).

(** Records the event identity; a repeated event with the same bytes is a
    duplicate, with other bytes a conflict. *)
Definition record_event (event_id event_type digest : string) (now : Z) : tx error db bool :=
  prior ← read (λ s, fetchone (λ w, w_event w == event_id) (webhook_events s));
  match prior with
  | Some w =>
      require (match w_digest w with Some d => d == digest | None => true end) (BillingError "webhook_conflict" 409) ;;
      mret false
  | None =>
      modify (λ s, s <| webhook_events ::= λ t, t ++ [mkWebhookEvent event_id event_type now (Some digest)] |>) ;;
      mret true
  end.

Definition apply_event (event_id event_type digest : string) (event_created : Z) (obj : dict) (now : Z)
  : tx error db webhook_result :=
  fresh ← record_event event_id event_type digest now;
  if negb fresh then mret Duplicate
  else
    (if (event_type == "checkout.session.completed") && eq_str (get "mode" obj) "payment"
        && eq_str (get "payment_status" obj) "paid" then _checkout_paid event_id obj now
     else if startswith "customer.subscription." event_type then _subscription event_type obj now event_created
     else if (event_type == "invoice.paid") || (event_type == "invoice.payment_failed")
          then _invoice event_id event_type obj now event_created
     else mret tt) ;;
    mret Processed.

Definition webhook_invalid : error := BillingError "webhook_invalid" 400.

(** The envelope checks shared by the two entry points. *)
Definition read_event (payload : string) : res error (string * string * Z * dict) :=
  event ← of_option webhook_invalid (json_loads payload);
  e ← of_option webhook_invalid (as_dict event);
  id ← of_option webhook_invalid (as_str (get "id" e));
  type ← of_option webhook_invalid (as_str (get "type" e));
  created ← of_option webhook_invalid (as_int (get "created" e));
  _ ← ensure (0 <? created) webhook_invalid;
  obj ← of_option webhook_invalid (d ← as_dict (get "data" e); as_dict (get "object" d));
  Ok (id, type, created, obj).

(** [StripeWebhookProcessor.process]; [secret] is [STRIPE_WEBHOOK_SECRET]. *)
Definition process (secret payload signature : string) (now : Z) : tx error db webhook_result :=
  require (negb (strip secret == "")) (BillingError "stripe_not_configured" 503) ;;
  lift (verify payload signature (strip secret) now) ;;
  '(event_id, event_type, created, obj) ← lift (read_event payload);
  apply_event event_id event_type (sha256_hex payload) created obj now.

(** ** The pre-catalog endpoint *)

Definition some_max (old : option Z) (new : Z) : option Z :=
  Some (if new <? default 0 old then default 0 old else new).

(** [INSERT ... ON CONFLICT(owner_user_id) DO UPDATE] of the legacy
    endpoint: never a change of balance. *)
Definition legacy_upsert (owner : string) (customer sub : option string) (status : string)
    (period_end : option Z) (created now : Z) : tx error db unit :=
  let pe := match period_end with Some z => JInt z | None => JNull end in
  found ← get_account owner;
  (match found with
   | Some _ =>
       set_account owner (λ a, a <| a_provider := "stripe" |> <| a_customer := or_else customer (a_customer a) |>
         <| a_subscription := or_else sub (a_subscription a) |> <| a_status := status |> <| a_period_end := pe |>
         <| a_event_created := some_max (a_event_created a) created |> <| a_updated := now |>)
   | None =>
       insert_account (mkAccount owner "stripe" customer status now now sub pe (Some created) (Some "free")
                         JNull false None 0 0 0 None)
   end) ;;
  unique ← read (λ s, subscription_free owner sub s &&
    match customer with
    | Some c => negb (exists_row (λ a, customer_row c a && (a_owner a != owner)) (accounts s))
    | None => true
    end);
  require unique IntegrityError.

Definition is_subscription_event (t : string) : bool := startswith "customer.subscription." t.

(** [accept_webhook]; [secret] is [MAGISTRATE_STRIPE_WEBHOOK_SECRET]. *)
Definition accept_webhook (secret raw signature_header : string) (now : Z) : tx error db webhook_result :=
  require (negb (secret == "")) (BillingError "stripe_not_configured" 503) ;;
  lift (verify raw signature_header secret now) ;;
  '(event_id, event_type, created, obj) ← lift (read_event raw);
  prior ← read (λ s, fetchone (λ w, w_event w == event_id) (webhook_events s));
  match prior with
  | Some w =>
      require (match w_digest w with Some d => d == sha256_hex raw | None => true end) (BillingError "webhook_conflict" 409) ;;
      mret Duplicate
  | None =>
      let metadata := default [] (as_dict (get "metadata" obj)) in
      let named := let m := get "magistrate_user_id" metadata in
                   if truthy m then m else get "client_reference_id" obj in
      let customer := as_str (get "customer" obj) in
      owner ← match as_str named, customer with
              | Some o, _ => mret (Some o)
              | None, Some c => read (λ s, a_owner <$> fetchone (customer_row c) (accounts s))
              | None, None => mret None
              end;
      let sub_event := is_subscription_event event_type in
      let checkout := event_type == "checkout.session.completed" in
      let sub := as_str (if sub_event then get "id" obj else get "subscription" obj) in
      let status := if sub_event then default "none" (nonempty (as_str (get "status" obj)))
                    else if checkout then "pending" else "none" in
      let period_end := if sub_event then as_int (get "current_period_end" obj) else None in
      (match owner with
       | Some o =>
           known ← read (λ s, bool_decide (o ∈ profiles s));
           existing ← get_account o;
           let should_apply :=
             (sub_event && match existing with
                           | Some a => negb (stale a created)
                           | None => true
                           end) ||
             (checkout && match existing with
                          | Some a => (a_status a == "none") || (a_status a == "pending")
                          | None => true
                          end) in
           if (known : bool) && should_apply
           then legacy_upsert o customer sub status period_end created now
           else mret tt
       | None => mret tt
       end) ;;
      modify (λ s, s <| webhook_events ::= λ t, t ++ [mkWebhookEvent event_id event_type now (Some (sha256_hex raw))] |>) ;;
      mret Processed
  end.
End Webhook.
