(* ===== verification/BillingInvariant.v ===== *)
(** * Invariants of the credit ledger

    The balance of an account is the sum of its ledger entries, and its hold
    is the sum of its open reservations, in every state that any sequence of
    ledger operations and webhooks reaches. *)

From stdpp Require Import base option list strings numbers pretty sets.
From Stdlib Require Import ZArith Lia.
From S2P Require Import Prelude Sql Json BillingCatalog BillingLedger BillingWebhook.

Open Scope string_scope.
Open Scope list_scope.
Open Scope Z_scope.

Definition owned (owner : string) (l : ledger_row) : bool := l_owner l == owner.

(** Where a ledger key with a reserved prefix comes from. *)
Definition key_traced (s : db) (l : ledger_row) : Prop :=
  (∀ k, l_key l = "reserve:" +:+ k → ∃ r, r ∈ reservations s ∧ r_owner r = l_owner l ∧ r_key r = k) ∧
  (∀ i, l_key l = "release:" +:+ i → ∃ r, r ∈ reservations s ∧ r_id r = i ∧ r_status r = released) ∧
  (∀ e, l_key l = "settle:" +:+ e → ∃ v, v ∈ usage_rows s ∧ v_owner v = l_owner l ∧ v_event v = e) ∧
  (∀ e, l_key l = "stripe:" +:+ e → ∃ w, w ∈ webhook_events s ∧ w_event w = e).

(** A key an operator may choose: none of the reserved prefixes. *)
Definition clean_key (key : string) : bool :=
  negb (startswith "reserve:" key) && negb (startswith "release:" key) &&
  negb (startswith "settle:" key) && negb (startswith "stripe:" key).

(** Only the clause of the key's own prefix survives. *)
Ltac trace_key :=
  split_and!; intros ? E; simpl l_key in E;
  first [apply app_inj_l in E as <- | exfalso; simpl in E; discriminate E].

Section Invariant.
Context (sha256_hex : string → string).
Context (cat : catalog).
(** The (owner, key) pairs a run writes to the ledger, on which the
    truncated digest is collision free. *)
Context (U : string → string → Prop).

#[local] Abbreviation ledger_id := (_ledger_id sha256_hex).

Definition ids_ok (t : list ledger_row) : Prop :=
  ∀ l, l ∈ t → l_entry_id l = ledger_id (l_owner l) (l_key l) ∧ U (l_owner l) (l_key l).

Record inv (s : db) : Prop := {
  inv_accounts : NoDup (map a_owner (accounts s));
  inv_rids : NoDup (map r_id (reservations s));
  inv_rid_of : ∀ r, r ∈ reservations s → r_id r = _reservation_id sha256_hex (r_owner r) (r_objective r);
  inv_balance : ∀ a, a ∈ accounts s → a_available a = sum l_amount (owned (a_owner a)) (ledger s);
  inv_hold : ∀ a, a ∈ accounts s → a_reserved a = sum r_estimated (is_reserved (a_owner a)) (reservations s);
  inv_ledger_owner : ∀ l, l ∈ ledger s → l_owner l ∈ map a_owner (accounts s);
  inv_reservation_owner : ∀ r, r ∈ reservations s → r_owner r ∈ map a_owner (accounts s);
  inv_ids : ids_ok (ledger s);
  inv_keys : ∀ l, l ∈ ledger s → key_traced s l;
}.

Definition collision_free : Prop := ∀ o k o' k',
  U o k → U o' k' → ledger_id o k = ledger_id o' k' → o = o' ∧ k = k'.

Lemma inv_empty users : inv (mkDb [] [] [] [] [] [] users).
Proof. split; simpl; try set_solver; constructor. Qed.

(** ** Lookups under the invariant *)

Lemma account_unique s a owner :
  inv s → a ∈ accounts s → a_owner a = owner → fetchone (account_of owner) (accounts s) = Some a.
Proof.
  intros Hi Ha Ho. eapply (fetchone_unique a_owner); [apply (inv_accounts s Hi)|done|..];
    unfold account_of; intros; bools; by apply bool_decide_eq_true || congruence.
Qed.

Lemma get_account_inv s owner a :
  fetchone (account_of owner) (accounts s) = Some a → a ∈ accounts s ∧ a_owner a = owner.
Proof. intros [Ha Ho]%fetchone_some. unfold account_of in Ho. bools. done. Qed.

Lemma owners_update (f : account → account) owner l :
  (∀ a, a_owner (f a) = a_owner a) → map a_owner (update (account_of owner) f l) = map a_owner l.
Proof. intros. by apply map_update. Qed.

(** The tables a traced key refers to only grow. *)
Definition grows (s s' : db) : Prop :=
  (∀ r, r ∈ reservations s → ∃ r', r' ∈ reservations s' ∧ r_id r' = r_id r ∧ r_owner r' = r_owner r ∧
                                   r_key r' = r_key r ∧ (r_status r = released → r_status r' = released)) ∧
  (∀ v, v ∈ usage_rows s → v ∈ usage_rows s') ∧
  (∀ w, w ∈ webhook_events s → w ∈ webhook_events s').

Lemma grows_same s s' :
  reservations s' = reservations s → usage_rows s' = usage_rows s → webhook_events s' = webhook_events s →
  grows s s'.
Proof. unfold grows. intros -> -> ->. split_and!; eauto 10. Qed.

Lemma key_traced_grows s s' l : grows s s' → key_traced s l → key_traced s' l.
Proof.
  intros (Hr & Hv & Hw) (K1 & K2 & K3 & K4). split_and!.
  - intros k (r & Hin & ? & ?)%K1. destruct (Hr r Hin) as (r' & ? & ? & ? & ? & ?). exists r'. split_and!; congruence.
  - intros i (r & Hin & ? & Hs)%K2. destruct (Hr r Hin) as (r' & ? & ? & ? & ? & Hs'). exists r'. split_and!; auto; congruence.
  - naive_solver.
  - naive_solver.
Qed.

(** One account changes by [da] and its hold by [dr], the ledger and the
    reservations by as much. *)
Lemma inv_step s s' owner f da dr :
  inv s →
  accounts s' = update (account_of owner) f (accounts s) →
  (∀ a, a_owner (f a) = a_owner a) →
  (∀ a, a ∈ accounts s → a_owner a = owner → a_available (f a) = a_available a + da ∧ a_reserved (f a) = a_reserved a + dr) →
  (∀ o, sum l_amount (owned o) (ledger s') = sum l_amount (owned o) (ledger s) + if o == owner then da else 0) →
  (∀ o, sum r_estimated (is_reserved o) (reservations s') =
        sum r_estimated (is_reserved o) (reservations s) + if o == owner then dr else 0) →
  NoDup (map r_id (reservations s')) →
  (∀ r, r ∈ reservations s' → r_id r = _reservation_id sha256_hex (r_owner r) (r_objective r) ∧
                              r_owner r ∈ map a_owner (accounts s)) →
  (∀ l, l ∈ ledger s' → l_owner l ∈ map a_owner (accounts s) ∧
        l_entry_id l = ledger_id (l_owner l) (l_key l) ∧ U (l_owner l) (l_key l) ∧ key_traced s' l) →
  inv s'.
Proof.
  intros Hi Hacc Hf Hd Hl Hr Hnd Hres Hled. split.
  - rewrite Hacc, owners_update by done. apply (inv_accounts s Hi).
  - done.
  - naive_solver.
  - intros a. rewrite Hacc. intros (b & Hb & ->)%elem_of_update. unfold account_of in *.
    case_bool_decide as E.
    + rewrite Hf, Hl, E. destruct (Hd b Hb E) as [-> _].
      rewrite (inv_balance s Hi b Hb), E, eqb_refl. done.
    + rewrite Hl, (inv_balance s Hi b Hb), eqb_neq by done. lia.
  - intros a. rewrite Hacc. intros (b & Hb & ->)%elem_of_update. unfold account_of in *.
    case_bool_decide as E.
    + rewrite Hf, Hr, E. destruct (Hd b Hb E) as [_ ->].
      rewrite (inv_hold s Hi b Hb), E, eqb_refl. done.
    + rewrite Hr, (inv_hold s Hi b Hb), eqb_neq by done. lia.
  - intros l Hin. rewrite Hacc, owners_update by done. by apply Hled.
  - intros r Hin. rewrite Hacc, owners_update by done. by apply Hres.
  - intros l Hin. split; by apply Hled.
  - intros l Hin. by apply Hled.
Qed.

(** An account update that touches neither balance nor hold. *)
Lemma inv_account_fields s owner f :
  inv s → (∀ a, a_owner (f a) = a_owner a ∧ a_available (f a) = a_available a ∧ a_reserved (f a) = a_reserved a) →
  inv (s <| accounts ::= update (account_of owner) f |>).
Proof.
  intros Hi Hf. eapply (inv_step s _ owner f 0 0); simpl; try done.
  - naive_solver.
  - intros a _ _. destruct (Hf a) as (_ & -> & ->). lia.
  - intros o. case_bool_decide; lia.
  - intros o. case_bool_decide; lia.
  - apply (inv_rids s Hi).
  - intros r Hr. split; [by apply (inv_rid_of s Hi)|by apply (inv_reservation_owner s Hi)].
  - intros l Hl. split; [by apply (inv_ledger_owner s Hi)|].
    split; [by apply (inv_ids s Hi)|]. split; [by apply (inv_ids s Hi)|].
    eapply key_traced_grows; [|by apply (inv_keys s Hi)]. by apply grows_same.
Qed.

(** The ledger side of [inv_step] for one more row. *)
Lemma ledger_snoc s s' row :
  inv s → ledger s' = ledger s ++ [row] → l_owner row ∈ map a_owner (accounts s) →
  l_entry_id row = ledger_id (l_owner row) (l_key row) → U (l_owner row) (l_key row) →
  grows s s' → key_traced s' row →
  ∀ l, l ∈ ledger s' → l_owner l ∈ map a_owner (accounts s) ∧
        l_entry_id l = ledger_id (l_owner l) (l_key l) ∧ U (l_owner l) (l_key l) ∧ key_traced s' l.
Proof.
  intros Hi E Ho Hid HU Hg Hk l. rewrite E. intros [Hl| ->%list_elem_of_singleton]%elem_of_app; [|done].
  destruct (inv_ids s Hi l Hl). split_and!; try done; [by apply (inv_ledger_owner s Hi)|].
  eapply key_traced_grows; [done|]. by apply (inv_keys s Hi).
Qed.

(** ** The ledger insertion *)

Definition ledger_row_of owner key t amount balance source now rid objective meta : ledger_row :=
  mkLedger (ledger_id owner key) owner key t amount balance rid objective source meta now.

Lemma insert_ledger_cases owner key t amount balance source now rid objective meta s b s' :
  _insert_ledger sha256_hex owner key t amount balance source now rid objective meta s = Ok (b, s') →
  (b = true ∧ s' = s <| ledger ::= λ l, l ++ [ledger_row_of owner key t amount balance source now rid objective meta] |>) ∨
  (b = false ∧ s' = s).
Proof.
  unfold _insert_ledger. destruct (insert _ _ _) as [l|] eqn:E; intros [= <- <-]; [left|right]; [|done].
  apply insert_some in E as [-> _]. done.
Qed.

(** The insertion writes the ledger only. *)
Lemma insert_ledger_frame owner key t amount balance source now rid objective meta s b s' :
  _insert_ledger sha256_hex owner key t amount balance source now rid objective meta s = Ok (b, s') →
  accounts s' = accounts s ∧ reservations s' = reservations s ∧ usage_rows s' = usage_rows s ∧
  webhook_events s' = webhook_events s ∧ checkouts s' = checkouts s.
Proof. by intros [(_ & ->)|(_ & ->)]%insert_ledger_cases. Qed.

(** A key that no row of its owner has is inserted. *)
Lemma insert_ledger_fresh owner key t amount balance source now rid objective meta s b s' :
  collision_free → ids_ok (ledger s) → U owner key →
  (∀ l, l ∈ ledger s → l_owner l = owner → l_key l ≠ key) →
  _insert_ledger sha256_hex owner key t amount balance source now rid objective meta s = Ok (b, s') →
  s' = s <| ledger ::= λ l, l ++ [ledger_row_of owner key t amount balance source now rid objective meta] |>.
Proof.
  intros Hc Hi HU Hk. unfold _insert_ledger. rewrite insert_fresh; [by intros [= <- <-]|].
  intros l Hl. unfold ledger_clash. simpl. destruct (Hi l Hl) as [Hid HUl].
  apply orb_false_iff. split.
  - apply eqb_neq. rewrite Hid. intros E. destruct (Hc _ _ _ _ HU HUl E) as [-> ->]. by eapply Hk.
  - destruct (owner == l_owner l) eqn:E; simpl; [|done]. bools. apply eqb_neq. intros ->. by eapply Hk.
Qed.

(** A refused insertion means the key is taken. *)
Lemma insert_ledger_refused owner key t amount balance source now rid objective meta s s' :
  collision_free → ids_ok (ledger s) → U owner key →
  _insert_ledger sha256_hex owner key t amount balance source now rid objective meta s = Ok (false, s') →
  ∃ l, l ∈ ledger s ∧ l_owner l = owner ∧ l_key l = key.
Proof.
  intros Hc Hi HU. unfold _insert_ledger, insert. destruct (existsb _ _) eqn:E; [|done]. intros _.
  apply existsb_exists in E as (l & Hl%list_elem_of_In & Hcl). exists l. split; [done|].
  unfold ledger_clash in Hcl. simpl in Hcl. apply orb_true_iff in Hcl as [Hid|Hk]; bools; [|done].
  destruct (Hi l Hl) as [Hid' HUl]. rewrite Hid' in Hid.
  destruct (Hc _ _ _ _ HU HUl Hid) as [-> ->]. done.
Qed.

(** Posting one entry to an account. *)
Lemma inv_post s owner key t amount balance source now rid objective meta f :
  inv s → U owner key → owner ∈ map a_owner (accounts s) →
  (∀ a, a_owner (f a) = a_owner a) →
  (∀ a, a ∈ accounts s → a_owner a = owner → a_available (f a) = a_available a + amount ∧ a_reserved (f a) = a_reserved a) →
  let row := ledger_row_of owner key t amount balance source now rid objective meta in
  key_traced s row →
  inv (s <| ledger ::= λ l, l ++ [row] |> <| accounts ::= update (account_of owner) f |>).
Proof.
  intros Hi HU Ho Hf Hd row Hk. eapply (inv_step s _ owner f amount 0); simpl; try done.
  - intros a Ha E. destruct (Hd a Ha E) as [-> ->]. lia.
  - intros o. rewrite sum_snoc. f_equal. unfold owned. simpl.
    case_bool_decide; case_bool_decide; congruence.
  - intros o. case_bool_decide; lia.
  - apply (inv_rids s Hi).
  - intros r Hr. split; [by apply (inv_rid_of s Hi)|by apply (inv_reservation_owner s Hi)].
  - intros l [Hl|Hl]%elem_of_app.
    + split; [by apply (inv_ledger_owner s Hi)|]. split; [by apply (inv_ids s Hi)|].
      split; [by apply (inv_ids s Hi)|].
      eapply key_traced_grows; [|by apply (inv_keys s Hi)]. by apply grows_same.
    + apply list_elem_of_singleton in Hl as ->. split_and!; try done.
Qed.

(** ** One lemma per operation *)

(** What [_account] leaves alone. *)
Definition frame (s s' : db) : Prop :=
  reservations s' = reservations s ∧ usage_rows s' = usage_rows s ∧
  webhook_events s' = webhook_events s ∧ checkouts s' = checkouts s ∧ profiles s' = profiles s.

(** The key of a calendar grant, for the plans of the catalog. *)
Definition grant_keys (owner : string) (now : Z) : Prop :=
  ∀ k d, (k, d) ∈ plans cat →
    U owner ("included:" +:+ default "" (as_str (get "id" d)) +:+ ":" +:+ _period_key now).

Lemma insert_account_inv s a u s' :
  inv s → a_available a = 0 → a_reserved a = 0 → insert_account a s = Ok (u, s') →
  inv s' ∧ fetchone (account_of (a_owner a)) (accounts s') = Some a ∧ frame s s' ∧ ledger s' = ledger s.
Proof.
  intros Hi Hav Hre. unfold insert_account. destruct (bool_decide _); simpl; [|done].
  destruct (insert _ _ _) as [l|] eqn:E; [|done]. intros [= _ <-].
  pose proof (insert_some _ _ _ _ E) as [-> Hfresh].
  assert (∀ b, b ∈ accounts s → a_owner b ≠ a_owner a) as Hne.
  { intros b Hb Heq. specialize (Hfresh b Hb). simpl in Hfresh. bools. congruence. }
  assert (inv (s <| accounts := accounts s ++ [a] |>)) as Hi'; [|split; [done|split; [|done]]].
  - split; simpl; try (by apply Hi).
    + eapply insert_NoDup; [|exact E|apply (inv_accounts s Hi)]. simpl. intros ?? ->. apply eqb_refl.
    + intros b [Hb| ->%list_elem_of_singleton]%elem_of_app; [by apply (inv_balance s Hi)|].
      rewrite sum_none; [done|]. intros l Hl. apply eqb_neq. intros Ho.
      apply (inv_ledger_owner s Hi) in Hl. rewrite Ho in Hl. apply list_elem_of_fmap in Hl as (b & Hb & Hin).
      by apply (Hne b).
    + intros b [Hb| ->%list_elem_of_singleton]%elem_of_app; [by apply (inv_hold s Hi)|].
      rewrite sum_none; [done|]. intros r Hr. unfold is_reserved. rewrite eqb_neq; [done|]. intros Ho.
      apply (inv_reservation_owner s Hi) in Hr. rewrite Ho in Hr. apply list_elem_of_fmap in Hr as (b & Hb & Hin).
      by apply (Hne b).
    + intros l Hl. rewrite map_app. apply elem_of_app. left. by apply (inv_ledger_owner s Hi).
    + intros r Hr. rewrite map_app. apply elem_of_app. left. by apply (inv_reservation_owner s Hi).
  - eapply account_unique; [exact Hi'| |done]. simpl. set_solver.
Qed.

Lemma account_inv owner now s a s' :
  inv s → grant_keys owner now → _account sha256_hex cat owner now s = Ok (a, s') →
  inv s' ∧ fetchone (account_of owner) (accounts s') = Some a ∧ frame s s'.
Proof.
  intros Hi HU H. unfold _account in H.
  apply bind_ok in H as (found & s0 & H0 & H). unfold get_account in H0. apply read_ok in H0 as [<- <-].
  apply bind_ok in H as (row & s1 & H1 & H).
  assert (inv s1 ∧ fetchone (account_of owner) (accounts s1) = Some row ∧ frame s s1) as (Hi1 & Hrow & Hfr).
  { clear H. destruct (fetchone _ _) as [b|] eqn:E; tx_inv; [done|].
    match goal with H : insert_account _ _ = _ |- _ => apply insert_account_inv in H as (? & ? & ? & _) end; done. }
  clear H1. apply bind_ok in H as (plan & s2 & [Hplan <-]%lift_ok & H). apply of_option_ok in Hplan.
  destruct (is_calendar_plan plan && _); [|by tx_inv].
  apply bind_ok in H as (inserted & s3 & Hins & H).
  apply insert_ledger_cases in Hins as [(-> & ->)|(-> & ->)];
    unfold set_account, get_account, the in H; tx_inv; [|done].
  apply get_account_inv in Hrow as Hrow'. destruct Hrow' as [Hin Ho].
  match goal with H : fetchone _ _ = Some _ |- inv ?s' ∧ _ => assert (inv s') as Hi2; [|split; [exact Hi2|by split]] end.
  eapply (inv_post s1 owner); try done.
  - unfold plan_of in Hplan. destruct (a_catalog row); [|done].
    apply lookup_key_in in Hplan as (k & Hk). by eapply HU.
  - rewrite <- Ho. by apply list_elem_of_fmap_2.
  - intros b Hb E. assert (b = row) as ->; [|done].
    eapply NoDup_key_inj; [apply (inv_accounts s1 Hi1)|..]; congruence.
Qed.

(** The only entry [_account] adds is a grant. *)
Lemma account_ledger owner now s a s' :
  _account sha256_hex cat owner now s = Ok (a, s') →
  ∀ l, l ∈ ledger s' → l ∈ ledger s ∨ ∃ k, l_key l = "included:" +:+ k.
Proof.
  intros H. unfold _account in H.
  apply bind_ok in H as (found & s0 & H0 & H). unfold get_account in H0. apply read_ok in H0 as [<- <-].
  apply bind_ok in H as (row & s1 & H1 & H).
  assert (ledger s1 = ledger s) as El.
  { clear H. destruct (fetchone _ _) as [b|] eqn:E; tx_inv; [done|].
    unfold insert_account in *. destruct (bool_decide _); simpl in *; [|done].
    destruct (insert _ _ _); naive_solver. }
  clear H1. apply bind_ok in H as (plan & s2 & [Hplan <-]%lift_ok & H).
  destruct (is_calendar_plan plan && _); [|tx_inv; rewrite El; auto].
  apply bind_ok in H as (inserted & s3 & Hins & H).
  apply insert_ledger_cases in Hins as [(-> & ->)|(-> & ->)];
    unfold set_account, get_account, the in H; tx_inv; simpl; rewrite El; [|auto].
  intros l [Hl| ->%list_elem_of_singleton]%elem_of_app; eauto.
Qed.

(** The fetched account is the only one an update of its owner touches. *)
Lemma account_fetched s owner a b :
  inv s → fetchone (account_of owner) (accounts s) = Some a → b ∈ accounts s → a_owner b = owner → b = a.
Proof.
  intros Hi [Ha Ho]%get_account_inv Hb E.
  eapply NoDup_key_inj; [apply (inv_accounts s Hi)|..]; congruence.
Qed.

Lemma fetched_owner s owner a :
  fetchone (account_of owner) (accounts s) = Some a → owner ∈ map a_owner (accounts s).
Proof. intros [Ha <-]%get_account_inv. by apply list_elem_of_fmap_2. Qed.

Lemma reserve_inv owner objective key now s r s' :
  collision_free → inv s → grant_keys owner now → U owner ("reserve:" +:+ key) →
  reserve_objective sha256_hex cat owner objective key now s = Ok (r, s') → inv s'.
Proof.
  intros Hc Hi Hg HU H. unfold reserve_objective in H.
  apply bind_ok in H as (a & s1 & Ha & H).
  destruct (account_inv _ _ _ _ _ Hi Hg Ha) as (Hi1 & Hrow & _). clear Ha Hi.
  apply bind_ok in H as (plan & s2 & [_ <-]%lift_ok & H).
  apply bind_ok in H as (existing & s3 & [_ <-]%read_ok & H).
  destruct existing as [r0|]; [by tx_inv|]. unfold set_account, the in H. tx_inv.
  match goal with H : insert reservation_clash _ _ = Some _ |- _ =>
    pose proof H as Hins; apply insert_some in H as [-> Hfresh] end.
  match goal with H : _insert_ledger _ _ _ _ _ _ _ _ _ _ _ ?t = Ok _ |- _ =>
    apply insert_ledger_fresh in H as ->; [|done|exact (inv_ids _ Hi1)|done|] end.
  2:{ intros l Hl Ho Hk. simpl in Hl. destruct (inv_keys _ Hi1 l Hl) as (K & _).
      destruct (K _ Hk) as (r' & Hr' & ? & ?). specialize (Hfresh _ Hr').
      unfold reservation_clash in Hfresh. simpl in Hfresh. bools.
      assert ((owner == r_owner r') && (key == r_key r') = true); [|congruence].
      apply andb_true_iff; split; apply bool_decide_eq_true; congruence. }
  set (est := _microcredits _) in *.
  eapply (inv_step _ _ owner _ (- est) est Hi1); simpl; [reflexivity|done|..].
  - intros b Hb E. rewrite (account_fetched _ _ _ _ Hi1 Hrow Hb E). simpl. lia.
  - intros o. rewrite sum_snoc. f_equal. unfold owned. simpl. case_bool_decide; case_bool_decide; congruence.
  - intros o. rewrite sum_snoc. f_equal. unfold is_reserved. simpl. rewrite andb_true_r.
    case_bool_decide; case_bool_decide; congruence.
  - eapply insert_NoDup; [|exact Hins|apply (inv_rids _ Hi1)].
    intros x y E. unfold reservation_clash. by rewrite E, eqb_refl.
  - intros x [Hx| ->%list_elem_of_singleton]%elem_of_app; simpl.
    + split; [by apply (inv_rid_of _ Hi1)|by apply (inv_reservation_owner _ Hi1)].
    + split; [done|]. by eapply fetched_owner.
  - intros l Hl. eapply (ledger_snoc _ _ _ Hi1); [reflexivity|simpl; try done..|exact Hl].
    + by eapply fetched_owner.
    + unfold grows. simpl. split_and!; try done. intros r' Hr'. exists r'. set_solver.
    + trace_key. eexists. split; [apply elem_of_app; right; by apply list_elem_of_singleton|done].
Qed.

(** Closing one reservation by its id. *)
Section Close.
Context (s : db) (r : reservation) (g : reservation → reservation).
Hypothesis Hi : inv s.
Hypothesis Hr : r ∈ reservations s.
Hypothesis Hopen : r_status r = reserved.
Hypothesis Hg : ∀ x, r_id (g x) = r_id x ∧ r_owner (g x) = r_owner x ∧ r_objective (g x) = r_objective x ∧
                     r_key (g x) = r_key x ∧ r_status (g x) ≠ reserved.
Let t := update (λ x, r_id x == r_id r) g (reservations s).

Lemma close_rids : NoDup (map r_id t).
Proof. unfold t. rewrite map_update; [apply (inv_rids s Hi)|]. intros. apply Hg. Qed.

Lemma close_hold o :
  sum r_estimated (is_reserved o) t =
  sum r_estimated (is_reserved o) (reservations s) + if o == r_owner r then - r_estimated r else 0.
Proof.
  unfold t. rewrite (sum_update_unique r_id _ _ _ _ _ r); [|apply (inv_rids s Hi)|done|apply eqb_refl|].
  - unfold is_reserved. rewrite Hopen, eqb_refl, andb_true_r.
    destruct (Hg r) as (_ & _ & _ & _ & Hs). rewrite (eqb_neq (r_status (g r))) by done.
    rewrite andb_false_r. case_bool_decide; case_bool_decide; try congruence; lia.
  - intros x Hx. by bools.
Qed.

Lemma close_rows x : x ∈ t → r_id x = _reservation_id sha256_hex (r_owner x) (r_objective x) ∧
                              r_owner x ∈ map a_owner (accounts s).
Proof.
  intros (y & Hy & ->)%elem_of_update. destruct (Hg y) as (E1 & E2 & E3 & _).
  destruct (_ == _); rewrite ?E1, ?E2, ?E3;
    (split; [by apply (inv_rid_of s Hi)|by apply (inv_reservation_owner s Hi)]).
Qed.

Lemma close_grows s' :
  reservations s' = t → (∀ v, v ∈ usage_rows s → v ∈ usage_rows s') →
  webhook_events s' = webhook_events s → grows s s'.
Proof.
  intros E Hu Hw. unfold grows. rewrite E, Hw. split_and!; try done.
  intros x Hx. exists (if r_id x == r_id r then g x else x).
  destruct (Hg x) as (E1 & E2 & E3 & E4 & _). split; [apply elem_of_update; eauto|].
  case_bool_decide as Ex; [|done]. split_and!; try done.
  assert (x = r) as -> by (eapply NoDup_key_inj; [apply (inv_rids s Hi)|..]; done). congruence.
Qed.
End Close.

Lemma for_objective_spec s owner objective r :
  fetchone (for_objective owner objective) (reservations s) = Some r →
  r ∈ reservations s ∧ r_owner r = owner ∧ r_objective r = objective.
Proof. intros [Hr H]%fetchone_some. unfold for_objective in H. by bools. Qed.

Lemma release_inv owner objective reason now s b s' :
  collision_free → inv s → U owner ("release:" +:+ _reservation_id sha256_hex owner objective) →
  release_objective sha256_hex owner objective reason now s = Ok (b, s') → inv s'.
Proof.
  intros Hc Hi HU H. unfold release_objective in H.
  apply bind_ok in H as (found & s1 & [Hf <-]%read_ok & H).
  destruct found as [r|]; [|by tx_inv]. apply for_objective_spec in Hf as (Hr & Ho & Hobj).
  destruct (r_status r == reserved) eqn:Hst; simpl in H; [bools|by tx_inv].
  unfold get_account, set_account, the in H.
  apply bind_ok in H as (fa & s2 & [Hacc <-]%read_ok & H).
  apply bind_ok in H as (a & s3 & [->%of_option_ok <-]%lift_ok & H). tx_inv.
  match goal with H : _insert_ledger _ _ _ _ _ _ _ _ _ _ _ ?t = Ok _ |- _ =>
    apply insert_ledger_fresh in H as ->;
      [|done|exact (inv_ids _ Hi)|by rewrite (inv_rid_of _ Hi)|] end.
  2:{ intros l Hl _ Hk. simpl in Hl. destruct (inv_keys _ Hi l Hl) as (_ & K & _).
      destruct (K _ Hk) as (r' & Hr' & Hid & ?).
      assert (r' = r) as -> by (eapply NoDup_key_inj; [apply (inv_rids _ Hi)|..]; done). congruence. }
  set (g := λ x : reservation, x <| r_status := released |> <| r_updated := now |>).
  assert (∀ x, r_id (g x) = r_id x ∧ r_owner (g x) = r_owner x ∧ r_objective (g x) = r_objective x ∧
               r_key (g x) = r_key x ∧ r_status (g x) ≠ reserved) as Hg by done.
  eapply (inv_step _ _ (r_owner r) _ (r_estimated r) (- r_estimated r) Hi); simpl; [reflexivity|done|..].
  - intros b Hb E. rewrite (account_fetched _ _ _ _ Hi Hacc Hb E). simpl. lia.
  - intros o. rewrite sum_snoc. f_equal. unfold owned. simpl. case_bool_decide; case_bool_decide; congruence.
  - exact (close_hold _ _ g Hi Hr Hst Hg).
  - exact (close_rids _ _ g Hi Hg).
  - intros x. exact (close_rows _ _ g Hi Hg x).
  - intros l Hl. eapply (ledger_snoc _ _ _ Hi); [reflexivity|simpl; try done..|exact Hl].
    + by eapply fetched_owner.
    + by rewrite (inv_rid_of _ Hi).
    + by eapply (close_grows _ _ g Hi Hr Hst Hg).
    + trace_key. exists (g r). split; [|done]. apply elem_of_update. exists r. by rewrite eqb_refl.
Qed.

Lemma settle_inv owner objective measured event now s r s' :
  collision_free → inv s → U owner ("settle:" +:+ event) →
  settle_objective sha256_hex cat owner objective measured event now s = Ok (r, s') → inv s'.
Proof.
  intros Hc Hi HU H. unfold settle_objective in H.
  apply bind_ok in H as ([u rate] & s0 & [_ <-]%lift_ok & H).
  apply bind_ok in H as (actual & s1 & [_ <-]%lift_ok & H).
  apply bind_ok in H as (found & s2 & [Hf <-]%read_ok & H).
  apply bind_ok in H as (r0 & s3 & [->%of_option_ok <-]%lift_ok & H).
  apply for_objective_spec in Hf as (Hr & Ho & Hobj).
  destruct (r_status r0 == settled); [by tx_inv|].
  apply bind_ok in H as (v & s4 & [Hst <-]%require_ok & H). bools.
  unfold get_account, set_account, the in H.
  apply bind_ok in H as (fa & s5 & [Hacc <-]%read_ok & H).
  apply bind_ok in H as (a & s6 & [->%of_option_ok <-]%lift_ok & H). tx_inv.
  match goal with H : insert usage_clash _ _ = Some _ |- _ => apply insert_some in H as [-> Hfresh] end.
  match goal with H : _insert_ledger _ _ _ _ _ _ _ _ _ _ _ ?t = Ok _ |- _ =>
    apply insert_ledger_fresh in H as ->; [|done|exact (inv_ids _ Hi)|done|] end.
  2:{ intros l Hl Hlo Hk. simpl in Hl. destruct (inv_keys _ Hi l Hl) as (_ & _ & K & _).
      destruct (K _ Hk) as (v' & Hv' & ? & ?). specialize (Hfresh _ Hv').
      unfold usage_clash in Hfresh. simpl in Hfresh. bools.
      assert ((r_owner r0 == v_owner v') && (event == v_event v') = true); [|congruence].
      apply andb_true_iff; split; apply bool_decide_eq_true; congruence. }
  set (g := λ x : reservation, x <| r_status := settled |> <| r_actual := Some actual |>
                                 <| r_usage := Some u |> <| r_updated := now |>).
  assert (∀ x, r_id (g x) = r_id x ∧ r_owner (g x) = r_owner x ∧ r_objective (g x) = r_objective x ∧
               r_key (g x) = r_key x ∧ r_status (g x) ≠ reserved) as Hg by done.
  eapply (inv_step _ _ (r_owner r0) _ (r_estimated r0 - actual) (- r_estimated r0) Hi); simpl; [reflexivity|done|..].
  - intros b Hb E. rewrite (account_fetched _ _ _ _ Hi Hacc Hb E). simpl. lia.
  - intros o. rewrite sum_snoc. f_equal. unfold owned. simpl. case_bool_decide; case_bool_decide; congruence.
  - exact (close_hold _ _ g Hi Hr Hst Hg).
  - exact (close_rids _ _ g Hi Hg).
  - intros x. exact (close_rows _ _ g Hi Hg x).
  - intros l Hl. eapply (ledger_snoc _ _ _ Hi); [reflexivity|simpl; try done..|exact Hl].
    + by eapply fetched_owner.
    + eapply (close_grows _ _ g Hi Hr Hst Hg); try done. simpl. set_solver.
    + trace_key. eexists. split; [apply elem_of_app; right; by apply list_elem_of_singleton|done].
Qed.

Lemma by_key_none s owner key :
  fetchone (by_key owner key) (ledger s) = None → ∀ l, l ∈ ledger s → l_owner l = owner → l_key l ≠ key.
Proof.
  intros H l Hl <- <-. eapply fetchone_none in H; [|exact Hl]. unfold by_key in H.
  by rewrite !eqb_refl in H.
Qed.

Lemma clean_traced s l : clean_key (l_key l) = true → key_traced s l.
Proof.
  unfold clean_key. intros H. bools.
  split_and!; intros x E; exfalso; rewrite E, startswith_app in *; discriminate.
Qed.

Lemma refund_inv owner objective m key reason now s b s' :
  collision_free → inv s → U owner key → clean_key key = true →
  refund_objective sha256_hex owner objective m key reason now s = Ok (b, s') → inv s'.
Proof.
  intros Hc Hi HU Hk H. unfold refund_objective in H.
  apply bind_ok in H as (mm & s0 & [_ <-]%lift_ok & H).
  apply bind_ok in H as (v & s1 & [_ <-]%require_ok & H).
  apply bind_ok in H as (found & s2 & [_ <-]%read_ok & H).
  apply bind_ok in H as (r & s3 & [_ <-]%lift_ok & H).
  unfold the, get_account, set_account in H.
  apply bind_ok in H as (actual & s4 & [_ <-]%lift_ok & H).
  apply bind_ok in H as (v' & s5 & [_ <-]%require_ok & H).
  apply bind_ok in H as (fa & s6 & [<- <-]%read_ok & H).
  apply bind_ok in H as (existing & s7 & [Hex <-]%read_ok & H).
  destruct existing; [by tx_inv|]. tx_inv.
  match goal with H : fetchone (account_of _) _ = Some _ |- _ => rename H into Hacc end.
  match goal with H : _insert_ledger _ _ _ _ _ _ _ _ _ _ _ ?t = Ok _ |- _ =>
    apply insert_ledger_fresh in H as ->; [|done|exact (inv_ids _ Hi)|done|by apply by_key_none] end.
  apply inv_post; try done.
  - by eapply fetched_owner.
  - intros b Hb E. rewrite (account_fetched _ _ _ _ Hi Hacc Hb E). simpl. lia.
  - by apply clean_traced.
Qed.

Lemma add_credits_inv owner credits key source now s b s' :
  collision_free → inv s → grant_keys owner now → U owner key → clean_key key = true →
  add_credits sha256_hex cat owner credits key source now s = Ok (b, s') → inv s'.
Proof.
  intros Hc Hi Hg HU Hk H. unfold add_credits in H.
  apply bind_ok in H as (c & s0 & [_ <-]%lift_ok & H).
  apply bind_ok in H as (v & s1 & [_ <-]%require_ok & H).
  apply bind_ok in H as (a & s2 & Ha & H).
  destruct (account_inv _ _ _ _ _ Hi Hg Ha) as (Hi1 & Hrow & _). clear Ha Hi.
  apply bind_ok in H as (existing & s3 & [Hex <-]%read_ok & H).
  destruct existing; [by tx_inv|]. unfold set_account in H. tx_inv.
  match goal with H : _insert_ledger _ _ _ _ _ _ _ _ _ _ _ ?t = Ok _ |- _ =>
    apply insert_ledger_fresh in H as ->; [|done|exact (inv_ids _ Hi1)|done|by apply by_key_none] end.
  apply inv_post; try done.
  - by eapply fetched_owner.
  - intros b Hb E. rewrite (account_fetched _ _ _ _ Hi1 Hrow Hb E). simpl. lia.
  - by apply clean_traced.
Qed.

(** ** Webhooks *)

Lemma inv_webhook s w : inv s → inv (s <| webhook_events ::= λ t, t ++ [w] |>).
Proof.
  intros Hi. split; simpl; try apply Hi.
  intros l Hl. eapply key_traced_grows; [|by apply (inv_keys s Hi)].
  unfold grows. simpl. split_and!; set_solver.
Qed.

Lemma checkout_inv event obj now s u s' :
  collision_free → inv s →
  (∀ c, c ∈ checkouts s → grant_keys (c_owner c) now ∧ U (c_owner c) ("stripe:" +:+ event)) →
  (∃ w, w ∈ webhook_events s ∧ w_event w = event) →
  (∀ l, l ∈ ledger s → l_key l ≠ "stripe:" +:+ event) →
  _checkout_paid sha256_hex cat event obj now s = Ok (u, s') → inv s'.
Proof.
  intros Hc Hi HU Hw Hfresh H. unfold _checkout_paid in H.
  apply bind_ok in H as (id & s0 & [_ <-]%lift_ok & H).
  apply bind_ok in H as (found & s1 & [Hf <-]%read_ok & H).
  apply bind_ok in H as (c & s2 & [->%of_option_ok <-]%lift_ok & H).
  apply bind_ok in H as (v & s3 & [_ <-]%require_ok & H).
  apply bind_ok in H as (pack & s4 & [_ <-]%lift_ok & H).
  destruct (as_str id) as [session|]; [|done]. simpl in Hf. apply fetchone_some in Hf as [Hcin _].
  destruct (HU c Hcin) as [Hg HU'].
  apply bind_ok in H as (a & s5 & Ha & H).
  assert (Hl' : ∀ l, l ∈ ledger s5 → l_key l ≠ "stripe:" +:+ event).
  { intros l Hl. destruct (account_ledger _ _ _ _ _ Ha l Hl) as [?|(k & ->)]; [by apply Hfresh|].
    intros E. simpl in E. discriminate E. }
  destruct (account_inv _ _ _ _ _ Hi Hg Ha) as (Hi1 & Hrow & Hfr). clear Ha Hi.
  unfold set_account in H. tx_inv.
  match goal with H : _insert_ledger _ _ _ _ _ _ _ _ _ _ _ ?t = Ok _ |- _ =>
    apply insert_ledger_fresh in H as ->; [|done|exact (inv_ids _ Hi1)|done|by intros ? ? _; apply Hl'] end.
  apply inv_post; try done.
  - by eapply fetched_owner.
  - intros b Hb E. rewrite (account_fetched _ _ _ _ Hi1 Hrow Hb E). simpl. lia.
  - trace_key. destruct Hfr as (_ & _ & -> & _). done.
Qed.

Lemma subscription_inv type obj now created s u s' :
  inv s → (∀ a, a ∈ accounts s → grant_keys (a_owner a) now) →
  _subscription sha256_hex cat type obj now created s = Ok (u, s') → inv s'.
Proof.
  intros Hi HU H. unfold _subscription in H. destruct (_metadata obj) as [mo mc].
  apply bind_ok in H as (co & s0 & Hco & H).
  assert (s0 = s ∧ ∀ o, co = Some o → ∃ a, a ∈ accounts s ∧ a_owner a = o) as [-> Hown].
  { destruct (as_str _); [apply read_ok in Hco as [<- <-]|apply ret_ok in Hco as [<- <-]]; (split; [done|]).
    - intros o (a & [Ha _]%fetchone_some & ->)%fmap_Some. eauto.
    - done. }
  apply bind_ok in H as (v1 & s1 & [_ <-]%require_ok & H).
  apply bind_ok in H as (owner & s2 & [_ <-]%lift_ok & H).
  apply bind_ok in H as (v2 & s3 & [Hco' <-]%require_ok & H). bools.
  destruct (Hown owner) as (a0 & Ha0 & <-); [destruct co as [[|]|]; done|].
  apply bind_ok in H as (sid & s4 & [_ <-]%lift_ok & H).
  apply bind_ok in H as (price & s5 & [_ <-]%lift_ok & H).
  apply bind_ok in H as (v3 & s6 & [_ <-]%require_ok & H).
  apply bind_ok in H as (plan & s7 & [_ <-]%lift_ok & H).
  apply bind_ok in H as (v4 & s8 & [_ <-]%require_ok & H).
  apply bind_ok in H as (a & s9 & Ha & H).
  destruct (account_inv _ _ _ _ _ Hi (HU _ Ha0) Ha) as (Hi1 & _ & _).
  destruct (stale a created); [by tx_inv|]. unfold set_account in H.
  apply bind_ok in H as (ps & s10 & [_ <-]%lift_ok & H).
  apply bind_ok in H as (pe & s11 & [_ <-]%lift_ok & H).
  apply bind_ok in H as (fr & s12 & [_ <-]%read_ok & H).
  apply bind_ok in H as (v5 & s13 & [_ <-]%require_ok & H).
  apply modify_ok in H as ->. by apply inv_account_fields.
Qed.

(** The key of a renewal grant. *)
Definition invoice_key (obj : dict) (now : Z) (sub : string) : string :=
  "included:" +:+ sub +:+ ":" +:+ pretty (default now (as_int (get "period_start" obj))).

Lemma invoice_inv event type obj now created s u s' :
  inv s → (∀ a sub, a ∈ accounts s → a_subscription a = Some sub → U (a_owner a) (invoice_key obj now sub)) →
  _invoice sha256_hex cat event type obj now created s = Ok (u, s') → inv s'.
Proof.
  intros Hi HU H. unfold _invoice in H. destruct (as_str _) as [sub|]; [|by tx_inv].
  apply bind_ok in H as (found & s0 & [Hf <-]%read_ok & H).
  apply bind_ok in H as (a & s1 & [->%of_option_ok <-]%lift_ok & H).
  apply fetchone_some in Hf as [Ha Hsub]. unfold subscription_row in Hsub. bools.
  destruct (stale a created); [by tx_inv|].
  apply bind_ok in H as (plan & s2 & [_ <-]%lift_ok & H).
  apply bind_ok in H as (v & s3 & [_ <-]%require_ok & H). unfold set_account in H.
  destruct (type == _).
  - apply modify_ok in H as ->. by apply inv_account_fields.
  - apply bind_ok in H as (inserted & s4 & Hins & H). apply modify_ok in H as ->.
    apply insert_ledger_cases in Hins as [(-> & ->)|(-> & ->)].
    + apply inv_post; try done.
      * by eapply HU.
      * by apply list_elem_of_fmap_2.
      * intros b Hb E. simpl. lia.
    + apply inv_account_fields; [done|]. intros b. simpl. split_and!; [done|lia|done].
Qed.

(** The ledger keys an event may write are in [U]. *)
Definition event_keys (s : db) (event : string) (obj : dict) (now : Z) : Prop :=
  (∀ c, c ∈ checkouts s → grant_keys (c_owner c) now ∧ U (c_owner c) ("stripe:" +:+ event)) ∧
  (∀ a, a ∈ accounts s → grant_keys (a_owner a) now) ∧
  (∀ a sub, a ∈ accounts s → a_subscription a = Some sub → U (a_owner a) (invoice_key obj now sub)).

Lemma record_event_cases event type digest now s b s' :
  record_event event type digest now s = Ok (b, s') →
  (b = false ∧ s' = s) ∨
  (b = true ∧ s' = s <| webhook_events ::= λ t, t ++ [mkWebhookEvent event type now (Some digest)] |> ∧
   ∀ w, w ∈ webhook_events s → w_event w ≠ event).
Proof.
  unfold record_event. intros H. apply bind_ok in H as (prior & s0 & [Hp <-]%read_ok & H).
  destruct prior as [w|]; tx_inv; [by left|right]. split_and!; try done.
  intros w Hw. eapply fetchone_none in Hp; [|exact Hw]. by bools.
Qed.

Lemma apply_event_inv event type digest created obj now s r s' :
  collision_free → inv s → event_keys s event obj now →
  apply_event sha256_hex cat event type digest created obj now s = Ok (r, s') → inv s'.
Proof.
  intros Hc Hi (HU1 & HU2 & HU3) H. unfold apply_event in H.
  apply bind_ok in H as (fresh & s0 & Hrec & H).
  apply record_event_cases in Hrec as [(-> & ->)|(-> & -> & Hnew)]; simpl in H; [by tx_inv|].
  set (s1 := s <| webhook_events ::= _ |>) in *.
  assert (inv s1) as Hi1 by (by apply inv_webhook).
  apply bind_ok in H as (v & s2 & Hev & H). apply ret_ok in H as [_ <-]. destruct (_ && _).
  { eapply (checkout_inv event obj now s1); try done.
    - eexists. split; [apply elem_of_app; right; by apply list_elem_of_singleton|done].
    - intros l Hl E. simpl in Hl. destruct (inv_keys s Hi l Hl) as (_ & _ & _ & K).
      destruct (K _ E) as (w & Hw & ?). by eapply Hnew. }
  destruct (startswith _ _); [by eapply (subscription_inv type obj now created s1)|].
  destruct (_ || _); [by eapply (invoice_inv event type obj now created s1)|by tx_inv].
Qed.

Lemma legacy_upsert_inv owner customer sub status pe created now s u s' :
  inv s → legacy_upsert owner customer sub status pe created now s = Ok (u, s') → inv s'.
Proof.
  intros Hi H. unfold legacy_upsert in H.
  apply bind_ok in H as (found & s0 & [_ <-]%read_ok & H).
  apply bind_ok in H as (v & s1 & Hw & H). unfold set_account in Hw.
  apply bind_ok in H as (uq & s2 & [_ <-]%read_ok & [_ <-]%require_ok).
  destruct found; [apply modify_ok in Hw as ->; by apply inv_account_fields|].
  by eapply insert_account_inv in Hw as (? & _).
Qed.
End Invariant.
