(* ===== verification/BillingTheorems.v ===== *)
(** * What the billing component guarantees

    The operations as one transition system, its reachable states, and the
    properties of single operations. *)

From stdpp Require Import base option list strings numbers pretty sets.
From Stdlib Require Import ZArith Lia.
From S2P Require Import Prelude Sql PyFloat Json BillingCatalog BillingLedger BillingWebhook BillingInvariant.

Open Scope string_scope.
Open Scope list_scope.
Open Scope Z_scope.

Section System.
Context (sha256_hex : string → string).
Context (hmac_sha256_hex : string → string → string).
Context (json_loads : string → option json).
Context (cat : catalog).
Context (U : string → string → Prop).

(** The entry points that change the billing tables. *)
Inductive op :=
| Reserve (owner objective key : string) (now : Z)
| Release (owner objective reason : string) (now : Z)
| Settle (owner objective : string) (measured : json) (event : string) (now : Z)
| Refund (owner objective : string) (amount : json) (key reason : string) (now : Z)
| AddCredits (owner : string) (credits : json) (key source : string) (now : Z)
| Summary (owner : string) (now limit : Z)
| Webhook (secret payload signature : string) (now : Z)
| LegacyWebhook (secret payload signature : string) (now : Z).

Definition drop {A} (r : res error A * db) : db := snd r.

(** One call, committed or rolled back. *)
Definition run (o : op) (s : db) : db :=
  match o with
  | Reserve w b k n => drop (commit (reserve_objective sha256_hex cat w b k n) s)
  | Release w b r n => drop (commit (release_objective sha256_hex w b r n) s)
  | Settle w b m e n => drop (commit (settle_objective sha256_hex cat w b m e n) s)
  | Refund w b m k r n => drop (commit (refund_objective sha256_hex w b m k r n) s)
  | AddCredits w c k src n => drop (commit (add_credits sha256_hex cat w c k src n) s)
  | Summary w n l => drop (commit (summary sha256_hex cat w n l) s)
  | Webhook sec p g n => drop (commit (process sha256_hex hmac_sha256_hex json_loads cat sec p g n) s)
  | LegacyWebhook sec p g n => drop (commit (accept_webhook sha256_hex hmac_sha256_hex json_loads sec p g n) s)
  end.

(** What the callers owe: keys without a reserved prefix where the caller
    chooses the key, and a digest without a collision on the keys in use. *)
Definition allowed (o : op) (s : db) : Prop :=
  match o with
  | Reserve w _ k n => grant_keys cat U w n ∧ U w ("reserve:" +:+ k)
  | Release w b _ _ => U w ("release:" +:+ _reservation_id sha256_hex w b)
  | Settle w _ _ e _ => U w ("settle:" +:+ e)
  | Refund w _ _ k _ _ => U w k ∧ clean_key k = true
  | AddCredits w _ k _ n => grant_keys cat U w n ∧ U w k ∧ clean_key k = true
  | Summary w n _ => grant_keys cat U w n
  | Webhook _ p _ n => ∀ id type created obj,
      read_event json_loads p = Ok (id, type, created, obj) → event_keys cat U s id obj n
  | LegacyWebhook _ _ _ _ => True
  end.

Inductive reachable (users : list string) : db → Prop :=
| reach_init : reachable users (mkDb [] [] [] [] [] [] users)
| reach_step s o : reachable users s → allowed o s → reachable users (run o s)
| reach_checkout s c : reachable users s → reachable users (s <| checkouts ::= cons c |>)
| reach_customer s owner customer :
    reachable users s → reachable users (s <| accounts ::= update (account_of owner) (λ a, a <| a_customer := customer |>) |>).

Lemma commit_inv {A} (m : tx error db A) s :
  inv sha256_hex U s → (∀ a s', m s = Ok (a, s') → inv sha256_hex U s') → inv sha256_hex U (drop (commit m s)).
Proof.
  intros Hi H. unfold drop. destruct (commit_cases m s) as [(a & s' & E & ->)|(e & E & ->)]; simpl; eauto.
Qed.

Lemma accept_webhook_inv sec p g n s r s' :
  inv sha256_hex U s →
  accept_webhook sha256_hex hmac_sha256_hex json_loads sec p g n s = Ok (r, s') → inv sha256_hex U s'.
Proof.
  intros Hi H. unfold accept_webhook in H.
  apply bind_ok in H as (v & s0 & [_ <-]%require_ok & H).
  apply bind_ok in H as (v' & s1 & [_ <-]%lift_ok & H).
  apply bind_ok in H as ([[[id type] created] obj] & s2 & [_ <-]%lift_ok & H).
  apply bind_ok in H as (prior & s3 & [_ <-]%read_ok & H).
  destruct prior as [w|]; [by tx_inv|]. cbv zeta in H.
  apply bind_ok in H as (owner & s4 & Hown & H).
  assert (s4 = s) as ->.
  { clear H. destruct (as_str _); [by tx_inv|]. destruct (as_str _); by tx_inv. }
  apply bind_ok in H as (v4 & s5 & Hbody & H).
  apply bind_ok in H as (v5 & s6 & ->%modify_ok & H). apply ret_ok in H as [_ <-].
  apply inv_webhook. destruct owner as [o|]; [|by tx_inv].
  apply bind_ok in Hbody as (known & s7 & [_ <-]%read_ok & Hbody).
  apply bind_ok in Hbody as (existing & s8 & [_ <-]%read_ok & Hbody).
  destruct (_ && _); [by eapply legacy_upsert_inv|by tx_inv].
Qed.

Lemma step_inv o s :
  collision_free sha256_hex U → inv sha256_hex U s → allowed o s → inv sha256_hex U (run o s).
Proof.
  intros Hc Hi Ha. destruct o; simpl in *; apply commit_inv; try done; intros x s' H.
  - destruct Ha. by eapply reserve_inv.
  - by eapply release_inv.
  - by eapply settle_inv.
  - destruct Ha. by eapply refund_inv.
  - destruct Ha as (? & ? & ?). by eapply add_credits_inv.
  - unfold summary in H. apply bind_ok in H as (a & s1 & Hacc & H).
    apply (account_inv _ _ _ _ _ _ _ _ Hi Ha) in Hacc as (? & _). unfold plan_at, the in H. by tx_inv.
  - unfold process in H.
    apply bind_ok in H as (v & s0 & [_ <-]%require_ok & H).
    apply bind_ok in H as (v' & s1 & [_ <-]%lift_ok & H).
    apply bind_ok in H as ([[[id type] created] obj] & s2 & [Hev <-]%lift_ok & H).
    eapply apply_event_inv; eauto.
  - by eapply accept_webhook_inv.
Qed.

(** The invariant of every reachable state. *)
Lemma reachable_inv users s :
  collision_free sha256_hex U → reachable users s → inv sha256_hex U s.
Proof.
  intros Hc. induction 1 as [|s o _ IH Ha|s c _ IH|s owner customer _ IH].
  - apply inv_empty.
  - by apply step_inv.
  - split; simpl; apply IH.
  - by apply inv_account_fields.
Qed.

(** C1. In every state that ledger operations and webhooks reach, the
    available balance of an account is the sum of its ledger entries and its
    reserved amount is the sum of its open reservations. Two conditions bound
    what is reached ([allowed], [collision_free]): the keys that callers choose
    for refunds and top-ups do not start with a prefix the ledger reserves for
    the keys it derives (the excluded case does break the balance,
    [reused_key_breaks_ledger]), and the truncated digests of the keys in use do
    not collide. *)
Theorem ledger_balanced users s a :
  collision_free sha256_hex U → reachable users s → a ∈ accounts s →
  a_available a = sum l_amount (owned (a_owner a)) (ledger s) ∧
  a_reserved a = sum r_estimated (is_reserved (a_owner a)) (reservations s).
Proof.
  intros Hc Hr Ha. pose proof (reachable_inv _ _ Hc Hr) as Hi.
  split; [by apply (inv_balance _ _ _ Hi)|by apply (inv_hold _ _ _ Hi)].
Qed.
End System.

(** ** Single operations *)

Section Operations.
Context (sha256_hex : string → string).
Context (cat : catalog).
Context (U : string → string → Prop).

Lemma accounts_update_owner owner f (s : db) a :
  inv sha256_hex U s → (∀ x, a_owner (f x) = a_owner x) →
  fetchone (account_of owner) (accounts s) = Some a →
  fetchone (account_of owner) (update (account_of owner) f (accounts s)) = Some (f a).
Proof.
  intros Hi Hf Ha. rewrite fetchone_update.
  - rewrite Ha. simpl. apply fetchone_some in Ha as [_ ->]. done.
  - intros x _. unfold account_of. by rewrite Hf.
Qed.

(** C21. A reservation that did not exist is only made for an account whose
    plan allows execution; it leaves a non-negative balance, no more open
    reservations than the concurrency limit and committed spend within the
    monthly limit. *)
Theorem reserve_admits owner objective key now s r s' :
  inv sha256_hex U s → grant_keys cat U owner now →
  fetchone (λ x, (r_owner x == owner) && (r_key x == key)) (reservations s) = None →
  reserve_objective sha256_hex cat owner objective key now s = Ok (r, s') →
  r_status r = reserved ∧ r_objective r = objective ∧
  ∃ plan a, plan_of cat (a_catalog a) = Some plan ∧
    fetchone (account_of owner) (accounts s') = Some a ∧
    may_execute plan a now = true ∧
    r_estimated r = _microcredits (int_field plan "objective_reserve_credits") ∧
    0 ≤ a_available a ∧
    count (is_reserved owner) (reservations s') ≤ int_field plan "concurrency_limit" ∧
    a_spend a + a_reserved a ≤ _microcredits (int_field plan "monthly_spend_limit_credits").
Proof.
  intros Hi Hg Hnone H. unfold reserve_objective in H.
  apply bind_ok in H as (a & s1 & Ha & H).
  destruct (account_inv _ _ _ _ _ _ _ _ Hi Hg Ha) as (Hi1 & Hrow & (Hres & _)). clear Ha Hi.
  apply bind_ok in H as (plan & s2 & [Hplan%of_option_ok <-]%lift_ok & H).
  apply bind_ok in H as (existing & s3 & [<- <-]%read_ok & H).
  rewrite Hres, Hnone in H. unfold set_account, the in H. tx_inv. bools.
  match goal with H : insert reservation_clash ?row _ = Some _ |- _ =>
    set (new := row) in *; apply insert_some in H as [-> Hfresh] end.
  match goal with H : _insert_ledger _ _ _ _ _ _ _ _ _ _ _ _ = Ok _ |- _ => apply insert_ledger_frame in H as (Hacc & Hres' & _) end.
  match goal with H : fetchone _ (reservations s') = Some r |- _ => rewrite Hres' in H; simpl in H; rewrite fetchone_app in H; rename H into Hr end.
  match type of Hr with context [fetchone ?p ?t] => assert (fetchone p t = None) as Hno end.
  { apply fetchone_all_false. intros x Hx. specialize (Hfresh x Hx).
    unfold reservation_clash in Hfresh. bools. simpl in *. by apply eqb_neq. }
  rewrite Hno, eqb_refl in Hr. injection Hr as <-. simpl. split; [done|]. split; [done|].
  eexists plan, _. split; [|split; [rewrite Hacc; simpl; by eapply accounts_update_owner|]]; simpl; [done|].
  rewrite Hres'. simpl. rewrite !count_sum in *. rewrite sum_snoc. unfold is_reserved at 2. simpl. rewrite !eqb_refl. simpl.
  split_and!; try done; lia.
Qed.

(** ** A derived key that is taken *)

(** What a new reservation writes, whatever the ledger makes of its entry. *)
Lemma reserve_new owner objective key now s r s' :
  reserve_objective sha256_hex cat owner objective key now s = Ok (r, s') →
  ∃ a s1, _account sha256_hex cat owner now s = Ok (a, s1) ∧
    (fetchone (λ x, (r_owner x == owner) && (r_key x == key)) (reservations s1) = None →
     r_owner r = owner ∧ r_key r = key ∧ r_status r = reserved ∧
     ∃ b s2, reservations s2 = reservations s1 ++ [r] ∧ ledger s2 = ledger s1 ∧
       accounts s2 = update (account_of owner) (λ x, x <| a_available := a_available a - r_estimated r |> <| a_reserved ::= Z.add (r_estimated r) |> <| a_updated := now |>) (accounts s1) ∧
       _insert_ledger sha256_hex owner ("reserve:" +:+ key) reservation_entry (- r_estimated r) (a_available a - r_estimated r) "execution" now
         (Some (r_id r)) (Some objective) [("estimated_microcredits", JInt (r_estimated r))] s2 = Ok (b, s')).
Proof.
  unfold reserve_objective. intros H. apply bind_ok in H as (a & s1 & Ha & H). exists a, s1. split; [done|]. intros Hnone.
  apply bind_ok in H as (plan & s2 & [_ <-]%lift_ok & H). apply bind_ok in H as (existing & s3 & [<- <-]%read_ok & H). rewrite Hnone in H. unfold set_account, the in H. tx_inv.
  match goal with H : insert reservation_clash ?row _ = Some _ |- _ => set (new := row) in *; apply insert_some in H as [-> Hfresh] end.
  match goal with H : _insert_ledger _ _ _ _ _ _ _ _ _ _ _ _ = Ok _ |- _ => pose proof H as Hins; apply insert_ledger_frame in H as (_ & Hres & _) end.
  match goal with H : fetchone _ (reservations s') = Some r |- _ => rewrite Hres in H; simpl in H; rewrite fetchone_app in H; rename H into Hr end.
  match type of Hr with context [fetchone ?p ?t] => assert (fetchone p t = None) as Hno end.
  { apply fetchone_all_false. intros x Hx. specialize (Hfresh x Hx).
    unfold reservation_clash in Hfresh. bools. simpl in *. by apply eqb_neq. }
  rewrite Hno, eqb_refl in Hr. injection Hr as <-. do 3 (split; [done|]). eexists _, _. split; [|split; [|split; [|exact Hins]]]; done.
Qed.
(** An entry under a taken key is ignored. *)
Lemma insert_ledger_taken owner key t amount balance source now rid objective meta s b s' l : l ∈ ledger s → l_owner l = owner → l_key l = key →
  _insert_ledger sha256_hex owner key t amount balance source now rid objective meta s = Ok (b, s') → b = false ∧ s' = s.
Proof.
  intros Hl Ho Hk. unfold _insert_ledger, insert. destruct (existsb _ _) eqn:E; [by intros [= <- <-]|].
  enough (existsb (ledger_clash (mkLedger (_ledger_id sha256_hex owner key) owner key t amount balance rid objective source meta now)) (ledger s) = true) by congruence.
  apply existsb_exists. exists l. split; [by apply list_elem_of_In|]. unfold ledger_clash. simpl. by rewrite Ho, Hk, !eqb_refl, orb_true_r.
Qed.
(** [_account] keeps the balance of an existing account with its ledger. *)
Lemma account_balanced owner now s a0 a s' :
  fetchone (account_of owner) (accounts s) = Some a0 → a_available a0 = sum l_amount (owned owner) (ledger s) →
  _account sha256_hex cat owner now s = Ok (a, s') →
  fetchone (account_of owner) (accounts s') = Some a ∧ a_available a = sum l_amount (owned owner) (ledger s') ∧
  reservations s' = reservations s ∧ ∀ l, l ∈ ledger s → l ∈ ledger s'.
Proof.
  intros Hrow Hbal H. unfold _account in H. apply bind_ok in H as (found & s0 & [<- <-]%read_ok & H). rewrite Hrow in H.
  apply bind_ok in H as (row & s1 & [<- <-]%ret_ok & H). apply bind_ok in H as (plan & s2 & [_ <-]%lift_ok & H). cbv zeta in H.
  destruct (is_calendar_plan plan && _); [|by tx_inv].
  apply bind_ok in H as (inserted & s3 & [(-> & ->)|(-> & ->)]%insert_ledger_cases & H); unfold set_account, get_account, the in H; tx_inv; [|by split_and!; congruence].
  match goal with H : fetchone _ _ = Some a |- _ => split; [exact H|]; simpl in H; rename H into Ha end.
  rewrite fetchone_update, Hrow in Ha by done. simpl in Ha. apply fetchone_some in Hrow as [_ Ho]. rewrite Ho in Ha. injection Ha as <-. simpl.
  rewrite sum_snoc. unfold owned at 2. simpl. rewrite eqb_refl, Hbal. split; [done|]. split; [done|]. intros l Hl. apply elem_of_app. by left.
Qed.

(** [_account] on an existing account that is owed no grant. *)
Lemma account_noop owner now s a plan :
  fetchone (account_of owner) (accounts s) = Some a → plan_of cat (a_catalog a) = Some plan →
  (is_calendar_plan plan && (a_period_key a != Some (_period_key now)) = true →
   ∃ l, l ∈ ledger s ∧ l_owner l = owner ∧
        l_key l = "included:" +:+ default "" (as_str (get "id" plan)) +:+ ":" +:+ _period_key now) →
  _account sha256_hex cat owner now s = Ok (a, s).
Proof.
  intros Ha Hp Hg. unfold _account.
  erewrite bind_run by (unfold get_account, read; reflexivity). rewrite Ha.
  erewrite bind_run by reflexivity. rewrite Hp. erewrite bind_run by reflexivity. cbv zeta.
  destruct (is_calendar_plan plan && _); [|done]. destruct Hg as (l & Hl & Ho & Hk); [done|].
  erewrite bind_run.
  2:{ unfold _insert_ledger, insert. rewrite (proj2 (existsb_exists _ _)); [reflexivity|].
      exists l. split; [by apply list_elem_of_In|]. unfold ledger_clash. simpl.
      rewrite Ho, Hk, !eqb_refl. apply orb_true_r. }
  erewrite bind_run by reflexivity. erewrite bind_run by (unfold get_account, read; reflexivity).
  by rewrite Ha.
Qed.

(** The state [_account] leaves. *)
Lemma account_post owner now s a s' :
  inv sha256_hex U s → grant_keys cat U owner now → collision_free sha256_hex U →
  _account sha256_hex cat owner now s = Ok (a, s') →
  fetchone (account_of owner) (accounts s') = Some a ∧
  ∃ plan, plan_of cat (a_catalog a) = Some plan ∧
    (is_calendar_plan plan && (a_period_key a != Some (_period_key now)) = true →
     ∃ l, l ∈ ledger s' ∧ l_owner l = owner ∧
          l_key l = "included:" +:+ default "" (as_str (get "id" plan)) +:+ ":" +:+ _period_key now).
Proof.
  intros Hi Hg Hc H. destruct (account_inv _ _ _ _ _ _ _ _ Hi Hg H) as (_ & Hrow & _). split; [done|].
  unfold _account in H.
  apply bind_ok in H as (found & s0 & [<- <-]%read_ok & H).
  apply bind_ok in H as (row & s1 & H1 & H).
  assert (inv sha256_hex U s1 ∧ fetchone (account_of owner) (accounts s1) = Some row) as (Hi1 & Hrow1).
  { clear H. destruct (fetchone _ _) as [b|] eqn:E; tx_inv; [done|].
    match goal with H : insert_account _ _ = _ |- _ => eapply insert_account_inv in H as (? & ? & _) end; done. }
  clear H1. apply bind_ok in H as (plan & s2 & [Hplan <-]%lift_ok & H). apply of_option_ok in Hplan.
  destruct (is_calendar_plan plan && _) eqn:Hcal.
  2:{ tx_inv. exists plan. split; [done|]. by rewrite Hcal. }
  apply bind_ok in H as (inserted & s3 & Hins & H). unfold the, get_account, set_account in H.
  match type of Hins with _insert_ledger _ _ ?k _ _ _ _ _ _ _ _ _ = _ => assert (U owner k) as HU end.
  { unfold plan_of in Hplan. destruct (a_catalog row); [|done].
    apply lookup_key_in in Hplan as (k & Hk). by eapply Hg. }
  destruct inserted.
  - apply insert_ledger_cases in Hins as [(_ & ->)|(? & _)]; [|done]. tx_inv. simpl in *.
    match goal with H : fetchone _ (update _ _ _) = Some a |- _ => rename H into Ha end.
    rewrite fetchone_update, Hrow1 in Ha by done. simpl in Ha.
    apply fetchone_some in Hrow1 as [_ Hown]. rewrite Hown in Ha. injection Ha as <-.
    exists plan. split; [done|]. simpl. by rewrite eqb_refl, andb_false_r.
  - pose proof Hins as Hused. apply insert_ledger_cases in Hins as [(? & _)|(_ & ->)]; [done|].
    eapply insert_ledger_refused in Hused; [|done|apply (inv_ids _ _ _ Hi1)|done].
    tx_inv. exists plan. split; [congruence|done].
Qed.

(** The monthly grant is made once: a second call in the same month
    returns the account as the first call left it and changes nothing. *)
Theorem grant_once owner now now' s a s' :
  inv sha256_hex U s → grant_keys cat U owner now → collision_free sha256_hex U →
  _period_key now' = _period_key now →
  _account sha256_hex cat owner now s = Ok (a, s') →
  _account sha256_hex cat owner now' s' = Ok (a, s').
Proof.
  intros Hi Hg Hc Hp H. destruct (account_post _ _ _ _ _ Hi Hg Hc H) as (Ha & plan & Hplan & Hl).
  eapply account_noop; [done|done|]. by rewrite Hp.
Qed.
End Operations.

(** * The price of a measured usage

    [measured_cost] rounds up four times through floating-point division. The
    price is the exact one as long as every numerator fits a double; the
    bound is needed. *)

(** The price in exact arithmetic. *)
Definition token_micros (u : usage) (rate : dict) : Z :=
  u_input_tokens u * int_field rate "input_usd_micros_per_million"
  + u_output_tokens u * int_field rate "output_usd_micros_per_million".
Definition compute_micros (u : usage) (rate : dict) : Z :=
  u_compute_milliseconds u * int_field rate "compute_usd_micros_per_hour".
Definition usd_micros (u : usage) (rate : dict) : Z :=
  cdiv (token_micros u rate) 1000000 + cdiv (compute_micros u rate) 3600000.
Definition with_margin (u : usage) (rate : dict) : Z :=
  usd_micros u rate * (10000 + int_field rate "margin_bps").
Definition exact_cost (u : usage) (rate : dict) (usd_per_credit : Z) : Z :=
  cdiv (cdiv (with_margin u rate) 10000 * MICROCREDITS_PER_CREDIT) usd_per_credit.

(** Every numerator of the computation fits the significand of a double. *)
Definition fits_double (u : usage) (rate : dict) : bool :=
  (token_micros u rate <? 2 ^ 53) && (compute_micros u rate <? 2 ^ 53) &&
  (with_margin u rate <? 2 ^ 53) && (cdiv (with_margin u rate) 10000 * MICROCREDITS_PER_CREDIT <? 2 ^ 53).

Lemma token_field_nonneg d f z : token_field d f = Ok z → 0 ≤ z.
Proof. unfold token_field. destruct (get f d); try done. destruct (0 <=? z0) eqn:E; [|done]. intros [= <-]. by bools. Qed.

Lemma read_usage_ok cat j u rate :
  read_usage cat j = Ok (u, rate) →
  0 ≤ u_input_tokens u ∧ 0 ≤ u_output_tokens u ∧ 0 ≤ u_compute_milliseconds u ∧
  lookup_rate (u_provider u, u_model u) (rates cat) = Some rate.
Proof.
  unfold read_usage. intros H. tx_inv. simpl.
  split_and!; try (by eapply token_field_nonneg). done.
Qed.

Lemma ceil_div_exact n d : 0 ≤ n < 2 ^ 53 → 0 < d < 2 ^ 1000 → ceil_div n d = Ok (cdiv n d).
Proof. intros Hn Hd. unfold ceil_div. by rewrite ceil_truediv_exact. Qed.

Lemma ceil_div_nonneg n d c : ceil_div n d = Ok c → 0 ≤ n → 0 < d → 0 ≤ c.
Proof. unfold ceil_div. intros H%of_option_ok Hn Hd. by eapply ceil_truediv_nonneg. Qed.

Lemma cost_terms_nonneg cat u rate :
  catalog_ok cat → lookup_rate (u_provider u, u_model u) (rates cat) = Some rate →
  0 ≤ u_input_tokens u → 0 ≤ u_output_tokens u → 0 ≤ u_compute_milliseconds u →
  0 ≤ token_micros u rate ∧ 0 ≤ compute_micros u rate ∧ 0 ≤ with_margin u rate.
Proof.
  intros Hc Hr Hi Ho Hm.
  assert (∀ f, f ∈ RATE_INTS → 0 ≤ int_field rate f) as Hf by (intros; eauto with billing).
  pose proof (Hf "input_usd_micros_per_million" ltac:(set_solver)).
  pose proof (Hf "output_usd_micros_per_million" ltac:(set_solver)).
  pose proof (Hf "compute_usd_micros_per_hour" ltac:(set_solver)).
  pose proof (Hf "margin_bps" ltac:(set_solver)).
  assert (0 ≤ token_micros u rate) by (unfold token_micros; nia).
  assert (0 ≤ compute_micros u rate) by (unfold compute_micros; nia).
  split_and!; [done..|]. unfold with_margin, usd_micros.
  pose proof (cdiv_nonneg (token_micros u rate) 1000000 ltac:(lia) ltac:(lia)).
  pose proof (cdiv_nonneg (compute_micros u rate) 3600000 ltac:(lia) ltac:(lia)). nia.
Qed.

(** C37. For a usage whose numerators fit a double the price is the exact one:
    tokens and compute rounded up to whole micro-dollars, the margin and the
    conversion to microcredits rounded up in turn. *)
Theorem measured_cost_exact cat j u rate :
  catalog_ok cat → usd_micros_per_credit cat < 2 ^ 1000 →
  read_usage cat j = Ok (u, rate) → fits_double u rate = true →
  measured_cost cat j = Ok (exact_cost u rate (usd_micros_per_credit cat)).
Proof.
  intros Hc Hu Hread Hfit. unfold measured_cost. rewrite Hread. simpl.
  destruct (read_usage_ok _ _ _ _ Hread) as (Hi & Ho & Hm & Hr).
  destruct (cost_terms_nonneg cat u rate Hc Hr Hi Ho Hm) as (H1 & H2 & H3).
  unfold fits_double in Hfit. bools. pose proof (ok_usd cat Hc).
  unfold usage_cost. fold (token_micros u rate) (compute_micros u rate). cbv zeta.
  rewrite (ceil_div_exact (token_micros u rate)), (ceil_div_exact (compute_micros u rate)) by lia. simpl.
  fold (usd_micros u rate). fold (with_margin u rate).
  rewrite (ceil_div_exact (with_margin u rate)) by lia. simpl.
  pose proof (cdiv_nonneg (with_margin u rate) 10000 ltac:(lia) ltac:(lia)).
  apply ceil_div_exact; [|lia]. split; [|done]. unfold MICROCREDITS_PER_CREDIT. lia.
Qed.

(** A price is never negative, whatever the size of the usage. *)
Theorem measured_cost_nonneg cat j cost :
  catalog_ok cat → measured_cost cat j = Ok cost → 0 ≤ cost.
Proof.
  intros Hc H. unfold measured_cost in H. apply res_bind_ok in H as ([u rate] & Hread & H).
  destruct (read_usage_ok _ _ _ _ Hread) as (Hi & Ho & Hm & Hr).
  destruct (cost_terms_nonneg cat u rate Hc Hr Hi Ho Hm) as (H1 & H2 & _).
  assert (0 ≤ int_field rate "margin_bps") by (eapply rate_field_nonneg; [eauto with billing|set_solver]).
  unfold usage_cost in H.
  apply res_bind_ok in H as (t & Ht & H). apply res_bind_ok in H as (c & Hcc & H).
  apply res_bind_ok in H as (b & Hb & H).
  apply ceil_div_nonneg in Ht; [|done|done]. apply ceil_div_nonneg in Hcc; [|done|done].
  apply ceil_div_nonneg in Hb; [|apply Z.mul_nonneg_nonneg; lia|done].
  apply ceil_div_nonneg in H; [done| |apply (ok_usd cat Hc)].
  apply Z.mul_nonneg_nonneg; [done|]. unfold MICROCREDITS_PER_CREDIT. lia.
Qed.

(** ** Where the ledger drifts *)

Section Drift.
Context (sha256_hex : string → string) (hmac_sha256_hex : string → string → string) (json_loads : string → option json) (cat : catalog) (U : string → string → Prop).

(** A top-up leaves an account balanced whose ledger has an entry of its key. *)
Lemma topup_entry owner credits key source now s s' : collision_free sha256_hex U → inv sha256_hex U s → grant_keys cat U owner now → U owner key →
  add_credits sha256_hex cat owner credits key source now s = Ok (true, s') →
  ∃ a l, fetchone (account_of owner) (accounts s') = Some a ∧ a_available a = sum l_amount (owned owner) (ledger s') ∧
    l ∈ ledger s' ∧ l_owner l = owner ∧ l_key l = key ∧ reservations s' = reservations s.
Proof.
  intros Hc Hi Hg HU H. unfold add_credits in H.
  apply bind_ok in H as (c & s0 & [_ <-]%lift_ok & H). apply bind_ok in H as (v & s1 & [_ <-]%require_ok & H). apply bind_ok in H as (a & s2 & Ha & H).
  destruct (account_inv _ _ _ _ _ _ _ _ Hi Hg Ha) as (Hi1 & Hrow & (Hres & _)). apply bind_ok in H as (existing & s3 & [Hex <-]%read_ok & H).
  destruct existing; [by tx_inv|]. unfold set_account in H. tx_inv.
  match goal with H : _insert_ledger _ _ _ _ _ _ _ _ _ _ _ _ = Ok _ |- _ => eapply insert_ledger_fresh in H as ->; [|done|exact (inv_ids _ _ _ Hi1)|done|by apply by_key_none] end.
  apply get_account_inv in Hrow as Hin. destruct Hin as [Hin Ho]. eexists _, _. simpl. rewrite fetchone_update, Hrow by done. simpl. unfold account_of at 1. rewrite Ho, eqb_refl.
  split; [reflexivity|]. split; [|split; [apply elem_of_app; right; by apply list_elem_of_singleton|done]].
  simpl. rewrite sum_snoc. unfold owned at 2. simpl. by rewrite eqb_refl, (inv_balance _ _ _ Hi1 a Hin), Ho.
Qed.

(** C39. The balance that [ledger_balanced] states is lost when a caller chooses
    a key the ledger derives: in every reachable state, a top-up whose key is
    [reserve:] and [key], followed by the first reservation under [key], leaves
    the available balance short of the ledger by the estimate of that
    reservation. The hold is taken and [INSERT OR IGNORE] drops its entry. *)
Theorem reused_key_breaks_ledger users owner objective key credits source now now' s s1 r s2 :
  collision_free sha256_hex U → reachable sha256_hex hmac_sha256_hex json_loads cat U users s → grant_keys cat U owner now → U owner ("reserve:" +:+ key) →
  fetchone (λ x, (r_owner x == owner) && (r_key x == key)) (reservations s) = None →
  add_credits sha256_hex cat owner credits ("reserve:" +:+ key) source now s = Ok (true, s1) →
  reserve_objective sha256_hex cat owner objective key now' s1 = Ok (r, s2) →
  r_status r = reserved ∧ r ∈ reservations s2 ∧ (∀ l, l ∈ ledger s2 → l ∈ ledger s1 ∨ ∃ k, l_key l = "included:" +:+ k) ∧
  ∃ a, fetchone (account_of owner) (accounts s2) = Some a ∧ a_available a = sum l_amount (owned owner) (ledger s2) - r_estimated r.
Proof.
  intros Hc Hr Hg HU Hnone Htop Hres. pose proof (reachable_inv _ _ _ _ _ _ _ Hc Hr) as Hi.
  destruct (topup_entry _ _ _ _ _ _ _ Hc Hi Hg HU Htop) as (a0 & l & Hrow & Hbal & Hl & Ho & Hk & Hsame).
  apply reserve_new in Hres as (a & s3 & Hacc & Hnew). destruct (account_balanced _ _ _ _ _ _ _ _ Hrow Hbal Hacc) as (Hrow3 & Hbal3 & Hres3 & Hkeep).
  rewrite Hres3, Hsame in Hnew. destruct (Hnew Hnone) as (_ & _ & Hst & b & s4 & Er & El & Ea & Hins).
  rewrite <- El in Hkeep. pose proof (Hkeep l Hl) as Hl4. apply (insert_ledger_taken _ _ _ _ _ _ _ _ _ _ _ _ _ _ l Hl4 Ho Hk) in Hins as [_ ->].
  split; [done|]. split; [rewrite Er; apply elem_of_app; right; by apply list_elem_of_singleton|]. split; [rewrite El; by eapply account_ledger|].
  eexists. rewrite Ea, fetchone_update, Hrow3 by done. simpl. apply get_account_inv in Hrow3 as [_ Ho3]. unfold account_of at 1. rewrite Ho3, eqb_refl.
  split; [reflexivity|]. simpl. by rewrite El, Hbal3.
Qed.
End Drift.
