(* ===== verification/BillingOnce.v ===== *)
(** * Idempotence and finality in the billing component

    A closed reservation is final, a settlement can be repeated but not
    changed, a webhook event is applied once, and a webhook is accepted only
    with a fresh signature. *)

From stdpp Require Import base option list strings numbers pretty sets.
From Stdlib Require Import ZArith Lia.
From S2P Require Import Prelude Sql PyFloat Json Text BillingCatalog BillingLedger BillingWebhook BillingInvariant BillingTheorems.

Open Scope string_scope.
Open Scope list_scope.
Open Scope Z_scope.

(** ** What a step may do to reservations and to recorded events *)

(** Reservations keep their identity, and closed ones do not change; recorded
    events stay in front. *)
Definition keeps (s s' : db) : Prop :=
  (∀ r, r ∈ reservations s → ∃ r', r' ∈ reservations s' ∧ r_id r' = r_id r ∧ r_estimated r' = r_estimated r ∧
        (r_status r ≠ reserved → r' = r)) ∧
  ∃ t, webhook_events s' = webhook_events s ++ t.

#[export] Instance keeps_preorder : PreOrder keeps.
Proof.
  split.
  - intros s. split; [|exists []; by rewrite app_nil_r]. intros r Hr. by exists r.
  - intros s1 s2 s3 [R1 [t1 E1]] [R2 [t2 E2]]. split; [|exists (t1 ++ t2); by rewrite E2, E1, app_assoc].
    intros r Hr. destruct (R1 r Hr) as (r' & Hr' & Hid & Hest & Hk). destruct (R2 r' Hr') as (r'' & Hr'' & ? & ? & Hk').
    exists r''. split_and!; try congruence. intros Hn. specialize (Hk Hn). subst. auto.
Qed.

Lemma keeps_same s s' :
  reservations s' = reservations s → (∃ t, webhook_events s' = webhook_events s ++ t) → keeps s s'.
Proof. intros E Ht. split; [|done]. rewrite E. intros r Hr. by exists r. Qed.

Lemma keeps_eq s s' :
  reservations s' = reservations s → webhook_events s' = webhook_events s → keeps s s'.
Proof. intros E Ew. apply keeps_same; [done|]. exists []. by rewrite app_nil_r. Qed.

Section Steps.
Context (sha256_hex : string → string).
Context (hmac_sha256_hex : string → string → string).
Context (json_loads : string → option json).
Context (cat : catalog).

Lemma insert_ledger_keeps owner key t amount balance source now rid objective meta s b s' :
  _insert_ledger sha256_hex owner key t amount balance source now rid objective meta s = Ok (b, s') → keeps s s'.
Proof. intros H. apply insert_ledger_frame in H as (_ & ? & _ & ? & _). by apply keeps_eq. Qed.

Lemma set_account_keeps owner f s u s' : set_account owner f s = Ok (u, s') → keeps s s'.
Proof. intros ->%modify_ok. by apply keeps_eq. Qed.

Lemma insert_account_keeps a s u s' : insert_account a s = Ok (u, s') → keeps s s'.
Proof.
  unfold insert_account. destruct (bool_decide _); [|done]. simpl.
  destruct (insert _ _ _); [|done]. intros [= _ <-]. by apply keeps_eq.
Qed.

Lemma get_account_keeps owner s a s' : get_account owner s = Ok (a, s') → keeps s s'.
Proof. by intros [_ <-]%read_ok. Qed.

Lemma read_keeps {A} (f : db → A) s a s' : @read error db A f s = Ok (a, s') → keeps s s'.
Proof. by intros [_ <-]%read_ok. Qed.

Lemma lift_keeps {A} (r : res error A) s a s' : @lift error db A r s = Ok (a, s') → keeps s s'.
Proof. by intros [_ <-]%lift_ok. Qed.

Lemma require_keeps c (e : error) (s : db) u s' : require c e s = Ok (u, s') → keeps s s'.
Proof. by intros [_ <-]%require_ok. Qed.

Lemma ret_keeps {A} (a b : A) (s s' : db) : (mret a : tx error db A) s = Ok (b, s') → keeps s s'.
Proof. by intros [_ <-]%ret_ok. Qed.
End Steps.

Create HintDb keeps.
#[export] Hint Resolve insert_ledger_keeps set_account_keeps insert_account_keeps get_account_keeps
  read_keeps lift_keeps require_keeps ret_keeps : keeps.

(** Follows a computation bind by bind, composing [keeps]. *)
Ltac keeps_steps :=
  repeat match goal with
  | H : (mbind _ _) ?s = Ok (_, ?s') |- keeps ?s ?s' =>
      let x := fresh "x" in let s1 := fresh "s" in let H1 := fresh "H" in
      apply bind_ok in H as (x & s1 & H1 & H); transitivity s1; [clear H|clear H1]
  | H : (let _ := _ in _) _ = Ok _ |- _ => cbv zeta in H
  | H : (if ?c then _ else _) _ = Ok _ |- keeps _ _ => destruct c
  | H : (match ?c with _ => _ end) _ = Ok _ |- keeps _ _ => destruct c
  | H : the _ _ = Ok _ |- keeps _ _ => unfold the in H
  | H : plan_at _ _ _ = Ok _ |- keeps _ _ => unfold plan_at in H
  | H : raise _ _ = Ok _ |- keeps _ _ => by apply raise_ok in H
  end;
  eauto with keeps.

Section Keeps.
Context (sha256_hex : string → string).
Context (hmac_sha256_hex : string → string → string).
Context (json_loads : string → option json).
Context (cat : catalog).

Lemma account_keeps owner now s a s' : _account sha256_hex cat owner now s = Ok (a, s') → keeps s s'.
Proof. intros H. unfold _account in H. keeps_steps. Qed.
Hint Resolve account_keeps : keeps.

Lemma keeps_snoc s s' row :
  reservations s' = reservations s ++ [row] → webhook_events s' = webhook_events s → keeps s s'.
Proof.
  intros E Ew. split; [|exists []; by rewrite Ew, app_nil_r]. rewrite E. intros r Hr. exists r. set_solver.
Qed.

(** Closing the open reservation [r]. *)
Lemma keeps_close s s' r g :
  NoDup (map r_id (reservations s)) → r ∈ reservations s → r_status r = reserved →
  (∀ x, r_id (g x) = r_id x ∧ r_estimated (g x) = r_estimated x) →
  reservations s' = update (λ x, r_id x == r_id r) g (reservations s) →
  webhook_events s' = webhook_events s → keeps s s'.
Proof.
  intros Hn Hr Ho Hg E Ew. split; [|exists []; by rewrite Ew, app_nil_r].
  intros x Hx. exists (if r_id x == r_id r then g x else x). destruct (Hg x) as [E1 E2].
  split; [rewrite E; apply elem_of_update; eauto|].
  case_bool_decide as Ex; [|by split_and!]. split_and!; try done.
  intros Hc. assert (x = r) as -> by (by eapply NoDup_key_inj). done.
Qed.

Lemma reserve_keeps owner objective key now s r s' :
  reserve_objective sha256_hex cat owner objective key now s = Ok (r, s') → keeps s s'.
Proof.
  intros H. unfold reserve_objective in H.
  apply bind_ok in H as (a & s1 & Ha%account_keeps & H). transitivity s1; [done|].
  apply bind_ok in H as (plan & s2 & [_ <-]%lift_ok & H).
  apply bind_ok in H as (existing & s3 & [_ <-]%read_ok & H).
  destruct existing as [r0|]; [keeps_steps|]. unfold set_account, the in H. tx_inv.
  match goal with H : insert reservation_clash _ _ = Some _ |- _ => apply insert_some in H as [-> _] end.
  match goal with H : _insert_ledger _ _ _ _ _ _ _ _ _ _ _ _ = Ok _ |- _ => apply insert_ledger_frame in H as (_ & E & _ & Ew & _) end.
  eapply keeps_snoc; [exact E|exact Ew].
Qed.

Lemma release_keeps owner objective reason now s b s' :
  NoDup (map r_id (reservations s)) →
  release_objective sha256_hex owner objective reason now s = Ok (b, s') → keeps s s'.
Proof.
  intros Hn H. unfold release_objective in H.
  apply bind_ok in H as (found & s1 & [Hf <-]%read_ok & H).
  destruct found as [r|]; [|keeps_steps]. apply for_objective_spec in Hf as (Hr & _).
  destruct (r_status r == reserved) eqn:Hst; simpl in H; [bools|keeps_steps].
  unfold get_account, set_account, the in H. tx_inv.
  match goal with H : _insert_ledger _ _ _ _ _ _ _ _ _ _ _ _ = Ok _ |- _ => apply insert_ledger_frame in H as (_ & E & _ & Ew & _) end.
  eapply (keeps_close _ _ _ _ Hn Hr Hst); [|exact E|exact Ew]. done.
Qed.

Lemma settle_keeps owner objective measured event now s r s' :
  NoDup (map r_id (reservations s)) →
  settle_objective sha256_hex cat owner objective measured event now s = Ok (r, s') → keeps s s'.
Proof.
  intros Hn H. unfold settle_objective in H.
  apply bind_ok in H as ([u rate] & s0 & [_ <-]%lift_ok & H).
  apply bind_ok in H as (actual & s1 & [_ <-]%lift_ok & H).
  apply bind_ok in H as (found & s2 & [Hf <-]%read_ok & H).
  apply bind_ok in H as (r0 & s3 & [->%of_option_ok <-]%lift_ok & H).
  apply for_objective_spec in Hf as (Hr & _).
  destruct (r_status r0 == settled); [keeps_steps|].
  apply bind_ok in H as (v & s4 & [Hst <-]%require_ok & H). bools.
  unfold get_account, set_account, the in H. tx_inv.
  match goal with H : _insert_ledger _ _ _ _ _ _ _ _ _ _ _ _ = Ok _ |- _ => apply insert_ledger_frame in H as (_ & E & _ & Ew & _) end.
  eapply (keeps_close _ _ _ _ Hn Hr Hst); [|exact E|exact Ew]. done.
Qed.

Lemma refund_keeps owner objective m key reason now s b s' :
  refund_objective sha256_hex owner objective m key reason now s = Ok (b, s') → keeps s s'.
Proof. intros H. unfold refund_objective in H. keeps_steps. Qed.

Lemma add_credits_keeps owner credits key source now s b s' :
  add_credits sha256_hex cat owner credits key source now s = Ok (b, s') → keeps s s'.
Proof. intros H. unfold add_credits in H. keeps_steps. Qed.

Lemma summary_keeps owner now n s x s' : summary sha256_hex cat owner now n s = Ok (x, s') → keeps s s'.
Proof. intros H. unfold summary in H. keeps_steps. Qed.

Lemma append_event_keeps w s u s' :
  modify (E := error) (λ s : db, s <| webhook_events ::= λ t, t ++ [w] |>) s = Ok (u, s') → keeps s s'.
Proof. intros ->%modify_ok. apply keeps_same; [done|]. by exists [w]. Qed.
Hint Resolve append_event_keeps : keeps.

Lemma record_event_keeps event type digest now s b s' : record_event event type digest now s = Ok (b, s') → keeps s s'.
Proof. intros H. unfold record_event in H. keeps_steps. Qed.

Lemma checkout_keeps event obj now s u s' : _checkout_paid sha256_hex cat event obj now s = Ok (u, s') → keeps s s'.
Proof. intros H. unfold _checkout_paid in H. keeps_steps. Qed.

Lemma subscription_keeps type obj now created s u s' :
  _subscription sha256_hex cat type obj now created s = Ok (u, s') → keeps s s'.
Proof. intros H. unfold _subscription in H. destruct (_metadata obj). keeps_steps. Qed.

Lemma invoice_keeps event type obj now created s u s' :
  _invoice sha256_hex cat event type obj now created s = Ok (u, s') → keeps s s'.
Proof. intros H. unfold _invoice in H. keeps_steps. Qed.
Hint Resolve record_event_keeps checkout_keeps subscription_keeps invoice_keeps : keeps.

Lemma apply_event_keeps event type digest created obj now s r s' :
  apply_event sha256_hex cat event type digest created obj now s = Ok (r, s') → keeps s s'.
Proof. intros H. unfold apply_event in H. keeps_steps. Qed.
Hint Resolve apply_event_keeps : keeps.

Lemma process_keeps secret payload sig now s r s' :
  process sha256_hex hmac_sha256_hex json_loads cat secret payload sig now s = Ok (r, s') → keeps s s'.
Proof. intros H. unfold process in H. keeps_steps. Qed.

Lemma legacy_upsert_keeps owner customer sub status pe created now s u s' :
  legacy_upsert owner customer sub status pe created now s = Ok (u, s') → keeps s s'.
Proof. intros H. unfold legacy_upsert in H. keeps_steps. Qed.
Hint Resolve legacy_upsert_keeps : keeps.

Lemma accept_webhook_keeps secret payload sig now s r s' :
  accept_webhook sha256_hex hmac_sha256_hex json_loads secret payload sig now s = Ok (r, s') → keeps s s'.
Proof. intros H. unfold accept_webhook in H. keeps_steps. Qed.
End Keeps.

Section Once.
Context (sha256_hex : string → string).
Context (hmac_sha256_hex : string → string → string).
Context (json_loads : string → option json).
Context (cat : catalog).
Context (U : string → string → Prop).

#[local] Abbreviation step := (run sha256_hex hmac_sha256_hex json_loads cat).

Lemma commit_keeps {A} (m : tx error db A) s :
  (∀ a s', m s = Ok (a, s') → keeps s s') → keeps s (drop (commit m s)).
Proof.
  intros H. unfold drop. destruct (commit_cases m s) as [(a & s' & E & ->)|(e & E & ->)]; simpl; eauto. reflexivity.
Qed.

Lemma run_keeps o s : NoDup (map r_id (reservations s)) → keeps s (step o s).
Proof.
  intros Hn. destruct o; simpl; apply commit_keeps; intros x s' H.
  - by eapply reserve_keeps.
  - by eapply release_keeps.
  - by eapply settle_keeps.
  - by eapply refund_keeps.
  - by eapply add_credits_keeps.
  - by eapply summary_keeps.
  - by eapply process_keeps.
  - by eapply accept_webhook_keeps.
Qed.

(** The steps from one reachable state to a later one. *)
Inductive later : db → db → Prop :=
| later_refl s : later s s
| later_step s o s' : allowed sha256_hex json_loads cat U o s → later (step o s) s' → later s s'.

Lemma later_one s o : allowed sha256_hex json_loads cat U o s → later s (step o s).
Proof. intros Ha. eapply later_step; [done|constructor]. Qed.

Lemma later_keeps s s' : collision_free sha256_hex U → inv sha256_hex U s → later s s' → keeps s s'.
Proof.
  intros Hc Hi H. induction H as [s|s o s' Ha _ IH]; [reflexivity|].
  transitivity (step o s); [apply run_keeps, (inv_rids _ _ _ Hi)|]. apply IH. by apply step_inv.
Qed.

(** A settled or released reservation is final: it is still in the
    table, unchanged, after any later sequence of operations; an open one
    keeps its identity and its estimate. *)
Theorem closed_reservation_final users s s' r :
  collision_free sha256_hex U → reachable sha256_hex hmac_sha256_hex json_loads cat U users s →
  later s s' → r ∈ reservations s →
  (r_status r ≠ reserved → r ∈ reservations s') ∧
  ∃ r', r' ∈ reservations s' ∧ r_id r' = r_id r ∧ r_estimated r' = r_estimated r.
Proof.
  intros Hc Hr Hl Hin.
  destruct (later_keeps s s' Hc (reachable_inv _ _ _ _ _ _ _ Hc Hr) Hl) as [K _].
  destruct (K r Hin) as (r' & Hr' & Hid & Hest & Hk). split; [|eauto].
  intros Hn. by rewrite <- (Hk Hn).
Qed.

Lemma record_again event type digest digest' now w s :
  fetchone (λ w, w_event w == event) (webhook_events s) = Some w → w_digest w = Some digest →
  record_event event type digest' now s =
    if digest == digest' then Ok (false, s) else Err (BillingError "webhook_conflict" 409).
Proof.
  intros Hw Hd. unfold record_event. erewrite bind_run by reflexivity. rewrite Hw, Hd.
  case_bool_decide; [by erewrite bind_run|by erewrite bind_fail].
Qed.

Lemma processed_recorded event type digest created obj now s s' :
  apply_event sha256_hex cat event type digest created obj now s = Ok (Processed, s') →
  ∃ w, fetchone (λ w, w_event w == event) (webhook_events s') = Some w ∧ w_digest w = Some digest.
Proof.
  unfold apply_event. intros H. apply bind_ok in H as (fresh & s0 & Hrec & H).
  apply record_event_cases in Hrec as [(-> & ->)|(-> & -> & Hnew)]; simpl in H; [by tx_inv|].
  set (s1 := s <| webhook_events ::= _ |>) in *.
  assert (keeps s1 s') as [_ [t E]].
  { keeps_steps; eauto using checkout_keeps, subscription_keeps, invoice_keeps with keeps. }
  rewrite E. exists (mkWebhookEvent event type now (Some digest)). split; [|done]. simpl.
  rewrite <- app_assoc, fetchone_app_none.
  - simpl. by rewrite eqb_refl.
  - apply fetchone_all_false. intros w Hw. apply eqb_neq. by apply Hnew.
Qed.

(** C25. A webhook event is applied once: after it was processed, and after
    any later operations, the same event with the same bytes is a duplicate
    that changes nothing, and with other bytes it is refused. *)
Theorem webhook_once event type digest created obj now s s1 s2 type' digest' created' obj' now' :
  collision_free sha256_hex U → inv sha256_hex U s1 →
  apply_event sha256_hex cat event type digest created obj now s = Ok (Processed, s1) →
  later s1 s2 →
  commit (apply_event sha256_hex cat event type' digest' created' obj' now') s2 =
    (if digest == digest' then Ok Duplicate else Err (BillingError "webhook_conflict" 409), s2).
Proof.
  intros Hc Hi H Hl. destruct (processed_recorded _ _ _ _ _ _ _ _ H) as (w & Hw & Hd).
  destruct (later_keeps _ _ Hc Hi Hl) as [_ [t E]].
  assert (fetchone (λ w, w_event w == event) (webhook_events s2) = Some w) as Hw2
    by (rewrite E; by apply fetchone_app_some).
  unfold commit, apply_event. rewrite (bind_of_eq _ _ _ _ (record_again event type' digest digest' now' w s2 Hw2 Hd)).
  by case_bool_decide.
Qed.

(** A webhook passes verification only if its payload is within the size
    limit, its timestamp is within five minutes of now, and one of its [v1]
    signatures is the HMAC of timestamp and payload. *)
Theorem verify_sound payload signature secret now :
  verify hmac_sha256_hex payload signature secret now = Ok tt →
  str_len payload ≤ MAX_WEBHOOK_BYTES ∧
  ∃ timestamp, Z.abs (now - timestamp) ≤ 300 ∧
    timestamp = default 0 (py_int (default "" (head (values_of "t" (header_fields signature))))) ∧
    hmac_sha256_hex secret (pretty timestamp +:+ "." +:+ payload) ∈ values_of "v1" (header_fields signature).
Proof.
  unfold verify. intros H. tx_inv. bools. split; [lia|]. eexists. split_and!; [|reflexivity|]; [lia|].
  match goal with H : any_digest _ _ = Ok _ |- _ => revert H end.
  induction (values_of "v1" _) as [|v vs IH]; simpl; [by intros [= <-]|].
  destruct (is_ascii v); simpl; [|done]. case_bool_decide; subst; [by left|]. intros. right. eauto.
Qed.

(** Settling again with the same event and usage returns the settled
    reservation and changes nothing; with another event it is refused. *)
Theorem settle_replay owner objective measured event now s r s1 event' now' :
  NoDup (map r_id (reservations s)) →
  settle_objective sha256_hex cat owner objective measured event now s = Ok (r, s1) →
  commit (settle_objective sha256_hex cat owner objective measured event' now') s1 =
    (if event == event' then Ok r else Err settlement_conflict, s1).
Proof.
  intros Hn H. unfold settle_objective in H.
  apply bind_ok in H as ([u rate] & s0 & [Hread <-]%lift_ok & H).
  apply bind_ok in H as (actual & s2 & [Hcost <-]%lift_ok & H).
  apply bind_ok in H as (found & s3 & [Hf <-]%read_ok & H).
  apply bind_ok in H as (r0 & s4 & [->%of_option_ok <-]%lift_ok & H).
  apply for_objective_spec in Hf as Hr0. destruct Hr0 as (Hr & Ho & Hobj).
  (* it is enough that the settled row and its usage row are found *)
  enough (fetchone (for_objective owner objective) (reservations s1) = Some r ∧ r_status r = settled ∧
          r_actual r = Some actual ∧ r_usage r = Some u ∧
          ∃ v, fetchone (λ v, (v_owner v == owner) && (v_objective v == objective)) (usage_rows s1) = Some v ∧ v_event v = event)
    as (F1 & F2 & F3 & F4 & v & F5 & F6).
  { unfold commit, settle_objective.
    erewrite bind_run by (unfold lift; rewrite Hread; reflexivity). simpl.
    erewrite bind_run by (unfold lift; rewrite Hcost; reflexivity).
    erewrite bind_run by (unfold read; reflexivity). rewrite F1. erewrite bind_run by reflexivity.
    rewrite F2, eqb_refl. erewrite bind_run by (unfold read; reflexivity).
    rewrite F3, F4, F5, F6, !eqb_refl. simpl. by destruct (event == event'). }
  destruct (r_status r0 == settled) eqn:Hst.
  - bools. apply bind_ok in H as (prior & s5 & [Hp <-]%read_ok & H). tx_inv. bools.
    destruct (fetchone _ (usage_rows _)) as [v|] eqn:E; [|done]. bools. eauto 10.
  - apply bind_ok in H as (v & s5 & [_ <-]%require_ok & H). unfold get_account, set_account, the in H. tx_inv.
    match goal with H : insert usage_clash _ _ = Some _ |- _ => apply insert_some in H as [-> Hfresh] end.
    match goal with H : _insert_ledger _ _ _ _ _ _ _ _ _ _ _ _ = Ok _ |- _ =>
      apply insert_ledger_frame in H as (_ & E1 & E2 & _) end. simpl in E1, E2.
    match goal with H : fetchone _ (reservations s1) = Some r |- _ => rename H into Hstored end.
    set (g := λ x : reservation, x <| r_status := settled |> <| r_actual := Some actual |>
                                   <| r_usage := Some u |> <| r_updated := now |>) in *.
    assert (r = g r0) as ->.
    { rewrite E1, fetchone_update in Hstored by done.
      erewrite (fetchone_unique r_id _ _ r0) in Hstored; [|done|done|apply eqb_refl|intros; by bools].
      simpl in Hstored. rewrite eqb_refl in Hstored. congruence. }
    rewrite E1, E2, fetchone_update, Hf by done. simpl. rewrite eqb_refl. split_and!; try done.
    eexists. rewrite fetchone_app_none; simpl; [rewrite !eqb_refl; simpl; done|].
    apply fetchone_all_false. intros v Hv. specialize (Hfresh v Hv). unfold usage_clash in Hfresh. bools. simpl in *.
    destruct (v_owner v == r_owner r0) eqn:Eo; [|done]. destruct (v_objective v == r_objective r0) eqn:Eb; [|done]. bools.
    rewrite Eo, Eb, !eqb_refl in *. done.
Qed.
End Once.
