(* ===== verification/BillingWitness.v ===== *)
(** * The billing component on a concrete catalog

    A small catalog built through the constructor, runs over it, and the
    instances of the billing theorems on those runs. *)

From stdpp Require Import base option list strings numbers pretty sets.
From Stdlib Require Import ZArith Lia.
From S2P Require Import Prelude Sql PyFloat Json Text BillingCatalog BillingLedger BillingWebhook BillingInvariant BillingTheorems BillingOnce.

Open Scope string_scope.
Open Scope list_scope.
Open Scope Z_scope.

Definition demo_plan (id kind : string) (price : json) (monthly : Z) : json := JObj
  [("id", JStr id); ("name", JStr id); ("kind", JStr kind); ("stripe_price_id", price);
   ("monthly_included_credits", JInt monthly); ("objective_reserve_credits", JInt 100);
   ("monthly_spend_limit_credits", JInt 500); ("concurrency_limit", JInt 1);
   ("low_credit_warning_credits", JInt 125); ("grace_days", JInt 3);
   ("entitlements", JList [JStr "chat"; JStr "execution"; JStr "topups"])].
Definition demo_payload : dict :=
  [("schema_version", JStr CATALOG_SCHEMA); ("currency", JStr "usd");
   ("credit_unit", JObj [("microcredits_per_credit", JInt 1000000); ("usd_micros_per_credit", JInt 10000)]);
   ("default_plan", JStr "free");
   ("plans", JList [demo_plan "free" "free" JNull 500; demo_plan "pro" "subscription" (JStr "price_pro") 900]);
   ("credit_packs", JList [JObj [("id", JStr "pack"); ("name", JStr "Pack"); ("stripe_price_id", JStr "price_pack"); ("credits", JInt 50)]]);
   ("rates", JList [JObj [("provider", JStr "openai"); ("model", JStr "gpt-4o-mini");
      ("input_usd_micros_per_million", JInt 150000); ("output_usd_micros_per_million", JInt 600000);
      ("compute_usd_micros_per_hour", JInt 0); ("margin_bps", JInt 2500)]])].
Definition no_catalog : catalog :=
  {| usd_micros_per_credit := 1; plans := []; packs := []; default_plan := JNull; rates := []; payload := [] |}.
Definition demo_catalog : catalog :=
  match BillingCatalog (λ _, "") demo_payload with Ok c => c | Err _ => no_catalog end.

(** The identity stands for the digest; the keys of the runs below stay under
    its 32 characters. *)
Definition demo_hash (s : string) : string := s.
Definition demo_hmac (secret msg : string) : string := secret +:+ ":" +:+ msg.
Definition demo_json (s : string) : option json := None.

Definition run_demo : op → db → db := run demo_hash demo_hmac demo_json demo_catalog.
Definition start : db := mkDb [] [] [] [] [] [] ["u"].
Definition measured (input : Z) : json := JObj
  [("provider", JStr "openai"); ("model", JStr "gpt-4o-mini"); ("input_tokens", JInt input);
   ("output_tokens", JInt 0); ("compute_milliseconds", JInt 0)].

(** Keys the runs write. *)
Definition demo_keys : list (string * string) :=
  [("u", "included:free:1970-01"); ("u", "included:pro:1970-01"); ("u", "reserve:k"); ("u", "settle:e");
   ("u", "topup-1"); ("u", "stripe:evt"); ("u", "release:" +:+ _reservation_id demo_hash "u" "o")].
Definition demo_U (o k : string) : Prop := (o, k) ∈ demo_keys.

Lemma demo_collision_free : collision_free demo_hash demo_U.
Proof.
  assert (Forall (λ p, Forall (λ q, _ledger_id demo_hash p.1 p.2 = _ledger_id demo_hash q.1 q.2 → p = q) demo_keys) demo_keys) as H.
  { apply (bool_decide_unpack _). vm_compute. exact I. }
  intros o k o' k' Hp Hq E. rewrite Forall_forall in H. specialize (H _ Hp).
  rewrite Forall_forall in H. specialize (H _ Hq E). by injection H.
Qed.

Lemma demo_grants n : _period_key n = "1970-01" → grant_keys demo_catalog demo_U "u" n.
Proof.
  intros E k d H. rewrite E. revert H. vm_compute plans.
  intros [[= -> ->]|[[= -> ->]|[]%not_elem_of_nil]%elem_of_cons]%elem_of_cons; vm_compute; set_solver.
Qed.

Lemma catalog_validated_witness : catalog_ok demo_catalog.
Proof. apply (catalog_validated (λ _, "") demo_payload). vm_compute. reflexivity. Defined.

(** ** Runs *)

Definition s_reserved : db := run_demo (Reserve "u" "o" "k" 0) start.
Definition s_settled : db := run_demo (Settle "u" "o" (measured 1000000) "e" 1) s_reserved.

Lemma in_demo k : (bool_decide (("u", k) ∈ demo_keys) = true) → demo_U "u" k.
Proof. by intros ?%bool_decide_eq_true. Qed.

Lemma reserved_reachable : reachable demo_hash demo_hmac demo_json demo_catalog demo_U ["u"] s_reserved.
Proof.
  apply (reach_step _ _ _ _ _ _ _ (Reserve "u" "o" "k" 0)); [apply reach_init|].
  split; [by apply demo_grants|by apply in_demo].
Qed.

Lemma settled_reachable : reachable demo_hash demo_hmac demo_json demo_catalog demo_U ["u"] s_settled.
Proof. apply (reach_step _ _ _ _ _ _ _ (Settle _ _ _ _ _)); [apply reserved_reachable|by apply in_demo]. Qed.

Lemma start_inv : inv demo_hash demo_U start.
Proof. apply inv_empty. Qed.

Lemma reserved_inv : inv demo_hash demo_U s_reserved.
Proof. eapply reachable_inv; [apply demo_collision_free|apply reserved_reachable]. Qed.

(** The account after the run: 500 credits granted, 100 of them held. *)
Example reserved_account :
  map (λ a, (a_available a, a_reserved a)) (accounts s_reserved) = [(400000000, 100000000)].
Proof. vm_compute. reflexivity. Qed.

Definition demo_account (s : db) : account :=
  match fetchone (account_of "u") (accounts s) with
  | Some a => a
  | None => new_account demo_catalog "u" 0
  end.
Definition demo_reservation (s : db) : reservation :=
  match reservations s with r :: _ => r | [] => mkReservation "" "" "" "" 0 None reserved None 0 0 end.

Lemma ledger_balanced_witness :
  a_available (demo_account s_settled) = sum l_amount (owned "u") (ledger s_settled) ∧
  a_reserved (demo_account s_settled) = sum r_estimated (is_reserved "u") (reservations s_settled).
Proof.
  apply (ledger_balanced demo_hash demo_hmac demo_json demo_catalog demo_U ["u"] s_settled (demo_account s_settled)).
  - apply demo_collision_free.
  - apply settled_reachable.
  - apply list_elem_of_In. vm_compute. left. reflexivity.
Defined.

Lemma reserve_admits_witness :
  ∃ r s', reserve_objective demo_hash demo_catalog "u" "o" "k" 0 start = Ok (r, s') ∧ r_status r = reserved.
Proof.
  destruct (reserve_objective demo_hash demo_catalog "u" "o" "k" 0 start) as [[r s']|e] eqn:E;
    [|exfalso; vm_compute in E; discriminate].
  exists r, s'. split; [reflexivity|].
  apply (reserve_admits demo_hash demo_catalog demo_U "u" "o" "k" 0 start r s' start_inv (demo_grants 0 eq_refl) eq_refl E).
Defined.

Definition s_event : db :=
  start <| webhook_events := [mkWebhookEvent "evt" "other" 6 (Some "d")] |>.

Lemma webhook_once_witness :
  apply_event demo_hash demo_catalog "evt" "other" "d" 5 [] 6 start = Ok (Processed, s_event) ∧
  commit (apply_event demo_hash demo_catalog "evt" "other" "d2" 5 [] 7) s_event =
    (Err (BillingError "webhook_conflict" 409), s_event).
Proof.
  split; [reflexivity|].
  apply (webhook_once demo_hash demo_hmac demo_json demo_catalog demo_U "evt" "other" "d" 5 [] 6 start s_event s_event
           "other" "d2" 5 [] 7 demo_collision_free).
  - apply (inv_webhook demo_hash demo_U start), start_inv.
  - reflexivity.
  - apply later_refl.
Defined.

Lemma measured_cost_exact_witness :
  ∃ u rate, read_usage demo_catalog (measured 1000001) = Ok (u, rate) ∧
    measured_cost demo_catalog (measured 1000001) = Ok (exact_cost u rate 10000) ∧ exact_cost u rate 10000 = 18750200.
Proof.
  eexists _, _. split; [reflexivity|]. split; [|vm_compute; reflexivity].
  apply (measured_cost_exact demo_catalog (measured 1000001));
    [apply (build_ok (λ _, "") demo_payload); vm_compute; reflexivity|vm_compute; reflexivity|reflexivity|vm_compute; reflexivity].
Defined.

(** ** What the bounds exclude *)

(** Past 53 bits the charge can fall below the exact price: this usage is
    inside the limits of the execution contract, and the floating-point
    division rounds its price down. *)
Theorem cost_rounds_down :
  1922420656125696 ≤ MAX_CONTRACT_INTEGER ∧
  measured_cost demo_catalog (measured 1922420656125696) = Ok 36045387302356896 ∧
  ∃ u rate, read_usage demo_catalog (measured 1922420656125696) = Ok (u, rate) ∧
            exact_cost u rate (usd_micros_per_credit demo_catalog) = 36045387302356900.
Proof.
  split; [done|]. split; [vm_compute; reflexivity|]. eexists _, _. split; [reflexivity|]. vm_compute. reflexivity.
Qed.

(** A top-up of one credit under [reserve:k], and a reservation under [k]. *)
Definition s_topped : db := run_demo (AddCredits "u" (JInt 1) "reserve:k" "manual" 0) start.
Definition s_drifted : db := run_demo (Reserve "u" "o" "k" 1) s_topped.
Lemma reused_key_breaks_ledger_witness :
  add_credits demo_hash demo_catalog "u" (JInt 1) "reserve:k" "manual" 0 start = Ok (true, s_topped) ∧
  reserve_objective demo_hash demo_catalog "u" "o" "k" 1 s_topped = Ok (demo_reservation s_drifted, s_drifted) ∧
  r_estimated (demo_reservation s_drifted) = 100000000 ∧
  ∃ a, fetchone (account_of "u") (accounts s_drifted) = Some a ∧ a_available a = sum l_amount (owned "u") (ledger s_drifted) - 100000000.
Proof.
  assert (add_credits demo_hash demo_catalog "u" (JInt 1) "reserve:k" "manual" 0 start = Ok (true, s_topped)) as H1 by (vm_compute; reflexivity).
  assert (reserve_objective demo_hash demo_catalog "u" "o" "k" 1 s_topped = Ok (demo_reservation s_drifted, s_drifted)) as H2 by (vm_compute; reflexivity).
  split; [exact H1|]. split; [exact H2|]. split; [vm_compute; reflexivity|].
  destruct (reused_key_breaks_ledger demo_hash demo_hmac demo_json demo_catalog demo_U ["u"] "u" "o" "k" (JInt 1) "manual" 0 1 start s_topped (demo_reservation s_drifted) s_drifted
    demo_collision_free (reach_init _ _ _ _ _ _) (demo_grants 0 eq_refl) (in_demo "reserve:k" eq_refl) eq_refl H1 H2) as (_ & _ & _ & Hdrift).
  exact Hdrift.
Defined.
