(* ===== verification/Deployment.v ===== *)
(** * Deployment mode and objective states

    [gateway/app/deployment_mode.py] with the two contracts of
    [gateway/app/contracts.py] it validates: the owner-bound personal mode, its
    admission check, and the projection of persisted facts to a public
    objective state with its replacement rule. *)

From stdpp Require Import base option list strings numbers sets.
From Stdlib Require Import ZArith Lia.
From S2P Require Import Prelude Json.

Open Scope string_scope.
Open Scope list_scope.
Open Scope Z_scope.

(** [DeploymentModeError(code, status_code)], and what pydantic and the
    interpreter raise. *)
Inductive mode_error :=
| DeploymentModeError (code : string) (status_code : Z)
| ValidationError
| ValueError
| AssertionError.

#[export] Instance mode_error_eq_dec : EqDecision mode_error.
Proof. solve_decision. Defined.

(** ** Contracts *)

Definition PRINCIPAL_ID_PATTERN (s : string) : bool :=
  fullmatch1 is_alnum (λ c, is_alnum c || one_of "._-" c) 0 127 s.
Definition OBJECTIVE_ID_PATTERN (s : string) : bool :=
  fullmatch1 is_alnum (λ c, is_alnum c || one_of "._:-" c) 0 127 s.
(** [Field(ge=lo, le=hi)] *)
Definition within (lo hi z : Z) : bool := (lo <=? z) && (z <=? hi).

Inductive deployment_kind := public_saas | personal.

Record deployment_contract := {
  mode : deployment_kind;
  owner_principal_id : option string;
  max_implementation_workers : Z;
  objective_spend_limit_micro_usd : option Z;
  monthly_spend_limit_micro_usd : option Z;
}.

Definition optional {A} (ok : A → bool) (x : option A) : bool :=
  match x with Some a => ok a | None => true end.

(** [validate_personal_settings] *)
Definition validate_personal_settings (c : deployment_contract) : bool :=
  match mode c with
  | personal =>
      match owner_principal_id c, objective_spend_limit_micro_usd c, monthly_spend_limit_micro_usd c with
      | Some _, Some o, Some m => negb (m <? o)
      | _, _, _ => false
      end
  | public_saas =>
      match owner_principal_id c, objective_spend_limit_micro_usd c, monthly_spend_limit_micro_usd c with
      | None, None, None => true
      | _, _, _ => false
      end
  end.

(** The constructor: field constraints, then the model validator. *)
Definition PersonalDeploymentContract (c : deployment_contract) : res mode_error deployment_contract :=
  ensure (optional PRINCIPAL_ID_PATTERN (owner_principal_id c) &&
          within 1 2 (max_implementation_workers c) &&
          optional (within 1 MAX_CONTRACT_INTEGER) (objective_spend_limit_micro_usd c) &&
          optional (within 1 MAX_CONTRACT_INTEGER) (monthly_spend_limit_micro_usd c)) ValidationError;;
  ensure (validate_personal_settings c) ValidationError;;
  Ok c.

Inductive objective_state :=
| unknown | submitting | queued | accepted | running | waiting_for_input
| recovering | succeeded | failed | cancelled.
Inductive progress :=
| at_unobserved | at_submitting | at_queued | at_accepted | at_running | at_terminal.
Inductive cancellation_state := not_cancelled | cancel_requested | cancel_observed.

#[export] Instance objective_state_eq_dec : EqDecision objective_state.
Proof. solve_decision. Defined.
#[export] Instance progress_eq_dec : EqDecision progress.
Proof. solve_decision. Defined.
#[export] Instance cancellation_state_eq_dec : EqDecision cancellation_state.
Proof. solve_decision. Defined.

Record state_contract := mkState {
  sc_objective_id : string;
  sc_owner : string;
  sc_revision : Z;
  sc_state : objective_state;
  sc_progress : progress;
  sc_cancellation : cancellation_state;
}.
#[export] Instance state_contract_eta : Settable state_contract := λ x,
  mkState (sc_objective_id x) (sc_owner x) (sc_revision x) (sc_state x) (sc_progress x) (sc_cancellation x).
#[export] Instance state_contract_eq_dec : EqDecision state_contract.
Proof. solve_decision. Defined.

(** [ObjectiveStateContract.terminal] *)
Definition is_terminal (s : objective_state) : bool :=
  match s with succeeded | failed | cancelled => true | _ => false end.
Definition terminal (c : state_contract) : bool := is_terminal (sc_state c).

(** The stage a state of observed progress must name. *)
Definition named_stage (s : objective_state) : option progress :=
  match s with
  | submitting => Some at_submitting | queued => Some at_queued
  | accepted => Some at_accepted | running => Some at_running
  | _ => None
  end.

Definition validate_state (c : state_contract) : bool :=
  Bool.eqb (sc_cancellation c == cancel_observed) (sc_state c == cancelled) &&
  Bool.eqb (terminal c) (sc_progress c == at_terminal) &&
  match named_stage (sc_state c) with Some p => sc_progress c == p | None => true end.

Definition ObjectiveStateContract (c : state_contract) : res mode_error state_contract :=
  ensure (OBJECTIVE_ID_PATTERN (sc_objective_id c) && PRINCIPAL_ID_PATTERN (sc_owner c) &&
          within 0 MAX_CONTRACT_INTEGER (sc_revision c)) ValidationError;;
  ensure (validate_state c) ValidationError;;
  Ok c.

(** ** Configuration and principals *)

Definition is_digits (lo hi : Z) (s : string) : bool :=
  str_forall is_digit s && within lo hi (str_len s).
Fixpoint int_of_digits (acc : Z) (s : string) : Z :=
  match s with
  | EmptyString => acc
  | String c s' => int_of_digits (10 * acc + (Z.of_nat (Ascii.nat_of_ascii c) - 48)) s'
  end.

(** [from_env]; [env] is the mapping's [get]. *)
Definition env_integer (env : string → option string) (name : string) (dflt : option string) : res mode_error Z :=
  match or_else (env name) dflt with
  | Some raw => if is_digits 1 16 raw then Ok (int_of_digits 0 raw) else Err ValueError
  | None => Err ValueError
  end.

Definition personal_settings (env : string → option string) : res mode_error deployment_contract :=
  workers ← env_integer env "MAGISTRATE_PERSONAL_MAX_IMPLEMENTATION_WORKERS" (Some "1");
  objective ← env_integer env "MAGISTRATE_PERSONAL_OBJECTIVE_SPEND_LIMIT_MICRO_USD" None;
  monthly ← env_integer env "MAGISTRATE_PERSONAL_MONTHLY_SPEND_LIMIT_MICRO_USD" None;
  PersonalDeploymentContract
    {| mode := personal; owner_principal_id := env "MAGISTRATE_PERSONAL_OWNER_PRINCIPAL_ID";
       max_implementation_workers := workers;
       objective_spend_limit_micro_usd := Some objective;
       monthly_spend_limit_micro_usd := Some monthly |}.

Definition from_env (env : string → option string) : res mode_error deployment_contract :=
  let mode := default "public-saas" (env "MAGISTRATE_DEPLOYMENT_MODE") in
  if mode == "public-saas" then
    PersonalDeploymentContract
      {| mode := public_saas; owner_principal_id := None; max_implementation_workers := 1;
         objective_spend_limit_micro_usd := None; monthly_spend_limit_micro_usd := None |}
  else if mode != "personal" then Err (DeploymentModeError "deployment_mode_invalid" 503)
  else match personal_settings env with
       | Ok c => Ok c
       | Err _ => Err (DeploymentModeError "personal_configuration_invalid" 503)
       end.

Definition is_personal (c : deployment_contract) : bool :=
  match mode c with personal => true | public_saas => false end.

(** [auth.Principal], the fields the policy reads. *)
Record principal := {
  user_id : string;
  scopes : list string;
  session_id : string;
  expires_at : Z;
}.
Definition has (p : principal) (scope : string) : bool := existsb (String.eqb scope) (scopes p).

(** [require_principal]; [p = None] is an object that is not a [Principal]. *)
Definition require_principal (c : deployment_contract) (now : Z) (p : option principal)
    (scope : option string) : res mode_error principal :=
  match p with
  | None => Err (DeploymentModeError "authentication_required" 401)
  | Some p =>
      ensure ((session_id p != "") && negb (expires_at p <=? now)) (DeploymentModeError "authentication_required" 401);;
      ensure (negb (is_personal c && negb (owner_principal_id c == Some (user_id p))))
        (DeploymentModeError "personal_owner_required" 403);;
      ensure (optional (has p) scope) (DeploymentModeError "scope_required" 403);;
      Ok p
  end.

Definition requires_commercial_entitlement (c : deployment_contract) (now : Z) (p : option principal) : res mode_error bool :=
  require_principal c now p None;;
  Ok (negb (is_personal c)).

Definition checkout_allowed (c : deployment_contract) (now : Z) (p : option principal) : res mode_error bool :=
  require_principal c now p (Some "account");;
  Ok (negb (is_personal c)).

(** ** Admission *)

Record resource_usage := {
  ru_owner : string;
  observation_complete : bool;
  active_objectives : Z;
  active_implementation_workers : Z;
  spent_micro_usd : Z;
  reserved_micro_usd : Z;
}.

Definition PersonalResourceUsage (u : resource_usage) : res mode_error resource_usage :=
  ensure (PRINCIPAL_ID_PATTERN (ru_owner u) && observation_complete u &&
          within 0 MAX_CONTRACT_INTEGER (active_objectives u) &&
          within 0 MAX_CONTRACT_INTEGER (active_implementation_workers u) &&
          within 0 MAX_CONTRACT_INTEGER (spent_micro_usd u) &&
          within 0 MAX_CONTRACT_INTEGER (reserved_micro_usd u)) ValidationError;;
  Ok u.

Definition capacity_exceeded : mode_error := DeploymentModeError "implementation_capacity_exceeded" 409.

Definition check_personal_admission (c : deployment_contract) (now : Z) (p : option principal)
    (usage : option resource_usage) (implementation_workers : Z) : res mode_error Z :=
  p ← require_principal c now p (Some "command");
  ensure (is_personal c) (DeploymentModeError "personal_mode_required" 403);;
  match usage with
  | None => Err (DeploymentModeError "resource_observation_required" 503)
  | Some u =>
      ensure (observation_complete u) (DeploymentModeError "resource_observation_required" 503);;
      ensure (ru_owner u == user_id p) (DeploymentModeError "resource_owner_mismatch" 403);;
      ensure (within 1 (max_implementation_workers c) implementation_workers) capacity_exceeded;;
      let committed_workers := Z.max (active_objectives u) (active_implementation_workers u) in
      ensure (negb ((max_implementation_workers c <=? active_objectives u) ||
                    (max_implementation_workers c <? committed_workers + implementation_workers))) capacity_exceeded;;
      match objective_spend_limit_micro_usd c, monthly_spend_limit_micro_usd c with
      | Some ceiling, Some monthly =>
          ensure (negb (monthly <? spent_micro_usd u + reserved_micro_usd u + ceiling))
            (DeploymentModeError "personal_spend_limit_exceeded" 409);;
          Ok ceiling
      | _, _ => Err AssertionError
      end
  end.

(** ** Projection of persisted facts *)

Definition _TERMINAL_STATES (phase : string) : option objective_state :=
  if phase == "objective.completed" then Some succeeded
  else if phase == "objective.failed" then Some failed
  else if phase == "objective.cancelled" then Some cancelled
  else None.
Definition _RUNNING_PHASES : list string :=
  ["worker.started"; "implementation.started"; "tests.started"; "tests.passed"; "tests.failed"; "review.started"].
Definition is_running_phase (phase : string) : bool := existsb (String.eqb phase) _RUNNING_PHASES.
Definition _UNCERTAIN_STATES (s : objective_state) : bool :=
  match s with unknown | recovering | waiting_for_input => true | _ => false end.
Definition _PROGRESS_ORDER (p : progress) : Z :=
  match p with
  | at_unobserved => 0 | at_submitting => 1 | at_queued => 2
  | at_accepted => 3 | at_running => 4 | at_terminal => 5
  end.

Definition _ALLOWED_TRANSITIONS (current incoming : objective_state) : bool :=
  let uncertain_or_done := _UNCERTAIN_STATES incoming || is_terminal incoming in
  let member l := existsb (λ s, incoming == s) l in
  match current with
  | submitting => member [submitting; queued; accepted; running] || uncertain_or_done
  | queued => member [queued; accepted; running] || uncertain_or_done
  | accepted => member [accepted; running] || uncertain_or_done
  | running => member [running] || uncertain_or_done
  | unknown | recovering | waiting_for_input =>
      member [submitting; queued; accepted; running] || uncertain_or_done
  | succeeded | failed | cancelled => incoming == current
  end.

Record facts := {
  submission_status : option string;
  execution_phase : option string;
  terminal_phase : option string;
  waiting : bool;
  is_recovering : bool;
  is_complete : bool;
  cancellation_requested : bool;
}.

(** The local variable [terminal]. *)
Definition terminal_fact (f : facts) : option string :=
  match terminal_phase f with
  | Some t => Some t
  | None => match execution_phase f with
            | Some p => match _TERMINAL_STATES p with Some _ => Some p | None => None end
            | None => None
            end
  end.

Definition phase_is (f : facts) (p : string → bool) : bool :=
  match execution_phase f with Some ph => p ph | None => false end.
Definition is_accepted_phase (p : string) : bool := p == "objective.accepted".

Definition projected_state (f : facts) : objective_state :=
  match terminal_fact f ≫= _TERMINAL_STATES with
  | Some s => s
  | None =>
      if bool_decide (is_Some (terminal_fact f)) || negb (is_complete f) then unknown
      else if is_recovering f then recovering
      else if phase_is f (λ p, negb (is_running_phase p || is_accepted_phase p)) then unknown
      else if waiting f then waiting_for_input
      else if phase_is f is_running_phase then running
      else if phase_is f is_accepted_phase then accepted
      else if submission_status f == Some "accepted" then queued
      else if submission_status f == Some "submitting" then submitting
      else unknown
  end.

Definition projected_progress (f : facts) : progress :=
  if is_terminal (projected_state f) then at_terminal
  else if phase_is f is_running_phase then at_running
  else if phase_is f is_accepted_phase then at_accepted
  else if submission_status f == Some "accepted" then at_queued
  else if submission_status f == Some "submitting" then at_submitting
  else at_unobserved.

Definition project_objective_state (objective_id owner : string) (revision : Z) (f : facts) : res mode_error state_contract :=
  ObjectiveStateContract
    (mkState objective_id owner revision (projected_state f) (projected_progress f)
       (if projected_state f == cancelled then cancel_observed
        else if cancellation_requested f then cancel_requested else not_cancelled)).

Definition conflict (code : string) : mode_error := DeploymentModeError code 409.

(** The normalisation of an uncertain update. *)
Definition keep_progress (current incoming : state_contract) : res mode_error state_contract :=
  if negb (terminal current) && _UNCERTAIN_STATES (sc_state incoming) &&
     (_PROGRESS_ORDER (sc_progress incoming) <? _PROGRESS_ORDER (sc_progress current))
  then ObjectiveStateContract (incoming <| sc_progress := sc_progress current |>)
  else Ok incoming.

Definition advance_objective_state (current incoming : state_contract) : res mode_error state_contract :=
  ensure ((sc_owner current == sc_owner incoming) && (sc_objective_id current == sc_objective_id incoming))
    (conflict "objective_identity_conflict");;
  ensure (negb (sc_revision incoming <? sc_revision current)) (conflict "objective_revision_stale");;
  incoming ← keep_progress current incoming;
  if sc_revision incoming =? sc_revision current then
    ensure (incoming == current) (conflict "objective_revision_conflict");;
    Ok current
  else
    ensure (negb (terminal current && (sc_state incoming != sc_state current))) (conflict "objective_terminal_conflict");;
    ensure (negb (negb (_ALLOWED_TRANSITIONS (sc_state current) (sc_state incoming)) ||
                  (_PROGRESS_ORDER (sc_progress incoming) <? _PROGRESS_ORDER (sc_progress current))))
      (conflict "objective_transition_invalid");;
    ensure (negb ((sc_cancellation current != not_cancelled) && (sc_cancellation incoming == not_cancelled)))
      (conflict "objective_cancellation_conflict");;
    Ok incoming.

(** Offered replacements, one after the other; a refused one leaves the stored
    projection as it is. *)
Definition replace (current incoming : state_contract) : state_contract :=
  match advance_objective_state current incoming with Ok c => c | Err _ => current end.
Definition replace_all (current : state_contract) (incoming : list state_contract) : state_contract :=
  foldl replace current incoming.
