(* ===== verification/DeploymentTheorems.v ===== *)
(** * Properties of the deployment policy and of objective states

    What [Deployment] promises: an accepted configuration is complete, an
    admission leaves room under every limit, a projection of any facts is a
    valid contract, and replacements only move an objective forward. *)

From stdpp Require Import base option list strings numbers sets.
From Stdlib Require Import ZArith Lia.
From S2P Require Import Prelude Json Deployment.

Open Scope string_scope.
Open Scope list_scope.
Open Scope Z_scope.

(** ** Inversion of the validators *)

Lemma contract_ok c c' :
  ObjectiveStateContract c = Ok c' ↔
    c' = c ∧ OBJECTIVE_ID_PATTERN (sc_objective_id c) = true ∧ PRINCIPAL_ID_PATTERN (sc_owner c) = true ∧
    within 0 MAX_CONTRACT_INTEGER (sc_revision c) = true ∧ validate_state c = true.
Proof.
  unfold ObjectiveStateContract. split.
  - intros H. tx_inv. bools. done.
  - intros (-> & H1 & H2 & H3 & H4). by rewrite H1, H2, H3, H4.
Qed.

Lemma keep_progress_ok current incoming i :
  keep_progress current incoming = Ok i →
  sc_objective_id i = sc_objective_id incoming ∧ sc_owner i = sc_owner incoming ∧
  sc_revision i = sc_revision incoming ∧ sc_state i = sc_state incoming ∧
  sc_cancellation i = sc_cancellation incoming ∧
  (i = incoming ∨ validate_state i = true) ∧ (ObjectiveStateContract incoming = Ok incoming → ObjectiveStateContract i = Ok i).
Proof.
  unfold keep_progress. intros H. tx_inv; [|naive_solver].
  pose proof H as Hc. apply contract_ok in H as (-> & ? & ? & ? & ?). cbn in *.
  split_and!; auto.
Qed.

Lemma within_spec lo hi z : within lo hi z = true ↔ lo ≤ z ≤ hi.
Proof. unfold within. rewrite andb_true_iff, !Z.leb_le. lia. Qed.

(** ** One replacement *)

(** What a replacement never undoes. *)
Record forward (c c' : state_contract) : Prop := {
  fwd_id : sc_objective_id c' = sc_objective_id c;
  fwd_owner : sc_owner c' = sc_owner c;
  fwd_revision : sc_revision c ≤ sc_revision c';
  fwd_progress : _PROGRESS_ORDER (sc_progress c) ≤ _PROGRESS_ORDER (sc_progress c');
  fwd_terminal : terminal c = true → sc_state c' = sc_state c;
  fwd_cancel : sc_cancellation c ≠ not_cancelled → sc_cancellation c' ≠ not_cancelled;
  fwd_change : c' ≠ c → sc_revision c < sc_revision c';
}.

#[export] Instance forward_refl : Reflexive forward.
Proof. intros c. constructor; try lia; naive_solver. Qed.

#[export] Instance forward_trans : Transitive forward.
Proof.
  intros a b c Hab Hbc. destruct Hab as [ai ao ar ap at_ ac ah], Hbc as [bi bo br bp bt bc bh]. constructor.
  - congruence.
  - congruence.
  - lia.
  - lia.
  - intros T. rewrite bt; [auto|]. unfold terminal in *. by rewrite at_.
  - auto.
  - intros N. destruct (decide (b = a)) as [->|Nb]; [auto|]. specialize (ah Nb). lia.
Qed.

Lemma advance_forward c i c' :
  advance_objective_state c i = Ok c' → forward c c' ∧ (ObjectiveStateContract i = Ok i → ObjectiveStateContract c = Ok c → ObjectiveStateContract c' = Ok c').
Proof.
  unfold advance_objective_state. intros H.
  apply res_bind_ok in H as (u1 & H1%ensure_ok & H). apply res_bind_ok in H as (u2 & H2%ensure_ok & H).
  apply res_bind_ok in H as (i' & (Hid & How & Hrev & Hst & Hca & _ & Hval)%keep_progress_ok & H). bools.
  destruct (sc_revision i' =? sc_revision c) eqn:Er.
  - apply res_bind_ok in H as (? & _ & [= <-]). split; [reflexivity|auto].
  - apply res_bind_ok in H as (? & Ht%ensure_ok & H). apply res_bind_ok in H as (? & Hp%ensure_ok & H).
    apply res_bind_ok in H as (? & Hc%ensure_ok & [= <-]). split; [|auto]. bools.
    constructor; try congruence; try lia.
    + intros T. rewrite T in Ht. simpl in Ht. by bools.
    + intros N E. rewrite E in Hc. rewrite (eqb_neq _ _ N) in Hc. done.
Qed.

Lemma replace_forward c i : forward c (replace c i).
Proof.
  unfold replace. destruct (advance_objective_state c i) eqn:E; [|reflexivity].
  by apply advance_forward in E as [? _].
Qed.

Lemma replace_valid c i :
  ObjectiveStateContract i = Ok i → ObjectiveStateContract c = Ok c →
  ObjectiveStateContract (replace c i) = Ok (replace c i).
Proof.
  intros Hi Hc. unfold replace. destruct (advance_objective_state c i) eqn:E; [|done].
  apply advance_forward in E as [_ ?]; auto.
Qed.

(** C7. Whatever valid projections are offered, in any order, a stored
    objective keeps its identity and stays a valid contract; revision and
    progress never decrease, a terminal state never changes, a requested
    cancellation is never erased, and a change always raises the revision. *)
Theorem objective_moves_forward c l :
  ObjectiveStateContract c = Ok c → Forall (λ i, ObjectiveStateContract i = Ok i) l →
  forward c (replace_all c l) ∧ ObjectiveStateContract (replace_all c l) = Ok (replace_all c l).
Proof.
  unfold replace_all. revert c. induction l as [|i l IH]; intros c Hc Hl; simpl; [split; [reflexivity|done]|].
  apply Forall_cons in Hl as [Hi Hl].
  destruct (IH (replace c i)) as [Hf Hv]; [by apply replace_valid|done|]. split; [|done].
  etransitivity; [apply replace_forward|done].
Qed.

(** ** Projection *)

Lemma TERMINAL_STATES_terminal p s : _TERMINAL_STATES p = Some s → is_terminal s = true.
Proof. unfold _TERMINAL_STATES. repeat case_bool_decide; naive_solver. Qed.

Lemma projected_named f p :
  named_stage (projected_state f) = Some p → projected_progress f = p ∧ is_terminal (projected_state f) = false.
Proof.
  unfold projected_progress, projected_state.
  destruct (terminal_fact f ≫= _TERMINAL_STATES) as [t|] eqn:E.
  - destruct (terminal_fact f); simplify_eq/=. apply TERMINAL_STATES_terminal in E. by destruct t.
  - repeat (case_match; simplify_eq/=; try done); intros; simplify_eq; try done;
      unfold phase_is in *; destruct (execution_phase f); simplify_eq/=; try done; bools; congruence.
Qed.

Lemma projection_consistent id o r f ca :
  (ca = cancel_observed ↔ projected_state f = cancelled) →
  validate_state (mkState id o r (projected_state f) (projected_progress f) ca) = true.
Proof.
  intros Hca. unfold validate_state. cbn. rewrite !andb_true_iff. split_and!.
  - apply eqb_true_iff. by apply bool_decide_ext.
  - apply eqb_true_iff. unfold terminal; cbn. destruct (is_terminal (projected_state f)) eqn:T.
    + unfold projected_progress. by rewrite T.
    + symmetry. apply bool_decide_eq_false. unfold projected_progress. rewrite T.
      repeat case_match; done.
  - destruct (named_stage (projected_state f)) as [p|] eqn:E; [|done].
    apply projected_named in E as [-> _]. apply eqb_refl.
Qed.

(** The projection of a well-named objective is the contract of its facts. *)
Lemma projection_contract id o r f :
  OBJECTIVE_ID_PATTERN id = true → PRINCIPAL_ID_PATTERN o = true → 0 ≤ r ≤ MAX_CONTRACT_INTEGER →
  ∃ ca, project_objective_state id o r f = Ok (mkState id o r (projected_state f) (projected_progress f) ca) ∧
        ObjectiveStateContract (mkState id o r (projected_state f) (projected_progress f) ca) =
          Ok (mkState id o r (projected_state f) (projected_progress f) ca).
Proof.
  intros Hid Ho Hr. unfold project_objective_state. set (ca := if projected_state f == cancelled then _ else _). exists ca.
  assert (ObjectiveStateContract (mkState id o r (projected_state f) (projected_progress f) ca) =
    Ok (mkState id o r (projected_state f) (projected_progress f) ca)) as Hv; [|done].
  apply contract_ok. cbn. rewrite (proj2 (within_spec _ _ _) Hr). split_and!; try done.
  apply projection_consistent. subst ca. case_bool_decide; [done|]. destruct (cancellation_requested f); naive_solver.
Qed.

(** Every combination of persisted facts, the unexpected ones included,
    projects to a valid contract: the projection of a well-named objective
    never raises, and it claims success only on a completed terminal phase. *)
Theorem projection_total id o r f :
  OBJECTIVE_ID_PATTERN id = true → PRINCIPAL_ID_PATTERN o = true → 0 ≤ r ≤ MAX_CONTRACT_INTEGER →
  ∃ c, project_objective_state id o r f = Ok c ∧ ObjectiveStateContract c = Ok c ∧ sc_revision c = r ∧
       (sc_state c = succeeded → terminal_fact f = Some "objective.completed") ∧
       (terminal_phase f = Some "objective.completed" → sc_state c = succeeded).
Proof.
  intros Hid Ho Hr. destruct (projection_contract id o r f Hid Ho Hr) as (ca & Hp & Hv).
  eexists. split; [exact Hp|]. split; [exact Hv|]. split; [done|]. cbn. split.
  - unfold projected_state. destruct (terminal_fact f) as [t|]; simpl.
    + unfold _TERMINAL_STATES. repeat case_bool_decide; naive_solver.
    + repeat case_match; done.
  - intros E. unfold projected_state, terminal_fact. by rewrite E.
Qed.

(** ** Admission and configuration *)

(** An admission returns the objective ceiling of a personal deployment
    only to its live owner, with a worker slot free for the objective and the
    ceiling still inside the monthly limit. *)
Theorem admission_within_limits c now p u n ceiling :
  check_personal_admission c now p u n = Ok ceiling →
  ∃ pr us m, p = Some pr ∧ u = Some us ∧ is_personal c = true ∧
    owner_principal_id c = Some (user_id pr) ∧ ru_owner us = user_id pr ∧ now < expires_at pr ∧ has pr "command" = true ∧
    objective_spend_limit_micro_usd c = Some ceiling ∧ monthly_spend_limit_micro_usd c = Some m ∧
    spent_micro_usd us + reserved_micro_usd us + ceiling ≤ m ∧
    active_objectives us + 1 ≤ max_implementation_workers c ∧
    active_implementation_workers us + n ≤ max_implementation_workers c ∧ 1 ≤ n.
Proof.
  unfold check_personal_admission, require_principal. intros H. tx_inv. bools.
  rewrite within_spec in *. destruct (is_personal c); [|done]. cbn in *. bools.
  do 3 eexists. split_and!; eauto; lia.
Qed.

(** A configuration read from the environment is public with no personal
    setting, or personal with a well-formed owner, one or two workers and an
    objective ceiling inside the monthly one; the mode is personal only when
    the environment says so, and stale personal settings never select it. *)
Theorem from_env_closed env c :
  from_env env = Ok c →
  (is_personal c = true ∧ env "MAGISTRATE_DEPLOYMENT_MODE" = Some "personal" ∧
     ∃ o a b, owner_principal_id c = Some o ∧ env "MAGISTRATE_PERSONAL_OWNER_PRINCIPAL_ID" = Some o ∧
       PRINCIPAL_ID_PATTERN o = true ∧ objective_spend_limit_micro_usd c = Some a ∧
       monthly_spend_limit_micro_usd c = Some b ∧ 1 ≤ a ≤ b ∧ b ≤ MAX_CONTRACT_INTEGER ∧
       1 ≤ max_implementation_workers c ≤ 2) ∨
  (is_personal c = false ∧ default "public-saas" (env "MAGISTRATE_DEPLOYMENT_MODE") = "public-saas" ∧
     owner_principal_id c = None ∧ objective_spend_limit_micro_usd c = None ∧ monthly_spend_limit_micro_usd c = None).
Proof.
  unfold from_env. intros H.
  destruct (default _ _ == "public-saas") eqn:E1.
  - unfold PersonalDeploymentContract in H. tx_inv. right. apply eqb_true in E1. done.
  - destruct (default _ _ != "personal") eqn:E2; [done|]. bools.
    destruct (personal_settings env) as [c'|] eqn:E; [|done]. injection H as <-. left.
    unfold personal_settings, PersonalDeploymentContract in E. tx_inv. bools.
    cbn in *. rewrite within_spec in *.
    destruct (env "MAGISTRATE_DEPLOYMENT_MODE"); simplify_eq/=.
    destruct (env "MAGISTRATE_PERSONAL_OWNER_PRINCIPAL_ID") as [o|]; [|done]. bools. cbn in *. bools.
    split_and!; try done. do 3 eexists. split_and!; try done; lia.
Qed.

(** ** Instances *)

Definition demo_facts : facts :=
  {| submission_status := Some "accepted"; execution_phase := None; terminal_phase := None; waiting := false;
     is_recovering := false; is_complete := true; cancellation_requested := false |}.
Definition demo_state (r : Z) (s : objective_state) (p : progress) : state_contract :=
  mkState "mgo_1" "owner" r s p not_cancelled.
Definition demo_offers : list state_contract :=
  [demo_state 2 running at_running; demo_state 3 unknown at_unobserved; demo_state 4 queued at_queued;
   demo_state 5 succeeded at_terminal; demo_state 6 running at_running].

Lemma objective_moves_forward_witness :
  replace_all (demo_state 1 queued at_queued) demo_offers = demo_state 5 succeeded at_terminal ∧
  forward (demo_state 1 queued at_queued) (replace_all (demo_state 1 queued at_queued) demo_offers).
Proof.
  split; [vm_compute; reflexivity|].
  apply (objective_moves_forward (demo_state 1 queued at_queued) demo_offers); [vm_compute; reflexivity|].
  repeat (apply Forall_cons; split; [vm_compute; reflexivity|]). by apply Forall_nil.
Defined.

Definition demo_env (k : string) : option string :=
  assoc k [("MAGISTRATE_DEPLOYMENT_MODE", "personal"); ("MAGISTRATE_PERSONAL_OWNER_PRINCIPAL_ID", "owner");
           ("MAGISTRATE_PERSONAL_OBJECTIVE_SPEND_LIMIT_MICRO_USD", "500");
           ("MAGISTRATE_PERSONAL_MONTHLY_SPEND_LIMIT_MICRO_USD", "2000")].
Definition demo_policy : deployment_contract :=
  {| mode := personal; owner_principal_id := Some "owner"; max_implementation_workers := 1;
     objective_spend_limit_micro_usd := Some 500; monthly_spend_limit_micro_usd := Some 2000 |}.
Definition demo_principal : principal :=
  {| user_id := "owner"; scopes := ["command"]; session_id := "s"; expires_at := 100 |}.
Definition demo_usage : resource_usage :=
  {| ru_owner := "owner"; observation_complete := true; active_objectives := 0;
     active_implementation_workers := 0; spent_micro_usd := 1000; reserved_micro_usd := 0 |}.

