(* ===== verification/Activity.v ===== *)
(** * Activity store ([gateway/app/activity_store.py])

    The canonical activity ledger: records with revisions, the append-only
    change feed clients replay, and the sources whose journals and snapshots
    are projected into it. Each function is one SQLite transaction.

    The arguments of the closed record projections are typed; the clock is read
    once per call. [json.dumps], [json.loads], SHA-256 and the text engines of
    [Text] are parameters. *)

From stdpp Require Import base option list strings numbers sets.
From Stdlib Require Import ZArith Lia.
From S2P Require Import Prelude Sql Feed Json Text.

Open Scope string_scope.
Open Scope list_scope.
Open Scope Z_scope.

(** The exceptions the module raises or lets through. *)
Inductive act_error :=
| AValueError
| ASourceEventConflict
| ARuntimeError
| AIntegrityError.

#[export] Instance act_error_eq_dec : EqDecision act_error.
Proof. solve_decision. Defined.

Definition MAX_ACTIVITY_PAGE : Z := 200.
Definition MAX_ACTIVITY_FOCUS_RECORDS : Z := 5000.
Definition MAX_SNAPSHOT_ACTIVITY_RECORDS : Z := 5000.
Definition MAX_SOURCE_PAYLOAD_BYTES : Z := 8192.
Definition MAX_SAFE_INTEGER : Z := MAX_CONTRACT_INTEGER.

Definition ACTIVITY_STATES : list string :=
  ["active"; "awaiting-user"; "completed"; "failed"; "cancelled"; "resolved"].
Definition SOURCE_EVENT_KINDS : list string :=
  ["supervision.outcome"; "primary.message"; "primary.final"; "worker.message"; "worker.final"].
Definition ACTIVITY_IMPORTANCE : list string := ["routine"; "attention"].
(** Its keys are [ACTIVITY_KINDS]. *)
Definition _ACTIVITY_KIND_STATES : list (string * list string) :=
  [("objective.started", ["active"]); ("objective.progress", ["active"; "awaiting-user"]);
   ("objective.accepted", ["active"]); ("worker.started", ["active"]);
   ("implementation.started", ["active"]); ("tests.started", ["active"]);
   ("tests.passed", ["completed"]); ("tests.failed", ["failed"]); ("review.started", ["active"]);
   ("decision.requested", ["awaiting-user"]); ("decision.resolved", ["resolved"]);
   ("objective.completed", ["completed"]); ("objective.failed", ["failed"]);
   ("objective.cancelled", ["cancelled"]); ("supervision.outcome", ["completed"]);
   ("primary.message", ["completed"]); ("primary.final", ["completed"]);
   ("worker.message", ["completed"]); ("worker.final", ["completed"])].
Definition among (l : list string) (s : string) : bool := existsb (String.eqb s) l.

(** ** Rows *)

(** The columns an upsert compares and overwrites. *)
Record content := {
  kind : string;
  state : string;
  importance : string;
  title : string;
  summary : string;
  summary_truncated : bool;
  task_id : option string;
  decision_key : option string;
  objective_id : option string;
  run_id : option string;
  project : option string;
  occurred_at : option Z;
  refs_json : string;
  source_payload_sha256 : string;
  source_event_id : option string;
}.
#[export] Instance content_eq_dec : EqDecision content.
Proof. solve_decision. Defined.

(** [activity_records] *)
Record activity_row := mkRecord {
  ar_id : string;
  ar_user : string;
  ar_source : string;
  ar_key : string;
  ar_sequence : Z;
  ar_revision : Z;
  ar_content : content;
  ar_observed_at : Z;
  ar_created_at : Z;
  ar_updated_at : Z;
}.
#[export] Instance activity_row_eta : Settable activity_row := λ x,
  mkRecord (ar_id x) (ar_user x) (ar_source x) (ar_key x) (ar_sequence x) (ar_revision x) (ar_content x)
    (ar_observed_at x) (ar_created_at x) (ar_updated_at x).

(** PRIMARY KEY(id), UNIQUE(user, source, key), UNIQUE(user, sequence). *)
Definition record_clash (a b : activity_row) : bool :=
  (ar_id a == ar_id b) ||
  ((ar_user a == ar_user b) && (ar_source a == ar_source b) && (ar_key a == ar_key b)) ||
  ((ar_user a == ar_user b) && (ar_sequence a =? ar_sequence b)).

(** [activity_changes] *)
Record change_row := mkChange {
  ch_user : string;
  ch_sequence : Z;
  ch_record : string;
  ch_revision : Z;
  ch_at : Z;
}.
Definition change_clash (a b : change_row) : bool :=
  ((ch_user a == ch_user b) && (ch_sequence a =? ch_sequence b)) ||
  ((ch_user a == ch_user b) && (ch_record a == ch_record b) && (ch_revision a =? ch_revision b)).

(** [canonical_source_events] *)
Record source_event := mkEvent {
  se_id : string;
  se_user : string;
  se_source : string;
  se_stream : string;
  se_event_id : string;
  se_cursor : Z;
  se_payload_sha256 : string;
  se_kind : string;
  se_audience : string;
  se_occurred_at : option Z;
  se_payload_json : string;
  se_ingested_at : Z;
}.
Definition same_stream (a b : source_event) : bool :=
  (se_user a == se_user b) && (se_source a == se_source b) && (se_stream a == se_stream b).
Definition event_clash (a b : source_event) : bool :=
  (se_id a == se_id b) || (same_stream a b && ((se_event_id a == se_event_id b) || (se_cursor a =? se_cursor b))).

(** [activity_sources] *)
Record source_row := mkSource {
  so_user : string;
  so_source : string;
  so_stream : string;
  so_bootstrap : string;
  so_cursor : Z;
  so_prefix : string;
  so_tail : Z;
  so_state : string;
  so_error_code : option string;
  so_error_detail : option string;
  so_reconciled_at : option Z;
  so_snapshot_at : option Z;
  so_snapshot_sha256 : option string;
  so_accepted : Z;
  so_duplicate : Z;
  so_conflict : Z;
}.
#[export] Instance source_row_eta : Settable source_row := λ x,
  mkSource (so_user x) (so_source x) (so_stream x) (so_bootstrap x) (so_cursor x) (so_prefix x) (so_tail x)
    (so_state x) (so_error_code x) (so_error_detail x) (so_reconciled_at x) (so_snapshot_at x)
    (so_snapshot_sha256 x) (so_accepted x) (so_duplicate x) (so_conflict x).
Definition is_source (user source stream : string) (r : source_row) : bool :=
  (so_user r == user) && (so_source r == source) && (so_stream r == stream).
Definition source_clash (a b : source_row) : bool := is_source (so_user b) (so_source b) (so_stream b) a.

Record activity_db := mkActivityDb {
  records : list activity_row;
  changes : list change_row;
  events : list source_event;
  sources : list source_row;
}.
#[export] Instance activity_db_eta : Settable activity_db := λ x,
  mkActivityDb (records x) (changes x) (events x) (sources x).

Definition act := tx act_error activity_db.

(** A value [_decode_refs] lets through. *)
Inductive ref := PullRequest (url : string) | Report (id : string).
#[export] Instance ref_eq_dec : EqDecision ref.
Proof. solve_decision. Defined.

(** What [_public_activity] returns. *)
Record public_activity := {
  p_id : string; p_sequence : Z; p_revision : Z; p_kind : string; p_state : string; p_importance : string;
  p_title : string; p_summary : string; p_summary_truncated : bool; p_task_id : option string;
  p_decision_key : option string; p_objective_id : option string; p_run_id : option string;
  p_project : option string; p_occurred_at : option Z; p_observed_at : Z; p_refs : list ref;
  p_source_instance : string; p_source_event : option string;
}.

(** The keyword arguments of [_upsert_activity] other than the identity. *)
Record activity_args := mkArgs {
  a_record_key : string; a_kind : string; a_state : string; a_importance : string; a_title : string;
  a_summary : string; a_payload_sha256 : string; a_truncated : bool; a_event_id : option string;
  a_task_id : option string; a_decision_key : option string; a_objective_id : option string;
  a_run_id : option string; a_project : option string; a_occurred_at : option Z; a_observed_at : option Z;
  a_refs : option (list json);
}.
#[export] Instance activity_args_eta : Settable activity_args := λ x,
  mkArgs (a_record_key x) (a_kind x) (a_state x) (a_importance x) (a_title x) (a_summary x) (a_payload_sha256 x)
    (a_truncated x) (a_event_id x) (a_task_id x) (a_decision_key x) (a_objective_id x) (a_run_id x)
    (a_project x) (a_occurred_at x) (a_observed_at x) (a_refs x).

(** An element of [events]: a missing or ill-typed key is [None]. *)
Record event_item := {
  i_event_id : option string; i_cursor : option Z; i_payload_sha256 : option string;
  i_audience : option string; i_kind : option string; i_occurred_at : option Z;
  i_payload : option dict; i_activity : option activity_args;
}.

Record summary_counts := { n_active : Z; n_operations : Z; n_pending : Z }.
Record change_page := {
  page_records : list (public_activity * Z); page_next : Z; page_latest : Z; page_more : bool;
  page_summary : summary_counts;
}.
Record snapshot_page := {
  snap_records : list (public_activity * Z); snap_focus : list (public_activity * Z);
  snap_focus_truncated : bool; snap_cursor : Z; snap_latest : Z; snap_next_before : option Z;
  snap_more : bool; snap_summary : summary_counts;
}.


Section Store.
Context `{TextEngine, Codec}.

Definition bounded_text (value : option string) (maximum : Z) (required : bool) : res act_error string :=
  match _bounded_text value maximum required with Ok s => Ok s | Err _ => Err AValueError end.

(** [isinstance(s, str) and s and len(s) <= n and not _has_controls(s)] *)
Definition bounded_id (n : Z) (s : string) : bool :=
  (s != "") && (str_len s <=? n) && negb (_has_controls s).

Definition canonical_json (value : json) : res act_error string := of_option AValueError (dumps value).
Definition _validate_hash (value : option string) : res act_error string :=
  match value with
  | Some v => if _SAFE_HASH v then Ok v else Err AValueError
  | None => Err AValueError
  end.

Definition _record_id (user source key : string) : string :=
  "ca_" +:+ str_take 24 (sha256_hex (user +:+ NUL +:+ source +:+ NUL +:+ key)).
Definition _source_row_id (user source stream event_id : string) : string :=
  "se_" +:+ str_take 24 (sha256_hex (user +:+ NUL +:+ source +:+ NUL +:+ stream +:+ NUL +:+ event_id)).

Definition report_id (s : string) : bool := fullmatch1 is_alnum (λ c, is_alnum c || one_of "._:-" c) 0 199 s.
Definition decode_ref (raw : json) : option ref :=
  d ← as_dict raw;
  if eq_str (get "kind" d) "pull-request" then
    u ← as_str (get "url" d); u ← safe_pull_request_url u; Some (PullRequest u)
  else if eq_str (get "kind" d) "report" then
    i ← as_str (get "id" d); if report_id i then Some (Report i) else None
  else None.
Definition _decode_refs (value : string) : list ref :=
  match loads (if value == "" then "[]" else value) with
  | Some (JList l) => omap decode_ref (firstn 8 l)
  | _ => []
  end.

(** The dict [_decode_refs] builds, and Python's [==] against a given one. *)
Definition ref_json (r : ref) : json :=
  match r with
  | PullRequest u => JObj [("kind", JStr "pull-request"); ("url", JStr u)]
  | Report i => JObj [("kind", JStr "report"); ("id", JStr i)]
  end.
Definition ref_eqb (r : ref) (j : json) : bool :=
  match j with
  | JObj d => (length d =? 2)%nat &&
      match r with
      | PullRequest u => eq_str (get "kind" d) "pull-request" && eq_str (get "url" d) u
      | Report i => eq_str (get "kind" d) "report" && eq_str (get "id" d) i
      end
  | _ => false
  end.
Fixpoint refs_eqb (rs : list ref) (js : list json) : bool :=
  match rs, js with
  | [], [] => true
  | r :: rs, j :: js => ref_eqb r j && refs_eqb rs js
  | _, _ => false
  end.

Definition _validated_refs (refs : option (list json)) : res act_error string :=
  let candidate := default [] refs in
  ensure (length candidate <=? 8)%nat AValueError;;
  encoded ← canonical_json (JList candidate);
  let normalized := _decode_refs encoded in
  ensure (refs_eqb normalized candidate) AValueError;;
  canonical_json (JList (map ref_json normalized)).

Definition _public_activity (r : activity_row) : public_activity :=
  let c := ar_content r in
  {| p_id := ar_id r; p_sequence := ar_sequence r; p_revision := ar_revision r; p_kind := kind c;
     p_state := state c; p_importance := importance c; p_title := title c; p_summary := summary c;
     p_summary_truncated := summary_truncated c; p_task_id := task_id c; p_decision_key := decision_key c;
     p_objective_id := objective_id c; p_run_id := run_id c; p_project := project c;
     p_occurred_at := occurred_at c; p_observed_at := ar_observed_at r; p_refs := _decode_refs (refs_json c);
     p_source_instance := ar_source r; p_source_event := source_event_id c |}.

Definition of_user (user : string) (r : activity_row) : bool := ar_user r == user.
Definition change_of_user (user : string) (c : change_row) : bool := ch_user c == user.

Definition _next_sequence (s : activity_db) (user : string) : Z :=
  match max_of ar_sequence (of_user user) (records s) with Some top => top + 1 | None => 1 end.
Definition latest_change (s : activity_db) (user : string) : Z :=
  default 0 (max_of ch_sequence (change_of_user user) (changes s)).

Definition insert_change (c : change_row) : act unit := λ s,
  match insert change_clash c (changes s) with
  | Some t => Ok (tt, s <| changes := t |>)
  | None => Err AIntegrityError
  end.
Definition _record_activity_change (now : Z) (row : activity_row) : act Z :=
  latest ← read (λ s, latest_change s (ar_user row));
  let sequence := latest + 1 in
  insert_change (mkChange (ar_user row) sequence (ar_id row) (ar_revision row) now);;
  mret sequence.

(** ** Upsert *)

Definition is_decision (kind : string) : bool := (kind == "decision.requested") || (kind == "decision.resolved").
Definition is_some {A} (o : option A) : bool := match o with Some _ => true | None => false end.
Definition in_time (t : Z) : bool := (0 <=? t) && (t <=? MAX_SAFE_INTEGER).

(** The checks of [_upsert_activity]: the normalized columns and the
    observation time. *)
Definition validate_activity (now : Z) (user source : string) (a : activity_args) : res act_error (content * Z) :=
  ensure (bounded_id 128 user) AValueError;;
  ensure (bounded_id 128 source) AValueError;;
  ensure (bounded_id 300 (a_record_key a)) AValueError;;
  ensure (among (map fst _ACTIVITY_KIND_STATES) (a_kind a) && among ACTIVITY_STATES (a_state a) &&
          among ACTIVITY_IMPORTANCE (a_importance a) &&
          among (default [] (assoc (a_kind a) _ACTIVITY_KIND_STATES)) (a_state a)) AValueError;;
  title ← bounded_text (Some (a_title a)) 240 true;
  summary ← bounded_text (Some (a_summary a)) 600 true;
  task_id ← bounded_text (a_task_id a) 200 false;
  decision_key ← bounded_text (a_decision_key a) 128 false;
  objective_id ← bounded_text (a_objective_id a) 128 false;
  run_id ← bounded_text (a_run_id a) 128 false;
  project ← bounded_text (a_project a) 160 false;
  let decision_kind := is_decision (a_kind a) in
  let primary := startswith "primary." (a_kind a) in
  ensure (negb ((objective_id == "") ||
                (decision_kind && ((task_id == "") || (decision_key == ""))) ||
                (negb decision_kind && (decision_key != "")) ||
                (primary && (task_id != "")) || (negb primary && (task_id == "")))) AValueError;;
  source_event_id ← match a_event_id a with
                    | Some e => e ← bounded_text (Some e) 200 true; Ok (Some e)
                    | None => Ok None
                    end;
  ensure (negb (existsb _contains_sensitive_text
    [title; summary; task_id; decision_key; objective_id; run_id; project; source; default "" source_event_id])) AValueError;;
  ensure (match a_occurred_at a with Some t => in_time t | None => true end) AValueError;;
  let observed_at := default now (a_observed_at a) in
  ensure (in_time observed_at) AValueError;;
  hash ← _validate_hash (Some (a_payload_sha256 a));
  refs_json ← _validated_refs (a_refs a);
  Ok ({| kind := a_kind a; state := a_state a; importance := a_importance a; title := title; summary := summary;
         summary_truncated := a_truncated a; task_id := nonempty task_id; decision_key := nonempty decision_key;
         objective_id := nonempty objective_id; run_id := nonempty run_id; project := nonempty project;
         occurred_at := a_occurred_at a; refs_json := refs_json; source_payload_sha256 := hash;
         source_event_id := source_event_id |}, observed_at).

Definition has_key (user source key : string) (r : activity_row) : bool :=
  (ar_user r == user) && (ar_source r == source) && (ar_key r == key).

Definition insert_record (r : activity_row) : act unit := λ s,
  match insert record_clash r (records s) with
  | Some t => Ok (tt, s <| records := t |>)
  | None => Err AIntegrityError
  end.
Definition revise (c : content) (observed_at now : Z) (r : activity_row) : activity_row :=
  r <| ar_revision ::= Z.succ |> <| ar_content := c |> <| ar_observed_at := observed_at |> <| ar_updated_at := now |>.

Definition upsert_content (now : Z) (user source key : string) (c : content) (observed_at : Z) : act public_activity :=
  existing ← read (λ s, fetchone (has_key user source key) (records s));
  match existing with
  | Some row =>
      if ar_content row == c then mret (_public_activity row)
      else
        modify (λ s, s <| records ::= update (λ r, ar_id r == ar_id row) (revise c observed_at now) |>);;
        _record_activity_change now (revise c observed_at now row);;
        mret (_public_activity (revise c observed_at now row))
  | None =>
      sequence ← read (λ s, _next_sequence s user);
      let row := mkRecord (_record_id user source key) user source key sequence 1 c observed_at now now in
      insert_record row;;
      _record_activity_change now row;;
      mret (_public_activity row)
  end.

Definition _upsert_activity (now : Z) (user source : string) (a : activity_args) : act public_activity :=
  co ← lift (validate_activity now user source a);
  upsert_content now user source (a_record_key a) co.1 co.2.

(** ** Sources *)

Definition get_source_state (s : activity_db) (user source stream : string) : option source_row :=
  fetchone (is_source user source stream) (sources s).

Definition _validate_source_identity (user source stream : string) : res act_error unit :=
  ensure (bounded_id 128 user && bounded_id 128 source && negb (_contains_sensitive_text source) &&
          bounded_id 128 stream && negb (_contains_sensitive_text stream)) AValueError.

(** [int(s)] on a decimal text *)
Fixpoint decimal (acc : Z) (s : string) : Z :=
  match s with
  | EmptyString => acc
  | String c s' => decimal (10 * acc + (Z.of_nat (Ascii.nat_of_ascii c) - 48)) s'
  end.
Definition after_policy (p : string) : bool :=
  startswith "after:" p &&
  let n := str_drop 6 p in (n == "0") || (is_number n && (str_len n <=? 16)).

Definition fresh_source (user source stream policy : string) (st : string) : source_row :=
  mkSource user source stream policy 0 "" 0 st None None None None None 0 0 0.

(** The [WHERE] of the [DO UPDATE]: a faulted source that never advanced. *)
Definition restartable (r : source_row) : bool :=
  (so_state r == "fault") && (so_cursor r =? 0) && (so_prefix r == "") && (so_tail r =? 0) && (so_accepted r =? 0).

Definition valid_cursor (policy : string) (cursor tail : Z) : bool :=
  negb ((Z.min cursor tail <? 0) || (tail <? cursor) || (MAX_SAFE_INTEGER <? tail) ||
        ((policy == "from-start") && negb (cursor =? 0)) || ((policy == "tail") && negb (cursor =? tail)) ||
        (startswith "after:" policy && negb (decimal 0 (str_drop 6 policy) =? cursor))).
Definition prefix_matches (cursor : Z) (prefix : string) : bool :=
  if cursor =? 0 then prefix == "" else _SAFE_HASH prefix.

Definition upsert_source (now : Z) (user source stream policy : string) (cursor : Z) (prefix : string) (tail : Z)
    (t : list source_row) : list source_row :=
  let key := is_source user source stream in
  if exists_row key t then
    update (λ r, key r && restartable r)
      (λ r, r <| so_bootstrap := policy |> <| so_cursor := cursor |> <| so_prefix := prefix |> <| so_tail := tail |>
              <| so_state := "available" |> <| so_error_code := None |> <| so_error_detail := None |>
              <| so_reconciled_at := Some now |>) t
  else t ++ [fresh_source user source stream policy "available"
               <| so_cursor := cursor |> <| so_prefix := prefix |> <| so_tail := tail |>
               <| so_reconciled_at := Some now |>].

Definition initialize_source (now : Z) (user source stream policy : string) (cursor : Z) (prefix : string) (tail : Z)
    : act source_row :=
  lift (_validate_source_identity user source stream);;
  require ((policy == "tail") || (policy == "from-start") || after_policy policy) AValueError;;
  require (valid_cursor policy cursor tail) AValueError;;
  require (prefix_matches cursor prefix) AValueError;;
  modify (λ s, s <| sources ::= upsert_source now user source stream policy cursor prefix tail |>);;
  state ← read (λ s, get_source_state s user source stream);
  lift (of_option ARuntimeError state).

Definition insert_event (e : source_event) : act unit := λ s,
  match insert event_clash e (events s) with
  | Some t => Ok (tt, s <| events := t |>)
  | None => Err AIntegrityError
  end.

Definition conflicting {A} (o : option A) : res act_error A := of_option ASourceEventConflict o.

(** The checks on one element of the batch. *)
Record checked_item := {
  k_event_id : string; k_hash : string; k_kind : string; k_occurred_at : option Z; k_payload : string;
  k_activity : option activity_args;
}.
Definition check_item (cursor tail : Z) (item : event_item) : res act_error checked_item :=
  event_id ← bounded_text (i_event_id item) 200 true;
  hash ← _validate_hash (i_payload_sha256 item);
  ensure (bool_decide (i_cursor item = Some cursor) && (cursor <=? tail)) ASourceEventConflict;;
  kind ← conflicting (i_kind item);
  ensure ((i_audience item == Some "captain") && among SOURCE_EVENT_KINDS kind) ASourceEventConflict;;
  ensure (match i_occurred_at item with Some t => in_time t | None => true end) ASourceEventConflict;;
  payload ← conflicting (i_payload item);
  encoded ← canonical_json (JObj payload);
  ensure (utf8_length encoded <=? MAX_SOURCE_PAYLOAD_BYTES) ASourceEventConflict;;
  Ok {| k_event_id := event_id; k_hash := hash; k_kind := kind; k_occurred_at := i_occurred_at item;
        k_payload := encoded; k_activity := i_activity item |}.

Definition in_stream (user source stream : string) (e : source_event) : bool :=
  (se_user e == user) && (se_source e == source) && (se_stream e == stream).

(** One element: [true] is an accepted event, [false] a duplicate. *)
Definition apply_item (now : Z) (user source stream : string) (cursor tail : Z) (item : event_item)
    : act (bool * option public_activity) :=
  k ← lift (check_item cursor tail item);
  duplicate ← read (λ s, fetchone (λ e, in_stream user source stream e && (se_event_id e == k_event_id k)) (events s));
  match duplicate with
  | Some d =>
      require ((se_cursor d =? cursor) && (se_payload_sha256 d == k_hash k)) ASourceEventConflict;;
      mret (false, None)
  | None =>
      cursor_duplicate ← read (λ s, exists_row (λ e, in_stream user source stream e && (se_cursor e =? cursor)) (events s));
      require (negb cursor_duplicate) ASourceEventConflict;;
      insert_event (mkEvent (_source_row_id user source stream (k_event_id k)) user source stream (k_event_id k)
        cursor (k_hash k) (k_kind k) "captain" (k_occurred_at k) (k_payload k) now);;
      match k_activity k with
      | Some a =>
          p ← _upsert_activity now user source
                (a <| a_event_id := Some (k_event_id k) |> <| a_payload_sha256 := k_hash k |>);
          mret (true, Some p)
      | None => mret (true, None)
      end
  end.

Definition opt_list {A} (o : option A) : list A := match o with Some a => [a] | None => [] end.

(** The loop; [cursor] is the position before the first element. *)
Fixpoint apply_items (now : Z) (user source stream : string) (cursor tail : Z) (items : list event_item)
    : act (Z * Z * list public_activity) :=
  match items with
  | [] => mret (0, 0, [])
  | item :: items' =>
      r ← apply_item now user source stream (cursor + 1) tail item;
      rest ← apply_items now user source stream (cursor + 1) tail items';
      mret (if r.1 : bool then rest.1.1 + 1 else rest.1.1, if r.1 : bool then rest.1.2 else rest.1.2 + 1, opt_list r.2 ++ rest.2)
  end.

Definition apply_source_event_batch (now : Z) (user source stream : string) (expected_cursor : Z)
    (items : list event_item) (new_cursor : Z) (new_prefix : string) (source_tail : Z) : act (list public_activity) :=
  lift (_validate_source_identity user source stream);;
  require (negb ((Z.min expected_cursor (Z.min new_cursor source_tail) <? 0) || (new_cursor <? expected_cursor) ||
                 (source_tail <? new_cursor) || (MAX_SAFE_INTEGER <? source_tail) ||
                 negb (Z.of_nat (length items) =? new_cursor - expected_cursor))) ASourceEventConflict;;
  require (prefix_matches new_cursor new_prefix) ASourceEventConflict;;
  src ← read (λ s, get_source_state s user source stream);
  src ← lift (conflicting src);
  require (so_cursor src =? expected_cursor) ASourceEventConflict;;
  r ← apply_items now user source stream expected_cursor source_tail items;
  modify (λ s, s <| sources ::= update (is_source user source stream) (λ o,
    o <| so_cursor := new_cursor |> <| so_prefix := new_prefix |> <| so_tail := source_tail |>
      <| so_state := "available" |> <| so_error_code := None |> <| so_error_detail := None |>
      <| so_reconciled_at := Some now |> <| so_accepted ::= Z.add r.1.1 |> <| so_duplicate ::= Z.add r.1.2 |>) |>);;
  mret r.2.

Definition snapshot_policy (p : string) : bool :=
  (p == "tail") || (p == "from-start") || (p == "snapshot-current") || after_policy p.

Definition mark_source_fault (now : Z) (user source stream code detail policy : string) (conflict : bool) : act unit :=
  lift (_validate_source_identity user source stream);;
  require (snapshot_policy policy) AValueError;;
  code ← lift (bounded_text (Some code) 64 true);
  detail ← lift (bounded_text (Some detail) 240 true);
  let n := if conflict then 1 else 0 in
  let key := is_source user source stream in
  modify (λ s, s <| sources ::= λ t,
    if exists_row key t then
      update key (λ r, r <| so_state := "fault" |> <| so_error_code := Some code |> <| so_error_detail := Some detail |>
                         <| so_reconciled_at := Some now |> <| so_conflict ::= Z.add n |>) t
    else t ++ [fresh_source user source stream policy "fault" <| so_error_code := Some code |>
                 <| so_error_detail := Some detail |> <| so_reconciled_at := Some now |> <| so_conflict := n |>] |>).

(** ** Snapshot reconciliation *)

Definition valid_decision_identity (identity : string) : bool :=
  match split (Ascii.ascii_of_nat 0) identity with
  | [task; key] =>
      (0 <? str_len task) && (str_len task <=? 200) && (0 <? str_len key) && (str_len key <=? 128) &&
      negb (_has_controls task) && negb (_has_controls key)
  | _ => false
  end.

Definition decision_identity (r : activity_row) : string :=
  default "None" (task_id (ar_content r)) +:+ NUL +:+ default "None" (decision_key (ar_content r)).

Definition open_decision (user source : string) (r : activity_row) : bool :=
  (ar_user r == user) && (ar_source r == source) &&
  (kind (ar_content r) == "decision.requested") && (state (ar_content r) == "awaiting-user").

Fixpoint reconcile_candidates (now : Z) (user source : string) (observed_at : Z) (cs : list activity_args)
    : act (list public_activity) :=
  match cs with
  | [] => mret []
  | c :: cs' =>
      before ← read (λ s, fetchone (has_key user source (a_record_key c)) (records s));
      p ← _upsert_activity now user source (c <| a_observed_at := Some observed_at |>);
      rest ← reconcile_candidates now user source observed_at cs';
      mret (match before with
            | Some b => if ar_revision b =? p_revision p then rest else p :: rest
            | None => p :: rest
            end)
  end.

Definition resolution (row : activity_row) (hash : string) (observed_at : Z) : activity_args :=
  let c := ar_content row in
  {| a_record_key := ar_key row; a_kind := "decision.resolved"; a_state := "resolved"; a_importance := "routine";
     a_title := title c;
     a_summary := "Decision is no longer open in the authoritative Firstmate snapshot.";
     a_payload_sha256 := hash; a_truncated := false; a_event_id := None; a_task_id := task_id c;
     a_decision_key := decision_key c; a_objective_id := objective_id c; a_run_id := run_id c;
     a_project := project c; a_occurred_at := None; a_observed_at := Some observed_at;
     a_refs := Some (map ref_json (_decode_refs (refs_json c))) |}.
Definition opt_json (o : option string) : json := match o with Some s => JStr s | None => JNull end.

Fixpoint resolve_decisions (now : Z) (user source : string) (observed_at : Z) (snapshot : string)
    (open_keys : list string) (rows : list activity_row) : act (list public_activity) :=
  match rows with
  | [] => mret []
  | row :: rows' =>
      if among open_keys (decision_identity row) then resolve_decisions now user source observed_at snapshot open_keys rows'
      else
        encoded ← lift (canonical_json (JObj
          [("kind", JStr "decision.resolved"); ("task_id", opt_json (task_id (ar_content row)));
           ("decision_key", opt_json (decision_key (ar_content row))); ("snapshot", JStr snapshot)]));
        p ← _upsert_activity now user source (resolution row (sha256_hex encoded) observed_at);
        rest ← resolve_decisions now user source observed_at snapshot open_keys rows';
        mret (p :: rest)
  end.

Definition FLEET_SNAPSHOT : string := "fleet-snapshot".

(** The test of a delayed or contradictory snapshot: [true] returns early. *)
Definition stale_snapshot (observed_at : Z) (hash : string) (src : source_row) : res act_error bool :=
  match so_snapshot_at src with
  | None => Ok false
  | Some previous =>
      if observed_at <? previous then Ok true
      else if (observed_at =? previous) &&
              match so_snapshot_sha256 src with
              | Some h => (h != "") && (h != hash)
              | None => false
              end
      then Err ASourceEventConflict
      else Ok false
  end.

Definition reconcile_snapshot (now : Z) (user source : string) (observed_at : Z) (snapshot : string)
    (candidates : list activity_args) (raw_open_keys : list string) : act (list public_activity) :=
  require (bounded_id 128 user) AValueError;;
  require (bounded_id 128 source) AValueError;;
  require (in_time observed_at) AValueError;;
  lift (_validate_hash (Some snapshot));;
  require ((Z.of_nat (length candidates) <=? MAX_SNAPSHOT_ACTIVITY_RECORDS) &&
           (Z.of_nat (length raw_open_keys) <=? MAX_SNAPSHOT_ACTIVITY_RECORDS)) AValueError;;
  require (forallb (λ c, a_record_key c != "") candidates && bool_decide (NoDup (map a_record_key candidates))) AValueError;;
  require (forallb valid_decision_identity raw_open_keys && bool_decide (NoDup raw_open_keys)) AValueError;;
  src ← read (λ s, get_source_state s user source FLEET_SNAPSHOT);
  stale ← match src with
          | None =>
              modify (λ s, s <| sources ::= λ t, t ++ [fresh_source user source FLEET_SNAPSHOT "snapshot-current" "available"
                <| so_reconciled_at := Some now |> <| so_snapshot_at := Some observed_at |>
                <| so_snapshot_sha256 := Some snapshot |>] |>);;
              mret false
          | Some src => lift (stale_snapshot observed_at snapshot src)
          end;
  if stale : bool then mret []
  else
    changed ← reconcile_candidates now user source observed_at candidates;
    rows ← read (λ s, select (open_decision user source) (records s));
    resolved ← resolve_decisions now user source observed_at snapshot raw_open_keys rows;
    modify (λ s, s <| sources ::= update (is_source user source FLEET_SNAPSHOT) (λ o,
      o <| so_state := "available" |> <| so_error_code := None |> <| so_error_detail := None |>
        <| so_reconciled_at := Some now |> <| so_snapshot_at := Some observed_at |>
        <| so_snapshot_sha256 := Some snapshot |>) |>);;
    mret (changed ++ resolved).

(** ** Reads *)

(** [a.objective_id = b.objective_id]: false on [NULL]. *)
Definition same_objective (a b : activity_row) : bool :=
  match objective_id (ar_content a), objective_id (ar_content b) with
  | Some x, Some y => x == y
  | _, _ => false
  end.
Definition is_live (user : string) (r : activity_row) : bool :=
  of_user user r && among ["objective.started"; "objective.progress"; "objective.accepted"] (kind (ar_content r)) &&
  among ["active"; "awaiting-user"] (state (ar_content r)).
Definition is_over (user : string) (r : activity_row) : bool :=
  of_user user r && among ["objective.completed"; "objective.failed"; "objective.cancelled"] (kind (ar_content r)) &&
  among ["completed"; "failed"; "cancelled"] (state (ar_content r)).
Definition over (t : list activity_row) (user : string) (r : activity_row) : bool :=
  exists_row (λ x, is_over user x && same_objective x r) t.
Definition pending_decision (user : string) (r : activity_row) : bool :=
  of_user user r && (kind (ar_content r) == "decision.requested") && (state (ar_content r) == "awaiting-user").
(** [COUNT(DISTINCT f)] *)
Definition count_distinct (l : list string) : Z := Z.of_nat (length (remove_dups l)).

(** [NOT LIKE 'objective.%'] on the lower-case kinds. *)
Definition is_operation (user : string) (r : activity_row) : bool :=
  of_user user r && negb (startswith "objective." (kind (ar_content r))) && negb (startswith "decision." (kind (ar_content r))).

Definition _activity_summary (s : activity_db) (user : string) : summary_counts :=
  let t := records s in
  {| n_active := count_distinct (omap (λ r, objective_id (ar_content r))
       (select (λ r, is_live user r && negb (over t user r)) t));
     n_operations := count (λ r, is_operation user r &&
       exists_row (λ o, is_live user o && same_objective o r) t && negb (over t user r)) t;
     n_pending := count (pending_decision user) t |}.

Definition delivery_sequence (s : activity_db) (r : activity_row) : option Z :=
  max_of ch_sequence (λ c, (ch_user c == ar_user r) && (ch_record c == ar_id r)) (changes s).
Definition deliver (s : activity_db) (r : activity_row) : res act_error (public_activity * Z) :=
  match delivery_sequence s r with
  | Some d => Ok (_public_activity r, d)
  | None => Err ARuntimeError
  end.

Definition newest_first (a b : activity_row) : bool := ar_sequence b <=? ar_sequence a.

Definition snapshot_activity (user : string) (before : option Z) (limit : Z) (s : activity_db) : res act_error snapshot_page :=
  ensure (bounded_id 128 user) AValueError;;
  ensure (match before with Some b => (1 <=? b) && (b <=? MAX_SAFE_INTEGER) | None => true end) AValueError;;
  let limit := clamp limit MAX_ACTIVITY_PAGE in
  let latest := default 0 (max_of ar_sequence (of_user user) (records s)) in
  let page_before := default (latest + 1) before in
  let rows := take (limit + 1) (order_by newest_first
                (select (λ r, of_user user r && (ar_sequence r <? page_before)) (records s))) in
  let page := take limit rows in
  let focus := take (MAX_ACTIVITY_FOCUS_RECORDS + 1) (order_by newest_first
                 (select (λ r, (is_live user r && negb (over (records s) user r)) || pending_decision user r) (records s))) in
  page_out ← map_res (deliver s) page;
  focus_out ← map_res (deliver s) (take MAX_ACTIVITY_FOCUS_RECORDS focus);
  let more := limit <? Z.of_nat (length rows) in
  Ok {| snap_records := page_out; snap_focus := focus_out;
        snap_focus_truncated := MAX_ACTIVITY_FOCUS_RECORDS <? Z.of_nat (length focus);
        snap_cursor := latest_change s user; snap_latest := latest;
        snap_next_before := if more then ar_sequence <$> last page else None;
        snap_more := more; snap_summary := _activity_summary s user |}.

Definition oldest_change_first (a b : change_row) : bool := ch_sequence a <=? ch_sequence b.

(** The page starts at [after + 1] and has no gap. *)
Fixpoint contiguous (after : Z) (page : list change_row) : bool :=
  match page with
  | [] => true
  | c :: page' => (ch_sequence c =? after + 1) && contiguous (after + 1) page'
  end.
Definition deliver_change (s : activity_db) (user : string) (c : change_row) : res act_error (public_activity * Z) :=
  match fetchone (λ r, of_user user r && (ar_id r == ch_record c)) (records s) with
  | None => Err ARuntimeError
  | Some r => if ar_revision r <? ch_revision c then Err ARuntimeError else Ok (_public_activity r, ch_sequence c)
  end.

Definition list_activity (user : string) (after limit : Z) (s : activity_db) : res act_error change_page :=
  ensure (bounded_id 128 user) AValueError;;
  ensure (in_time after) AValueError;;
  let limit := clamp limit MAX_ACTIVITY_PAGE in
  let rows := take (limit + 1) (order_by oldest_change_first
                (select (λ c, change_of_user user c && (after <? ch_sequence c)) (changes s))) in
  let latest := latest_change s user in
  ensure (negb (latest <? after)) AValueError;;
  let page := take limit rows in
  ensure (contiguous after page) ARuntimeError;;
  out ← map_res (deliver_change s user) page;
  Ok {| page_records := out; page_next := from_option ch_sequence after (last page);
        page_latest := latest; page_more := limit <? Z.of_nat (length rows);
        page_summary := _activity_summary s user |}.

Definition recent_activity (user : string) (limit : Z) (s : activity_db) : list public_activity :=
  map _public_activity (take (clamp limit 50) (order_by newest_first (select (of_user user) (records s)))).

End Store.
