(* ===== verification/ActivityInvariant.v ===== *)
(** * Invariants of the activity store

    The change feed of every user is numbered [1, 2, ...] without a gap and
    agrees with the records, and the journal of every source is numbered
    contiguously up to its cursor. Every operation preserves both. *)

From stdpp Require Import base option list strings numbers sets.
From Stdlib Require Import ZArith Lia.
From S2P Require Import Prelude Sql Feed Json Text Activity.

Open Scope string_scope.
Open Scope list_scope.
Open Scope Z_scope.

(** ** The records and the change feed *)

Definition record_key (r : activity_row) : string * string * string := (ar_user r, ar_source r, ar_key r).

Record feed_ok (s : activity_db) : Prop := {
  feed_ids : NoDup (map ar_id (records s));
  feed_keys : NoDup (map record_key (records s));
  feed_sequence : ∀ u, numbered ar_sequence (of_user u) 0 (records s);
  feed_changes : ∀ u, numbered ch_sequence (change_of_user u) 0 (changes s);
  feed_change : ∀ c, c ∈ changes s →
    ∃ r, r ∈ records s ∧ ar_id r = ch_record c ∧ ar_user r = ch_user c ∧ ch_revision c ≤ ar_revision r;
  feed_record : ∀ r, r ∈ records s →
    ∃ c, c ∈ changes s ∧ ch_record c = ar_id r ∧ ch_user c = ar_user r ∧ ch_revision c = ar_revision r;
}.

Lemma record_clash_id a b : ar_id a = ar_id b → record_clash a b = true.
Proof. intros E. unfold record_clash. by rewrite (bool_decide_eq_true_2 _ E). Qed.

Lemma record_clash_key a b : record_key a = record_key b → record_clash a b = true.
Proof.
  unfold record_clash. intros [= -> -> ->]. rewrite !(bool_decide_eq_true_2 _ eq_refl). simpl. by rewrite orb_true_r.
Qed.

(** Appending the next change of a row that the feed may announce. *)
Lemma insert_change_ok (c : change_row) s (u : unit) s' :
  insert_change c s = Ok (u, s') → s' = s <| changes ::= (λ t, t ++ [c]) |>.
Proof.
  unfold insert_change. destruct (insert _ _ _) as [t|] eqn:E; [|done]. intros [= _ <-].
  apply insert_some in E as [-> _]. done.
Qed.

Lemma record_change_ok now row s n s' :
  _record_activity_change now row s = Ok (n, s') →
  s' = s <| changes ::= (λ t, t ++ [mkChange (ar_user row) (latest_change s (ar_user row) + 1) (ar_id row) (ar_revision row) now]) |>.
Proof.
  unfold _record_activity_change. intros H. apply bind_ok in H as (l & s1 & [<- <-]%read_ok & H).
  apply bind_ok in H as (u & s2 & Hi%insert_change_ok & [_ <-]%ret_ok). done.
Qed.

Lemma latest_is_count s u : feed_ok s → latest_change s u = count (change_of_user u) (changes s).
Proof. intros H. unfold latest_change. apply numbered_max, (feed_changes _ H). Qed.

Lemma changes_next s row c u :
  feed_ok s → ch_user c = ar_user row → ch_sequence c = latest_change s (ar_user row) + 1 →
  numbered ch_sequence (change_of_user u) 0 (changes s ++ [c]).
Proof.
  intros H Hu Hq. destruct (change_of_user u c) eqn:E.
  - apply numbered_next; [done| |apply (feed_changes _ H)].
    apply eqb_true in E. rewrite Hq, <- Hu, E, latest_is_count by done. lia.
  - by apply numbered_skip, (feed_changes _ H).
Qed.

(** A new record, announced by its first change. *)
Lemma feed_insert now row s (u1 : unit) s1 n s' :
  feed_ok s → ar_sequence row = _next_sequence s (ar_user row) →
  insert_record row s = Ok (u1, s1) → _record_activity_change now row s1 = Ok (n, s') → feed_ok s'.
Proof.
  intros H Hq Hi Hc. unfold insert_record in Hi. destruct (insert _ _ _) as [t|] eqn:E; [|done].
  injection Hi as _ <-. pose proof E as E'. apply insert_some in E' as [-> _]. apply record_change_ok in Hc as ->.
  cbn. constructor; cbn.
  - eapply insert_NoDup; [apply record_clash_id|exact E|apply H].
  - eapply insert_NoDup; [apply record_clash_key|exact E|apply H].
  - intros u. destruct (of_user u row) eqn:Eu; [|by apply numbered_skip, H].
    apply numbered_next; [done| |apply H]. apply eqb_true in Eu as <-. rewrite Hq. unfold _next_sequence.
    pose proof (numbered_max _ _ _ (feed_sequence _ H (ar_user row))) as Hm.
    destruct (max_of _ _ _); simpl in Hm; lia.
  - intros u. by eapply changes_next.
  - intros c [Hin| ->%list_elem_of_singleton]%elem_of_app.
    + destruct (feed_change _ H c Hin) as (r & Hr & ?). exists r. set_solver.
    + exists row. cbn. split; [set_solver|]. split_and!; done.
  - intros r [Hin| ->%list_elem_of_singleton]%elem_of_app.
    + destruct (feed_record _ H r Hin) as (c & Hc & ?). exists c. set_solver.
    + eexists. split; [apply elem_of_app; right; by apply list_elem_of_singleton|]. done.
Qed.

(** A revised record, announced by its new revision. *)
Lemma feed_revise now c t row s n s' :
  feed_ok s → row ∈ records s →
  _record_activity_change now (revise c t now row)
    (s <| records ::= update (λ r, ar_id r == ar_id row) (revise c t now) |>) = Ok (n, s') → feed_ok s'.
Proof.
  intros H Hrow Hc. apply record_change_ok in Hc as ->. cbn.
  set (up := update (λ r, ar_id r == ar_id row) (revise c t now) (records s)).
  assert (∀ r, r ∈ records s → (ar_id r == ar_id row) = true → r = row) as Huniq.
  { intros r Hr E%eqb_true. eapply NoDup_key_inj; [apply (feed_ids _ H)|done|done|done]. }
  assert (revise c t now row ∈ up) as Hrev.
  { subst up. apply elem_of_update. exists row. by rewrite eqb_refl. }
  constructor; cbn; fold up.
  - subst up. rewrite map_update; [apply H|done].
  - subst up. rewrite map_update; [apply H|done].
  - intros u. subst up. apply numbered_update; [done|done|apply H].
  - intros u. by eapply (changes_next s row).
  - intros ch [Hin| ->%list_elem_of_singleton]%elem_of_app.
    + destruct (feed_change _ H ch Hin) as (r & Hr & Hid & Hu & Hle).
      destruct (decide (ar_id r = ar_id row)) as [Ed|Ed].
      * assert (r = row) as -> by (apply Huniq; [done|by apply bool_decide_eq_true]).
        exists (revise c t now row). cbn. split; [done|]. split_and!; [done|done|lia].
      * exists r. split_and!; [|done..]. subst up. apply elem_of_update. exists r. by rewrite (eqb_neq _ _ Ed).
    + exists (revise c t now row). cbn. done.
  - intros r Hin. subst up. apply elem_of_update in Hin as (r' & Hr' & ->); destruct (ar_id r' == ar_id row) eqn:Ed.
    + apply Huniq in Ed as ->; [|done]. eexists. split; [apply elem_of_app; right; by apply list_elem_of_singleton|]. done.
    + destruct (feed_record _ H r' Hr') as (ch & Hch & ?). exists ch. set_solver.
Qed.

Section Operations.
Context `{TextEngine, Codec}.

Lemma upsert_content_feed now user source key c t :
  preserves feed_ok (upsert_content now user source key c t).
Proof.
  intros s p s' Hs Hm. unfold upsert_content in Hm. apply bind_ok in Hm as (e & s1 & [<- <-]%read_ok & Hm).
  destruct (fetchone _ _) as [row|] eqn:E.
  - apply fetchone_some in E as [Hrow _]. case_match; [by apply ret_ok in Hm as [_ <-]|].
    apply bind_ok in Hm as (v & s2 & ->%modify_ok & Hm). apply bind_ok in Hm as (n & s3 & Hc & [_ <-]%ret_ok).
    by eapply feed_revise.
  - apply bind_ok in Hm as (q & s2 & [<- <-]%read_ok & Hm). apply bind_ok in Hm as (v & s3 & Hi & Hm).
    apply bind_ok in Hm as (n & s4 & Hc & [_ <-]%ret_ok). eapply feed_insert; [done| |done|done]. done.
Qed.

(** An upsert touches neither journals nor sources. *)
Lemma insert_change_frame (P : list source_event → list source_row → Prop) c :
  preserves (λ s, P (events s) (sources s)) (insert_change c).
Proof. by intros s u s' Hs ->%insert_change_ok. Qed.
Lemma insert_record_frame (P : list source_event → list source_row → Prop) r :
  preserves (λ s, P (events s) (sources s)) (insert_record r).
Proof. intros s u s' Hs Hi. unfold insert_record in Hi. case_match; [|done]. by injection Hi as _ <-. Qed.
#[local] Hint Resolve insert_change_frame insert_record_frame : preserves.

Lemma upsert_frame (P : list source_event → list source_row → Prop) now user source a :
  preserves (λ s, P (events s) (sources s)) (_upsert_activity now user source a).
Proof.
  unfold _upsert_activity, upsert_content, _record_activity_change. preserve.
  apply preserves_modify. done.
Qed.

Lemma upsert_feed now user source a : preserves feed_ok (_upsert_activity now user source a).
Proof. unfold _upsert_activity. preserve. apply upsert_content_feed. Qed.
#[local] Hint Resolve upsert_feed upsert_content_feed : preserves.

(** Statements on the other two tables leave the feed alone. *)
Lemma feed_sources f s : feed_ok s → feed_ok (s <| sources ::= f |>).
Proof. intros [????]. by constructor. Qed.
Lemma feed_events t s : feed_ok s → feed_ok (s <| events := t |>).
Proof. intros [????]. by constructor. Qed.
Lemma modify_sources_feed f : preserves feed_ok (modify (E := act_error) (λ s, s <| sources ::= f |>)).
Proof. apply preserves_modify. intros s. apply feed_sources. Qed.
Lemma insert_event_feed e : preserves feed_ok (insert_event e).
Proof. intros s u s' Hs Hi. unfold insert_event in Hi. case_match; [|done]. injection Hi as _ <-. by apply feed_events. Qed.
#[local] Hint Resolve modify_sources_feed insert_event_feed : preserves.

Lemma apply_item_feed now user source stream cursor tail item :
  preserves feed_ok (apply_item now user source stream cursor tail item).
Proof. unfold apply_item. preserve. Qed.
#[local] Hint Resolve apply_item_feed : preserves.
Lemma apply_items_feed now user source stream cursor tail items :
  preserves feed_ok (apply_items now user source stream cursor tail items).
Proof. revert cursor. induction items; intros cursor; simpl; preserve. Qed.
#[local] Hint Resolve apply_items_feed : preserves.
Lemma batch_feed now user source stream ec items nc np tail :
  preserves feed_ok (apply_source_event_batch now user source stream ec items nc np tail).
Proof. unfold apply_source_event_batch. preserve. Qed.
Lemma initialize_feed now user source stream policy c p t :
  preserves feed_ok (initialize_source now user source stream policy c p t).
Proof. unfold initialize_source. preserve. Qed.
Lemma fault_feed now user source stream code detail policy b :
  preserves feed_ok (mark_source_fault now user source stream code detail policy b).
Proof. unfold mark_source_fault. preserve. Qed.
Lemma candidates_feed now user source t cs : preserves feed_ok (reconcile_candidates now user source t cs).
Proof. induction cs; simpl; preserve. Qed.
Lemma resolve_feed now user source t h keys rows : preserves feed_ok (resolve_decisions now user source t h keys rows).
Proof. induction rows; simpl; preserve. Qed.
#[local] Hint Resolve candidates_feed resolve_feed : preserves.
Lemma reconcile_feed now user source t h cs keys : preserves feed_ok (reconcile_snapshot now user source t h cs keys).
Proof. unfold reconcile_snapshot. preserve. Qed.

(** ** Journals *)

Definition stream_of (o : source_row) : source_event → bool := in_stream (so_user o) (so_source o) (so_stream o).
Definition source_key (o : source_row) : string * string * string := (so_user o, so_source o, so_stream o).

Record journal_ok (s : activity_db) : Prop := {
  journal_keys : NoDup (map source_key (sources s));
  journal_events : ∀ o, o ∈ sources s →
    numbered se_cursor (stream_of o) (so_cursor o - so_accepted o) (events s) ∧
    count (stream_of o) (events s) = so_accepted o ∧ so_duplicate o = 0;
  journal_owned : ∀ e, e ∈ events s → ∃ o, o ∈ sources s ∧ stream_of o e = true;
}.

(** The event [e] records [item] at position [cursor]. *)
Definition records_item (user source stream : string) (cursor : Z) (item : event_item) (e : source_event) : Prop :=
  in_stream user source stream e = true ∧ se_cursor e = cursor ∧ i_cursor item = Some cursor ∧
  i_payload_sha256 item = Some (se_payload_sha256 e).

Lemma check_item_ok cursor tail item k :
  check_item cursor tail item = Ok k → i_cursor item = Some cursor ∧ i_payload_sha256 item = Some (k_hash k).
Proof.
  unfold check_item, _validate_hash. intros Hk. apply res_bind_ok in Hk as (id & _ & Hk).
  apply res_bind_ok in Hk as (h & Hh & Hk). apply res_bind_ok in Hk as (u & Hc%ensure_ok & Hk). bools.
  tx_inv. cbn. done.
Qed.

Lemma in_stream_self user source stream id ev c h k a o p n :
  in_stream user source stream (mkEvent id user source stream ev c h k a o p n) = true.
Proof. unfold in_stream. cbn. by rewrite !eqb_refl. Qed.

Lemma apply_item_journal now user source stream cursor tail item s r s' b :
  numbered se_cursor (in_stream user source stream) b (events s) →
  b + count (in_stream user source stream) (events s) = cursor →
  apply_item now user source stream (cursor + 1) tail item s = Ok (r, s') →
  r.1 = true ∧ sources s' = sources s ∧
  ∃ e, events s' = events s ++ [e] ∧ records_item user source stream (cursor + 1) item e.
Proof.
  intros Hn Hc Ha. unfold apply_item in Ha. apply bind_ok in Ha as (k & s1 & [Hk <-]%lift_ok & Ha).
  apply check_item_ok in Hk as [Hcur Hh]. apply bind_ok in Ha as (d & s2 & [<- <-]%read_ok & Ha).
  destruct (fetchone _ _) as [d|] eqn:E.
  { exfalso. apply fetchone_some in E as [Hd Hp]. bools. pose proof (numbered_elem _ _ _ _ _ Hn Hd H1).
    apply bind_ok in Ha as (u & s3 & [Hr _]%require_ok & _). bools. lia. }
  apply bind_ok in Ha as (x & s3 & [<- <-]%read_ok & Ha). apply bind_ok in Ha as (u & s3 & [_ <-]%require_ok & Ha).
  apply bind_ok in Ha as (v & s4 & Hi & Ha). unfold insert_event in Hi.
  destruct (insert _ _ _) as [t|] eqn:Ei; [|done]. injection Hi as _ <-. apply insert_some in Ei as [-> _].
  set (e := mkEvent _ _ _ _ _ _ _ _ _ _ _ _) in *.
  assert (r.1 = true ∧ sources s' = sources s ∧ events s' = events s ++ [e]) as (? & ? & ?).
  { destruct (k_activity k) as [a|]; [|by apply ret_ok in Ha as [<- <-]].
    apply bind_ok in Ha as (p & s5 & Hu & [<- <-]%ret_ok).
    apply (upsert_frame (λ ev so, ev = events s ++ [e] ∧ so = sources s)) in Hu as [-> ->]; [|done]. done. }
  split_and!; [done..|]. exists e. split; [done|]. split_and!; [apply in_stream_self|done..].
Qed.

Lemma in_stream_key user source stream e :
  in_stream user source stream e = true ↔ (user, source, stream) = (se_user e, se_source e, se_stream e).
Proof. unfold in_stream. rewrite !andb_true_iff, !bool_decide_eq_true. naive_solver. Qed.

Lemma apply_items_journal now user source stream tail items cursor s r s' b :
  numbered se_cursor (in_stream user source stream) b (events s) →
  b + count (in_stream user source stream) (events s) = cursor →
  apply_items now user source stream cursor tail items s = Ok (r, s') →
  r.1 = (Z.of_nat (length items), 0) ∧ sources s' = sources s ∧
  ∃ es, events s' = events s ++ es ∧ numbered se_cursor (in_stream user source stream) b (events s') ∧
        count (in_stream user source stream) (events s') = count (in_stream user source stream) (events s) + Z.of_nat (length items) ∧
        Forall (λ e, in_stream user source stream e = true) es ∧
        map Some (map se_cursor es) = map i_cursor items ∧ map Some (map se_payload_sha256 es) = map i_payload_sha256 items.
Proof.
  revert cursor s r. induction items as [|item items IH]; intros cursor s r Hn Hc Ha; simpl in Ha.
  - apply ret_ok in Ha as [<- <-]. split; [done|]. split; [done|]. exists []. rewrite app_nil_r. simpl. split_and!; try done; lia.
  - apply bind_ok in Ha as (r1 & s1 & H1 & Ha). apply bind_ok in Ha as (r2 & s2 & H2 & [<- <-]%ret_ok).
    eapply apply_item_journal in H1 as (Hr1 & Hs1 & e & He & Hin & Hcu & Hic & Hih); [|done|done].
    assert (numbered se_cursor (in_stream user source stream) b (events s1)) as Hn1.
    { rewrite He. apply numbered_next; [done|lia|done]. }
    assert (count (in_stream user source stream) (events s1) = count (in_stream user source stream) (events s) + 1) as Hc1.
    { rewrite He, count_snoc, Hin. done. }
    eapply IH in H2 as (Hr2 & Hs2 & es & He2 & Hn2 & Hc2 & Hf & Hm & Hh); [|exact Hn1|rewrite Hc1; lia].
    rewrite Hr1, Hr2. cbn. split; [f_equal; lia|]. split; [congruence|]. exists (e :: es).
    rewrite He2, He, <- app_assoc. rewrite He2, He, <- app_assoc in Hn2, Hc2.
    split_and!; [done|done|rewrite Hc2, count_snoc, Hin; lia|by constructor|simpl; congruence|simpl; congruence].
Qed.

(** Appending the events of one stream leaves the others as they were. *)
Lemma other_stream user source stream o es t :
  Forall (λ e, in_stream user source stream e = true) es → source_key o ≠ (user, source, stream) →
  select (stream_of o) (t ++ es) = select (stream_of o) t.
Proof.
  intros Hf Hne. unfold select. rewrite List.filter_app. rewrite <- app_nil_r. f_equal.
  induction Hf as [|e es He _ IH]; simpl; [done|]. destruct (stream_of o e) eqn:E; [|done].
  apply in_stream_key in He, E. exfalso. apply Hne. unfold source_key. congruence.
Qed.

Lemma is_source_key user source stream o : is_source user source stream o = true ↔ source_key o = (user, source, stream).
Proof. unfold is_source, source_key. rewrite !andb_true_iff, !bool_decide_eq_true. naive_solver. Qed.

(** What an accepted batch does: exactly its events, in order, and the cursor. *)
Lemma batch_effect now user source stream ec items nc np tail s out s' :
  journal_ok s → apply_source_event_batch now user source stream ec items nc np tail s = Ok (out, s') →
  ∃ o es, o ∈ sources s ∧ source_key o = (user, source, stream) ∧ so_cursor o = ec ∧ nc = ec + Z.of_nat (length items) ∧
    events s' = events s ++ es ∧ Forall (λ e, in_stream user source stream e = true) es ∧
    map Some (map se_cursor es) = map i_cursor items ∧ map Some (map se_payload_sha256 es) = map i_payload_sha256 items ∧
    numbered se_cursor (stream_of o) (ec - so_accepted o) (events s') ∧
    count (stream_of o) (events s') = so_accepted o + Z.of_nat (length items) ∧
    sources s' = update (is_source user source stream) (λ o,
      o <| so_cursor := nc |> <| so_prefix := np |> <| so_tail := tail |>
        <| so_state := "available" |> <| so_error_code := None |> <| so_error_detail := None |>
        <| so_reconciled_at := Some now |> <| so_accepted ::= Z.add (Z.of_nat (length items)) |>
        <| so_duplicate ::= Z.add 0 |>) (sources s).
Proof.
  intros Hj Hb. unfold apply_source_event_batch in Hb.
  apply bind_ok in Hb as (u1 & s1 & [_ <-]%lift_ok & Hb). apply bind_ok in Hb as (u2 & s2 & [Hcur <-]%require_ok & Hb).
  apply bind_ok in Hb as (u3 & s3 & [_ <-]%require_ok & Hb). apply bind_ok in Hb as (so & s4 & [<- <-]%read_ok & Hb).
  apply bind_ok in Hb as (o & s5 & [Ho <-]%lift_ok & Hb). apply of_option_ok in Ho.
  apply bind_ok in Hb as (u4 & s6 & [Hec <-]%require_ok & Hb). apply bind_ok in Hb as (r & s7 & Hi & Hb).
  apply bind_ok in Hb as (u5 & s8 & ->%modify_ok & [<- <-]%ret_ok). bools.
  apply fetchone_some in Ho as [Ho Hk]. apply is_source_key in Hk.
  destruct (journal_events _ Hj o Ho) as (Hn & Hcount & _). unfold stream_of in *.
  pose proof Hk as Hk'. unfold source_key in Hk'. injection Hk' as <- <- <-.
  eapply apply_items_journal in Hi as (Hr & Hs & es & He & Hn' & Hc' & Hf & Hm & Hh); [|exact Hn|lia].
  exists o, es. cbn. rewrite Hr, Hs. cbn. rewrite Hec in Hn'.
  split_and!; try done; [lia|lia].
Qed.

Lemma batch_journal now user source stream ec items nc np tail :
  preserves journal_ok (apply_source_event_batch now user source stream ec items nc np tail).
Proof.
  intros s out s' Hj Hb.
  destruct (batch_effect _ _ _ _ _ _ _ _ _ _ _ _ Hj Hb) as (o & es & Ho & Hk & Hec & Hnc & He & Hf & _ & _ & Hn & Hc & Hs).
  constructor.
  - rewrite Hs, map_update; [apply Hj|done].
  - rewrite Hs. intros o' (o1 & Ho1 & ->)%elem_of_update. destruct (is_source _ _ _ o1) eqn:E.
    + apply is_source_key in E.
      assert (o1 = o) as -> by (eapply NoDup_key_inj; [apply (journal_keys _ Hj)|done|done|by rewrite E, Hk]).
      destruct (journal_events _ Hj o Ho) as (_ & _ & Hd). unfold stream_of in *. cbn. split_and!.
      * replace (nc - (Z.of_nat (length items) + so_accepted o)) with (ec - so_accepted o) by lia. done.
      * rewrite Hc. lia.
      * lia.
    + destruct (journal_events _ Hj o1 Ho1) as (Hn1 & Hc1 & Hd1).
      assert (select (stream_of o1) (events s') = select (stream_of o1) (events s)) as Hsel.
      { rewrite He. eapply other_stream; [done|]. intros Hx. apply is_source_key in Hx. congruence. }
      unfold numbered, count in *. rewrite Hsel. done.
  - intros e. rewrite He, Hs. intros [Hin|Hin]%elem_of_app.
    + destruct (journal_owned _ Hj e Hin) as (o1 & Ho1 & Hst).
      eexists. split; [apply elem_of_update; exists o1; split; [done|reflexivity]|].
      destruct (is_source _ _ _ o1); done.
    + rewrite Forall_forall in Hf. specialize (Hf e Hin).
      eexists. split; [apply elem_of_update; exists o; split; [done|reflexivity]|].
      apply is_source_key in Hk. rewrite Hk. unfold stream_of. cbn. apply is_source_key in Hk.
      unfold source_key in Hk. injection Hk as <- <- <-. done.
Qed.

(** The other statements on sources move no cursor under accepted events. *)
Lemma journal_sources_update p f s :
  (∀ o, source_key (f o) = source_key o) →
  (∀ o, o ∈ sources s → p o = true → so_accepted (f o) = so_accepted o ∧ so_duplicate (f o) = so_duplicate o ∧
        (so_cursor (f o) = so_cursor o ∨ so_accepted o = 0)) →
  journal_ok s → journal_ok (s <| sources ::= update p f |>).
Proof.
  intros Hk Hf Hj. assert (∀ o, stream_of (f o) = stream_of o) as Hst.
  { intros o. unfold stream_of. specialize (Hk o). unfold source_key in Hk. injection Hk as -> -> ->. done. }
  constructor; cbn.
  - rewrite map_update; [apply Hj|done].
  - intros o' (o & Ho & ->)%elem_of_update. destruct (p o) eqn:E; [|by apply Hj].
    destruct (Hf o Ho E) as (Ha & Hd & Hc). destruct (journal_events _ Hj o Ho) as (Hn & Hcount & Hdup).
    rewrite Hst, Ha, Hd. split_and!; [|done|done]. destruct Hc as [->|Hz]; [done|].
    unfold numbered. unfold numbered in Hn. unfold count in *. rewrite Hz in *. by destruct (select _ _).
  - intros e He. destruct (journal_owned _ Hj e He) as (o & Ho & Hs). eexists.
    split; [apply elem_of_update; exists o; split; [done|reflexivity]|]. destruct (p o); by rewrite ?Hst.
Qed.

Lemma journal_sources_new o s :
  so_accepted o = 0 → so_duplicate o = 0 → exists_row (is_source (so_user o) (so_source o) (so_stream o)) (sources s) = false →
  journal_ok s → journal_ok (s <| sources ::= (λ t, t ++ [o]) |>).
Proof.
  intros Ha Hd Hx Hj. rewrite exists_row_false in Hx.
  assert (∀ x, x ∈ sources s → source_key x ≠ source_key o) as Hne.
  { intros x Hin E. specialize (Hx x Hin). assert (is_source (so_user o) (so_source o) (so_stream o) x = true)
      by (by apply is_source_key). congruence. }
  constructor; cbn.
  - rewrite map_app. apply NoDup_app. split_and!; [apply Hj| |apply NoDup_singleton].
    intros k (x & -> & Hin)%list_elem_of_fmap Hk%list_elem_of_singleton. by apply (Hne x).
  - intros x [Hin| ->%list_elem_of_singleton]%elem_of_app; [by apply Hj|].
    assert (select (stream_of o) (events s) = []) as Hs.
    { destruct (select (stream_of o) (events s)) as [|e l] eqn:E; [done|]. exfalso.
      assert (e ∈ select (stream_of o) (events s)) as [He Hst]%elem_of_select by (rewrite E; set_solver).
      destruct (journal_owned _ Hj e He) as (y & Hy & Hsy). apply (Hne y Hy).
      apply in_stream_key in Hst, Hsy. unfold source_key. congruence. }
    unfold numbered, count. rewrite Hs, Ha, Hd. done.
  - intros e He. destruct (journal_owned _ Hj e He) as (x & Hin & Hs). exists x. set_solver.
Qed.
End Operations.
