(* ===== verification/ActivityTheorems.v ===== *)
(** * Properties of the activity store

    Over every sequence of operations: clients that replay the change feed see
    every change once and in order, journals are ingested exactly once, a
    complete snapshot closes the decisions it no longer lists, and repeating an
    upsert changes nothing. *)

From stdpp Require Import base option list sorting strings numbers sets.
From Stdlib Require Import ZArith Lia.
From S2P Require Import Prelude Sql Feed Json Text Activity ActivityInvariant.

Open Scope string_scope.
Open Scope list_scope.
Open Scope Z_scope.

(** ** Reachable stores *)

Inductive act_op :=
| Upsert (now : Z) (user source : string) (a : activity_args)
| Initialize (now : Z) (user source stream policy : string) (cursor : Z) (prefix : string) (tail : Z)
| Batch (now : Z) (user source stream : string) (expected : Z) (items : list event_item) (cursor : Z) (prefix : string) (tail : Z)
| Fault (now : Z) (user source stream code detail policy : string) (conflict : bool)
| Reconcile (now : Z) (user source : string) (observed_at : Z) (snapshot : string) (cs : list activity_args) (keys : list string).

Definition empty_activity : activity_db := mkActivityDb [] [] [] [].

Section Reachable.
Context `{TextEngine, Codec}.

(** One committed call; a raise rolls back. *)
Definition act_run (s : activity_db) (o : act_op) : activity_db :=
  match o with
  | Upsert now u so a => (commit (_upsert_activity now u so a) s).2
  | Initialize now u so st p c h t => (commit (initialize_source now u so st p c h t) s).2
  | Batch now u so st e l c h t => (commit (apply_source_event_batch now u so st e l c h t) s).2
  | Fault now u so st c d p b => (commit (mark_source_fault now u so st c d p b) s).2
  | Reconcile now u so t h cs ks => (commit (reconcile_snapshot now u so t h cs ks) s).2
  end.
Definition act_state (ops : list act_op) : activity_db := foldl act_run empty_activity ops.

(** ** The journal invariant of the remaining operations *)

Lemma upsert_journal now u so a : preserves journal_ok (_upsert_activity now u so a).
Proof.
  intros s p s' Hj Hu.
  assert (events s' = events s ∧ sources s' = sources s) as [He Hs].
  { by eapply (upsert_frame (λ ev sr, ev = events s ∧ sr = sources s)) in Hu. }
  destruct Hj as [H1 H2 H3]. constructor; by rewrite ?He, ?Hs.
Qed.
#[local] Hint Resolve upsert_journal batch_journal : preserves.

Lemma sources_ext g g' (s : activity_db) : g (sources s) = g' (sources s) → s <| sources ::= g |> = s <| sources ::= g' |>.
Proof. unfold set_field. cbn. by intros ->. Qed.

Lemma journal_by_update g p f s :
  g (sources s) = update p f (sources s) →
  (∀ o, source_key (f o) = source_key o) →
  (∀ o, o ∈ sources s → p o = true → so_accepted (f o) = so_accepted o ∧ so_duplicate (f o) = so_duplicate o ∧
        (so_cursor (f o) = so_cursor o ∨ so_accepted o = 0)) →
  journal_ok s → journal_ok (s <| sources ::= g |>).
Proof. intros E. rewrite (sources_ext g (update p f)) by done. apply journal_sources_update. Qed.

Lemma journal_by_new g o s :
  g (sources s) = sources s ++ [o] → so_accepted o = 0 → so_duplicate o = 0 →
  exists_row (is_source (so_user o) (so_source o) (so_stream o)) (sources s) = false →
  journal_ok s → journal_ok (s <| sources ::= g |>).
Proof. intros E. rewrite (sources_ext g (λ t, t ++ [o])) by done. apply journal_sources_new. Qed.

Lemma initialize_journal now u so st p c h t : preserves journal_ok (initialize_source now u so st p c h t).
Proof.
  unfold initialize_source. preserve. apply preserves_modify. intros s Hj.
  destruct (exists_row (is_source u so st) (sources s)) eqn:E.
  - eapply journal_by_update; [unfold upsert_source; rewrite E; reflexivity|done| |done].
    intros o _ Ho. unfold restartable in Ho. bools. by split_and!; [..|right].
  - by eapply journal_by_new; [unfold upsert_source; rewrite E; reflexivity|..].
Qed.

Lemma fault_journal now u so st c d p b : preserves journal_ok (mark_source_fault now u so st c d p b).
Proof.
  unfold mark_source_fault. preserve. apply preserves_modify. intros s Hj.
  destruct (exists_row (is_source u so st) (sources s)) eqn:E.
  - eapply journal_by_update; [cbv beta; rewrite E; reflexivity|done| |done].
    intros o _ _. by split_and!; [..|left].
  - by eapply journal_by_new; [cbv beta; rewrite E; reflexivity|..].
Qed.

Lemma candidates_journal now u so t cs : preserves journal_ok (reconcile_candidates now u so t cs).
Proof. induction cs; simpl; preserve. Qed.
Lemma resolve_journal now u so t h ks rows : preserves journal_ok (resolve_decisions now u so t h ks rows).
Proof. induction rows; simpl; preserve. Qed.
#[local] Hint Resolve candidates_journal resolve_journal initialize_journal fault_journal : preserves.

Lemma reconcile_journal now u so t h cs ks : preserves journal_ok (reconcile_snapshot now u so t h cs ks).
Proof.
  unfold reconcile_snapshot. do 7 (apply preserves_bind; [auto with preserves|intros]).
  intros s out s' Hj Hr. apply bind_ok in Hr as (src & s0 & [<- <-]%read_ok & Hr).
  apply bind_ok in Hr as (stale & s1 & Hs & Hr).
  assert (journal_ok s1) as Hj1.
  { destruct (get_source_state s u so FLEET_SNAPSHOT) eqn:E; [by apply lift_ok in Hs as [_ <-]|].
    apply bind_ok in Hs as (v & s2 & ->%modify_ok & [_ <-]%ret_ok).
    apply journal_sources_new; [done|done| |done]. apply exists_row_false. intros r Hin.
    by eapply fetchone_none in E. }
  destruct stale; [by apply ret_ok in Hr as [_ <-]|].
  apply bind_ok in Hr as (ch & s2 & Hc%candidates_journal & Hr); [|done].
  apply bind_ok in Hr as (rows & s3 & [_ <-]%read_ok & Hr).
  apply bind_ok in Hr as (rs & s4 & Hv%resolve_journal & Hr); [|done].
  apply bind_ok in Hr as (v & s5 & ->%modify_ok & [_ <-]%ret_ok).
  apply journal_sources_update; [done| |done]. intros o _ _. split_and!; [done|done|by left].
Qed.
#[local] Hint Resolve reconcile_journal upsert_feed batch_feed initialize_feed fault_feed reconcile_feed : preserves.

Lemma act_run_ok s o : feed_ok s ∧ journal_ok s → feed_ok (act_run s o) ∧ journal_ok (act_run s o).
Proof. intros [Hf Hj]. destruct o; simpl; split; apply preserves_commit; auto with preserves. Qed.

Lemma act_state_ok ops : feed_ok (act_state ops) ∧ journal_ok (act_state ops).
Proof.
  unfold act_state. cut (feed_ok empty_activity ∧ journal_ok empty_activity).
  - generalize empty_activity. induction ops as [|o ops IH]; intros s Hs; simpl; [done|].
    by apply IH, act_run_ok.
  - split; constructor; cbn; try set_solver; try apply NoDup_nil_2; done.
Qed.

Lemma seq_contiguous after n l : map ch_sequence l = seqZ (after + 1) n → contiguous after l = true.
Proof.
  revert after n. induction l as [|x l IH]; intros after n E; simpl; [done|].
  destruct (decide (0 < n)) as [Hn|Hn]; [|by rewrite seqZ_nil in E by lia].
  rewrite seqZ_cons in E by done. injection E as -> E. rewrite Z.eqb_refl. simpl.
  eapply IH. exact E.
Qed.

(** The row a change delivers: the record it names, not older than it. *)
Lemma deliver_change_ok s user c :
  feed_ok s → c ∈ changes s → ch_user c = user →
  ∃ r, r ∈ records s ∧ ar_user r = user ∧ ar_id r = ch_record c ∧ ch_revision c ≤ ar_revision r ∧
       deliver_change s user c = Ok (_public_activity r, ch_sequence c).
Proof.
  intros Hf Hc <-. destruct (feed_change _ Hf c Hc) as (r & Hr & Hid & Hu & Hle). exists r. split_and!; [done..|].
  unfold deliver_change. rewrite (fetchone_unique ar_id _ _ r); [|apply Hf|done| |].
  - assert ((ar_revision r <? ch_revision c) = false) as -> by (apply Z.ltb_ge; lia). done.
  - unfold of_user. by rewrite Hu, Hid, !eqb_refl.
  - intros x Hx. bools. congruence.
Qed.

(** What one page of the feed holds in a consistent store. *)
Lemma list_activity_page s user after limit :
  feed_ok s → bounded_id 128 user = true → 0 ≤ after ≤ latest_change s user → after ≤ MAX_SAFE_INTEGER →
  let n := Z.min (clamp limit MAX_ACTIVITY_PAGE) (latest_change s user - after) in
  ∃ page, list_activity user after limit s = Ok page ∧
    map snd (page_records page) = seqZ (after + 1) n ∧ page_next page = after + n ∧
    page_latest page = latest_change s user ∧ page_more page = (after + n <? latest_change s user).
Proof.
  intros Hf Hu Ha Hmax n. unfold list_activity. rewrite Hu. simpl.
  assert (in_time after = true) as -> by (unfold in_time; rewrite !(proj2 (Z.leb_le _ _)) by lia; done). simpl.
  set (lim := clamp limit MAX_ACTIVITY_PAGE) in *. assert (1 ≤ lim) as Hlim by (unfold lim, clamp; lia).
  pose proof (feed_changes _ Hf user) as Hn. unfold numbered in Hn. rewrite select_and.
  pose proof (latest_is_count s user Hf) as Hl. rewrite <- Hl in Hn. simpl in Hn.
  pose proof (seq_after ch_sequence 1 (latest_change s user) _ after Hn ltac:(lia)) as Hs.
  replace (1 + latest_change s user - (after + 1)) with (latest_change s user - after) in Hs by lia.
  set (sel := select (λ c, after <? ch_sequence c) (select (change_of_user user) (changes s))) in *.
  rewrite order_by_sorted by (by eapply (seq_sorted ch_sequence)).
  assert ((latest_change s user <? after) = false) as -> by (apply Z.ltb_ge; lia). simpl.
  pose proof (seq_take ch_sequence _ _ (lim + 1) _ Hs ltac:(lia)) as Hrows.
  pose proof (seq_take ch_sequence _ _ lim _ Hrows ltac:(lia)) as Hpage.
  replace (Z.min lim (Z.min (lim + 1) (latest_change s user - after))) with n in Hpage by lia.
  rewrite (seq_contiguous _ _ _ Hpage). simpl.
  assert (∀ c, c ∈ take lim (take (lim + 1) sel) → c ∈ changes s ∧ ch_user c = user) as Hin.
  { intros c [[? Hc]%elem_of_select _]%elem_of_take%elem_of_take%elem_of_select. by apply eqb_true in Hc. }
  destruct (map_res_ok (deliver_change s user) (λ c p, p.2 = ch_sequence c) (take lim (take (lim + 1) sel)))
    as (out & -> & Hout).
  { intros c [Hc Hcu]%Hin. destruct (deliver_change_ok s user c Hf Hc Hcu) as (r & _ & _ & _ & _ & ->).
    by eexists. }
  simpl. eexists. split; [reflexivity|]. cbn. split_and!.
  - rewrite <- Hpage. clear -Hout. induction Hout; simpl; congruence.
  - apply (seq_last ch_sequence); [done|lia].
  - done.
  - rewrite (seq_length _ _ _ _ Hrows) by lia.
    destruct (lim <? _) eqn:E1, (after + n <? _) eqn:E2; bools; lia.
Qed.

(** ** Claims about the change feed *)

(** A client that asks for pages until [has_more] is false. *)
Fixpoint catch_up (fuel : nat) (user : string) (after limit : Z) (s : activity_db) : res act_error (list (public_activity * Z)) :=
  match fuel with
  | O => Ok []
  | S fuel =>
      page ← list_activity user after limit s;
      if page_more page then rest ← catch_up fuel user (page_next page) limit s; Ok (page_records page ++ rest)
      else Ok (page_records page)
  end.

(** C18. After any sequence of activity operations, a client that replays the
    change feed from a cursor it was given never meets an error, needs at most
    one page per missed change, and receives every later change exactly once
    and in order, up to the latest. *)
Theorem replay_complete ops user after limit fuel :
  let s := act_state ops in
  bounded_id 128 user = true → 0 ≤ after ≤ latest_change s user → latest_change s user ≤ MAX_SAFE_INTEGER →
  (Z.to_nat (latest_change s user - after) < fuel)%nat →
  ∃ out, catch_up fuel user after limit s = Ok out ∧
         map snd out = seqZ (after + 1) (latest_change s user - after).
Proof.
  intros s Hu. destruct (act_state_ok ops) as [Hf _]. fold s in Hf. clearbody s.
  revert after. induction fuel as [|fuel IH]; intros after Ha Hmax Hfuel; [lia|]. simpl.
  destruct (list_activity_page s user after limit Hf Hu Ha ltac:(lia)) as (page & -> & Hseq & Hnext & _ & Hmore).
  simpl. set (n := Z.min _ _) in *. rewrite Hmore, Hnext.
  assert (1 ≤ clamp limit MAX_ACTIVITY_PAGE) by (unfold clamp; lia).
  destruct (after + n <? latest_change s user) eqn:E; bools.
  - assert (1 ≤ n) by lia.
    destruct (IH (after + n) ltac:(lia) Hmax ltac:(lia)) as (out & -> & Hout). simpl.
    eexists. split; [reflexivity|]. rewrite map_app, Hseq, Hout.
    replace (latest_change s user - after) with (n + (latest_change s user - (after + n))) by lia.
    rewrite seqZ_app by lia. do 2 f_equal. lia.
  - eexists. split; [reflexivity|]. rewrite Hseq. f_equal. lia.
Qed.

(** Every record was announced, so its delivery number exists. *)
Lemma deliver_ok s r : feed_ok s → r ∈ records s →
  ∃ p, deliver s r = Ok p ∧ p.1 = _public_activity r ∧ 0 < p.2 ≤ latest_change s (ar_user r).
Proof.
  intros Hf Hr. destruct (feed_record _ Hf r Hr) as (c & Hc & Hid & Hu & _). unfold deliver.
  destruct (delivery_sequence s r) as [d|] eqn:E.
  - eexists. split; [reflexivity|]. split; [done|]. simpl.
    apply max_of_some in E as [(x & Hx & Hp & <-) _]. bools.
    rewrite latest_is_count by done.
    apply (numbered_elem ch_sequence (change_of_user (ar_user r)) 0); [apply Hf|done|].
    by apply bool_decide_eq_true.
  - unfold delivery_sequence in E. rewrite max_of_none in E. specialize (E c Hc). rewrite Hu, Hid, !eqb_refl in E. done.
Qed.

(** After any sequence of activity operations a snapshot with valid
    arguments succeeds: no record lacks its durable change, each delivery
    number is at most the snapshot's cursor, and that cursor is the latest
    change, so replay after a snapshot misses nothing. *)
Theorem snapshot_total ops user before limit :
  let s := act_state ops in
  bounded_id 128 user = true → match before with Some b => 1 ≤ b ≤ MAX_SAFE_INTEGER | None => True end →
  ∃ snap, snapshot_activity user before limit s = Ok snap ∧ snap_cursor snap = latest_change s user ∧
    Forall (λ p, 0 < p.2 ≤ snap_cursor snap) (snap_records snap ++ snap_focus snap).
Proof.
  intros s Hu Hb. destruct (act_state_ok ops) as [Hf _]. fold s in Hf. clearbody s. unfold snapshot_activity.
  rewrite Hu. simpl. assert (match before with Some b => (1 <=? b) && (b <=? MAX_SAFE_INTEGER) | None => true end = true) as ->.
  { destruct before; [|done]. rewrite !(proj2 (Z.leb_le _ _)) by lia. done. } simpl.
  set (P := λ (r : activity_row) (p : public_activity * Z), 0 < p.2 ≤ latest_change s user).
  assert (∀ q l, (∀ r, q r = true → of_user user r = true) →
    (∀ r, r ∈ l → r ∈ order_by newest_first (select q (records s))) → ∃ out, map_res (deliver s) l = Ok out ∧ Forall2 P l out) as Hall.
  { intros q l Hq Hin. apply map_res_ok. intros r [Hr Hqr]%Hin%elem_of_order_by%elem_of_select.
    destruct (deliver_ok s r Hf Hr) as (p & Ep & _ & Hp). exists p. split; [done|]. unfold P.
    apply Hq, eqb_true in Hqr. by rewrite Hqr in Hp. }
  do 2 (match goal with |- context [map_res (deliver s) (take ?k (take ?k' (order_by newest_first (select ?q (records s)))))] =>
    let o := fresh "o" in let H1 := fresh "H" in
    destruct (Hall q (take k (take k' (order_by newest_first (select q (records s)))))) as (o & -> & H1);
    [cbv beta; unfold is_live, pending_decision; intros r Hr; try apply orb_true_iff in Hr as [Hr|Hr]; bools; done
    |by intros r ?%elem_of_take%elem_of_take|simpl] end).
  eexists. split; [reflexivity|]. split; [done|]. cbn. apply Forall_app.
  split; apply Forall_forall; intros p (i & Hi)%list_elem_of_lookup.
  all: match goal with Hd : Forall2 _ _ ?l, Hi : ?l !! _ = Some _ |- _ =>
    by destruct (Forall2_lookup_r _ _ _ _ _ Hd Hi) as (r & _ & ?) end.
Qed.

(** ** Claims about journals *)

(** A committed journal batch adds exactly its events: the accepted
    positions of the stream are the contiguous run up to the new cursor, with
    the positions and hashes of the batch at its end, no event counted as a
    duplicate; a batch whose starting cursor is not the stored one is refused. *)
Theorem journal_once ops now user source stream ec items nc np tail out s' :
  let s := act_state ops in
  apply_source_event_batch now user source stream ec items nc np tail s = Ok (out, s') →
  ∃ o o' es, get_source_state s user source stream = Some o ∧ so_cursor o = ec ∧
    get_source_state s' user source stream = Some o' ∧ so_cursor o' = nc ∧ so_duplicate o' = 0 ∧
    events s' = events s ++ es ∧
    map Some (map se_cursor es) = map i_cursor items ∧ map Some (map se_payload_sha256 es) = map i_payload_sha256 items ∧
    map se_cursor (select (in_stream user source stream) (events s')) = seqZ (nc - so_accepted o' + 1) (so_accepted o').
Proof.
  intros s Hb. destruct (act_state_ok ops) as [_ Hj]. fold s in Hj. clearbody s.
  destruct (batch_effect _ _ _ _ _ _ _ _ _ _ _ _ Hj Hb) as (o & es & Ho & Hk & Hec & Hnc & He & _ & Hc & Hh & _ & _ & Hs).
  assert (get_source_state s user source stream = Some o) as Hget.
  { apply (fetchone_unique source_key); [apply Hj|done|by apply is_source_key|].
    intros x Hx%is_source_key. by rewrite Hk. }
  assert (get_source_state s' user source stream = Some (o <| so_cursor := nc |> <| so_prefix := np |> <| so_tail := tail |>
        <| so_state := "available" |> <| so_error_code := None |> <| so_error_detail := None |>
        <| so_reconciled_at := Some now |> <| so_accepted ::= Z.add (Z.of_nat (length items)) |>
        <| so_duplicate ::= Z.add 0 |>)) as Hget'.
  { unfold get_source_state in *. rewrite Hs, fetchone_update by done. rewrite Hget. simpl.
    by rewrite (proj2 (is_source_key _ _ _ _) Hk). }
  pose proof (batch_journal _ _ _ _ _ _ _ _ _ _ _ _ Hj Hb) as Hj'.
  apply fetchone_some in Hget' as Hin. destruct Hin as [Hin _].
  destruct (journal_events _ Hj' _ Hin) as (Hn & Hcnt & Hd).
  do 3 eexists. split_and!; try done.
  unfold numbered in Hn. rewrite Hcnt in Hn. unfold stream_of in Hn. pose proof Hk as Hk'.
  unfold source_key in Hk'. injection Hk' as <- <- <-. exact Hn.
Qed.

(** ** Claims about upserts and snapshots *)

Lemma validate_kind now u so a c t : validate_activity now u so a = Ok (c, t) → kind c = a_kind a.
Proof.
  unfold validate_activity. intros Hv. repeat (apply res_bind_ok in Hv as (? & _ & Hv)). by injection Hv as <- _.
Qed.

(** The three outcomes of an upsert that returns. *)
Lemma upsert_cases now u so a s p s' :
  _upsert_activity now u so a s = Ok (p, s') →
  ∃ c t, validate_activity now u so a = Ok (c, t) ∧ kind c = a_kind a ∧
  match fetchone (has_key u so (a_record_key a)) (records s) with
  | Some row =>
      if ar_content row == c then p = _public_activity row ∧ s' = s
      else p = _public_activity (revise c t now row) ∧
           records s' = update (λ r, ar_id r == ar_id row) (revise c t now) (records s)
  | None => ∃ row, p = _public_activity row ∧ records s' = records s ++ [row] ∧ ar_content row = c ∧
           has_key u so (a_record_key a) row = true
  end.
Proof.
  intros Hm. unfold _upsert_activity in Hm. apply bind_ok in Hm as ([c t] & s0 & [Hv <-]%lift_ok & Hm). exists c, t.
  split; [done|]. split; [by eapply validate_kind|].
  cbn in Hm. unfold upsert_content in Hm. apply bind_ok in Hm as (e & s1 & [<- <-]%read_ok & Hm).
  destruct (fetchone _ _) as [row|].
  - case_bool_decide; [by apply ret_ok in Hm as [<- <-]|].
    apply bind_ok in Hm as (v & s2 & ->%modify_ok & Hm). apply bind_ok in Hm as (n & s3 & ->%record_change_ok & [<- <-]%ret_ok). done.
  - apply bind_ok in Hm as (q & s2 & [<- <-]%read_ok & Hm). apply bind_ok in Hm as (v & s3 & Hi & Hm).
    apply bind_ok in Hm as (n & s4 & ->%record_change_ok & [<- <-]%ret_ok). unfold insert_record in Hi.
    destruct (insert _ _ _) eqn:E; [|done]. injection Hi as _ <-. apply insert_some in E as [-> _].
    eexists. split_and!; [done|done|done|]. unfold has_key. cbn. by rewrite !eqb_refl.
Qed.

Lemma validate_now now now' u so a c t :
  validate_activity now u so a = Ok (c, t) → in_time now' = true → ∃ t', validate_activity now' u so a = Ok (c, t').
Proof.
  intros Hv Ht. unfold validate_activity in *. destruct (a_observed_at a); cbn [default from_option] in *.
  all: repeat match goal with
  | H : mbind _ ?m = Ok _ |- ∃ _, mbind _ _ = Ok _ =>
      let a := fresh "a" in let E := fresh "E" in apply res_bind_ok in H as (a & E & H);
      first [rewrite E | rewrite Ht]; cbn [mbind res_bind] in H |- *
  end; injection Hv as <- _; eexists; reflexivity.
Qed.

(** Repeating an upsert with the same arguments, at any later time, returns
    the same record and leaves the whole store unchanged: no revision, no
    second change is announced. *)
Theorem upsert_idempotent now now' u so a s p s' :
  _upsert_activity now u so a s = Ok (p, s') → in_time now' = true →
  _upsert_activity now' u so a s' = Ok (p, s').
Proof.
  intros Hu Ht. destruct (upsert_cases _ _ _ _ _ _ _ Hu) as (c & t & Hv & _ & Hcase).
  destruct (validate_now _ now' _ _ _ _ _ Hv Ht) as (t' & Hv').
  assert (∃ row, fetchone (has_key u so (a_record_key a)) (records s') = Some row ∧ ar_content row = c ∧ p = _public_activity row)
    as (row & Hrow & Hc & Hp).
  { destruct (fetchone _ (records s)) as [row|] eqn:E.
    - destruct (ar_content row == c) eqn:Ec; destruct Hcase as [-> Hs].
      + subst s'. exists row. by apply eqb_true in Ec.
      + exists (revise c t now row). rewrite Hs, fetchone_update by done. rewrite E. simpl. by rewrite eqb_refl.
    - destruct Hcase as (row & -> & Hs & Hc & Hk). exists row. by rewrite Hs, fetchone_app, E, Hk. }
  unfold _upsert_activity. etransitivity; [apply (bind_run _ _ _ (c, t') s'); unfold lift; by rewrite Hv'|].
  cbn [fst snd]. unfold upsert_content.
  etransitivity; [apply (bind_run _ _ _ (Some row) s'); unfold read; by rewrite Hrow|].
  cbv beta iota. rewrite Hc, eqb_refl, Hp. done.
Qed.

(** The rows still to resolve while [resolve_decisions] runs. *)
Record pending_rows (u so : string) (keys : list string) (rows : list activity_row) (s : activity_db) : Prop := {
  pend_feed : feed_ok s;
  pend_nodup : NoDup rows;
  pend_in : ∀ r, r ∈ rows → r ∈ records s ∧ open_decision u so r = true;
  pend_all : ∀ r, r ∈ records s → open_decision u so r = true → among keys (decision_identity r) = true ∨ r ∈ rows;
}.

Lemma pending_skip u so keys row rows s :
  among keys (decision_identity row) = true → pending_rows u so keys (row :: rows) s → pending_rows u so keys rows s.
Proof.
  intros Hk [Hf Hn Hin Hall]. apply NoDup_cons in Hn as [_ Hn]. constructor; [done|done|set_solver|].
  intros r Hr Ho. destruct (Hall r Hr Ho) as [?|[->|?]%elem_of_cons]; auto.
Qed.

Lemma pending_resolve u so keys row rows now a p s s' :
  a_kind a = "decision.resolved" → a_record_key a = ar_key row →
  _upsert_activity now u so a s = Ok (p, s') → pending_rows u so keys (row :: rows) s → pending_rows u so keys rows s'.
Proof.
  intros Hk Hkey Hu [Hf Hn Hin Hall]. pose proof (upsert_feed _ _ _ _ _ _ _ Hf Hu) as Hf'.
  destruct (Hin row) as [Hrow Hopen]; [set_solver|]. apply NoDup_cons in Hn as [Hnot Hn].
  destruct (upsert_cases _ _ _ _ _ _ _ Hu) as (c & t & _ & Hkc & Hcase).
  assert (has_key u so (ar_key row) row = true ∧ kind (ar_content row) = "decision.requested") as [Hself Hkr].
  { unfold open_decision in Hopen. bools. subst. unfold has_key. by rewrite !eqb_refl. }
  rewrite Hkey, (fetchone_unique record_key _ _ row (feed_keys _ Hf) Hrow Hself) in Hcase.
  2:{ intros x Hx. unfold has_key in Hx, Hself. bools. unfold record_key. congruence. }
  assert ((ar_content row == c) = false) as E by (apply eqb_neq; congruence). rewrite E in Hcase.
  destruct Hcase as [_ Hrec].
  assert (∀ r, r ∈ records s → ar_id r = ar_id row → r = row) as Huniq
    by (intros; eapply NoDup_key_inj; [apply (feed_ids _ Hf)|..]; done).
  constructor; [done|done| |].
  - intros r Hr. destruct (Hin r) as [Hr1 Hr2]; [set_solver|]. split; [|done]. rewrite Hrec. apply elem_of_update.
    exists r. split; [done|]. rewrite eqb_neq; [done|]. intros Ei. apply Hnot. by rewrite <- (Huniq r).
  - intros r. rewrite Hrec. intros (r0 & Hr0 & ->)%elem_of_update Ho. destruct (ar_id r0 == ar_id row) eqn:Ei.
    + exfalso. unfold open_decision in Ho. cbn in Ho. rewrite Hkc, Hk in Ho. bools. done.
    + destruct (Hall r0 Hr0 Ho) as [?|[->|?]%elem_of_cons]; auto. by rewrite eqb_refl in Ei.
Qed.

Lemma resolve_decisions_closes now u so t h keys rows s out s' :
  pending_rows u so keys rows s → resolve_decisions now u so t h keys rows s = Ok (out, s') →
  pending_rows u so keys [] s'.
Proof.
  revert s out. induction rows as [|row rows IH]; intros s out Hp Hr; simpl in Hr; [by apply ret_ok in Hr as [_ <-]|].
  destruct (among keys (decision_identity row)) eqn:E; [by eapply IH; [eapply pending_skip|]|].
  apply bind_ok in Hr as (e & s1 & [_ <-]%lift_ok & Hr). apply bind_ok in Hr as (p & s2 & Hu & Hr).
  apply bind_ok in Hr as (rest & s3 & Hr & [_ <-]%ret_ok).
  eapply IH; [|exact Hr]. eapply pending_resolve; [| |exact Hu|exact Hp]; done.
Qed.

(** After a snapshot that is not delayed, the only decisions of that
    source still awaiting the user are those the snapshot lists as open. *)
Theorem snapshot_closes_decisions ops now u so t h cs keys out s' :
  let s := act_state ops in
  reconcile_snapshot now u so t h cs keys s = Ok (out, s') →
  match get_source_state s u so FLEET_SNAPSHOT with Some o => stale_snapshot t h o = Ok false | None => True end →
  ∀ r, r ∈ records s' → open_decision u so r = true → among keys (decision_identity r) = true.
Proof.
  intros s Hr Hstale. destruct (act_state_ok ops) as [Hf _]. fold s in Hf. clearbody s. unfold reconcile_snapshot in Hr.
  do 7 (apply bind_ok in Hr as (? & ? & [_ <-]%lift_ok & Hr)).
  apply bind_ok in Hr as (src & s0 & [<- <-]%read_ok & Hr). apply bind_ok in Hr as (stale & s1 & Hs & Hr).
  assert (feed_ok s1 ∧ stale = false) as [Hf1 ->].
  { destruct (get_source_state s u so FLEET_SNAPSHOT) as [o|].
    - apply lift_ok in Hs as [Hs <-]. split; [done|congruence].
    - apply bind_ok in Hs as (v & s2 & ->%modify_ok & [<- <-]%ret_ok). split; [by apply feed_sources|done]. }
  apply bind_ok in Hr as (ch & s2 & Hc & Hr). apply candidates_feed in Hc; [|done].
  apply bind_ok in Hr as (rows & s3 & [<- <-]%read_ok & Hr). apply bind_ok in Hr as (rs & s4 & Hres & Hr).
  apply bind_ok in Hr as (v & s5 & ->%modify_ok & [_ <-]%ret_ok).
  apply resolve_decisions_closes in Hres.
  - intros r Hin Ho. destruct (pend_all _ _ _ _ _ Hres r Hin Ho) as [?|Hnil]; [done|]. by apply not_elem_of_nil in Hnil.
  - constructor; [done| |by intros r ?%elem_of_select|].
    + by eapply NoDup_select, feed_ids.
    + intros r Hin Ho. right. by apply elem_of_select.
Qed.
End Reachable.
