(* ===== verification/ActivityWitness.v ===== *)
(** * The activity store on concrete inputs

    A small text engine and codec, and runs of the store that meet the
    hypotheses of its theorems. *)

From stdpp Require Import base option list sorting strings numbers sets.
From Stdlib Require Import ZArith Lia Ascii.
From S2P Require Import Prelude Sql Feed Json Text Activity ActivityInvariant ActivityTheorems.

Open Scope string_scope.
Open Scope list_scope.
Open Scope Z_scope.

(** A 64-digit hexadecimal text that mixes every character of the input. *)
Definition hex_digit (n : nat) : Ascii.ascii := default "0"%char (String.get n "0123456789abcdef").
Fixpoint mix (acc : Z) (s : string) : Z :=
  match s with
  | EmptyString => acc
  | String c s' => mix ((acc * 1000003 + Z.of_nat (Ascii.nat_of_ascii c) + 1) mod 2 ^ 256) s'
  end.
Fixpoint hex_of (n : nat) (z : Z) : string :=
  match n with
  | O => ""
  | S n => String (hex_digit (Z.to_nat (z mod 16))) (hex_of n (z / 16))
  end.
Definition zeros : string := "0000000000000000000000000000000000000000000000000000000000000000".
Definition demo_sha (s : string) : string := hex_of 64 (mix 1 s).

(** [{"project":"p"}] *)
Definition demo_contract : string :=
  let quoted s := String (Ascii.ascii_of_nat 34) s +:+ String (Ascii.ascii_of_nat 34) "" in
  "{" +:+ quoted "project" +:+ ":" +:+ quoted "p" +:+ "}".

#[export] Instance demo_text : TextEngine :=
  {| category := λ c, if in_range 32 126 c then "L" else "Cc"; _ENV_ASSIGNMENT := λ _, false;
     _SENSITIVE_TEXT := contains "sk-"; unquote := λ s, s |}.
#[export] Instance demo_codec : Codec :=
  {| sha256_hex := demo_sha; dumps := λ j, match j with JList [] => Some "[]" | JObj _ => Some "{}" | _ => None end;
     loads := λ s, if s == "[]" then Some (JList []) else if s == demo_contract then Some (JObj [("project", JStr "p")]) else None;
     utf8_length := str_len |}.

Definition decision_args (key : string) : activity_args :=
  {| a_record_key := key; a_kind := "decision.requested"; a_state := "awaiting-user"; a_importance := "attention";
     a_title := "Decide"; a_summary := "A decision is open."; a_payload_sha256 := zeros; a_truncated := false;
     a_event_id := None; a_task_id := Some "task"; a_decision_key := Some key; a_objective_id := Some "obj";
     a_run_id := None; a_project := None; a_occurred_at := None; a_observed_at := None; a_refs := None |}.
Definition message_item (n : Z) (id : string) : event_item :=
  {| i_event_id := Some id; i_cursor := Some n; i_payload_sha256 := Some zeros; i_audience := Some "captain";
     i_kind := Some "worker.message"; i_occurred_at := None; i_payload := Some []; i_activity := None |}.

Definition demo_ops : list act_op :=
  [Upsert 1 "u" "s" (decision_args "a"); Upsert 2 "u" "s" (decision_args "b");
   Initialize 3 "u" "s" "j" "after:4" 4 zeros 6; Upsert 4 "u" "s" (decision_args "a" <| a_importance := "routine" |>)].
Definition demo_store : activity_db := act_state demo_ops.

Lemma replay_complete_witness :
  latest_change demo_store "u" = 3 ∧
  ∃ out, catch_up 3 "u" 1 1 demo_store = Ok out ∧ map snd out = [2; 3].
Proof.
  split; [vm_compute; reflexivity|].
  replace [2; 3] with (seqZ (1 + 1) (latest_change demo_store "u" - 1)) by (vm_compute; reflexivity).
  apply (replay_complete demo_ops "u" 1 1 3); vm_compute; repeat split; try discriminate; repeat constructor.
Defined.
