(* ===== verification/Objectives.v ===== *)
(** * Objectives: shared tables, submission store, resource ledger

    The tables of an objective's life and the components that write them under
    one database: the submission ledger ([ObjectiveSubmissionStore] of
    [gateway/app/magi_firstmate_tools.py]), the personal resource ledger
    ([PersonalResourceLedger] of [gateway/app/firstmate_execution.py]) and the
    write-side projection ([persist_objective_state] of
    [gateway/app/structured_runtime.py]). [Execution] and [Cancellation] add
    the event store and the cancellation requests.

    Foreign keys are implied by the reads before each insert. JSON columns of
    the projection hold the contract itself. *)

From stdpp Require Import base option list strings numbers sets.
From Stdlib Require Import ZArith Lia.
From S2P Require Import Prelude Sql Feed Json BillingCatalog BillingLedger Text Activity Deployment.

Open Scope string_scope.
Open Scope list_scope.
Open Scope Z_scope.

(** The exceptions these components raise or let through. *)
Inductive obj_error :=
| ModeError (e : mode_error)
| MagiToolError (code : string) (retryable : bool)
| FirstmateExecutionConflict
| FirstmateExecutionNotFound
| ObjectiveCancellationError (code : string) (status_code : Z)
| ObjActivity (e : act_error)
| ObjValueError
| ObjKeyError
| ObjIntegrityError.

(** ** Rows *)

Inductive sub_status := s_submitting | s_accepted | s_failed.
#[export] Instance sub_status_eq_dec : EqDecision sub_status.
Proof. solve_decision. Defined.
Definition status_text (s : sub_status) : string :=
  match s with s_submitting => "submitting" | s_accepted => "accepted" | s_failed => "failed" end.

(** [magi_objective_submissions] *)
Record submission := mkSubmission {
  sb_objective : string; sb_task : string; sb_owner : string; sb_key : string;
  sb_conversation : string; sb_turn : string; sb_user_message : string; sb_assistant_message : string;
  sb_contract_json : string; sb_contract_sha256 : string; sb_context_json : string; sb_context_sha256 : string;
  sb_title : string; sb_project : option string; sb_status : sub_status; sb_attempts : Z;
  sb_error : option string; sb_accepted_at : option Z; sb_created : Z; sb_updated : Z;
}.
#[export] Instance submission_eta : Settable submission := λ x,
  mkSubmission (sb_objective x) (sb_task x) (sb_owner x) (sb_key x) (sb_conversation x) (sb_turn x)
    (sb_user_message x) (sb_assistant_message x) (sb_contract_json x) (sb_contract_sha256 x) (sb_context_json x)
    (sb_context_sha256 x) (sb_title x) (sb_project x) (sb_status x) (sb_attempts x) (sb_error x)
    (sb_accepted_at x) (sb_created x) (sb_updated x).
Definition submission_clash (a b : submission) : bool :=
  (sb_objective a == sb_objective b) || (sb_task a == sb_task b) ||
  ((sb_owner a == sb_owner b) && (sb_key a == sb_key b)).

(** [firstmate_execution_objectives] *)
Record execution := mkExecution {
  ex_owner : string; ex_objective : string; ex_task : string; ex_run : string; ex_accepted_event : string;
  ex_conversation : string; ex_origin : string; ex_title : string; ex_project : option string;
  ex_terminal_event : option string; ex_terminal_phase : option string; ex_created : Z; ex_updated : Z;
}.
#[export] Instance execution_eta : Settable execution := λ x,
  mkExecution (ex_owner x) (ex_objective x) (ex_task x) (ex_run x) (ex_accepted_event x) (ex_conversation x)
    (ex_origin x) (ex_title x) (ex_project x) (ex_terminal_event x) (ex_terminal_phase x) (ex_created x) (ex_updated x).
Definition execution_clash (a b : execution) : bool :=
  (ex_owner a == ex_owner b) &&
  ((ex_objective a == ex_objective b) || (ex_task a == ex_task b) || (ex_accepted_event a == ex_accepted_event b)).

(** [firstmate_execution_events] *)
Record execution_event := mkExecutionEvent {
  ev_owner : string; ev_id : string; ev_objective : string; ev_task : string; ev_run : string; ev_phase : string;
  ev_occurred_at : Z; ev_payload_sha256 : string; ev_payload : string; ev_evidence : option string;
  ev_activity : string; ev_generation : option string; ev_attempts : Z; ev_assistant : option string;
  ev_error : option string; ev_created : Z; ev_updated : Z;
}.
#[export] Instance execution_event_eta : Settable execution_event := λ x,
  mkExecutionEvent (ev_owner x) (ev_id x) (ev_objective x) (ev_task x) (ev_run x) (ev_phase x) (ev_occurred_at x)
    (ev_payload_sha256 x) (ev_payload x) (ev_evidence x) (ev_activity x) (ev_generation x) (ev_attempts x)
    (ev_assistant x) (ev_error x) (ev_created x) (ev_updated x).
Definition execution_event_clash (a b : execution_event) : bool := (ev_owner a == ev_owner b) && (ev_id a == ev_id b).

Inductive request_status := requested | observed | req_failed.
Inductive notification_status := n_pending | n_delivered | n_failed.
#[export] Instance request_status_eq_dec : EqDecision request_status.
Proof. solve_decision. Defined.
#[export] Instance notification_status_eq_dec : EqDecision notification_status.
Proof. solve_decision. Defined.

(** [objective_cancellation_requests] *)
Record cancellation := mkCancellation {
  cn_id : string; cn_owner : string; cn_objective : string; cn_task : string; cn_session : string; cn_key : string;
  cn_status : request_status; cn_error : option string; cn_notification : notification_status; cn_attempts : Z;
  cn_notified_at : option Z; cn_created : Z; cn_updated : Z;
}.
#[export] Instance cancellation_eta : Settable cancellation := λ x,
  mkCancellation (cn_id x) (cn_owner x) (cn_objective x) (cn_task x) (cn_session x) (cn_key x) (cn_status x)
    (cn_error x) (cn_notification x) (cn_attempts x) (cn_notified_at x) (cn_created x) (cn_updated x).
(** PRIMARY KEY, UNIQUE(owner, key), and the partial unique index on the
    requested rows of an objective. *)
Definition cancellation_clash (a b : cancellation) : bool :=
  (cn_id a == cn_id b) || ((cn_owner a == cn_owner b) && (cn_key a == cn_key b)) ||
  ((cn_owner a == cn_owner b) && (cn_objective a == cn_objective b) &&
   (cn_status a == requested) && (cn_status b == requested)).

(** [personal_resource_reservations] *)
Record resource := mkResource {
  pr_objective : string; pr_owner : string; pr_session : string; pr_contract_sha256 : string;
  pr_policy : deployment_contract; pr_repository : string; pr_reserved : Z; pr_workers : Z;
  pr_status : reservation_status; pr_actual : option Z; pr_usage : option string;
  pr_settlement_event : option string; pr_period : string; pr_created : Z; pr_updated : Z;
}.
#[export] Instance resource_eta : Settable resource := λ x,
  mkResource (pr_objective x) (pr_owner x) (pr_session x) (pr_contract_sha256 x) (pr_policy x) (pr_repository x)
    (pr_reserved x) (pr_workers x) (pr_status x) (pr_actual x) (pr_usage x) (pr_settlement_event x) (pr_period x)
    (pr_created x) (pr_updated x).
Definition resource_clash (a b : resource) : bool := pr_objective a == pr_objective b.

(** [objective_state_projections], keyed by owner and objective. *)
Record projection := mkProjection {
  pj_owner : string; pj_objective : string; pj_revision : Z; pj_record : state_contract;
}.

(** The columns read here of tables other components write. *)
Record decision := { dn_owner : string; dn_task : string; dn_state : string }.
Record message := { ms_id : string; ms_owner : string; ms_conversation : string; ms_role : string; ms_status : string }.
Record generated := { gm_owner : string; gm_key : string; gm_message : string }.
Record project_repository := { jr_owner : string; jr_project : string; jr_provider : string; jr_repository : string; jr_name : string }.
Record app_repository := { gr_installation : Z; gr_repository : Z; gr_name : string; gr_active : bool }.
Record installation := { in_id : Z; in_user : string; in_status : string }.

Record obj_db := mkObjDb {
  submissions : list submission;
  executions : list execution;
  execution_events : list execution_event;
  cancellations : list cancellation;
  resources : list resource;
  projections : list projection;
  activity : activity_db;
  credit : list reservation;
  decisions : list decision;
  messages : list message;
  generated_messages : list generated;
  project_repositories : list project_repository;
  app_repositories : list app_repository;
  installations : list installation;
}.
#[export] Instance obj_db_eta : Settable obj_db := λ x,
  mkObjDb (submissions x) (executions x) (execution_events x) (cancellations x) (resources x) (projections x)
    (activity x) (credit x) (decisions x) (messages x) (generated_messages x) (project_repositories x)
    (app_repositories x) (installations x).

Definition otx := tx obj_error obj_db.

Definition mode_res {A} (r : res mode_error A) : res obj_error A :=
  match r with Ok a => Ok a | Err e => Err (ModeError e) end.

(** Runs a statement of the activity store on its tables. *)
Definition in_activity {A} (m : tx act_error activity_db A) : otx A := λ s,
  match m (activity s) with
  | Ok (a, t) => Ok (a, s <| activity := t |>)
  | Err e => Err (ObjActivity e)
  end.

(** ** Projection *)

Definition _WORKING_PHASES (phase : string) : bool := is_running_phase phase.

Definition is_submission (owner objective : string) (r : submission) : bool :=
  (sb_owner r == owner) && (sb_objective r == objective).
Definition is_execution (owner objective : string) (r : execution) : bool :=
  (ex_owner r == owner) && (ex_objective r == objective).
Definition is_event_of (owner objective : string) (r : execution_event) : bool :=
  (ev_owner r == owner) && (ev_objective r == objective).
Definition is_cancellation (owner objective : string) (r : cancellation) : bool :=
  (cn_owner r == owner) && (cn_objective r == objective).
Definition is_projection (owner objective : string) (r : projection) : bool :=
  (pj_owner r == owner) && (pj_objective r == objective).

(** The local [phase]: running evidence outlives later accepted events. *)
Definition observed_phase (s : obj_db) (owner objective : string) : option string :=
  let phases := map ev_phase (select (is_event_of owner objective) (execution_events s)) in
  if existsb _WORKING_PHASES phases then Some "worker.started"
  else if existsb is_accepted_phase phases then Some "objective.accepted"
  else None.

Definition objective_facts (s : obj_db) (owner objective task : string)
    (sub : option submission) (ex : option execution) (recovering : bool) : facts :=
  {| submission_status := (λ r, status_text (sb_status r)) <$> sub;
     execution_phase := observed_phase s owner objective;
     terminal_phase := ex ≫= ex_terminal_phase;
     waiting := exists_row (λ d, (dn_owner d == owner) && (dn_task d == task) &&
       ((dn_state d == "pending") || (dn_state d == "answering"))) (decisions s);
     is_recovering := recovering;
     is_complete := true;
     cancellation_requested := exists_row (is_cancellation owner objective) (cancellations s) |}.

(** [INSERT ... ON CONFLICT DO UPDATE] *)
Definition store_projection (p : projection) (t : list projection) : list projection :=
  let key := is_projection (pj_owner p) (pj_objective p) in
  if exists_row key t then update key (λ _, p) t else t ++ [p].

(** [model_dump(exclude={'revision'})] compared. *)
Definition same_state (a b : state_contract) : bool := (a <| sc_revision := 0 |>) == (b <| sc_revision := 0 |>).

Definition persist_objective_state (owner objective : string) (recovering : bool) : otx unit :=
  sub ← read (λ s, fetchone (is_submission owner objective) (submissions s));
  ex ← read (λ s, fetchone (is_execution owner objective) (executions s));
  match match ex, sub with
        | Some e, _ => Some (ex_task e)
        | None, Some r => Some (sb_task r)
        | None, None => None
        end with
  | None => mret tt
  | Some task =>
      f ← read (λ s, objective_facts s owner objective task sub ex recovering);
      previous ← read (λ s, fetchone (is_projection owner objective) (projections s));
      let current := pj_record <$> previous in
      incoming ← lift (mode_res (project_objective_state objective owner
                   (match current with Some c => sc_revision c + 1 | None => 1 end) f));
      match current with
      | Some c =>
          incoming ← lift (mode_res (advance_objective_state c incoming));
          if same_state incoming c then mret tt
          else modify (λ s, s <| projections ::= store_projection (mkProjection owner objective (sc_revision incoming) incoming) |>)
      | None => modify (λ s, s <| projections ::= store_projection (mkProjection owner objective (sc_revision incoming) incoming) |>)
      end
  end.

(** ** Repositories ([gateway/app/projects.py], [execution_repository]) *)

Record repository := { rp_installation : Z; rp_provider_repository : Z; rp_name : string; rp_project_repository : string }.
(** The join, in the order [installation_id, repository_id]. *)
Definition repository_rows (s : obj_db) (owner project : string) : list repository :=
  let joined :=
    p ← select (λ p, (jr_owner p == owner) && (jr_project p == project) && (jr_provider p == "github")) (project_repositories s);
    a ← select (λ a, gr_active a && (sql_lower (gr_name a) == sql_lower (jr_name p))) (app_repositories s);
    i ← select (λ i, (in_id i =? gr_installation a) && (in_user i == jr_owner p) && (in_status i == "active")) (installations s);
    [{| rp_installation := gr_installation a; rp_provider_repository := gr_repository a; rp_name := gr_name a;
        rp_project_repository := jr_repository p |}] in
  order_by (λ a b, (rp_installation a <? rp_installation b) ||
                   ((rp_installation a =? rp_installation b) && (rp_provider_repository a <=? rp_provider_repository b))) joined.

Definition execution_repository (s : obj_db) (owner : string) (project : option string) : option repository :=
  match project with
  | None => None
  | Some p => if p == "" then None
              else match firstn 2 (repository_rows s owner p) with [r] => Some r | _ => None end
  end.

Definition repository_json (r : repository) : json :=
  JObj [("installation_id", JInt (rp_installation r)); ("provider_repository_id", JInt (rp_provider_repository r));
        ("repository", JStr (rp_name r)); ("project_repository_id", JStr (rp_project_repository r))].

Section Stores.
Context `{TextEngine, Codec}.
(** [deployment_policy()]: the configuration loaded at startup. *)
Context (policy : deployment_contract).

(** ** Personal resource ledger *)

Definition held (owner : string) (r : resource) : bool := (pr_owner r == owner) && (pr_status r == reserved).
Definition spent_in (owner period : string) (r : resource) : bool :=
  (pr_owner r == owner) && (pr_status r == settled) && (pr_period r == period).
Definition resource_of (objective : string) (r : resource) : bool := pr_objective r == objective.

Definition resources_usage (owner : string) (now : Z) : otx resource_usage :=
  t ← read resources;
  historical ← read (λ s, count (λ r, (r_owner r == owner) && (r_status r == reserved)) (credit s));
  unknown ← read (λ s, count (λ e, (ex_owner e == owner) && negb (is_some (ex_terminal_phase e)) &&
              negb (exists_row (λ p, (pr_objective p == ex_objective e) && (pr_status p == reserved)) (resources s))) (executions s));
  require (negb (negb (historical =? 0) || negb (unknown =? 0))) (ModeError (conflict "historical_execution_unsettled"));;
  lift (mode_res (PersonalResourceUsage
    {| ru_owner := owner; observation_complete := true; active_objectives := count (held owner) t;
       active_implementation_workers := sum pr_workers (held owner) t;
       spent_micro_usd := sum (λ r, default 0 (pr_actual r)) (spent_in owner (_period_key now)) t;
       reserved_micro_usd := sum pr_reserved (held owner) t |})).

Definition insert_resource (r : resource) : otx unit := λ s,
  if negb (0 <? pr_reserved r) || negb (within 1 2 (pr_workers r)) then Err ObjIntegrityError
  else match insert resource_clash r (resources s) with
       | Some t => Ok (tt, s <| resources := t |>)
       | None => Err ObjIntegrityError
       end.

Definition resource_reserve (now : Z) (p : option principal) (objective contract_sha256 : string)
    (project : option string) (workers : Z) : otx unit :=
  pr ← lift (mode_res (require_principal policy now p (Some "command")));
  existing ← read (λ s, fetchone (resource_of objective) (resources s));
  match existing with
  | Some e =>
      require ((pr_owner e == user_id pr) && (pr_contract_sha256 e == contract_sha256) && (pr_status e == reserved))
        (ModeError (conflict "personal_reservation_conflict"))
  | None =>
      repository ← read (λ s, execution_repository s (user_id pr) project);
      match repository with
      | None => raise (ModeError (DeploymentModeError "authorized_repository_required" 403))
      | Some repo =>
          u ← resources_usage (user_id pr) now;
          ceiling ← lift (mode_res (check_personal_admission policy now p (Some u) workers));
          repo_json ← lift (of_option ObjValueError (dumps (repository_json repo)));
          insert_resource (mkResource objective (user_id pr) (session_id pr) contract_sha256 policy repo_json ceiling
            workers reserved None None None (_period_key now) now now)
      end
  end.

(** Returns whether a row changed. *)
Definition release_unpublished (now : Z) (owner objective : string) : otx bool :=
  let target s r :=
    (pr_owner r == owner) && (pr_objective r == objective) && (pr_status r == reserved) &&
    negb (exists_row (λ e, ex_objective e == objective) (executions s)) &&
    exists_row (λ b, (sb_objective b == objective) && (sb_status b != s_accepted)) (submissions s) in
  n ← read (λ s, count (target s) (resources s));
  modify (λ s, s <| resources ::= update (target s) (λ r, r <| pr_status := released |> <| pr_updated := now |>) |>);;
  mret (n =? 1).

Definition _TERMINAL_PHASES (phase : string) : bool :=
  (phase == "objective.completed") || (phase == "objective.failed") || (phase == "objective.cancelled").

(** Equality of two flat dicts; keys of a dict are distinct. *)
Definition dict_eqb (a b : dict) : bool :=
  (length a =? length b)%nat &&
  forallb (λ kv, match assoc kv.1 b with Some v => key_eq kv.2 v | None => false end) a.
(** [json.loads(payload).get('usage') == usage] *)
Definition payload_usage_is (payload : string) (usage : dict) : bool :=
  match loads payload with
  | Some (JObj d) => match get "usage" d with JObj u => dict_eqb usage u | _ => false end
  | _ => false
  end.

Definition resource_settle (now : Z) (owner objective event_id : string) (usage : dict) : otx unit :=
  actual ← lift (of_option (ModeError (DeploymentModeError "personal_measured_usage_required" 422)) (as_int (get "cost_micro_usd" usage)));
  require (within 0 MAX_SAFE_INTEGER actual) (ModeError (DeploymentModeError "personal_measured_usage_required" 422));;
  encoded ← lift (of_option ObjValueError (dumps (JObj usage)));
  row ← read (λ s, fetchone (λ r, (pr_owner r == owner) && (pr_objective r == objective)) (resources s));
  event ← read (λ s, fetchone (λ e, is_event_of owner objective e && (ev_id e == event_id)) (execution_events s));
  match row, event with
  | Some r, Some e =>
      require (_TERMINAL_PHASES (ev_phase e) && payload_usage_is (ev_payload e) usage)
        (ModeError (conflict "personal_terminal_evidence_required"));;
      if (pr_status r == settled) && (pr_settlement_event r == Some event_id) && (pr_usage r == Some encoded) then mret tt
      else
        require (pr_status r == reserved) (ModeError (conflict "personal_settlement_conflict"));;
        modify (λ s, s <| resources ::= update (λ r, (pr_owner r == owner) && (pr_objective r == objective))
          (λ r, r <| pr_status := settled |> <| pr_actual := Some actual |> <| pr_usage := Some encoded |>
                  <| pr_settlement_event := Some event_id |> <| pr_period := _period_key now |> <| pr_updated := now |>) |>)
  | _, _ => raise (ModeError (conflict "personal_terminal_evidence_required"))
  end.

(** ** Submissions *)

Record tool_context := {
  tc_owner : string; tc_conversation : string; tc_turn : string; tc_user_message : string;
  tc_assistant_message : string; tc_command_authorized : bool;
}.
Definition _SAFE_CANONICAL_ID (s : string) : bool :=
  existsb (λ p, startswith p s) ["mgc_"; "mgt_"; "mgm_"] &&
  fullmatch_class (λ c, is_alnum c || one_of "_-" c) 4 124 (str_drop 4 s).
Definition _SAFE_OWNER (s : string) : bool :=
  fullmatch_class (λ c, negb (in_range 0 31 c || in_range 127 159 c)) 1 128 s.
Definition _SAFE_INVOCATION_KEY (s : string) : bool := fullmatch_class is_hex 64 64 s.
Definition OBJECTIVE_DISPATCH_LEASE_MS : Z := 30000.

Definition _validate_context (c : tool_context) : res obj_error unit :=
  ensure (tc_command_authorized c && _SAFE_OWNER (tc_owner c) &&
          forallb _SAFE_CANONICAL_ID [tc_conversation c; tc_turn c; tc_user_message c; tc_assistant_message c])
    (MagiToolError "objective_not_authorized" false).

Definition _identities (owner invocation_key : string) : string * string :=
  let digest := sha256_hex ("magi-objective-v1" +:+ NUL +:+ owner +:+ NUL +:+ invocation_key) in
  ("mgo_" +:+ str_take 32 digest, "magi-" +:+ String.substring 32 32 digest).

Record claim_result := {
  cl_objective : string; cl_task : string; cl_contract_json : string; cl_contract_sha256 : string;
  cl_accepted : bool; cl_duplicate : bool; cl_attempt : Z; cl_context_json : string; cl_context_sha256 : string;
}.

Definition by_invocation (owner key : string) (r : submission) : bool := (sb_owner r == owner) && (sb_key r == key).

(** The read before the transaction: whether context must be assembled. *)
Definition claim_needs_context (owner key : string) (s : obj_db) : bool :=
  negb (exists_row (by_invocation owner key) (submissions s)).

Definition insert_submission (r : submission) : otx unit := λ s,
  match insert submission_clash r (submissions s) with
  | Some t => Ok (tt, s <| submissions := t |>)
  | None => Err ObjIntegrityError
  end.

(** The [except] clauses of [claim]: [MagiToolError] and runtime errors pass,
    [sqlite3.Error] and [ValueError] become [objective_store_unavailable]. *)
Definition store_errors {A} (m : otx A) : otx A := λ s,
  match m s with
  | Ok r => Ok r
  | Err ObjValueError | Err ObjIntegrityError | Err (ModeError ValidationError) | Err (ModeError ValueError) =>
      Err (MagiToolError "objective_store_unavailable" true)
  | Err e => Err e
  end.

(** [now_ms] stamps rows; [prepared] is the project and context assembled when
    [claim_needs_context] held; [title] is the display title. *)
Definition claim_existing (now_ms : Z) (ctx : tool_context) (contract_json contract_sha256 : string) (e : submission)
    : otx (res obj_error claim_result) :=
  let '(objective, task) := _identities (tc_owner ctx) (sb_key e) in
  let result accepted attempt :=
    {| cl_objective := objective; cl_task := task; cl_contract_json := contract_json;
       cl_contract_sha256 := contract_sha256; cl_accepted := accepted; cl_duplicate := true; cl_attempt := attempt;
       cl_context_json := sb_context_json e; cl_context_sha256 := sb_context_sha256 e |} in
  require ((sb_objective e == objective) && (sb_task e == task) && (sb_conversation e == tc_conversation ctx) &&
           (sb_turn e == tc_turn ctx) && (sb_user_message e == tc_user_message ctx) &&
           (sb_assistant_message e == tc_assistant_message ctx) && (sb_contract_sha256 e == contract_sha256) &&
           (sb_contract_json e == contract_json)) (MagiToolError "objective_idempotency_conflict" false);;
  if sb_status e == s_accepted then mret (Ok (result true (sb_attempts e)))
  else if (sb_status e == s_submitting) && (now_ms - sb_updated e <? OBJECTIVE_DISPATCH_LEASE_MS) then
    mret (Err (MagiToolError "objective_submission_in_progress" true))
  else
    modify (λ s, s <| submissions ::= update (λ r, (sb_objective r == objective) && (sb_owner r == tc_owner ctx))
      (λ r, r <| sb_status := s_submitting |> <| sb_attempts := sb_attempts e + 1 |> <| sb_error := None |>
              <| sb_updated := now_ms |>) |>);;
    mret (Ok (result false (sb_attempts e + 1))).

Definition claim_new (now now_ms : Z) (ctx : tool_context) (key contract_json contract_sha256 : string)
    (prepared : option (option string * string)) (title : string) (personal_principal : option principal) : otx claim_result :=
  let '(objective, task) := _identities (tc_owner ctx) key in
  prep ← lift (of_option (MagiToolError "objective_store_conflict" false) prepared);
  let '(project, context_json) := prep in
  let context_sha256 := sha256_hex context_json in
  insert_submission (mkSubmission objective task (tc_owner ctx) key (tc_conversation ctx) (tc_turn ctx)
    (tc_user_message ctx) (tc_assistant_message ctx) contract_json contract_sha256 context_json context_sha256
    title project s_submitting 1 None None now_ms now_ms);;
  match personal_principal with
  | Some p =>
      require (user_id p == tc_owner ctx) (MagiToolError "objective_not_authorized" false);;
      resource_reserve now (Some p) objective contract_sha256 project 1
  | None => mret tt
  end;;
  persist_objective_state (tc_owner ctx) objective false;;
  mret {| cl_objective := objective; cl_task := task; cl_contract_json := contract_json;
          cl_contract_sha256 := contract_sha256; cl_accepted := false; cl_duplicate := false; cl_attempt := 1;
          cl_context_json := context_json; cl_context_sha256 := context_sha256 |}.

(** [claim]: the inner result is raised after the commit. *)
Definition claim (now now_ms : Z) (ctx : tool_context) (key contract_json : string)
    (prepared : option (option string * string)) (title : string) (personal_principal : option principal)
    : otx (res obj_error claim_result) :=
  lift (_validate_context ctx);;
  require (_SAFE_INVOCATION_KEY key) (MagiToolError "objective_idempotency_invalid" false);;
  let contract_sha256 := sha256_hex contract_json in
  store_errors (
    existing ← read (λ s, fetchone (by_invocation (tc_owner ctx) key) (submissions s));
    match existing with
    | Some e => claim_existing now_ms ctx contract_json contract_sha256 e
    | None => r ← claim_new now now_ms ctx key contract_json contract_sha256 prepared title personal_principal; mret (Ok r)
    end).

Definition changed_one (n : Z) : otx unit := require (n =? 1) (MagiToolError "objective_store_conflict" false).

Definition accept (now_ms : Z) (owner : string) (c : claim_result) : otx unit :=
  let target r := is_submission owner (cl_objective c) r && (sb_contract_sha256 r == cl_contract_sha256 c) in
  n ← read (λ s, count target (submissions s));
  modify (λ s, s <| submissions ::= update target (λ r, r <| sb_status := s_accepted |> <| sb_error := None |>
    <| sb_accepted_at := Some (default now_ms (sb_accepted_at r)) |> <| sb_updated := now_ms |>) |>);;
  changed_one n;;
  persist_objective_state owner (cl_objective c) false.

Definition safe_code (code : string) : string :=
  if fullmatch1 (λ c, is_lower c || is_digit c) (λ c, is_lower c || is_digit c || one_of "._-" c) 0 63 code
  then code else "objective_dispatch_failed".

Definition fail (now_ms : Z) (owner : string) (c : claim_result) (code : string) : otx bool :=
  let target r := is_submission owner (cl_objective c) r && (sb_status r != s_accepted) in
  n ← read (λ s, count target (submissions s));
  modify (λ s, s <| submissions ::= update target (λ r, r <| sb_status := s_failed |>
    <| sb_error := Some (safe_code code) |> <| sb_updated := now_ms |>) |>);;
  (if n =? 0 then mret tt else persist_objective_state owner (cl_objective c) false);;
  mret (n =? 1).

(** The claim of startup recovery
    ([reconcile_pending_objective_intake], [gateway/app/firstmate_intake.py]). *)
Definition recover_claim (now_ms : Z) (row : submission) : otx bool :=
  let target r := is_submission (sb_owner row) (sb_objective row) r && (sb_status r != s_accepted) && (sb_attempts r =? sb_attempts row) in
  n ← read (λ s, count target (submissions s));
  modify (λ s, s <| submissions ::= update target (λ r, r <| sb_status := s_submitting |>
    <| sb_attempts := sb_attempts row + 1 |> <| sb_error := None |> <| sb_updated := now_ms |>) |>);;
  (if n =? 1 then persist_objective_state (sb_owner row) (sb_objective row) true else mret tt);;
  mret (n =? 1).
End Stores.
