(* ===== verification/Execution.v ===== *)
(** * Execution events and cancellation requests

    [FirstmateExecutionStore] of [gateway/app/firstmate_execution.py] and
    [ObjectiveCancellationService] of [gateway/app/objective_cancellation.py],
    over the tables of [Objectives]. An event is a validated contract value
    with its serialized form; the effects around a notification (the inbox
    note, the hosted transport) happen between its transactions. *)

From stdpp Require Import base option list strings numbers sets.
From Stdlib Require Import ZArith Lia.
From S2P Require Import Prelude Sql Feed Json BillingCatalog BillingLedger Text Activity Deployment Objectives.

Open Scope string_scope.
Open Scope list_scope.
Open Scope Z_scope.

(** ** Events *)

Inductive artifact :=
| PullRequestArtifact (url : string)
| ReportArtifact (id : string)
| CommitArtifact (sha : string).

Inductive event_body :=
| AcceptedBody (title : string) (project : option string) (conversation user_message : string)
| ProgressBody (phase : string)
| CompletedBody (artifacts : list artifact) (evidence_json : string)
| TerminalBody (phase : string).

(** [xe_payload] is the canonical JSON of the whole event. *)
Record exec_event := {
  xe_id : string; xe_objective : string; xe_task : string; xe_run : string; xe_occurred_at : Z;
  xe_body : event_body; xe_payload : string;
}.
Definition xe_phase (e : exec_event) : string :=
  match xe_body e with
  | AcceptedBody _ _ _ _ => "objective.accepted"
  | ProgressBody p => p
  | CompletedBody _ _ => "objective.completed"
  | TerminalBody p => p
  end.
(** The [Literal] types of [phase]. *)
Definition phase_typed (e : exec_event) : bool :=
  match xe_body e with
  | ProgressBody p => is_running_phase p
  | TerminalBody p => (p == "objective.failed") || (p == "objective.cancelled")
  | _ => true
  end.

Definition _PHASE_ACTIVITY : list (string * (string * string * string)) :=
  [("objective.accepted", ("objective.accepted", "active", "Objective was accepted for asynchronous execution."));
   ("worker.started", ("worker.started", "active", "Execution capacity started for the objective."));
   ("implementation.started", ("implementation.started", "active", "Implementation is underway."));
   ("tests.started", ("tests.started", "active", "Verification tests are running."));
   ("tests.passed", ("tests.passed", "completed", "Verification tests passed."));
   ("tests.failed", ("tests.failed", "failed", "Verification tests failed; the objective remains active."));
   ("review.started", ("review.started", "active", "Review is underway."));
   ("objective.completed", ("objective.completed", "completed", "Objective completed with structured verification evidence."));
   ("objective.failed", ("objective.failed", "failed", "Objective execution failed."));
   ("objective.cancelled", ("objective.cancelled", "cancelled", "Objective execution was cancelled."))].

Definition FIRSTMATE_EXECUTION_SOURCE : string := "firstmate:execution".
Definition MAX_RECOVERY_WAKEUPS : Z := 100.
Definition MAX_CANCELLATION_DELIVERY_ATTEMPTS : Z := 8.

(** [_activity_refs] *)
Definition artifact_ref (a : artifact) : option json :=
  match a with
  | PullRequestArtifact u => Some (JObj [("kind", JStr "pull-request"); ("url", JStr u)])
  | ReportArtifact i => Some (JObj [("kind", JStr "report"); ("id", JStr i)])
  | CommitArtifact _ => None
  end.
Definition _activity_refs (e : exec_event) : list json :=
  match xe_body e with CompletedBody l _ => firstn 8 (omap artifact_ref l) | _ => [] end.

(** [_public_event] *)
Record generation := { ge_state : option string; ge_attempt : Z; ge_assistant : option string; ge_error : option string }.
Record public_event := {
  pe_status : string; pe_event_id : string; pe_objective : string; pe_task : string; pe_run : string;
  pe_phase : string; pe_occurred_at : Z; pe_generation : option generation;
}.
Definition _public_event (r : execution_event) (duplicate : bool) : public_event :=
  {| pe_status := if duplicate then "duplicate" else "accepted"; pe_event_id := ev_id r; pe_objective := ev_objective r;
     pe_task := ev_task r; pe_run := ev_run r; pe_phase := ev_phase r; pe_occurred_at := ev_occurred_at r;
     pe_generation := if ev_phase r == "objective.completed" then
       Some {| ge_state := ev_generation r; ge_attempt := ev_attempts r; ge_assistant := ev_assistant r; ge_error := ev_error r |}
       else None |}.

Definition is_event (owner event_id : string) (r : execution_event) : bool := (ev_owner r == owner) && (ev_id r == event_id).

Definition insert_execution (r : execution) : otx unit := λ s,
  match insert execution_clash r (executions s) with
  | Some t => Ok (tt, s <| executions := t |>)
  | None => Err ObjIntegrityError
  end.
Definition insert_execution_event (r : execution_event) : otx unit := λ s,
  match insert execution_event_clash r (execution_events s) with
  | Some t => Ok (tt, s <| execution_events := t |>)
  | None => Err ObjIntegrityError
  end.

Section Events.
Context `{TextEngine, Codec}.

(** The correlation of an accepted event: a new objective from a completed
    user message of the owner. *)
Definition accept_objective (now : Z) (owner : string) (e : exec_event) (title : string) (project : option string)
    (conversation user_message : string) : otx execution :=
  collision ← read (λ s, exists_row (λ x, (ex_owner x == owner) && (ex_task x == xe_task e)) (executions s));
  require (negb collision) FirstmateExecutionConflict;;
  origin ← read (λ s, exists_row (λ m, (ms_id m == user_message) && (ms_owner m == owner) &&
             (ms_conversation m == conversation) && (ms_role m == "user") && (ms_status m == "completed")) (messages s));
  require origin FirstmateExecutionNotFound;;
  let row := mkExecution owner (xe_objective e) (xe_task e) (xe_run e) (xe_id e) conversation user_message title project
               None None now now in
  insert_execution row;;
  mret row.

Definition correlate (now : Z) (owner : string) (e : exec_event) : otx execution :=
  objective ← read (λ s, fetchone (is_execution owner (xe_objective e)) (executions s));
  match xe_body e, objective with
  | AcceptedBody _ _ _ _, Some _ => raise FirstmateExecutionConflict
  | AcceptedBody title project conversation message, None => accept_objective now owner e title project conversation message
  | _, None => raise FirstmateExecutionNotFound
  | _, Some o =>
      require ((ex_task o == xe_task e) && (ex_run o == xe_run e)) FirstmateExecutionConflict;;
      require (negb (is_some (ex_terminal_event o))) FirstmateExecutionConflict;;
      mret o
  end.

Definition activity_of_event (e : exec_event) (o : execution) (row : string * string * string) (hash : string) (now : Z) : activity_args :=
  {| a_record_key := "execution:" +:+ xe_id e; a_kind := row.1.1; a_state := row.1.2; a_importance := "routine";
     a_title := ex_title o; a_summary := row.2; a_payload_sha256 := hash; a_truncated := false;
     a_event_id := Some (xe_id e); a_task_id := Some (xe_task e); a_decision_key := None;
     a_objective_id := Some (xe_objective e); a_run_id := Some (xe_run e); a_project := ex_project o;
     a_occurred_at := Some (xe_occurred_at e); a_observed_at := Some now; a_refs := Some (_activity_refs e) |}.

(** The terminal fact of an objective and of its cancellation requests. *)
Definition finish_objective (now : Z) (owner : string) (e : exec_event) : otx unit :=
  modify (λ s, s <| executions ::= update (is_execution owner (xe_objective e)) (λ x, x
    <| ex_terminal_event := Some (xe_id e) |> <| ex_terminal_phase := Some (xe_phase e) |> <| ex_updated := now |>) |>);;
  if xe_phase e == "objective.cancelled" then
    modify (λ s, s <| cancellations ::= update
      (λ c, is_cancellation owner (xe_objective e) c && ((cn_status c == requested) || (cn_status c == req_failed)))
      (λ c, c <| cn_status := observed |> <| cn_error := None |> <| cn_notification := n_delivered |> <| cn_updated := now |>) |>)
  else
    modify (λ s, s <| cancellations ::= update (λ c, is_cancellation owner (xe_objective e) c && (cn_status c == requested))
      (λ c, c <| cn_status := req_failed |> <| cn_error := Some "objective_terminal" |>
              <| cn_notification := n_delivered |> <| cn_updated := now |>) |>).

Definition ingest (now : Z) (owner : string) (e : exec_event) : otx public_event :=
  require (bounded_id 128 owner) ObjValueError;;
  let payload := xe_payload e in
  let hash := sha256_hex payload in
  duplicate ← read (λ s, fetchone (is_event owner (xe_id e)) (execution_events s));
  match duplicate with
  | Some d =>
      require ((ev_payload_sha256 d == hash) && (ev_payload d == payload)) FirstmateExecutionConflict;;
      mret (_public_event d true)
  | None =>
      o ← correlate now owner e;
      row ← lift (of_option ObjKeyError (assoc (xe_phase e) _PHASE_ACTIVITY));
      projected ← in_activity (_upsert_activity now owner FIRSTMATE_EXECUTION_SOURCE (activity_of_event e o row hash now));
      let stored := mkExecutionEvent owner (xe_id e) (xe_objective e) (xe_task e) (xe_run e) (xe_phase e) (xe_occurred_at e)
        hash payload (match xe_body e with CompletedBody _ ev => Some ev | _ => None end) (p_id projected)
        (if xe_phase e == "objective.completed" then Some "queued" else None) 0 None None now now in
      insert_execution_event stored;;
      (if _TERMINAL_PHASES (xe_phase e) then finish_objective now owner e else mret tt);;
      persist_objective_state owner (xe_objective e) false;;
      mret (_public_event stored false)
  end.

Definition inspect (owner event_id : string) (s : obj_db) : res obj_error public_event :=
  match fetchone (is_event owner event_id) (execution_events s) with
  | Some r => Ok (_public_event r true)
  | None => Err FirstmateExecutionNotFound
  end.

(** ** Completion messages *)

(** What [claim_completion] hands to the generation. *)
Record completion_claim := {
  cc_event : execution_event; cc_conversation : string; cc_origin : string; cc_title : string; cc_project : option string;
}.
Definition claim_completion (now : Z) (owner event_id : string) (retry_failed : bool) : otx (option completion_claim) :=
  joined ← read (λ s, r ← fetchone (is_event owner event_id) (execution_events s);
                     o ← fetchone (is_execution (ev_owner r) (ev_objective r)) (executions s);
                     Some (r, o));
  match joined with
  | None => raise FirstmateExecutionNotFound
  | Some (r, o) =>
      require ((ev_phase r == "objective.completed") && (default "" (ev_evidence r) != "")) FirstmateExecutionConflict;;
      if (ev_generation r == Some "queued") || ((ev_generation r == Some "failed") && retry_failed) then
        modify (λ s, s <| execution_events ::= update (λ x, is_event owner event_id x && (ev_generation x == ev_generation r))
          (λ x, x <| ev_generation := Some "generating" |> <| ev_attempts ::= Z.succ |> <| ev_error := None |> <| ev_updated := now |>) |>);;
        mret (Some {| cc_event := r <| ev_attempts ::= Z.succ |>; cc_conversation := ex_conversation o;
                      cc_origin := ex_origin o; cc_title := ex_title o; cc_project := ex_project o |})
      else mret None
  end.

(** [completed] is [state == "completed"]. *)
Definition finish_completion (now : Z) (owner event_id : string) (completed : bool) (assistant : option string) : otx unit :=
  require (negb completed || (default "" assistant != "")) ObjValueError;;
  let error := if completed then None else Some "magi_generation_failed" in
  row ← read (λ s, fetchone (is_event owner event_id) (execution_events s));
  match row with
  | None => raise FirstmateExecutionNotFound
  | Some r =>
      if ev_generation r == Some "completed" then
        require (completed && (ev_assistant r == assistant)) FirstmateExecutionConflict
      else
        require (ev_generation r == Some "generating") FirstmateExecutionConflict;;
        known ← read (λ s, match assistant with
          | None => true
          | Some a => exists_row (λ g, (gm_owner g == owner) && (gm_key g == event_id) && (gm_message g == a) &&
                        exists_row (λ m, (ms_id m == gm_message g) && (ms_owner m == owner) && (ms_role m == "assistant")) (messages s))
                      (generated_messages s)
          end);
        require known FirstmateExecutionNotFound;;
        modify (λ s, s <| execution_events ::= update (is_event owner event_id) (λ x, x
          <| ev_generation := Some (if completed then "completed" else "failed") |> <| ev_assistant := assistant |>
          <| ev_error := error |> <| ev_updated := now |>) |>)
  end.

(** Returns the number of requeued claims. *)
Definition recover_interrupted (now : Z) : otx Z :=
  let interrupted x := ev_generation x == Some "generating" in
  n ← read (λ s, count interrupted (execution_events s));
  modify (λ s, s <| execution_events ::= update interrupted (λ x, x
    <| ev_generation := Some "queued" |> <| ev_error := None |> <| ev_updated := now |>) |>);;
  mret n.

Definition queued_completions (policy : deployment_contract) (limit : Z) (s : obj_db) : res obj_error (list (string * string)) :=
  ensure (within 1 MAX_RECOVERY_WAKEUPS limit) ObjValueError;;
  let owner := if is_personal policy then owner_principal_id policy else None in
  Ok (map (λ r, (ev_owner r, ev_id r))
    (take limit (order_by (λ a b, ev_created a <=? ev_created b)
      (select (λ r, (ev_generation r == Some "queued") && match owner with Some o => ev_owner r == o | None => true end)
        (execution_events s))))).

(** ** Cancellation *)

Record public_cancellation := {
  pc_request : string; pc_objective : string; pc_status : request_status; pc_requested_at : Z; pc_duplicate : bool;
}.
Definition _public (r : cancellation) (duplicate : bool) : public_cancellation :=
  {| pc_request := cn_id r; pc_objective := cn_objective r; pc_status := cn_status r; pc_requested_at := cn_created r;
     pc_duplicate := duplicate |}.

(** [^mgo_[0-9a-f]{32}$] and [^[A-Za-z0-9][A-Za-z0-9._:-]{7,127}$] *)
Definition _SAFE_OBJECTIVE_ID (s : string) : bool := startswith "mgo_" s && fullmatch_class is_hex 32 32 (str_drop 4 s).
Definition _SAFE_IDEMPOTENCY (s : string) : bool := fullmatch1 is_alnum (λ c, is_alnum c || one_of "._:-" c) 7 127 s.

(** A personal hold whose objective the runtime has not acknowledged. *)
Definition dispatch_uncertain (s : obj_db) (owner objective : string) : bool :=
  exists_row (λ p, (pr_owner p == owner) && (pr_objective p == objective) &&
    negb (exists_row (λ e, (ex_owner e == pr_owner p) && (ex_objective e == pr_objective p)) (executions s))) (resources s).

(** [(task_id, terminal_phase)] of the objective to cancel. *)
Definition cancellation_target (s : obj_db) (owner objective : string) : option (string * option string) :=
  match fetchone (is_submission owner objective) (submissions s) with
  | Some b =>
      Some (sb_task b, fetchone (λ e, (ex_owner e == sb_owner b) && ((ex_objective e == sb_objective b) || (ex_task e == sb_task b)))
                         (executions s) ≫= ex_terminal_phase)
  | None => (λ e, (ex_task e, ex_terminal_phase e)) <$> fetchone (is_execution owner objective) (executions s)
  end.

Definition insert_cancellation (r : cancellation) : otx unit := λ s,
  match insert cancellation_clash r (cancellations s) with
  | Some t => Ok (tt, s <| cancellations := t |>)
  | None => Err (ObjectiveCancellationError "request_conflict" 409)
  end.
Definition request_id_of (owner key : string) : string :=
  "ocr_" +:+ str_take 32 (sha256_hex ("objective-cancel-v1" +:+ NUL +:+ owner +:+ NUL +:+ key)).

(** [UPDATE ... SET status = 'requested' ... WHERE request_id = ? AND status =
    'failed'], which may meet the partial unique index. *)
Definition reopen_cancellation (err : obj_error) (id : string) (f : cancellation → cancellation) : otx unit := λ s,
  let t := update (λ c, (cn_id c == id) && (cn_status c == req_failed)) f (cancellations s) in
  if existsb (λ c, (cn_id c == id) && existsb (λ d, (cn_id d != id) && cancellation_clash c d) t) t
  then Err err
  else Ok (tt, s <| cancellations := t |>).

(** What [request] does after its transaction: return, or notify. *)
Inductive next_step := Return (p : public_cancellation) | Notify (r : cancellation) (duplicate : bool).

Definition request (now : Z) (owner session objective key : string) : otx next_step :=
  require (_SAFE_OBJECTIVE_ID objective) (ObjectiveCancellationError "invalid_target" 404);;
  require (_SAFE_IDEMPOTENCY key) (ObjectiveCancellationError "invalid_idempotency" 422);;
  uncertain ← read (λ s, dispatch_uncertain s owner objective);
  require (negb uncertain) (ObjectiveCancellationError "dispatch_unobserved" 409);;
  existing ← read (λ s, fetchone (λ c, (cn_owner c == owner) && (cn_key c == key)) (cancellations s));
  match existing with
  | Some c =>
      require (cn_objective c == objective) (ObjectiveCancellationError "idempotency_conflict" 409);;
      c ← (if cn_status c == req_failed then
             terminal ← read (λ s, fetchone (is_execution owner objective) (executions s) ≫= ex_terminal_phase);
             require (negb (is_some terminal)) (ObjectiveCancellationError "already_terminal" 409);;
             reopen_cancellation (ObjectiveCancellationError "request_conflict" 409) (cn_id c) (λ x, x
               <| cn_status := requested |> <| cn_error := None |> <| cn_notification := n_failed |> <| cn_updated := now |>);;
             reread ← read (λ s, fetchone (λ x, cn_id x == cn_id c) (cancellations s));
             lift (of_option (ObjectiveCancellationError "store_unavailable" 503) reread)
           else mret c);
      if (cn_status c == requested) && (cn_notification c == n_failed) then mret (Notify c true)
      else mret (Return (_public c true))
  | None =>
      active ← read (λ s, fetchone (λ c, is_cancellation owner objective c && (cn_status c == requested)) (cancellations s));
      match active with
      | Some c => mret (Return (_public c true))
      | None =>
          target ← read (λ s, cancellation_target s owner objective);
          target ← lift (of_option (ObjectiveCancellationError "not_found" 404) target);
          require (negb (is_some target.2)) (ObjectiveCancellationError "already_terminal" 409);;
          let row := mkCancellation (request_id_of owner key) owner objective target.1 session key requested None n_pending 0 None now now in
          insert_cancellation row;;
          persist_objective_state owner objective false;;
          mret (Notify row false)
      end
  end.

(** The transactions of [_notify], before and after the effect. *)
Definition by_id (id : string) (c : cancellation) : bool := cn_id c == id.
Definition notify_begin (now : Z) (id : string) : otx cancellation :=
  modify (λ s, s <| cancellations ::= update (λ c, by_id id c && (cn_status c == requested)) (λ c, c
    <| cn_notification := n_pending |> <| cn_error := None |> <| cn_attempts ::= Z.succ |> <| cn_updated := now |>) |>);;
  current ← read (λ s, fetchone (by_id id) (cancellations s));
  lift (of_option (ObjectiveCancellationError "store_unavailable" 503) current).
Definition notify_failed (now : Z) (id : string) : otx unit :=
  modify (λ s, s <| cancellations ::= update (λ c, by_id id c && (cn_status c == requested)) (λ c, c
    <| cn_error := Some "intake_unavailable" |> <| cn_notification := n_failed |> <| cn_updated := now |>) |>).
Definition notify_delivered (now : Z) (id : string) : otx cancellation :=
  modify (λ s, s <| cancellations ::= update (by_id id) (λ c, c
    <| cn_notification := n_delivered |> <| cn_notified_at := Some now |> <| cn_updated := now |>) |>);;
  row ← read (λ s, fetchone (by_id id) (cancellations s));
  lift (of_option (ObjectiveCancellationError "store_unavailable" 503) row).

(** The rows startup recovery examines, and what it does with one. *)
Definition recoverable (cutoff : Z) (c : cancellation) : bool :=
  ((cn_notification c == n_pending) || (cn_notification c == n_failed)) &&
  (cn_attempts c <? MAX_CANCELLATION_DELIVERY_ATTEMPTS) && (cn_updated c <? cutoff).
Definition recovery_rows (maximum cutoff : Z) (s : obj_db) : list (cancellation * option string) :=
  map (λ c, (c, fetchone (is_execution (cn_owner c) (cn_objective c)) (executions s) ≫= ex_terminal_phase))
    (take maximum (order_by (λ a b, (cn_created a <? cn_created b) || ((cn_created a =? cn_created b) && String.leb (cn_id a) (cn_id b)))
      (select (recoverable cutoff) (cancellations s)))).

Inductive recovery := Uncertain | Finished | Retry (c : cancellation).
Definition recover_one (now : Z) (row : cancellation) (terminal : option string) : otx recovery :=
  uncertain ← read (λ s, dispatch_uncertain s (cn_owner row) (cn_objective row));
  if uncertain : bool then mret Uncertain
  else match terminal with
  | Some phase =>
      let done_ := phase == "objective.cancelled" in
      modify (λ s, s <| cancellations ::= update (by_id (cn_id row)) (λ c, c
        <| cn_status := if done_ then observed else req_failed |>
        <| cn_error := if done_ then None else Some "objective_terminal" |>
        <| cn_notification := n_delivered |> <| cn_updated := now |>) |>);;
      mret Finished
  | None =>
      reopen_cancellation ObjIntegrityError (cn_id row) (λ c, c <| cn_status := requested |> <| cn_error := None |>);;
      retry ← read (λ s, fetchone (by_id (cn_id row)) (cancellations s));
      retry ← lift (of_option ObjKeyError retry);
      mret (Retry retry)
  end.
End Events.
