(* ===== verification/ObjectiveInvariant.v ===== *)
(** * Invariants of an objective's life

    What every operation on the objective tables preserves: a stored projection
    is a valid contract that the durable facts support ([proj_ok]), the
    execution ledger is consistent and a cancellation is observed only after
    its event ([exec_ok]), and the personal holds stay within the worker limit
    ([holds_ok]). *)

From stdpp Require Import base option list strings numbers sets.
From Stdlib Require Import ZArith Lia.
From S2P Require Import Prelude Sql Feed Json BillingCatalog BillingLedger Text Activity Deployment DeploymentTheorems Objectives Execution.

Open Scope string_scope.
Open Scope list_scope.
Open Scope Z_scope.

(** ** Durable facts *)

Definition terminal_of (s : obj_db) (owner objective : string) : option string :=
  fetchone (is_execution owner objective) (executions s) ≫= ex_terminal_phase.
Definition is_accepted (s : obj_db) (owner objective : string) : bool :=
  match fetchone (is_submission owner objective) (submissions s) with
  | Some r => sb_status r == s_accepted
  | None => false
  end.
Definition has_cancellation (s : obj_db) (owner objective : string) : bool :=
  exists_row (is_cancellation owner objective) (cancellations s).

(** The furthest stage the facts support. *)
Definition reach (s : obj_db) (owner objective : string) : Z :=
  match terminal_of s owner objective with
  | Some _ => 5
  | None =>
      match observed_phase s owner objective with
      | Some p => if is_running_phase p then 4 else 3
      | None => if is_accepted s owner objective then 2 else 1
      end
  end.

(** Facts only accumulate. *)
Record grows (s s' : obj_db) : Prop := {
  grow_terminal : ∀ o k p, terminal_of s o k = Some p → terminal_of s' o k = Some p;
  grow_events : ∀ o k e, e ∈ execution_events s → is_event_of o k e = true →
    ∃ e', e' ∈ execution_events s' ∧ is_event_of o k e' = true ∧ ev_phase e' = ev_phase e;
  grow_accepted : ∀ o k, is_accepted s o k = true → is_accepted s' o k = true;
  grow_cancellations : ∀ o k, has_cancellation s o k = true → has_cancellation s' o k = true;
}.

#[export] Instance grows_refl : Reflexive grows.
Proof. intros s. constructor; eauto. Qed.

(** A projection the facts support. *)
Record supported (s : obj_db) (p : projection) : Prop := {
  sup_valid : ObjectiveStateContract (pj_record p) = Ok (pj_record p);
  sup_owner : sc_owner (pj_record p) = pj_owner p;
  sup_objective : sc_objective_id (pj_record p) = pj_objective p;
  sup_revision : sc_revision (pj_record p) = pj_revision p;
  sup_progress : _PROGRESS_ORDER (sc_progress (pj_record p)) ≤ reach s (pj_owner p) (pj_objective p);
  sup_terminal : terminal (pj_record p) = true →
    terminal_of s (pj_owner p) (pj_objective p) ≫= _TERMINAL_STATES = Some (sc_state (pj_record p));
  sup_cancel : sc_cancellation (pj_record p) ≠ not_cancelled →
    has_cancellation s (pj_owner p) (pj_objective p) = true ∨ sc_state (pj_record p) = cancelled;
}.

Definition projection_key (p : projection) : string * string := (pj_owner p, pj_objective p).

Record proj_ok (s : obj_db) : Prop := {
  proj_keys : NoDup (map projection_key (projections s));
  proj_supported : ∀ p, p ∈ projections s → supported s p;
}.

(** What the existence tests of [observed_phase] say. *)
Lemma observed_phase_cases s o k :
  (observed_phase s o k = Some "worker.started" ∧ ∃ e, e ∈ execution_events s ∧ is_event_of o k e = true ∧ is_running_phase (ev_phase e) = true) ∨
  (observed_phase s o k = Some "objective.accepted" ∧ ∃ e, e ∈ execution_events s ∧ is_event_of o k e = true ∧ ev_phase e = "objective.accepted") ∨
  (observed_phase s o k = None ∧ ∀ e, e ∈ execution_events s → is_event_of o k e = true →
     is_running_phase (ev_phase e) = false ∧ ev_phase e ≠ "objective.accepted").
Proof.
  unfold observed_phase. destruct (existsb _WORKING_PHASES _) eqn:E1; [left|right; destruct (existsb is_accepted_phase _) eqn:E2; [left|right]].
  - apply existsb_exists in E1 as (ph & (e & <- & He)%in_map_iff & Hp). split; [done|]. exists e.
    apply list_elem_of_In, elem_of_select in He as [? ?]. done.
  - apply existsb_exists in E2 as (ph & (e & <- & He)%in_map_iff & Hp%eqb_true). split; [done|]. exists e.
    apply list_elem_of_In, elem_of_select in He as [? ?]. done.
  - split; [done|]. intros e He Hk.
    assert (ev_phase e ∈ map ev_phase (select (is_event_of o k) (execution_events s))) as Hin
      by (apply list_elem_of_fmap_2, elem_of_select; done).
    apply list_elem_of_In in Hin. split.
    + destruct (is_running_phase _) eqn:E; [|done].
      assert (existsb _WORKING_PHASES (map ev_phase (select (is_event_of o k) (execution_events s))) = true)
        by (apply existsb_exists; eauto). congruence.
    + intros E. assert (existsb is_accepted_phase (map ev_phase (select (is_event_of o k) (execution_events s))) = true)
        by (apply existsb_exists; eexists; split; [exact Hin|]; rewrite E; done). congruence.
Qed.

Lemma reach_bounds s o k : 1 ≤ reach s o k ≤ 5.
Proof. unfold reach. repeat case_match; lia. Qed.

Lemma reach_grows s s' o k : grows s s' → reach s o k ≤ reach s' o k.
Proof.
  intros [Ht He Ha _]. pose proof (reach_bounds s' o k). unfold reach at 1.
  destruct (terminal_of s o k) as [p|] eqn:E. { unfold reach. by rewrite (Ht _ _ _ E). }
  unfold reach. destruct (terminal_of s' o k); [repeat case_match; lia|].
  destruct (observed_phase_cases s o k) as [(-> & e & Hin & Hk & Hr)|[(-> & e & Hin & Hk & Hr)|(-> & _)]].
  - destruct (He o k e Hin Hk) as (e' & Hin' & Hk' & Hp).
    destruct (observed_phase_cases s' o k) as [(-> & _)|[(Hx & e2 & _)|(_ & Hnone)]].
    + done.
    + exfalso. unfold observed_phase in Hx. destruct (existsb _WORKING_PHASES _) eqn:E1; [done|].
      assert (existsb _WORKING_PHASES (map ev_phase (select (is_event_of o k) (execution_events s'))) = true); [|congruence].
      apply existsb_exists. exists (ev_phase e'). split; [|by rewrite Hp].
      apply list_elem_of_In, list_elem_of_fmap_2, elem_of_select. done.
    + destruct (Hnone e' Hin' Hk') as [Hf _]. rewrite Hp in Hf. congruence.
  - destruct (He o k e Hin Hk) as (e' & Hin' & Hk' & Hp).
    destruct (observed_phase_cases s' o k) as [(-> & _)|[(-> & _)|(_ & Hnone)]]; [cbn; lia..|].
    destruct (Hnone e' Hin' Hk') as [_ Hf]. congruence.
  - destruct (is_accepted s o k) eqn:Ea; [rewrite (Ha _ _ Ea)|]; repeat case_match; lia.
Qed.

Lemma proj_ok_grows s s' : grows s s' → projections s' = projections s → proj_ok s → proj_ok s'.
Proof.
  intros Hg Hp [Hk Hs]. constructor; rewrite Hp; [done|]. intros p Hin. destruct (Hs p Hin) as [H1 H2 H3 Hr H4 H5 H6].
  constructor; try done.
  - pose proof (reach_grows s s' (pj_owner p) (pj_objective p) Hg). lia.
  - intros T. specialize (H5 T). destruct (terminal_of s _ _) as [ph|] eqn:E; [|done].
    by rewrite (grow_terminal _ _ Hg _ _ _ E).
  - intros N. destruct (H6 N) as [Hc|?]; [left|by right]. by apply (grow_cancellations _ _ Hg).
Qed.

(** ** The projection step *)

Lemma phase_is_running f : execution_phase f = Some "worker.started" → phase_is f is_running_phase = true ∧ phase_is f is_accepted_phase = false.
Proof. unfold phase_is. by intros ->. Qed.
Lemma phase_is_accepted f : execution_phase f = Some "objective.accepted" → phase_is f is_running_phase = false ∧ phase_is f is_accepted_phase = true.
Proof. unfold phase_is. by intros ->. Qed.
Lemma phase_is_none f p : execution_phase f = None → phase_is f p = false.
Proof. unfold phase_is. by intros ->. Qed.

(** The facts of an objective as the projection reads them. *)
Section Facts.
Context (s : obj_db) (o k task : string) (recovering : bool).
Let f : facts := objective_facts s o k task (fetchone (is_submission o k) (submissions s))
  (fetchone (is_execution o k) (executions s)) recovering.

Lemma facts_terminal : terminal_fact f = terminal_of s o k.
Proof.
  unfold f, terminal_fact, terminal_of, objective_facts. cbn.
  destruct (fetchone (is_execution o k) (executions s) ≫= ex_terminal_phase); [done|].
  by destruct (observed_phase_cases s o k) as [(-> & _)|[(-> & _)|(-> & _)]].
Qed.

Lemma facts_status : (submission_status f == Some "accepted") = is_accepted s o k.
Proof.
  unfold f, is_accepted, objective_facts. cbn. destruct (fetchone _ _) as [r|]; [|done]. cbn.
  by destruct (sb_status r).
Qed.

(** The projected state is terminal exactly on a terminal fact. *)
Lemma facts_state : is_terminal (projected_state f) = true ↔ terminal_of s o k ≫= _TERMINAL_STATES = Some (projected_state f).
Proof.
  unfold projected_state. rewrite facts_terminal. destruct (terminal_of s o k ≫= _TERMINAL_STATES) as [t|] eqn:E.
  - split; [done|]. intros _. destruct (terminal_of s o k); [|done]. by apply TERMINAL_STATES_terminal in E.
  - split; [|done]. repeat case_match; done.
Qed.

Lemma facts_terminal_state t : terminal_of s o k ≫= _TERMINAL_STATES = Some t → projected_state f = t.
Proof. intros E. unfold projected_state. by rewrite facts_terminal, E. Qed.

Lemma facts_progress : _PROGRESS_ORDER (projected_progress f) ≤ reach s o k.
Proof.
  unfold projected_progress. destruct (is_terminal (projected_state f)) eqn:T.
  - apply facts_state in T. unfold reach. destruct (terminal_of s o k); [cbn; lia|done].
  - unfold reach. destruct (terminal_of s o k); [repeat case_match; cbn; lia|].
    assert (execution_phase f = observed_phase s o k) as Ep by done.
    destruct (observed_phase_cases s o k) as [(E & _)|[(E & _)|(E & _)]]; rewrite E in Ep |- *.
    + destruct (phase_is_running f Ep) as [-> _]. cbn. lia.
    + destruct (phase_is_accepted f Ep) as [-> ->]. cbn. lia.
    + rewrite !phase_is_none by done. rewrite facts_status. repeat case_match; cbn; lia.
Qed.

(** A state that names its stage names the furthest one. *)
Lemma facts_named p : named_stage (projected_state f) = Some p → reach s o k ≤ _PROGRESS_ORDER (projected_progress f).
Proof.
  intros Hp. destruct (projected_named f p Hp) as [Hpr T]. rewrite Hpr.
  assert (terminal_of s o k = None) as Et.
  { rewrite <- facts_terminal. destruct (terminal_fact f) as [t|] eqn:Et; [|done]. exfalso.
    unfold projected_state in Hp, T. rewrite Et in Hp, T. cbn in Hp, T.
    destruct (_TERMINAL_STATES t) as [x|] eqn:Ex; [apply TERMINAL_STATES_terminal in Ex; congruence|]. done. }
  unfold reach. rewrite Et. assert (execution_phase f = observed_phase s o k) as Ep by done.
  unfold projected_state in Hp. rewrite facts_terminal, Et in Hp. cbn in Hp.
  pose proof facts_status as Hfs. destruct recovering; [done|].
  destruct (observed_phase_cases s o k) as [(E & _)|[(E & _)|(E & _)]]; rewrite E in Ep |- *; cbn.
  - unfold phase_is in Hp. rewrite Ep in Hp. cbn in Hp.
    destruct (exists_row _ _); [done|]. injection Hp as <-. cbn. lia.
  - unfold phase_is in Hp. rewrite Ep in Hp. cbn in Hp.
    destruct (exists_row _ _); [done|]. injection Hp as <-. cbn. lia.
  - unfold phase_is in Hp. rewrite Ep in Hp. cbn in Hp, Hfs. rewrite Hfs in Hp.
    destruct (exists_row _ _); [done|]. destruct (is_accepted s o k); [injection Hp as <-; cbn; lia|].
    clear Hfs. case_bool_decide; [injection Hp as <-; cbn; lia|done].
Qed.
End Facts.

Lemma allowed_uncertain c i : is_terminal c = false → _UNCERTAIN_STATES i = true → _ALLOWED_TRANSITIONS c i = true.
Proof. by destruct c, i. Qed.
Lemma allowed_final c i : is_terminal c = false → is_terminal i = true → _ALLOWED_TRANSITIONS c i = true.
Proof. by destruct c, i. Qed.
Lemma allowed_same c : is_terminal c = true → _ALLOWED_TRANSITIONS c c = true.
Proof. by destruct c. Qed.
(** Between observed states, the stages decide. *)
Lemma allowed_named c i p (q : progress) :
  is_terminal c = false → named_stage i = Some p → match named_stage c with Some r => q == r | None => true end = true →
  _PROGRESS_ORDER q ≤ _PROGRESS_ORDER p → _ALLOWED_TRANSITIONS c i = true.
Proof.
  intros Hc Hi Hq Hle. destruct c; try done; cbn in Hq; try apply eqb_true in Hq as ->;
    destruct i; try done; injection Hi as <-; cbn in Hle; lia.
Qed.
Lemma final_or_named i : _UNCERTAIN_STATES i = false → named_stage i = None → is_terminal i = true.
Proof. by destruct i. Qed.

(** Both replacement tests succeed on supported records. *)
Lemma advance_supported s p (o k task : string) recovering i :
  supported s p → pj_owner p = o → pj_objective p = k →
  project_objective_state k o (sc_revision (pj_record p) + 1)
    (objective_facts s o k task (fetchone (is_submission o k) (submissions s)) (fetchone (is_execution o k) (executions s)) recovering) = Ok i →
  ∃ c, advance_objective_state (pj_record p) i = Ok c ∧ sc_state c = sc_state i ∧ sc_revision c = sc_revision i ∧
       sc_cancellation c = sc_cancellation i ∧ sc_owner c = o ∧ sc_objective_id c = k ∧ ObjectiveStateContract c = Ok c ∧
       _PROGRESS_ORDER (sc_progress c) ≤ reach s o k.
Proof.
  set (f := objective_facts _ _ _ _ _ _ _). intros [Hv Hso Hsk _ Hp Ht Hc] <- <- Hi. rename Hso into Ho, Hsk into Hk.
  pose proof Hi as Hiv. unfold project_objective_state in Hi. apply contract_ok in Hi as Hi'. destruct Hi' as (-> & Hi').
  set (i := mkState _ _ _ _ _ _) in *. assert (ObjectiveStateContract i = Ok i) as Hival by exact Hi. clear Hiv Hi.
  set (c := pj_record p) in *. set (o := pj_owner p) in *. set (k := pj_objective p) in *.
  apply contract_ok in Hv as Hv'. destruct Hv' as (_ & _ & _ & _ & Hvs).
  unfold validate_state in Hvs. apply andb_true_iff in Hvs as [Hvs Hn]. apply andb_true_iff in Hvs as [_ Hvt].
  apply eqb_prop in Hvt.
  assert (_PROGRESS_ORDER (sc_progress i) ≤ reach s o k) as Hpi by apply facts_progress.
  assert (terminal c = true → sc_state i = sc_state c) as Hterm.
  { intros T. apply Ht in T. by apply (facts_terminal_state s o k task recovering) in T. }
  assert (∃ i', keep_progress c i = Ok i' ∧ sc_state i' = sc_state i ∧ sc_revision i' = sc_revision i ∧
     sc_cancellation i' = sc_cancellation i ∧ sc_owner i' = o ∧ sc_objective_id i' = k ∧ ObjectiveStateContract i' = Ok i' ∧
     _PROGRESS_ORDER (sc_progress i') ≤ reach s o k ∧
     (terminal c = false → _UNCERTAIN_STATES (sc_state i) = true → _PROGRESS_ORDER (sc_progress c) ≤ _PROGRESS_ORDER (sc_progress i')) ∧
     (_UNCERTAIN_STATES (sc_state i) = false → i' = i) ∧ (terminal c = true → i' = i)) as (i' & Hkeep & Hst & Hrev & Hca & How & Hob & Hval & Hpr & Hun & Hsame & Hsame').
  { unfold keep_progress. destruct (negb (terminal c) && _ && _) eqn:E.
    - bools. exists (i <| sc_progress := sc_progress c |>). destruct Hi' as (Ha & Hb & Hd & Hvi).
      assert (ObjectiveStateContract (i <| sc_progress := sc_progress c |>) = Ok (i <| sc_progress := sc_progress c |>)) as Hok.
      { apply contract_ok. cbn. split_and!; [done..|]. unfold validate_state in *. cbn in *.
        apply andb_true_iff in Hvi as [Hvi _]. apply andb_true_iff in Hvi as [-> _]. cbn.
        unfold terminal. cbn. assert (is_terminal (projected_state f) = false ∧ named_stage (projected_state f) = None) as [-> ->].
        { destruct (projected_state f); done. }
        rewrite <- Hvt. by rewrite H. }
      split_and!; try done; try exact Hp; try congruence.
    - exists i. split_and!; try done. intros T U. rewrite T, U in E. cbn in E. by bools. }
  assert (sc_revision i = sc_revision c + 1) as Hri by done.
  assert (_PROGRESS_ORDER (sc_progress c) ≤ _PROGRESS_ORDER (sc_progress i') ∧ _ALLOWED_TRANSITIONS (sc_state c) (sc_state i') = true)
    as [Hmono Hallow].
  { rewrite Hst. destruct (terminal c) eqn:T.
    - rewrite (Hsame' eq_refl), (Hterm eq_refl). split; [|by apply allowed_same].
      destruct Hi' as (_ & _ & _ & Hvi). unfold validate_state in Hvi.
      apply andb_true_iff in Hvi as [Hvi _]. apply andb_true_iff in Hvi as [_ Hvi%eqb_prop].
      unfold terminal in Hvi, T. rewrite (Hterm eq_refl), T in Hvi. symmetry in Hvi. apply eqb_true in Hvi.
      rewrite Hvi. destruct (sc_progress c); cbn; lia.
    - destruct (_UNCERTAIN_STATES (sc_state i)) eqn:U; [split; [auto|by apply allowed_uncertain]|].
      rewrite (Hsame eq_refl). destruct (named_stage (sc_state i)) as [st|] eqn:En.
      + pose proof (facts_named s o k task recovering st En) as Hreach.
        assert (_PROGRESS_ORDER (sc_progress c) ≤ _PROGRESS_ORDER (sc_progress i)) as Hle
          by (etransitivity; [exact Hp|exact Hreach]).
        split; [done|]. destruct (projected_named f st En) as [Hpn _]. change (projected_progress f) with (sc_progress i) in Hpn.
        rewrite Hpn in Hle. by eapply allowed_named.
      + pose proof (final_or_named _ U En) as Ti. split; [|by apply allowed_final].
        assert (sc_progress i = at_terminal) as ->.
        { change (sc_progress i) with (projected_progress f). unfold projected_progress. change (projected_state f) with (sc_state i).
          by rewrite Ti. }
        destruct (sc_progress c); cbn; lia. }
  assert (negb (sc_cancellation c != not_cancelled) || negb (sc_cancellation i' == not_cancelled) = true) as Hcan.
  { rewrite Hca. destruct (sc_cancellation c != not_cancelled) eqn:E; [apply orb_true_iff; right|done]. bools.
    destruct (Hc E) as [Hx|Hx].
    - change (sc_cancellation i) with (if projected_state f == cancelled then cancel_observed
        else if cancellation_requested f then cancel_requested else not_cancelled).
      assert (cancellation_requested f = true) as -> by exact Hx. by destruct (projected_state f == cancelled).
    - assert (sc_state i = cancelled) as Hs. { rewrite <- Hx. apply Hterm. unfold terminal. by rewrite Hx. }
      change (sc_cancellation i) with (if sc_state i == cancelled then cancel_observed
        else if cancellation_requested f then cancel_requested else not_cancelled). by rewrite Hs. }
  exists i'. split; [|done]. unfold advance_objective_state. change (sc_owner i) with o. change (sc_objective_id i) with k.
  rewrite Ho, Hk, !eqb_refl. cbn [andb ensure mbind res_bind].
  rewrite (proj2 (Z.ltb_ge _ _)) by lia. cbn [negb ensure mbind res_bind]. rewrite Hkeep. cbn [mbind res_bind].
  rewrite (proj2 (Z.eqb_neq _ _)) by lia.
  assert (negb (terminal c && (sc_state i' != sc_state c)) = true) as ->.
  { destruct (terminal c) eqn:T; [|done]. rewrite Hst, (Hterm eq_refl), eqb_refl. done. }
  cbn [ensure mbind res_bind]. rewrite Hallow, (proj2 (Z.ltb_ge _ _)) by lia. cbn [negb orb ensure mbind res_bind].
  destruct (sc_cancellation c != not_cancelled), (sc_cancellation i' == not_cancelled); done.
Qed.

(** ** Storing a projection *)

Lemma is_projection_key o k p : is_projection o k p = true ↔ projection_key p = (o, k).
Proof. unfold is_projection, projection_key. rewrite andb_true_iff, !bool_decide_eq_true. naive_solver. Qed.

Lemma elem_of_store p q t :
  q ∈ store_projection p t → q = p ∨ (q ∈ t ∧ projection_key q ≠ projection_key p).
Proof.
  unfold store_projection. destruct (exists_row _ t) eqn:E.
  - intros (q0 & Hq & ->)%elem_of_update. destruct (is_projection _ _ q0) eqn:Ek; [by left|]. right. split; [done|].
    intros Hk. apply is_projection_key in Hk. congruence.
  - intros [Hq| ->%list_elem_of_singleton]%elem_of_app; [|by left]. right. split; [done|].
    intros Hk. rewrite exists_row_false in E. specialize (E q Hq). apply is_projection_key in Hk. congruence.
Qed.

Lemma store_projection_keys p t : NoDup (map projection_key t) → NoDup (map projection_key (store_projection p t)).
Proof.
  intros Hn. unfold store_projection. destruct (exists_row _ t) eqn:E.
  - replace (map projection_key (update _ _ t)) with (map projection_key t); [done|].
    clear. induction t as [|q t IH]; simpl; [done|]. rewrite IH. f_equal.
    destruct (is_projection _ _ q) eqn:Ek; [|done]. by apply is_projection_key in Ek.
  - rewrite map_app. apply NoDup_app. split_and!; [done| |apply NoDup_singleton].
    intros k (q & -> & Hq)%list_elem_of_fmap Hk%list_elem_of_singleton. rewrite exists_row_false in E.
    specialize (E q Hq). apply is_projection_key in Hk. congruence.
Qed.

(** The facts do not mention projections. *)
Lemma grows_projections s t : grows s (s <| projections := t |>).
Proof. constructor; eauto. Qed.

Lemma supported_projections s t p : supported s p → supported (s <| projections := t |>) p.
Proof. intros [H1 H2 H3 H4 H5 H6 H7]. by constructor. Qed.

Lemma proj_ok_store s p : proj_ok s → supported s p → proj_ok (s <| projections ::= store_projection p |>).
Proof.
  intros [Hk Hs] Hp. constructor; cbn.
  - by apply store_projection_keys.
  - intros q [->|[Hq _]]%elem_of_store; apply supported_projections; auto.
Qed.

(** A record whose state and flags the facts give is supported. *)
Lemma projected_supported s o k task recovering i c :
  let f := objective_facts s o k task (fetchone (is_submission o k) (submissions s)) (fetchone (is_execution o k) (executions s)) recovering in
  (∃ r, project_objective_state k o r f = Ok i) →
  sc_state c = sc_state i → sc_cancellation c = sc_cancellation i → sc_owner c = o → sc_objective_id c = k →
  ObjectiveStateContract c = Ok c → _PROGRESS_ORDER (sc_progress c) ≤ reach s o k →
  supported s (mkProjection o k (sc_revision c) c).
Proof.
  intros f (r & Hi) Hst Hca Ho Hk Hv Hp. unfold project_objective_state in Hi. apply contract_ok in Hi as (-> & _).
  cbn in Hst, Hca. constructor; cbn; try done.
  - unfold terminal. rewrite Hst. intros T. apply (facts_state s o k task recovering). exact T.
  - rewrite Hca, Hst. case_bool_decide as E; [by right|]. intros N. left.
    destruct (exists_row _ _) eqn:Ex; [exact Ex|done].
Qed.

(** Which task the projection reads decisions for; [None] when the objective
    has neither a submission nor an execution row. *)
Definition task_of (s : obj_db) (o k : string) : option string :=
  match fetchone (is_execution o k) (executions s), fetchone (is_submission o k) (submissions s) with
  | Some e, _ => Some (ex_task e)
  | None, Some r => Some (sb_task r)
  | None, None => None
  end.

Lemma current_supported s o k p :
  proj_ok s → fetchone (is_projection o k) (projections s) = Some p → supported s p ∧ pj_owner p = o ∧ pj_objective p = k.
Proof.
  intros Hs Hp. apply fetchone_some in Hp as [Hin Hk%is_projection_key]. unfold projection_key in Hk.
  split; [by apply (proj_supported _ Hs)|]. naive_solver.
Qed.

(** What a successful projection step stores. *)
Lemma persist_ok o k recovering s (u : unit) s' :
  proj_ok s → persist_objective_state o k recovering s = Ok (u, s') →
  proj_ok s' ∧ (∃ t, s' = s <| projections := t |>) ∧
  ∀ task, task_of s o k = Some task →
    ∃ p, fetchone (is_projection o k) (projections s') = Some p ∧
         sc_state (pj_record p) = projected_state (objective_facts s o k task
           (fetchone (is_submission o k) (submissions s)) (fetchone (is_execution o k) (executions s)) recovering).
Proof.
  intros Hs Hp. unfold persist_objective_state in Hp.
  apply bind_ok in Hp as (sub & s1 & [<- <-]%read_ok & Hp). apply bind_ok in Hp as (ex & s2 & [<- <-]%read_ok & Hp).
  fold (task_of s o k) in Hp. destruct (task_of s o k) as [task|] eqn:Et.
  2:{ apply ret_ok in Hp as [_ <-]. split; [done|]. split; [by exists (projections s); destruct s|done]. }
  apply bind_ok in Hp as (f & s3 & [<- <-]%read_ok & Hp). apply bind_ok in Hp as (prev & s4 & [Hprev <-]%read_ok & Hp).
  apply bind_ok in Hp as (i & s5 & [Hi <-]%lift_ok & Hp).
  set (f := objective_facts _ _ _ _ _ _ _) in *.
  assert (∀ c, sc_state c = sc_state i → sc_cancellation c = sc_cancellation i → sc_owner c = o → sc_objective_id c = k →
    ObjectiveStateContract c = Ok c → _PROGRESS_ORDER (sc_progress c) ≤ reach s o k →
    proj_ok (s <| projections ::= store_projection (mkProjection o k (sc_revision c) c) |>) ∧
    ∃ p, fetchone (is_projection o k) (store_projection (mkProjection o k (sc_revision c) c) (projections s)) = Some p ∧
         sc_state (pj_record p) = projected_state f) as Hstore.
  { intros c H1 H2 H3 H4 H5 H6. split.
    - apply proj_ok_store; [done|]. unfold mode_res in Hi.
      destruct (project_objective_state _ _ _ f) as [i'|] eqn:Ei; [|done]. injection Hi as ->.
      apply (projected_supported s o k task recovering i); eauto.
    - unfold mode_res in Hi. destruct (project_objective_state _ _ _ f) as [i'|] eqn:Ei; [|done]. injection Hi as ->.
      unfold project_objective_state in Ei. apply contract_ok in Ei as (-> & _). cbn in H1.
      unfold store_projection. destruct (exists_row _ _) eqn:Ex.
      + cbn in Ex |- *. clear -Ex H1. induction (projections s) as [|q t IH]; [done|]. simpl in *.
        destruct (is_projection o k q) eqn:Eq; simpl.
        * unfold is_projection at 1. cbn. rewrite !eqb_refl. by eexists.
        * rewrite Eq. apply IH. exact Ex.
      + rewrite fetchone_app, (fetchone_all_false _ (projections s)).
        * unfold is_projection at 1. cbn. rewrite !eqb_refl. by eexists.
        * intros q Hq. rewrite exists_row_false in Ex. by apply (Ex q). }
  destruct prev as [p|]; cbn in Hi, Hp.
  - destruct (current_supported _ _ _ _ Hs Hprev) as (Hsup & Hpo & Hpk).
    apply bind_ok in Hp as (c & s6 & [Hc <-]%lift_ok & Hp).
    unfold mode_res in Hi, Hc. destruct (project_objective_state _ _ _ f) as [i'|] eqn:Ei; [|done]. injection Hi as ->.
    destruct (advance_supported s p o k task recovering i Hsup Hpo Hpk Ei) as (c' & Hadv & Hst & Hrev & Hca & Ho & Hk & Hv & Hpr).
    rewrite Hadv in Hc. injection Hc as ->.
    destruct (same_state c (pj_record p)) eqn:Esame.
    + apply ret_ok in Hp as [_ <-]. split; [done|]. split; [by exists (projections s); destruct s|].
      intros task' [= <-]. exists p. split; [done|]. unfold same_state in Esame. apply eqb_true in Esame.
      assert (sc_state c = sc_state (pj_record p)) as <- by (by injection Esame).
      rewrite Hst. unfold project_objective_state in Ei. by apply contract_ok in Ei as (-> & _).
    + apply modify_ok in Hp as ->. destruct (Hstore c Hst Hca Ho Hk Hv Hpr) as [? ?]. split; [done|].
      split; [by eexists|]. by intros task' [= <-].
  - apply modify_ok in Hp as ->. unfold mode_res in Hi.
    destruct (project_objective_state _ _ _ f) as [i'|] eqn:Ei; [|done]. injection Hi as ->.
    pose proof Ei as Ei'. unfold project_objective_state in Ei'. apply contract_ok in Ei' as (Hieq & Hival).
    destruct (Hstore i) as [? ?]; try done; try (by rewrite Hieq).
    + unfold project_objective_state in Ei. rewrite Hieq. apply contract_ok. split; [done|exact Hival].
    + rewrite Hieq. apply facts_progress.
    + split; [done|]. split; [by eexists|]. by intros task' [= <-].
Qed.

Lemma persist_proj o k recovering : preserves proj_ok (persist_objective_state o k recovering).
Proof. intros s u s' Hs Hp. by destruct (persist_ok _ _ _ _ _ _ Hs Hp). Qed.

(** The projection step raises only on a malformed identity or an exhausted revision. *)
Lemma persist_total o k recovering s :
  proj_ok s → OBJECTIVE_ID_PATTERN k = true → PRINCIPAL_ID_PATTERN o = true →
  (∀ p, p ∈ projections s → pj_revision p < MAX_CONTRACT_INTEGER) →
  ∃ s', persist_objective_state o k recovering s = Ok (tt, s').
Proof.
  intros Hs Hk Ho Hrev. unfold persist_objective_state, mbind, tx_bind, read, lift. fold (task_of s o k).
  destruct (task_of s o k) as [task|] eqn:Et; [|by eexists].
  set (f := objective_facts _ _ _ _ _ _ _). destruct (fetchone (is_projection o k) (projections s)) as [p|] eqn:Hprev; cbn.
  - destruct (current_supported _ _ _ _ Hs Hprev) as (Hsup & Hpo & Hpk). apply fetchone_some in Hprev as [Hin _].
    specialize (Hrev p Hin). rewrite <- (sup_revision _ _ Hsup) in Hrev.
    assert (0 ≤ sc_revision (pj_record p)) as H0.
    { destruct Hsup as [Hv _ _ _ _ _ _]. apply contract_ok in Hv as (_ & _ & _ & Hw & _). apply within_spec in Hw. lia. }
    destruct (projection_contract k o (sc_revision (pj_record p) + 1) f Hk Ho ltac:(lia)) as (ca & Hi & _). rewrite Hi. cbn.
    destruct (advance_supported s p o k task recovering _ Hsup Hpo Hpk Hi) as (c & -> & _). cbn.
    destruct (same_state c (pj_record p)); by eexists.
  - destruct (projection_contract k o 1 f Hk Ho) as (ca & -> & _); [unfold MAX_CONTRACT_INTEGER; lia|]. by eexists.
Qed.
