(* ===== verification/ObjectiveSteps.v ===== *)
(** * Operations on the objective tables preserve the invariants *)

From stdpp Require Import base option list strings numbers sets.
From Stdlib Require Import ZArith Lia.
From S2P Require Import Prelude Sql Feed Json BillingCatalog BillingLedger Text Activity Deployment DeploymentTheorems Objectives Execution ObjectiveInvariant.

Open Scope string_scope.
Open Scope list_scope.
Open Scope Z_scope.

Definition execution_key (x : execution) : string * string := (ex_owner x, ex_objective x).

(** The execution ledger; a cancellation is observed only after its event. *)
Record exec_ok (s : obj_db) : Prop := {
  exec_keys : NoDup (map execution_key (executions s));
  exec_subs : NoDup (map sb_objective (submissions s));
  exec_terminal : ∀ x, x ∈ executions s → is_some (ex_terminal_event x) = is_some (ex_terminal_phase x) ∧
    (∀ p, ex_terminal_phase x = Some p → _TERMINAL_PHASES p = true);
  exec_observed : ∀ c, c ∈ cancellations s → cn_status c = observed →
    terminal_of s (cn_owner c) (cn_objective c) = Some "objective.cancelled";
  exec_requests : NoDup (map cn_id (cancellations s));
}.

(** Personal holds stay within the worker limit. *)
Record holds_ok (policy : deployment_contract) (s : obj_db) : Prop := {
  holds_positive : ∀ r, r ∈ resources s → 1 ≤ pr_workers r;
  holds_count : ∀ o, count (held o) (resources s) ≤ Z.max 0 (max_implementation_workers policy);
  holds_workers : ∀ o, sum pr_workers (held o) (resources s) ≤ Z.max 0 (max_implementation_workers policy);
}.

Record obj_ok (policy : deployment_contract) (s : obj_db) : Prop := {
  ok_proj : proj_ok s;
  ok_exec : exec_ok s;
  ok_holds : holds_ok policy s;
}.

(** ** Frames *)

(** A clause of [grows] on a table the step leaves alone. *)
Ltac grow_same := intros; first [assumption | eexists; split; [eassumption|split; [eassumption|reflexivity]]].

Lemma grows_frame s s' :
  executions s' = executions s → submissions s' = submissions s → cancellations s' = cancellations s →
  execution_events s' = execution_events s → grows s s'.
Proof.
  intros E1 E2 E3 E4. constructor; unfold terminal_of, is_accepted, has_cancellation; rewrite ?E1, ?E2, ?E3, ?E4; eauto.
Qed.

Lemma exec_frame s s' :
  executions s' = executions s → submissions s' = submissions s → cancellations s' = cancellations s → exec_ok s → exec_ok s'.
Proof.
  intros E1 E2 E3 [H1 H2 H3 H4 H5]. constructor; unfold terminal_of in *; rewrite ?E1, ?E2, ?E3; eauto.
Qed.

Lemma holds_frame policy s s' : resources s' = resources s → holds_ok policy s → holds_ok policy s'.
Proof. intros E [H1 H2 H3]. constructor; rewrite E; auto. Qed.

Lemma terminal_phase_state p : _TERMINAL_PHASES p = true → is_Some (_TERMINAL_STATES p).
Proof.
  unfold _TERMINAL_PHASES. rewrite !orb_true_iff, !bool_decide_eq_true. intros [[->| ->]| ->]; by eexists.
Qed.

Section Steps.
Context (policy : deployment_contract).
Implicit Types s : obj_db.

(** Writes to the tables no fact mentions. *)
Lemma ok_frame s s' :
  executions s' = executions s → submissions s' = submissions s → cancellations s' = cancellations s →
  execution_events s' = execution_events s → projections s' = projections s → resources s' = resources s →
  obj_ok policy s → obj_ok policy s'.
Proof.
  intros E1 E2 E3 E4 E5 E6 [Hp He Hh]. constructor.
  - apply (proj_ok_grows s); [by apply grows_frame|done|done].
  - by apply (exec_frame s).
  - by apply (holds_frame policy s).
Qed.

(** *** Submissions *)

Lemma ok_update_submissions p f s :
  (∀ r, sb_objective (f r) = sb_objective r ∧ sb_owner (f r) = sb_owner r) →
  (∀ r, r ∈ submissions s → p r = true → sb_status r = s_accepted → sb_status (f r) = s_accepted) →
  obj_ok policy s → obj_ok policy (s <| submissions ::= update p f |>).
Proof.
  intros Hk Ha [Hp He Hh]. constructor.
  - apply (proj_ok_grows s); [|done|done]. constructor; [grow_same|grow_same| |grow_same].
    intros o k. unfold is_accepted. cbn. rewrite fetchone_update.
    2:{ intros r _. unfold is_submission. by destruct (Hk r) as [-> ->]. }
    destruct (fetchone _ _) as [r|] eqn:E; [|done]. cbn. intros Hr%eqb_true. apply bool_decide_eq_true.
    apply fetchone_some in E as [Hin _]. destruct (p r) eqn:Ep; auto.
  - destruct He as [H1 H2 H3 H4 H5]. constructor; cbn; try done. rewrite map_update; [done|]. intros r. apply (Hk r).
  - by apply (holds_frame policy s).
Qed.

Lemma ok_insert_submission r : preserves (obj_ok policy) (insert_submission r).
Proof.
  intros s u s' [Hp He Hh] Hi. unfold insert_submission in Hi. destruct (insert _ _ _) as [t|] eqn:E; [|done].
  injection Hi as _ <-. pose proof E as [-> Hf]%insert_some. constructor.
  - apply (proj_ok_grows s); [|done|done]. constructor; [grow_same|grow_same| |grow_same].
    intros o k. unfold is_accepted. cbn. destruct (fetchone _ (submissions s)) eqn:Ef; [|done].
    by rewrite (fetchone_app_some _ _ _ _ Ef).
  - destruct He as [H1 H2 H3 H4 H5]. constructor; cbn; try done. eapply insert_NoDup; [|exact E|done].
    intros a b Eq. unfold submission_clash. by rewrite (bool_decide_eq_true_2 _ Eq).
  - by apply (holds_frame policy s).
Qed.

(** *** Cancellations *)

Lemma ok_update_cancellations p f s :
  (∀ c, cn_id (f c) = cn_id c ∧ cn_owner (f c) = cn_owner c ∧ cn_objective (f c) = cn_objective c) →
  (∀ c, c ∈ cancellations s → p c = true → cn_status (f c) = observed →
     cn_status c = observed ∨ terminal_of s (cn_owner c) (cn_objective c) = Some "objective.cancelled") →
  obj_ok policy s → obj_ok policy (s <| cancellations ::= update p f |>).
Proof.
  intros Hk Ho [Hp He Hh]. constructor.
  - apply (proj_ok_grows s); [|done|done]. constructor; [grow_same|grow_same|grow_same|].
    intros o k. unfold has_cancellation. cbn. rewrite !exists_row_spec. intros (c & Hc & Hx).
    exists (if p c then f c else c). split; [apply elem_of_update; by exists c|].
    destruct (p c); [|done]. unfold is_cancellation. by destruct (Hk c) as (_ & -> & ->).
  - destruct He as [H1 H2 H3 H4 H5]. constructor; cbn; try done.
    + intros c' (c & Hc & ->)%elem_of_update Hs. unfold terminal_of in *. cbn. destruct (p c) eqn:Ep; [|by apply H4].
      destruct (Hk c) as (_ & -> & ->). destruct (Ho c Hc Ep Hs); [by apply H4|done].
    + rewrite map_update; [done|]. intros c. apply (Hk c).
  - by apply (holds_frame policy s).
Qed.

Lemma ok_insert_cancellation r : cn_status r = requested → preserves (obj_ok policy) (insert_cancellation r).
Proof.
  intros Hr s u s' [Hp He Hh] Hi. unfold insert_cancellation in Hi. destruct (insert _ _ _) as [t|] eqn:E; [|done].
  injection Hi as _ <-. pose proof E as [-> _]%insert_some. constructor.
  - apply (proj_ok_grows s); [|done|done]. constructor; [grow_same|grow_same|grow_same|].
    intros o k. unfold has_cancellation. cbn. rewrite !exists_row_spec. intros (c & Hc & Hx). exists c. set_solver.
  - destruct He as [H1 H2 H3 H4 H5]. constructor; cbn; try done.
    + intros c [Hc| ->%list_elem_of_singleton]%elem_of_app Hs; [by apply H4|congruence].
    + eapply insert_NoDup; [|exact E|done]. intros a b Eq. unfold cancellation_clash. by rewrite (bool_decide_eq_true_2 _ Eq).
  - by apply (holds_frame policy s).
Qed.

Lemma ok_reopen err id f :
  (∀ c, cn_id (f c) = cn_id c ∧ cn_owner (f c) = cn_owner c ∧ cn_objective (f c) = cn_objective c ∧ cn_status (f c) = requested) →
  preserves (obj_ok policy) (reopen_cancellation err id f).
Proof.
  intros Hf s u s' Hs Hi. unfold reopen_cancellation in Hi. case_match; [done|]. injection Hi as _ <-.
  apply (ok_update_cancellations (λ c, (cn_id c == id) && (cn_status c == req_failed)) f s) in Hs; [exact Hs| |].
  - intros c. by destruct (Hf c) as (-> & -> & -> & _).
  - intros c _ _. destruct (Hf c) as (_ & _ & _ & ->). done.
Qed.

(** *** Executions and events *)

Lemma ok_insert_execution r :
  ex_terminal_event r = None → ex_terminal_phase r = None → preserves (obj_ok policy) (insert_execution r).
Proof.
  intros Hr1 Hr2 s u s' [Hp He Hh] Hi. unfold insert_execution in Hi. destruct (insert _ _ _) as [t|] eqn:E; [|done].
  injection Hi as _ <-. pose proof E as [-> Hf]%insert_some.
  assert (∀ o k p, terminal_of s o k = Some p → terminal_of (s <| executions := executions s ++ [r] |>) o k = Some p) as Hg.
  { intros o k p. unfold terminal_of. cbn. destruct (fetchone _ (executions s)) eqn:Ef; [|done].
    by rewrite (fetchone_app_some _ _ _ _ Ef). }
  constructor.
  - apply (proj_ok_grows s); [|done|done]. constructor; [exact Hg|grow_same|grow_same|grow_same].
  - destruct He as [H1 H2 H3 H4 H5]. constructor; cbn; try done.
    + eapply insert_NoDup; [|exact E|done]. intros a b [= Eo Ek]. unfold execution_clash.
      by rewrite (bool_decide_eq_true_2 _ Eo), (bool_decide_eq_true_2 _ Ek).
    + intros x [Hx| ->%list_elem_of_singleton]%elem_of_app; [by apply H3|]. by rewrite Hr1, Hr2.
    + intros c Hc Ho. by apply Hg, H4.
  - by apply (holds_frame policy s).
Qed.

Lemma ok_insert_event r : preserves (obj_ok policy) (insert_execution_event r).
Proof.
  intros s u s' [Hp He Hh] Hi. unfold insert_execution_event in Hi. destruct (insert _ _ _) as [t|] eqn:E; [|done].
  injection Hi as _ <-. apply insert_some in E as [-> _]. constructor.
  - apply (proj_ok_grows s); [|done|done]. constructor; [grow_same| |grow_same|grow_same].
    intros o k e Hin Hk. exists e. cbn. set_solver.
  - by apply (exec_frame s).
  - by apply (holds_frame policy s).
Qed.

Lemma ok_update_events p f s :
  (∀ e, ev_owner (f e) = ev_owner e ∧ ev_objective (f e) = ev_objective e ∧ ev_phase (f e) = ev_phase e) →
  obj_ok policy s → obj_ok policy (s <| execution_events ::= update p f |>).
Proof.
  intros Hf [Hp He Hh]. constructor.
  - apply (proj_ok_grows s); [|done|done]. constructor; [grow_same| |grow_same|grow_same].
    intros o k e Hin Hk. exists (if p e then f e else e). split; [cbn; apply elem_of_update; by exists e|].
    destruct (p e); [|done]. destruct (Hf e) as (E1 & E2 & E3). unfold is_event_of in *. by rewrite E1, E2, E3.
  - by apply (exec_frame s).
  - by apply (holds_frame policy s).
Qed.

(** *** Personal holds *)

Lemma count_as_sum {R} (p : R → bool) t : count p t = sum (λ _, 1) p t.
Proof. apply count_sum. Qed.

Lemma ok_close_resources p f s :
  (∀ r, pr_workers (f r) = pr_workers r ∧ pr_status (f r) ≠ reserved) →
  obj_ok policy s → obj_ok policy (s <| resources ::= update p f |>).
Proof.
  intros Hf [Hp He Hh]. constructor.
  - apply (proj_ok_grows s); [by apply grows_frame|done|done].
  - by apply (exec_frame s).
  - assert (∀ o r, held o (f r) = false) as Hno.
    { intros o r. unfold held. destruct (Hf r) as [_ Hn]. rewrite (eqb_neq _ _ Hn). by rewrite andb_false_r. }
    destruct Hh as [H1 H2 H3]. constructor; cbn.
    + intros r' (r & Hr & ->)%elem_of_update. destruct (p r); [destruct (Hf r) as [-> _]|]; auto.
    + intros o. etransitivity; [|apply (H2 o)]. rewrite !count_as_sum. apply sum_update_le.
      intros r Hr _. rewrite Hno. destruct (held o r); lia.
    + intros o. etransitivity; [|apply (H3 o)]. apply sum_update_le.
      intros r Hr _. rewrite Hno. pose proof (H1 r Hr). destruct (held o r); lia.
Qed.

(** ** Operations *)

Lemma ok_persist o k b : preserves (obj_ok policy) (persist_objective_state o k b).
Proof.
  intros s u s' [Hp He Hh] Hx. destruct (persist_ok _ _ _ _ _ _ Hp Hx) as (Hp' & (t & ->) & _).
  constructor; [done|by apply (exec_frame s)|by apply (holds_frame policy s)].
Qed.

Lemma ok_modify f : (∀ s, obj_ok policy s → obj_ok policy (f s)) → preserves (obj_ok policy) (modify (E := obj_error) f).
Proof. apply preserves_modify. Qed.

(** The terminal event of a live objective. *)
Lemma ok_finish now owner e s x (u : unit) s' :
  _TERMINAL_PHASES (xe_phase e) = true → fetchone (is_execution owner (xe_objective e)) (executions s) = Some x →
  ex_terminal_event x = None → obj_ok policy s → finish_objective now owner e s = Ok (u, s') →
  obj_ok policy s' ∧ terminal_of s' owner (xe_objective e) = Some (xe_phase e).
Proof.
  intros Hph Hx Hnone Hs Hf. unfold finish_objective in Hf. apply bind_ok in Hf as (v & s1 & ->%modify_ok & Hf).
  set (fin := λ y : execution, y <| ex_terminal_event := Some (xe_id e) |> <| ex_terminal_phase := Some (xe_phase e) |> <| ex_updated := now |>) in *.
  set (s1 := s <| executions ::= update (is_execution owner (xe_objective e)) fin |>) in *.
  assert (∀ o k, terminal_of s1 o k =
    ((λ y, if is_execution owner (xe_objective e) y then fin y else y) <$> fetchone (is_execution o k) (executions s)) ≫= ex_terminal_phase) as Hterm.
  { intros o k. unfold terminal_of, s1. cbn. by rewrite fetchone_update. }
  assert (terminal_of s1 owner (xe_objective e) = Some (xe_phase e)) as Hown.
  { rewrite Hterm, Hx. cbn. apply fetchone_some in Hx as [_ Hk]. by rewrite Hk. }
  assert (∀ o k p, terminal_of s o k = Some p → terminal_of s1 o k = Some p) as Hgrow.
  { intros o k p. rewrite Hterm. unfold terminal_of. destruct (fetchone (is_execution o k) (executions s)) as [y|] eqn:Ey; [|done].
    cbn. intros Hp. destruct (is_execution owner (xe_objective e) y) eqn:Ek; [|done]. exfalso.
    pose proof (fetchone_some _ _ _ Ey) as [Hy _]. pose proof (fetchone_some _ _ _ Hx) as [Hin Hkx].
    assert (y = x) as ->.
    { eapply (NoDup_key_inj execution_key); [apply (exec_keys _ (ok_exec _ _ Hs))|done|done|].
      unfold is_execution in *. bools. unfold execution_key. congruence. }
    destruct (exec_terminal _ (ok_exec _ _ Hs) x Hin) as [Heq _]. rewrite Hnone, Hp in Heq. done. }
  assert (obj_ok policy s1) as Hs1.
  { destruct Hs as [Hp He Hh]. constructor; [|destruct He as [H1 H2 H3 H4 H5]; constructor|by apply (holds_frame policy s)].
    - apply (proj_ok_grows s); [|done|done]. constructor; [exact Hgrow|grow_same|grow_same|grow_same].
    - unfold s1. cbn. rewrite map_update; [done|]. done.
    - done.
    - intros y (y0 & Hy0 & ->)%elem_of_update. destruct (is_execution _ _ y0); [|by apply H3]. cbn. split; [done|].
      by intros p [= <-].
    - intros c Hc Ho. by apply Hgrow, H4.
    - done. }
  destruct (xe_phase e == "objective.cancelled") eqn:Ec; apply modify_ok in Hf as ->; (split; [|exact Hown]);
    apply ok_update_cancellations; try done.
  intros c _ Hc _. right. apply andb_true_iff in Hc as [Hc _]. unfold is_cancellation in Hc. bools.
  by rewrite H, H0, Hown, Ec.
Qed.

Context `{TextEngine, Codec}.
#[local] Hint Resolve ok_persist ok_insert_submission ok_insert_event : preserves.

(** A read or write of the activity store's own tables. *)
Lemma ok_in_activity {A} (m : tx act_error activity_db A) : preserves (obj_ok policy) (in_activity m).
Proof.
  intros s a s' Hs Hm. unfold in_activity in Hm. case_match; [|done]. destruct a0 as [b t]. injection Hm as _ <-.
  by apply (ok_frame s).
Qed.
#[local] Hint Resolve ok_in_activity : preserves.

Lemma ok_correlate now owner e : preserves (obj_ok policy) (correlate now owner e).
Proof. unfold correlate, accept_objective. preserve. by apply ok_insert_execution. Qed.

(** What [correlate] returns is the live row of the objective. *)
Lemma correlate_live now owner e s x s' :
  correlate now owner e s = Ok (x, s') →
  ex_terminal_event x = None ∧ fetchone (is_execution owner (xe_objective e)) (executions s') = Some x.
Proof.
  intros Hc. unfold correlate in Hc. apply bind_ok in Hc as (obj & s1 & [<- <-]%read_ok & Hc).
  destruct (fetchone _ _) as [o|] eqn:Eo.
  - destruct (xe_body e); [by apply raise_ok in Hc|..].
    all: apply bind_ok in Hc as (? & ? & [_ <-]%require_ok & Hc); apply bind_ok in Hc as (? & ? & [Ht <-]%require_ok & Hc);
      apply ret_ok in Hc as [<- <-]; split; [by destruct (ex_terminal_event o)|done].
  - destruct (xe_body e); try by apply raise_ok in Hc. unfold accept_objective in Hc.
    apply bind_ok in Hc as (? & ? & [_ <-]%read_ok & Hc). apply bind_ok in Hc as (? & ? & [_ <-]%require_ok & Hc).
    apply bind_ok in Hc as (? & ? & [_ <-]%read_ok & Hc). apply bind_ok in Hc as (? & ? & [_ <-]%require_ok & Hc).
    apply bind_ok in Hc as (? & s2 & Hi & [<- <-]%ret_ok). unfold insert_execution in Hi.
    destruct (insert _ _ _) as [t|] eqn:E; [|done]. injection Hi as _ <-. apply insert_some in E as [-> _]. split; [done|].
    cbn. rewrite fetchone_app, Eo. unfold is_execution. cbn. by rewrite !eqb_refl.
Qed.

Lemma ingest_ok now owner e s r s' :
  obj_ok policy s → ingest now owner e s = Ok (r, s') →
  obj_ok policy s' ∧ (_TERMINAL_PHASES (xe_phase e) = true → pe_status r = "accepted" →
    terminal_of s' owner (xe_objective e) = Some (xe_phase e) ∧
    ∃ p, fetchone (is_projection owner (xe_objective e)) (projections s') = Some p ∧
         Some (sc_state (pj_record p)) = _TERMINAL_STATES (xe_phase e)).
Proof.
  intros Hs Hi. unfold ingest in Hi. apply bind_ok in Hi as (? & ? & [_ <-]%require_ok & Hi).
  apply bind_ok in Hi as (d & ? & [<- <-]%read_ok & Hi). destruct (fetchone _ _) as [d|].
  { apply bind_ok in Hi as (? & ? & [_ <-]%require_ok & [<- <-]%ret_ok). split; [done|]. intros _ Hd. discriminate Hd. }
  apply bind_ok in Hi as (o & s1 & Hc & Hi). pose proof (ok_correlate _ _ _ _ _ _ Hs Hc) as Hs1.
  destruct (correlate_live _ _ _ _ _ _ Hc) as [Hlive Hfo].
  apply bind_ok in Hi as (row & ? & [_ <-]%lift_ok & Hi). apply bind_ok in Hi as (p & s2 & Ha & Hi).
  pose proof (ok_in_activity _ _ _ _ Hs1 Ha) as Hs2.
  assert (executions s2 = executions s1) as Ex2. { unfold in_activity in Ha. destruct (_upsert_activity _ _ _ _ _) as [[q t]|]; [|done]. by injection Ha as _ <-. }
  apply bind_ok in Hi as (? & s3 & He & Hi). pose proof (ok_insert_event _ _ _ _ Hs2 He) as Hs3.
  assert (executions s3 = executions s2) as Ex3. { unfold insert_execution_event in He. destruct (insert _ _ _); [|done]. by injection He as _ <-. }
  apply bind_ok in Hi as (? & s4 & Hf & Hi). apply bind_ok in Hi as (? & s5 & Hp & [<- <-]%ret_ok).
  destruct (_TERMINAL_PHASES (xe_phase e)) eqn:Eph.
  - edestruct (ok_finish now owner e s3 o) as [Hs4 Ht4]; [exact Eph|by rewrite Ex3, Ex2|done|exact Hs3|exact Hf|].
    split; [by eapply ok_persist|]. intros _ _.
    destruct (persist_ok _ _ _ _ _ _ (ok_proj _ _ Hs4) Hp) as (_ & (t & ->) & Hst). split; [exact Ht4|].
    assert (∃ task, task_of s4 owner (xe_objective e) = Some task) as [task Htask].
    { unfold task_of. unfold terminal_of in Ht4. destruct (fetchone (is_execution owner (xe_objective e)) (executions s4)) as [y|] eqn:Ey; [by eexists|discriminate Ht4]. }
    destruct (Hst task Htask) as (q & Hq & Hqs). exists q. split; [exact Hq|]. rewrite Hqs.
    assert (is_Some (_TERMINAL_STATES (xe_phase e))) as [st Est].
    { by apply terminal_phase_state. }
    rewrite Est. f_equal. apply facts_terminal_state. by rewrite Ht4.
  - split; [|done]. apply ret_ok in Hf as [_ <-]. by eapply ok_persist.
Qed.

(** *** Reservations *)

Lemma usage_counts owner now s u s' :
  resources_usage owner now s = Ok (u, s') →
  s' = s ∧ ru_owner u = owner ∧ active_objectives u = count (held owner) (resources s) ∧
  active_implementation_workers u = sum pr_workers (held owner) (resources s) ∧
  reserved_micro_usd u = sum pr_reserved (held owner) (resources s) ∧
  spent_micro_usd u = sum (λ r, default 0 (pr_actual r)) (spent_in owner (_period_key now)) (resources s).
Proof.
  unfold resources_usage. intros Hu. apply bind_ok in Hu as (t & ? & [<- <-]%read_ok & Hu).
  apply bind_ok in Hu as (h & ? & [_ <-]%read_ok & Hu). apply bind_ok in Hu as (k & ? & [_ <-]%read_ok & Hu).
  apply bind_ok in Hu as (? & ? & [_ <-]%require_ok & [Hu <-]%lift_ok). unfold mode_res, PersonalResourceUsage in Hu.
  destruct (ensure _ _); [|done]. by injection Hu as <-.
Qed.

Lemma admission_slots now p us n ceiling :
  check_personal_admission policy now p (Some us) n = Ok ceiling →
  active_objectives us + 1 ≤ max_implementation_workers policy ∧
  active_implementation_workers us + n ≤ max_implementation_workers policy ∧ 1 ≤ n ∧
  ∃ m, monthly_spend_limit_micro_usd policy = Some m ∧ objective_spend_limit_micro_usd policy = Some ceiling ∧
       spent_micro_usd us + reserved_micro_usd us + ceiling ≤ m.
Proof.
  unfold check_personal_admission. intros Ha. tx_inv. bools. rewrite within_spec in *. split_and!; try lia.
  eexists. split_and!; [done|done|lia].
Qed.

(** What a reservation that is not a replay inserts. *)
Lemma reserve_ok now p objective sha project n s (u : unit) s' :
  resource_reserve policy now p objective sha project n s = Ok (u, s') →
  (s' = s ∧ ∃ e, fetchone (resource_of objective) (resources s) = Some e ∧ pr_status e = reserved) ∨
  ∃ row, resources s' = resources s ++ [row] ∧ pr_objective row = objective ∧ pr_status row = reserved ∧ pr_workers row = n ∧ 1 ≤ n ∧
    s' = s <| resources := resources s ++ [row] |> ∧
    count (held (pr_owner row)) (resources s) + 1 ≤ max_implementation_workers policy ∧
    sum pr_workers (held (pr_owner row)) (resources s) + n ≤ max_implementation_workers policy ∧
    ∃ m, monthly_spend_limit_micro_usd policy = Some m ∧
      sum (λ r, default 0 (pr_actual r)) (spent_in (pr_owner row) (_period_key now)) (resources s) +
      sum pr_reserved (held (pr_owner row)) (resources s) + pr_reserved row ≤ m.
Proof.
  unfold resource_reserve. intros Hr. apply bind_ok in Hr as (pr & ? & [Hp <-]%lift_ok & Hr).
  apply bind_ok in Hr as (ex & ? & [<- <-]%read_ok & Hr). destruct (fetchone _ _) as [e|] eqn:Ef.
  { apply require_ok in Hr as [Hb <-]. left. split; [done|]. exists e. by bools. }
  right. apply bind_ok in Hr as (repo & ? & [_ <-]%read_ok & Hr). destruct repo as [repo|]; [|by apply raise_ok in Hr].
  apply bind_ok in Hr as (us & ? & Hu & Hr). apply usage_counts in Hu as (-> & Ho & Ha & Hw & Hres & Hsp).
  apply bind_ok in Hr as (ceiling & ? & [Hc <-]%lift_ok & Hr). apply bind_ok in Hr as (rj & ? & [_ <-]%lift_ok & Hr).
  unfold mode_res in Hc. destruct (check_personal_admission _ _ _ _ _) as [c|] eqn:Eadm; [|done]. injection Hc as ->.
  apply admission_slots in Eadm as (H1 & H2 & H3 & m & Hm & _ & H4). unfold insert_resource in Hr. case_match; [done|].
  destruct (insert _ _ _) as [t|] eqn:Ei; [|done]. injection Hr as _ <-. apply insert_some in Ei as [-> _].
  eexists. split; [reflexivity|]. cbn. split_and!; try done; try (rewrite <- ?Ha, <- ?Hw; lia).
  exists m. split; [done|]. rewrite Hsp, Hres in H4. exact H4.
Qed.

Lemma ok_reserve now p objective sha project n : preserves (obj_ok policy) (resource_reserve policy now p objective sha project n).
Proof.
  intros s u s' Hs Hr. apply reserve_ok in Hr as [[-> _]|(row & Hres & _ & Hst & Hn & Hn1 & -> & Hc & Hw & _)]; [done|].
  destruct Hs as [Hp He Hh]. constructor.
  - apply (proj_ok_grows s); [by apply grows_frame|done|done].
  - by apply (exec_frame s).
  - destruct Hh as [H1 H2 H3]. constructor; rewrite Hres.
    + intros r [Hr| ->%list_elem_of_singleton]%elem_of_app; [auto|lia].
    + intros o. rewrite count_as_sum, sum_snoc, <- count_as_sum. destruct (held o row) eqn:E; [|specialize (H2 o); lia].
      unfold held in E. bools. subst o. lia.
    + intros o. rewrite sum_snoc. destruct (held o row) eqn:E; [|specialize (H3 o); lia].
      unfold held in E. bools. subst o. lia.
Qed.
#[local] Hint Resolve ok_reserve : preserves.

Lemma ok_release now owner objective : preserves (obj_ok policy) (release_unpublished now owner objective).
Proof.
  unfold release_unpublished. preserve. intros s u s' Hs ->%modify_ok.
  by apply (ok_close_resources (λ r, _)).
Qed.

Lemma ok_settle now owner objective event_id usage : preserves (obj_ok policy) (resource_settle now owner objective event_id usage).
Proof. unfold resource_settle. preserve. apply preserves_modify. intros s Hs. by apply ok_close_resources. Qed.

(** *** Submission store *)

Lemma ok_claim_existing now_ms ctx cj cs e s r s' :
  e ∈ submissions s → obj_ok policy s → claim_existing now_ms ctx cj cs e s = Ok (r, s') → obj_ok policy s'.
Proof.
  intros He Hs Hc. unfold claim_existing in Hc. destruct (_identities _ _) as [objective task].
  apply bind_ok in Hc as (? & ? & [Hb <-]%require_ok & Hc). destruct (sb_status e == s_accepted) eqn:Ea; [by apply ret_ok in Hc as [_ <-]|].
  case_match; [by apply ret_ok in Hc as [_ <-]|]. apply bind_ok in Hc as (? & ? & ->%modify_ok & [_ <-]%ret_ok).
  apply ok_update_submissions; [done| |done]. intros y Hy Hp Hacc. exfalso. bools.
  assert (y = e) as ->; [|congruence].
  eapply (NoDup_key_inj sb_objective); [apply (exec_subs _ (ok_exec _ _ Hs))|done|done|]. congruence.
Qed.

Lemma ok_store_errors {A} (m : otx A) : preserves (obj_ok policy) m → preserves (obj_ok policy) (store_errors m).
Proof. intros Hm s a s' Hs Hr. unfold store_errors in Hr. destruct (m s) as [[b t]|e] eqn:E; [|repeat case_match; done]. eapply Hm; [done|]. by rewrite E, Hr. Qed.

Lemma ok_claim_new now now_ms ctx key cj cs prep title pp : preserves (obj_ok policy) (claim_new policy now now_ms ctx key cj cs prep title pp).
Proof. unfold claim_new. destruct (_identities _ _). preserve. Qed.
#[local] Hint Resolve ok_claim_new : preserves.

Lemma ok_claim now now_ms ctx key cj prep title pp : preserves (obj_ok policy) (claim policy now now_ms ctx key cj prep title pp).
Proof.
  unfold claim. preserve. apply ok_store_errors. intros s r s' Hs Hc. apply bind_ok in Hc as (e & ? & [<- <-]%read_ok & Hc).
  destruct (fetchone _ _) as [e|] eqn:E.
  - apply fetchone_some in E as [Hin _]. by eapply ok_claim_existing.
  - apply bind_ok in Hc as (? & ? & Hn & [_ <-]%ret_ok). by eapply ok_claim_new.
Qed.

Lemma ok_accept now_ms owner c : preserves (obj_ok policy) (accept now_ms owner c).
Proof.
  unfold accept, changed_one. preserve. apply preserves_modify. intros s Hs. by apply ok_update_submissions.
Qed.

Lemma ok_fail now_ms owner c code : preserves (obj_ok policy) (fail now_ms owner c code).
Proof.
  unfold fail. preserve. apply preserves_modify. intros s Hs. apply ok_update_submissions; [done| |done].
  intros r _ Hp Ha. cbv beta in Hp. by bools.
Qed.

Lemma ok_recover_claim now_ms row : preserves (obj_ok policy) (recover_claim now_ms row).
Proof.
  unfold recover_claim. preserve. apply preserves_modify. intros s Hs. apply ok_update_submissions; [done| |done].
  intros r _ Hp Ha. cbv beta in Hp. by bools.
Qed.

(** *** Completion messages *)

Lemma ok_claim_completion now owner id retry : preserves (obj_ok policy) (claim_completion now owner id retry).
Proof. unfold claim_completion. preserve. apply preserves_modify. intros s Hs. by apply ok_update_events. Qed.
Lemma ok_finish_completion now owner id c a : preserves (obj_ok policy) (finish_completion now owner id c a).
Proof. unfold finish_completion. preserve. apply preserves_modify. intros s Hs. by apply ok_update_events. Qed.
Lemma ok_recover_interrupted now : preserves (obj_ok policy) (recover_interrupted now).
Proof. unfold recover_interrupted. preserve. apply preserves_modify. intros s Hs. by apply ok_update_events. Qed.

(** *** Cancellation *)

Lemma ok_request now owner session objective key : preserves (obj_ok policy) (request now owner session objective key).
Proof. unfold request. preserve; [by apply ok_reopen|by apply ok_insert_cancellation]. Qed.

(** A notification step leaves the status of a request alone. *)
Lemma ok_same_status p f s :
  (∀ c, cn_id (f c) = cn_id c ∧ cn_owner (f c) = cn_owner c ∧ cn_objective (f c) = cn_objective c ∧ cn_status (f c) = cn_status c) →
  obj_ok policy s → obj_ok policy (s <| cancellations ::= update p f |>).
Proof.
  intros Hf Hs. apply ok_update_cancellations; [|intros c _ _; destruct (Hf c) as (_ & _ & _ & ->); by left|done].
  intros c. by destruct (Hf c) as (-> & -> & -> & _).
Qed.
Lemma ok_notify_begin now id : preserves (obj_ok policy) (notify_begin now id).
Proof. unfold notify_begin. preserve. apply preserves_modify. intros s Hs. by apply ok_same_status. Qed.
Lemma ok_notify_failed now id : preserves (obj_ok policy) (notify_failed now id).
Proof. unfold notify_failed. apply preserves_modify. intros s Hs. by apply ok_same_status. Qed.
Lemma ok_notify_delivered now id : preserves (obj_ok policy) (notify_delivered now id).
Proof. unfold notify_delivered. preserve. apply preserves_modify. intros s Hs. by apply ok_same_status. Qed.

(** A row and a terminal phase that startup recovery read, perhaps earlier:
    rows keep their identity and terminal phases stay. *)
Definition recovery_read (s : obj_db) (row : cancellation) (terminal : option string) : Prop :=
  (∃ c, c ∈ cancellations s ∧ cn_id c = cn_id row ∧ cn_owner c = cn_owner row ∧ cn_objective c = cn_objective row) ∧
  match terminal with Some p => terminal_of s (cn_owner row) (cn_objective row) = Some p | None => True end.

Lemma recovery_rows_read maximum cutoff s row terminal :
  (row, terminal) ∈ recovery_rows maximum cutoff s → recovery_read s row terminal.
Proof.
  unfold recovery_rows. intros (c & [= -> ->] & Hc)%list_elem_of_fmap. unfold recovery_read, terminal_of.
  unfold take in Hc. apply list_elem_of_lookup in Hc as (i & Hi). apply lookup_take_Some in Hi as [Hi _].
  apply list_elem_of_lookup_2, elem_of_order_by, elem_of_select in Hi as [Hi _]. split; [by exists c|]. by case_match.
Qed.

Lemma ok_recover_one now row terminal s r s' :
  recovery_read s row terminal → obj_ok policy s → recover_one now row terminal s = Ok (r, s') → obj_ok policy s'.
Proof.
  intros [(c0 & Hc0 & Hid & How & Hob) Hterm] Hs Hr. unfold recover_one in Hr.
  apply bind_ok in Hr as (b & ? & [<- <-]%read_ok & Hr). case_match; [by apply ret_ok in Hr as [_ <-]|].
  destruct terminal as [p|].
  - apply bind_ok in Hr as (? & ? & ->%modify_ok & [_ <-]%ret_ok). apply ok_update_cancellations; [done| |done].
    intros c Hc Hp Hst. right. unfold by_id in Hp. bools.
    assert (c = c0) as -> by (eapply (NoDup_key_inj cn_id); [apply (exec_requests _ (ok_exec _ _ Hs))|done|done|congruence]).
    rewrite How, Hob, Hterm. cbn in Hst. destruct (p == "objective.cancelled") eqn:E; [|done]. by apply eqb_true in E; subst p.
  - apply bind_ok in Hr as (? & s1 & Hx & Hr). apply bind_ok in Hr as (? & ? & [_ <-]%read_ok & Hr).
    apply bind_ok in Hr as (? & ? & [_ <-]%lift_ok & [_ <-]%ret_ok). eapply ok_reopen; [|exact Hs|exact Hx]. done.
Qed.
End Steps.
