(* ===== verification/ObjectiveTheorems.v ===== *)
(** * Properties of the objective life cycle

    Over every run of the submission store, the execution store, the resource
    ledger and the cancellation service, with the other components free to
    write their own tables in between. *)

From stdpp Require Import base option list strings numbers sets.
From Stdlib Require Import ZArith Lia.
From S2P Require Import Prelude Sql Feed Json BillingCatalog BillingLedger Text Activity Deployment DeploymentTheorems Objectives Execution ObjectiveInvariant ObjectiveSteps.

Open Scope string_scope.
Open Scope list_scope.
Open Scope Z_scope.

(** ** Runs *)

Inductive obj_op :=
| Claim (now now_ms : Z) (ctx : tool_context) (key contract_json : string) (prepared : option (option string * string))
    (title : string) (personal_principal : option principal)
| Accept (now_ms : Z) (owner : string) (c : claim_result)
| FailClaim (now_ms : Z) (owner : string) (c : claim_result) (code : string)
| RecoverClaim (now_ms : Z) (row : submission)
| Ingest (now : Z) (owner : string) (e : exec_event)
| ClaimCompletion (now : Z) (owner event_id : string) (retry : bool)
| FinishCompletion (now : Z) (owner event_id : string) (completed : bool) (assistant : option string)
| RecoverInterrupted (now : Z)
| Release (now : Z) (owner objective : string)
| Settle (now : Z) (owner objective event_id : string) (usage : dict)
| Request (now : Z) (owner session objective key : string)
| NotifyBegin (now : Z) (id : string)
| NotifyFailed (now : Z) (id : string)
| NotifyDelivered (now : Z) (id : string)
| RecoverOne (now : Z) (row : cancellation) (terminal : option string)
| Environment (a : activity_db) (c : list reservation) (d : list decision) (m : list message) (g : list generated)
    (p : list project_repository) (r : list app_repository) (i : list installation).

Section Runs.
Context `{TextEngine, Codec}.
Context (policy : deployment_contract).

Definition obj_run (o : obj_op) (s : obj_db) : obj_db :=
  match o with
  | Claim now now_ms ctx key cj prep title pp => (commit (claim policy now now_ms ctx key cj prep title pp) s).2
  | Accept now_ms owner c => (commit (accept now_ms owner c) s).2
  | FailClaim now_ms owner c code => (commit (fail now_ms owner c code) s).2
  | RecoverClaim now_ms row => (commit (recover_claim now_ms row) s).2
  | Ingest now owner e => (commit (ingest now owner e) s).2
  | ClaimCompletion now owner id retry => (commit (claim_completion now owner id retry) s).2
  | FinishCompletion now owner id c a => (commit (finish_completion now owner id c a) s).2
  | RecoverInterrupted now => (commit (recover_interrupted now) s).2
  | Release now owner k => (commit (release_unpublished now owner k) s).2
  | Settle now owner k id usage => (commit (resource_settle now owner k id usage) s).2
  | Request now owner session k key => (commit (request now owner session k key) s).2
  | NotifyBegin now id => (commit (notify_begin now id) s).2
  | NotifyFailed now id => (commit (notify_failed now id) s).2
  | NotifyDelivered now id => (commit (notify_delivered now id) s).2
  | RecoverOne now row terminal => (commit (recover_one now row terminal) s).2
  | Environment a c d m g p r i =>
      s <| activity := a |> <| credit := c |> <| decisions := d |> <| messages := m |> <| generated_messages := g |>
        <| project_repositories := p |> <| app_repositories := r |> <| installations := i |>
  end.

(** Recovery acts on rows it read. *)
Definition obj_allowed (o : obj_op) (s : obj_db) : Prop :=
  match o with RecoverOne _ row terminal => recovery_read s row terminal | _ => True end.

Definition empty_objectives : obj_db := mkObjDb [] [] [] [] [] [] (mkActivityDb [] [] [] []) [] [] [] [] [] [] [].

Inductive obj_reachable : obj_db → Prop :=
| or_init : obj_reachable empty_objectives
| or_step s o : obj_reachable s → obj_allowed o s → obj_reachable (obj_run o s).

Lemma obj_run_ok o s : obj_allowed o s → obj_ok policy s → obj_ok policy (obj_run o s).
Proof.
  intros Ha Hs. destruct o; cbn [obj_run].
  - apply (preserves_commit (obj_ok policy)); [apply ok_claim|done].
  - apply (preserves_commit (obj_ok policy)); [apply ok_accept|done].
  - apply (preserves_commit (obj_ok policy)); [apply ok_fail|done].
  - apply (preserves_commit (obj_ok policy)); [apply ok_recover_claim|done].
  - apply (preserves_commit (obj_ok policy)); [|done]. intros s0 a s1 Hs0 Hi. by destruct (ingest_ok _ _ _ _ _ _ _ Hs0 Hi).
  - apply (preserves_commit (obj_ok policy)); [apply ok_claim_completion|done].
  - apply (preserves_commit (obj_ok policy)); [apply ok_finish_completion|done].
  - apply (preserves_commit (obj_ok policy)); [apply ok_recover_interrupted|done].
  - apply (preserves_commit (obj_ok policy)); [apply ok_release|done].
  - apply (preserves_commit (obj_ok policy)); [apply ok_settle|done].
  - apply (preserves_commit (obj_ok policy)); [apply ok_request|done].
  - apply (preserves_commit (obj_ok policy)); [apply ok_notify_begin|done].
  - apply (preserves_commit (obj_ok policy)); [apply ok_notify_failed|done].
  - apply (preserves_commit (obj_ok policy)); [apply ok_notify_delivered|done].
  - destruct (commit_cases (recover_one now row terminal) s) as [(a & s' & E & Ec)|(e & _ & Ec)]; rewrite Ec; [|done].
    by eapply ok_recover_one.
  - by apply (ok_frame policy s).
Qed.

Lemma obj_reachable_ok s : obj_reachable s → obj_ok policy s.
Proof.
  induction 1 as [|s o _ IH Ha]; [|by apply obj_run_ok].
  assert (∀ o, count (held o) [] = 0) as Hc by done.
  constructor; constructor; cbn; try (intros o; rewrite ?Hc; lia); try apply NoDup_nil_2; intros ? Hin; by apply not_elem_of_nil in Hin.
Qed.

(** ** Claims *)

(** C3. In every reachable state the write-side projection of a well-named
    objective succeeds: whatever order submissions, events, decisions and
    cancellations arrived in, the stored contract is a state the new facts may
    follow, so no operation is lost to a projection conflict. *)
Theorem projection_follows s owner objective recovering :
  obj_reachable s → OBJECTIVE_ID_PATTERN objective = true → PRINCIPAL_ID_PATTERN owner = true →
  (∀ p, p ∈ projections s → pj_revision p < MAX_CONTRACT_INTEGER) →
  ∃ s', persist_objective_state owner objective recovering s = Ok (tt, s').
Proof. intros Hs. by apply persist_total, ok_proj with policy, obj_reachable_ok. Qed.

(** When a terminal event is accepted, the same transaction records it as
    the objective's terminal phase and publishes the state it stands for:
    succeeded for completed, failed for failed, cancelled for cancelled. *)
Theorem terminal_event_projected s now owner e r s' :
  obj_reachable s → ingest now owner e s = Ok (r, s') → pe_status r = "accepted" → _TERMINAL_PHASES (xe_phase e) = true →
  terminal_of s' owner (xe_objective e) = Some (xe_phase e) ∧
  ∃ p, fetchone (is_projection owner (xe_objective e)) (projections s') = Some p ∧
       Some (sc_state (pj_record p)) = _TERMINAL_STATES (xe_phase e).
Proof.
  intros Hs Hi Hr Ht. destruct (ingest_ok policy _ _ _ _ _ _ (obj_reachable_ok _ Hs) Hi) as [_ Hx]. auto.
Qed.

(** An objective has at most one terminal event: in every reachable state
    with a terminal phase, every event not recorded yet is refused as a
    conflict, or as an unknown objective when it is another one's. *)
Theorem terminal_once s now owner e p :
  obj_reachable s → bounded_id 128 owner = true → terminal_of s owner (xe_objective e) = Some p →
  fetchone (is_event owner (xe_id e)) (execution_events s) = None →
  ingest now owner e s = Err FirstmateExecutionConflict.
Proof.
  intros Hs Hb Hp Hn. pose proof (ok_exec _ _ (obj_reachable_ok _ Hs)) as He. unfold terminal_of in Hp.
  destruct (fetchone (is_execution owner (xe_objective e)) (executions s)) as [x|] eqn:Ex; [|done]. cbn in Hp.
  pose proof (fetchone_some _ _ _ Ex) as [Hin _]. destruct (exec_terminal _ He x Hin) as [Heq _]. rewrite Hp in Heq.
  unfold ingest, mbind, tx_bind, require, lift, read. rewrite Hb. cbn [ensure]. cbv beta iota. rewrite Hn.
  unfold correlate, mbind, tx_bind, require, lift, read. cbv beta iota. rewrite Ex.
  destruct (xe_body e); cbn; try done; destruct (_ && _); try done; by rewrite Heq.
Qed.

(** A cancellation request is observed only once the execution ledger holds
    the objective's cancelled event. *)
Theorem cancellation_observed_after_event s c :
  obj_reachable s → c ∈ cancellations s → cn_status c = observed →
  terminal_of s (cn_owner c) (cn_objective c) = Some "objective.cancelled".
Proof. intros Hs. apply exec_observed, (ok_exec policy), obj_reachable_ok, Hs. Qed.

(** The personal objectives an owner holds open, and the workers they
    reserve, never exceed the configured number of implementation workers. *)
Theorem worker_limit s owner :
  obj_reachable s → PersonalDeploymentContract policy = Ok policy →
  count (held owner) (resources s) ≤ max_implementation_workers policy ∧
  sum pr_workers (held owner) (resources s) ≤ max_implementation_workers policy.
Proof.
  intros Hs Hp. destruct (ok_holds _ _ (obj_reachable_ok _ Hs)) as [_ H2 H3]. specialize (H2 owner). specialize (H3 owner).
  unfold PersonalDeploymentContract in Hp. tx_inv. bools. rewrite within_spec in *. lia.
Qed.

(** A new reservation holds the full objective ceiling, and the settled
    spend of the month with every outstanding hold stays within the monthly
    limit; anything else is a replay that changes nothing. *)
Theorem reservation_within_budget now p objective sha project n s (u : unit) s' :
  resource_reserve policy now p objective sha project n s = Ok (u, s') →
  s' = s ∨
  ∃ row m, resources s' = resources s ++ [row] ∧ pr_objective row = objective ∧ pr_status row = reserved ∧
    monthly_spend_limit_micro_usd policy = Some m ∧
    sum (λ r, default 0 (pr_actual r)) (spent_in (pr_owner row) (_period_key now)) (resources s') +
    sum pr_reserved (held (pr_owner row)) (resources s') ≤ m.
Proof.
  intros Hr. apply reserve_ok in Hr as [[-> _]|(row & Hres & Hk & Hst & _ & _ & _ & _ & _ & m & Hm & Hle)]; [by left|right].
  exists row, m. split_and!; try done. rewrite Hres, !sum_snoc. unfold spent_in at 2, held at 2. rewrite Hst, eqb_refl.
  rewrite (eqb_neq reserved settled) by done. rewrite andb_false_r. cbn [andb]. rewrite eqb_refl. cbn [andb]. lia.
Qed.

(** The event a database has recorded, which a repetition returns. *)
Definition recorded (owner : string) (e : exec_event) (t : list execution_event) (d : execution_event) : Prop :=
  bounded_id 128 owner = true ∧ fetchone (is_event owner (xe_id e)) t = Some d ∧
  ev_payload d = xe_payload e ∧ ev_payload_sha256 d = sha256_hex (xe_payload e).

Lemma ingest_duplicate now owner e s d :
  recorded owner e (execution_events s) d → ingest now owner e s = Ok (_public_event d true, s).
Proof.
  intros (Hb & Hd & H1 & H2). unfold ingest, mbind, tx_bind, require, lift, read. rewrite Hb. cbn [ensure]. cbv beta iota.
  rewrite Hd. cbv beta iota. by rewrite H1, H2, !eqb_refl.
Qed.

(** An ingested event is recorded. *)
Lemma ingest_recorded now owner e s r s' :
  ingest now owner e s = Ok (r, s') → ∃ d, recorded owner e (execution_events s') d.
Proof.
  intros Hi. unfold ingest in Hi. apply bind_ok in Hi as (? & ? & [Hb <-]%require_ok & Hi).
  apply bind_ok in Hi as (d & ? & [<- <-]%read_ok & Hi). destruct (fetchone _ _) as [d|] eqn:Ed.
  - apply bind_ok in Hi as (? & ? & [Hd <-]%require_ok & [<- <-]%ret_ok). bools.
    by exists d.
  - apply bind_ok in Hi as (o & s1 & Hc & Hi). apply bind_ok in Hi as (row & ? & [_ <-]%lift_ok & Hi).
    apply bind_ok in Hi as (p & s2 & Ha & Hi). apply bind_ok in Hi as (? & s3 & He & Hi).
    unfold insert_execution_event in He. destruct (insert _ _ _) as [t|] eqn:Ei; [|done]. injection He as _ <-.
    apply insert_some in Ei as [-> Hf]. set (stored := mkExecutionEvent _ _ _ _ _ _ _ _ _ _ _ _ _ _ _ _ _) in *.
    apply bind_ok in Hi as (? & s4 & Hfin & Hi). apply bind_ok in Hi as (? & s5 & Hp & [<- <-]%ret_ok).
    assert (execution_events s5 = execution_events s2 ++ [stored]) as Hev.
    { assert (execution_events s4 = execution_events s2 ++ [stored]) as E4.
      { destruct (_TERMINAL_PHASES _); [|by apply ret_ok in Hfin as [_ <-]]. unfold finish_objective in Hfin.
        apply bind_ok in Hfin as (? & ? & ->%modify_ok & Hfin). by case_match; apply modify_ok in Hfin as ->. }
      rewrite <- E4. revert Hp. unfold persist_objective_state. intros Hp.
      cut (preserves (λ x : obj_db, execution_events x = execution_events s4) (persist_objective_state owner (xe_objective e) false)).
      { intros Hpres. by eapply Hpres. }
      unfold persist_objective_state. preserve; by apply preserves_modify. }
    assert (fetchone (is_event owner (xe_id e)) (execution_events s2) = None) as Hnone.
    { apply fetchone_all_false. intros y Hy. specialize (Hf y Hy). unfold execution_event_clash, stored in Hf. cbn in Hf.
      unfold is_event. destruct (ev_owner y == owner) eqn:E1, (ev_id y == xe_id e) eqn:E2; try done.
      apply eqb_true in E1, E2. by rewrite E1, E2, !eqb_refl in Hf. }
    exists stored. split; [done|]. split; [|done].
    rewrite Hev, fetchone_app, Hnone. unfold is_event, stored. cbn. by rewrite !eqb_refl.
Qed.

(** Claiming an objective whose submission was accepted, with the same
    invocation key, never dispatches it again: the claim is refused, or it
    reports the same objective as accepted and the store is unchanged. *)
Theorem accepted_claim_replay now now_ms ctx key contract_json prepared title pp s e r s' :
  fetchone (by_invocation (tc_owner ctx) key) (submissions s) = Some e → sb_status e = s_accepted →
  claim policy now now_ms ctx key contract_json prepared title pp s = Ok (r, s') →
  s' = s ∧ ∃ c, r = Ok c ∧ cl_accepted c = true ∧ cl_duplicate c = true ∧ cl_objective c = sb_objective e ∧
    cl_task c = sb_task e ∧ cl_contract_json c = sb_contract_json e ∧ cl_context_json c = sb_context_json e.
Proof.
  intros He Ha Hc. unfold claim in Hc. apply bind_ok in Hc as (? & ? & [_ <-]%lift_ok & Hc).
  apply bind_ok in Hc as (? & ? & [_ <-]%require_ok & Hc). unfold store_errors in Hc. case_match eqn:Em; [|by repeat case_match].
  injection Hc as ->. apply bind_ok in Em as (? & ? & [<- <-]%read_ok & Em). rewrite He in Em. unfold claim_existing in Em.
  destruct (_identities _ _) as [objective task]. apply bind_ok in Em as (? & ? & [Hb <-]%require_ok & Em).
  rewrite Ha, eqb_refl in Em. apply ret_ok in Em as [<- <-]. bools. split; [done|]. by eexists.
Qed.
End Runs.
