(* ===== verification/ObjectiveWitness.v ===== *)
(** * One objective from claim to cancellation

    A run of the stores on concrete rows: a personal claim, its acceptance, the
    runtime's events and a cancellation, and the instances of the objective
    theorems along it. *)

From stdpp Require Import base option list strings numbers sets.
From Stdlib Require Import ZArith Lia.
From S2P Require Import Prelude Sql Feed Json BillingCatalog BillingLedger Text Activity Deployment DeploymentTheorems ActivityWitness Objectives Execution ObjectiveInvariant ObjectiveSteps ObjectiveTheorems.

Open Scope string_scope.
Open Scope list_scope.
Open Scope Z_scope.

Definition o_ctx : tool_context :=
  {| tc_owner := "owner"; tc_conversation := "mgc_abcd"; tc_turn := "mgt_abcd"; tc_user_message := "mgm_user";
     tc_assistant_message := "mgm_assistant"; tc_command_authorized := true |}.
Definition o_env : obj_op :=
  Environment (mkActivityDb [] [] [] []) [] [] [{| ms_id := "mgm_user"; ms_owner := "owner"; ms_conversation := "mgc_abcd"; ms_role := "user"; ms_status := "completed" |}] []
    [{| jr_owner := "owner"; jr_project := "p"; jr_provider := "github"; jr_repository := "r"; jr_name := "Org/Repo" |}]
    [{| gr_installation := 7; gr_repository := 9; gr_name := "org/repo"; gr_active := true |}]
    [{| in_id := 7; in_user := "owner"; in_status := "active" |}].
Definition o_claim : obj_op := Claim 1 1000 o_ctx zeros "{}" (Some (Some "p", "{}")) "Title" (Some demo_principal).
Definition o_id : string := (_identities "owner" zeros).1.
Definition o_task : string := (_identities "owner" zeros).2.
Definition o_result : claim_result :=
  {| cl_objective := o_id; cl_task := o_task; cl_contract_json := "{}"; cl_contract_sha256 := sha256_hex "{}";
     cl_accepted := false; cl_duplicate := false; cl_attempt := 1; cl_context_json := "{}"; cl_context_sha256 := sha256_hex "{}" |}.
Definition o_event (id : string) (b : event_body) : exec_event :=
  {| xe_id := id; xe_objective := o_id; xe_task := o_task; xe_run := "run"; xe_occurred_at := 5; xe_body := b; xe_payload := id |}.
Definition o_accepted : exec_event := o_event "e1" (AcceptedBody "Title" None "mgc_abcd" "mgm_user").
Definition o_cancelled : exec_event := o_event "e2" (TerminalBody "objective.cancelled").
Definition o_failed : exec_event := o_event "e3" (TerminalBody "objective.failed").

Notation run := (obj_run demo_policy).
Definition st_claimed : obj_db := run o_claim (run o_env empty_objectives).
Definition st_accepted : obj_db := run (Accept 1001 "owner" o_result) st_claimed.
Definition st_running : obj_db := run (Ingest 1002 "owner" o_accepted) st_accepted.
Definition st_requested : obj_db := run (Request 1003 "owner" "s" o_id "cancel-key-1") st_running.
Definition st_cancelled : obj_db := run (Ingest 1004 "owner" o_cancelled) st_requested.

Lemma st_claimed_reachable : obj_reachable demo_policy st_claimed.
Proof. do 2 (apply or_step; [|exact I]). apply or_init. Qed.
Lemma st_requested_reachable : obj_reachable demo_policy st_requested.
Proof. do 3 (apply or_step; [|exact I]). apply st_claimed_reachable. Qed.
Lemma st_cancelled_reachable : obj_reachable demo_policy st_cancelled.
Proof. apply or_step; [apply st_requested_reachable|exact I]. Qed.

Definition o_public (r : res obj_error (public_event * obj_db)) : public_event :=
  match r with
  | Ok (p, _) => p
  | Err _ => {| pe_status := ""; pe_event_id := ""; pe_objective := ""; pe_task := ""; pe_run := ""; pe_phase := "";
                pe_occurred_at := 0; pe_generation := None |}
  end.

Lemma projection_follows_witness : ∃ s', persist_objective_state "owner" o_id true st_requested = Ok (tt, s').
Proof.
  apply (projection_follows demo_policy st_requested "owner" o_id true st_requested_reachable);
    [vm_compute; reflexivity|vm_compute; reflexivity|].
  assert (Forall (λ p, pj_revision p < MAX_CONTRACT_INTEGER) (projections st_requested)) as H.
  { apply (bool_decide_unpack _). vm_compute. exact I. }
  by rewrite Forall_forall in H.
Defined.

Definition o_cancellation : cancellation :=
  default (mkCancellation "" "" "" "" "" "" req_failed None n_failed 0 None 0 0) (head (cancellations st_cancelled)).
Lemma o_cancellation_observed : o_cancellation ∈ cancellations st_cancelled ∧ cn_status o_cancellation = observed.
Proof. vm_compute. split; [left|reflexivity]. Qed.

Definition st_env : obj_db := run o_env empty_objectives.
