(* ===== verification/Chat.v ===== *)
(** * Native chat store ([gateway/app/magi_chat_store.py])

    Conversations, the messages of their turns, the change feed a client
    replays, the bindings of generated messages, route closures and the
    content-free counters. Each function is one SQLite transaction.

    [_new_id] is a random identity, an argument here; the clock is read once
    per call. Attachments are the JSON values the caller passes; their
    canonical text is a [Codec]'s. *)

From stdpp Require Import base option list strings numbers sets.
From Stdlib Require Import ZArith Lia.
From S2P Require Import Prelude Sql Feed Json Text.

Open Scope string_scope.
Open Scope list_scope.
Open Scope Z_scope.

Inductive chat_error := ChatValueError | MagiChatNotFound | MagiChatConflict | ChatIntegrityError | ChatAssertionError.

#[export] Instance chat_error_eq_dec : EqDecision chat_error.
Proof. solve_decision. Defined.

Definition MAX_MAGI_HISTORY_MESSAGES : Z := 200.
Definition MAX_MAGI_CONTEXT_MESSAGES : Z := 40.
Definition MAX_ATTACHMENTS_PER_MESSAGE : Z := 10.
Definition _VALID_SOURCES : list string := ["text"; "voice"].
Definition _VALID_ROUTE_CATEGORIES : list string :=
  ["DIRECT_CONVERSATION"; "READ_ONLY_INVESTIGATION"; "EXECUTION"; "DECISION_RESPONSE"; "HIGH_IMPACT_ACTION"].
Definition _VALID_ROUTE_OUTCOMES : list string :=
  ["routing"; "direct-response"; "objective-accepted"; "memory-saved"; "confirmation-required"; "failed"; "cancelled"].
Definition member (l : list string) (s : string) : bool := existsb (String.eqb s) l.

(** ** Tables *)

Record conversation := {
  cv_id : string; cv_owner : string; cv_default : bool; cv_created : Z; cv_updated : Z;
}.
#[export] Instance conversation_settable : Settable conversation :=
  λ r, Build_conversation (cv_id r) (cv_owner r) (cv_default r) (cv_created r) (cv_updated r).
(** The primary key and the partial unique index of the default. *)
Definition conversation_clash (a b : conversation) : bool :=
  (cv_id a == cv_id b) || ((cv_owner a == cv_owner b) && cv_default a && cv_default b).

Inductive role := RoleUser | RoleAssistant.
Inductive message_status := pending | completed | failed | cancelled.
#[export] Instance role_eq_dec : EqDecision role.
Proof. solve_decision. Defined.
#[export] Instance message_status_eq_dec : EqDecision message_status.
Proof. solve_decision. Defined.

Record message := {
  mg_id : string; mg_conversation : string; mg_owner : string; mg_turn : string; mg_role : role;
  mg_content : string; mg_status : message_status; mg_source : string; mg_client : option string;
  mg_reply : option string; mg_attachments : string; mg_sequence : Z; mg_revision : Z; mg_attempts : Z;
  mg_error : option string; mg_created : Z; mg_updated : Z;
}.
#[export] Instance message_settable : Settable message :=
  λ r, Build_message (mg_id r) (mg_conversation r) (mg_owner r) (mg_turn r) (mg_role r) (mg_content r) (mg_status r)
    (mg_source r) (mg_client r) (mg_reply r) (mg_attachments r) (mg_sequence r) (mg_revision r) (mg_attempts r)
    (mg_error r) (mg_created r) (mg_updated r).
(** The primary key and the three unique constraints; [NULL] client
    identities are distinct. *)
Definition message_clash (a b : message) : bool :=
  (mg_id a == mg_id b) ||
  ((mg_owner a == mg_owner b) && match mg_client a, mg_client b with Some x, Some y => x == y | _, _ => false end) ||
  ((mg_conversation a == mg_conversation b) && (mg_turn a == mg_turn b) && (mg_role a == mg_role b)) ||
  ((mg_conversation a == mg_conversation b) && (mg_sequence a =? mg_sequence b)).

Record message_change := {
  mc_conversation : string; mc_sequence : Z; mc_message : string; mc_revision : Z; mc_changed : Z;
}.
Definition message_change_clash (a b : message_change) : bool :=
  (mc_conversation a == mc_conversation b) &&
  ((mc_sequence a =? mc_sequence b) || ((mc_message a == mc_message b) && (mc_revision a =? mc_revision b))).

Record generated := {
  gm_owner : string; gm_key : string; gm_facts : string; gm_conversation : string; gm_reply : string;
  gm_message : string; gm_created : Z;
}.
Definition generated_clash (a b : generated) : bool :=
  ((gm_owner a == gm_owner b) && (gm_key a == gm_key b)) || (gm_message a == gm_message b).

Record turn_route := {
  tr_message : string; tr_owner : string; tr_category : string; tr_permission : bool; tr_confirmation : bool;
  tr_outcome : string; tr_created : Z; tr_updated : Z;
}.
#[export] Instance turn_route_settable : Settable turn_route :=
  λ r, Build_turn_route (tr_message r) (tr_owner r) (tr_category r) (tr_permission r) (tr_confirmation r)
    (tr_outcome r) (tr_created r) (tr_updated r).

(** [magi_chat_diagnostics]; an absent counter of the row is zero. *)
Record diagnostics_row := {
  dg_owner : string; dg_counters : list (string * Z);
  dg_latency : Z; dg_latency_total : Z; dg_latency_max : Z;
  dg_characters : Z; dg_characters_last : Z; dg_characters_max : Z; dg_updated : Z;
}.
#[export] Instance diagnostics_row_settable : Settable diagnostics_row :=
  λ r, Build_diagnostics_row (dg_owner r) (dg_counters r) (dg_latency r) (dg_latency_total r) (dg_latency_max r)
    (dg_characters r) (dg_characters_last r) (dg_characters_max r) (dg_updated r).

Record chat_db := {
  conversations : list conversation; messages : list message; message_changes : list message_change;
  bindings : list generated; routes : list turn_route; diagnostics : list diagnostics_row;
}.
#[export] Instance chat_db_settable : Settable chat_db :=
  λ s, Build_chat_db (conversations s) (messages s) (message_changes s) (bindings s) (routes s) (diagnostics s).
Definition empty_chat : chat_db := Build_chat_db [] [] [] [] [] [].

Definition chat (A : Type) : Type := tx chat_error chat_db A.

Definition insert_row {R} (get : chat_db → list R) (set : list R → chat_db → chat_db) (clash : R → R → bool) (r : R) : chat unit :=
  λ s, match insert clash r (get s) with Some t => Ok (tt, set t s) | None => Err ChatIntegrityError end.
Definition insert_conversation : conversation → chat unit :=
  insert_row conversations (λ t s, s <| conversations := t |>) conversation_clash.
Definition insert_message : message → chat unit :=
  insert_row messages (λ t s, s <| messages := t |>) message_clash.
Definition insert_message_change : message_change → chat unit :=
  insert_row message_changes (λ t s, s <| message_changes := t |>) message_change_clash.
Definition insert_generated : generated → chat unit :=
  insert_row bindings (λ t s, s <| bindings := t |>) generated_clash.

(** ** Attachments *)

(** [upload_id.replace("-", "").replace("_", "").isalnum()] *)
Definition upload_characters (s : string) : bool :=
  str_forall (λ c, py_isalnum c || one_of "-_" c) s && str_exists py_isalnum s.

Definition valid_attachment (upload name media : string) (size : Z) : bool :=
  (16 <=? str_len upload) && (str_len upload <=? 64) && upload_characters upload &&
  (name != "") && (str_len name <=? 160) && (media != "") && (str_len media <=? 128) &&
  (0 <=? size) && (size <=? 25 * 1024 * 1024).
(** One record, its keys in the order [sort_keys] writes them; the elements the
    callers pass are dictionaries. *)
Definition attachment_record (j : json) : res chat_error json :=
  d ← of_option ChatValueError (as_dict j);
  let name := match assoc "filename" d with Some v => v | None => get "name" d end in
  match get "upload_id" d, name, get "media_type" d, as_int (get "size" d) with
  | JStr upload, JStr name, JStr media, Some size =>
      ensure (valid_attachment upload name media size) ChatValueError;;
      Ok (JObj [("id", JStr upload); ("media_type", JStr media); ("name", JStr name); ("size", JInt size);
                ("upload_id", JStr upload); ("url", JStr ("/api/v1/uploads/" +:+ upload))])
  | _, _, _, _ => Err ChatValueError
  end.
Definition _canonical_attachment_records (l : list json) : res chat_error (list json) :=
  ensure (Z.of_nat (length l) <=? MAX_ATTACHMENTS_PER_MESSAGE) ChatValueError;;
  map_res attachment_record l.

Section Store.
Context `{Codec}.

Definition _attachment_json (l : list json) : res chat_error string :=
  records ← _canonical_attachment_records l;
  of_option ChatValueError (dumps (JList records)).
(** Anything that is not a stored list of attachments decodes to none. *)
Definition _decode_attachments (raw : string) : list json :=
  match loads (if raw == "" then "[]" else raw) with
  | Some j => match _canonical_attachment_records (default [] (as_list j)) with Ok l => l | Err _ => [] end
  | None => []
  end.

(** ** Shared statements *)

Definition of_conversation (c : string) (r : message_change) : bool := mc_conversation r == c.
Definition in_conversation (c : string) (r : message) : bool := mg_conversation r == c.
Definition latest_message_change (s : chat_db) (c : string) : Z :=
  default 0 (max_of mc_sequence (of_conversation c) (message_changes s)).
Definition next_sequence (s : chat_db) (c : string) : Z :=
  default (-1) (max_of mg_sequence (in_conversation c) (messages s)) + 1.

Definition _append_change (c message : string) (revision now : Z) : chat Z :=
  latest ← read (λ s, latest_message_change s c);
  insert_message_change (Build_message_change c (latest + 1) message revision now);;
  mret (latest + 1).

Definition COUNTERS : list string :=
  ["magi_messages_submitted"; "magi_messages_completed"; "magi_messages_failed"; "magi_duplicate_submissions";
   "magi_retries"; "magi_tool_calls"; "legacy_chat_reads"; "terminal_chat_reads"; "pi_ownership_chat_reads"].

Definition of_diagnostics (owner : string) (d : diagnostics_row) : bool := dg_owner d == owner.
(** [INSERT OR IGNORE] *)
Definition ensure_diagnostics (owner : string) (now : Z) : chat unit :=
  modify (λ s, s <| diagnostics ::= (λ t, if exists_row (of_diagnostics owner) t then t
    else t ++ [Build_diagnostics_row owner [] 0 0 0 0 0 0 now]) |>).
(** [SET name = name + n] *)
Fixpoint bump (name : string) (n : Z) (l : list (string * Z)) : list (string * Z) :=
  match l with
  | [] => [(name, n)]
  | (k, v) :: l' => if k == name then (k, v + n) :: l' else (k, v) :: bump name n l'
  end.
Definition bump_all (increments l : list (string * Z)) : list (string * Z) :=
  foldl (λ acc kv, bump kv.1 (Z.max 0 kv.2) acc) l increments.
Definition _increment_diagnostics (owner : string) (increments : list (string * Z)) (now : Z) : chat unit :=
  require (negb (match increments with [] => true | _ => false end) && forallb (λ kv, member COUNTERS kv.1) increments) ChatValueError;;
  ensure_diagnostics owner now;;
  modify (λ s, s <| diagnostics ::= update (of_diagnostics owner) (λ d, d <| dg_counters ::= bump_all increments |> <| dg_updated := now |>) |>).

Definition record_compatibility_read (owner counter : string) (now : Z) : chat unit := _increment_diagnostics owner [(counter, 1)] now.

Definition _record_completion_metrics (owner : string) (latency characters tool_calls now : Z) : chat unit :=
  ensure_diagnostics owner now;;
  modify (λ s, s <| diagnostics ::= update (of_diagnostics owner) (λ d, d
    <| dg_counters ::= bump_all [("magi_messages_completed", 1); ("magi_tool_calls", tool_calls)] |>
    <| dg_latency := latency |> <| dg_latency_total ::= Z.add latency |> <| dg_latency_max ::= Z.max latency |>
    <| dg_characters ::= Z.add characters |> <| dg_characters_last := characters |> <| dg_characters_max ::= Z.max characters |>
    <| dg_updated := now |>) |>).

Definition is_conversation (owner id : string) (c : conversation) : bool := (cv_id c == id) && (cv_owner c == owner).
Definition is_default (owner : string) (c : conversation) : bool := (cv_owner c == owner) && cv_default c.
Definition _conversation_row (owner id : string) : chat conversation :=
  row ← read (λ s, fetchone (is_conversation owner id) (conversations s));
  lift (of_option MagiChatNotFound row).

(** [create=True]; an [IntegrityError] of the insert is followed by one more
    look for the row another process created. *)
Definition _default_conversation (owner fresh : string) (now : Z) : chat conversation :=
  row ← read (λ s, fetchone (is_default owner) (conversations s));
  match row with
  | Some c => mret c
  | None => λ s,
      match insert_conversation (Build_conversation fresh owner true now now) s with
      | Ok (_, s') => lift (of_option ChatAssertionError (fetchone (λ c, cv_id c == fresh) (conversations s'))) s'
      | Err e => lift (of_option e (fetchone (is_default owner) (conversations s))) s
      end
  end.
(** [... if conversation_id else ...]: the empty text is no identity. *)
Definition conversation_or_default (owner : string) (id : option string) (fresh : string) (now : Z) : chat conversation :=
  match id ≫= nonempty with
  | Some id => _conversation_row owner id
  | None => _default_conversation owner fresh now
  end.
Definition touch_conversation (id : string) (now : Z) : chat unit :=
  modify (λ s, s <| conversations ::= update (λ c, cv_id c == id) (λ c, c <| cv_updated := now |>) |>).

Definition is_message (id : string) (m : message) : bool := mg_id m == id.
Definition set_message (id : string) (f : message → message) : chat unit :=
  modify (λ s, s <| messages ::= update (is_message id) f |>).
Definition get_message (id : string) : chat message :=
  row ← read (λ s, fetchone (is_message id) (messages s));
  lift (of_option ChatAssertionError row).

Definition is_submission (owner client : string) (m : message) : bool :=
  (mg_owner m == owner) && (mg_client m == Some client) && (mg_role m == RoleUser).
Definition is_answer (owner : string) (user : message) (m : message) : bool :=
  (mg_owner m == owner) && (mg_conversation m == mg_conversation user) && (mg_turn m == mg_turn user) && (mg_role m == RoleAssistant).
Definition is_assistant (owner id : string) (m : message) : bool :=
  (mg_id m == id) && (mg_owner m == owner) && (mg_role m == RoleAssistant).

Definition _submission_rows (owner client : string) : chat (option (message * message)) :=
  user ← read (λ s, fetchone (is_submission owner client) (messages s));
  match user with
  | None => mret None
  | Some u =>
      a ← read (λ s, fetchone (is_answer owner u) (messages s));
      a ← lift (of_option MagiChatConflict a);
      mret (Some (u, a))
  end.
Definition is_binding (owner key : string) (g : generated) : bool := (gm_owner g == owner) && (gm_key g == key).
Definition _generated_row (owner key : string) : chat (option (generated * message)) :=
  binding ← read (λ s, fetchone (is_binding owner key) (bindings s));
  match binding with
  | None => mret None
  | Some g =>
      m ← read (λ s, fetchone (is_assistant owner (gm_message g)) (messages s));
      m ← lift (of_option MagiChatConflict m);
      mret (Some (g, m))
  end.

(** ** Submissions *)

Record prepared := {
  pp_conversation : string; pp_user : option string; pp_assistant : string; pp_turn : string;
  pp_attempt : Z; pp_claimed : bool; pp_duplicate : bool; pp_status : message_status;
}.

(** The identities one call may draw. *)
Record fresh_ids := { new_conversation : string; new_turn : string; new_user : string; new_assistant : string }.

Definition user_message (ids : fresh_ids) (c owner content source client attachments : string) (sequence now : Z) : message :=
  Build_message (new_user ids) c owner (new_turn ids) RoleUser content completed source (Some client) None
    attachments sequence 1 1 None now now.
Definition assistant_message (ids : fresh_ids) (c owner reply : string) (sequence now : Z) : message :=
  Build_message (new_assistant ids) c owner (new_turn ids) RoleAssistant "" pending "magi-native" None (Some reply)
    "[]" sequence 1 1 None now now.

Definition is_reopenable (owner id : string) (m : message) : bool := is_message id m && (mg_owner m == owner) && (mg_status m == failed).
(** Reopening a failed answer; [None] when another retry was first. *)
Definition reopen_failed (owner : string) (answer : message) (c : string) (now : Z) : chat (option message) :=
  changed ← read (λ s, exists_row (is_reopenable owner (mg_id answer)) (messages s));
  modify (λ s, s <| messages ::= update (is_reopenable owner (mg_id answer)) (λ m, m <| mg_status := pending |> <| mg_content := "" |> <| mg_error := None |>
    <| mg_attempts ::= Z.add 1 |> <| mg_revision ::= Z.add 1 |> <| mg_updated := now |>) |>);;
  if (changed : bool) then
    answer ← get_message (mg_id answer);
    _append_change c (mg_id answer) (mg_revision answer) now;;
    _increment_diagnostics owner [("magi_retries", 1)] now;;
    mret (Some answer)
  else mret None.

Definition duplicate_submission (now : Z) (owner content : string) (c : conversation) (source attachments : string)
    (retry_failed : bool) (user answer : message) : chat prepared :=
  _increment_diagnostics owner [("magi_duplicate_submissions", 1)] now;;
  require ((mg_conversation user == cv_id c) && (mg_content user == content) && (mg_source user == source) &&
           (mg_attachments user == attachments)) MagiChatConflict;;
  reopened ← (if retry_failed && (mg_status answer == failed) then reopen_failed owner answer (cv_id c) now else mret None);
  let answer := default answer reopened in
  mret {| pp_conversation := cv_id c; pp_user := Some (mg_id user); pp_assistant := mg_id answer; pp_turn := mg_turn user;
          pp_attempt := mg_attempts answer; pp_claimed := bool_decide (is_Some reopened); pp_duplicate := true;
          pp_status := mg_status answer |}.

Definition new_submission (now : Z) (ids : fresh_ids) (owner client content : string) (c : conversation)
    (source attachments : string) : chat prepared :=
  sequence ← read (λ s, next_sequence s (cv_id c));
  insert_message (user_message ids (cv_id c) owner content source client attachments sequence now);;
  insert_message (assistant_message ids (cv_id c) owner (new_user ids) (sequence + 1) now);;
  touch_conversation (cv_id c) now;;
  _append_change (cv_id c) (new_user ids) 1 now;;
  _append_change (cv_id c) (new_assistant ids) 1 now;;
  _increment_diagnostics owner [("magi_messages_submitted", 1)] now;;
  mret {| pp_conversation := cv_id c; pp_user := Some (new_user ids); pp_assistant := new_assistant ids; pp_turn := new_turn ids;
          pp_attempt := 1; pp_claimed := true; pp_duplicate := false; pp_status := pending |}.

Definition prepare_submission (now : Z) (ids : fresh_ids) (owner client content : string) (conversation_id : option string)
    (source : string) (attachments : list json) (retry_failed : bool) : chat prepared :=
  require (member _VALID_SOURCES source) ChatValueError;;
  attachments ← lift (_attachment_json attachments);
  c ← conversation_or_default owner conversation_id (new_conversation ids) now;
  existing ← _submission_rows owner client;
  match existing with
  | Some (user, answer) => duplicate_submission now owner content c source attachments retry_failed user answer
  | None => new_submission now ids owner client content c source attachments
  end.

(** ** Generated messages *)

Definition generation_key_pattern : string → bool :=
  fullmatch1 is_alnum (λ c, is_alnum c || one_of "._:-" c) 0 199.

Definition is_origin (owner c id : string) (m : message) : bool :=
  (mg_id m == id) && (mg_owner m == owner) && (mg_conversation m == c) && (mg_role m == RoleUser) && (mg_status m == completed).

Definition duplicate_generated (now : Z) (owner facts c reply : string) (retry_failed : bool) (g : generated) (answer : message) : chat prepared :=
  require ((gm_facts g == facts) && (gm_conversation g == c) && (gm_reply g == reply) &&
           (mg_conversation answer == c) && (mg_reply answer == Some reply) && (mg_source answer == "magi-native")) MagiChatConflict;;
  reopened ← (if retry_failed && (mg_status answer == failed) then reopen_failed owner answer c now else mret None);
  let answer := default answer reopened in
  mret {| pp_conversation := c; pp_user := None; pp_assistant := mg_id answer; pp_turn := mg_turn answer;
          pp_attempt := mg_attempts answer; pp_claimed := bool_decide (is_Some reopened); pp_duplicate := true;
          pp_status := mg_status answer |}.

Definition new_generated (now : Z) (ids : fresh_ids) (owner key facts c reply : string) : chat prepared :=
  sequence ← read (λ s, next_sequence s c);
  insert_message (assistant_message ids c owner reply sequence now);;
  insert_generated (Build_generated owner key facts c reply (new_assistant ids) now);;
  touch_conversation c now;;
  _append_change c (new_assistant ids) 1 now;;
  _increment_diagnostics owner [("magi_messages_submitted", 1)] now;;
  mret {| pp_conversation := c; pp_user := None; pp_assistant := new_assistant ids; pp_turn := new_turn ids;
          pp_attempt := 1; pp_claimed := true; pp_duplicate := false; pp_status := pending |}.

Definition prepare_generated_assistant (now : Z) (ids : fresh_ids) (owner key facts c reply : string) (retry_failed : bool) : chat prepared :=
  require (generation_key_pattern key && _SAFE_HASH facts) ChatValueError;;
  _conversation_row owner c;;
  origin ← read (λ s, fetchone (is_origin owner c reply) (messages s));
  lift (of_option MagiChatNotFound origin);;
  existing ← _generated_row owner key;
  match existing with
  | Some (g, answer) => duplicate_generated now owner facts c reply retry_failed g answer
  | None => new_generated now ids owner key facts c reply
  end.

(** ** Outcomes of an attempt *)

(** The row an outcome is for, when it is still the attempt in progress. *)
Definition claimed_row (owner id : string) (attempt : Z) : chat (option message) :=
  row ← read (λ s, fetchone (is_assistant owner id) (messages s));
  m ← lift (of_option MagiChatNotFound row);
  mret (if (mg_status m != pending) || negb (mg_attempts m =? attempt) then None else Some m).

Definition settle_row (id : string) (m : message) (content : string) (status : message_status) (error : option string) (now : Z) : chat unit :=
  set_message id (λ m', m' <| mg_content := content |> <| mg_status := status |> <| mg_error := error |>
    <| mg_revision := mg_revision m + 1 |> <| mg_updated := now |>);;
  touch_conversation (mg_conversation m) now;;
  _append_change (mg_conversation m) id (mg_revision m + 1) now;;
  mret tt.

Definition complete_submission (now : Z) (owner id : string) (attempt : Z) (content : string) (latency_ms tool_calls : Z) : chat bool :=
  row ← claimed_row owner id attempt;
  match row with
  | None => mret false
  | Some m =>
      settle_row id m content completed None now;;
      _record_completion_metrics owner (Z.max 0 latency_ms) (str_len content) (Z.max 0 tool_calls) now;;
      mret true
  end.

(** [error_code if error_code and len(error_code) <= 64 else ...] *)
Definition safe_error (code : string) : string := if (code != "") && (str_len code <=? 64) then code else "provider_failure".
Definition fail_submission (now : Z) (owner id : string) (attempt : Z) (error_code : string) (tool_calls : Z) : chat bool :=
  row ← claimed_row owner id attempt;
  match row with
  | None => mret false
  | Some m =>
      settle_row id m "" failed (Some (safe_error error_code)) now;;
      _increment_diagnostics owner [("magi_messages_failed", 1); ("magi_tool_calls", Z.max 0 tool_calls)] now;;
      mret true
  end.

Definition close_route (owner message outcome : string) (now : Z) : chat unit :=
  modify (λ s, s <| routes ::= update (λ r, (tr_message r == message) && (tr_owner r == owner))
    (λ r, r <| tr_outcome := outcome |> <| tr_updated := now |>) |>).

(** One row that was pending when the process stopped. *)
Definition recover_row (now : Z) (m : message) : chat unit :=
  modify (λ s, s <| messages ::= update (λ m', is_message (mg_id m) m' && (mg_status m' == pending))
    (λ m', m' <| mg_content := "" |> <| mg_status := failed |> <| mg_error := Some "server_restart" |>
      <| mg_revision := mg_revision m + 1 |> <| mg_updated := now |>) |>);;
  touch_conversation (mg_conversation m) now;;
  _append_change (mg_conversation m) (mg_id m) (mg_revision m + 1) now;;
  close_route (mg_owner m) (mg_id m) "failed" now.
Fixpoint for_each {A} (f : A → chat unit) (l : list A) : chat unit :=
  match l with [] => mret tt | a :: l' => f a;; for_each f l' end.
(** The counts of a dictionary keyed by owner, in insertion order. *)
Definition owner_counts (rows : list message) : list (string * Z) := foldl (λ acc m, bump (mg_owner m) 1 acc) [] rows.

Definition is_orphan (m : message) : bool := (mg_role m == RoleAssistant) && (mg_status m == pending).
Definition recover_orphaned_pending (now : Z) : chat Z :=
  rows ← read (λ s, select is_orphan (messages s));
  for_each (recover_row now) rows;;
  for_each (λ kv, _increment_diagnostics kv.1 [("magi_messages_failed", kv.2)] now) (owner_counts rows);;
  mret (Z.of_nat (length rows)).

(** The transaction of [cancel_submission]; the call then reads [submission]. *)
Definition cancel_submission (now : Z) (owner client : string) : chat unit :=
  pair ← _submission_rows owner client;
  '(user, answer) ← lift (of_option MagiChatNotFound pair);
  if mg_status answer == pending then
    set_message (mg_id answer) (λ m, m <| mg_content := "" |> <| mg_status := cancelled |> <| mg_error := None |>
      <| mg_revision := mg_revision answer + 1 |> <| mg_updated := now |>);;
    _append_change (mg_conversation user) (mg_id answer) (mg_revision answer + 1) now;;
    touch_conversation (mg_conversation user) now;;
    close_route owner (mg_id answer) "cancelled" now
  else mret tt.

(** ** Reads *)

Record public_message := {
  pm_id : string; pm_conversation : string; pm_turn : string; pm_client : option string; pm_reply : option string;
  pm_role : role; pm_content : string; pm_status : message_status; pm_source : string; pm_sequence : Z; pm_revision : Z;
  pm_attachments : list json; pm_created : Z; pm_updated : Z;
}.
Definition _public_message (m : message) : public_message :=
  {| pm_id := mg_id m; pm_conversation := mg_conversation m; pm_turn := mg_turn m; pm_client := mg_client m;
     pm_reply := mg_reply m; pm_role := mg_role m; pm_content := mg_content m; pm_status := mg_status m;
     pm_source := mg_source m; pm_sequence := mg_sequence m; pm_revision := mg_revision m;
     pm_attachments := _decode_attachments (mg_attachments m); pm_created := mg_created m; pm_updated := mg_updated m |}.

(** The result of [submission] and of [generated_assistant]. *)
Record exchange := {
  xg_status : message_status; xg_conversation : conversation; xg_user : option public_message;
  xg_assistant : public_message; xg_messages : list public_message; xg_error : option string;
}.
Definition exchange_of (c : conversation) (user : option message) (answer : message) : exchange :=
  {| xg_status := mg_status answer; xg_conversation := c; xg_user := _public_message <$> user;
     xg_assistant := _public_message answer;
     xg_messages := match user with Some u => [_public_message u; _public_message answer] | None => [_public_message answer] end;
     xg_error := if mg_status answer == failed then mg_error answer else None |}.

Definition submission (owner client : string) : chat exchange :=
  pair ← _submission_rows owner client;
  '(user, answer) ← lift (of_option MagiChatNotFound pair);
  c ← _conversation_row owner (mg_conversation user);
  mret (exchange_of c (Some user) answer).

Definition generated_assistant (owner key : string) : chat exchange :=
  existing ← _generated_row owner key;
  '(_, answer) ← lift (of_option MagiChatNotFound existing);
  c ← _conversation_row owner (mg_conversation answer);
  mret (exchange_of c None answer).

(** [ORDER BY sequence_index DESC] *)
Definition newest_message (a b : message) : bool := mg_sequence b <=? mg_sequence a.
Definition oldest_message_change (a b : message_change) : bool := mc_sequence a <=? mc_sequence b.

Definition is_user (owner id : string) (m : message) : bool := (mg_id m == id) && (mg_owner m == owner) && (mg_role m == RoleUser).
Definition context_before (owner c user_message : string) (limit : Z) : chat (list public_message) :=
  require ((1 <=? limit) && (limit <=? MAX_MAGI_CONTEXT_MESSAGES)) ChatValueError;;
  _conversation_row owner c;;
  current ← read (λ s, fetchone (is_user owner user_message) (messages s));
  current ← lift (of_option MagiChatNotFound current);
  rows ← read (λ s, take limit (order_by newest_message (select (λ m,
    (mg_owner m == owner) && in_conversation c m && (mg_sequence m <? mg_sequence current) &&
    (mg_status m == completed) && (mg_content m != "")) (messages s))));
  mret (map _public_message (rev rows)).

Record history := {
  hs_conversation : conversation; hs_messages : list public_message; hs_more : bool; hs_before : option Z; hs_latest : Z;
}.
Definition before_cursor (before : option Z) (m : message) : bool :=
  match before with Some b => mg_sequence m <? b | None => true end.
Definition list_conversation (now : Z) (owner : string) (conversation_id : option string) (fresh : string) (before : option Z) (limit : Z)
  : chat history :=
  require ((1 <=? limit) && (limit <=? MAX_MAGI_HISTORY_MESSAGES)) ChatValueError;;
  require (match before with Some b => 1 <=? b | None => true end) ChatValueError;;
  c ← conversation_or_default owner conversation_id fresh now;
  rows ← read (λ s, take (limit + 1) (order_by newest_message (select (λ m,
    (mg_owner m == owner) && in_conversation (cv_id c) m && before_cursor before m) (messages s))));
  latest ← read (λ s, latest_message_change s (cv_id c));
  let more := limit <? Z.of_nat (length rows) in
  let page := rev (take limit rows) in
  mret {| hs_conversation := c; hs_messages := map _public_message page; hs_more := more;
          hs_before := if more then mg_sequence <$> head page else None; hs_latest := latest |}.

Record replay_page := {
  rp_conversation : conversation; rp_messages : list (public_message * Z); rp_next : Z; rp_latest : Z; rp_more : bool;
}.
Definition replay_change (owner : string) (s : chat_db) (r : message_change) : res chat_error (public_message * Z) :=
  m ← of_option MagiChatConflict (fetchone (λ m, is_message (mc_message r) m && (mg_owner m == owner)) (messages s));
  Ok (_public_message m, mc_sequence r).
Definition replay (owner c : string) (after limit : Z) : chat replay_page :=
  require ((0 <=? after) && (1 <=? limit) && (limit <=? MAX_MAGI_HISTORY_MESSAGES)) ChatValueError;;
  conversation ← _conversation_row owner c;
  changes ← read (λ s, take (limit + 1) (order_by oldest_message_change
    (select (λ r, of_conversation c r && (after <? mc_sequence r)) (message_changes s))));
  let selected := take limit changes in
  out ← read (λ s, map_res (replay_change owner s) selected);
  out ← lift out;
  latest ← read (λ s, latest_message_change s c);
  mret {| rp_conversation := conversation; rp_messages := out; rp_next := from_option mc_sequence after (last selected);
          rp_latest := latest; rp_more := limit <? Z.of_nat (length changes) |}.

(** ** Route closures and counters *)

(** The two flags are [bool]s. *)
Definition record_turn_route (now : Z) (owner message category : string) (permission confirmation : bool) (outcome : string) : chat unit :=
  require (member _VALID_ROUTE_CATEGORIES category && member _VALID_ROUTE_OUTCOMES outcome) ChatValueError;;
  row ← read (λ s, fetchone (is_assistant owner message) (messages s));
  lift (of_option MagiChatNotFound row);;
  modify (λ s, s <| routes ::= (λ t, if exists_row (λ r, tr_message r == message) t
    then update (λ r, (tr_message r == message) && (tr_owner r == owner))
           (λ r, r <| tr_category := category |> <| tr_permission := permission |> <| tr_confirmation := confirmation |>
                   <| tr_outcome := outcome |> <| tr_updated := now |>) t
    else t ++ [Build_turn_route message owner category permission confirmation outcome now now]) |>).

Definition recent_route (a b : turn_route) : bool := tr_updated b <=? tr_updated a.
Definition route_closures (owner : string) (limit : Z) : chat (list turn_route) :=
  require ((1 <=? limit) && (limit <=? 100)) ChatValueError;;
  read (λ s, take limit (order_by recent_route (select (λ r, tr_owner r == owner) (routes s)))).

Definition reset_diagnostics (owner : string) : chat unit :=
  modify (λ s, s <| diagnostics ::= delete_where (of_diagnostics owner) |>).

(** ** Operations in sequence *)

Inductive chat_op :=
| CPrepare (now : Z) (ids : fresh_ids) (owner client content : string) (conversation : option string) (source : string)
    (attachments : list json) (retry : bool)
| CGenerate (now : Z) (ids : fresh_ids) (owner key facts conversation reply : string) (retry : bool)
| CComplete (now : Z) (owner message : string) (attempt : Z) (content : string) (latency tools : Z)
| CFail (now : Z) (owner message : string) (attempt : Z) (error : string) (tools : Z)
| CRecover (now : Z)
| CCancel (now : Z) (owner client : string)
| CList (now : Z) (owner : string) (conversation : option string) (fresh : string) (before : option Z) (limit : Z)
| CRoute (now : Z) (owner message category : string) (permission confirmation : bool) (outcome : string)
| CCount (now : Z) (owner counter : string)
| CReset (owner : string).

(** The claim an operation hands out: the message and the attempt whose
    outcome its caller is to report. *)
Definition claim_of (r : res chat_error prepared) : option (string * Z) :=
  match r with Ok p => if pp_claimed p then Some (pp_assistant p, pp_attempt p) else None | Err _ => None end.
Definition chat_step (o : chat_op) (s : chat_db) : option (string * Z) * chat_db :=
  match o with
  | CPrepare now ids owner client content c source attachments retry =>
      let '(r, s') := commit (prepare_submission now ids owner client content c source attachments retry) s in (claim_of r, s')
  | CGenerate now ids owner key facts c reply retry =>
      let '(r, s') := commit (prepare_generated_assistant now ids owner key facts c reply retry) s in (claim_of r, s')
  | CComplete now owner m attempt content latency tools => (None, (commit (complete_submission now owner m attempt content latency tools) s).2)
  | CFail now owner m attempt error tools => (None, (commit (fail_submission now owner m attempt error tools) s).2)
  | CRecover now => (None, (commit (recover_orphaned_pending now) s).2)
  | CCancel now owner client => (None, (commit (cancel_submission now owner client) s).2)
  | CList now owner c fresh before limit => (None, (commit (list_conversation now owner c fresh before limit) s).2)
  | CRoute now owner m category p e outcome => (None, (commit (record_turn_route now owner m category p e outcome) s).2)
  | CCount now owner counter => (None, (commit (record_compatibility_read owner counter now) s).2)
  | CReset owner => (None, (commit (reset_diagnostics owner) s).2)
  end.
(** The claims handed out along a run, and its last state. *)
Fixpoint chat_run (ops : list chat_op) (s : chat_db) : list (string * Z) * chat_db :=
  match ops with
  | [] => ([], s)
  | o :: ops => let '(c, s1) := chat_step o s in let '(cs, s2) := chat_run ops s1 in (option_list c ++ cs, s2)
  end.
End Store.
