(* ===== verification/ChatInvariant.v ===== *)
(** * What the chat store promises

    The contract of the store as a step relation, [turn]: a conversation is
    opened, a human turn or a generated message is added at the end of its
    conversation, and an answer moves along pending -> completed | failed |
    cancelled and failed -> pending with one more attempt, each time with the
    next revision and the next change of its conversation. [chat_ok] is
    preserved by it; [ChatSteps] shows that the operations implement it. *)

From stdpp Require Import base option list strings numbers sets relations.
From Stdlib Require Import ZArith Lia.
From S2P Require Import Prelude Sql Feed Json Text Chat.

Open Scope string_scope.
Open Scope list_scope.
Open Scope Z_scope.

(** ** The life of a message *)

Definition identity (m : message) :=
  (mg_id m, mg_conversation m, mg_owner m, mg_turn m, mg_role m, mg_source m, mg_client m, mg_reply m,
   mg_attachments m, mg_sequence m, mg_created m).

(** One revision of an answer. *)
Record revises (m m' : message) : Prop := {
  rv_identity : identity m' = identity m;
  rv_role : mg_role m = RoleAssistant;
  rv_revision : mg_revision m' = mg_revision m + 1;
  rv_status :
    (mg_status m = pending ∧ mg_status m' ≠ pending ∧ mg_attempts m' = mg_attempts m) ∨
    (mg_status m = failed ∧ mg_status m' = pending ∧ mg_attempts m' = mg_attempts m + 1);
}.

Section Contract.
Context `{Codec}.

(** The change announced for [m] after the ones of [t]. *)
Definition next_change (t : list message_change) (m : message) (now : Z) : message_change :=
  Build_message_change (mg_conversation m) (default 0 (max_of mc_sequence (of_conversation (mg_conversation m)) t) + 1)
    (mg_id m) (mg_revision m) now.
Definition announce (ms : list message) (now : Z) (t : list message_change) : list message_change :=
  foldl (λ t m, t ++ [next_change t m now]) t ms.
#[global] Arguments announce : simpl never.

Definition owned_by (P : string → Prop) (s : chat_db) (c : string) : Prop :=
  ∃ x, x ∈ conversations s ∧ cv_id x = c ∧ P (cv_owner x).
Definition owner_of (s : chat_db) (c owner : string) : Prop := owned_by (λ o, o = owner) s c.

(** [P] is the set of owners the step may act for. *)
Inductive turn (P : string → Prop) (s : chat_db) : chat_db → Prop :=
| turn_quiet s' : conversations s' = conversations s → messages s' = messages s → message_changes s' = message_changes s →
    bindings s' = bindings s → turn P s s'
| turn_touch c now : owned_by P s c →
    turn P s (s <| conversations ::= update (λ x, cv_id x == c) (λ x, x <| cv_updated := now |>) |>)
| turn_open owner fresh now : P owner →
    let c := Build_conversation fresh owner true now now in
    (∀ x, x ∈ conversations s → conversation_clash c x = false) →
    turn P s (s <| conversations ::= (λ t, t ++ [c]) |>)
| turn_submit c owner u a now : P owner → owner_of s c owner →
    mg_conversation u = c → mg_owner u = owner → mg_role u = RoleUser → mg_status u = completed →
    mg_revision u = 1 → mg_attempts u = 1 → mg_sequence u = next_sequence s c →
    mg_conversation a = c → mg_owner a = owner → mg_role a = RoleAssistant → mg_status a = pending →
    mg_revision a = 1 → mg_attempts a = 1 → mg_sequence a = next_sequence s c + 1 → mg_turn a = mg_turn u →
    mg_client a = None →
    (∀ x, x ∈ messages s → message_clash u x = false) → (∀ x, x ∈ messages s ++ [u] → message_clash a x = false) →
    turn P s (s <| messages ::= (λ t, t ++ [u; a]) |> <| message_changes ::= announce [u; a] now |>)
| turn_generate c owner a g now : P owner → owner_of s c owner →
    mg_conversation a = c → mg_owner a = owner → mg_role a = RoleAssistant → mg_status a = pending →
    mg_revision a = 1 → mg_attempts a = 1 → mg_sequence a = next_sequence s c → mg_client a = None →
    (∀ x, x ∈ messages s → message_clash a x = false) → (∀ x, x ∈ bindings s → generated_clash g x = false) →
    gm_owner g = owner → gm_message g = mg_id a → gm_conversation g = c → mg_reply a = Some (gm_reply g) → mg_source a = "magi-native" →
    turn P s (s <| messages ::= (λ t, t ++ [a]) |> <| message_changes ::= announce [a] now |> <| bindings ::= (λ t, t ++ [g]) |>)
| turn_revise m m' now : m ∈ messages s → P (mg_owner m) → revises m m' →
    turn P s (s <| messages ::= update (is_message (mg_id m)) (λ _, m') |> <| message_changes ::= announce [m'] now |>).

(** ** Well-formed stores *)

(** The constraints of the message table, and its numbering. *)
Record rows_ok (t : list message) : Prop := {
  ro_ids : NoDup (map mg_id t);
  ro_sequence : ∀ c, numbered mg_sequence (in_conversation c) (-1) t;
  ro_distinct : ∀ m m', m ∈ t → m' ∈ t → m = m' ∨ message_clash m m' = false;
}.

Record chat_ok (s : chat_db) : Prop := {
  ck_rows : rows_ok (messages s);
  ck_changes : ∀ c, numbered mc_sequence (of_conversation c) 0 (message_changes s);
  ck_change : ∀ r, r ∈ message_changes s →
    ∃ m, m ∈ messages s ∧ mg_id m = mc_message r ∧ mg_conversation m = mc_conversation r ∧ mc_revision r ≤ mg_revision m;
  ck_current : ∀ m, m ∈ messages s →
    ∃ r, r ∈ message_changes s ∧ mc_message r = mg_id m ∧ mc_conversation r = mg_conversation m ∧ mc_revision r = mg_revision m;
  ck_owner : ∀ m, m ∈ messages s → owner_of s (mg_conversation m) (mg_owner m);
  ck_conversations : NoDup (map cv_id (conversations s));
  ck_default : ∀ x y, x ∈ conversations s → y ∈ conversations s → cv_owner x = cv_owner y →
    cv_default x = true → cv_default y = true → cv_id x = cv_id y;
  ck_attempts : ∀ m, m ∈ messages s → 1 ≤ mg_attempts m;
  ck_user : ∀ m, m ∈ messages s → mg_role m = RoleUser → mg_status m = completed;
  ck_answers : ∀ u, u ∈ messages s → mg_role u = RoleUser → ∃ a, a ∈ messages s ∧ is_answer (mg_owner u) u a = true;
  ck_binding_keys : NoDup (map (λ g, (gm_owner g, gm_key g)) (bindings s));
  ck_bindings : ∀ g, g ∈ bindings s → ∃ m, m ∈ messages s ∧ is_assistant (gm_owner g) (gm_message g) m = true ∧
    mg_conversation m = gm_conversation g ∧ mg_reply m = Some (gm_reply g) ∧ mg_source m = "magi-native";
}.

Lemma chat_ok_empty : chat_ok empty_chat.
Proof. split; [split|..]; cbn; try set_solver; try apply NoDup_nil_2; done. Qed.

(** The identity of a message decides all that lookups test. *)
Lemma identity_fields m m' : identity m' = identity m →
  mg_id m' = mg_id m ∧ mg_conversation m' = mg_conversation m ∧ mg_owner m' = mg_owner m ∧ mg_turn m' = mg_turn m ∧
  mg_role m' = mg_role m ∧ mg_source m' = mg_source m ∧ mg_client m' = mg_client m ∧ mg_reply m' = mg_reply m ∧
  mg_attachments m' = mg_attachments m ∧ mg_sequence m' = mg_sequence m.
Proof. unfold identity. intros [= -> -> -> -> -> -> -> -> -> -> _]. done. Qed.

Lemma is_message_spec id m : is_message id m = true ↔ mg_id m = id.
Proof. unfold is_message. by rewrite bool_decide_eq_true. Qed.

Lemma owned_weaken (P Q : string → Prop) s c : (∀ o, P o → Q o) → owned_by P s c → owned_by Q s c.
Proof. intros HPQ (x & ? & ? & ?). exists x. auto. Qed.

(** Two owners of a conversation are one. *)
Lemma owner_unique s c o o' : chat_ok s → owner_of s c o → owner_of s c o' → o = o'.
Proof.
  intros Hs (x & Hx & <- & <-) (y & Hy & Hxy & <-). by rewrite (NoDup_key_inj cv_id _ y x (ck_conversations _ Hs) Hy Hx Hxy).
Qed.

(** *** Announcing changes *)

Lemma announce_numbered ms now t c :
  (∀ c, numbered mc_sequence (of_conversation c) 0 t) → numbered mc_sequence (of_conversation c) 0 (announce ms now t).
Proof.
  intros Ht. revert c. unfold announce. revert t Ht. induction ms as [|m ms IH]; intros t Ht c; simpl; [done|].
  apply IH. intros c'. destruct (of_conversation c' (next_change t m now)) eqn:E.
  - apply numbered_next; [done| |done]. unfold of_conversation in E. apply eqb_true in E as <-. cbn.
    rewrite (numbered_max _ _ _ (Ht _)). lia.
  - by apply numbered_skip.
Qed.

Lemma announce_app ms now t : ∃ cs, announce ms now t = t ++ cs ∧
  Forall2 (λ m r, mc_message r = mg_id m ∧ mc_conversation r = mg_conversation m ∧ mc_revision r = mg_revision m) ms cs.
Proof.
  unfold announce. revert t. induction ms as [|m ms IH]; intros t; simpl; [exists []; by rewrite app_nil_r|].
  destruct (IH (t ++ [next_change t m now])) as (cs & -> & Hcs).
  exists (next_change t m now :: cs). rewrite <- app_assoc. split; [done|]. by constructor.
Qed.

Lemma elem_of_announce r ms now t : r ∈ announce ms now t →
  r ∈ t ∨ ∃ m, m ∈ ms ∧ mc_message r = mg_id m ∧ mc_conversation r = mg_conversation m ∧ mc_revision r = mg_revision m.
Proof.
  destruct (announce_app ms now t) as (cs & -> & Hcs). intros [?|Hr]%elem_of_app; [by left|]. right.
  induction Hcs as [|m c ms cs Hc Hcs IH]; [set_solver|]. apply elem_of_cons in Hr as [->|Hr]; [exists m; set_solver|].
  destruct (IH Hr) as (x & ? & ?). exists x. set_solver.
Qed.

Lemma announced ms now t m : m ∈ ms →
  ∃ r, r ∈ announce ms now t ∧ mc_message r = mg_id m ∧ mc_conversation r = mg_conversation m ∧ mc_revision r = mg_revision m.
Proof.
  destruct (announce_app ms now t) as (cs & -> & Hcs). intros Hm.
  induction Hcs as [|x c ms cs Hc Hcs IH]; [set_solver|]. apply elem_of_cons in Hm as [->|Hm].
  - exists c. set_solver.
  - destruct (IH Hm) as (r & Hr & ?). exists r. set_solver.
Qed.

Lemma announce_keeps r ms now t : r ∈ t → r ∈ announce ms now t.
Proof. destruct (announce_app ms now t) as (cs & -> & _). set_solver. Qed.

(** *** Adding messages *)

Lemma message_clash_false a b : message_clash a b = false →
  mg_id a ≠ mg_id b ∧
  (∀ k, mg_owner a = mg_owner b → mg_client a = Some k → mg_client b ≠ Some k) ∧
  (mg_conversation a = mg_conversation b → mg_turn a = mg_turn b → mg_role a ≠ mg_role b) ∧
  (mg_conversation a = mg_conversation b → mg_sequence a ≠ mg_sequence b).
Proof.
  unfold message_clash. intros. bools. split_and!; [done|..].
  - intros k Ho Ha Hb. rewrite Ho, Ha, Hb, !eqb_refl in *. done.
  - intros Hc Ht Hr. rewrite Hc, Ht, Hr, !eqb_refl in *. done.
  - intros Hc Hq. rewrite Hc, Hq, eqb_refl, Z.eqb_refl in *. done.
Qed.

Lemma message_clash_sym a b : message_clash a b = message_clash b a.
Proof.
  assert (∀ {A} `{EqDecision A} (x y : A), (x == y) = (y == x)) as Hs by (intros; by apply bool_decide_ext).
  unfold message_clash.
  rewrite (Hs _ _ (mg_id a)), (Hs _ _ (mg_owner a)), (Hs _ _ (mg_conversation a)), (Hs _ _ (mg_turn a)),
    (Hs _ _ (mg_role a)), (Z.eqb_sym (mg_sequence a)).
  destruct (mg_client a), (mg_client b); try done. by rewrite (Hs _ _ s).
Qed.

Lemma rows_add t m :
  rows_ok t → (∀ x, x ∈ t → message_clash m x = false) →
  mg_sequence m = default (-1) (max_of mg_sequence (in_conversation (mg_conversation m)) t) + 1 → rows_ok (t ++ [m]).
Proof.
  intros [Hi Hq Hd] Hf Hs. split.
  - rewrite map_app. apply NoDup_app. split; [done|]. split; [|apply NoDup_singleton].
    intros i (x & -> & Hx)%list_elem_of_fmap. cbn. intros E%list_elem_of_singleton.
    destruct (message_clash_false _ _ (Hf x Hx)) as [Hne _]. by apply Hne.
  - intros c. destruct (in_conversation c m) eqn:E; [|by apply numbered_skip].
    apply numbered_next; [done| |done]. unfold in_conversation in E. apply eqb_true in E as <-. rewrite Hs.
    rewrite (numbered_max_from _ _ _ _ (Hq _)). lia.
  - intros x y [Hx| ->%list_elem_of_singleton]%elem_of_app [Hy| ->%list_elem_of_singleton]%elem_of_app; auto.
    right. rewrite message_clash_sym. auto.
Qed.

(** What the constraints make unique. *)
Lemma same_client s m m' k : chat_ok s → m ∈ messages s → m' ∈ messages s → mg_owner m = mg_owner m' →
  mg_client m = Some k → mg_client m' = Some k → m = m'.
Proof.
  intros Hs Hm Hm' Ho Hk Hk'. destruct (ro_distinct _ (ck_rows _ Hs) m m' Hm Hm') as [?|Hc]; [done|].
  apply message_clash_false in Hc as (_ & Hc & _). by destruct (Hc k Ho Hk).
Qed.

Lemma same_turn s m m' : chat_ok s → m ∈ messages s → m' ∈ messages s → mg_conversation m = mg_conversation m' →
  mg_turn m = mg_turn m' → mg_role m = mg_role m' → m = m'.
Proof.
  intros Hs Hm Hm' Hc Ht Hr. destruct (ro_distinct _ (ck_rows _ Hs) m m' Hm Hm') as [?|Hx]; [done|].
  apply message_clash_false in Hx as (_ & _ & Hx & _). by destruct (Hx Hc Ht Hr).
Qed.

Lemma same_id s m m' : chat_ok s → m ∈ messages s → m' ∈ messages s → mg_id m = mg_id m' → m = m'.
Proof. intros Hs Hm Hm' E. by eapply (NoDup_key_inj mg_id); [apply (ro_ids _ (ck_rows _ Hs))|..]. Qed.

Lemma lookup_message s m : chat_ok s → m ∈ messages s → fetchone (is_message (mg_id m)) (messages s) = Some m.
Proof.
  intros Hs Hm. apply (fetchone_unique mg_id); [apply (ro_ids _ (ck_rows _ Hs))|done|by apply is_message_spec|].
  intros x ?%is_message_spec. done.
Qed.

(** ** Every step keeps a store well-formed *)

Lemma ok_quiet s s' : conversations s' = conversations s → messages s' = messages s → message_changes s' = message_changes s →
  bindings s' = bindings s → chat_ok s → chat_ok s'.
Proof. intros E1 E2 E3 E4 [????????????]. unfold owner_of, owned_by in *. split; unfold owner_of, owned_by; rewrite ?E1, ?E2, ?E3, ?E4; done. Qed.

Lemma ok_conversations s f :
  chat_ok s → NoDup (map cv_id (f (conversations s))) →
  (∀ x y, x ∈ f (conversations s) → y ∈ f (conversations s) → cv_owner x = cv_owner y →
    cv_default x = true → cv_default y = true → cv_id x = cv_id y) → (∀ c o, owner_of s c o → owner_of (s <| conversations ::= f |>) c o) →
  chat_ok (s <| conversations ::= f |>).
Proof. intros Hs Hn Hd Ho. destruct Hs. split; cbn; auto. Qed.

Lemma touch_owned (P : string → Prop) s id now c : owned_by P s c →
  owned_by P (s <| conversations ::= update (λ x, cv_id x == id) (λ x, x <| cv_updated := now |>) |>) c.
Proof.
  intros (x & Hx & Hc & Ho). exists (if cv_id x == id then x <| cv_updated := now |> else x).
  split_and!; [apply elem_of_update; eauto|by case_match..].
Qed.

Lemma ok_touch s id now : chat_ok s → chat_ok (s <| conversations ::= update (λ x, cv_id x == id) (λ x, x <| cv_updated := now |>) |>).
Proof.
  intros Hs. apply ok_conversations; [done| | |].
  - rewrite map_update by done. apply Hs.
  - intros x y (x0 & Hx & ->)%elem_of_update (y0 & Hy & ->)%elem_of_update Ho Hdx Hdy.
    pose proof (ck_default _ Hs x0 y0 Hx Hy). repeat case_match; auto.
  - intros c o. apply touch_owned.
Qed.

Lemma open_owned (P : string → Prop) s x c : owned_by P s c → owned_by P (s <| conversations ::= (λ t, t ++ [x]) |>) c.
Proof. intros (y & Hy & ?). exists y. split; [|done]. cbn. set_solver. Qed.

Lemma ok_open s c : (∀ x, x ∈ conversations s → conversation_clash c x = false) → chat_ok s → chat_ok (s <| conversations ::= (λ t, t ++ [c]) |>).
Proof.
  intros Hf Hs. apply ok_conversations; [done| | |].
  - rewrite map_app. apply NoDup_app. split; [apply Hs|]. split; [|apply NoDup_singleton].
    intros i (x & -> & Hx)%list_elem_of_fmap. cbn. intros E%list_elem_of_singleton.
    specialize (Hf x Hx). unfold conversation_clash in Hf. rewrite E, eqb_refl in Hf. done.
  - assert (∀ x, x ∈ conversations s → cv_owner c = cv_owner x → cv_default c = true → cv_default x = true → False) as Hc.
    { intros x Hx Ho D1 D2. specialize (Hf x Hx). unfold conversation_clash in Hf. by rewrite Ho, D1, D2, eqb_refl, orb_true_r in Hf. }
    cbv beta. intros x y [Hx| ->%list_elem_of_singleton]%elem_of_app [Hy| ->%list_elem_of_singleton]%elem_of_app Ho Dx Dy; [|exfalso..|done].
    + by apply (ck_default _ Hs).
    + by apply (Hc x).
    + by apply (Hc y).
  - intros id o. apply open_owned.
Qed.

Lemma ok_add s ms gs now :
  chat_ok s → rows_ok (messages s ++ ms) →
  (∀ m, m ∈ ms → owner_of s (mg_conversation m) (mg_owner m) ∧ 1 ≤ mg_attempts m ∧ (mg_role m = RoleUser → mg_status m = completed)) →
  (∀ u, u ∈ ms → mg_role u = RoleUser → ∃ a, a ∈ ms ∧ is_answer (mg_owner u) u a = true) →
  NoDup (map (λ g, (gm_owner g, gm_key g)) (bindings s ++ gs)) →
  (∀ g, g ∈ gs → ∃ m, m ∈ ms ∧ is_assistant (gm_owner g) (gm_message g) m = true ∧
    mg_conversation m = gm_conversation g ∧ mg_reply m = Some (gm_reply g) ∧ mg_source m = "magi-native") →
  chat_ok (s <| messages ::= (λ t, t ++ ms) |> <| message_changes ::= announce ms now |> <| bindings ::= (λ t, t ++ gs) |>).
Proof.
  intros Hs Hr Hm Ha Hn Hg. split; cbn.
  - done.
  - intros c. apply announce_numbered, Hs.
  - intros r [Hin|(m & Hin & Hi & Hc & Hv)]%elem_of_announce.
    + destruct (ck_change _ Hs r Hin) as (m & ? & ? & ? & ?). exists m. set_solver.
    + exists m. split; [set_solver|]. split_and!; [done|done|lia].
  - intros m [Hin|Hin]%elem_of_app.
    + destruct (ck_current _ Hs m Hin) as (r & Hrin & ?). exists r. split; [by apply announce_keeps|done].
    + by apply announced.
  - intros m [Hin|Hin]%elem_of_app; [by apply (ck_owner _ Hs)|by apply Hm].
  - apply Hs.
  - apply (ck_default _ Hs).
  - intros m [Hin|Hin]%elem_of_app; [by apply (ck_attempts _ Hs)|by apply Hm].
  - intros m [Hin|Hin]%elem_of_app; [by apply (ck_user _ Hs)|by apply Hm].
  - intros u [Hin|Hin]%elem_of_app Hu.
    + destruct (ck_answers _ Hs u Hin Hu) as (a & ? & ?). exists a. set_solver.
    + destruct (Ha u Hin Hu) as (a & ? & ?). exists a. set_solver.
  - done.
  - intros g [Hin|Hin]%elem_of_app.
    + destruct (ck_bindings _ Hs g Hin) as (m & ? & ?). exists m. set_solver.
    + destruct (Hg g Hin) as (m & ? & ?). exists m. set_solver.
Qed.

Lemma clash_identity a b a' b' : identity a' = identity a → identity b' = identity b → message_clash a' b' = message_clash a b.
Proof.
  intros Ha%identity_fields Hb%identity_fields. destruct Ha as (E1 & E2 & E3 & E4 & E5 & _ & E7 & _ & _ & E10).
  destruct Hb as (F1 & F2 & F3 & F4 & F5 & _ & F7 & _ & _ & F10). unfold message_clash.
  by rewrite E1, E2, E3, E4, E5, E7, E10, F1, F2, F3, F4, F5, F7, F10.
Qed.

(** The row a revision leaves for [x]. *)
Definition revised (m m' x : message) : message := if is_message (mg_id m) x then m' else x.

Lemma revised_identity s m m' x : chat_ok s → m ∈ messages s → x ∈ messages s → revises m m' → identity (revised m m' x) = identity x.
Proof.
  intros Hs Hm Hx Hr. unfold revised. destruct (is_message (mg_id m) x) eqn:E; [|done]. apply is_message_spec in E.
  rewrite (same_id s x m Hs Hx Hm E). apply Hr.
Qed.

Lemma rows_revise s m m' : chat_ok s → m ∈ messages s → revises m m' → rows_ok (update (is_message (mg_id m)) (λ _, m') (messages s)).
Proof.
  intros Hs Hm Hr. assert (∀ x, x ∈ messages s → is_message (mg_id m) x = true → identity m' = identity x) as Hid.
  { intros x Hx E. apply is_message_spec in E. rewrite (same_id s x m Hs Hx Hm E). apply Hr. }
  destruct (ck_rows _ Hs) as [Hi Hq Hd]. split.
  - rewrite map_update_in; [done|]. intros x Hx Ex. by apply identity_fields, Hid.
  - intros c. apply numbered_update; [..|apply Hq].
    + intros x Hx Ex. unfold in_conversation. destruct (identity_fields _ _ (Hid x Hx Ex)) as (_ & -> & _). done.
    + intros x Hx Ex. by apply identity_fields, Hid.
  - intros x y (x0 & Hx & ->)%elem_of_update (y0 & Hy & ->)%elem_of_update. fold (revised m m' x0) (revised m m' y0).
    destruct (Hd x0 y0 Hx Hy) as [->|Hc]; [by left|]. right. rewrite (clash_identity x0 y0); [done|by eapply revised_identity..].
Qed.

Lemma elem_of_revised s m m' x : chat_ok s → m ∈ messages s →
  x ∈ update (is_message (mg_id m)) (λ _, m') (messages s) ↔ x = m' ∨ (x ∈ messages s ∧ mg_id x ≠ mg_id m).
Proof.
  intros Hs Hm. rewrite elem_of_update. split.
  - intros (y & Hy & ->). destruct (is_message (mg_id m) y) eqn:E; [by left|]. right. split; [done|].
    intros Ex. apply is_message_spec in Ex. congruence.
  - intros [->|[Hx Hne]].
    + exists m. split; [done|]. by rewrite (proj2 (is_message_spec _ _) eq_refl).
    + exists x. split; [done|]. destruct (is_message (mg_id m) x) eqn:E; [|done]. by apply is_message_spec in E.
Qed.

Lemma ok_revise s m m' now : chat_ok s → m ∈ messages s → revises m m' →
  chat_ok (s <| messages ::= update (is_message (mg_id m)) (λ _, m') |> <| message_changes ::= announce [m'] now |>).
Proof.
  intros Hs Hm Hr. pose proof (rows_revise s m m' Hs Hm Hr) as Hrows.
  pose proof (identity_fields _ _ (rv_identity _ _ Hr)) as (Ei & Ec & Eo & Et & Er & Eso & Ecl & Erp & _).
  assert (∀ (P : message → Prop), P m' → (∀ x, x ∈ messages s → P x) →
    ∀ x, x ∈ update (is_message (mg_id m)) (λ _, m') (messages s) → P x) as Hall.
  { intros P P1 P2 x [->|[? _]]%(elem_of_revised s m m' x Hs Hm); auto. }
  assert (∀ x, x ∈ messages s → revised m m' x ∈ update (is_message (mg_id m)) (λ _, m') (messages s)) as Hin.
  { intros x Hx. apply elem_of_update. by exists x. }
  split; cbn; try apply Hs; try done.
  - intros c. apply announce_numbered, Hs.
  - intros r [Hrin|(x & ->%list_elem_of_singleton & Hi & Hc & Hv)]%elem_of_announce.
    + destruct (ck_change _ Hs r Hrin) as (x & Hx & Hi & Hc & Hle). exists (revised m m' x). split; [auto|].
      pose proof (identity_fields _ _ (revised_identity s m m' x Hs Hm Hx Hr)) as (-> & -> & _).
      split_and!; [done|done|]. unfold revised. destruct (is_message (mg_id m) x) eqn:E; [|done]. apply is_message_spec in E.
      rewrite (rv_revision _ _ Hr). rewrite (same_id s x m Hs Hx Hm E) in Hle. lia.
    + exists m'. split; [apply elem_of_revised; [done|done|by left]|]. split_and!; [done|done|lia].
  - intros x [->|[Hx _]]%(elem_of_revised s m m' x Hs Hm).
    + apply (announced [m']). by left.
    + destruct (ck_current _ Hs x Hx) as (r & ? & ?). exists r. split; [by apply announce_keeps|done].
  - apply (Hall (λ x, owner_of _ _ _)); [|apply (ck_owner _ Hs)]. rewrite Ec, Eo. by apply (ck_owner _ Hs).
  - apply (Hall (λ x, 1 ≤ mg_attempts x)); [|apply (ck_attempts _ Hs)].
    pose proof (ck_attempts _ Hs m Hm). destruct (rv_status _ _ Hr) as [(_ & _ & ->)|(_ & _ & ->)]; lia.
  - apply (Hall (λ x, mg_role x = RoleUser → mg_status x = completed)); [|apply (ck_user _ Hs)].
    rewrite Er, (rv_role _ _ Hr). done.
  - apply (Hall (λ u, mg_role u = RoleUser → ∃ a, a ∈ _ ∧ is_answer (mg_owner u) u a = true)).
    { rewrite Er, (rv_role _ _ Hr). done. }
    intros u Hu Hru. destruct (ck_answers _ Hs u Hu Hru) as (a & Ha & Hans). exists (revised m m' a). split; [auto|].
    pose proof (identity_fields _ _ (revised_identity s m m' a Hs Hm Ha Hr)) as (F1 & F2 & F3 & F4 & F5 & _).
    unfold is_answer in *. by rewrite F2, F3, F4, F5.
  - intros g Hg. destruct (ck_bindings _ Hs g Hg) as (x & Hx & Ha & ?). exists (revised m m' x). split; [auto|].
    pose proof (identity_fields _ _ (revised_identity s m m' x Hs Hm Hx Hr)) as (F1 & F2 & F3 & F4 & F5 & F6 & _ & F8 & _).
    unfold is_assistant in *. by rewrite F1, F2, F3, F5, F6, F8.
Qed.

Lemma chat_ok_no_bindings s ms now :
  chat_ok (s <| messages ::= (λ t, t ++ ms) |> <| message_changes ::= announce ms now |> <| bindings ::= (λ t, t ++ []) |>) →
  chat_ok (s <| messages ::= (λ t, t ++ ms) |> <| message_changes ::= announce ms now |>).
Proof. apply ok_quiet; cbn; rewrite ?app_nil_r; done. Qed.

Lemma ok_turn P s s' : turn P s s' → chat_ok s → chat_ok s'.
Proof.
  intros Ht Hs. destruct Ht as [s' E1 E2 E3 E4|c now Hc|owner fresh now Ho c Hf|
    c owner u a now Ho Hc Uc Uo Ur Us Uv Ut Uq Ac Ao Ar As Av At Aq Atn Acl Hfu Hfa|
    c owner a g now Ho Hc Ac Ao Ar As Av At Aq Acl Hfa Hfg Go Gm Gc Gr Gs|m m' now Hm Ho Hr].
  - by eapply ok_quiet.
  - by apply ok_touch.
  - by apply ok_open.
  - apply chat_ok_no_bindings, ok_add; [done|..].
    + replace (messages s ++ [u; a]) with ((messages s ++ [u]) ++ [a]) by by rewrite <- app_assoc.
      pose proof (rows_add _ u (ck_rows _ Hs) Hfu) as Hu.
      assert (rows_ok (messages s ++ [u])) as Hr by (apply Hu; rewrite Uc; exact Uq).
      apply rows_add; [done|done|]. rewrite (numbered_max_from _ _ _ _ (ro_sequence _ Hr _)), count_snoc.
      unfold in_conversation at 2. rewrite Ac, <- Uc, eqb_refl, Aq. unfold next_sequence.
      rewrite (numbered_max_from _ _ _ _ (ro_sequence _ (ck_rows _ Hs) _)), Uc. lia.
    + intros m [->| ->%list_elem_of_singleton]%elem_of_cons; rewrite ?Uc, ?Uo, ?Ac, ?Ao, ?Ut, ?At; (split; [done|split; [lia|congruence]]).
    + intros m [->| ->%list_elem_of_singleton]%elem_of_cons Hu; [|congruence]. exists a. split; [set_solver|].
      unfold is_answer. by rewrite Ao, Uo, Ac, Uc, Atn, Ar, !eqb_refl.
    + rewrite app_nil_r. apply Hs.
    + set_solver.
  - apply ok_add; [done|..].
    + apply rows_add; [apply Hs|done|]. rewrite Ac. exact Aq.
    + intros m ->%list_elem_of_singleton. rewrite Ac, Ao, At. split; [done|split; [lia|congruence]].
    + intros m ->%list_elem_of_singleton. congruence.
    + rewrite map_app. apply NoDup_app. split; [apply Hs|]. split; [|apply NoDup_singleton].
      intros k (x & -> & Hx)%list_elem_of_fmap. cbn. intros E%list_elem_of_singleton. injection E as E1 E2.
      specialize (Hfg x Hx). unfold generated_clash in Hfg. rewrite E1, E2, !eqb_refl in Hfg. done.
    + intros x ->%list_elem_of_singleton. exists a. split; [set_solver|]. unfold is_assistant.
      by rewrite Go, Gm, Ao, Ar, !eqb_refl, Ac, Gc, Gr, Gs.
  - by apply ok_revise.
Qed.

Lemma ok_turns P s s' : rtc (turn P) s s' → chat_ok s → chat_ok s'.
Proof. induction 1; [done|]. intros. eauto using ok_turn. Qed.
End Contract.
