(* ===== verification/ChatSteps.v ===== *)
(** * The chat operations implement their contract

    Every transaction of [Chat] is a sequence of [turn]s for its owner, from
    any well-formed store. *)

From stdpp Require Import base option list strings numbers sets relations.
From Stdlib Require Import ZArith Lia.
From S2P Require Import Prelude Sql Feed Json Text Chat ChatInvariant.

Open Scope string_scope.
Open Scope list_scope.
Open Scope Z_scope.

Section Steps.
Context `{Codec}.
Abbreviation turns P := (rtc (turn P)).

Lemma one_turn P s s' : turn P s s' → turns P s s'.
Proof. apply rtc_once. Qed.

(** ** Statements *)

Lemma insert_row_ok {R} (get : chat_db → list R) set clash r s (u : unit) s' :
  insert_row get set clash r s = Ok (u, s') → s' = set (get s ++ [r]) s ∧ ∀ x, x ∈ get s → clash r x = false.
Proof. unfold insert_row. case_match eqn:E; [|done]. intros [= _ <-]. by apply insert_some in E as [-> ?]. Qed.

Lemma append_change_ok c id revision now s n s' :
  _append_change c id revision now s = Ok (n, s') →
  s' = s <| message_changes ::= (λ t, t ++ [Build_message_change c (latest_message_change s c + 1) id revision now]) |>.
Proof.
  unfold _append_change. intros Ha. apply bind_ok in Ha as (l & s1 & [<- <-]%read_ok & Ha).
  apply bind_ok in Ha as (u & s2 & [-> _]%insert_row_ok & [_ <-]%ret_ok). done.
Qed.

(** Appending the change of a row is announcing it. *)
Lemma append_announces m now s n s' :
  _append_change (mg_conversation m) (mg_id m) (mg_revision m) now s = Ok (n, s') → s' = s <| message_changes ::= announce [m] now |>.
Proof. intros ->%append_change_ok. done. Qed.

Lemma increment_tables owner l now s (u : unit) s' : _increment_diagnostics owner l now s = Ok (u, s') →
  conversations s' = conversations s ∧ messages s' = messages s ∧ message_changes s' = message_changes s ∧ bindings s' = bindings s.
Proof. unfold _increment_diagnostics, ensure_diagnostics. intros Hi. by tx_inv. Qed.

Lemma increment_turn P owner l now s (u : unit) s' : _increment_diagnostics owner l now s = Ok (u, s') → turn P s s'.
Proof. intros (? & ? & ? & ?)%increment_tables. by apply turn_quiet. Qed.

Lemma metrics_turn P owner latency n tools now s (u : unit) s' : _record_completion_metrics owner latency n tools now s = Ok (u, s') → turn P s s'.
Proof. unfold _record_completion_metrics, ensure_diagnostics. intros Hi. tx_inv. by apply turn_quiet. Qed.

Lemma conversation_row_ok owner id s c s' : _conversation_row owner id s = Ok (c, s') →
  s' = s ∧ c ∈ conversations s ∧ cv_id c = id ∧ cv_owner c = owner.
Proof.
  unfold _conversation_row. intros Hc. apply bind_ok in Hc as (r & s1 & [<- <-]%read_ok & Hc).
  apply lift_ok in Hc as [[Hin Hc]%of_option_ok%fetchone_some <-]. unfold is_conversation in Hc. bools. done.
Qed.

Lemma conversation_turns P owner id fresh now s c s' :
  P owner → conversation_or_default owner id fresh now s = Ok (c, s') → turns P s s' ∧ owner_of s' (cv_id c) owner.
Proof.
  unfold conversation_or_default. intros HP Hc. destruct (id ≫= nonempty) as [i|].
  - apply conversation_row_ok in Hc as (-> & Hin & <- & <-). split; [done|]. by exists c.
  - unfold _default_conversation in Hc. apply bind_ok in Hc as (row & s1 & [<- <-]%read_ok & Hc).
    destruct (fetchone _ _) as [x|] eqn:Ex.
    + apply ret_ok in Hc as [<- <-]. apply fetchone_some in Ex as [Hin Hd]. unfold is_default in Hd. bools.
      split; [done|]. by exists x.
    + destruct (insert_conversation _ s) as [[u s1]|] eqn:Ei.
      * apply lift_ok in Hc as [Hf%of_option_ok <-]. apply insert_row_ok in Ei as [-> Hfresh].
        split; [by apply one_turn, turn_open|]. cbn in Hf. apply fetchone_some in Hf as [Hin Hid]. apply eqb_true in Hid.
        apply elem_of_app in Hin as [Hin| ->%list_elem_of_singleton].
        -- specialize (Hfresh c Hin). unfold conversation_clash in Hfresh. cbn in Hfresh. by rewrite Hid, eqb_refl in Hfresh.
        -- eexists. split; [|done]. cbn. set_solver.
      * rewrite Ex in Hc. done.
Qed.

(** Reading the rows of a submission. *)
Lemma submission_rows_ok owner client s p s' : _submission_rows owner client s = Ok (p, s') →
  s' = s ∧ match p with
           | Some (u, a) => fetchone (is_submission owner client) (messages s) = Some u ∧ fetchone (is_answer owner u) (messages s) = Some a
           | None => fetchone (is_submission owner client) (messages s) = None
           end.
Proof.
  unfold _submission_rows. intros Hr. apply bind_ok in Hr as (u & s1 & [<- <-]%read_ok & Hr).
  destruct (fetchone (is_submission _ _) _) as [u|]; [|by apply ret_ok in Hr as [<- <-]].
  apply bind_ok in Hr as (a & s2 & [<- <-]%read_ok & Hr). apply bind_ok in Hr as (a & s2 & [Ha%of_option_ok <-]%lift_ok & Hr).
  by apply ret_ok in Hr as [<- <-].
Qed.

Lemma generated_row_ok owner key s p s' : _generated_row owner key s = Ok (p, s') →
  s' = s ∧ match p with
           | Some (g, a) => fetchone (is_binding owner key) (bindings s) = Some g ∧ fetchone (is_assistant owner (gm_message g)) (messages s) = Some a
           | None => fetchone (is_binding owner key) (bindings s) = None
           end.
Proof.
  unfold _generated_row. intros Hr. apply bind_ok in Hr as (u & s1 & [<- <-]%read_ok & Hr).
  destruct (fetchone (is_binding _ _) _) as [u|]; [|by apply ret_ok in Hr as [<- <-]].
  apply bind_ok in Hr as (a & s2 & [<- <-]%read_ok & Hr). apply bind_ok in Hr as (a & s2 & [Ha%of_option_ok <-]%lift_ok & Hr).
  by apply ret_ok in Hr as [<- <-].
Qed.

Lemma fetch_answer owner u s a : fetchone (is_answer owner u) (messages s) = Some a →
  a ∈ messages s ∧ mg_owner a = owner ∧ mg_conversation a = mg_conversation u ∧ mg_turn a = mg_turn u ∧ mg_role a = RoleAssistant.
Proof. intros [Hin Ha]%fetchone_some. unfold is_answer in Ha. bools. done. Qed.

Lemma fetch_assistant owner id s a : fetchone (is_assistant owner id) (messages s) = Some a →
  a ∈ messages s ∧ mg_id a = id ∧ mg_owner a = owner ∧ mg_role a = RoleAssistant.
Proof. intros [Hin Ha]%fetchone_some. unfold is_assistant in Ha. bools. done. Qed.

(** ** New turns *)

Lemma new_submission_turns (P : string → Prop) now ids owner client content c source attachments s p s' :
  P owner → owner_of s (cv_id c) owner →
  new_submission now ids owner client content c source attachments s = Ok (p, s') → turns P s s'.
Proof.
  unfold new_submission. intros HP Ho Hn. apply bind_ok in Hn as (q & s1 & [<- <-]%read_ok & Hn).
  apply bind_ok in Hn as (? & s2 & [-> Hu]%insert_row_ok & Hn). apply bind_ok in Hn as (? & s3 & [-> Ha]%insert_row_ok & Hn).
  apply bind_ok in Hn as (? & s4 & ->%modify_ok & Hn).
  set (u := user_message _ _ _ _ _ _ _ _ _) in *. set (a := assistant_message _ _ _ _ _ _) in *.
  apply bind_ok in Hn as (? & s5 & Hc1%(append_announces u) & Hn). apply bind_ok in Hn as (? & s6 & Hc2%(append_announces a) & Hn).
  apply bind_ok in Hn as (? & s7 & Hd%(increment_turn P) & [_ <-]%ret_ok). subst s5 s6.
  eapply rtc_l; [apply (turn_submit P s (cv_id c) owner u a now); try done|].
  eapply rtc_l; [apply (turn_touch P _ (cv_id c) now)|].
  { destruct Ho as (y & ? & ? & Hy). exists y. by rewrite Hy. }
  apply one_turn. refine (eq_ind _ (λ s, turn P s s7) Hd _ _). cbn. unfold announce. cbn. by rewrite <- app_assoc.
Qed.

Lemma new_generated_turns (P : string → Prop) now ids owner key facts c reply s p s' :
  P owner → owner_of s c owner → new_generated now ids owner key facts c reply s = Ok (p, s') → turns P s s'.
Proof.
  unfold new_generated. intros HP Ho Hn. apply bind_ok in Hn as (q & s1 & [<- <-]%read_ok & Hn).
  apply bind_ok in Hn as (? & s2 & [-> Ha]%insert_row_ok & Hn). apply bind_ok in Hn as (? & s3 & [-> Hg]%insert_row_ok & Hn).
  apply bind_ok in Hn as (? & s4 & ->%modify_ok & Hn). set (a := assistant_message _ _ _ _ _ _) in *.
  apply bind_ok in Hn as (? & s6 & Hc2%(append_announces a) & Hn).
  apply bind_ok in Hn as (? & s7 & Hd%(increment_turn P) & [_ <-]%ret_ok). subst s6.
  eapply rtc_l; [eapply (turn_generate P s c owner a _ now); try exact Ha; try exact Hg; try done|].
  eapply rtc_l; [apply (turn_touch P _ c now)|].
  { destruct Ho as (y & ? & ? & Hy). exists y. by rewrite Hy. }
  by apply one_turn.
Qed.

(** The rows and the result of a new turn. *)
Lemma new_submission_rows now ids owner client content c source attachments s p s' :
  new_submission now ids owner client content c source attachments s = Ok (p, s') →
  let u := user_message ids (cv_id c) owner content source client attachments (next_sequence s (cv_id c)) now in
  let a := assistant_message ids (cv_id c) owner (new_user ids) (next_sequence s (cv_id c) + 1) now in
  messages s' = messages s ++ [u; a] ∧ (∀ x, x ∈ messages s ++ [u] → message_clash a x = false) ∧
  p = {| pp_conversation := cv_id c; pp_user := Some (mg_id u); pp_assistant := mg_id a; pp_turn := mg_turn u;
         pp_attempt := 1; pp_claimed := true; pp_duplicate := false; pp_status := pending |}.
Proof.
  intros Hn u a. unfold new_submission in Hn. apply bind_ok in Hn as (q & s1 & [<- <-]%read_ok & Hn).
  apply bind_ok in Hn as (? & s2 & [-> Hu]%insert_row_ok & Hn). apply bind_ok in Hn as (? & s3 & [-> Ha]%insert_row_ok & Hn).
  apply bind_ok in Hn as (? & s4 & ->%modify_ok & Hn).
  apply bind_ok in Hn as (? & s5 & ->%append_change_ok & Hn). apply bind_ok in Hn as (? & s6 & ->%append_change_ok & Hn).
  apply bind_ok in Hn as (? & s7 & (_ & E & _)%increment_tables & [<- <-]%ret_ok).
  split_and!; [|done|done]. rewrite E. cbn. by rewrite <- app_assoc.
Qed.

Lemma new_generated_rows now ids owner key facts c reply s p s' :
  new_generated now ids owner key facts c reply s = Ok (p, s') →
  let a := assistant_message ids c owner reply (next_sequence s c) now in
  messages s' = messages s ++ [a] ∧ (∀ x, x ∈ messages s → message_clash a x = false) ∧
  pp_assistant p = mg_id a ∧ pp_attempt p = 1.
Proof.
  intros Hn a. unfold new_generated in Hn. apply bind_ok in Hn as (q & s1 & [<- <-]%read_ok & Hn).
  apply bind_ok in Hn as (? & s2 & [-> Ha]%insert_row_ok & Hn). apply bind_ok in Hn as (? & s3 & [-> Hg]%insert_row_ok & Hn).
  apply bind_ok in Hn as (? & s4 & ->%modify_ok & Hn). apply bind_ok in Hn as (? & s6 & ->%append_change_ok & Hn).
  apply bind_ok in Hn as (? & s7 & (_ & E & _)%increment_tables & [<- <-]%ret_ok). by rewrite E.
Qed.

(** ** Revisions *)

(** Writing a row by its unique identity. *)
Lemma update_row s m p f : chat_ok s → m ∈ messages s → p m = true → (∀ x, p x = true → mg_id x = mg_id m) →
  update p f (messages s) = update (is_message (mg_id m)) (λ _, f m) (messages s).
Proof.
  intros Hs Hm Hp Hk. apply (update_unique mg_id); [apply (ro_ids _ (ck_rows _ Hs))|done|done| |done|].
  - by apply is_message_spec.
  - intros x. by rewrite is_message_spec.
Qed.

Lemma owned_row (P : string → Prop) s m : chat_ok s → m ∈ messages s → P (mg_owner m) → owned_by P s (mg_conversation m).
Proof. intros Hs Hm HP. destruct (ck_owner _ Hs m Hm) as (x & ? & ? & Ho). exists x. by rewrite Ho. Qed.

Lemma claimed_row_ok owner id attempt s r s' : claimed_row owner id attempt s = Ok (r, s') →
  s' = s ∧ ∃ m, fetchone (is_assistant owner id) (messages s) = Some m ∧
    r = if (mg_status m != pending) || negb (mg_attempts m =? attempt) then None else Some m.
Proof.
  unfold claimed_row. intros Hc. apply bind_ok in Hc as (row & s1 & [<- <-]%read_ok & Hc).
  apply bind_ok in Hc as (m & s1 & [Hm%of_option_ok <-]%lift_ok & [<- <-]%ret_ok). eauto.
Qed.

(** The row after an outcome. *)
Definition settled_row (m : message) (content : string) (status : message_status) (error : option string) (now : Z) : message :=
  m <| mg_content := content |> <| mg_status := status |> <| mg_error := error |> <| mg_revision := mg_revision m + 1 |> <| mg_updated := now |>.

Lemma settled_revises m content status error now :
  mg_role m = RoleAssistant → mg_status m = pending → status ≠ pending → revises m (settled_row m content status error now).
Proof. intros Hr Hp Hs. split; [done|done|done|]. left. done. Qed.

Lemma settle_row_turns (P : string → Prop) m content status error now s (u : unit) s' :
  chat_ok s → m ∈ messages s → P (mg_owner m) → mg_role m = RoleAssistant → mg_status m = pending → status ≠ pending →
  settle_row (mg_id m) m content status error now s = Ok (u, s') →
  turns P s s' ∧ messages s' = update (is_message (mg_id m)) (λ _, settled_row m content status error now) (messages s).
Proof.
  intros Hs Hm HP Hr Hp Hst Hx. unfold settle_row, set_message in Hx.
  apply bind_ok in Hx as (? & s1 & ->%modify_ok & Hx). apply bind_ok in Hx as (? & s2 & ->%modify_ok & Hx).
  set (m' := settled_row m content status error now).
  apply bind_ok in Hx as (? & s3 & Ha%(append_announces m') & [_ <-]%ret_ok). subst s3.
  assert (update (is_message (mg_id m)) (λ x, x <| mg_content := content |> <| mg_status := status |> <| mg_error := error |>
    <| mg_revision := mg_revision m + 1 |> <| mg_updated := now |>) (messages s) = update (is_message (mg_id m)) (λ _, m') (messages s)) as E.
  { apply (update_row s m); [done|done|by apply is_message_spec|]. intros y ?%is_message_spec. done. }
  split; [|exact E]. eapply rtc_l; [apply (turn_revise P s m m' now); [done|done|by apply settled_revises]|].
  eapply rtc_l; [apply (turn_touch P _ (mg_conversation m) now); by apply (owned_row P s)|].
  by apply one_turn, turn_quiet.
Qed.

Lemma reopen_turns (P : string → Prop) owner a c now s r s' :
  chat_ok s → a ∈ messages s → P (mg_owner a) → mg_role a = RoleAssistant → c = mg_conversation a →
  reopen_failed owner a c now s = Ok (r, s') →
  turns P s s' ∧ match r with
                 | None => messages s' = messages s
                 | Some m => mg_id m = mg_id a ∧ mg_status m = pending ∧ mg_attempts m = mg_attempts a + 1 ∧ m ∈ messages s' ∧
                     identity m = identity a ∧ mg_status a = failed
                 end.
Proof.
  intros Hs Ha HP Hra -> Hr. unfold reopen_failed in Hr. set (target := is_reopenable owner (mg_id a)) in Hr.
  assert (∀ x, x ∈ messages s → target x = true → x = a ∧ mg_status a = failed) as Htarget.
  { intros x Hx Ht. unfold target, is_reopenable in Ht. bools. apply is_message_spec in H0. by rewrite (same_id s x a Hs Hx Ha H0) in *. }
  apply bind_ok in Hr as (changed & s1 & [<- <-]%read_ok & Hr). apply bind_ok in Hr as (? & s2 & ->%modify_ok & Hr).
  destruct (exists_row target (messages s)) eqn:Ex.
  - apply exists_row_spec in Ex as (b & Hb & Ht). destruct (Htarget b Hb Ht) as [-> Hf]. cbv beta iota in Hr.
    assert (∀ x, target x = true → mg_id x = mg_id a) as Hid.
    { intros y Hy. unfold target, is_reopenable in Hy. bools. by apply is_message_spec. }
    pose proof (update_row s a target (λ m, m <| mg_status := pending |> <| mg_content := "" |> <| mg_error := None |>
      <| mg_attempts ::= Z.add 1 |> <| mg_revision ::= Z.add 1 |> <| mg_updated := now |>) Hs Ha Ht Hid) as E.
    set (m := _ : message) in E at 2.
    assert (revises a m) as Hrev.
    { split; [done|done|unfold m; cbn; lia|]. right. split_and!; [done|done|unfold m; cbn; lia]. }
    apply bind_ok in Hr as (m0 & s3 & Hm & Hr). unfold get_message in Hm. apply bind_ok in Hm as (row & s4 & [<- <-]%read_ok & Hm).
    apply lift_ok in Hm as [Hm%of_option_ok <-]. apply fetchone_some in Hm as [Hm0 Hi]. apply is_message_spec in Hi.
    cbn in Hm0. rewrite E in Hm0. apply (elem_of_revised s a m m0 Hs Ha) in Hm0 as [->|[_ Hne]]; [|done].
    apply bind_ok in Hr as (? & s5 & Hc%(append_announces m) & Hr).
    apply bind_ok in Hr as (? & s6 & Hd & [<- <-]%ret_ok). subst s5. pose proof (increment_turn P _ _ _ _ _ _ Hd) as Hq.
    apply increment_tables in Hd as (E1 & E2 & E3 & E4). split.
    + eapply rtc_l; [apply (turn_revise P s a m now); done|].
      apply one_turn, turn_quiet; [by rewrite E1|by rewrite E2|by rewrite E3|by rewrite E4].
    + split_and!; [done|done|unfold m; cbn; lia| |done|done]. rewrite E2. cbn. rewrite E. apply elem_of_revised; auto.
  - apply ret_ok in Hr as [<- <-]. assert (∀ f, update target f (messages s) = messages s) as E.
    { intros f. apply update_id. intros y Hy Ht. rewrite exists_row_false in Ex. by rewrite (Ex y Hy) in Ht. }
    split; [|apply E]. apply one_turn, turn_quiet; try done. apply E.
Qed.

Lemma close_route_turn P owner id outcome now s (u : unit) s' : close_route owner id outcome now s = Ok (u, s') → turn P s s'.
Proof. intros ->%modify_ok. by apply turn_quiet. Qed.

Lemma recover_row_turns (P : string → Prop) m now s (u : unit) s' :
  chat_ok s → m ∈ messages s → is_orphan m = true → P (mg_owner m) → recover_row now m s = Ok (u, s') →
  turns P s s' ∧ messages s' = update (is_message (mg_id m)) (λ _, settled_row m "" failed (Some "server_restart") now) (messages s).
Proof.
  intros Hs Hm Ho HP Hx. unfold is_orphan in Ho. apply andb_true_iff in Ho as [Hr%eqb_true Hp%eqb_true]. unfold recover_row in Hx.
  apply bind_ok in Hx as (? & s1 & ->%modify_ok & Hx). apply bind_ok in Hx as (? & s2 & ->%modify_ok & Hx).
  set (m' := settled_row m "" failed (Some "server_restart") now).
  apply bind_ok in Hx as (? & s3 & Ha%(append_announces m') & Hc). subst s3.
  assert (update (λ m0, is_message (mg_id m) m0 && (mg_status m0 == pending)) (λ m0, settled_row m0 "" failed (Some "server_restart") now
    <| mg_revision := mg_revision m + 1 |>) (messages s) = update (is_message (mg_id m)) (λ _, m') (messages s)) as E.
  { apply (update_row s m); [done|done| |].
    - by rewrite (proj2 (is_message_spec _ _) eq_refl), Hp.
    - intros y [Hy _]%andb_true_iff. by apply is_message_spec. }
  split.
  - eapply rtc_l; [apply (turn_revise P s m m' now); [done|done|by apply settled_revises]|].
    eapply rtc_l; [apply (turn_touch P _ (mg_conversation m) now); by apply (owned_row P s)|].
    apply one_turn. pose proof Hc as ->%modify_ok. by apply turn_quiet.
  - pose proof Hc as ->%modify_ok. exact E.
Qed.

(** ** Operations *)

Lemma for_each_turns {A} (P : string → Prop) (f : A → chat unit) (I : list A → chat_db → Prop) :
  (∀ a l s u s', I (a :: l) s → chat_ok s → f a s = Ok (u, s') → turns P s s' ∧ I l s') →
  ∀ l s u s', I l s → chat_ok s → for_each f l s = Ok (u, s') → turns P s s'.
Proof.
  intros Hf l. induction l as [|a l IH]; intros s u s' HI Hs Hl; [by apply ret_ok in Hl as [_ <-]|].
  apply bind_ok in Hl as (v & s1 & H1 & Hl). destruct (Hf _ _ _ _ _ HI Hs H1) as [Ht HI'].
  etransitivity; [exact Ht|]. eapply IH; [exact HI'| |exact Hl]. by eapply ok_turns.
Qed.


Lemma recover_turns now s n s' : chat_ok s → recover_orphaned_pending now s = Ok (n, s') → turns (λ _, True) s s'.
Proof.
  intros Hs Hr. unfold recover_orphaned_pending in Hr. apply bind_ok in Hr as (rows & s1 & [<- <-]%read_ok & Hr).
  apply bind_ok in Hr as (? & s2 & H1 & Hr). apply bind_ok in Hr as (? & s3 & H2 & [_ <-]%ret_ok).
  assert (turns (λ _, True) s s2) as Ht.
  { eapply (for_each_turns _ _ (λ l s, NoDup (map mg_id l) ∧ ∀ m, m ∈ l → m ∈ messages s ∧ is_orphan m = true)); [| |done|exact H1].
    - intros m l t u t' [[Hnin Hn]%NoDup_cons Hl] Ht Hm. destruct (Hl m) as [Hin Ho]; [by left|].
      destruct (recover_row_turns (λ _, True) m now t u t' Ht Hin Ho I Hm) as [Hturn Hmsg]. split; [done|]. split; [done|].
      intros y Hy. destruct (Hl y) as [Hyin Hyo]; [by right|]. split; [|done]. rewrite Hmsg. apply elem_of_revised; [done|done|].
      right. split; [done|]. intros E. apply Hnin. rewrite <- E. by apply list_elem_of_fmap_2.
    - split; [apply NoDup_map_select, Hs|]. by intros m [? ?]%elem_of_select. }
  etransitivity; [exact Ht|].
  eapply (for_each_turns _ _ (λ _ _, True)); [|done| |exact H2]; [|by eapply ok_turns].
  intros [o k] l t u t' _ _ Hi. split; [|done]. by apply one_turn, (increment_turn _ _ _ _ _ _ _ Hi).
Qed.

Lemma cancel_turns (P : string → Prop) now owner client s (u : unit) s' :
  chat_ok s → P owner → cancel_submission now owner client s = Ok (u, s') → turns P s s'.
Proof.
  intros Hs HP Hc. unfold cancel_submission in Hc. apply bind_ok in Hc as (p & s1 & [-> Hp]%submission_rows_ok & Hc).
  apply bind_ok in Hc as ([m a] & s1 & [->%of_option_ok <-]%lift_ok & Hc). destruct Hp as [Hu (Ha & Ho & Hcv & _ & Hr)%fetch_answer].
  case_bool_decide as Hp; [|by apply ret_ok in Hc as [_ <-]].
  apply bind_ok in Hc as (? & s1 & ->%modify_ok & Hc). rewrite <- Hcv in Hc.
  set (a' := settled_row a "" cancelled None now).
  apply bind_ok in Hc as (? & s3 & Hx%(append_announces a') & Hc). apply bind_ok in Hc as (? & s4 & ->%modify_ok & Hc). subst s3.
  assert (update (is_message (mg_id a)) (λ x, settled_row x "" cancelled None now <| mg_revision := mg_revision a + 1 |>) (messages s) =
    update (is_message (mg_id a)) (λ _, a') (messages s)) as E.
  { apply (update_row s a); [done|done|by apply is_message_spec|]. intros y ?%is_message_spec. done. }
  eapply rtc_l; [apply (turn_revise P s a a' now); [done|by rewrite Ho|by apply settled_revises]|].
  eapply rtc_l; [apply (turn_touch P _ (mg_conversation a) now); apply (owned_row P s); [done|done|by rewrite Ho]|].
  apply one_turn. pose proof Hc as ->%modify_ok. by apply turn_quiet.
Qed.

Lemma outcome_turns (P : string → Prop) now owner id attempt content status error s r s' metrics :
  chat_ok s → P owner → status ≠ pending →
  (∀ s (u : unit) s', metrics s = Ok (u, s') → turn P s s') →
  (row ← claimed_row owner id attempt;
   match row with
   | None => mret false
   | Some m => settle_row id m content status error now;; metrics;; mret true
   end) s = Ok (r, s') → turns P s s'.
Proof.
  intros Hs HP Hst Hmet Hc. apply bind_ok in Hc as (row & s1 & (-> & m & Hf & ->)%claimed_row_ok & Hc).
  destruct (_ || _) eqn:E; [by apply ret_ok in Hc as [_ <-]|]. bools. apply fetch_assistant in Hf as (Hin & <- & Ho & Hr).
  apply bind_ok in Hc as (? & s2 & Hset & Hc). apply bind_ok in Hc as (? & s3 & Hmm%Hmet & [_ <-]%ret_ok).
  apply (settle_row_turns P) in Hset as [Ht _]; try done; [|by rewrite Ho].
  eapply rtc_r; [exact Ht|done].
Qed.

Lemma reopened_turns (P : string → Prop) owner a c now retry s r s' :
  chat_ok s → a ∈ messages s → P (mg_owner a) → mg_role a = RoleAssistant → c = mg_conversation a →
  (if retry && (mg_status a == failed) then reopen_failed owner a c now else mret None) s = Ok (r, s') → turns P s s'.
Proof.
  intros Hs Ha HP Hr Hc. destruct (retry && _); [|by intros [_ <-]%ret_ok]. intros Hx.
  by eapply (reopen_turns P) in Hx as [? _].
Qed.

Lemma prepare_turns (P : string → Prop) now ids owner client content c source attachments retry s p s' :
  chat_ok s → P owner → prepare_submission now ids owner client content c source attachments retry s = Ok (p, s') → turns P s s'.
Proof.
  intros Hs HP Hp. unfold prepare_submission in Hp. apply bind_ok in Hp as (? & s1 & [_ <-]%require_ok & Hp).
  apply bind_ok in Hp as (raw & s1 & [_ <-]%lift_ok & Hp). apply bind_ok in Hp as (cv & s1 & [Hcv Ho]%(conversation_turns P) & Hp); [|done].
  etransitivity; [exact Hcv|]. pose proof (ok_turns _ _ _ Hcv Hs) as Hs1.
  apply bind_ok in Hp as (ex & s2 & [-> Hex]%submission_rows_ok & Hp). destruct ex as [[u a]|]; [|by eapply new_submission_turns].
  destruct Hex as [Hu (Ha & Hao & Hac & _ & Har)%fetch_answer]. unfold duplicate_submission in Hp.
  apply bind_ok in Hp as (? & s2 & Hi & Hp). apply bind_ok in Hp as (? & s3 & [Hb <-]%require_ok & Hp).
  apply bind_ok in Hp as (r & s3 & Hr & [_ <-]%ret_ok). bools. pose proof (increment_tables _ _ _ _ _ _ Hi) as (_ & Em & _).
  eapply rtc_l; [by eapply (increment_turn P)|]. eapply (reopened_turns P); [| | | | |exact Hr].
  - by eapply ok_turn; [by eapply (increment_turn P)|].
  - by rewrite Em.
  - by rewrite Hao.
  - done.
  - congruence.
Qed.

Lemma generate_turns (P : string → Prop) now ids owner key facts c reply retry s p s' :
  chat_ok s → P owner → prepare_generated_assistant now ids owner key facts c reply retry s = Ok (p, s') → turns P s s'.
Proof.
  intros Hs HP Hp. unfold prepare_generated_assistant in Hp. apply bind_ok in Hp as (? & s1 & [_ <-]%require_ok & Hp).
  apply bind_ok in Hp as (cv & s1 & (-> & Hcv & Hci & Hco)%conversation_row_ok & Hp).
  apply bind_ok in Hp as (o & s1 & [<- <-]%read_ok & Hp). apply bind_ok in Hp as (m & s1 & [_ <-]%lift_ok & Hp).
  apply bind_ok in Hp as (ex & s2 & [-> Hex]%generated_row_ok & Hp). destruct ex as [[g a]|].
  - destruct Hex as [_ (Ha & _ & Hao & Har)%fetch_assistant]. unfold duplicate_generated in Hp.
    apply bind_ok in Hp as (? & s3 & [Hb <-]%require_ok & Hp). apply bind_ok in Hp as (r & s3 & Hr & [_ <-]%ret_ok). bools.
    eapply (reopened_turns P); [done|exact Ha|by rewrite Hao|done| |exact Hr]. done.
  - eapply new_generated_turns; [done| |exact Hp]. by exists cv.
Qed.

(** ** Runs *)

(** The owners an operation may act for: the startup recovery acts for all. *)
Definition acts_for (o : chat_op) : string → Prop :=
  match o with
  | CRecover _ => λ _, True
  | CPrepare _ _ owner _ _ _ _ _ _ | CGenerate _ _ owner _ _ _ _ _ | CComplete _ owner _ _ _ _ _ | CFail _ owner _ _ _ _
  | CCancel _ owner _ | CList _ owner _ _ _ _ | CRoute _ owner _ _ _ _ _ | CCount _ owner _ | CReset owner => λ x, x = owner
  end.

Lemma commit_turns {A} P (m : chat A) s : (∀ a s', m s = Ok (a, s') → turns P s s') → turns P s (commit m s).2.
Proof. intros Hm. destruct (commit_cases m s) as [(a & s' & E & ->)|(e & _ & ->)]; [by eapply Hm|done]. Qed.

Lemma step_state {A} (m : chat A) (f : res chat_error A → option (string * Z)) s :
  (let '(r, s') := commit m s in (f r, s')).2 = (commit m s).2.
Proof. by destruct (commit m s). Qed.

Lemma list_turns (P : string → Prop) now owner c fresh before limit s h s' :
  P owner → list_conversation now owner c fresh before limit s = Ok (h, s') → turns P s s'.
Proof.
  intros HP Hl. unfold list_conversation in Hl. apply bind_ok in Hl as (? & s1 & [_ <-]%require_ok & Hl).
  apply bind_ok in Hl as (? & s1 & [_ <-]%require_ok & Hl). apply bind_ok in Hl as (cv & s1 & [Hc _]%(conversation_turns P) & Hl); [|done].
  apply bind_ok in Hl as (rows & s2 & [_ <-]%read_ok & Hl). by apply bind_ok in Hl as (latest & s2 & [_ <-]%read_ok & [_ <-]%ret_ok).
Qed.

Lemma chat_step_turns o s : chat_ok s → turns (acts_for o) s (chat_step o s).2.
Proof.
  intros Hs. destruct o; cbn [chat_step acts_for snd]; rewrite ?step_state; apply commit_turns; intros r s' Hr.
  - by eapply prepare_turns.
  - by eapply generate_turns.
  - eapply outcome_turns; [done|done| | |exact Hr]; [done|]. apply metrics_turn.
  - eapply outcome_turns; [done|done| | |exact Hr]; [done|]. apply increment_turn.
  - by eapply recover_turns.
  - destruct r. by eapply cancel_turns.
  - by eapply list_turns.
  - unfold record_turn_route in Hr. tx_inv. by apply one_turn, turn_quiet.
  - destruct r. by eapply one_turn, increment_turn.
  - destruct r. apply modify_ok in Hr as ->. by apply one_turn, turn_quiet.
Qed.

Lemma chat_step_ok o s : chat_ok s → chat_ok (chat_step o s).2.
Proof. intros Hs. eapply ok_turns; [by apply chat_step_turns|done]. Qed.

Lemma chat_run_ok ops s : chat_ok s → chat_ok (chat_run ops s).2.
Proof.
  revert s. induction ops as [|o ops IH]; intros s Hs; simpl; [done|].
  pose proof (chat_step_ok o s Hs) as H1. destruct (chat_step o s) as [c s1]. specialize (IH s1 H1). by destruct (chat_run ops s1).
Qed.

(** The stores a process can be in. *)
Definition chat_reachable (s : chat_db) : Prop := ∃ ops, (chat_run ops empty_chat).2 = s.
Lemma chat_reachable_ok s : chat_reachable s → chat_ok s.
Proof. intros [ops <-]. apply chat_run_ok, chat_ok_empty. Qed.
End Steps.
