(* ===== verification/ChatTheorems.v ===== *)
(** * Claims about the native chat store

    How messages evolve along any run, and what that gives clients: attempts
    with one claimant and one outcome, idempotent submissions, complete replay
    and isolation between owners. *)

From stdpp Require Import base option list sorting strings numbers sets relations.
From Stdlib Require Import ZArith Lia.
From S2P Require Import Prelude Sql Feed Json Text Chat ChatInvariant ChatSteps.

Open Scope string_scope.
Open Scope list_scope.
Open Scope Z_scope.

Section Claims.
Context `{Codec}.
Abbreviation turns P := (rtc (turn P)).

(** ** Evolution *)

(** What later turns may make of a message. *)
Definition msg_le (m m' : message) : Prop :=
  m' = m ∨
  (identity m' = identity m ∧ mg_role m = RoleAssistant ∧ mg_attempts m ≤ mg_attempts m' ∧
   (mg_status m = pending ∨ (mg_status m = failed ∧ mg_attempts m < mg_attempts m'))).

Instance msg_le_preorder : PreOrder msg_le.
Proof.
  split; [by left|]. intros a b c [->|(I1 & R1 & A1 & S1)] [->|(I2 & R2 & A2 & S2)]; [by left|by right|by right|].
  right. split_and!; [congruence|done|lia|]. destruct S1 as [?|[? ?]]; [by left|right; split; [done|lia]].
Qed.

Lemma msg_le_identity m m' : msg_le m m' → identity m' = identity m.
Proof. intros [->|(? & _)]; done. Qed.

Lemma revises_le m m' : revises m m' → msg_le m m'.
Proof. intros [Hi Hr _ Hs]. right. destruct Hs as [(? & ? & ->)|(? & ? & ->)]; split_and!; auto with lia. Qed.

Definition conversation_le (c c' : conversation) : Prop := cv_id c' = cv_id c ∧ cv_owner c' = cv_owner c ∧ cv_default c' = cv_default c.

(** Rows stay in place and only advance; every row that is not as it was has a
    change among the new ones. *)
Definition evolves (s s' : chat_db) : Prop :=
  (∃ old new, messages s' = old ++ new ∧ Forall2 msg_le (messages s) old) ∧
  (∃ cs, message_changes s' = message_changes s ++ cs ∧
    ∀ m, m ∈ messages s' → m ∈ messages s ∨ ∃ r, r ∈ cs ∧ mc_message r = mg_id m ∧ mc_conversation r = mg_conversation m) ∧
  (∀ c, c ∈ conversations s → ∃ c', c' ∈ conversations s' ∧ conversation_le c c').

Instance evolves_preorder : PreOrder evolves.
Proof.
  split.
  - intros s. split_and!.
    + exists (messages s), []. rewrite app_nil_r. split; [done|]. reflexivity.
    + exists []. rewrite app_nil_r. split; [done|]. auto.
    + intros c Hc. by exists c.
  - intros s1 s2 s3 ((o1 & n1 & E1 & F1) & (c1 & C1 & M1) & V1) ((o2 & n2 & E2 & F2) & (c2 & C2 & M2) & V2). split_and!.
    + rewrite E1 in F2. apply Forall2_app_inv_l in F2 as (p & q & Fp & Fq & ->). exists p, (q ++ n2).
      split; [by rewrite E2, app_assoc|]. by etransitivity.
    + exists (c1 ++ c2). split; [by rewrite C2, C1, app_assoc|]. intros m Hm.
      destruct (M2 m Hm) as [Hm2|(r & ? & ? & ?)]; [|right; exists r; set_solver].
      destruct (M1 m Hm2) as [?|(r & ? & ? & ?)]; [by left|right; exists r; set_solver].
    + intros c Hc. destruct (V1 c Hc) as (c' & Hc' & ? & ? & ?). destruct (V2 c' Hc') as (c'' & ? & ? & ? & ?).
      exists c''. split; [done|]. unfold conversation_le. split_and!; congruence.
Qed.

Lemma evolves_message s s' m : evolves s s' → m ∈ messages s → ∃ m', m' ∈ messages s' ∧ msg_le m m'.
Proof.
  intros ((o & n & E & F) & _) (i & Hi)%list_elem_of_lookup. destruct (Forall2_lookup_l _ _ _ _ _ F Hi) as (m' & Hm' & Hle).
  exists m'. split; [|done]. rewrite E. apply elem_of_app. left. by eapply list_elem_of_lookup_2.
Qed.

Lemma evolves_same s s' : conversations s' = conversations s → messages s' = messages s → message_changes s' = message_changes s → evolves s s'.
Proof.
  intros E1 E2 E3. destruct (reflexivity (R := evolves) s) as ((o & n & A & B) & (cs & C & D) & V).
  split_and!; rewrite ?E1, ?E2, ?E3; eauto.
Qed.

Lemma evolves_add s ms now f :
  evolves s (s <| messages ::= (λ t, t ++ ms) |> <| message_changes ::= announce ms now |> <| bindings ::= f |>).
Proof.
  split_and!; cbn; [|destruct (announce_app ms now (message_changes s)) as (cs & -> & Hcs)|intros c Hc; by exists c].
  - exists (messages s), ms. split; [done|]. reflexivity.
  - exists cs. split; [done|]. intros m [?|Hm]%elem_of_app; [by left|]. right.
    clear -Hcs Hm. induction Hcs as [|x c xs cs Hc Hcs IH]; [set_solver|].
    apply elem_of_cons in Hm as [->|Hm]; [exists c; set_solver|]. destruct (IH Hm) as (r & ? & ?). exists r. set_solver.
Qed.

Lemma revised_rows (R : message → message → Prop) p f t : (∀ x, x ∈ t → R x (if p x : bool then f x else x)) → Forall2 R t (update p f t).
Proof. induction t as [|x t IH]; intros Hf; simpl; constructor; [apply Hf; by left|]. apply IH. intros y Hy. apply Hf. by right. Qed.

Lemma turn_evolves P s s' : chat_ok s → turn P s s' → evolves s s'.
Proof.
  intros Hs Ht. destruct Ht as [s' E1 E2 E3 E4|c now Hc|owner fresh now Ho c Hf| | |m m' now Hm Ho Hr].
  - by apply evolves_same.
  - destruct (reflexivity (R := evolves) s) as (HA & HB & _). split_and!; [done|done|].
    intros x Hx. exists (if cv_id x == c then x <| cv_updated := now |> else x).
    split; [apply elem_of_update; eauto|]. by case_match.
  - destruct (reflexivity (R := evolves) s) as (HA & HB & _). split_and!; [done|done|].
    intros x Hx. exists x. split; [|done]. cbn. set_solver.
  - by apply (evolves_add s [u; a] now (λ x, x)).
  - by apply (evolves_add s [a] now).
  - split_and!; cbn; [|destruct (announce_app [m'] now (message_changes s)) as (cs & -> & Hcs)|intros c Hc; by exists c].
    + exists (update (is_message (mg_id m)) (λ _, m') (messages s)), []. rewrite app_nil_r. split; [done|].
      apply revised_rows. intros x Hx.
      destruct (is_message (mg_id m) x) eqn:E; [|by left]. apply is_message_spec in E.
      rewrite (same_id s x m Hs Hx Hm E). by apply revises_le.
    + exists cs. split; [done|]. apply Forall2_cons_inv_l in Hcs as (r & cs' & (E1 & E2 & _) & _ & ->).
      intros x [->|[Hx _]]%(elem_of_revised s m m' x Hs Hm); [right|by left]. exists r. set_solver.
Qed.

Lemma turns_evolve P s s' : turns P s s' → chat_ok s → evolves s s'.
Proof.
  induction 1 as [|s s1 s2 H1 _ IH]; intros Hs; [done|]. etransitivity; [by eapply turn_evolves|]. apply IH. by eapply ok_turn.
Qed.

(** Any later run. *)
Definition chat_later (s s' : chat_db) : Prop := ∃ ops, (chat_run ops s).2 = s'.

Lemma run_evolves ops s : chat_ok s → evolves s (chat_run ops s).2.
Proof.
  revert s. induction ops as [|o ops IH]; intros s Hs; simpl; [done|].
  pose proof (turns_evolve _ _ _ (chat_step_turns o s Hs) Hs) as H1. pose proof (chat_step_ok o s Hs) as Hs1.
  destruct (chat_step o s) as [c s1]. specialize (IH s1 Hs1). cbn in H1. destruct (chat_run ops s1) as [cs s2]. by etransitivity.
Qed.

Lemma later_ok s s' : chat_ok s → chat_later s s' → chat_ok s' ∧ evolves s s'.
Proof. intros Hs [ops <-]. split; [by apply chat_run_ok|by apply run_evolves]. Qed.

(** ** Attempts *)

(** Attempt [a] of the message has its outcome. *)
Definition attempt_over (a : Z) (m : message) : Prop := a < mg_attempts m ∨ (a = mg_attempts m ∧ mg_status m ≠ pending).

Lemma over_later a m m' : msg_le m m' → attempt_over a m → attempt_over a m'.
Proof.
  intros [->|(_ & _ & Ha & Hs)] Ho; [done|]. left. destruct Ho as [?|[-> Hp]]; [lia|]. destruct Hs as [?|[_ ?]]; [done|lia].
Qed.

Lemma lookup_assistant s m : chat_ok s → m ∈ messages s → mg_role m = RoleAssistant →
  fetchone (is_assistant (mg_owner m) (mg_id m)) (messages s) = Some m.
Proof.
  intros Hs Hm Hr. apply (fetchone_unique mg_id); [apply (ro_ids _ (ck_rows _ Hs))|done| |].
  - unfold is_assistant. by rewrite Hr, !eqb_refl.
  - intros x Hx. unfold is_assistant in Hx. bools. done.
Qed.

Lemma over_refused s m a : chat_ok s → m ∈ messages s → mg_role m = RoleAssistant → attempt_over a m →
  claimed_row (mg_owner m) (mg_id m) a s = Ok (None, s).
Proof.
  intros Hs Hm Hr Ho. unfold claimed_row, mbind, tx_bind, read, lift. rewrite (lookup_assistant s m Hs Hm Hr). cbn.
  destruct Ho as [?|[-> Hp]]; [|by rewrite (eqb_neq _ _ Hp)].
  assert ((mg_attempts m =? a) = false) as -> by lia. by rewrite orb_true_r.
Qed.

(** An outcome that was recorded. *)
Definition outcome_recorded (now : Z) (owner id : string) (a : Z) (s s' : chat_db) : Prop :=
  (∃ content latency tools, complete_submission now owner id a content latency tools s = Ok (true, s')) ∨
  (∃ error tools, fail_submission now owner id a error tools s = Ok (true, s')).

Lemma recorded_row owner id a content status error now metrics s s' :
  chat_ok s → status ≠ pending → (∀ s (u : unit) s', metrics s = Ok (u, s') → messages s' = messages s) →
  (row ← claimed_row owner id a;
   match row with
   | None => mret false
   | Some m => settle_row id m content status error now;; metrics;; mret true
   end) s = Ok (true, s') →
  ∃ m, m ∈ messages s' ∧ mg_id m = id ∧ mg_owner m = owner ∧ mg_role m = RoleAssistant ∧ mg_attempts m = a ∧
    mg_status m = status ∧ mg_content m = content.
Proof.
  intros Hs Hst Hmet Hc. apply bind_ok in Hc as (row & s1 & (-> & m & Hf & ->)%claimed_row_ok & Hc).
  destruct (_ || _) eqn:E; [by apply ret_ok in Hc as [? _]|]. bools. apply fetch_assistant in Hf as (Hin & <- & Ho & Hr).
  apply bind_ok in Hc as (? & s2 & Hset & Hc). apply bind_ok in Hc as (? & s3 & Hmm%Hmet & [_ <-]%ret_ok).
  apply (settle_row_turns (λ _, True)) in Hset as [_ Hmsg]; [|done..].
  exists (settled_row m content status error now). rewrite Hmm, Hmsg. split; [apply elem_of_revised; auto|]. done.
Qed.

Lemma outcome_row now owner id a s s' : chat_ok s → outcome_recorded now owner id a s s' →
  ∃ m, m ∈ messages s' ∧ mg_id m = id ∧ mg_owner m = owner ∧ mg_role m = RoleAssistant ∧ attempt_over a m.
Proof.
  intros Hs [(content & latency & tools & Hc)|(error & tools & Hc)].
  - apply recorded_row in Hc as (m & ? & ? & ? & ? & ? & Hst & _); [|done..|].
    + exists m. split_and!; [done..|]. right. by rewrite Hst.
    + intros s0 u s0' Hm. unfold _record_completion_metrics, ensure_diagnostics in Hm. by tx_inv.
  - apply recorded_row in Hc as (m & ? & ? & ? & ? & ? & Hst & _); [|done..|].
    + exists m. split_and!; [done..|]. right. by rewrite Hst.
    + intros s0 u s0' Hm. by apply increment_tables in Hm as (_ & ? & _).
Qed.

(** Each attempt of an answer has one outcome: once a completion or a
    failure of it was recorded, and after any later operations, reporting
    that attempt again returns false and changes nothing. *)
Theorem outcome_once now owner id a s s1 s2 :
  chat_reachable s → outcome_recorded now owner id a s s1 → chat_later s1 s2 →
  (∀ now content latency tools, complete_submission now owner id a content latency tools s2 = Ok (false, s2)) ∧
  (∀ now error tools, fail_submission now owner id a error tools s2 = Ok (false, s2)).
Proof.
  intros Hs%chat_reachable_ok Ho Hl. assert (chat_ok s1) as Hs1.
  { destruct Ho as [(c & l & t & Hc)|(e & t & Hc)].
    - pose proof (chat_step_ok (CComplete now owner id a c l t) s Hs) as H1. cbn [chat_step snd] in H1. by rewrite (proj2 (commit_ok _ _ _ _) Hc) in H1.
    - pose proof (chat_step_ok (CFail now owner id a e t) s Hs) as H1. cbn [chat_step snd] in H1. by rewrite (proj2 (commit_ok _ _ _ _) Hc) in H1. }
  destruct (outcome_row _ _ _ _ _ _ Hs Ho) as (m & Hm & <- & <- & Hr & Hov).
  destruct (later_ok _ _ Hs1 Hl) as [Hs2 He]. destruct (evolves_message _ _ _ He Hm) as (m' & Hm' & Hle).
  pose proof (identity_fields _ _ (msg_le_identity _ _ Hle)) as (Ei & _ & Eo & _ & Er & _).
  pose proof (over_refused s2 m' a Hs2 Hm' ltac:(congruence) (over_later _ _ _ Hle Hov)) as Hc. rewrite Ei, Eo in Hc.
  split; intros; unfold complete_submission, fail_submission; by rewrite (bind_run _ _ _ _ _ Hc).
Qed.

(** A user's message, a completed answer and a cancelled answer are final:
    after any later operations the row is still there, unchanged. *)
Theorem settled_message_final s s' m :
  chat_reachable s → chat_later s s' → m ∈ messages s →
  mg_role m = RoleUser ∨ mg_status m = completed ∨ mg_status m = cancelled → m ∈ messages s'.
Proof.
  intros Hs%chat_reachable_ok Hl Hm Hf. destruct (later_ok _ _ Hs Hl) as [_ He].
  destruct (evolves_message _ _ _ He Hm) as (m' & Hm' & [->|(_ & Hr & _ & Hst)]); [done|].
  destruct Hf as [?|[?|?]], Hst as [?|[? _]]; congruence.
Qed.

(** ** Claims *)

(** A claim is for a row whose attempts it raised. *)
Definition claims_attempt (s s' : chat_db) (c : string * Z) : Prop :=
  (∃ m, m ∈ messages s' ∧ mg_id m = c.1 ∧ mg_attempts m = c.2) ∧
  (∀ m, m ∈ messages s → mg_id m = c.1 → mg_attempts m < c.2).

Lemma reopened_claim owner a c now retry s r s' :
  chat_ok s → a ∈ messages s → mg_role a = RoleAssistant → c = mg_conversation a →
  (if retry && (mg_status a == failed) then reopen_failed owner a c now else mret None) s = Ok (r, s') →
  is_Some r → claims_attempt s s' (mg_id (default a r), mg_attempts (default a r)).
Proof.
  intros Hs Ha Hr Hc Hx [m ->]. destruct (retry && _); [|by apply ret_ok in Hx as [? _]].
  apply (reopen_turns (λ _, True)) in Hx as (_ & Hi & _ & Hat & Hin & _); [|done..]. split; cbn.
  - by exists m.
  - intros x Hx E. rewrite Hi in E. rewrite (same_id s x a Hs Hx Ha E). lia.
Qed.

Lemma conversation_messages owner id fresh now s c s' : conversation_or_default owner id fresh now s = Ok (c, s') → messages s' = messages s.
Proof.
  unfold conversation_or_default. destruct (id ≫= nonempty); [by intros (-> & _)%conversation_row_ok|].
  unfold _default_conversation. intros Hc. apply bind_ok in Hc as (row & s1 & [<- <-]%read_ok & Hc).
  destruct (fetchone _ _); [by apply ret_ok in Hc as [_ <-]|].
  destruct (insert_conversation _ s) as [[u s1]|] eqn:Ei; apply lift_ok in Hc as [_ <-]; [|done].
  by apply insert_row_ok in Ei as [-> _].
Qed.

Lemma fresh_claim s s' a : (∀ x, x ∈ messages s → message_clash a x = false) → a ∈ messages s' → mg_attempts a = 1 →
  claims_attempt s s' (mg_id a, 1).
Proof.
  intros Hf Ha Hat. split; cbn; [by exists a|]. intros x Hx E. apply Hf in Hx as [Hne _]%message_clash_false. congruence.
Qed.

Lemma prepare_claims now ids owner client content c source attachments retry s p s' :
  chat_ok s → prepare_submission now ids owner client content c source attachments retry s = Ok (p, s') → pp_claimed p = true →
  claims_attempt s s' (pp_assistant p, pp_attempt p).
Proof.
  intros Hs Hp Hcl. unfold prepare_submission in Hp. apply bind_ok in Hp as (? & s1 & [_ <-]%require_ok & Hp).
  apply bind_ok in Hp as (raw & s1 & [_ <-]%lift_ok & Hp). apply bind_ok in Hp as (cv & s1 & Hcv & Hp).
  pose proof (conversation_messages _ _ _ _ _ _ _ Hcv) as Em. apply (conversation_turns (λ _, True)) in Hcv as [Ht _]; [|done].
  pose proof (ok_turns _ _ _ Ht Hs) as Hs1.
  apply bind_ok in Hp as (ex & s2 & [-> Hex]%submission_rows_ok & Hp). destruct ex as [[u a]|].
  - destruct Hex as [Hu (Ha & Hao & Hac & _ & Har)%fetch_answer]. unfold duplicate_submission in Hp.
    apply bind_ok in Hp as (? & s2 & Hi & Hp). apply bind_ok in Hp as (? & s3 & [Hb <-]%require_ok & Hp).
    apply bind_ok in Hp as (r & s3 & Hr & [<- <-]%ret_ok). bools. cbn in *. apply bool_decide_eq_true in Hcl.
    pose proof (increment_tables _ _ _ _ _ _ Hi) as (_ & Em2 & _).
    unfold claims_attempt. rewrite <- Em, <- Em2. eapply reopened_claim; [| |done| |exact Hr|done].
    + eapply ok_turn; [by eapply (increment_turn (λ _, True))|done].
    + by rewrite Em2.
    + congruence.
  - apply new_submission_rows in Hp as (E & Hf & ->). unfold claims_attempt. rewrite <- Em. apply fresh_claim.
    + intros y Hy. apply Hf. set_solver.
    + rewrite E. set_solver.
    + done.
Qed.

Lemma generate_claims now ids owner key facts c reply retry s p s' :
  chat_ok s → prepare_generated_assistant now ids owner key facts c reply retry s = Ok (p, s') → pp_claimed p = true →
  claims_attempt s s' (pp_assistant p, pp_attempt p).
Proof.
  intros Hs Hp Hcl. unfold prepare_generated_assistant in Hp. apply bind_ok in Hp as (? & s1 & [_ <-]%require_ok & Hp).
  apply bind_ok in Hp as (cv & s1 & (-> & Hcv & Hci & Hco)%conversation_row_ok & Hp).
  apply bind_ok in Hp as (o & s1 & [<- <-]%read_ok & Hp). apply bind_ok in Hp as (m & s1 & [_ <-]%lift_ok & Hp).
  apply bind_ok in Hp as (ex & s2 & [-> Hex]%generated_row_ok & Hp). destruct ex as [[g a]|].
  - destruct Hex as [_ (Ha & _ & Hao & Har)%fetch_assistant]. unfold duplicate_generated in Hp.
    apply bind_ok in Hp as (? & s3 & [Hb <-]%require_ok & Hp). apply bind_ok in Hp as (r & s3 & Hr & [<- <-]%ret_ok). bools. cbn in *.
    apply bool_decide_eq_true in Hcl. eapply reopened_claim; [done|exact Ha|done| |exact Hr|done]. done.
  - apply new_generated_rows in Hp as (E & Hf & -> & ->). apply fresh_claim; [done| |done]. rewrite E. set_solver.
Qed.

Lemma step_claims o s c : chat_ok s → (chat_step o s).1 = Some c → claims_attempt s (chat_step o s).2 c.
Proof.
  intros Hs. destruct o; cbn [chat_step fst]; try done; rewrite step_state; destruct (commit _ s) as [[p|] s'] eqn:E; cbn; try done;
    case_match eqn:Hcl; try done; intros [= <-]; apply commit_ok in E.
  - by eapply prepare_claims.
  - by eapply generate_claims.
Qed.

(** Claims made so far are of rows that have them. *)
Definition claims_in (s : chat_db) (l : list (string * Z)) : Prop :=
  ∀ c, c ∈ l → ∃ m, m ∈ messages s ∧ mg_id m = c.1 ∧ c.2 ≤ mg_attempts m.

Lemma claims_in_later s s' l : evolves s s' → claims_in s l → claims_in s' l.
Proof.
  intros He Hl c Hc. destruct (Hl c Hc) as (m & Hm & Hi & Hle). destruct (evolves_message _ _ _ He Hm) as (m' & Hm' & Hm2).
  exists m'. pose proof (identity_fields _ _ (msg_le_identity _ _ Hm2)) as (-> & _). split_and!; [done|done|].
  destruct Hm2 as [->|(_ & _ & ? & _)]; lia.
Qed.

Lemma run_claims ops s l : chat_ok s → claims_in s l → NoDup l → NoDup (l ++ (chat_run ops s).1).
Proof.
  revert s l. induction ops as [|o ops IH]; intros s l Hs Hl Hn; simpl; [by rewrite app_nil_r|].
  pose proof (step_claims o s) as Hc. pose proof (turns_evolve _ _ _ (chat_step_turns o s Hs) Hs) as He. pose proof (chat_step_ok o s Hs) as Hs1.
  destruct (chat_step o s) as [c s1]. cbn in Hc, He, Hs1.
  assert (claims_in s1 (l ++ option_list c) ∧ NoDup (l ++ option_list c)) as [Hl1 Hn1].
  { destruct c as [c|]; cbn; [|rewrite app_nil_r; split; [by eapply claims_in_later|done]].
    destruct (Hc c Hs eq_refl) as [(m & Hm & Hi & Hat) Hlt]. split.
    - intros x [Hx| ->%list_elem_of_singleton]%elem_of_app; [by apply (claims_in_later s s1 l He Hl)|].
      exists m. split_and!; [done|done|lia].
    - apply NoDup_app. split; [done|]. split; [|apply NoDup_singleton]. intros x Hx ->%list_elem_of_singleton.
      destruct (Hl c Hx) as (m' & Hm' & Hi' & Hle). specialize (Hlt m' Hm' Hi'). lia. }
  specialize (IH s1 _ Hs1 Hl1 Hn1). destruct (chat_run ops s1) as [cs s2]. cbn in *. by rewrite app_assoc.
Qed.

(** C10. Along any run no attempt of a message is given to two callers: the
    claims handed out by submissions, generated messages and retries are
    pairwise different. *)
Theorem claims_distinct ops : NoDup (chat_run ops empty_chat).1.
Proof. apply (run_claims ops empty_chat []); [apply chat_ok_empty|by intros c Hc%not_elem_of_nil|constructor]. Qed.

(** ** Submissions *)

Lemma conversation_ok owner id fresh now s c s' : conversation_or_default owner id fresh now s = Ok (c, s') →
  c ∈ conversations s' ∧ cv_owner c = owner ∧ match id ≫= nonempty with Some i => cv_id c = i | None => cv_default c = true end.
Proof.
  unfold conversation_or_default. destruct (id ≫= nonempty) as [i|]; [by intros (-> & ? & ? & ?)%conversation_row_ok|].
  unfold _default_conversation. intros Hc. apply bind_ok in Hc as (row & s1 & [<- <-]%read_ok & Hc).
  destruct (fetchone _ _) as [x|] eqn:Ex.
  - apply ret_ok in Hc as [<- <-]. apply fetchone_some in Ex as [Hin Hd]. unfold is_default in Hd. bools. done.
  - destruct (insert_conversation _ s) as [[u s1]|] eqn:Ei; [|by rewrite Ex in Hc].
    apply lift_ok in Hc as [[Hin Hid%eqb_true]%of_option_ok%fetchone_some <-]. apply insert_row_ok in Ei as [-> Hfresh]. cbn in Hin.
    apply elem_of_app in Hin as [Hin| ->%list_elem_of_singleton].
    + specialize (Hfresh c Hin). unfold conversation_clash in Hfresh. cbn in Hfresh. by rewrite Hid, eqb_refl in Hfresh.
    + split_and!; [|done|done]. cbn. set_solver.
Qed.

(** The same conversation is found again, and nothing is created. *)
Lemma conversation_again owner id fresh now s c : chat_ok s → c ∈ conversations s → cv_owner c = owner →
  match id ≫= nonempty with Some i => cv_id c = i | None => cv_default c = true end →
  ∃ c', conversation_or_default owner id fresh now s = Ok (c', s) ∧ cv_id c' = cv_id c.
Proof.
  intros Hs Hc Ho Hid. unfold conversation_or_default. destruct (id ≫= nonempty) as [i|].
  - exists c. split; [|done]. unfold _conversation_row, mbind, tx_bind, read, lift.
    rewrite (fetchone_unique cv_id _ _ c); [done|apply (ck_conversations _ Hs)|done| |].
    + unfold is_conversation. by rewrite Hid, Ho, !eqb_refl.
    + intros x Hx. unfold is_conversation in Hx. bools. congruence.
  - unfold _default_conversation, mbind, tx_bind, read. destruct (fetchone (is_default owner) (conversations s)) as [x|] eqn:Ex.
    + exists x. split; [done|]. apply fetchone_some in Ex as [Hin Hx]. unfold is_default in Hx. bools.
      apply (ck_default _ Hs); congruence.
    + pose proof (fetchone_none _ _ _ Ex Hc) as Hx. unfold is_default in Hx. by rewrite Ho, Hid, eqb_refl in Hx.
Qed.

(** The rows behind a prepared submission. *)
Lemma prepare_rows now ids owner client content c source attachments retry s p s' :
  chat_ok s → prepare_submission now ids owner client content c source attachments retry s = Ok (p, s') →
  ∃ raw cv u a, member _VALID_SOURCES source = true ∧ _attachment_json attachments = Ok raw ∧
    u ∈ messages s' ∧ a ∈ messages s' ∧ is_submission owner client u = true ∧ is_answer owner u a = true ∧
    cv ∈ conversations s' ∧ cv_owner cv = owner ∧ match c ≫= nonempty with Some i => cv_id cv = i | None => cv_default cv = true end ∧
    mg_conversation u = cv_id cv ∧ mg_content u = content ∧ mg_source u = source ∧ mg_attachments u = raw ∧
    pp_conversation p = cv_id cv ∧ pp_user p = Some (mg_id u) ∧ pp_assistant p = mg_id a ∧ pp_turn p = mg_turn u.
Proof.
  intros Hs Hp. pose proof (prepare_turns (λ _, True) _ _ _ _ _ _ _ _ _ _ _ _ Hs I Hp) as Hts.
  unfold prepare_submission in Hp. apply bind_ok in Hp as (? & s1 & [Hsrc <-]%require_ok & Hp).
  apply bind_ok in Hp as (raw & s1 & [Hraw <-]%lift_ok & Hp). apply bind_ok in Hp as (cv & s1 & Hcv & Hp).
  pose proof (conversation_ok _ _ _ _ _ _ _ Hcv) as (Hcin & Hco & Hcid).
  apply (conversation_turns (λ _, True)) in Hcv as [Ht _]; [|done]. pose proof (ok_turns _ _ _ Ht Hs) as Hs1.
  apply bind_ok in Hp as (ex & s2 & [-> Hex]%submission_rows_ok & Hp). destruct ex as [[u a]|].
  - destruct Hex as [[Hu Hsub]%fetchone_some (Ha & Hao & Hac & Hat & Har)%fetch_answer]. unfold duplicate_submission in Hp.
    apply bind_ok in Hp as (? & s2 & Hi & Hp). apply bind_ok in Hp as (? & s3 & [Hb <-]%require_ok & Hp).
    apply bind_ok in Hp as (r & s3 & Hr & [<- <-]%ret_ok). bools.
    pose proof (increment_turn (λ _, True) _ _ _ _ _ _ Hi) as Hq. pose proof (ok_turn _ _ _ Hq Hs1) as Hs2.
    pose proof (increment_tables _ _ _ _ _ _ Hi) as (Ec & Em & _).
    assert (turns (λ _, True) s2 s3 ∧ default a r ∈ messages s3 ∧ identity (default a r) = identity a) as (Ht3 & Hin & Hid).
    { destruct (retry && _); [|apply ret_ok in Hr as [<- <-]; by rewrite Em].
      apply (reopen_turns (λ _, True)) in Hr as [Hr1 Hr2]; [|done|by rewrite Em|done..|congruence].
      destruct r as [m|]; [by destruct Hr2 as (_ & _ & _ & ? & ? & _)|]. split; [done|]. by rewrite Hr2, Em. }
    pose proof (identity_fields _ _ Hid) as (Ei & Ecv & Eo & Et & Er & _).
    pose proof (turns_evolve _ _ _ Ht3 Hs2) as He. destruct He as (He1 & He2 & He3).
    destruct (He3 cv) as (cv' & Hcv' & Hi1 & Hi2 & Hi3); [by rewrite Ec|].
    exists raw, cv', u, (default a r). cbn. rewrite Hi1, Hi2, Hi3. split_and!; try done.
    + destruct (evolves_message s2 s3 u (conj He1 (conj He2 He3)) ltac:(by rewrite Em)) as (u' & Hu' & [->|(_ & Hru & _)]); [done|].
      unfold is_submission in Hsub. bools. congruence.
    + unfold is_answer. by rewrite Eo, Ecv, Et, Er, Hao, Hac, Hat, Har, !eqb_refl.
  - pose proof Hp as Hn. apply (new_submission_turns (λ _, True)) in Hn; [|done|by exists cv].
    pose proof (turns_evolve _ _ _ Hn Hs1) as (_ & _ & He). destruct (He cv Hcin) as (cv' & Hcv' & Hi1 & Hi2 & Hi3).
    apply new_submission_rows in Hp as (E & _ & ->). exists raw, cv', (user_message ids (cv_id cv) owner content source client raw (next_sequence s1 (cv_id cv)) now),
      (assistant_message ids (cv_id cv) owner (new_user ids) (next_sequence s1 (cv_id cv) + 1) now).
    cbn. rewrite E, Hi1, Hi2, Hi3. split_and!; try done.
    1,2: apply elem_of_app; right; by repeat constructor.
    + unfold is_submission. cbn. by rewrite !eqb_refl.
    + unfold is_answer. cbn. by rewrite !eqb_refl.
Qed.

Lemma increment_runs owner l now s : forallb (λ kv, member COUNTERS kv.1) l = true → l ≠ [] →
  ∃ s', _increment_diagnostics owner l now s = Ok (tt, s').
Proof.
  intros Hl Hne. unfold _increment_diagnostics, mbind, tx_bind, require, lift, ensure_diagnostics, modify. rewrite Hl.
  destruct l; [done|]. cbn. eauto.
Qed.

(** The rows of a submission, looked up again. *)
Lemma submission_again s owner client u a : chat_ok s → u ∈ messages s → a ∈ messages s →
  is_submission owner client u = true → is_answer owner u a = true → _submission_rows owner client s = Ok (Some (u, a), s).
Proof.
  intros Hs Hu Ha Hsub Hans. unfold _submission_rows, mbind, tx_bind, read, lift.
  rewrite (fetchone_only _ _ u); [|done|done|].
  - rewrite (fetchone_only _ _ a); [done|done|done|]. intros x Hx Hax. unfold is_answer in Hax, Hans. bools.
    apply (same_turn s x a); congruence.
  - intros x Hx Hxs. unfold is_submission in Hxs, Hsub. bools. apply (same_client s x u client); congruence.
Qed.

(** Submitting the same client message again, after any later operations,
    returns the identities of the first call, claims nothing and adds no
    message; with another text it is refused. *)
Theorem submission_idempotent now ids owner client content c source attachments retry s p s1 s2 now' ids' content' :
  chat_reachable s → prepare_submission now ids owner client content c source attachments retry s = Ok (p, s1) → chat_later s1 s2 →
  if content' == content then
    ∃ p' s3, prepare_submission now' ids' owner client content' c source attachments false s2 = Ok (p', s3) ∧
      pp_claimed p' = false ∧ pp_duplicate p' = true ∧ pp_conversation p' = pp_conversation p ∧ pp_user p' = pp_user p ∧
      pp_assistant p' = pp_assistant p ∧ pp_turn p' = pp_turn p ∧
      messages s3 = messages s2 ∧ message_changes s3 = message_changes s2
  else prepare_submission now' ids' owner client content' c source attachments false s2 = Err MagiChatConflict.
Proof.
  intros Hs%chat_reachable_ok Hp Hl. pose proof (prepare_turns (λ _, True) _ _ _ _ _ _ _ _ _ _ _ _ Hs I Hp) as Ht.
  pose proof (ok_turns _ _ _ Ht Hs) as Hs1. destruct (later_ok _ _ Hs1 Hl) as [Hs2 He].
  apply prepare_rows in Hp as (raw & cv & u & a & Hsrc & Hraw & Hu & Ha & Hsub & Hans & Hcv & Hco & Hcid & Huc & <- & Hus & Hua & -> & -> & -> & ->);
    [|done].
  destruct (evolves_message _ _ _ He Hu) as (u' & Hu' & [->|(_ & Hru & _)]); [|unfold is_submission in Hsub; bools; congruence].
  destruct (evolves_message _ _ _ He Ha) as (a' & Ha' & Hle). pose proof (identity_fields _ _ (msg_le_identity _ _ Hle)) as (Ei & Ec & Eo & Et & Er & _).
  assert (is_answer owner u a' = true) as Hans' by (unfold is_answer in *; by rewrite Eo, Ec, Et, Er).
  destruct He as (_ & _ & He). destruct (He cv Hcv) as (cv' & Hcv' & Hi1 & Hi2 & Hi3).
  destruct (conversation_again owner c (new_conversation ids') now' s2 cv' Hs2 Hcv') as (cx & Hcx & Hcxi); [congruence|by rewrite Hi1, Hi3|].
  assert (prepare_submission now' ids' owner client content' c source attachments false s2 =
    duplicate_submission now' owner content' cx source raw false u a' s2) as ->.
  { unfold prepare_submission, mbind, tx_bind, require, lift. rewrite Hsrc, Hraw. cbn [ensure]. cbv beta iota.
    by rewrite Hcx, (submission_again s2 owner client u a'). }
  destruct (increment_runs owner [("magi_duplicate_submissions", 1)] now' s2) as (s3 & H3); [done|done|].
  pose proof (increment_tables _ _ _ _ _ _ H3) as (_ & Em & Ech & _).
  unfold duplicate_submission. rewrite (bind_run _ _ _ _ _ H3). unfold mbind, tx_bind, require, lift.
  rewrite Huc, Hus, Hua, Hcxi, Hi1, !eqb_refl, !andb_true_r. cbn [andb].
  assert ((mg_content u == content') = (content' == mg_content u)) as -> by by apply bool_decide_ext.
  destruct (content' == mg_content u); [|done]. cbn [ensure]. cbv beta iota. cbn. do 2 eexists. split; [reflexivity|].
  cbn. rewrite Ei. done.
Qed.

(** ** Replay *)

(** A client that asks for pages of changes until there are no more. *)
Fixpoint follow (fuel : nat) (owner c : string) (after limit : Z) (s : chat_db) : res chat_error (list (public_message * Z)) :=
  match fuel with
  | O => Ok []
  | S fuel =>
      match replay owner c after limit s with
      | Ok (page, _) =>
          if rp_more page then rest ← follow fuel owner c (rp_next page) limit s; Ok (rp_messages page ++ rest)
          else Ok (rp_messages page)
      | Err e => Err e
      end
  end.

Lemma latest_changes s c : chat_ok s → latest_message_change s c = count (of_conversation c) (message_changes s).
Proof. intros Hs. apply numbered_max, (ck_changes _ Hs). Qed.

Lemma replay_change_ok s r owner : chat_ok s → r ∈ message_changes s → owner_of s (mc_conversation r) owner →
  ∃ m, m ∈ messages s ∧ mg_id m = mc_message r ∧ replay_change owner s r = Ok (_public_message m, mc_sequence r).
Proof.
  intros Hs Hr Ho. destruct (ck_change _ Hs r Hr) as (m & Hm & Hi & Hc & _). exists m. split_and!; [done|done|].
  pose proof (ck_owner _ Hs m Hm) as Ho'. rewrite Hc in Ho'. pose proof (owner_unique s _ _ _ Hs Ho Ho') as ->.
  unfold replay_change. rewrite (fetchone_unique mg_id _ _ m); [done|apply (ro_ids _ (ck_rows _ Hs))|done| |].
  - by rewrite eqb_refl, (proj2 (is_message_spec _ _) Hi).
  - intros x Hx. apply andb_true_iff in Hx as [Hx%is_message_spec _]. congruence.
Qed.

(** The rows that changes of a conversation deliver. *)
Definition delivers (s : chat_db) (rs : list message_change) (out : list (public_message * Z)) : Prop :=
  Forall2 (λ r p, p.2 = mc_sequence r ∧ ∃ m, m ∈ messages s ∧ mg_id m = mc_message r ∧ p.1 = _public_message m) rs out.

Lemma replay_page_ok s owner c after limit :
  chat_ok s → owner_of s c owner → 0 ≤ after ≤ latest_message_change s c → 1 ≤ limit ≤ MAX_MAGI_HISTORY_MESSAGES →
  let n := Z.min limit (latest_message_change s c - after) in
  let missed := select (λ r, after <? mc_sequence r) (select (of_conversation c) (message_changes s)) in
  ∃ page, replay owner c after limit s = Ok (page, s) ∧ delivers s (take n missed) (rp_messages page) ∧
    rp_next page = after + n ∧ rp_latest page = latest_message_change s c ∧ rp_more page = (after + n <? latest_message_change s c).
Proof.
  intros Hs Ho Ha Hlim n missed. unfold replay, mbind, tx_bind, require, lift, read.
  assert ((0 <=? after) && (1 <=? limit) && (limit <=? MAX_MAGI_HISTORY_MESSAGES) = true) as ->.
  { rewrite !andb_true_iff, !Z.leb_le. lia. }
  cbn [ensure]. cbv beta iota. destruct Ho as (cv & Hcv & Hci & Hco).
  assert (_conversation_row owner c s = Ok (cv, s)) as ->.
  { unfold _conversation_row, mbind, tx_bind, read, lift. rewrite (fetchone_unique cv_id _ _ cv); [done|apply (ck_conversations _ Hs)|done| |].
    - unfold is_conversation. by rewrite Hci, Hco, !eqb_refl.
    - intros x Hx. unfold is_conversation in Hx. bools. congruence. }
  pose proof (ck_changes _ Hs c) as Hn. unfold numbered in Hn. rewrite <- (latest_changes s c Hs) in Hn. rewrite select_and. fold missed.
  pose proof (seq_after mc_sequence _ _ _ after Hn ltac:(lia)) as Hm. fold missed in Hm.
  replace (0 + 1 + latest_message_change s c - (after + 1)) with (latest_message_change s c - after) in Hm by lia.
  assert (order_by oldest_message_change missed = missed) as -> by (apply order_by_sorted; by eapply (seq_sorted mc_sequence)).
  pose proof (seq_take mc_sequence _ _ (limit + 1) _ Hm ltac:(lia)) as Hrows. pose proof (seq_take mc_sequence _ _ limit _ Hrows ltac:(lia)) as Hpage.
  assert (take limit (take (limit + 1) missed) = take n missed) as Et.
  { pose proof (seq_length _ _ _ _ Hm ltac:(lia)) as Hl. unfold take. rewrite firstn_firstn, Nat.min_l by lia.
    destruct (decide (limit ≤ latest_message_change s c - after)).
    - unfold n. by rewrite Z.min_l by lia.
    - unfold n. by rewrite !take_ge by lia. }
  rewrite Et in *. replace (Z.min limit (Z.min (limit + 1) (latest_message_change s c - after))) with n in Hpage by lia.
  destruct (map_res_ok (replay_change owner s) (λ r p, p.2 = mc_sequence r ∧ ∃ m, m ∈ messages s ∧ mg_id m = mc_message r ∧ p.1 = _public_message m) (take n missed))
    as (out & -> & Hout).
  { intros r [[Hr Hrc%eqb_true]%elem_of_select _]%elem_of_take%elem_of_select.
    destruct (replay_change_ok s r owner Hs Hr) as (m & ? & ? & ->); [by exists cv; rewrite Hrc|]. eauto 10. }
  eexists. split; [reflexivity|]. cbn. split_and!; [exact Hout| |done|].
  - by apply (seq_last mc_sequence); [|lia].
  - rewrite (seq_length _ _ _ _ Hrows) by lia. destruct (limit <? _) eqn:E1, (after + n <? _) eqn:E2; bools; lia.
Qed.

Lemma follow_ok s owner c limit fuel after :
  chat_ok s → owner_of s c owner → 0 ≤ after ≤ latest_message_change s c → 1 ≤ limit ≤ MAX_MAGI_HISTORY_MESSAGES →
  (Z.to_nat (latest_message_change s c - after) < fuel)%nat →
  ∃ out, follow fuel owner c after limit s = Ok out ∧
    delivers s (select (λ r, after <? mc_sequence r) (select (of_conversation c) (message_changes s))) out.
Proof.
  intros Hs Ho Ha Hlim Hf. revert after Ha Hf. induction fuel as [|fuel IH]; intros after Ha Hf; [lia|]. simpl.
  destruct (replay_page_ok s owner c after limit Hs Ho Ha Hlim) as (page & -> & Hd & Hn & _ & Hmore).
  set (n := Z.min _ _) in *. set (feed := select (of_conversation c) (message_changes s)) in *.
  pose proof (ck_changes _ Hs c) as Hc. unfold numbered in Hc. fold feed in Hc. rewrite <- (latest_changes s c Hs) in Hc.
  pose proof (seq_after mc_sequence _ _ _ after Hc ltac:(lia)) as Hm.
  pose proof (seq_split mc_sequence after _ n _ Hm ltac:(lia)) as Hsplit.
  rewrite <- select_and in Hsplit.
  assert (∀ l, select (λ r, (after <? mc_sequence r) && (after + n <? mc_sequence r)) l = select (λ r, after + n <? mc_sequence r) l) as Hand.
  { intros l. apply List.filter_ext. intros r. destruct (after + n <? mc_sequence r) eqn:E; [|apply andb_false_r]. assert ((after <? mc_sequence r) = true) as ->; [lia|done]. }
  rewrite Hand in Hsplit. rewrite Hmore. destruct (after + n <? latest_message_change s c) eqn:E; bools.
  - rewrite Hn. destruct (IH (after + n)) as (rest & -> & Hrest); [lia|lia|]. eexists. split; [reflexivity|].
    rewrite Hsplit. unfold delivers. by apply Forall2_app.
  - eexists. split; [reflexivity|]. rewrite Hsplit.
    assert (select (λ r, after + n <? mc_sequence r) feed = []) as ->; [|by rewrite app_nil_r].
    apply (map_eq_nil mc_sequence). rewrite (seq_after mc_sequence _ _ _ (after + n) Hc) by lia. apply seqZ_nil. lia.
Qed.

(** A client that was up to date with a conversation at one moment and
    later follows its changes, page by page, gets every later change exactly
    once and in order, and with them the current row of every message that
    is not as it was: it is up to date again. *)
Theorem replay_converges s s' owner c limit fuel :
  let after := latest_message_change s c in
  chat_reachable s → chat_later s s' → owner_of s' c owner → 1 ≤ limit ≤ MAX_MAGI_HISTORY_MESSAGES →
  (Z.to_nat (latest_message_change s' c - after) < fuel)%nat →
  ∃ out, follow fuel owner c after limit s' = Ok out ∧
    map snd out = seqZ (after + 1) (latest_message_change s' c - after) ∧
    ∀ m, m ∈ messages s' → mg_conversation m = c → m ∈ messages s ∨ ∃ p, p ∈ out ∧ p.1 = _public_message m.
Proof.
  intros after Hs%chat_reachable_ok Hl Ho Hlim Hf. destruct (later_ok _ _ Hs Hl) as [Hs' (_ & (cs & Ecs & Hch) & _)].
  assert (0 ≤ after ≤ latest_message_change s' c) as Ha.
  { unfold after. rewrite !latest_changes, Ecs by done. unfold count, select. rewrite List.filter_app, length_app. lia. }
  destruct (follow_ok s' owner c limit fuel after Hs' Ho Ha Hlim Hf) as (out & -> & Hd). exists out. split; [done|]. split.
  - pose proof (ck_changes _ Hs' c) as Hc. unfold numbered in Hc. rewrite <- (latest_changes s' c Hs') in Hc.
    pose proof (seq_after mc_sequence _ _ _ after Hc ltac:(lia)) as Hm.
    replace (0 + 1 + latest_message_change s' c - (after + 1)) with (latest_message_change s' c - after) in Hm by lia.
    rewrite <- Hm. clear -Hd. induction Hd as [|r p rs out [E _] Hd IH]; simpl; congruence.
  - intros m Hm Hc. destruct (Hch m Hm) as [?|(r & Hr & Hrm & Hrc)]; [by left|]. right.
    assert (r ∈ select (λ r, after <? mc_sequence r) (select (of_conversation c) (message_changes s'))) as Hin.
    { apply elem_of_select. split; [apply elem_of_select; split|].
      - rewrite Ecs. set_solver.
      - unfold of_conversation. by rewrite Hrc, Hc, eqb_refl.
      - apply Z.ltb_lt. unfold after. rewrite (latest_changes s c Hs). pose proof (ck_changes _ Hs' c) as Hn. rewrite Ecs in Hn.
        eapply numbered_suffix; [exact Hn|done|]. unfold of_conversation. by rewrite Hrc, Hc, eqb_refl. }
    apply list_elem_of_lookup in Hin as (i & Hi). destruct (Forall2_lookup_l _ _ _ _ _ Hd Hi) as (p & Hp & _ & m0 & Hm0 & Hid & Hpm).
    exists p. split; [by eapply list_elem_of_lookup_2|]. rewrite Hpm. by rewrite (same_id s' m0 m Hs' Hm0 Hm ltac:(congruence)).
Qed.

End Claims.
