(* ===== verification/ChatOwners.v ===== *)
(** * Claims about the native chat store: restart, owners, attachments

    Recovery after a restart, isolation between owners, the attachment round
    trip, and the refinement of the contract by the operations. *)

From stdpp Require Import base option list strings numbers sets relations.
From Stdlib Require Import ZArith Lia.
From S2P Require Import Prelude Sql Feed Json Text Chat ChatInvariant ChatSteps ChatTheorems.

Open Scope string_scope.
Open Scope list_scope.
Open Scope Z_scope.

Section Claims.
Context `{Codec}.
Abbreviation turns P := (rtc (turn P)).

(** ** Restart *)

Definition restarted (now : Z) (m : message) : message := settled_row m "" failed (Some "server_restart") now.

Lemma append_change_runs s m now : chat_ok s → m ∈ messages s →
  ∃ n s', _append_change (mg_conversation m) (mg_id m) (mg_revision m + 1) now s = Ok (n, s').
Proof.
  intros Hs Hm. unfold _append_change, mbind, tx_bind, read, insert_message_change, insert_row.
  rewrite insert_fresh; [by do 2 eexists|]. intros r Hr. unfold message_change_clash. cbn.
  destruct (mg_conversation m == mc_conversation r) eqn:Ec; [|done]. apply eqb_true in Ec. cbn. rewrite (latest_changes s _ Hs).
  pose proof (numbered_elem _ _ _ _ r (ck_changes _ Hs (mg_conversation m)) Hr ltac:(unfold of_conversation; by rewrite Ec, eqb_refl)) as Hq.
  assert ((count (of_conversation (mg_conversation m)) (message_changes s) + 1 =? mc_sequence r) = false) as -> by lia. cbn.
  destruct (mg_id m == mc_message r) eqn:Ei; [|done]. apply eqb_true in Ei. cbn.
  destruct (ck_change _ Hs r Hr) as (x & Hx & Hxi & _ & Hle). rewrite (same_id s x m Hs Hx Hm ltac:(congruence)) in Hle. lia.
Qed.

(** Statements on other tables do not matter to appending a change. *)
Lemma append_change_frame c id revision now s s1 n s' :
  message_changes s1 = message_changes s → _append_change c id revision now s = Ok (n, s') →
  ∃ s1', _append_change c id revision now s1 = Ok (n, s1').
Proof.
  unfold _append_change, mbind, tx_bind, read, insert_message_change, insert_row, latest_message_change. intros ->.
  destruct (insert _ _ _); [|done]. intros [= <- _]. by eexists.
Qed.

Lemma recover_row_runs s m now : chat_ok s → m ∈ messages s → ∃ s', recover_row now m s = Ok (tt, s').
Proof.
  intros Hs Hm. destruct (append_change_runs s m now Hs Hm) as (n & s0 & Ha).
  unfold recover_row, touch_conversation, close_route, mbind, tx_bind, modify.
  match goal with |- context [_append_change _ _ _ _ ?s1] => destruct (append_change_frame _ _ _ _ s s1 n s0 eq_refl Ha) as (s1' & ->) end.
  by eexists.
Qed.

Definition named_in (l : list message) (m : message) : bool := existsb (λ x, mg_id x == mg_id m) l.

Lemma recover_rows s now l : chat_ok s → NoDup (map mg_id l) → (∀ m, m ∈ l → m ∈ messages s ∧ is_orphan m = true) →
  ∃ s', for_each (recover_row now) l s = Ok (tt, s') ∧ messages s' = update (named_in l) (restarted now) (messages s).
Proof.
  revert s. induction l as [|m l IH]; intros s Hs Hn Hl; simpl.
  - exists s. split; [done|]. by rewrite update_id.
  - apply NoDup_cons in Hn as [Hnin Hn]. destruct (Hl m) as [Hm Ho]; [by left|].
    destruct (recover_row_runs s m now Hs Hm) as (s1 & H1). rewrite (bind_run _ _ _ _ _ H1).
    destruct (recover_row_turns (λ _, True) m now s tt s1 Hs Hm Ho I H1) as [Ht Em].
    destruct (IH s1) as (s' & -> & Em').
    + by eapply ok_turns.
    + done.
    + intros x Hx. destruct (Hl x) as [Hxm Hxo]; [by right|]. split; [|done]. rewrite Em. apply elem_of_revised; [done|done|].
      right. split; [done|]. intros E. apply Hnin. rewrite <- E. by apply list_elem_of_fmap_2.
    + exists s'. split; [done|]. rewrite Em', Em. unfold update. rewrite map_map. apply map_ext_in. intros x Hx%list_elem_of_In.
      simpl. assert ((mg_id m == mg_id x) = is_message (mg_id m) x) as Eb by by apply bool_decide_ext.
      fold (named_in l x). rewrite Eb. destruct (is_message (mg_id m) x) eqn:E; [|done]. apply is_message_spec in E. simpl.
      rewrite (same_id s x m Hs Hx Hm E). destruct (named_in l _) eqn:Ec; [|done]. exfalso. apply Hnin.
      apply existsb_exists in Ec as (y & Hy%list_elem_of_In & Hyi%eqb_true). cbn in Hyi. rewrite <- Hyi. by apply list_elem_of_fmap_2.
Qed.

Lemma for_each_increments l now s : ∃ s', for_each (λ kv, _increment_diagnostics kv.1 [("magi_messages_failed", kv.2)] now) l s = Ok (tt, s') ∧
  messages s' = messages s.
Proof.
  revert s. induction l as [|[o k] l IH]; intros s; simpl; [by exists s|].
  destruct (increment_runs o [("magi_messages_failed", k)] now s) as (s1 & H1); [done|done|]. rewrite (bind_run _ _ _ _ _ H1).
  destruct (IH s1) as (s' & -> & E). exists s'. split; [done|]. rewrite E. by apply increment_tables in H1 as (_ & ? & _).
Qed.

(** C40. After a restart of the process the recovery of interrupted attempts
    always succeeds: exactly the answers that were pending become failed, with
    the same attempt number and a retryable error, no answer is left pending,
    and every other row stays as it was. *)
Theorem restart_recovers s now :
  chat_reachable s →
  ∃ s', recover_orphaned_pending now s = Ok (count is_orphan (messages s), s') ∧
    messages s' = update is_orphan (restarted now) (messages s) ∧
    (∀ m, m ∈ messages s' → mg_status m ≠ pending).
Proof.
  intros Hs%chat_reachable_ok. unfold recover_orphaned_pending, mbind at 1, tx_bind at 1, read at 1. cbv beta iota.
  destruct (recover_rows s now (select is_orphan (messages s)) Hs) as (s1 & H1 & E1).
  { apply NoDup_map_select, Hs. }
  { by intros m [? ?]%elem_of_select. }
  rewrite (bind_run _ _ _ _ _ H1).
  destruct (for_each_increments (owner_counts (select is_orphan (messages s))) now s1) as (s2 & H2 & E2).
  rewrite (bind_run _ _ _ _ _ H2).
  assert (messages s2 = update is_orphan (restarted now) (messages s)) as E.
  { rewrite E2, E1. apply map_ext_in. intros x Hx%list_elem_of_In. destruct (named_in _ x) eqn:En.
    - apply existsb_exists in En as (y & [Hy Hyo]%list_elem_of_In%elem_of_select & Hyi%eqb_true).
      rewrite (same_id s y x Hs Hy Hx Hyi) in Hyo. by rewrite Hyo.
    - destruct (is_orphan x) eqn:Eo; [|done]. exfalso. apply (not_true_iff_false (named_in (select is_orphan (messages s)) x)); [done|].
      apply existsb_exists. exists x. split; [by apply list_elem_of_In, elem_of_select|]. by apply eqb_refl. }
  eexists. split; [reflexivity|]. split; [done|]. rewrite E. intros m (x & Hx & ->)%elem_of_update.
  destruct (is_orphan x) eqn:Eo; [done|]. intros Hp. unfold is_orphan in Eo. rewrite Hp, eqb_refl, andb_true_r in Eo. apply eqb_false in Eo.
  assert (mg_role x = RoleUser) as Hr by (by destruct (mg_role x)). rewrite (ck_user _ Hs x Hx Hr) in Hp. done.
Qed.
(** ** Owners *)

Definition owner_is (u : string) (m : message) : bool := mg_owner m == u.
(** What user [u] can see of a store. *)
Record same_view (u : string) (s s' : chat_db) : Prop := {
  sv_messages : select (owner_is u) (messages s') = select (owner_is u) (messages s);
  sv_conversations : select (λ c, cv_owner c == u) (conversations s') = select (λ c, cv_owner c == u) (conversations s);
  sv_bindings : select (λ g, gm_owner g == u) (bindings s') = select (λ g, gm_owner g == u) (bindings s);
  sv_changes : ∀ c, owner_of s c u → select (of_conversation c) (message_changes s') = select (of_conversation c) (message_changes s);
}.

Lemma view_owner u s s' c : same_view u s s' → owner_of s c u ↔ owner_of s' c u.
Proof.
  intros Hv. assert (∀ s, owner_of s c u ↔ ∃ x, x ∈ select (λ c, cv_owner c == u) (conversations s) ∧ cv_id x = c) as E.
  { intros t. unfold owner_of, owned_by. split.
    - intros (x & Hx & Hc & Ho). exists x. split; [|done]. apply elem_of_select. by rewrite bool_decide_eq_true.
    - intros (x & [Hx Ho%eqb_true]%elem_of_select & Hc). by exists x. }
  by rewrite !E, (sv_conversations _ _ _ Hv).
Qed.

Instance same_view_preorder u : PreOrder (same_view u).
Proof.
  split; [by split|]. intros a b c Hab Hbc. split.
  - by rewrite (sv_messages _ _ _ Hbc), (sv_messages _ _ _ Hab).
  - by rewrite (sv_conversations _ _ _ Hbc), (sv_conversations _ _ _ Hab).
  - by rewrite (sv_bindings _ _ _ Hbc), (sv_bindings _ _ _ Hab).
  - intros x Hx. rewrite (sv_changes _ _ _ Hbc); [by apply (sv_changes _ _ _ Hab)|]. by apply (view_owner u a b x Hab).
Qed.

(** Changes announced in another owner's conversation. *)
Lemma announce_other c ms now t : (∀ m, m ∈ ms → mg_conversation m ≠ c) → select (of_conversation c) (announce ms now t) = select (of_conversation c) t.
Proof.
  intros Hm. destruct (announce_app ms now t) as (cs & -> & Hcs). unfold select. rewrite List.filter_app.
  assert (List.filter (of_conversation c) cs = []) as ->; [|by rewrite app_nil_r].
  induction Hcs as [|m r ms cs (_ & Hc & _) Hcs IH]; simpl; [done|]. unfold of_conversation at 1. rewrite Hc.
  assert ((mg_conversation m == c) = false) as -> by (apply eqb_neq, Hm; by left). apply IH. intros x Hx. apply Hm. by right.
Qed.

Lemma turn_view P u s s' : chat_ok s → turn P s s' → ¬ P u → same_view u s s'.
Proof.
  intros Hs Ht Hu. assert (∀ o, P o → (o == u) = false) as Hne by (intros o Ho; apply eqb_neq; congruence).
  assert (∀ c o, P o → owner_of s c o → ¬ owner_of s c u) as Hoth.
  { intros c o Ho Hco Hcu. rewrite (owner_unique s c u o Hs Hcu Hco) in Hu. done. }
  destruct Ht as [s' E1 E2 E3 E4|c now (x & Hx & <- & Ho)|owner fresh now Ho c Hf|
    c owner u0 a now Ho Hc Uc Uo Ur Us Uv Ut Uq Ac Ao|c owner a g now Ho Hc Ac Ao Ar As Av At Aq Acl Hfa Hfg Go|m m' now Hm Ho Hr].
  - split; by rewrite ?E1, ?E2, ?E3, ?E4.
  - split; cbn; try done. apply select_update_other. intros y Hy E%eqb_true.
    rewrite (NoDup_key_inj cv_id _ y x (ck_conversations _ Hs) Hy Hx E). cbn. by rewrite (Hne _ Ho).
  - split; cbn; try done. rewrite select_app. cbn. by rewrite (Hne _ Ho), app_nil_r.
  - split; cbn; try done.
    + rewrite select_app. cbn. unfold owner_is. by rewrite Uo, Ao, (Hne _ Ho), app_nil_r.
    + intros c' Hc'. apply announce_other. intros m [->| ->%list_elem_of_singleton]%elem_of_cons; rewrite ?Uc, ?Ac; intros ->; by eapply Hoth.
  - split; cbn; try done.
    + rewrite select_app. cbn. unfold owner_is. by rewrite Ao, (Hne _ Ho), app_nil_r.
    + rewrite select_app. cbn. by rewrite Go, (Hne _ Ho), app_nil_r.
    + intros c' Hc'. apply announce_other. intros m ->%list_elem_of_singleton. rewrite Ac. intros ->. by eapply Hoth.
  - pose proof (identity_fields _ _ (rv_identity _ _ Hr)) as (_ & Ec & Eo & _). split; cbn; try done.
    + apply select_update_other. intros y Hy E%is_message_spec. rewrite (same_id s y m Hs Hy Hm E). unfold owner_is. by rewrite Eo, (Hne _ Ho).
    + intros c' Hc'. apply announce_other. intros x ->%list_elem_of_singleton. rewrite Ec. intros <-.
      exact (Hoth _ _ Ho (ck_owner _ Hs m Hm) Hc').
Qed.

Lemma turns_view P u s s' : turns P s s' → chat_ok s → ¬ P u → same_view u s s'.
Proof.
  induction 1 as [|s s1 s2 H1 _ IH]; intros Hs Hu; [done|]. etransitivity; [by eapply turn_view|]. apply IH; [by eapply ok_turn|done].
Qed.

(** The value a read returns. *)
Definition answer {A} (m : chat A) (s : chat_db) : res chat_error A := (commit m s).1.

(** Lookups of [u]'s rows. *)
Section Reads.
Context (u : string) (s s' : chat_db) (Hv : same_view u s s').

Lemma read_message p : (∀ m, p m = true → mg_owner m = u) → fetchone p (messages s') = fetchone p (messages s).
Proof.
  intros Hp. assert (∀ m, p m = true → owner_is u m = true) as Hp' by (intros m Hm; unfold owner_is; rewrite (Hp m Hm); apply eqb_refl).
  by rewrite (fetchone_within p _ (messages s') Hp'), (fetchone_within p _ (messages s) Hp'), (sv_messages _ _ _ Hv).
Qed.

Lemma read_messages p : (∀ m, p m = true → mg_owner m = u) → select p (messages s') = select p (messages s).
Proof.
  intros Hp. assert (∀ m, p m = true → owner_is u m = true) as Hp' by (intros m Hm; unfold owner_is; rewrite (Hp m Hm); apply eqb_refl).
  by rewrite (select_within p _ (messages s') Hp'), (select_within p _ (messages s) Hp'), (sv_messages _ _ _ Hv).
Qed.

Lemma read_conversation c : fetchone (is_conversation u c) (conversations s') = fetchone (is_conversation u c) (conversations s).
Proof.
  assert (∀ x, is_conversation u c x = true → (cv_owner x == u) = true) as Hp by (intros x Hx; unfold is_conversation in Hx; by apply andb_true_iff in Hx as [_ ?]).
  by rewrite (fetchone_within _ _ (conversations s') Hp), (fetchone_within _ _ (conversations s) Hp), (sv_conversations _ _ _ Hv).
Qed.

Lemma read_binding k : fetchone (is_binding u k) (bindings s') = fetchone (is_binding u k) (bindings s).
Proof.
  assert (∀ x, is_binding u k x = true → (gm_owner x == u) = true) as Hp by (intros x Hx; unfold is_binding in Hx; by apply andb_true_iff in Hx as [? _]).
  by rewrite (fetchone_within _ _ (bindings s') Hp), (fetchone_within _ _ (bindings s) Hp), (sv_bindings _ _ _ Hv).
Qed.
End Reads.

Ltac run_read := unfold answer, commit, _submission_rows, _generated_row, _conversation_row, require, mbind, tx_bind, read, lift, of_option, mret, tx_ret; cbv beta iota.

Lemma view_submission u s s' client : same_view u s s' → answer (submission u client) s' = answer (submission u client) s.
Proof.
  intros Hv. unfold submission. run_read.
  rewrite (read_message u s s' Hv (is_submission u client)) by (intros m Hm; unfold is_submission in Hm; by bools).
  destruct (fetchone (is_submission u client) (messages s)) as [x|]; [|done]. cbv beta iota.
  rewrite (read_message u s s' Hv (is_answer u x)) by (intros m Hm; unfold is_answer in Hm; by bools).
  destruct (fetchone (is_answer u x) (messages s)) as [a|]; [|done]. cbv beta iota. rewrite (read_conversation u s s' Hv). by destruct (fetchone _ _).
Qed.

Lemma view_generated u s s' key : same_view u s s' → answer (generated_assistant u key) s' = answer (generated_assistant u key) s.
Proof.
  intros Hv. unfold generated_assistant. run_read. rewrite (read_binding u s s' Hv).
  destruct (fetchone (is_binding u key) (bindings s)) as [g|]; [|done]. cbv beta iota.
  rewrite (read_message u s s' Hv (is_assistant u (gm_message g))) by (intros m Hm; unfold is_assistant in Hm; by bools).
  destruct (fetchone (is_assistant u (gm_message g)) (messages s)) as [a|]; [|done]. cbv beta iota. rewrite (read_conversation u s s' Hv). by destruct (fetchone _ _).
Qed.

Lemma view_context u s s' c m limit : same_view u s s' → answer (context_before u c m limit) s' = answer (context_before u c m limit) s.
Proof.
  intros Hv. unfold context_before. run_read. destruct (ensure _ _); [|done]. cbv beta iota. rewrite (read_conversation u s s' Hv).
  destruct (fetchone (is_conversation u c) (conversations s)); [|done]. cbv beta iota.
  rewrite (read_message u s s' Hv (is_user u m)) by (intros x Hx; unfold is_user in Hx; by bools).
  destruct (fetchone (is_user u m) (messages s)) as [x|]; [|done]. cbv beta iota.
  by rewrite (read_messages u s s' Hv) by (intros y Hy; by bools).
Qed.

Lemma view_changes u s s' c p : same_view u s s' → owner_of s c u →
  select (λ r, of_conversation c r && p r) (message_changes s') = select (λ r, of_conversation c r && p r) (message_changes s) ∧
  latest_message_change s' c = latest_message_change s c.
Proof.
  intros Hv Ho. pose proof (sv_changes _ _ _ Hv c Ho) as E. split; [by rewrite !select_and, E|].
  unfold latest_message_change. f_equal. assert (∀ t, max_of mc_sequence (of_conversation c) t = max_of mc_sequence (λ _, true) (select (of_conversation c) t)) as Hm.
  { unfold select. induction t as [|x t IH]; simpl; [done|]. destruct (of_conversation c x); simpl; by rewrite IH. }
  by rewrite !Hm, E.
Qed.

Lemma view_replay u s s' c after limit : same_view u s s' → answer (replay u c after limit) s' = answer (replay u c after limit) s.
Proof.
  intros Hv. unfold replay. run_read. destruct (ensure _ _); [|done]. cbv beta iota. rewrite (read_conversation u s s' Hv).
  destruct (fetchone (is_conversation u c) (conversations s)) as [cv|] eqn:Ecv; [|done]. cbv beta iota.
  assert (owner_of s c u) as Ho by (apply fetchone_some in Ecv as [? Hc]; unfold is_conversation in Hc; bools; by exists cv).
  destruct (view_changes u s s' c (λ r, after <? mc_sequence r) Hv Ho) as [-> El].
  assert (∀ l, map_res (replay_change u s') l = map_res (replay_change u s) l) as ->.
  { induction l as [|r l IH]; simpl; [done|]. rewrite IH. unfold replay_change.
    by rewrite (read_message u s s' Hv) by (intros m [_ Hm%eqb_true]%andb_true_iff; done). }
  destruct (map_res _ _); [|done]. cbv beta iota. by rewrite El.
Qed.

(** Isolation: whatever an operation does for other owners, every read of
    owner [u] (a submission, a generated message, the context of a turn, a
    page of changes) returns what it returned before. *)
Theorem tenant_isolation s o u :
  chat_reachable s → ¬ acts_for o u →
  let s' := (chat_step o s).2 in
  (∀ client, answer (submission u client) s' = answer (submission u client) s) ∧
  (∀ key, answer (generated_assistant u key) s' = answer (generated_assistant u key) s) ∧
  (∀ c m limit, answer (context_before u c m limit) s' = answer (context_before u c m limit) s) ∧
  (∀ c after limit, answer (replay u c after limit) s' = answer (replay u c after limit) s).
Proof.
  intros Hs%chat_reachable_ok Hu s'. pose proof (turns_view _ u _ _ (chat_step_turns o s Hs) Hs Hu) as Hv. fold s' in Hv. clearbody s'.
  split_and!; intros; [by apply view_submission|by apply view_generated|by apply view_context|by apply view_replay].
Qed.

(** ** Attachments *)

(** Objects whose keys are in increasing order, as [sort_keys] leaves them. *)
Fixpoint increasing (ks : list string) : bool :=
  match ks with k :: (k' :: _) as ks' => String.ltb k k' && increasing ks' | _ => true end.
Fixpoint sorted_json (j : json) : bool :=
  match j with
  | JList l => forallb sorted_json l
  | JObj d => increasing (keys d) && forallb (λ kv, sorted_json kv.2) d
  | _ => true
  end.

(** What the store relies on from [json]: reading back what was written, and
    that the empty text is not JSON. *)
Definition json_laws : Prop := (∀ j t, sorted_json j = true → dumps j = Some t → loads t = Some j) ∧ loads "" = None.

Lemma attachment_record_again j r : attachment_record j = Ok r → attachment_record r = Ok r ∧ sorted_json r = true.
Proof.
  unfold attachment_record. intros Hr. apply res_bind_ok in Hr as (d & _ & Hr).
  destruct (get "upload_id" d) as [| | | |upload| |]; try done. destruct (match assoc "filename" d with Some v => v | None => _ end) as [| | | |name| |]; try done.
  destruct (get "media_type" d) as [| | | |media| |]; try done. destruct (as_int (get "size" d)) as [size|]; [|done].
  apply res_bind_ok in Hr as (u & Hu & [= <-]). split; [|done].
  transitivity (ensure (valid_attachment upload name media size) ChatValueError ≫= λ _ : (),
    Ok (JObj [("id", JStr upload); ("media_type", JStr media); ("name", JStr name); ("size", JInt size);
              ("upload_id", JStr upload); ("url", JStr ("/api/v1/uploads/" +:+ upload))])); [reflexivity|by rewrite Hu].
Qed.

(** Round trip: the attachments a message was stored with are read back as
    the same canonical records. *)
Theorem attachments_roundtrip l raw :
  json_laws → _attachment_json l = Ok raw → ∃ rs, _canonical_attachment_records l = Ok rs ∧ _decode_attachments raw = rs.
Proof.
  intros [Hl He] Hj. apply res_bind_ok in Hj as (rs & Hrs & Hd%of_option_ok). exists rs. split; [done|].
  apply res_bind_ok in Hrs as (u & Hn & Hm). apply ensure_ok in Hn.
  assert (map_res attachment_record rs = Ok rs ∧ forallb sorted_json rs = true ∧ length rs = length l) as (Hagain & Hs & Hlen).
  { clear -Hm. revert rs Hm. induction l as [|j l IH]; intros rs Hm; simpl in Hm; [by injection Hm as <-|].
    apply res_bind_ok in Hm as (r & Hr & Hm). apply res_bind_ok in Hm as (rs' & Hm & [= <-]).
    destruct (IH rs' Hm) as (H1 & H2 & H3). apply attachment_record_again in Hr as [Hr Hrs]. simpl. by rewrite Hr, H1, Hrs, H2, H3. }
  pose proof (Hl (JList rs) raw Hs Hd) as Hload. unfold _decode_attachments. rewrite (eqb_neq raw "") by congruence. rewrite Hload. simpl.
  unfold _canonical_attachment_records. by rewrite Hlen, Hn, Hagain.
Qed.

(** ** Refinement *)

(** C4. Refinement: from any reachable store every operation is a sequence of
    [turn]s of its contract, for owners it may act for. *)
Theorem chat_refines s o : chat_reachable s → rtc (turn (acts_for o)) s (chat_step o s).2.
Proof. intros Hs%chat_reachable_ok. by apply chat_step_turns. Qed.
End Claims.
