(* ===== verification/ChatWitness.v ===== *)
(** * The chat store on concrete inputs

    A codec that writes one list of attachments, two users, and runs of the
    store that meet the hypotheses of its theorems. *)

From stdpp Require Import base option list strings numbers sets relations.
From Stdlib Require Import ZArith Lia.
From S2P Require Import Prelude Sql Feed Json Text Chat ChatInvariant ChatSteps ChatTheorems ChatOwners.

Open Scope string_scope.
Open Scope list_scope.
Open Scope Z_scope.

Definition upload : string := "upload_0123456789".
Definition upload_url : string := "/api/v1/uploads/upload_0123456789".
Definition attachment : json :=
  JObj [("upload_id", JStr upload); ("filename", JStr "notes.txt"); ("media_type", JStr "text/plain"); ("size", JInt 12)].
Definition stored_attachment : json :=
  JObj [("id", JStr upload); ("media_type", JStr "text/plain"); ("name", JStr "notes.txt"); ("size", JInt 12);
        ("upload_id", JStr upload); ("url", JStr upload_url)].

(** Writes the empty list and [stored_attachment] alone, and reads them back. *)
Definition chat_dumps (j : json) : option string :=
  match j with
  | JList [] => Some "[]"
  | JList [JObj [(k1, JStr a); (k2, JStr b); (k3, JStr c); (k4, JInt n); (k5, JStr d); (k6, JStr e)]] =>
      if ((k1 == "id") && (k2 == "media_type") && (k3 == "name") && (k4 == "size") && (k5 == "upload_id") && (k6 == "url")) &&
         ((a == upload) && (b == "text/plain") && (c == "notes.txt") && (n =? 12) && (d == upload) && (e == upload_url))
      then Some "[1]" else None
  | _ => None
  end.
#[export] Instance chat_codec : Codec :=
  {| sha256_hex := λ s, s; dumps := chat_dumps;
     loads := λ s, if s == "[]" then Some (JList []) else if s == "[1]" then Some (JList [stored_attachment]) else None;
     utf8_length := str_len |}.

Lemma chat_codec_laws : json_laws.
Proof.
  split; [|done]. intros j t _. unfold dumps, chat_codec, chat_dumps.
  repeat (case_match; try discriminate); intros [= <-]; subst; [done|].
  bools. subst. done.
Qed.

Definition ids (n : string) : fresh_ids :=
  {| new_conversation := "mgc_" +:+ n; new_turn := "mgt_" +:+ n; new_user := "mgu_" +:+ n; new_assistant := "mga_" +:+ n |}.
Definition hello : chat_op := CPrepare 1 (ids "1") "u1" "c1" "hello" None "text" [attachment] false.
Definition other : chat_op := CPrepare 2 (ids "2") "u2" "c1" "hi" None "voice" [] false.

Definition after (ops : list chat_op) : chat_db := (chat_run ops empty_chat).2.
Definition st_asked : chat_db := after [hello; other].
Definition st_answered : chat_db := after [hello; other; CComplete 3 "u1" "mga_1" 1 "Hello!" 20 1].
Definition st_failed : chat_db := after [hello; other; CFail 3 "u1" "mga_1" 1 "timeout" 0].
Definition st_retried : chat_db := after [hello; other; CFail 3 "u1" "mga_1" 1 "timeout" 0;
  CPrepare 4 (ids "3") "u1" "c1" "hello" None "text" [attachment] true].

Lemma st_asked_reachable : chat_reachable st_asked.
Proof. exists [hello; other]. unfold st_asked, after. reflexivity. Qed.
Lemma st_failed_reachable : chat_reachable st_failed.
Proof. exists [hello; other; CFail 3 "u1" "mga_1" 1 "timeout" 0]. unfold st_failed, after. reflexivity. Qed.
Lemma retried_later : chat_later st_failed st_retried.
Proof. exists [CPrepare 4 (ids "3") "u1" "c1" "hello" None "text" [attachment] true]. vm_compute. reflexivity. Qed.

Definition prepared_of (r : res chat_error (prepared * chat_db)) : option prepared := match r with Ok (p, _) => Some p | Err _ => None end.

Lemma restart_recovers_witness :
  ∃ s', recover_orphaned_pending 7 st_asked = Ok (2, s') ∧ ∀ m, m ∈ messages s' → mg_status m ≠ pending.
Proof.
  destruct (restart_recovers st_asked 7 st_asked_reachable) as (s' & H1 & _ & H2). exists s'. split; [|exact H2].
  replace 2 with (count is_orphan (messages st_asked)) by (vm_compute; reflexivity). exact H1.
Defined.

Lemma chat_refines_witness : rtc (turn (acts_for (CRecover 6))) st_asked (chat_step (CRecover 6) st_asked).2.
Proof. exact (chat_refines st_asked (CRecover 6) st_asked_reachable). Defined.
