(* ===== verification/Routing.v ===== *)
(** * Model routing ([gateway/app/magi_routing.py])

    The router admits a model call against the budget of its owner, orders the
    candidates that can serve it, and tries them until one answers. The ledger
    [magi_model_routes] holds one row per attempt: reserved before the call,
    settled after it.

    The provider is code behind HTTP: an attempt is given its outcome. Between
    two transactions of a request the other tasks of the gateway commit
    theirs, which are arguments as well. The regular expressions of
    [classify_turn] and [json.dumps] are parameters. *)

From stdpp Require Import base option list strings numbers sets.
From Stdlib Require Import ZArith Lia.
From S2P Require Import Prelude Sql Feed PyFloat Calendar Order.

Open Scope string_scope.
Open Scope list_scope.
Open Scope Z_scope.

(** ** Model calls *)

Record MagiModelUsage := { input_tokens : Z; output_tokens : Z; cached_input_tokens : Z }.
Record MagiModelToolCall := { call_id : string; call_name : string; arguments_json : string }.
(** [size] is [len(attachment.content)]. *)
Record MagiModelMessage := {
  msg_content : option string; msg_tool_calls : list MagiModelToolCall; msg_attachment_sizes : list Z;
}.
Record MagiModelResult := {
  res_text : option string; res_finish_reason : string; res_tool_calls : list MagiModelToolCall;
  res_usage : option MagiModelUsage;
}.
Record MagiModelError := {
  me_code : string; me_retryable : bool; me_tool_calls : Z; me_billing_uncertain : bool;
}.
(** [MagiModelError(code, retryable=False)] *)
Definition refusal (code : string) : MagiModelError := Build_MagiModelError code false 0 false.

Inductive RouteCategory :=
| DIRECT_CONVERSATION | READ_ONLY_INVESTIGATION | EXECUTION | DECISION_RESPONSE | HIGH_IMPACT_ACTION.
#[export] Instance RouteCategory_eq_dec : EqDecision RouteCategory.
Proof. solve_decision. Defined.

Definition _REASONING_REQUIRED (c : RouteCategory) : Z :=
  match c with
  | DIRECT_CONVERSATION => 1 | READ_ONLY_INVESTIGATION => 2
  | EXECUTION => 3 | DECISION_RESPONSE => 3 | HIGH_IMPACT_ACTION => 4
  end.

Record ModelRouteContext := {
  rc_owner : string; rc_category : RouteCategory; rc_permission : bool; rc_confirmation : bool;
  rc_context_tokens : Z; rc_tools : bool; rc_multimodal : bool;
  rc_preferred_provider : option string; rc_preferred_model : option string;
}.

Inductive billing_mode := metered | subscription | credits.
#[export] Instance billing_mode_eq_dec : EqDecision billing_mode.
Proof. solve_decision. Defined.

Record ModelCandidate := {
  mo_id : string; mo_provider : string; mo_model : string; mo_credential_env : string;
  mo_class : string; mo_reasoning : Z; mo_context_tokens : Z; mo_tools : bool; mo_multimodal : bool;
  mo_reliability : Decimal; mo_latency : Z; mo_input_price : Z; mo_output_price : Z; mo_cached_price : Z;
  mo_billing : billing_mode; mo_credits : option Z; mo_enabled : bool; mo_available : bool; mo_safety : Z;
}.

(** [max(0, (numerator + 999_999) // 1_000_000)] *)
Definition per_million (numerator : Z) : Z := Z.max 0 ((numerator + 999999) / 1000000).

Definition estimated_cost (c : ModelCandidate) (inputs outputs : Z) : Z :=
  per_million (Z.max 0 inputs * mo_input_price c + Z.max 0 outputs * mo_output_price c).

Definition actual_cost (c : ModelCandidate) (u : MagiModelUsage) : Z :=
  let paid_input := Z.max 0 (input_tokens u - cached_input_tokens u) in
  per_million (paid_input * mo_input_price c + cached_input_tokens u * mo_cached_price c + output_tokens u * mo_output_price c).

Record RoutingPolicy := {
  po_monthly_budget : Z; po_request_budget : Z; po_output_tokens : Z; po_min_reliability : Decimal;
  po_retries : Z; po_fallback_cost : Z;
}.

(** The candidates, the policy, the provider names with a factory and the
    candidate ids with a ready provider. *)
Record RoutedMagiModel := {
  ro_candidates : list ModelCandidate; ro_policy : RoutingPolicy;
  ro_factories : list string; ro_providers : list string;
}.

(** ** The route ledger *)

Inductive route_state := route_reserved | route_succeeded | route_failed.
#[export] Instance route_state_eq_dec : EqDecision route_state.
Proof. solve_decision. Defined.

Record ModelRoute := {
  rt_id : string; rt_owner : string; rt_request : string; rt_category : RouteCategory;
  rt_provider : string; rt_model : string; rt_class : string; rt_ordinal : Z; rt_fallback : option string;
  rt_state : route_state; rt_estimated : Z; rt_actual : option Z; rt_charge : Z;
  rt_input : option Z; rt_output : option Z; rt_error : option string; rt_created : Z; rt_updated : Z;
}.
#[export] Instance ModelRoute_settable : Settable ModelRoute :=
  λ r, Build_ModelRoute (rt_id r) (rt_owner r) (rt_request r) (rt_category r) (rt_provider r) (rt_model r) (rt_class r)
    (rt_ordinal r) (rt_fallback r) (rt_state r) (rt_estimated r) (rt_actual r) (rt_charge r) (rt_input r) (rt_output r)
    (rt_error r) (rt_created r) (rt_updated r).

Definition route_ledger := list ModelRoute.

(** The primary key and [UNIQUE(owner_user_id, request_id, attempt_ordinal)]. *)
Definition route_clash (a b : ModelRoute) : bool :=
  (rt_id a == rt_id b) || ((rt_owner a == rt_owner b) && (rt_request a == rt_request b) && (rt_ordinal a =? rt_ordinal b)).
(** The [CHECK] constraints on amounts; [NULL] passes a check. *)
Definition unsigned (o : option Z) : bool := match o with Some n => 0 <=? n | None => true end.
Definition route_checks (r : ModelRoute) : bool :=
  (0 <=? rt_estimated r) && unsigned (rt_actual r) && (0 <=? rt_charge r) && unsigned (rt_input r) && unsigned (rt_output r).

Inductive route_error := ModelError (e : MagiModelError) | RouteIntegrityError | RouteOverflowError | CancelledError.

Definition route_tx (A : Type) : Type := tx route_error route_ledger A.

Definition of_owner_since (owner : string) (since : Z) (r : ModelRoute) : bool :=
  (rt_owner r == owner) && (since <=? rt_created r).
Definition of_model (c : ModelCandidate) (r : ModelRoute) : bool :=
  (rt_provider r == mo_provider c) && (rt_model r == mo_model c).

(** [credits_spent]; every state is one of the three the query lists. *)
Definition credits_spent (c : ModelCandidate) (t : route_ledger) : Z := sum rt_charge (of_model c) t.

(** [reserve], with the clock and the random id as arguments. *)
Definition reserve (ctx : ModelRouteContext) (request_id : string) (c : ModelCandidate) (ordinal estimated budget : Z)
    (fallback_from : option string) (route_id : string) (now : Z) : route_tx string :=
  date ← lift (of_option RouteOverflowError (gmtime now));
  spent ← read (sum rt_charge (of_owner_since (rc_owner ctx) (month_start date)));
  require (negb (budget <? spent + estimated)) (ModelError (refusal "model_budget_exhausted"));;
  (match mo_credits c with
   | Some limit =>
       used ← read (credits_spent c);
       require (negb (limit <? used + estimated)) (ModelError (refusal "model_credits_exhausted"))
   | None => mret tt
   end);;
  t ← read id;
  let row := Build_ModelRoute route_id (rc_owner ctx) request_id (rc_category ctx) (mo_provider c) (mo_model c) (mo_class c)
    ordinal fallback_from route_reserved estimated None estimated None None None now now in
  require (route_checks row) RouteIntegrityError;;
  t' ← lift (of_option RouteIntegrityError (insert route_clash row t));
  modify (λ _, t');;
  mret route_id.

Definition open_route (route_id : string) (r : ModelRoute) : bool :=
  (rt_id r == route_id) && (rt_state r == route_reserved).

(** The row after [settle]'s update. *)
Definition settled (usage : option MagiModelUsage) (actual : option Z) (error : option MagiModelError) (charge now : Z)
    (r : ModelRoute) : ModelRoute :=
  r <| rt_state := match error with Some _ => route_failed | None => route_succeeded end |>
    <| rt_actual := actual |> <| rt_charge := charge |>
    <| rt_input := input_tokens <$> usage |> <| rt_output := output_tokens <$> usage |>
    <| rt_error := me_code <$> error |> <| rt_updated := now |>.

(** [settle] *)
Definition settle (route_id : string) (usage : option MagiModelUsage) (actual : option Z) (error : option MagiModelError)
    (uncertain_charge : bool) (now : Z) : route_tx unit :=
  found ← read (fetchone (open_route route_id));
  match found with
  | None => mret tt
  | Some row =>
      let charge := match actual with Some a => a | None => if uncertain_charge then rt_estimated row else 0 end in
      t ← read (update (open_route route_id) (settled usage actual error charge now));
      require (forallb route_checks (select (λ r, rt_id r == route_id) t)) RouteIntegrityError;;
      modify (λ _, t)
  end.

(** [reliability] *)
Definition reliability (t : route_ledger) (c : ModelCandidate) : Decimal :=
  let closed r := of_model c r && (rt_state r != route_reserved) in
  let total := count closed t in
  if total <? 5 then mo_reliability c
  else
    let successes := sum (λ r, if rt_state r == route_succeeded then 1 else 0) closed t in
    dec_min (mo_reliability c) (dec_div successes total).

(** ** Classification and estimates *)

Section Classify.
Context (high_impact read_only execution : string → bool).

Definition classify_turn (content : string) (command_authorized decision_bound : bool) : RouteCategory :=
  if decision_bound then DECISION_RESPONSE
  else if command_authorized && high_impact content then HIGH_IMPACT_ACTION
  else if command_authorized && read_only content then READ_ONLY_INVESTIGATION
  else if command_authorized && execution content then EXECUTION
  else DIRECT_CONVERSATION.
End Classify.

Definition len (s : string) : Z := Z.of_nat (String.length s).
Definition total {A} (f : A → Z) (l : list A) : Z := foldr (λ a n, f a + n) 0 l.

(** A tool is its description and the text of its parameters. *)
Definition _estimate_input_tokens (messages : list MagiModelMessage) (system_context : string)
    (tools : list (string * string)) : Z :=
  let characters := len system_context
    + total (λ m, len (default "" (msg_content m)) + total (λ t, len (arguments_json t)) (msg_tool_calls m)
                  + total (λ n, (n * 4 + 2) / 3) (msg_attachment_sizes m)) messages
    + total (λ t, len t.1 + len t.2) tools in
  Z.max 1 ((characters + 3) / 4).

(** ** Selection *)

Section Select.
Context (getenv : string → string).
Context (router : RoutedMagiModel).
Let policy := ro_policy router.

Definition credential_present (c : ModelCandidate) : bool :=
  negb (getenv (mo_credential_env c) == "") || listed (mo_id c) (ro_providers router).
Definition provider_registered (c : ModelCandidate) : bool :=
  listed (mo_provider c) (ro_factories router) || listed (mo_id c) (ro_providers router).

Definition estimate_of (n_inputs : Z) (c : ModelCandidate) : Z := estimated_cost c n_inputs (po_output_tokens policy).

(** The guards of the loop of [_eligible], in its order. *)
Definition admits (ctx : ModelRouteContext) (n_inputs : Z) (t : route_ledger) (c : ModelCandidate) : bool :=
  let required_safety := if rc_category ctx == HIGH_IMPACT_ACTION then 4 else 1 in
  let estimate := estimate_of n_inputs c in
  (mo_enabled c && mo_available c && credential_present c && provider_registered c) &&
  negb ((mo_reasoning c <? _REASONING_REQUIRED (rc_category ctx)) || (mo_safety c <? required_safety)) &&
  negb (mo_context_tokens c <? n_inputs + po_output_tokens policy) &&
  negb (rc_tools ctx && negb (mo_tools c)) &&
  negb (rc_multimodal ctx && negb (mo_multimodal c)) &&
  negb (dec_ltb (reliability t c) (po_min_reliability policy)) &&
  negb (match mo_credits c with Some limit => Z.max 0 (limit - credits_spent c t) <? estimate | None => false end) &&
  negb (po_request_budget policy <? estimate).

Definition preference (ctx : ModelRouteContext) (c : ModelCandidate) : Z :=
  if rc_preferred_model ctx == Some (mo_model c) then 0
  else if rc_preferred_provider ctx == Some (mo_provider c) then 1 else 2.
Definition marginal (item : ModelCandidate * Z) : Z := if mo_billing item.1 == subscription then 0 else item.2.

(** The sort key, compared as a tuple. *)
Definition route_compare (ctx : ModelRouteContext) (t : route_ledger) (x y : ModelCandidate * Z) : comparison :=
  lex (marginal x ?= marginal y)
  (lex (preference ctx x.1 ?= preference ctx y.1)
  (lex (dec_compare (dec_neg (reliability t x.1)) (dec_neg (reliability t y.1)))
  (lex (mo_latency x.1 ?= mo_latency y.1)
       (String.compare (mo_id x.1) (mo_id y.1))))).

Definition same_class (c : ModelCandidate) (item : ModelCandidate * Z) : bool := mo_class item.1 == mo_class c.

(** The capability class of the best candidate comes first. *)
Definition primary_first (items : list (ModelCandidate * Z)) : list (ModelCandidate * Z) :=
  match items with
  | [] => []
  | best :: _ => select (same_class best.1) items ++ select (λ i, negb (same_class best.1 i)) items
  end.

Definition _eligible (ctx : ModelRouteContext) (n_inputs : Z) (t : route_ledger) : list (ModelCandidate * Z) :=
  let eligible := map (λ c, (c, estimate_of n_inputs c)) (select (admits ctx n_inputs t) (ro_candidates router)) in
  primary_first (order_by (before (route_compare ctx t)) eligible).

(** ** The attempts of a request *)

(** How a provider call ends: a result, a [MagiModelError], another
    exception, or a cancelled task, which no [except] clause of the loop sees. *)
Inductive outcome :=
| Completed (r : MagiModelResult) | Refused (e : MagiModelError) | Crashed | Interrupted.

(** What an attempt meets: its clock readings, its random id, what the other
    tasks commit before its reservation and during its call, and the outcome. *)
Record surroundings := {
  su_before : route_ledger → route_ledger; su_during : route_ledger → route_ledger;
  su_reserved_at : Z; su_settled_at : Z; su_route_id : string; su_outcome : outcome;
}.

Context (world : Z → surroundings).
Context (ctx : ModelRouteContext) (request_id : string).

(** [_provider] raises for a provider without a factory. *)
Definition provide (c : ModelCandidate) (ordinal : Z) : outcome :=
  if provider_registered c then su_outcome (world ordinal) else Refused (refusal "provider_not_supported").

(** An error that ends the request at once. *)
Definition gives_up (e : MagiModelError) (estimate : Z) : bool :=
  negb (me_retryable e) || negb (me_tool_calls e =? 0) ||
  (me_billing_uncertain e && (po_fallback_cost policy <? estimate)).
Definition provider_failure : MagiModelError := Build_MagiModelError "provider_failure" true 0 true.

(** The state of the loop between two candidates. *)
Record progress := { pg_ordinal : Z; pg_fallback : option string; pg_last : option MagiModelError }.
(** The request ended, or the next candidate is tried. *)
Inductive verdict := Finished (r : res route_error MagiModelResult) | Exhausted (p : progress).

(** The settlement after a call, and what the loop does next. *)
Definition close (ordinal : Z) (route_id : string) (usage : option MagiModelUsage) (actual : option Z)
    (error : option MagiModelError) (uncertain : bool) (t : route_ledger) : res route_error unit * route_ledger :=
  commit (settle route_id usage actual error uncertain (su_settled_at (world ordinal))) t.

(** The body of a try once its row is reserved; [again] is the next retry, if
    one is left. *)
Definition call (again : option (progress → route_ledger → verdict * route_ledger)) (c : ModelCandidate) (estimate : Z)
    (p : progress) (ordinal : Z) (route_id : string) (t : route_ledger) : verdict * route_ledger :=
  match provide c ordinal with
  | Refused e =>
      let '(r, t) := close ordinal route_id None None (Some e) (me_billing_uncertain e) t in
      match r with
      | Err x => (Finished (Err x), t)
      | Ok _ =>
          if gives_up e estimate then (Finished (Err (ModelError e)), t)
          else match again with
               | Some retry => retry (Build_progress ordinal (pg_fallback p) (Some e)) t
               | None => (Exhausted (Build_progress ordinal (Some (mo_id c)) (Some e)), t)
               end
      end
  | Crashed =>
      let '(r, t) := close ordinal route_id None None (Some provider_failure) true t in
      (Finished (match r with Err x => Err x | Ok _ => Err (ModelError provider_failure) end), t)
  | Interrupted => (Finished (Err CancelledError), t)
  | Completed result =>
      let actual := actual_cost c <$> res_usage result in
      let uncertain := match res_usage result with None => true | Some _ => false end in
      let '(r, t) := close ordinal route_id (res_usage result) actual None uncertain t in
      (Finished (match r with Err x => Err x | Ok _ => Ok result end), t)
  end.

(** [for retry in range(retries)], with [left] retries to go. *)
Fixpoint try_candidate (left : nat) (c : ModelCandidate) (estimate : Z) (p : progress) (t : route_ledger) : verdict * route_ledger :=
  match left with
  | O => (Exhausted p, t)
  | S left' =>
      let ordinal := pg_ordinal p + 1 in
      let w := world ordinal in
      let '(reserved, t) := commit (reserve ctx request_id c ordinal estimate (po_monthly_budget policy) (pg_fallback p)
                                      (su_route_id w) (su_reserved_at w)) (su_before w t) in
      match reserved with
      | Err (ModelError e) =>
          if me_code e == "model_credits_exhausted"
          then (Exhausted (Build_progress ordinal (Some (mo_id c)) (Some e)), t)
          else (Finished (Err (ModelError e)), t)
      | Err e => (Finished (Err e), t)
      | Ok route_id =>
          let again := match left' with S _ => Some (try_candidate left' c estimate) | O => None end in
          call again c estimate p ordinal route_id (su_during w t)
      end
  end.

(** [for candidate_index, (candidate, estimate) in enumerate(candidates)] *)
Fixpoint try_candidates (index : nat) (candidates : list (ModelCandidate * Z)) (p : progress) (t : route_ledger)
    : res route_error MagiModelResult * route_ledger :=
  match candidates with
  | [] => (Err (ModelError (default (refusal "no_reliably_capable_model") (pg_last p))), t)
  | (c, estimate) :: rest =>
      if negb (Nat.eqb index 0) && (po_fallback_cost policy <? estimate) && negb (rc_confirmation ctx)
      then (Err (ModelError (refusal "route_fallback_confirmation_required")), t)
      else
        match try_candidate (Z.to_nat (po_retries policy + 1)) c estimate p t with
        | (Finished r, t) => (r, t)
        | (Exhausted p, t) => try_candidates (S index) rest p t
        end
  end.

Definition complete_routed (messages : list MagiModelMessage) (system_context : string) (tools : list (string * string))
    (t : route_ledger) : res route_error MagiModelResult * route_ledger :=
  if (rc_category ctx != DIRECT_CONVERSATION) && negb (rc_permission ctx)
  then (Err (ModelError (refusal "route_permission_required")), t)
  else if (rc_category ctx == HIGH_IMPACT_ACTION) && negb (rc_confirmation ctx)
  then (Err (ModelError (refusal "route_confirmation_required")), t)
  else
    let estimated_input := Z.max (rc_context_tokens ctx) (_estimate_input_tokens messages system_context tools) in
    match _eligible ctx estimated_input t with
    | [] => (Err (ModelError (refusal "no_reliably_capable_model")), t)
    | candidates => try_candidates 0 candidates (Build_progress 0 None None) t
    end.
End Select.

(** [complete]: the least-authority route of callers without a principal. *)
Definition system_route (tools : list (string * string)) : ModelRouteContext :=
  Build_ModelRouteContext "system" DIRECT_CONVERSATION true false 0 (negb (Nat.eqb (length tools) 0)) false None None.
