(* ===== verification/RoutingTheorems.v ===== *)
(** * Correctness of model routing

    The budget of a month bounds what the ledger charges to an owner whatever
    the order of reservations and settlements; the selection is the cheapest
    capable candidate first; a request leaves one closed row per attempt, its
    last one successful when the request answers. *)

From stdpp Require Import base option list sorting strings numbers sets.
From Stdlib Require Import ZArith Lia.
From S2P Require Import Prelude Sql Feed PyFloat Calendar Order Routing.

Open Scope string_scope.
Open Scope list_scope.
Open Scope Z_scope.

(** ** Costs *)

Lemma per_million_mono a b : a ≤ b → per_million a ≤ per_million b.
Proof. intros H. unfold per_million. apply Z.max_le_compat_l, Z.div_le_mono; lia. Qed.

Lemma per_million_nonneg n : 0 ≤ per_million n.
Proof. unfold per_million. lia. Qed.

(** A usage within the estimated tokens, at prices that do not charge more for
    a cached token than for a fresh one. *)
Record usage_within (c : ModelCandidate) (inputs outputs : Z) (u : MagiModelUsage) : Prop := {
  uw_input : input_tokens u ≤ inputs;
  uw_cached : 0 ≤ cached_input_tokens u ≤ input_tokens u;
  uw_output : 0 ≤ output_tokens u ≤ outputs;
  uw_prices : 0 ≤ mo_cached_price c ≤ mo_input_price c ∧ 0 ≤ mo_output_price c;
}.

(** The actual cost of a call does not exceed the estimate reserved for
    it when the provider reports no more tokens than were estimated, of which
    the cached ones are a part that is not dearer. *)
Theorem cost_within_estimate c inputs outputs u :
  usage_within c inputs outputs u → 0 ≤ actual_cost c u ≤ estimated_cost c inputs outputs.
Proof.
  intros [Hi Hc Ho [Hp Hq]]. split; [apply per_million_nonneg|].
  apply per_million_mono. rewrite (Z.max_r 0 (_ - _)), (Z.max_r 0 inputs), (Z.max_r 0 outputs) by lia. nia.
Qed.

(** ** The ledger *)

Record routes_wf (t : route_ledger) : Prop := {
  rw_ids : NoDup (map rt_id t);
  rw_checks : Forall (λ r, route_checks r = true) t;
}.

(** A reservation appends the row of its attempt. *)
Definition reservation_row (ctx : ModelRouteContext) (request_id : string) (c : ModelCandidate) (ordinal estimated : Z)
    (fallback_from : option string) (route_id : string) (now : Z) : ModelRoute :=
  Build_ModelRoute route_id (rc_owner ctx) request_id (rc_category ctx) (mo_provider c) (mo_model c) (mo_class c)
    ordinal fallback_from route_reserved estimated None estimated None None None now now.

Lemma reserve_spec ctx rq c n est budget fb id now t x t' :
  reserve ctx rq c n est budget fb id now t = Ok (x, t') →
  let row := reservation_row ctx rq c n est fb id now in
  x = id ∧ t' = t ++ [row] ∧ route_checks row = true ∧ (∀ r, r ∈ t → route_clash row r = false) ∧
  ∃ date, gmtime now = Some date ∧ sum rt_charge (of_owner_since (rc_owner ctx) (month_start date)) t + est ≤ budget.
Proof.
  unfold reserve. intros H. tx_inv.
  all: match goal with H : insert _ _ _ = Some _ |- _ => apply insert_some in H as [-> Hf] end.
  all: bools; split_and!; eauto with lia.
Qed.

Lemma settle_ok id u a e unc now t x t' :
  settle id u a e unc now t = Ok (x, t') →
  (t' = t ∧ fetchone (open_route id) t = None) ∨
  (∃ row, fetchone (open_route id) t = Some row ∧
     t' = update (open_route id) (settled u a e (match a with Some n => n | None => if unc then rt_estimated row else 0 end) now) t ∧
     forallb route_checks (select (λ r, rt_id r == id) t') = true).
Proof. unfold settle. intros H. tx_inv; eauto 10. Qed.

Lemma open_route_id id r : open_route id r = true → rt_id r = id ∧ rt_state r = route_reserved.
Proof. unfold open_route. intros H. by bools. Qed.

Lemma reserve_wf ctx rq c n est budget fb id now : preserves routes_wf (reserve ctx rq c n est budget fb id now).
Proof.
  intros t x t' [Hi Hc] (_ & -> & Hk & Hf & _)%reserve_spec. split.
  - rewrite map_app. apply NoDup_app. split; [done|]. split; [|apply NoDup_singleton].
    intros i (r & -> & Hr)%list_elem_of_fmap E%list_elem_of_singleton.
    specialize (Hf r Hr). unfold route_clash in Hf. simpl in Hf, E. bools. congruence.
  - apply Forall_app. split; [done|]. by constructor.
Qed.

Lemma settle_wf id u a e unc now : preserves routes_wf (settle id u a e unc now).
Proof.
  intros t x t' [Hi Hc] [[-> _]|(row & _ & -> & Hk)]%settle_ok; [done|]. split.
  - by rewrite map_update.
  - apply Forall_forall. intros r Hr. destruct (rt_id r == id) eqn:E.
    + rewrite forallb_forall in Hk. apply Hk. apply list_elem_of_In, elem_of_select. done.
    + apply elem_of_update in Hr as (r0 & Hr0 & ->). rewrite Forall_forall in Hc.
      destruct (open_route id r0) eqn:Eo; [|auto]. apply open_route_id in Eo as [Eo _].
      simpl in E. bools. congruence.
Qed.
#[export] Hint Resolve reserve_wf settle_wf : preserves.

(** ** The monthly budget *)

(** Every ledger the transactions of the gateway can produce, under a monthly
    budget of at most [B]. *)
Inductive routes_reachable (B : Z) : route_ledger → Prop :=
| rr_empty : routes_reachable B []
| rr_reserve ctx rq c n est budget fb id now t x t' :
    routes_reachable B t → 0 ≤ now < 2 ^ 53 → budget ≤ B →
    reserve ctx rq c n est budget fb id now t = Ok (x, t') → routes_reachable B t'
| rr_settle id u a e unc now t x t' :
    routes_reachable B t → settle id u a e unc now t = Ok (x, t') → routes_reachable B t'.

(** The rows of an owner created in a calendar month. *)
Definition in_month (owner : string) (month : Z * Z) (r : ModelRoute) : bool :=
  (rt_owner r == owner) && match gmtime (rt_created r) with Some date => date.1 == month | None => false end.
(** What a settlement charged beyond the estimate. *)
Definition overrun (r : ModelRoute) : Z := Z.max 0 (rt_charge r - rt_estimated r).

(** An open reservation charges its estimate. *)
Record row_sound (r : ModelRoute) : Prop := {
  rs_created : 0 ≤ rt_created r < 2 ^ 53;
  rs_open : rt_state r = route_reserved → rt_charge r = rt_estimated r;
}.

Lemma in_month_since owner date r : row_sound r →
  in_month owner date.1 r = true → of_owner_since owner (month_start date) r = true.
Proof.
  intros [Hc _] H. unfold in_month, of_owner_since in *. bools. destruct (gmtime (rt_created r)) as [d|] eqn:E; [|done].
  pose proof (month_start_le _ _ Hc E) as Hl. bools. apply andb_true_iff. split; [by apply bool_decide_eq_true|].
  apply Z.leb_le. unfold month_start in *. congruence.
Qed.

Lemma charge_nonneg r : route_checks r = true → 0 ≤ rt_charge r.
Proof. unfold route_checks. intros H. by bools. Qed.

Lemma sum_le_imp (f : ModelRoute → Z) p q t :
  (∀ r, r ∈ t → 0 ≤ f r) → (∀ r, r ∈ t → p r = true → q r = true) → sum f p t ≤ sum f q t.
Proof.
  induction t as [|x t IH]; intros Hf Hpq; simpl; [done|].
  pose proof (IH ltac:(set_solver) ltac:(set_solver)). pose proof (Hf x ltac:(set_solver)).
  destruct (p x) eqn:E; [rewrite (Hpq x) by set_solver|destruct (q x)]; lia.
Qed.

Lemma month_admitted owner date t budget est : routes_wf t → Forall row_sound t →
  sum rt_charge (of_owner_since owner (month_start date)) t + est ≤ budget →
  sum rt_charge (in_month owner date.1) t + est ≤ budget.
Proof.
  intros [_ Hc] Hs H. rewrite Forall_forall in Hc, Hs.
  pose proof (sum_le_imp rt_charge (in_month owner date.1) (of_owner_since owner (month_start date)) t) as Hle.
  assert (∀ r, r ∈ t → 0 ≤ rt_charge r) by (intros r Hr; apply charge_nonneg; auto).
  assert (∀ r, r ∈ t → in_month owner date.1 r = true → of_owner_since owner (month_start date) r = true) by
    (intros r Hr; apply in_month_since; auto). intuition lia.
Qed.

Lemma settle_row_sound u a e charge now r : row_sound r → row_sound (settled u a e charge now r).
Proof. intros [Hc _]. split; [done|]. simpl. by destruct e. Qed.

Lemma routes_reachable_sound B t : routes_reachable B t → routes_wf t ∧ Forall row_sound t.
Proof.
  induction 1 as [|? ? ? ? ? ? ? ? ? ? ? ? _ [Hw Hs] Hn Hb Hr|? ? ? ? ? ? ? ? ? _ [Hw Hs] Hr].
  - split; [split; constructor|constructor].
  - split; [by eapply reserve_wf|]. apply reserve_spec in Hr as (_ & -> & _ & _ & _).
    apply Forall_app. split; [done|]. by constructor; [split|].
  - split; [by eapply settle_wf|]. apply settle_ok in Hr as [[-> _]|(row & _ & -> & _)]; [done|].
    apply Forall_update; [done|]. intros. by apply settle_row_sound.
Qed.

Lemma sum_overrun_nonneg p t : 0 ≤ sum overrun p t.
Proof. apply sum_nonneg. intros. unfold overrun. lia. Qed.

(** A settlement moves the charge of its row by at most its overrun. *)
Lemma settle_month owner month id u a e unc now t t' x : routes_wf t → Forall row_sound t →
  settle id u a e unc now t = Ok (x, t') →
  sum rt_charge (in_month owner month) t' - sum overrun (in_month owner month) t' ≤
  sum rt_charge (in_month owner month) t - sum overrun (in_month owner month) t.
Proof.
  intros [Hi _] Hs [[-> _]|(row & Hf & -> & _)]%settle_ok; [lia|].
  apply fetchone_some in Hf as [Hin Ho]. pose proof (open_route_id _ _ Ho) as [Hid Hopen].
  assert (∀ r, open_route id r = true → rt_id r = rt_id row) as Hu by (intros r [? _]%open_route_id; congruence).
  rewrite !(sum_update_unique rt_id _ _ _ _ _ row Hi Hin Ho Hu).
  rewrite Forall_forall in Hs. destruct (Hs row Hin) as [_ Hch]. specialize (Hch Hopen).
  set (charge := match a with Some n => n | None => _ end).
  change (in_month owner month (settled u a e charge now row)) with (in_month owner month row).
  destruct (in_month owner month row); [|lia].
  unfold overrun. simpl. lia.
Qed.

(** C17. In every reachable ledger the charges of an owner's calls of a month
    are at most the monthly budget plus the amounts by which providers
    reported more usage than was reserved, whatever the order in which
    concurrent requests reserve and settle and whatever their clocks read. *)
Theorem month_within_budget B t owner month : 0 ≤ B → routes_reachable B t →
  sum rt_charge (in_month owner month) t ≤ B + sum overrun (in_month owner month) t.
Proof.
  intros HB H. induction H as [|? ? ? ? ? ? ? ? ? t x t' Ht IH Hn Hb Hr|? ? ? ? ? ? t x t' Ht IH Hr].
  - simpl. lia.
  - destruct (routes_reachable_sound _ _ Ht) as [Hw Hs].
    apply reserve_spec in Hr as (_ & -> & _ & _ & date & Hd & Hsum). rewrite !sum_snoc.
    pose proof (sum_overrun_nonneg (in_month owner month) t). unfold overrun at 2. simpl.
    destruct (in_month owner month _) eqn:E; [|lia].
    unfold in_month in E. simpl in E. rewrite Hd in E. bools. subst.
    pose proof (month_admitted _ _ _ _ _ Hw Hs Hsum). lia.
  - destruct (routes_reachable_sound _ _ Ht) as [Hw Hs].
    pose proof (settle_month owner month _ _ _ _ _ _ _ _ _ Hw Hs Hr). lia.
Qed.

(** ** Selection *)

#[export] Instance dec_ordering : Ordering dec_compare.
Proof. split; [intros; apply dec_compare_opp|apply dec_compare_trans]. Qed.

#[export] Instance route_ordering ctx t : Ordering (route_compare ctx t).
Proof.
  apply (lex_ordering (λ x y, marginal x ?= marginal y)); [apply (on_ordering marginal), _|].
  apply (lex_ordering (λ x y, preference ctx x.1 ?= preference ctx y.1)); [apply (on_ordering (λ x, preference ctx x.1)), _|].
  apply (lex_ordering (λ x y, dec_compare (dec_neg (reliability t x.1)) (dec_neg (reliability t y.1))));
    [apply (on_ordering (λ x, dec_neg (reliability t x.1))), _|].
  apply (lex_ordering (λ x y, mo_latency x.1 ?= mo_latency y.1)); [apply (on_ordering (λ x, mo_latency x.1)), _|].
  apply (on_ordering (λ x, mo_id x.1)), _.
Qed.

Lemma before_cost ctx t x y : before (route_compare ctx t) x y = true → marginal x ≤ marginal y.
Proof.
  rewrite before_spec. unfold route_compare. destruct (Z.compare_spec (marginal x) (marginal y)); simpl; [lia|lia|done].
Qed.

Lemma primary_first_perm items : primary_first items ≡ₚ items.
Proof. destruct items as [|best rest]; [done|]. apply select_split_perm. Qed.

Definition priced (router : RoutedMagiModel) (n_inputs : Z) (c : ModelCandidate) : ModelCandidate * Z :=
  (c, estimate_of router n_inputs c).

Lemma eligible_perm getenv router ctx n t :
  _eligible getenv router ctx n t ≡ₚ map (priced router n) (select (admits getenv router ctx n t) (ro_candidates router)).
Proof. unfold _eligible. by rewrite primary_first_perm, order_by_perm. Qed.

Lemma elem_of_eligible getenv router ctx n t c est :
  (c, est) ∈ _eligible getenv router ctx n t →
  c ∈ ro_candidates router ∧ admits getenv router ctx n t c = true ∧ est = estimate_of router n c.
Proof.
  rewrite eligible_perm, list_elem_of_fmap. intros (c' & [= -> ->] & [H1 H2]%elem_of_select). done.
Qed.

(** What a selection owes its caller: every candidate that passes the guards,
    with its estimate, and no other; first those of the class of the best one,
    each group in the order of the key. *)
Record selection (ctx : ModelRouteContext) (t : route_ledger) (admitted chosen : list (ModelCandidate * Z)) : Prop := {
  se_perm : chosen ≡ₚ admitted;
  se_groups : ∃ best primary others, chosen = (best :: primary) ++ others ∧
    Forall (λ x, same_class best.1 x = true) primary ∧ Forall (λ x, same_class best.1 x = false) others ∧
    StronglySorted (λ x y, before (route_compare ctx t) x y = true) (best :: primary) ∧
    StronglySorted (λ x y, before (route_compare ctx t) x y = true) others ∧
    Forall (λ x, before (route_compare ctx t) best x = true) chosen ∧
    Forall (λ x, marginal best ≤ marginal x) chosen;
}.

(** The selector offers exactly the candidates that pass its guards at the
    state of the ledger. The first one is least in the order of marginal cost,
    preference, observed reliability, latency and id; candidates of its
    capability class come before the others, each group in that order. *)
Theorem eligible_cheapest getenv router ctx n t :
  _eligible getenv router ctx n t ≠ [] →
  selection ctx t (map (priced router n) (select (admits getenv router ctx n t) (ro_candidates router)))
    (_eligible getenv router ctx n t).
Proof.
  intros Hne. split; [apply eligible_perm|]. revert Hne. unfold _eligible. fold (priced router n).
  change (map (λ c, (c, estimate_of router n c))) with (map (priced router n)).
  set (items := map _ _). pose proof (order_by_is_sorted (route_compare ctx t) items) as Hs.
  destruct (order_by _ items) as [|best rest]; [done|]. intros _. unfold primary_first.
  assert (same_class best.1 best = true) as Hb by apply eqb_refl.
  assert (∀ x, x ∈ best :: rest → before (route_compare ctx t) best x = true) as Hmin.
  { intros x Hx. eapply (sorted_head (before (route_compare ctx t))); [|done|done].
    intros a. by destruct (before_total (route_compare ctx t) a a). }
  pose proof (sorted_select (route_compare ctx t) (same_class best.1) _ Hs) as H1.
  pose proof (sorted_select (route_compare ctx t) (λ x, negb (same_class best.1 x)) _ Hs) as H2.
  assert (Forall (λ x, before (route_compare ctx t) best x = true)
    (select (same_class best.1) (best :: rest) ++ select (λ x, negb (same_class best.1 x)) (best :: rest))) as HF.
  { apply Forall_forall. intros x. rewrite select_split_perm. auto. }
  exists best, (select (same_class best.1) rest), (select (λ x, negb (same_class best.1 x)) (best :: rest)).
  simpl in *. rewrite Hb in *. simpl in *. split_and!; try done.
  - apply Forall_forall. by intros x [_ ?]%elem_of_select.
  - apply Forall_forall. intros x [_ ?]%elem_of_select. by apply negb_true_iff.
  - eapply Forall_impl; [exact HF|]. intros x. apply before_cost.
Qed.

(** ** The attempts of a request *)

Definition own (ctx : ModelRouteContext) (request_id : string) (r : ModelRoute) : bool :=
  (rt_owner r == rc_owner ctx) && (rt_request r == request_id).

(** What the other tasks commit keeps the constraints of the table and leaves
    the rows of this request alone. *)
Definition others_ok (ctx : ModelRouteContext) (request_id : string) (f : route_ledger → route_ledger) : Prop :=
  ∀ t, routes_wf t → routes_wf (f t) ∧ select (own ctx request_id) (f t) = select (own ctx request_id) t.

(** A reservation of another owner or another request is such. *)
Lemma others_reserve ctx rq ctx' rq' c n est budget fb id now :
  rc_owner ctx' ≠ rc_owner ctx ∨ rq' ≠ rq →
  others_ok ctx rq (λ t, (commit (reserve ctx' rq' c n est budget fb id now) t).2).
Proof.
  intros Hne t Hw. destruct (commit_cases (reserve ctx' rq' c n est budget fb id now) t) as
    [(x & t' & H & ->)|(e & _ & ->)]; [|done]. simpl.
  split; [by eapply reserve_wf|]. apply reserve_spec in H as (_ & -> & _). unfold select.
  rewrite List.filter_app. simpl. destruct (own ctx rq _) eqn:E; [|by rewrite app_nil_r].
  unfold own in E. simpl in E. bools. naive_solver.
Qed.

Lemma select_update_kept (p q : ModelRoute → bool) f t :
  (∀ r, p (f r) = p r) → select p (update q f t) = update q f (select p t).
Proof.
  intros H. unfold select. induction t as [|x t IH]; simpl; [done|].
  destruct (q x) eqn:E; rewrite ?H; destruct (p x); simpl; rewrite ?E; by rewrite IH.
Qed.

Section Attempts.
Context (getenv : string → string) (router : RoutedMagiModel) (world : Z → surroundings).
Context (ctx : ModelRouteContext) (request_id : string).
Implicit Types (t : route_ledger) (rows : list ModelRoute).

(** The other tasks behave, and an adapter reports token counts that are not
    negative. *)
Record world_ok : Prop := {
  wo_before n : others_ok ctx request_id (su_before (world n));
  wo_during n : others_ok ctx request_id (su_during (world n));
  wo_usage n r u : su_outcome (world n) = Completed r → res_usage r = Some u →
    0 ≤ input_tokens u ∧ 0 ≤ output_tokens u;
}.

Definition failed_rows rows : Prop := Forall (λ r, rt_state r = route_failed) rows.

(** The row of a successful attempt: the result is the outcome of its call, and
    it charges the usage of the result or, without one, the estimate. *)
Definition paid (result : MagiModelResult) (r : ModelRoute) : Prop :=
  rt_state r = route_succeeded ∧
  su_outcome (world (rt_ordinal r)) = Completed result ∧
  match res_usage result with
  | Some u => rt_actual r = Some (rt_charge r) ∧ rt_input r = Some (input_tokens u) ∧ rt_output r = Some (output_tokens u)
  | None => rt_actual r = None ∧ rt_charge r = rt_estimated r
  end.

(** How the rows of a request end with its answer. *)
Definition ending (r : res route_error MagiModelResult) rows : Prop :=
  match r with
  | Ok result => ∃ tries row, rows = tries ++ [row] ∧ failed_rows tries ∧ paid result row
  | Err CancelledError => ∃ tries row, rows = tries ++ [row] ∧ failed_rows tries ∧
      rt_state row = route_reserved ∧ rt_charge row = rt_estimated row
  | Err _ => failed_rows rows
  end.

(** The rows of the attempts with ordinals above [lo] and at most [hi]. *)
Definition numbered (lo hi : Z) rows : Prop :=
  StronglySorted (λ a b, rt_ordinal a < rt_ordinal b) rows ∧ Forall (λ r, lo < rt_ordinal r ≤ hi) rows.

Lemma ending_app r old rows : failed_rows old → ending r rows → ending r (old ++ rows).
Proof.
  intros Ho. destruct r as [result|[e| | |]]; simpl; try by (intros; apply Forall_app).
  - intros (tries & row & -> & Ht & Hp). exists (old ++ tries), row. rewrite app_assoc. split; [done|]. split; [by apply Forall_app|done].
  - intros (tries & row & -> & Ht & Hp). exists (old ++ tries), row. rewrite app_assoc. split; [done|]. split; [by apply Forall_app|done].
Qed.

Lemma numbered_cons lo hi x rows : lo < rt_ordinal x → numbered (rt_ordinal x) hi rows → rt_ordinal x ≤ hi → numbered lo hi (x :: rows).
Proof.
  intros Hx [Hs Hb] Hh. split.
  - constructor; [done|]. eapply Forall_impl; [exact Hb|]. simpl. lia.
  - constructor; [lia|]. eapply Forall_impl; [exact Hb|]. simpl. lia.
Qed.

Lemma numbered_app lo mid hi xs ys : lo ≤ mid ≤ hi → numbered lo mid xs → numbered mid hi ys → numbered lo hi (xs ++ ys).
Proof.
  intros Hm [Hs Hb] Hy. induction xs as [|x xs IH]; simpl.
  - destruct Hy as [? Hy]. split; [done|]. eapply Forall_impl; [exact Hy|]. simpl. lia.
  - apply StronglySorted_inv in Hs as [Hs Hx]. apply Forall_cons in Hb as [Hb1 Hb]. specialize (IH Hs Hb) as [I1 I2].
    split; [|constructor; [lia|done]]. constructor; [done|]. apply Forall_app. split; [done|].
    destruct Hy as [_ Hy]. eapply Forall_impl; [exact Hy|]. simpl. lia.
Qed.

(** A settlement closes the row of the attempt that waits. *)
Lemma settle_own id u a e (unc : bool) now t rows (row : ModelRoute) :
  let charge := match a with Some n => n | None => if unc then rt_estimated row else 0 end in
  routes_wf t → select (own ctx request_id) t = rows ++ [row] → failed_rows rows → rt_id row = id →
  rt_state row = route_reserved → route_checks (settled u a e charge now row) = true →
  ∃ t', commit (settle id u a e unc now) t = (Ok tt, t') ∧ routes_wf t' ∧
    select (own ctx request_id) t' = rows ++ [settled u a e charge now row].
Proof.
  intros charge Hw Hsel Hf Hid Hst Hk. destruct (Hw) as [Hn _].
  assert (row ∈ t) as Hin by (eapply (elem_of_select (own ctx request_id)); rewrite Hsel; set_solver).
  assert (open_route id row = true) as Ho by (unfold open_route; rewrite Hid, Hst; by rewrite !eqb_refl).
  assert (fetchone (open_route id) t = Some row) as Hfe.
  { apply (fetchone_unique rt_id); [done..|]. intros x [? _]%open_route_id. congruence. }
  set (t' := update (open_route id) (settled u a e charge now) t).
  assert (forallb route_checks (select (λ r, rt_id r == id) t') = true) as Hck.
  { apply forallb_forall. intros x [Hx Hxi]%list_elem_of_In%elem_of_select. bools.
    apply elem_of_update in Hx as (x0 & Hx0 & ->). assert (rt_id x0 = id) as Hi0 by (destruct (open_route id x0); done).
    assert (x0 = row) as -> by (eapply (NoDup_key_inj rt_id); [done..|congruence]). by rewrite Ho. }
  assert (settle id u a e unc now t = Ok (tt, t')) as Hr.
  { unfold settle. erewrite bind_run by (unfold read; reflexivity). rewrite Hfe.
    erewrite bind_run by (unfold read; reflexivity). fold charge. fold t'.
    erewrite bind_run by (unfold require, lift, ensure; by rewrite Hck). reflexivity. }
  exists t'. split; [by apply commit_ok|]. split; [by eapply settle_wf|].
  unfold t'. rewrite (select_update_kept _ _ (settled u a e charge now)) by done.
  rewrite Hsel, update_app. f_equal.
  - apply update_id. intros x Hx [_ Hop]%open_route_id. unfold failed_rows in Hf. rewrite Forall_forall in Hf.
    rewrite (Hf x Hx) in Hop. done.
  - simpl. by rewrite Ho.
Qed.

Lemma reserve_own c n est budget fb id now t rows r t1 :
  routes_wf t → select (own ctx request_id) t = rows →
  commit (reserve ctx request_id c n est budget fb id now) t = (r, t1) → routes_wf t1 ∧
  match r with
  | Ok x => x = id ∧ route_checks (reservation_row ctx request_id c n est fb id now) = true ∧
      select (own ctx request_id) t1 = rows ++ [reservation_row ctx request_id c n est fb id now]
  | Err _ => select (own ctx request_id) t1 = rows
  end.
Proof.
  intros Hw Hsel H. destruct (commit_cases (reserve ctx request_id c n est budget fb id now) t) as [(x & t' & Hr & E)|(e & _ & E)];
    rewrite E in H; injection H as <- <-; [|done].
  split; [by eapply reserve_wf|]. apply reserve_spec in Hr as (-> & -> & Hk & _). split; [done|]. split; [done|].
  unfold select in *. rewrite List.filter_app, Hsel. simpl. unfold own. simpl. by rewrite !eqb_refl.
Qed.

Lemma settled_checks u a e charge now row : route_checks row = true → 0 ≤ charge → unsigned a = true →
  (∀ v, u = Some v → 0 ≤ input_tokens v ∧ 0 ≤ output_tokens v) → route_checks (settled u a e charge now row) = true.
Proof.
  unfold route_checks. intros Hr Hc Ha Hu. bools. simpl. rewrite !andb_true_iff, !Z.leb_le.
  split_and!; try done; destruct u as [v|]; simpl; try done; destruct (Hu v eq_refl); by apply Z.leb_le.
Qed.

(** The rows of an attempt name its candidate and carry its estimate. *)
Definition attempt_of (c : ModelCandidate) (est : Z) (r : ModelRoute) : Prop :=
  rt_provider r = mo_provider c ∧ rt_model r = mo_model c ∧ rt_estimated r = est.

(** The rows [new] that the tries of one candidate add, by their verdict. *)
Definition tried (left : nat) (c : ModelCandidate) (est : Z) (p : progress) (v : verdict) new : Prop :=
  (length new ≤ left)%nat ∧ Forall (attempt_of c est) new ∧
  match v with
  | Exhausted p' => failed_rows new ∧ pg_ordinal p ≤ pg_ordinal p' ∧ numbered (pg_ordinal p) (pg_ordinal p') new
  | Finished r => ending r new ∧ ∃ hi, numbered (pg_ordinal p) hi new
  end.

Lemma numbered_one lo x : lo < rt_ordinal x → numbered lo (rt_ordinal x) [x].
Proof. intros H. split; repeat constructor; lia. Qed.

(** Another try after a failed one. *)
Lemma tried_again left c est p x fb last v new :
  attempt_of c est x → rt_state x = route_failed → rt_ordinal x = pg_ordinal p + 1 →
  tried left c est (Build_progress (pg_ordinal p + 1) fb last) v new → tried (S left) c est p v (x :: new).
Proof.
  intros Ha Hx Ho (Hl & Hat & Hv). split; [simpl; lia|]. split; [by constructor|].
  destruct v as [r|p'].
  - destruct Hv as (He & hi & Hn). split; [by apply (ending_app r [x]); [constructor|]|].
    simpl in Hn. exists (Z.max hi (rt_ordinal x)). apply numbered_cons; [lia| |lia]. rewrite Ho. destruct Hn as [Hs Hb].
    split; [done|]. eapply Forall_impl; [exact Hb|]. simpl. lia.
  - simpl in Hv. destruct Hv as (Hf & Hle & Hn). split; [by constructor|]. split; [lia|].
    apply numbered_cons; [lia|by rewrite Ho|lia].
Qed.

Lemma never_bind {A B} (e : route_error) (m : route_tx A) (f : A → route_tx B) :
  (∀ s, m s ≠ Err e) → (∀ a s, f a s ≠ Err e) → ∀ s, (m ≫= f) s ≠ Err e.
Proof. intros Hm Hf s. unfold mbind, tx_bind. specialize (Hm s). destruct (m s) as [[a s1]|e']; [apply Hf|congruence]. Qed.

Lemma reserve_not_cancelled c n est budget fb id now t t1 :
  commit (reserve ctx request_id c n est budget fb id now) t ≠ (Err CancelledError, t1).
Proof.
  assert (∀ s, reserve ctx request_id c n est budget fb id now s ≠ Err CancelledError) as Hn.
  { unfold reserve. repeat (apply never_bind; [|intros ?]); try (intros s; done).
    all: try (intros s; unfold require, lift, ensure, of_option; by repeat (case_match; simplify_eq/=)).
    destruct (mo_credits c); [apply never_bind; [done|intros ?]|done].
    intros s. unfold require, lift, ensure. by repeat (case_match; simplify_eq/=). }
  unfold commit. intros H. destruct (reserve _ _ _ _ _ _ _ _ _ t) as [[? ?]|e] eqn:E; [done|].
  injection H as -> <-. by apply Hn in E.
Qed.

Lemma provide_completed c n r : provide router world c n = Completed r → su_outcome (world n) = Completed r.
Proof. unfold provide. by destruct (provider_registered _ _). Qed.

(** The closed row of an attempt that waited with [row]. *)
Lemma close_ok n id u a e (unc : bool) t rows (row : ModelRoute) :
  let charge := match a with Some m => m | None => if unc then rt_estimated row else 0 end in
  routes_wf t → select (own ctx request_id) t = rows ++ [row] → failed_rows rows → rt_id row = id →
  rt_state row = route_reserved → route_checks row = true → unsigned a = true →
  (∀ v, u = Some v → 0 ≤ input_tokens v ∧ 0 ≤ output_tokens v) →
  ∃ t', close world n id u a e unc t = (Ok tt, t') ∧ routes_wf t' ∧
    select (own ctx request_id) t' = rows ++ [settled u a e charge (su_settled_at (world n)) row].
Proof.
  intros charge Hw Hsel Hf Hid Hst Hk Ha Hu. apply settle_own; try done. apply settled_checks; try done.
  unfold route_checks in Hk. bools. destruct a as [m|]; simpl in *; [by apply Z.leb_le|]. by destruct unc.
Qed.

Lemma tried_finished left c est p r x :
  attempt_of c est x → rt_ordinal x = pg_ordinal p + 1 → ending r [x] → tried (S left) c est p (Finished r) [x].
Proof.
  intros Ha Hx He. split; [simpl; lia|]. split; [by constructor|]. split; [done|].
  exists (rt_ordinal x). apply numbered_one. lia.
Qed.

Lemma tried_none left c est p p' : pg_ordinal p ≤ pg_ordinal p' → tried left c est p (Exhausted p') [].
Proof. intros H. split; [simpl; lia|]. split; [constructor|]. split; [constructor|]. split; [done|]. split; constructor. Qed.

(** What is known of a request when a call of its begins. *)
Record calling (c : ModelCandidate) (est : Z) (p : progress) rows (row : ModelRoute) t : Prop := {
  cl_wf : routes_wf t;
  cl_rows : select (own ctx request_id) t = rows ++ [row];
  cl_failed : failed_rows rows;
  cl_row : row = reservation_row ctx request_id c (pg_ordinal p + 1) est (pg_fallback p)
    (su_route_id (world (pg_ordinal p + 1))) (su_reserved_at (world (pg_ordinal p + 1)));
  cl_checks : route_checks row = true;
}.

Definition adds left c est p v rows t' : Prop :=
  ∃ new, routes_wf t' ∧ select (own ctx request_id) t' = rows ++ new ∧ tried left c est p v new.

Lemma call_ok left again c est p rows row t v t' : world_ok → calling c est p rows row t →
  (∀ retry q u rows', again = Some retry → routes_wf u → select (own ctx request_id) u = rows' → failed_rows rows' →
     retry q u = (v, t') → adds left c est q v rows' t') →
  call router world again c est p (pg_ordinal p + 1) (su_route_id (world (pg_ordinal p + 1))) t = (v, t') →
  adds (S left) c est p v rows t'.
Proof.
  intros Hq [Hw Hsel Hf Hrow Hk] Hagain H. set (n := pg_ordinal p + 1) in *. unfold call in H.
  assert (∀ u a e unc, let charge := match a with Some m => m | None => if (unc : bool) then rt_estimated row else 0 end in
    unsigned a = true → (∀ v, u = Some v → 0 ≤ input_tokens v ∧ 0 ≤ output_tokens v) →
    ∃ t3, close world n (su_route_id (world n)) u a e unc t = (Ok tt, t3) ∧ routes_wf t3 ∧
      select (own ctx request_id) t3 = rows ++ [settled u a e charge (su_settled_at (world n)) row]) as Hclose.
  { intros. apply close_ok; try done; by rewrite Hrow. }
  destruct (provide router world c n) as [result|e| |] eqn:Ep.
  - apply provide_completed in Ep.
    edestruct Hclose as (t3 & E & Hw3 & Hs3); [| |rewrite E in H].
    { destruct (res_usage result); [|done]. apply Z.leb_le, per_million_nonneg. }
    { intros u Hu. by eapply wo_usage. }
    injection H as <- <-. eexists. split; [done|]. split; [exact Hs3|].
    apply tried_finished; [by rewrite Hrow|by rewrite Hrow|]. eexists [], _.
    split; [reflexivity|]. split; [constructor|]. subst row. split; [done|]. simpl. fold n. rewrite Ep. split; [done|].
    by destruct (res_usage result).
  - edestruct Hclose as (t3 & E & Hw3 & Hs3); [| |rewrite E in H]; [done|done|].
    set (x := settled _ _ _ _ _ row) in Hs3. assert (attempt_of c est x) as Ha by (unfold x; by rewrite Hrow).
    assert (rt_ordinal x = n) as Hx by (unfold x; by rewrite Hrow).
    destruct (gives_up _ _ _).
    { injection H as <- <-. exists [x]. split; [done|]. split; [done|]. apply tried_finished; try done. by constructor. }
    destruct again as [retry|].
    + eapply Hagain in H as (new & Hw' & Hs' & Ht); [|done..|by apply Forall_app; split; [|constructor]].
      exists (x :: new). split; [done|]. split; [by rewrite Hs', <- app_assoc|]. by eapply tried_again.
    + injection H as <- <-. exists [x]. split; [done|]. split; [done|]. split; [simpl; lia|].
      split; [by constructor|]. split; [by constructor|]. simpl. fold n. split; [lia|]. rewrite <- Hx. apply numbered_one. lia.
  - edestruct Hclose as (t3 & E & Hw3 & Hs3); [| |rewrite E in H]; [done|done|].
    injection H as <- <-. eexists. split; [done|]. split; [exact Hs3|].
    apply tried_finished; [by rewrite Hrow|by rewrite Hrow|]. by constructor.
  - injection H as <- <-. exists [row]. split; [done|]. split; [done|].
    apply tried_finished; [by rewrite Hrow|by rewrite Hrow|]. exists [], row. subst row. split_and!; try done. constructor.
Qed.

(** One candidate: its tries append rows of it, closed unless the task is
    cancelled, and only the last of them can be successful. *)
Lemma try_candidate_ok left c est p t rows v t' : world_ok → routes_wf t →
  select (own ctx request_id) t = rows → failed_rows rows →
  try_candidate router world ctx request_id left c est p t = (v, t') → adds left c est p v rows t'.
Proof.
  intros Hq. revert p t rows. induction left as [|left IH]; intros p t rows Hw Hsel Hf H.
  { injection H as <- <-. exists []. rewrite app_nil_r. split; [done|]. split; [done|]. by apply tried_none. }
  cbn [try_candidate] in H. destruct (wo_before Hq (pg_ordinal p + 1) t Hw) as [Hw0 Hs0]. rewrite Hsel in Hs0.
  destruct (commit _ _) as [r t1] eqn:Er.
  destruct (reserve_own _ _ _ _ _ _ _ _ _ _ _ Hw0 Hs0 Er) as [Hw1 Hr].
  destruct r as [x|e].
  - destruct Hr as (-> & Hk & Hs1). destruct (wo_during Hq (pg_ordinal p + 1) t1 Hw1) as [Hw2 Hs2]. rewrite Hs1 in Hs2.
    eapply call_ok; [done|by split|..|exact H].
    intros retry q u rows' Ha Hwu Hsu Hfu Hv. destruct left as [|left]; [done|]. injection Ha as <-. by eapply IH.
  - assert (ending (Err e) []) as He by (destruct e; try constructor; by apply reserve_not_cancelled in Er).
    exists []. rewrite app_nil_r.
    destruct e as [e| | |]; [destruct (me_code e == _)|..]; injection H as <- <-; (split; [done|]); (split; [done|]);
      try (apply tried_none; simpl; lia); (split; [simpl; lia|]); (split; [constructor|]); (split; [exact He|]);
      exists 0; split; constructor.
Qed.

(** A candidate that may be tried at its position: the first one, or one whose
    estimate is a minor cost, or any one under explicit confirmation. *)
Definition may_try (i : nat) (est : Z) : Prop :=
  i = 0%nat ∨ rc_confirmation ctx = true ∨ est ≤ po_fallback_cost (ro_policy router).

Definition tries_per_candidate : nat := Z.to_nat (po_retries (ro_policy router) + 1).

(** What a request owes: its rows end with its answer, each is a try of an
    offered candidate that may be tried, in the order of their ordinals. *)
Record served (first : nat) (candidates : list (ModelCandidate * Z)) (lo : Z) (r : res route_error MagiModelResult)
    new : Prop := {
  sv_ending : ending r new;
  sv_length : (length new ≤ length candidates * tries_per_candidate)%nat;
  sv_order : ∃ hi, numbered lo hi new;
  sv_rows : Forall (λ row, ∃ i c est, candidates !! i = Some (c, est) ∧ attempt_of c est row ∧ may_try (first + i) est) new;
}.

Lemma served_nothing first candidates lo e : e ≠ CancelledError → served first candidates lo (Err e) [].
Proof.
  intros He. split; [destruct e; try constructor; done|simpl; lia|exists 0; split; constructor|constructor].
Qed.

Lemma served_more first c est rest p p' r tries new :
  tried tries_per_candidate c est p (Exhausted p') tries → may_try first est →
  served (S first) rest (pg_ordinal p') r new → served first ((c, est) :: rest) (pg_ordinal p) r (tries ++ new).
Proof.
  intros (Hl & Ha & Hf & Hle & Hn) Hm [He Hlen (hi & Ho) Hrows]. split.
  - by apply ending_app.
  - rewrite length_app. simpl. lia.
  - exists (Z.max hi (pg_ordinal p')). eapply numbered_app; [|exact Hn|]; [lia|]. destruct Ho as [Hs Hb].
    split; [done|]. eapply Forall_impl; [exact Hb|]. simpl. lia.
  - apply Forall_app. split.
    + eapply Forall_impl; [exact Ha|]. intros row Hrow. exists 0%nat, c, est. rewrite Nat.add_0_r. done.
    + eapply Forall_impl; [exact Hrows|]. intros row (i & c' & est' & Hi & Hrow & Hm').
      exists (S i), c', est'. by replace (first + S i)%nat with (S first + i)%nat by lia.
Qed.

Lemma served_last first c est rest p r tries :
  tried tries_per_candidate c est p (Finished r) tries → may_try first est →
  served first ((c, est) :: rest) (pg_ordinal p) r tries.
Proof.
  intros (Hl & Ha & He & Hn) Hm. split; [done|simpl; lia|done|].
  eapply Forall_impl; [exact Ha|]. intros row Hrow. exists 0%nat, c, est. by rewrite Nat.add_0_r.
Qed.

Lemma try_candidates_ok first candidates p t rows r t' : world_ok → routes_wf t →
  select (own ctx request_id) t = rows → failed_rows rows →
  try_candidates router world ctx request_id first candidates p t = (r, t') →
  ∃ new, routes_wf t' ∧ select (own ctx request_id) t' = rows ++ new ∧ served first candidates (pg_ordinal p) r new.
Proof.
  intros Hq. revert first p t rows. induction candidates as [|[c est] rest IH]; intros first p t rows Hw Hsel Hf H; cbn [try_candidates] in H.
  { injection H as <- <-. exists []. rewrite app_nil_r. split; [done|]. split; [done|]. by apply served_nothing. }
  destruct (_ && _ && _) eqn:Eg.
  { injection H as <- <-. exists []. rewrite app_nil_r. split; [done|]. split; [done|]. by apply served_nothing. }
  assert (may_try first est) as Hm.
  { unfold may_try. apply andb_false_iff in Eg as [[Eg|Eg]%andb_false_iff|Eg]; bools.
    - left. by apply Nat.eqb_eq.
    - right. by right.
    - right. by left. }
  destruct (try_candidate _ _ _ _ _ _ _ _ _) as [v t1] eqn:Ev.
  destruct (try_candidate_ok _ _ _ _ _ _ _ _ Hq Hw Hsel Hf Ev) as (tries & Hw1 & Hs1 & Ht).
  destruct v as [r'|p'].
  - injection H as -> ->. exists tries. split; [done|]. split; [done|]. by apply served_last.
  - pose proof Ht as (_ & _ & Hft & _). destruct (IH (S first) p' t1 (rows ++ tries) Hw1 Hs1 ltac:(by apply Forall_app) H) as (new & Hw' & Hs' & Hsv).
    exists (tries ++ new). split; [done|]. split; [by rewrite Hs', app_assoc|]. by eapply served_more.
Qed.

Lemma complete_routed_served messages system_context tools t r t' : world_ok → routes_wf t →
  select (own ctx request_id) t = [] →
  complete_routed getenv router world ctx request_id messages system_context tools t = (r, t') →
  let inputs := Z.max (rc_context_tokens ctx) (_estimate_input_tokens messages system_context tools) in
  routes_wf t' ∧ served 0 (_eligible getenv router ctx inputs t) 0 r (select (own ctx request_id) t').
Proof.
  intros Hq Hw Hsel H inputs. unfold complete_routed in H. fold inputs in H.
  assert (∀ e candidates, e ≠ CancelledError → (Err e, t) = (r, t') → routes_wf t' ∧ served 0 candidates 0 r (select (own ctx request_id) t')) as Hstop.
  { intros e candidates He [= <- <-]. rewrite Hsel. split; [done|]. by apply served_nothing. }
  destruct (_ && _) eqn:E1; [eapply Hstop; [|exact H]; done|]. destruct (_ && _) eqn:E2 in H; [eapply Hstop; [|exact H]; done|].
  destruct (_eligible getenv router ctx inputs t) as [|best rest] eqn:Ee; [eapply Hstop; [|exact H]; done|].
  destruct (try_candidates_ok _ _ _ _ _ _ _ Hq Hw Hsel ltac:(constructor) H) as (new & Hw' & Hs' & Hsv).
  rewrite Hs'. done.
Qed.

(** C8. A request that answers leaves, of all its attempts, failed rows and a
    successful last one, which belongs to the call that gave the answer and
    charges what its provider reported, or the estimate when it reported
    nothing. A request that fails leaves failed rows only; a cancelled one
    leaves its last row open, still charging the estimate. Other requests may
    reserve and settle between any two steps. *)
Theorem request_settled messages system_context tools t r t' : world_ok → routes_wf t →
  select (own ctx request_id) t = [] →
  complete_routed getenv router world ctx request_id messages system_context tools t = (r, t') →
  routes_wf t' ∧ ending r (select (own ctx request_id) t').
Proof.
  intros Hq Hw Hsel H. destruct (complete_routed_served _ _ _ _ _ _ Hq Hw Hsel H) as [Hw' Hs].
  split; [done|]. apply Hs.
Qed.

(** An attempt of the request: of a candidate that passed the guards, within
    the budget of one request, and after the first candidate only at a minor
    cost or under explicit confirmation. *)
Definition permitted (inputs : Z) t (row : ModelRoute) : Prop :=
  ∃ i c, _eligible getenv router ctx inputs t !! i = Some (c, rt_estimated row) ∧
    rt_provider row = mo_provider c ∧ rt_model row = mo_model c ∧
    admits getenv router ctx inputs t c = true ∧
    rt_estimated row ≤ po_request_budget (ro_policy router) ∧ may_try i (rt_estimated row).

(** A request makes at most one attempt, plus the configured retries, per
    capable candidate, in the order of their ordinals, and every attempt is
    permitted. A request beyond direct conversation without permission, or of
    high impact without confirmation, makes none. *)
Theorem attempts_permitted messages system_context tools t r t' : world_ok → routes_wf t →
  select (own ctx request_id) t = [] →
  complete_routed getenv router world ctx request_id messages system_context tools t = (r, t') →
  let inputs := Z.max (rc_context_tokens ctx) (_estimate_input_tokens messages system_context tools) in
  let rows := select (own ctx request_id) t' in
  (length rows ≤ length (ro_candidates router) * tries_per_candidate)%nat ∧
  StronglySorted (λ a b, rt_ordinal a < rt_ordinal b) rows ∧
  Forall (permitted inputs t) rows ∧
  (rows ≠ [] → (rc_category ctx = DIRECT_CONVERSATION ∨ rc_permission ctx = true) ∧
     (rc_category ctx = HIGH_IMPACT_ACTION → rc_confirmation ctx = true)).
Proof.
  intros Hq Hw Hsel H inputs rows. destruct (complete_routed_served _ _ _ _ _ _ Hq Hw Hsel H) as [Hw' [_ Hl (hi & Ho & _) Hr]].
  fold inputs rows in Hl, Ho, Hr. split_and!; [|done| |].
  - etransitivity; [exact Hl|]. apply Nat.mul_le_mono_r. rewrite eligible_perm, length_map.
    unfold select. apply List.filter_length_le.
  - eapply Forall_impl; [exact Hr|]. intros row (i & c & est & Hi & (Hp & Hm & <-) & Ht). exists i, c.
    destruct (elem_of_eligible getenv router ctx inputs t c (rt_estimated row)) as (_ & Hadm & He); [by eapply list_elem_of_lookup_2|].
    split_and!; try done. unfold admits in Hadm. bools. rewrite He. lia.
  - intros Hne. unfold complete_routed in H.
    destruct (rc_category ctx != DIRECT_CONVERSATION) eqn:E1, (rc_permission ctx) eqn:E2; simpl in H;
      try (injection H as <- <-; unfold rows in Hne; by rewrite Hsel in Hne).
    all: destruct (rc_category ctx == HIGH_IMPACT_ACTION) eqn:E3, (rc_confirmation ctx) eqn:E4; simpl in H;
      try (injection H as <- <-; unfold rows in Hne; by rewrite Hsel in Hne); bools; split; try intros ?; intuition congruence.
Qed.
End Attempts.
