(* ===== verification/RoutingWitness.v ===== *)
(** * Model routing on concrete requests

    The catalog is the default configuration of the repository. Two candidates
    are configured by their credentials; another owner reserves while the
    request waits. *)

From stdpp Require Import base option list sorting strings numbers sets pretty.
From Stdlib Require Import ZArith Lia.
From S2P Require Import Prelude Sql Feed PyFloat Calendar Order Routing RoutingTheorems.

Open Scope string_scope.
Open Scope list_scope.
Open Scope Z_scope.

Definition default_policy : RoutingPolicy := Build_RoutingPolicy 100000000 2000000 4096 (mkDecimal 95 (-2)) 0 50000.
Definition gpt : ModelCandidate :=
  Build_ModelCandidate "openai:gpt-4.1-mini" "openai" "gpt-4.1-mini" "OPENAI_API_KEY" "general-tools" 4 1048576 true true
    (mkDecimal 99 (-2)) 1800 400000 1600000 100000 metered None true true 4.
Definition gemini : ModelCandidate :=
  Build_ModelCandidate "google:gemini-2.0-flash" "google" "gemini-2.0-flash" "GOOGLE_API_KEY" "general-tools" 4 1048576 true true
    (mkDecimal 98 (-2)) 1400 100000 400000 25000 metered None true true 4.
Definition haiku : ModelCandidate :=
  Build_ModelCandidate "anthropic:claude-3-5-haiku" "anthropic" "claude-3-5-haiku-latest" "ANTHROPIC_API_KEY" "general-tools" 4 200000
    true false (mkDecimal 99 (-2)) 1600 800000 4000000 80000 metered None true true 4.
Definition demo_router : RoutedMagiModel :=
  Build_RoutedMagiModel [gpt; gemini; haiku] default_policy ["openai"; "anthropic"; "google"] [].
Definition demo_env (name : string) : string := if listed name ["OPENAI_API_KEY"; "GOOGLE_API_KEY"] then "key" else "".

Definition demo_ctx (owner : string) : ModelRouteContext :=
  Build_ModelRouteContext owner EXECUTION true false 1000 true false None (Some "gpt-4.1-mini").
Definition noon : Z := 1751371200000.

(** Another owner reserves for itself. *)
Definition neighbour (n : Z) (t : route_ledger) : route_ledger :=
  (commit (reserve (demo_ctx "v") "other" gemini n 4000 100000000 None ("mgr_v" +:+ pretty n) noon) t).2.
Definition demo_usage : MagiModelUsage := Build_MagiModelUsage 900 300 100.
Definition demo_answer : MagiModelResult := Build_MagiModelResult (Some "done") "stop" [] (Some demo_usage).
(** The first call times out, the second answers. *)
Definition demo_world (n : Z) : surroundings :=
  Build_surroundings id (neighbour n) noon (noon + 1500) ("mgr_u" +:+ pretty n)
    (if n =? 1 then Refused (Build_MagiModelError "timeout" true 0 false) else Completed demo_answer).

Definition demo_run : res route_error MagiModelResult * route_ledger :=
  complete_routed demo_env demo_router demo_world (demo_ctx "u") "r1" [] "You are Magi." [] [].

(** The cheapest candidate fails, the next one answers and is charged. *)
Example demo_routes :
  demo_run.1 = Ok demo_answer ∧
  map (λ r, (rt_owner r, rt_provider r, rt_ordinal r, rt_state r, rt_charge r)) demo_run.2 =
    [("u", "google", 1, route_failed, 0); ("v", "google", 1, route_reserved, 4000);
     ("u", "openai", 2, route_succeeded, 810); ("v", "google", 2, route_reserved, 4000)].
Proof. vm_compute. done. Qed.

Example month_starts : gmtime noon = Some (2025, 7, 1) ∧ month_start (2025, 7, 1) = 1751328000000 ∧
  gmtime 1709210096789 = Some (2024, 2, 29) ∧ month_start (2024, 2, 29) = 1706745600000.
Proof. vm_compute. done. Qed.

Lemma demo_world_ok : world_ok demo_world (demo_ctx "u") "r1".
Proof.
  split.
  - intros n t Hw. done.
  - intros n. apply (others_reserve (demo_ctx "u") "r1" (demo_ctx "v") "other"). by right.
  - intros n r u H Hu. simpl in H. destruct (n =? 1); [done|]. injection H as <-. injection Hu as <-. simpl. lia.
Qed.

Lemma empty_wf : routes_wf [].
Proof. split; constructor. Qed.

(** One reservation of 4000, settled at 810. *)
Definition held_call : route_ledger := (commit (reserve (demo_ctx "u") "r1" gemini 1 4000 100000000 None "mgr_1" noon) []).2.
Definition settled_call : route_ledger := (commit (settle "mgr_1" (Some demo_usage) (Some 810) None false (noon + 1)) held_call).2.
Lemma month_within_budget_witness :
  sum rt_charge (in_month "u" (2025, 7)) settled_call = 810 ∧
  sum rt_charge (in_month "u" (2025, 7)) settled_call ≤ 100000000 + sum overrun (in_month "u" (2025, 7)) settled_call.
Proof.
  split; [vm_compute; reflexivity|]. apply (month_within_budget 100000000); [lia|].
  apply (rr_settle _ "mgr_1" (Some demo_usage) (Some 810) None false (noon + 1) held_call tt); [|vm_compute; reflexivity].
  apply (rr_reserve _ (demo_ctx "u") "r1" gemini 1 4000 100000000 None "mgr_1" noon [] "mgr_1"); [constructor|vm_compute; split; congruence|lia|].
  vm_compute. reflexivity.
Defined.

Lemma request_settled_witness :
  routes_wf demo_run.2 ∧ ending demo_world demo_run.1 (select (own (demo_ctx "u") "r1") demo_run.2).
Proof.
  apply (request_settled demo_env demo_router demo_world (demo_ctx "u") "r1" [] "You are Magi." [] []);
    [apply demo_world_ok|apply empty_wf|reflexivity|apply surjective_pairing].
Defined.

