(* ===== verification/Hosted.v ===== *)
(** * Hosted execution ([gateway/app/hosted_execution.py])

    The durable queue of hosted runs: one run per accepted submission, claimed
    under a lease, launched on an isolation backend, retired when its objective
    ends, and the outbox of decision answers its worker collects. The store
    shares the database of [Objectives] and [Execution].

    The isolation backend is code behind HTTP: a call is given its outcome.
    HMAC and the encryption of secrets are parameters; leases, worker tokens
    and the clock are arguments. *)

From stdpp Require Import base option list strings numbers sets.
From Stdlib Require Import ZArith Lia.
From S2P Require Import Prelude Sql Feed Json BillingCatalog BillingLedger Text Activity Deployment Objectives Execution.

Open Scope string_scope.
Open Scope list_scope.
Open Scope Z_scope.

Inductive hosted_error :=
| HostedRuntimeError
| HTTPException (status_code : Z)
| HostedPyError
| HostedObjective (e : obj_error)
| FirstmateDecisionError (code : string)
| IsolationBackendError.

(** ** Tables *)

Inductive run_state := queued | launching | running | terminal.
#[export] Instance run_state_eq_dec : EqDecision run_state.
Proof. solve_decision. Defined.

(** [hosted_execution_runs] *)
Record hosted_run := {
  hr_owner : string; hr_objective : string; hr_task : string; hr_run : string; hr_project : string;
  hr_tenant : string; hr_isolation : string; hr_backend : string; hr_token_hash : string; hr_token_enc : string;
  hr_state : run_state; hr_attempts : Z; hr_lease : option string; hr_lease_expires : option Z;
  hr_error : option string; hr_terminal_observed : option Z; hr_cleaned : option Z; hr_created : Z; hr_updated : Z;
}.
#[export] Instance hosted_run_settable : Settable hosted_run :=
  λ r, Build_hosted_run (hr_owner r) (hr_objective r) (hr_task r) (hr_run r) (hr_project r) (hr_tenant r) (hr_isolation r)
    (hr_backend r) (hr_token_hash r) (hr_token_enc r) (hr_state r) (hr_attempts r) (hr_lease r) (hr_lease_expires r)
    (hr_error r) (hr_terminal_observed r) (hr_cleaned r) (hr_created r) (hr_updated r).
(** The primary key and the four unique columns. *)
Definition hosted_run_clash (a b : hosted_run) : bool :=
  (hr_objective a == hr_objective b) || (hr_task a == hr_task b) || (hr_run a == hr_run b) ||
  (hr_backend a == hr_backend b) || (hr_token_hash a == hr_token_hash b).

Inductive delivery_status := delivery_pending | delivery_accepted | delivery_rejected.
#[export] Instance delivery_status_eq_dec : EqDecision delivery_status.
Proof. solve_decision. Defined.

(** [hosted_decision_deliveries] *)
Record delivery := {
  dl_id : string; dl_owner : string; dl_objective : string; dl_task : string; dl_identity : string;
  dl_answer_enc : string; dl_answer_sha256 : string; dl_status : delivery_status; dl_created : Z; dl_updated : Z;
}.
#[export] Instance delivery_settable : Settable delivery :=
  λ d, Build_delivery (dl_id d) (dl_owner d) (dl_objective d) (dl_task d) (dl_identity d) (dl_answer_enc d)
    (dl_answer_sha256 d) (dl_status d) (dl_created d) (dl_updated d).
Definition delivery_clash (a b : delivery) : bool :=
  (dl_id a == dl_id b) ||
  ((dl_owner a == dl_owner b) && (dl_task a == dl_task b) && (dl_identity a == dl_identity b) &&
   (dl_answer_sha256 a == dl_answer_sha256 b)).

Record hosted_db := { hd_objectives : obj_db; hd_runs : list hosted_run; hd_deliveries : list delivery }.
#[export] Instance hosted_db_settable : Settable hosted_db :=
  λ s, Build_hosted_db (hd_objectives s) (hd_runs s) (hd_deliveries s).

Definition htx (A : Type) : Type := tx hosted_error hosted_db A.

(** Runs a transaction of the objective stores. *)
Definition in_objectives {A} (m : otx A) : htx A := λ s,
  match m (hd_objectives s) with
  | Ok (a, o) => Ok (a, s <| hd_objectives := o |>)
  | Err e => Err (HostedObjective e)
  end.
Definition set_runs (f : list hosted_run → list hosted_run) : htx unit := modify (λ s, s <| hd_runs ::= f |>).

(** ** Configuration *)

Record HostedExecutionConfig := {
  hc_max_global : Z; hc_max_per_tenant : Z; hc_lease_ms : Z;
}.

Section Hosted.
Context `{Codec}.
(** [hmac.new(identity_key, message, sha256).hexdigest()] of the configured
    key, and [db.encrypt_token]. *)
Context (hmac_hex : string → string) (encrypt_token : string → string).

Definition opaque (purpose : string) (values : list string) (length : nat) : string :=
  str_take length (hmac_hex (join NUL (purpose :: values))).
(** Tenant, isolation and execution keys of an objective. *)
Definition identities (owner project objective : string) : string * string * string :=
  (opaque "tenant" [owner] 32, "iso_" +:+ opaque "isolation" [owner; project] 32,
   "hex_" +:+ opaque "execution" [owner; objective] 32).

(** ** The run store *)

Definition run_of (objective : string) (r : hosted_run) : bool := hr_objective r == objective.
Definition is_active (r : hosted_run) : bool := (hr_state r == launching) || (hr_state r == running).
Definition active_of (tenant : string) (r : hosted_run) : bool := (hr_tenant r == tenant) && is_active r.
(** The [EXISTS] over [objective_cancellation_requests]. *)
Definition cancellation_requested (s : hosted_db) (r : hosted_run) : bool :=
  exists_row (λ c, is_cancellation (hr_owner r) (hr_objective r) c && (cn_status c == requested)) (cancellations (hd_objectives s)).
(** The joined submission of a run. *)
Definition submission_of (s : hosted_db) (r : hosted_run) : option submission :=
  fetchone (λ b, sb_objective b == hr_objective r) (submissions (hd_objectives s)).
Definition joined (s : hosted_db) (l : list hosted_run) : list (hosted_run * submission) :=
  omap (λ r, (λ b, (r, b)) <$> submission_of s r) l.

(** [NULL] sorts before every value. *)
Definition nullable_le (a b : option Z) : bool :=
  match a, b with None, _ => true | Some _, None => false | Some x, Some y => x <=? y end.
Definition accepted_order (a b : submission) : bool :=
  if sb_accepted_at a == sb_accepted_at b then sb_created a <=? sb_created b
  else nullable_le (sb_accepted_at a) (sb_accepted_at b).

(** The accepted submissions without a run, oldest first. *)
Definition unqueued (s : hosted_db) : list submission :=
  take 200 (order_by accepted_order (select (λ b, (sb_status b == s_accepted) &&
    negb (exists_row (run_of (sb_objective b)) (hd_runs s))) (submissions (hd_objectives s)))).

(** [contract["project"]], a string of the validated contract. *)
Definition contract_project (b : submission) : option string :=
  d ← loads (sb_contract_json b) ≫= as_dict; as_str (get "project" d).

Definition queued_run (now : Z) (b : submission) (project token : string) : hosted_run :=
  let '(tenant, isolation, execution) := identities (sb_owner b) project (sb_objective b) in
  let run_hash := sha256_hex ("hosted-run-v1" +:+ NUL +:+ sb_owner b +:+ NUL +:+ sb_objective b) in
  Build_hosted_run (sb_owner b) (sb_objective b) (sb_task b) ("run_" +:+ str_take 32 run_hash) project tenant isolation
    execution (sha256_hex token) (encrypt_token token) queued 0 None None None None None now now.

(** The [INSERT OR IGNORE] of one submission. *)
Definition enqueue (now : Z) (token : string → string) (b : submission) : htx unit :=
  project ← lift (of_option HostedPyError (contract_project b));
  set_runs (λ t, match insert hosted_run_clash (queued_run now b project (token (sb_objective b))) t with
                 | Some t' => t' | None => t end).
Fixpoint enqueue_all (now : Z) (token : string → string) (l : list submission) : htx unit :=
  match l with [] => mret tt | b :: l' => enqueue now token b;; enqueue_all now token l' end.

(** Launching runs whose lease has expired. *)
Definition lease_lost (now : Z) (r : hosted_run) : bool :=
  (hr_state r == launching) && match hr_lease_expires r with Some e => e <? now | None => false end.
Definition requeued (now : Z) (error : option (option string)) (r : hosted_run) : hosted_run :=
  r <| hr_state := queued |> <| hr_lease := None |> <| hr_lease_expires := None |>
    <| hr_error ::= (λ e, default e error) |> <| hr_updated := now |>.

(** Queued runs that may start, oldest first. *)
Definition candidates (s : hosted_db) : list (hosted_run * submission) :=
  take 200 (order_by (λ a b, hr_created a.1 <=? hr_created b.1)
    (joined s (select (λ r, (hr_state r == queued) && negb (cancellation_requested s r)) (hd_runs s)))).

Definition leased (now lease_ms : Z) (lease : string) (r : hosted_run) : hosted_run :=
  r <| hr_state := launching |> <| hr_attempts ::= Z.succ |> <| hr_lease := Some lease |>
    <| hr_lease_expires := Some (now + lease_ms) |> <| hr_error := None |> <| hr_updated := now |>.

(** What [claim] returns: the row it selected with the new lease and attempt. *)
Record hosted_claim := { cm_run : hosted_run; cm_submission : submission; cm_lease : string; cm_attempts : Z }.

Definition claim (config : HostedExecutionConfig) (now : Z) (token : string → string) (lease : string) : htx (option hosted_claim) :=
  pending ← read unqueued;
  enqueue_all now token pending;;
  set_runs (update (lease_lost now) (requeued now None));;
  active ← read (λ s, count is_active (hd_runs s));
  if hc_max_global config <=? active then mret None
  else
    selected ← read (λ s, fetchone (λ c, count (active_of (hr_tenant c.1)) (hd_runs s) <? hc_max_per_tenant config) (candidates s));
    match selected with
    | None => mret None
    | Some (r, b) =>
        let target x := run_of (hr_objective r) x && (hr_state x == queued) in
        changed ← read (λ s, count target (hd_runs s));
        set_runs (update target (leased now (hc_lease_ms config) lease));;
        if negb (changed =? 1) then mret None
        else mret (Some (Build_hosted_claim r b lease (hr_attempts r + 1)))
    end.

Definition holds_lease (objective lease : string) (r : hosted_run) : bool :=
  run_of objective r && (hr_state r == launching) && (hr_lease r == Some lease).

(** [launched]; the exception is raised after the commit, when no row changed. *)
Definition launched (now : Z) (objective lease : string) : htx unit :=
  changed ← read (λ s, count (holds_lease objective lease) (hd_runs s));
  set_runs (update (holds_lease objective lease) (λ r, r <| hr_state := running |> <| hr_lease := None |>
    <| hr_lease_expires := None |> <| hr_updated := now |>));;
  require (changed =? 1) HostedRuntimeError.

Definition launch_failed (now : Z) (objective lease : string) : htx unit :=
  set_runs (update (holds_lease objective lease) (requeued now (Some (Some "launch_failed")))).

Definition queued_cancellations (s : hosted_db) : list (hosted_run * submission) :=
  take 100 (order_by (λ a b, hr_created a.1 <=? hr_created b.1)
    (joined s (select (λ r, (hr_state r == queued) && cancellation_requested s r) (hd_runs s)))).

(** Running runs with the terminal phase of their objective. *)
Definition active (s : hosted_db) : list (hosted_run * option string * bool) :=
  map (λ r, (r, fetchone (is_execution (hr_owner r) (hr_objective r)) (executions (hd_objectives s)) ≫= ex_terminal_phase,
             cancellation_requested s r))
    (take 1000 (order_by (λ a b, hr_created a <=? hr_created b) (select (λ r, hr_state r == running) (hd_runs s)))).

Definition terminal_timestamp (now : Z) (objective : string) : htx Z :=
  set_runs (update (run_of objective) (λ r, r <| hr_terminal_observed ::= (λ t, Some (default now t)) |>));;
  row ← read (λ s, fetchone (run_of objective) (hd_runs s));
  lift (of_option HostedRuntimeError (row ≫= hr_terminal_observed)).

(** A retired run keeps no secret and no lease. *)
Definition retired (now : Z) (r : hosted_run) : hosted_run :=
  r <| hr_state := terminal |> <| hr_lease := None |> <| hr_lease_expires := None |>
    <| hr_token_hash := "retired:" +:+ hr_objective r |> <| hr_token_enc := "" |> <| hr_updated := now |>.

Definition mark_terminal (now : Z) (owner objective : string) : htx unit :=
  set_runs (update (λ r, (hr_owner r == owner) && run_of objective r) (retired now)).

Definition pending_cleanup (s : hosted_db) : list hosted_run :=
  take 100 (select (λ r, (hr_state r == terminal) && (hr_cleaned r == None)) (hd_runs s)).

Definition retirement_order (a b : hosted_run) : bool :=
  (hr_created a <? hr_created b) || ((hr_created a =? hr_created b) && String.leb (hr_objective a) (hr_objective b)).
(** [HostedExecutionStore.retire_owner] *)
Definition retire_runs (now : Z) (owner : string) : htx (list hosted_run) :=
  let live r := (hr_owner r == owner) && (hr_cleaned r == None) in
  rows ← read (λ s, order_by retirement_order (select live (hd_runs s)));
  set_runs (update live (retired now));;
  mret rows.

Definition cleaned (now : Z) (objective : string) : htx unit :=
  set_runs (update (run_of objective) (λ r, r <| hr_cleaned := Some now |> <| hr_updated := now |>)).

Definition workload (objective : string) (s : hosted_db) : option (hosted_run * submission) :=
  r ← fetchone (run_of objective) (hd_runs s); b ← submission_of s r; Some (r, b).
Definition github_target (run : hosted_run * submission) (s : hosted_db) : option repository :=
  execution_repository (hd_objectives s) (hr_owner run.1) (sb_project run.2).

(** ** The workload's bearer *)

Definition authenticate (objective : string) (authorization : option string) (s : hosted_db) : res hosted_error (hosted_run * submission) :=
  header ← of_option (HTTPException 401) authorization;
  ensure (startswith "Bearer " header) (HTTPException 401);;
  let token := str_drop 7 header in
  ensure ((token != "") && (str_len token <=? 256)) (HTTPException 401);;
  run ← of_option (HTTPException 404) (workload objective s);
  ensure (hr_state run.1 == running) (HTTPException 404);;
  ensure (sha256_hex token == hr_token_hash run.1) (HTTPException 403);;
  mret run.

(** ** Decision answers *)

(** [answer_decision] up to its polling loop: [current] is the open lifecycle
    identity of the task, [None] when its decision is closed. *)
Inductive command := Stale | Sent (delivery : string).
Definition delivery_id (task identity digest : string) : string :=
  "hda_" +:+ str_take 32 (sha256_hex ("hosted-answer-v1" +:+ NUL +:+ task +:+ NUL +:+ identity +:+ NUL +:+ digest)).
Definition answer_decision (now : Z) (task identity answer : string) (current : option string) (allow_closed_replay : bool) : htx command :=
  if match current with Some c => c != identity | None => negb allow_closed_replay end then mret Stale
  else
    let digest := sha256_hex answer in
    let id := delivery_id task identity digest in
    run ← read (λ s, fetchone (λ r, (hr_task r == task) && (hr_state r == running)) (hd_runs s));
    r ← lift (of_option (FirstmateDecisionError "command_unavailable") run);
    modify (λ s, s <| hd_deliveries ::= (λ t,
      match insert delivery_clash (Build_delivery id (hr_owner r) (hr_objective r) task identity (encrypt_token answer)
                                     digest delivery_pending now now) t with
      | Some t' => t' | None => t end) |>);;
    mret (Sent id).

(** One poll: [None] keeps waiting. *)
Definition poll_delivery (id : string) (s : hosted_db) : option bool :=
  d ← fetchone (λ d, dl_id d == id) (hd_deliveries s);
  match dl_status d with
  | delivery_accepted => Some true | delivery_rejected => Some false | delivery_pending => None
  end.

(** The answers a worker collects, oldest first. *)
Definition decision_answers (run : hosted_run) (s : hosted_db) : list delivery :=
  take 10 (order_by (λ a b, dl_created a <=? dl_created b)
    (select (λ d, (dl_owner d == hr_owner run) && (dl_objective d == hr_objective run) && (dl_task d == hr_task run) &&
       (dl_status d == delivery_pending)) (hd_deliveries s))).

(** The worker's acknowledgement: [status] is accepted or rejected. *)
Definition ack_decision_answer (now : Z) (run : hosted_run) (id : string) (status : delivery_status) : htx unit :=
  let mine d := (dl_id d == id) && (dl_owner d == hr_owner run) && (dl_objective d == hr_objective run) in
  let target d := mine d && (dl_status d == delivery_pending) in
  changed ← read (λ s, count target (hd_deliveries s));
  modify (λ s, s <| hd_deliveries ::= update target (λ d, d <| dl_status := status |> <| dl_updated := now |>) |>);;
  if changed =? 0 then
    existing ← read (λ s, fetchone mine (hd_deliveries s));
    d ← lift (of_option (HTTPException 404) existing);
    require (dl_status d == status) (HTTPException 409)
  else mret tt.

(** ** The controller *)

(** A controller method is a program of several transactions. *)
Local Abbreviation io := (Prelude.io hosted_error hosted_db).

Context `{TextEngine}.
(** The canonical JSON of an event: identity, task, run, time, body and
    measured usage; and the validation of a title. *)
Context (payload_of : string → hosted_run → Z → event_body → string → string) (valid_title : string → string → bool).

Definition hosted_event (id : string) (r : hosted_run) (occurred_at : Z) (body : event_body) (usage : string) : exec_event :=
  {| xe_id := id; xe_objective := hr_objective r; xe_task := hr_task r; xe_run := hr_run r; xe_occurred_at := occurred_at;
     xe_body := body; xe_payload := payload_of id r occurred_at body usage |}.
Definition event_digest (purpose : string) (r : hosted_run) : string :=
  "hev_" +:+ str_take 32 (sha256_hex (purpose +:+ NUL +:+ hr_owner r +:+ NUL +:+ hr_objective r)).

(** [run["accepted_at"] or run["created_at"]] *)
Definition accepted_time (r : hosted_run) (b : submission) : Z :=
  match sb_accepted_at b with Some t => if t =? 0 then hr_created r else t | None => hr_created r end.

Definition accepted_event (r : hosted_run) (b : submission) : res hosted_error exec_event :=
  project ← of_option HostedPyError (contract_project b);
  let title := if sb_title b == "" then "Hosted objective" else sb_title b in
  let facts := if valid_title title project then Some title
               else if valid_title "Hosted objective" project then Some "Hosted objective" else None in
  title ← of_option HostedPyError facts;
  mret (hosted_event (event_digest "accepted" r) r (accepted_time r b)
          (AcceptedBody title (Some project) (sb_conversation b) (sb_user_message b)) "").

Definition ingest_event (now : Z) (owner : string) (e : exec_event) : io public_event := run_tx (in_objectives (ingest now owner e)).
Definition _accepted_event (now : Z) (r : hosted_run) (b : submission) : io unit :=
  e ← pure (accepted_event r b);
  ingest_event now (hr_owner r) e;; mret tt.
Definition _worker_started_event (now : Z) (r : hosted_run) : io unit :=
  ingest_event now (hr_owner r) (hosted_event (event_digest "worker-started" r) r (hr_updated r) (ProgressBody "worker.started") "");; mret tt.

(** [isolation.ensure]: a receipt or an exception. *)
Definition ensured (r : hosted_run) (receipt : option string) : io unit :=
  pure (i ← of_option IsolationBackendError receipt; ensure (i == hr_backend r) HostedRuntimeError).

(** What the other tasks commit at the awaits of a method. *)
Context (others : nat → hosted_db → hosted_db).
Local Abbreviation await := (await others).

(** [process_once]: claim, launch, and settle the claim. *)
Definition launch_claimed (now : Z) (lease : string) (receipt : option string) (c : hosted_claim) : io bool :=
  await 0;;
  _accepted_event now (cm_run c) (cm_submission c);;
  await 1;;
  ensured (cm_run c) receipt;;
  await 2;;
  run_tx (launched now (hr_objective (cm_run c)) lease);;
  mret true.
Definition give_back (now : Z) (lease : string) (c : hosted_claim) : io bool :=
  await 3;; run_tx (launch_failed now (hr_objective (cm_run c)) lease);; mret false.
Definition process_once (config : HostedExecutionConfig) (now : Z) (token : string → string) (lease : string) (receipt : option string) : io bool :=
  claimed ← run_tx (claim config now token lease);
  match claimed with
  | None => mret false
  | Some c => or_else_do (launch_claimed now lease receipt c) (give_back now lease c)
  end.

(** The end of a run: the terminal fact, then the retirement. [phase] and the
    measured usage come from the backend; [purpose] names the event. *)
Definition end_run (now : Z) (purpose phase usage : string) (r : hosted_run) : io unit :=
  at_ ← run_tx (terminal_timestamp now (hr_objective r));
  ingest_event now (hr_owner r) (hosted_event (event_digest purpose r) r at_ (TerminalBody phase) usage);;
  run_tx (mark_terminal now (hr_owner r) (hr_objective r)).

(** A cancellation that wins before the launch. *)
Definition reconcile_queued (now : Z) (usage : string) (item : hosted_run * submission) : io unit :=
  _accepted_event now item.1 item.2;;
  end_run now "prelaunch-cancel" "objective.cancelled" usage item.1.

(** What the backend reports of a run. *)
Inductive backend_status :=
| BackendMissing | BackendQueued | BackendRunning | BackendEnded (is_cancel : bool) (usage : option string) | BackendError.

Definition reconcile_active (now : Z) (cancel_ok : bool) (status : backend_status) (receipt : option string)
    (item : hosted_run * option string * bool) : io unit :=
  let '(r, phase, cancelling) := item in
  if match phase with Some p => p != "" | None => false end then run_tx (mark_terminal now (hr_owner r) (hr_objective r))
  else
    pure (ensure (negb cancelling || cancel_ok) IsolationBackendError);;
    match status with
    | BackendError => pure (Err IsolationBackendError)
    | BackendMissing => pure (match receipt with Some _ => Ok tt | None => Err IsolationBackendError end)
    | BackendQueued => mret tt
    | BackendRunning => _worker_started_event now r
    | BackendEnded is_cancel usage =>
        _worker_started_event now r;;
        u ← pure (of_option HostedRuntimeError usage);
        let phase := if is_cancel : bool then "objective.cancelled" else "objective.failed" in
        end_run now ("worker-exit" +:+ NUL +:+ phase) phase u r
    end.

(** Deletion on the backend, then the mark. *)
Definition clean_up (now : Z) (deleted : bool) (r : hosted_run) : io unit :=
  pure (ensure deleted IsolationBackendError);;
  run_tx (cleaned now (hr_objective r)).

(** [retire_owner]: every run is fenced before the first call to the backend;
    [calls] are the outcomes of its cancel and delete calls, in order. *)
Fixpoint discard_runs (now : Z) (calls : list (bool * bool)) (rows : list hosted_run) : io unit :=
  match rows, calls with
  | [], _ => mret tt
  | r :: rows, (cancel_ok, deleted) :: calls =>
      pure (ensure (negb (is_active r) || cancel_ok) IsolationBackendError);;
      clean_up now deleted r;;
      discard_runs now calls rows
  | _ :: _, [] => pure (Err IsolationBackendError)
  end.
Definition retire_owner (now : Z) (owner : string) (calls : list (bool * bool)) : io unit :=
  rows ← run_tx (retire_runs now owner);
  discard_runs now calls rows.

(** [POST /objectives/{objective_id}/events]: the worker reports on its own run
    only, and its terminal event retires the run. *)
Definition post_hosted_event (now : Z) (objective : string) (authorization : option string) (e : exec_event) : io public_event :=
  run ← (λ s, (authenticate objective authorization s, s));
  pure (ensure (negb (xe_phase e == "objective.accepted") && (xe_objective e == hr_objective run.1) &&
    (xe_task e == hr_task run.1) && (xe_run e == hr_run run.1)) (HTTPException 409));;
  result ← ingest_event now (hr_owner run.1) e;
  if _TERMINAL_PHASES (xe_phase e) then run_tx (mark_terminal now (hr_owner run.1) objective);; mret result
  else mret result.
End Hosted.
