(* ===== verification/HostedInvariant.v ===== *)
(** * The life of a hosted run

    [lifecycle] is the contract of the run store: identities never change, a
    terminal run stays terminal without its secrets, the first terminal time
    is kept. Every operation moves every run along it, whatever the other
    components do to the objectives. *)

From stdpp Require Import base option list strings numbers sets.
From Stdlib Require Import ZArith Lia.
From S2P Require Import Prelude Sql Feed Json BillingCatalog BillingLedger Text Activity Deployment Objectives Execution Hosted.

Open Scope string_scope.
Open Scope list_scope.
Open Scope Z_scope.

(** ** The contract *)

(** A terminal run has neither lease nor secrets. *)
Definition fenced (r : hosted_run) : Prop :=
  hr_state r = terminal → hr_lease r = None ∧ hr_token_enc r = "" ∧ hr_token_hash r = "retired:" +:+ hr_objective r.
(** A lease belongs to a launching run. *)
Definition lease_sound (r : hosted_run) : Prop := is_Some (hr_lease r) → hr_state r = launching.

Record lifecycle (r r' : hosted_run) : Prop := {
  lc_objective : hr_objective r' = hr_objective r;
  lc_identity : (hr_owner r', hr_task r', hr_run r', hr_project r', hr_tenant r', hr_isolation r', hr_backend r', hr_created r') =
                (hr_owner r, hr_task r, hr_run r, hr_project r, hr_tenant r, hr_isolation r, hr_backend r, hr_created r);
  lc_terminal : hr_state r = terminal → hr_state r' = terminal;
  lc_running : hr_state r = running → hr_state r' = running ∨ hr_state r' = terminal;
  lc_attempts : hr_attempts r ≤ hr_attempts r';
  lc_observed : ∀ t, hr_terminal_observed r = Some t → hr_terminal_observed r' = Some t;
  lc_cleaned : is_Some (hr_cleaned r) → is_Some (hr_cleaned r');
  lc_secret : hr_token_hash r' = hr_token_hash r ∨ hr_token_hash r' = "retired:" +:+ hr_objective r;
}.

#[export] Instance lifecycle_preorder : PreOrder lifecycle.
Proof.
  split.
  - intros r. split; auto; lia.
  - intros a b c [] []. split; try congruence; eauto; try lia.
    + intros Ha. destruct (lc_running0 Ha) as [Hb|Hb]; auto.
    + destruct lc_secret1 as [E|E]; rewrite E; [done|]. right. congruence.
Qed.

(** Every run is still there in a later state, further along. *)
Definition runs_follow (t t' : list hosted_run) : Prop := ∀ r, r ∈ t → ∃ r', r' ∈ t' ∧ lifecycle r r'.

#[export] Instance runs_follow_preorder : PreOrder runs_follow.
Proof.
  split; [intros t r Hr; by exists r|]. intros a b c Hab Hbc r Hr.
  destruct (Hab r Hr) as (r1 & H1 & L1), (Hbc r1 H1) as (r2 & H2 & L2). exists r2. split; [done|by etrans].
Qed.

Lemma runs_follow_update p f t : (∀ r, r ∈ t → p r = true → lifecycle r (f r)) → runs_follow t (update p f t).
Proof.
  intros H r Hr. exists (if p r then f r else r). split; [by apply elem_of_update; exists r|].
  destruct (p r) eqn:E; [auto|done].
Qed.

Record runs_ok (t : list hosted_run) : Prop := {
  ro_unique : NoDup (map hr_objective t);
  ro_fenced : Forall fenced t;
  ro_leases : Forall lease_sound t;
}.

(** [UPDATE] keeps the constraints when the changed rows do. *)
Lemma runs_ok_update p f t : (∀ r, r ∈ t → p r = true → hr_objective (f r) = hr_objective r ∧ fenced (f r) ∧ lease_sound (f r)) →
  runs_ok t → runs_ok (update p f t).
Proof.
  intros Hf [Hn Hfe Hl]. split.
  - rewrite map_update_in; [done|]. intros r Hr Hp. by apply Hf.
  - apply Forall_update; [done|]. intros r Hr Hp _. by apply Hf.
  - apply Forall_update; [done|]. intros r Hr Hp _. by apply Hf.
Qed.

(** A statement on the runs that keeps the contract. *)
Definition run_step (f : list hosted_run → list hosted_run) : Prop := ∀ t, runs_ok t → runs_ok (f t) ∧ runs_follow t (f t).

Lemma run_step_update p f :
  (∀ r, p r = true → fenced r → lease_sound r → lifecycle r (f r) ∧ fenced (f r) ∧ lease_sound (f r)) → run_step (update p f).
Proof.
  intros H t Hok. pose proof Hok as [_ Hfe Hl]. rewrite Forall_forall in Hfe, Hl.
  split; [apply runs_ok_update; [|done]|apply runs_follow_update]; intros r Hr Hp;
    destruct (H r Hp (Hfe r Hr) (Hl r Hr)) as (Hlc & ? & ?); [split_and!; auto; apply Hlc|done].
Qed.

(** The changes of the store, one lemma each. *)
Section Moves.
Implicit Types (r : hosted_run).

Ltac moves := intros; split_and!; [split; simpl; try done; try lia; try (by intros ? ->); intuition congruence|..];
  unfold fenced, lease_sound in *; simpl; try done; naive_solver.

Lemma requeue_step now p e : (∀ r, p r = true → hr_state r = launching) → run_step (update p (requeued now e)).
Proof. intros Hp. apply run_step_update. intros r Hr%Hp ? ?. moves. Qed.

Lemma lease_step now ms l p : (∀ r, p r = true → hr_state r = queued) → run_step (update p (leased now ms l)).
Proof. intros Hp. apply run_step_update. intros r Hr%Hp ? ?. moves. Qed.

Lemma launch_step now o l : run_step (update (holds_lease o l) (λ r, r <| hr_state := running |> <| hr_lease := None |>
  <| hr_lease_expires := None |> <| hr_updated := now |>)).
Proof.
  apply run_step_update. intros r Hr ? ?. unfold holds_lease in Hr. bools. moves.
Qed.

Lemma retire_step now p : run_step (update p (retired now)).
Proof. apply run_step_update. intros r Hr ? ?. moves. Qed.

Lemma observe_step now o : run_step (update (run_of o) (λ r, r <| hr_terminal_observed ::= (λ t, Some (default now t)) |>)).
Proof. apply run_step_update. intros r Hr ? ?. moves. Qed.

Lemma clean_step now o : run_step (update (run_of o) (λ r, r <| hr_cleaned := Some now |> <| hr_updated := now |>)).
Proof. apply run_step_update. intros r Hr ? ?. moves. Qed.
End Moves.

(** ** Operations *)

Lemma holds_lease_spec o l r : holds_lease o l r = true → hr_objective r = o ∧ hr_state r = launching ∧ hr_lease r = Some l.
Proof. unfold holds_lease, run_of. intros H. by bools. Qed.

Definition runs_sound (s : hosted_db) : Prop := runs_ok (hd_runs s).
Create HintDb follows.

(** From a sound state, a run of [m] ends in a sound state that follows it. *)
Definition follows {A} (m : htx A) : Prop := ∀ s a s', runs_sound s → m s = Ok (a, s') → runs_sound s' ∧ runs_follow (hd_runs s) (hd_runs s').

Lemma follows_bind {A B} (m : htx A) (f : A → htx B) : follows m → (∀ a, follows (f a)) → follows (m ≫= f).
Proof.
  intros Hm Hf s b s' Hs (a & s1 & H1 & H2)%bind_ok. destruct (Hm _ _ _ Hs H1) as [Hs1 F1].
  destruct (Hf a _ _ _ Hs1 H2) as [Hs2 F2]. split; [done|by etrans].
Qed.
Lemma follows_pure {A} (m : htx A) : (∀ s a s', m s = Ok (a, s') → hd_runs s' = hd_runs s) → follows m.
Proof. intros H s a s' Hs Hm%H. unfold runs_sound. rewrite Hm. done. Qed.
Lemma follows_read {A} (f : hosted_db → A) : follows (read f).
Proof. apply follows_pure. by intros s a s' [_ <-]%read_ok. Qed.
Lemma follows_ret {A} (a : A) : follows (mret a).
Proof. apply follows_pure. by intros s b s' [_ <-]%ret_ok. Qed.
Lemma follows_lift {A} (r : res hosted_error A) : follows (lift r).
Proof. apply follows_pure. by intros s b s' [_ <-]%lift_ok. Qed.
Lemma follows_require b e : follows (require b e).
Proof. apply follows_lift. Qed.
Lemma follows_set f : run_step f → follows (set_runs f).
Proof. intros Hf s a s' Hs ->%modify_ok. by apply Hf. Qed.
Lemma follows_deliveries f : follows (modify (λ s, s <| hd_deliveries ::= f |>)).
Proof. apply follows_pure. by intros s a s' ->%modify_ok. Qed.
Lemma follows_objectives {A} (m : otx A) : follows (in_objectives m).
Proof. apply follows_pure. intros s a s' H. unfold in_objectives in H. by destruct (m _) as [[? ?]|]; simplify_eq/=. Qed.
#[local] Hint Resolve follows_read follows_ret follows_lift follows_require follows_deliveries follows_objectives : follows.
#[local] Hint Resolve follows_set requeue_step lease_step launch_step retire_step observe_step clean_step : follows.

Ltac follow := repeat (intros; match goal with
  | |- follows (mbind _ _) => apply follows_bind
  | |- follows (match ?x with _ => _ end) => destruct x
  | |- follows (if ?x then _ else _) => destruct x
  | |- follows _ => solve [eauto with follows]
  end); intros.

Section Operations.
Context `{Codec} (hmac_hex : string → string) (encrypt_token : string → string).
Local Abbreviation claim := (claim hmac_hex encrypt_token).
Local Abbreviation enqueue := (enqueue hmac_hex encrypt_token).

Lemma enqueue_step r : hr_state r = queued → hr_lease r = None →
  run_step (λ t, match insert hosted_run_clash r t with Some t' => t' | None => t end).
Proof.
  intros Hq Hl t [Hn Hf Hls]. destruct (insert _ _ _) as [t'|] eqn:E; [|done]. split.
  - split.
    + eapply insert_NoDup; [|exact E|done]. intros a b Eab. unfold hosted_run_clash. by rewrite Eab, eqb_refl.
    + apply insert_some in E as [-> _]. apply Forall_app. split; [done|]. constructor; [|done]. unfold fenced. by rewrite Hq.
    + apply insert_some in E as [-> _]. apply Forall_app. split; [done|]. constructor; [|done]. unfold lease_sound. rewrite Hl. by intros [? ?].
  - apply insert_some in E as [-> _]. intros x Hx. exists x. split; [set_solver|done].
Qed.

Lemma enqueue_follows now token b : follows (enqueue now token b).
Proof.
  unfold Hosted.enqueue. apply follows_bind; [auto with follows|]. intros project. apply follows_set, enqueue_step;
    unfold queued_run; by destruct (identities _ _ _ _) as [[? ?] ?].
Qed.

Lemma enqueue_all_follows now token l : follows (enqueue_all hmac_hex encrypt_token now token l).
Proof. induction l as [|b l IH]; simpl; [follow|]. apply follows_bind; [apply enqueue_follows|done]. Qed.
#[local] Hint Resolve enqueue_all_follows : follows.

Lemma lease_lost_launching now r : lease_lost now r = true → hr_state r = launching.
Proof. unfold lease_lost. intros H0. by bools. Qed.

Lemma claim_follows config now token lease : follows (claim config now token lease).
Proof.
  unfold Hosted.claim. follow.
  - apply follows_set, requeue_step. apply lease_lost_launching.
  - apply follows_set, lease_step. intros r Hr. by bools.
Qed.

Lemma launched_follows now o l : follows (launched now o l).
Proof. unfold launched. follow. Qed.
Lemma launch_failed_follows now o l : follows (launch_failed now o l).
Proof. apply follows_set, requeue_step. intros r Hr. unfold holds_lease in Hr. by bools. Qed.
Lemma terminal_timestamp_follows now o : follows (terminal_timestamp now o).
Proof. unfold terminal_timestamp. follow. Qed.
Lemma mark_terminal_follows now w o : follows (mark_terminal now w o).
Proof. unfold mark_terminal. auto with follows. Qed.
Lemma retire_runs_follows now w : follows (retire_runs now w).
Proof. unfold retire_runs. follow. Qed.
Lemma cleaned_follows now o : follows (cleaned now o).
Proof. unfold cleaned. auto with follows. Qed.
Lemma answer_decision_follows now t i a c b : follows (answer_decision encrypt_token now t i a c b).
Proof. unfold answer_decision. follow. Qed.
Lemma ack_follows now r i d : follows (ack_decision_answer now r i d).
Proof. unfold ack_decision_answer. follow. Qed.
End Operations.
