(* ===== verification/HostedTheorems.v ===== *)
(** * Correctness of hosted execution

    Capacity is never exceeded, a lease works at most once and only while it
    is held, a retired run stays fenced, a claim takes the oldest run that may
    start, and the end of a run is recorded once. *)

From stdpp Require Import base option list strings numbers sets.
From Stdlib Require Import ZArith Lia.
From S2P Require Import Prelude Sql Feed Json BillingCatalog BillingLedger Text Activity Deployment Objectives Execution Hosted HostedInvariant.

Open Scope string_scope.
Open Scope list_scope.
Open Scope Z_scope.

Section Hosted.
Context `{Codec} (hmac_hex encrypt_token : string → string) (config : HostedExecutionConfig).
Local Abbreviation claim := (claim hmac_hex encrypt_token).

(** The transactions of the store and of the worker API, and what the other
    components do to their tables. *)
Inductive hosted_op :=
| HClaim (now : Z) (token : string → string) (lease : string)
| HLaunched (now : Z) (objective lease : string)
| HLaunchFailed (now : Z) (objective lease : string)
| HTerminalTimestamp (now : Z) (objective : string)
| HMarkTerminal (now : Z) (owner objective : string)
| HRetire (now : Z) (owner : string)
| HCleaned (now : Z) (objective : string)
| HAnswer (now : Z) (task identity answer : string) (current : option string) (allow : bool)
| HAck (now : Z) (run : hosted_run) (id : string) (status : delivery_status)
| HEnvironment (f : obj_db → obj_db).

Definition hosted_run_op (op : hosted_op) (s : hosted_db) : hosted_db :=
  match op with
  | HClaim now token lease => (commit (claim config now token lease) s).2
  | HLaunched now o l => (commit (launched now o l) s).2
  | HLaunchFailed now o l => (commit (launch_failed now o l) s).2
  | HTerminalTimestamp now o => (commit (terminal_timestamp now o) s).2
  | HMarkTerminal now w o => (commit (mark_terminal now w o) s).2
  | HRetire now w => (commit (retire_runs now w) s).2
  | HCleaned now o => (commit (cleaned now o) s).2
  | HAnswer now t i a c b => (commit (answer_decision encrypt_token now t i a c b) s).2
  | HAck now r i d => (commit (ack_decision_answer now r i d) s).2
  | HEnvironment f => s <| hd_objectives := f (hd_objectives s) |>
  end.
Definition hosted_after (ops : list hosted_op) (s : hosted_db) : hosted_db := fold_left (λ s op, hosted_run_op op s) ops s.

Definition hosted_empty (o : obj_db) : hosted_db := Build_hosted_db o [] [].
Definition hosted_reachable (s : hosted_db) : Prop := ∃ o ops, s = hosted_after ops (hosted_empty o).

Lemma hosted_ind (P : hosted_db → Prop) : (∀ o, P (hosted_empty o)) → (∀ op s, P s → P (hosted_run_op op s)) →
  ∀ s, hosted_reachable s → P s.
Proof.
  intros Hi Hs s (o & ops & ->). unfold hosted_after. rewrite <- fold_left_rev_right.
  induction (rev ops) as [|op l IH]; simpl; auto.
Qed.

Lemma follows_commit {A} (m : htx A) s : follows m → runs_sound s →
  runs_sound (commit m s).2 ∧ runs_follow (hd_runs s) (hd_runs (commit m s).2).
Proof. intros Hm Hs. destruct (commit_cases m s) as [(a & s' & E & ->)|(e & _ & ->)]; [by eapply Hm|done]. Qed.

Lemma op_follows op s : runs_sound s → runs_sound (hosted_run_op op s) ∧ runs_follow (hd_runs s) (hd_runs (hosted_run_op op s)).
Proof.
  intros Hs. destruct op; cbn [hosted_run_op]; try (apply follows_commit; [|done]);
    [apply claim_follows|apply launched_follows|apply launch_failed_follows|apply terminal_timestamp_follows|
     apply mark_terminal_follows|apply retire_runs_follows|apply cleaned_follows|apply answer_decision_follows|apply ack_follows|done].
Qed.

Lemma reachable_sound s : hosted_reachable s → runs_sound s.
Proof. revert s. apply hosted_ind; [intros o; split; constructor|]. intros op s Hs. by apply op_follows. Qed.

Lemma after_follows ops s : runs_sound s → runs_sound (hosted_after ops s) ∧ runs_follow (hd_runs s) (hd_runs (hosted_after ops s)).
Proof.
  revert s. induction ops as [|op ops IH]; intros s Hs; [done|]. simpl. destruct (op_follows op s Hs) as [Hs1 F1].
  destruct (IH _ Hs1) as [Hs2 F2]. split; [done|by etrans].
Qed.

(** ** Capacity *)

Definition within_capacity (t : list hosted_run) : Prop :=
  count is_active t ≤ hc_max_global config ∧ ∀ tenant, count (active_of tenant) t ≤ hc_max_per_tenant config.

(** A statement that activates no run. *)
Definition calm (f : list hosted_run → list hosted_run) : Prop :=
  ∀ t, count is_active (f t) ≤ count is_active t ∧ ∀ tenant, count (active_of tenant) (f t) ≤ count (active_of tenant) t.

Lemma calm_capacity f t : calm f → within_capacity t → within_capacity (f t).
Proof. intros Hf [Hg Ht]. destruct (Hf t) as [Cg Ct]. split; [lia|]. intros tenant. specialize (Ht tenant). specialize (Ct tenant). lia. Qed.

Lemma calm_update p g : (∀ r, p r = true → hr_tenant (g r) = hr_tenant r ∧ (is_active (g r) = true → is_active r = true)) → calm (update p g).
Proof.
  intros Hg t. split; [|intros tenant]; rewrite !count_sum; apply sum_update_le; intros r _ Hp; destruct (Hg r Hp) as [Ht Ha].
  - destruct (is_active (g r)); [by rewrite Ha|destruct (is_active r); lia].
  - unfold active_of. rewrite Ht. destruct (hr_tenant r == tenant); simpl; [|lia].
    destruct (is_active (g r)); [by rewrite Ha|destruct (is_active r); lia].
Qed.

Lemma calm_insert r : hr_state r = queued → calm (λ t, match insert hosted_run_clash r t with Some t' => t' | None => t end).
Proof.
  intros Hq t. destruct (insert _ _ _) as [t'|] eqn:E; [|by split]. apply insert_some in E as [-> _].
  assert (is_active r = false) as Ha by (unfold is_active; by rewrite Hq).
  split; [|intros tenant]; rewrite count_snoc; unfold active_of; rewrite ?Ha, ?andb_false_r; lia.
Qed.

(** A transaction that keeps the capacity. *)
Definition keeps_capacity {A} (m : htx A) : Prop := preserves (λ s, within_capacity (hd_runs s)) m.

Lemma keeps_set f : calm f → keeps_capacity (set_runs f).
Proof. intros Hf. apply preserves_modify. intros s Hs. by apply calm_capacity. Qed.

Lemma calm_requeue now e p : (∀ r, p r = true → hr_state r = launching) → calm (update p (requeued now e)).
Proof. intros Hp. apply calm_update. intros r _. split; [done|]. done. Qed.

Lemma enqueue_all_capacity now token l : keeps_capacity (enqueue_all hmac_hex encrypt_token now token l).
Proof.
  induction l as [|b l IH]; simpl; [apply preserves_ret|]. apply preserves_bind; [|done]. unfold enqueue.
  apply preserves_bind; [apply preserves_lift|]. intros project. apply keeps_set, calm_insert.
  unfold queued_run. by destruct (identities _ _ _ _) as [[? ?] ?].
Qed.

(** Leasing one queued run takes one slot, of its tenant. *)
Lemma lease_capacity now ms l r t : runs_ok t → r ∈ t → hr_state r = queued →
  let t' := update (λ x, run_of (hr_objective r) x && (hr_state x == queued)) (leased now ms l) t in
  count is_active t' = count is_active t + 1 ∧
  ∀ tenant, count (active_of tenant) t' = count (active_of tenant) t + (if hr_tenant r == tenant then 1 else 0).
Proof.
  intros [Hn _ _] Hr Hq t'. unfold t'. set (q x := run_of (hr_objective r) x && (hr_state x == queued)).
  assert (q r = true) as Hqr by (unfold q, run_of; rewrite Hq; by rewrite !eqb_refl).
  assert (∀ x, q x = true → hr_objective x = hr_objective r) as Hu by (intros x Hx; unfold q, run_of in Hx; by bools).
  assert (is_active r = false) as Ha by (unfold is_active; by rewrite Hq).
  assert (is_active (leased now ms l r) = true) as Ha' by done.
  split; [|intros tenant]; rewrite !count_sum, (sum_update_unique hr_objective _ _ _ _ _ r) by done; fold q.
  - rewrite Ha, Ha'. lia.
  - unfold active_of. rewrite Ha, Ha', andb_false_r, andb_true_r. change (hr_tenant (leased now ms l r)) with (hr_tenant r).
    destruct (hr_tenant r == tenant); lia.
Qed.

Lemma elem_of_candidates s r b : (r, b) ∈ candidates s →
  r ∈ hd_runs s ∧ hr_state r = queued ∧ cancellation_requested s r = false ∧ submission_of s r = Some b.
Proof.
  intros Hc%elem_of_take%elem_of_order_by. unfold joined in Hc. apply list_elem_of_omap in Hc as (x & Hx & Hj).
  apply elem_of_select in Hx as [Hin Hx]. destruct (submission_of s x) as [b'|] eqn:Eb; [|done].
  injection Hj as <- <-. by bools.
Qed.

(** The state in which [claim] selects: submissions queued, lost leases
    returned. *)
Definition claim_state (now : Z) (s0 : hosted_db) : hosted_db := s0 <| hd_runs ::= update (lease_lost now) (requeued now None) |>.
Definition may_start (t : list hosted_run) (c : hosted_run * submission) : bool :=
  count (active_of (hr_tenant c.1)) t <? hc_max_per_tenant config.
Definition full (t : list hosted_run) : Prop := hc_max_global config ≤ count is_active t.

(** What [claim] does, on each of its outcomes. *)
Record claimed_spec (now : Z) (lease : string) (s1 : hosted_db) (c : hosted_claim) (s' : hosted_db) : Prop := {
  cs_room : ¬ full (hd_runs s1);
  cs_first : fetchone (may_start (hd_runs s1)) (candidates s1) = Some (cm_run c, cm_submission c);
  cs_lease : cm_lease c = lease;
  cs_attempts : cm_attempts c = hr_attempts (cm_run c) + 1;
  cs_after : s' = s1 <| hd_runs ::= update (λ x, run_of (hr_objective (cm_run c)) x && (hr_state x == queued))
                                      (leased now (hc_lease_ms config) lease) |>;
}.

Lemma queued_count o t r : runs_ok t → r ∈ t → hr_objective r = o → hr_state r = queued →
  count (λ x, run_of o x && (hr_state x == queued)) t = 1.
Proof.
  intros [Hn _ _] Hr <- Hq. rewrite count_sum. set (q x := run_of (hr_objective r) x && (hr_state x == queued)).
  assert (q r = true) as Hqr by (unfold q, run_of; rewrite Hq; by rewrite !eqb_refl).
  pose proof (sum_update_unique hr_objective (λ _, 1) q q (λ x, x <| hr_state := terminal |>) t r Hn Hr Hqr) as Hs.
  rewrite Hqr in Hs. assert (q (r <| hr_state := terminal |>) = false) as Hz by (unfold q; simpl; by rewrite andb_false_r).
  rewrite Hz, sum_none in Hs; [|intros x (y & Hy & ->)%elem_of_update; destruct (q y) eqn:Ey; [unfold q; simpl; by rewrite andb_false_r|done]].
  specialize (Hs ltac:(intros x Hx; unfold q, run_of in Hx; by bools)). lia.
Qed.

Lemma claim_inv now token lease s r s' : runs_sound s → claim config now token lease s = Ok (r, s') →
  ∃ s0, enqueue_all hmac_hex encrypt_token now token (unqueued s) s = Ok (tt, s0) ∧ runs_sound (claim_state now s0) ∧
    match r with
    | Some c => claimed_spec now lease (claim_state now s0) c s'
    | None => s' = claim_state now s0 ∧
        (full (hd_runs s') ∨ fetchone (may_start (hd_runs s')) (candidates s') = None)
    end.
Proof.
  intros Hs Hc. unfold Hosted.claim in Hc. apply bind_ok in Hc as (pending & s1 & Hr & Hc). apply read_ok in Hr as [<- <-].
  apply bind_ok in Hc as ([] & s0 & He & Hc). exists s0. split; [done|].
  apply bind_ok in Hc as ([] & s1 & Hu & Hc). apply modify_ok in Hu. fold (claim_state now s0) in Hu. subst s1.
  assert (runs_sound (claim_state now s0)) as Hs1.
  { destruct (enqueue_all_follows _ _ _ _ _ _ _ _ Hs He) as [Hs0 _]. apply (requeue_step now _ None (lease_lost_launching now)), Hs0. }
  split; [done|]. apply bind_ok in Hc as (n & s1 & Hr & Hc). apply read_ok in Hr as [<- <-].
  destruct (Z.leb_spec (hc_max_global config) (count is_active (hd_runs (claim_state now s0)))) as [Hl|Hl].
  { apply ret_ok in Hc as [<- <-]. split; [done|]. by left. }
  apply bind_ok in Hc as (sel & s1 & Hr & Hc). apply read_ok in Hr as [Hsel <-].
  destruct sel as [[x b]|]; [|apply ret_ok in Hc as [<- <-]; split; [done|]; by right].
  apply bind_ok in Hc as (k & s1 & Hr & Hc). apply read_ok in Hr as [<- <-].
  apply bind_ok in Hc as ([] & s2 & Hu & Hc). apply modify_ok in Hu.
  pose proof (fetchone_some _ _ _ Hsel) as [Hcand _]. apply elem_of_candidates in Hcand as (Hx & Hq & _ & _).
  rewrite (queued_count (hr_objective x) _ x Hs1 Hx eq_refl Hq) in Hc. simpl in Hc. apply ret_ok in Hc as [<- <-].
  split; [unfold full; lia|exact Hsel|done..].
Qed.

Lemma claim_capacity now token lease s r s' : runs_sound s → within_capacity (hd_runs s) →
  claim config now token lease s = Ok (r, s') → within_capacity (hd_runs s').
Proof.
  intros Hs Hw Hc. destruct (claim_inv _ _ _ _ _ _ Hs Hc) as (s0 & He & Hs1 & Hr).
  assert (within_capacity (hd_runs (claim_state now s0))) as Hw1.
  { apply (calm_capacity (update (lease_lost now) (requeued now None))); [apply calm_requeue, lease_lost_launching|].
    by eapply enqueue_all_capacity. }
  destruct r as [c|]; [|destruct Hr as [-> _]; done]. destruct Hr as [Hroom Hfirst _ _ ->]. destruct Hw1 as [Hg Ht].
  apply fetchone_some in Hfirst as [Hcand Hmay]. apply elem_of_candidates in Hcand as (Hx & Hq & _ & _).
  destruct (lease_capacity now (hc_lease_ms config) lease (cm_run c) _ Hs1 Hx Hq) as [Ca Ct].
  unfold full in Hroom. unfold may_start in Hmay. bools. cbn [fst] in Hmay. split; [|intros tenant].
  - etransitivity; [apply Z.eq_le_incl, Ca|lia].
  - etransitivity; [apply Z.eq_le_incl, Ct|]. specialize (Ht tenant). destruct (hr_tenant (cm_run c) == tenant) eqn:E; bools; subst; lia.
Qed.

Lemma calm_op op s : runs_sound s → within_capacity (hd_runs s) → within_capacity (hd_runs (hosted_run_op op s)).
Proof.
  intros Hs Hw. destruct op; cbn [hosted_run_op].
  { destruct (commit_cases (claim config now token lease) s) as [(a & s' & E & ->)|(e & _ & ->)]; [by eapply claim_capacity|done]. }
  9: done.
  all: apply (preserves_commit (λ s, within_capacity (hd_runs s))); [|done].
  - unfold launched. preserve. apply keeps_set, calm_update. intros r (_ & Hl & _)%holds_lease_spec. split; [done|].
    intros _. unfold is_active. by rewrite Hl.
  - apply keeps_set, calm_requeue. by intros r (_ & Hl & _)%holds_lease_spec.
  - unfold terminal_timestamp. preserve. apply keeps_set, calm_update. done.
  - apply keeps_set, calm_update. done.
  - unfold retire_runs. preserve. apply keeps_set, calm_update. done.
  - apply keeps_set, calm_update. done.
  - unfold answer_decision. preserve. apply preserves_modify. done.
  - unfold ack_decision_answer. preserve. apply preserves_modify. done.
Qed.

(** C9. In every reachable state at most [max_global] runs are launching or
    running, and at most [max_per_tenant] of each tenant, whatever the order in
    which controllers claim, launch, lose leases and retire. *)
Theorem hosted_capacity s : 0 ≤ hc_max_global config → 0 ≤ hc_max_per_tenant config → hosted_reachable s →
  count is_active (hd_runs s) ≤ hc_max_global config ∧
  ∀ tenant, count (active_of tenant) (hd_runs s) ≤ hc_max_per_tenant config.
Proof.
  intros Hg Ht Hr. assert (runs_sound s ∧ within_capacity (hd_runs s)) as [_ Hw]; [|exact Hw].
  revert s Hr. apply hosted_ind.
  - intros o. split; [split; constructor|]. split; [done|]. done.
  - intros op s [Hs Hw]. split; [by apply op_follows|by apply calm_op].
Qed.

(** ** Leases *)

(** No run of the objective holds the lease. *)
Definition unheld (o l : string) (t : list hosted_run) : Prop := ∀ r, r ∈ t → hr_objective r = o → hr_lease r ≠ Some l.

Lemma unheld_none o l t : Forall lease_sound t → unheld o l t ↔ ∀ r, r ∈ t → holds_lease o l r = false.
Proof.
  intros Hs. split.
  - intros Hu r Hr. destruct (holds_lease o l r) eqn:E; [|done]. apply holds_lease_spec in E as (E1 & _ & E2). by destruct (Hu r Hr E1).
  - intros Hf r Hr Ho Hl. rewrite Forall_forall in Hs. specialize (Hs r Hr ltac:(rewrite Hl; eauto)). specialize (Hf r Hr).
    unfold holds_lease, run_of in Hf. rewrite Ho, Hs, Hl, !eqb_refl in Hf. done.
Qed.

(** A statement that gives the lease to no run. *)
Definition issues_not (l : string) (f : list hosted_run → list hosted_run) : Prop := ∀ o t, unheld o l t → unheld o l (f t).

Lemma issues_not_update l p f : (∀ r, hr_objective (f r) = hr_objective r ∧ (hr_lease (f r) = Some l → hr_lease r = Some l)) →
  issues_not l (update p f).
Proof.
  intros Hf o t Hu r (r0 & Hr0 & ->)%elem_of_update. destruct (p r0); [|by apply Hu].
  destruct (Hf r0) as [Ho Hl]. rewrite Ho. intros E Hx. apply (Hu r0 Hr0 E). auto.
Qed.

Lemma issues_not_insert l r : hr_lease r = None →
  issues_not l (λ t, match insert hosted_run_clash r t with Some t' => t' | None => t end).
Proof.
  intros Hl o t Hu. destruct (insert _ _ _) as [t'|] eqn:E; [|done]. apply insert_some in E as [-> _].
  intros x [Hx| ->%list_elem_of_singleton]%elem_of_app; [by apply Hu|]. by rewrite Hl.
Qed.

Definition keeps_unheld (o l : string) {A} (m : htx A) : Prop := preserves (λ s, unheld o l (hd_runs s)) m.

Lemma unheld_set o l f : issues_not l f → keeps_unheld o l (set_runs f).
Proof. intros Hf. apply preserves_modify. intros s Hs. by apply Hf. Qed.

Lemma requeue_unheld o l p now e : keeps_unheld o l (set_runs (update p (requeued now e))).
Proof. by apply unheld_set, issues_not_update. Qed.

Lemma enqueue_all_unheld o l now token pending : keeps_unheld o l (enqueue_all hmac_hex encrypt_token now token pending).
Proof.
  induction pending as [|b t IH]; simpl; [apply preserves_ret|]. apply preserves_bind; [|done]. unfold enqueue.
  apply preserves_bind; [apply preserves_lift|intros project]. apply unheld_set, issues_not_insert.
  unfold queued_run. by destruct (identities _ _ _ _) as [[? ?] ?].
Qed.

Lemma claim_unheld o l now token lease : lease ≠ l → keeps_unheld o l (claim config now token lease).
Proof.
  intros Hne. unfold Hosted.claim. apply preserves_bind; [apply preserves_read|intros pending].
  apply preserves_bind; [apply enqueue_all_unheld|].
  intros _. apply preserves_bind; [apply requeue_unheld|intros _].
  preserve. apply unheld_set, issues_not_update. intros r. split; [done|]. simpl. congruence.
Qed.

(** Every operation but a claim under this very lease. *)
Definition never_issues (l : string) (op : hosted_op) : Prop := match op with HClaim _ _ lease => lease ≠ l | _ => True end.

Lemma op_unheld o l op s : never_issues l op → unheld o l (hd_runs s) → unheld o l (hd_runs (hosted_run_op op s)).
Proof.
  intros Hl Hs. destruct op; cbn [hosted_run_op]; try done.
  all: apply (preserves_commit (λ s, unheld o l (hd_runs s))); [|done].
  - by apply claim_unheld.
  - unfold launched. preserve. by apply unheld_set, issues_not_update.
  - apply requeue_unheld.
  - unfold terminal_timestamp. preserve. by apply unheld_set, issues_not_update.
  - by apply unheld_set, issues_not_update.
  - unfold retire_runs. preserve. by apply unheld_set, issues_not_update.
  - by apply unheld_set, issues_not_update.
  - unfold answer_decision. preserve. by apply preserves_modify.
  - unfold ack_decision_answer. preserve. by apply preserves_modify.
Qed.

Lemma after_unheld o l ops s : Forall (never_issues l) ops → unheld o l (hd_runs s) → unheld o l (hd_runs (hosted_after ops s)).
Proof.
  intros Hf. revert s. induction Hf as [|op ops Hop _ IH]; intros s Hs; [done|]. simpl. apply IH. by apply op_unheld.
Qed.

Lemma unheld_launch o l now s : runs_sound s → unheld o l (hd_runs s) →
  commit (launched now o l) s = (Err HostedRuntimeError, s) ∧ commit (launch_failed now o l) s = (Ok tt, s).
Proof.
  intros [_ _ Hs] Hu. rewrite (unheld_none _ _ _ Hs) in Hu.
  assert (∀ f, update (holds_lease o l) f (hd_runs s) = hd_runs s) as Hid by (intros f; apply update_id; intros r Hr E; by rewrite Hu in E).
  assert (count (holds_lease o l) (hd_runs s) = 0) as Hc by (rewrite count_sum; by apply sum_none).
  unfold launched, launch_failed, commit, set_runs, modify, require, mbind, tx_bind, read, lift, ensure. rewrite Hc. simpl.
  split; [done|]. f_equal. destruct s. unfold set_field. cbn in *. by rewrite Hid.
Qed.

(** What a successful [launched] finds and leaves. *)
Lemma launched_ok o l now s s' : runs_sound s → launched now o l s = Ok (tt, s') →
  ∃ r, r ∈ hd_runs s ∧ holds_lease o l r = true ∧ unheld o l (hd_runs s') ∧
    ∃ r', r' ∈ hd_runs s' ∧ lifecycle r r' ∧ hr_state r' = running.
Proof.
  intros Hs Hl. pose proof (launched_follows _ _ _ _ _ _ Hs Hl) as [Hs' _]. unfold launched in Hl.
  apply bind_ok in Hl as (n & s1 & Hr & Hl). apply read_ok in Hr as [<- <-].
  apply bind_ok in Hl as ([] & s1 & Hu & Hl). apply modify_ok in Hu. apply require_ok in Hl as [Hn ->].
  destruct (fetchone (holds_lease o l) (hd_runs s)) as [r|] eqn:Ef.
  2: { exfalso. bools. rewrite count_sum, sum_none in Hn; [done|]. intros r Hr. by eapply fetchone_none. }
  apply fetchone_some in Ef as [Hr Hh]. exists r. split; [done|]. split; [done|]. subst s'. split.
  - apply unheld_none; [apply Hs'|]. intros x (x0 & Hx0 & ->)%elem_of_update.
    destruct (holds_lease o l x0) eqn:E; [|done]. unfold holds_lease. simpl. by rewrite andb_false_r.
  - exists (r <| hr_state := running |> <| hr_lease := None |> <| hr_lease_expires := None |> <| hr_updated := now |>).
    split; [apply elem_of_update; exists r; by rewrite Hh|]. apply holds_lease_spec in Hh as (_ & Hst & _).
    split; [|done]. split; simpl; try done; try lia; intuition congruence.
Qed.

(** C11. A lease works at most once and never after it was lost: once a
    controller has launched under it, or it is not held any more, no later
    [launched] under it succeeds and no later [launch_failed] under it changes
    anything, whatever else happens, as long as no claim draws the same
    random lease again. *)
Theorem lease_fenced o l s s1 ops now : hosted_reachable s →
  launched now o l s = Ok (tt, s1) ∨ (s1 = s ∧ exists_row (holds_lease o l) (hd_runs s) = false) →
  Forall (never_issues l) ops → ∀ now', let s2 := hosted_after ops s1 in
  commit (launched now' o l) s2 = (Err HostedRuntimeError, s2) ∧ commit (launch_failed now' o l) s2 = (Ok tt, s2).
Proof.
  intros Hr Hl Hops now' s2. pose proof (reachable_sound _ Hr) as Hs.
  assert (runs_sound s1 ∧ unheld o l (hd_runs s1)) as [Hs1 Hu].
  { destruct Hl as [Hl|[-> Hx]].
    - split; [by eapply launched_follows|]. destruct (launched_ok _ _ _ _ _ Hs Hl) as (_ & _ & _ & Hu & _). done.
    - split; [done|]. rewrite exists_row_false in Hx. by apply unheld_none; [apply Hs|]. }
  apply unheld_launch; [by apply after_follows|by apply after_unheld].
Qed.

(** ** Retirement *)

Lemma after_run r s ops : hosted_reachable s → r ∈ hd_runs s →
  runs_sound (hosted_after ops s) ∧ ∃ r', r' ∈ hd_runs (hosted_after ops s) ∧ lifecycle r r'.
Proof. intros Hr Hin. destruct (after_follows ops s (reachable_sound _ Hr)) as [Hs Hf]. split; [done|by apply Hf]. Qed.

(** The run of an objective is unique. *)
Lemma run_unique t x y : runs_ok t → x ∈ t → y ∈ t → hr_objective x = hr_objective y → x = y.
Proof. intros [Hn _ _]. by apply NoDup_key_inj. Qed.

Lemma fetch_run t r : runs_ok t → r ∈ t → fetchone (run_of (hr_objective r)) t = Some r.
Proof.
  intros Hok Hr. apply fetchone_only; [done|apply eqb_refl|]. intros x Hx E. unfold run_of in E. bools.
  by apply (run_unique t).
Qed.

(** The run [claim] hands out was queued. *)
Lemma claim_run now token lease s c s' : runs_sound s → claim config now token lease s = Ok (Some c, s') →
  ∃ t, runs_ok t ∧ runs_follow (hd_runs s) t ∧ cm_run c ∈ t ∧ hr_state (cm_run c) = queued.
Proof.
  intros Hs Hc. destruct (claim_inv _ _ _ _ _ _ Hs Hc) as (s0 & He & Hs1 & [_ Hf _ _ _]).
  apply fetchone_some in Hf as [Hf _]. apply elem_of_candidates in Hf as (Hin & Hq & _ & _).
  exists (hd_runs (claim_state now s0)). split_and!; try done. destruct (enqueue_all_follows _ _ _ _ _ _ _ _ Hs He) as [Hs0 F0].
  etrans; [exact F0|]. apply (requeue_step now _ None (lease_lost_launching now)), Hs0.
Qed.

(** A run that is terminal stays terminal in every later state, without
    lease and secrets: no bearer authenticates as its workload any more, and no
    claim hands it out again. *)
Theorem retired_final s r ops : hosted_reachable s → r ∈ hd_runs s → hr_state r = terminal →
  let s' := hosted_after ops s in
  (∃ r', r' ∈ hd_runs s' ∧ hr_objective r' = hr_objective r ∧ hr_state r' = terminal ∧ hr_lease r' = None ∧ hr_token_enc r' = "") ∧
  (∀ authorization, ∃ code, authenticate (hr_objective r) authorization s' = Err (HTTPException code)) ∧
  (∀ now token lease c s'', claim config now token lease s' = Ok (Some c, s'') → hr_objective (cm_run c) ≠ hr_objective r).
Proof.
  intros Hr Hin Ht s'. destruct (after_run r s ops Hr Hin) as [Hs' (r' & Hin' & L)]. pose proof L as [Hobj _ Hterm _ _ _ _ _].
  specialize (Hterm Ht). pose proof Hs' as [_ Hf _]. rewrite Forall_forall in Hf. destruct (Hf r' Hin' Hterm) as (Hl & He & _).
  split_and!.
  - by exists r'.
  - intros auth. unfold authenticate. destruct auth as [header|]; [|by eexists]. cbn [mbind of_option res_bind].
    destruct (startswith _ _); [|by eexists]. cbn [ensure]. destruct (_ && _); [|by eexists].
    assert (fetchone (run_of (hr_objective r)) (hd_runs s') = Some r') as Hfe by (rewrite <- Hobj; by apply fetch_run).
    cbn [ensure]. unfold workload. rewrite Hfe. cbn [mbind option_bind].
    destruct (submission_of _ _) as [b|]; [|by eexists]. cbn. rewrite Hterm. by eexists.
  - intros now token lease c s'' Hc Heq. destruct (claim_run _ _ _ _ _ _ Hs' Hc) as (t & Hok & Hfol & Hcin & Hq).
    destruct (Hfol r' Hin') as (r2 & Hin2 & [Hobj2 _ Hterm2 _ _ _ _ _]). specialize (Hterm2 Hterm).
    assert (cm_run c = r2) as E by (apply (run_unique t); [done..|congruence]). congruence.
Qed.

(** ** Claims *)

Lemma enqueue_all_objectives now token l s s0 : enqueue_all hmac_hex encrypt_token now token l s = Ok (tt, s0) →
  hd_objectives s0 = hd_objectives s.
Proof.
  assert (preserves (λ x, hd_objectives x = hd_objectives s) (enqueue_all hmac_hex encrypt_token now token l)) as Hp.
  { induction l as [|b l IH]; simpl; [apply preserves_ret|]. apply preserves_bind; [|done]. unfold enqueue.
    apply preserves_bind; [apply preserves_lift|intros project]. by apply preserves_modify. }
  intros He. by eapply Hp.
Qed.

Lemma cancellation_requested_env s s' r : hd_objectives s' = hd_objectives s → cancellation_requested s' r = cancellation_requested s r.
Proof. intros E. unfold cancellation_requested. by rewrite E. Qed.

(** A claim and a refusal, in terms of the state [s1] it selects in. *)
Definition selects (now : Z) (lease : string) (s s1 : hosted_db) (c : hosted_claim) (s' : hosted_db) : Prop :=
  ∃ earlier later, candidates s1 = earlier ++ (cm_run c, cm_submission c) :: later ∧
    Forall (λ x, may_start (hd_runs s1) x = false) earlier ∧
    may_start (hd_runs s1) (cm_run c, cm_submission c) = true ∧ ¬ full (hd_runs s1) ∧
    hr_state (cm_run c) = queued ∧ cancellation_requested s (cm_run c) = false ∧
    submission_of s (cm_run c) = Some (cm_submission c) ∧
    cm_lease c = lease ∧ cm_attempts c = hr_attempts (cm_run c) + 1 ∧
    hd_runs s' = update (λ x, run_of (hr_objective (cm_run c)) x && (hr_state x == queued)) (leased now (hc_lease_ms config) lease) (hd_runs s1) ∧
    leased now (hc_lease_ms config) lease (cm_run c) ∈ hd_runs s'.
Definition refuses (s1 s' : hosted_db) : Prop :=
  s' = s1 ∧ (full (hd_runs s1) ∨ Forall (λ x, may_start (hd_runs s1) x = false) (candidates s1)).

(** A claim hands out a queued run with its submission, that no requested
    cancellation targets, while fewer than [max_global] runs are active and
    fewer than [max_per_tenant] of its tenant; every candidate listed before it
    belongs to a saturated tenant. The run is then launching under the new
    lease with one attempt more. Without a claim the capacity is used up, or
    every listed candidate belongs to a saturated tenant. *)
Theorem claim_oldest_admissible now token lease s r s' : hosted_reachable s →
  claim config now token lease s = Ok (r, s') →
  ∃ s1, runs_follow (hd_runs s) (hd_runs s1) ∧ hd_objectives s1 = hd_objectives s ∧
  match r with Some c => selects now lease s s1 c s' | None => refuses s1 s' end.
Proof.
  intros Hr Hc. pose proof (reachable_sound _ Hr) as Hs. destruct (claim_inv _ _ _ _ _ _ Hs Hc) as (s0 & He & Hs1 & Hcase).
  exists (claim_state now s0). destruct (enqueue_all_follows _ _ _ _ _ _ _ _ Hs He) as [Hs0 F0].
  assert (hd_objectives (claim_state now s0) = hd_objectives s) as Ho by exact (enqueue_all_objectives _ _ _ _ _ He).
  split; [etrans; [exact F0|apply (requeue_step now _ None (lease_lost_launching now)), Hs0]|]. split; [done|].
  destruct r as [c|].
  - destruct Hcase as [Hroom Hfirst Hl Ha ->]. pose proof Hfirst as (earlier & later & Hcand & Hsat & Hmay)%fetchone_split.
    apply fetchone_some in Hfirst as [Hin _]. apply elem_of_candidates in Hin as (Hin & Hq & Hcan & Hsub).
    exists earlier, later. split_and!; try done.
    + by rewrite <- (cancellation_requested_env _ _ _ Ho).
    + rewrite <- Hsub. unfold submission_of. by rewrite Ho.
    + apply elem_of_update. exists (cm_run c). split; [done|]. unfold run_of. by rewrite Hq, !eqb_refl.
  - destruct Hcase as [-> Hcase]. split; [done|]. destruct Hcase as [Hfull|Hnone]; [by left|right]. by apply fetchone_none_forall.
Qed.
End Hosted.
