(* ===== verification/HostedRuns.v ===== *)
(** * The controller of hosted execution

    [process_once] gives back the lease it claims, and [end_run] can be resumed
    after a crash between the terminal fact and the retirement. The other
    controllers and the worker API run between any two transactions. *)

From stdpp Require Import base option list strings numbers sets.
From Stdlib Require Import ZArith Lia.
From S2P Require Import Prelude Sql Feed Json BillingCatalog BillingLedger Text Activity Deployment Objectives Execution ObjectiveInvariant ObjectiveSteps ObjectiveTheorems Hosted HostedInvariant HostedTheorems.

Open Scope string_scope.
Open Scope list_scope.
Open Scope Z_scope.

Section Controller.
Local Abbreviation io := (Prelude.io hosted_error hosted_db).
Context `{TextEngine, Codec} (hmac_hex encrypt_token : string → string) (config : HostedExecutionConfig).
Context (payload_of : string → hosted_run → Z → event_body → string → string) (valid_title : string → string → bool).
Local Abbreviation claim := (Hosted.claim hmac_hex encrypt_token).
Local Abbreviation after := (hosted_after hmac_hex encrypt_token config).

(** ** The lease of a claim *)

Definition free_but (o l : string) (t : list hosted_run) : Prop := ∀ o', o' ≠ o → unheld o' l t.

Lemma claim_lease now token l s r s' : runs_sound s → (∀ o, unheld o l (hd_runs s)) →
  claim config now token l s = Ok (r, s') →
  match r with Some c => free_but (hr_objective (cm_run c)) l (hd_runs s') | None => ∀ o, unheld o l (hd_runs s') end.
Proof.
  intros Hs Hu Hc. destruct (claim_inv _ _ _ _ _ _ _ _ _ Hs Hc) as (s0 & He & Hs1 & Hcase).
  assert (∀ o, unheld o l (hd_runs (claim_state now s0))) as Hu1.
  { intros o. eapply (requeue_unheld o l (lease_lost now) now None s0 tt); [|reflexivity].
    by eapply (enqueue_all_unheld hmac_hex encrypt_token o l now token (unqueued s)). }
  destruct r as [c|]; [|by destruct Hcase as [-> _]]. destruct Hcase as [_ _ _ _ ->].
  intros o Ho x (x0 & Hx0 & ->)%elem_of_update Hxo. destruct (_ && _) eqn:E in Hxo |- *; [|by apply (Hu1 o)].
  unfold run_of in E. simpl in Hxo. bools. congruence.
Qed.

Lemma launch_failed_unheld o l now s s' : runs_sound s → launch_failed now o l s = Ok (tt, s') → unheld o l (hd_runs s').
Proof.
  intros Hs Hl. pose proof (launch_failed_follows now o l s tt s' Hs Hl) as [[_ _ Hls] _]. apply modify_ok in Hl.
  apply unheld_none; [done|]. intros x Hx. subst s'. apply elem_of_update in Hx as (x0 & Hx0 & ->).
  destruct (holds_lease o l x0) eqn:E; [|done]. unfold holds_lease. simpl. by rewrite andb_false_r.
Qed.

(** ** [process_once] *)

Context (peers : nat → list hosted_op).
Definition others (n : nat) : hosted_db → hosted_db := after (peers n).
Local Abbreviation process_once := (process_once hmac_hex encrypt_token payload_of valid_title others).

(** What is kept from the claim to its settlement. *)
Definition launching_only (o l : string) (s : hosted_db) : Prop := runs_sound s ∧ free_but o l (hd_runs s).
Lemma await_keeps o l n : Forall (never_issues l) (peers n) → io_keeps (launching_only o l) (await others n : io unit).
Proof.
  intros Hp s [Hs Hf]. split; [by apply after_follows|]. intros o' Ho. apply after_unheld; auto.
Qed.
Lemma ingest_keeps o l now w e : io_keeps (launching_only o l) (ingest_event now w e).
Proof.
  intros s Hs. unfold ingest_event, run_tx. destruct (commit_cases (in_objectives (ingest now w e)) s) as [(a & s' & E & ->)|(x & _ & ->)]; [|done].
  unfold in_objectives in E. destruct (ingest _ _ _ _) as [[? ?]|]; [|done]. by injection E as _ <-.
Qed.
Lemma accepted_keeps o l now r b : io_keeps (launching_only o l) (_accepted_event payload_of valid_title now r b).
Proof.
  unfold _accepted_event. apply io_bind_keeps; [apply io_pure_keeps|intros e].
  apply io_bind_keeps; [apply ingest_keeps|intros _; apply io_ret_keeps].
Qed.

(** The body of [process_once] ends with a launched run that holds the lease
    no more, or raises with the lease still to give back. *)
Definition launch_outcome (o l : string) (r : res hosted_error bool) (s : hosted_db) : Prop :=
  match r with
  | Ok _ => (∀ o', unheld o' l (hd_runs s)) ∧ ∃ x, x ∈ hd_runs s ∧ hr_objective x = o ∧ hr_state x = running
  | Err _ => launching_only o l s
  end.

Lemma launched_outcome now o l : io_post (launching_only o l) (run_tx (launched now o l) ≫= λ _, mret true) (launch_outcome o l).
Proof.
  intros s [Hs Hf]. unfold mbind, io_bind, run_tx. destruct (commit_cases (launched now o l) s) as [([] & s' & E & ->)|(x & _ & ->)]; [|done].
  destruct (launched_ok hmac_hex encrypt_token _ _ _ _ _ Hs E) as (x & Hx & Hh & Hu & x' & Hx' & L & Hst). split; simpl.
  - intros o'. destruct (decide (o' = o)) as [->|Hne]; [done|]. unfold launched in E.
    apply bind_ok in E as (n & s1 & Hr & E). apply read_ok in Hr as [_ <-]. apply bind_ok in E as ([] & s2 & Hm & E).
    apply modify_ok in Hm. apply require_ok in E as [_ <-]. subst s2.
    apply (issues_not_update l (holds_lease o l)); [by intros y; split|by apply Hf].
  - exists x'. split; [done|]. split; [|done]. apply holds_lease_spec in Hh as [Ho _]. rewrite <- Ho. apply L.
Qed.

Lemma launch_claimed_post now l receipt c : (∀ n, Forall (never_issues l) (peers n)) →
  io_post (launching_only (hr_objective (cm_run c)) l) (launch_claimed payload_of valid_title others now l receipt c)
    (launch_outcome (hr_objective (cm_run c)) l).
Proof.
  intros Hp. unfold launch_claimed.
  repeat (apply io_bind_post; [first [by apply await_keeps|apply accepted_keeps|apply io_pure_keeps]|intros _|done]).
  apply launched_outcome.
Qed.

Lemma give_back_unheld now l c s : (∀ n, Forall (never_issues l) (peers n)) → launching_only (hr_objective (cm_run c)) l s →
  ∀ o, unheld o l (hd_runs (give_back others now l c s).2).
Proof.
  intros Hp Hs o. destruct (await_keeps _ l 3 (Hp 3%nat) s Hs) as [Hs1 Hf1]. unfold give_back, mbind, io_bind, run_tx.
  cbn [await] in *. cbn [fst snd] in Hs1, Hf1. change (await others 3 s) with (Ok (E := hosted_error) tt, others 3 s). cbv beta iota.
  destruct (commit_cases (launch_failed now (hr_objective (cm_run c)) l) (others 3 s)) as [([] & s2 & E & ->)|(x & E & ->)]; [|done].
  simpl. destruct (decide (o = hr_objective (cm_run c))) as [->|Hne]; [by eapply launch_failed_unheld|].
  eapply (requeue_unheld o l); [by apply Hf1|exact E].
Qed.

(** Whatever the event store and the backend answer, and whatever the
    other controllers do meanwhile, [process_once] leaves no run under the
    lease it drew: it launched the run it claimed, or gave the claim back. *)
Theorem process_once_releases now token l receipt s r s' :
  hosted_reachable hmac_hex encrypt_token config s →
  (∀ o, unheld o l (hd_runs s)) → (∀ n, Forall (never_issues l) (peers n)) →
  process_once config now token l receipt s = (r, s') →
  (∀ o, unheld o l (hd_runs s')) ∧ (r = Ok true → ∃ x, x ∈ hd_runs s' ∧ hr_state x = running).
Proof.
  intros Hr Hu Hp Hrun. pose proof (reachable_sound _ _ _ _ Hr) as Hs. unfold Hosted.process_once, mbind, io_bind in Hrun.
  unfold run_tx in Hrun. destruct (commit_cases (claim config now token l) s) as [(c & s1 & E & Ec)|(e & E & Ec)]; rewrite Ec in Hrun.
  2: { injection Hrun as <- <-. done. }
  pose proof (claim_lease _ _ _ _ _ _ Hs Hu E) as Hl. destruct (claim_follows _ _ _ _ _ _ _ _ _ Hs E) as [Hs1 _].
  destruct c as [c|]; [|injection Hrun as <- <-; done].
  assert (launching_only (hr_objective (cm_run c)) l s1) as Hlo by done.
  pose proof (launch_claimed_post now l receipt c Hp s1 Hlo) as Hpost. unfold or_else_do in Hrun.
  destruct (launch_claimed _ _ _ _ _ _ _ s1) as [[b|e] s2]; injection Hrun as <- <-; simpl in Hpost.
  - destruct Hpost as [Hun (x & Hx & _ & Hst)]. split; [done|]. intros _. by exists x.
  - split; [|done]. by apply give_back_unheld.
Qed.

(** ** The end of a run *)

(** Other components keep the events they recorded. *)
Definition keeps_event (w : string) (e : exec_event) (op : hosted_op) : Prop :=
  match op with
  | HEnvironment f => ∀ ob d, recorded w e (execution_events ob) d → ∃ d', recorded w e (execution_events (f ob)) d'
  | _ => True
  end.

(** No transaction of the store touches the objectives. *)
Lemma op_objectives op s : match op with HEnvironment _ => True | _ => hd_objectives (hosted_run_op hmac_hex encrypt_token config op s) = hd_objectives s end.
Proof.
  assert (∀ {A} (m : htx A), preserves (λ x, hd_objectives x = hd_objectives s) m → hd_objectives (commit m s).2 = hd_objectives s) as Hc.
  { intros A m Hm. by apply (preserves_commit (λ x, hd_objectives x = hd_objectives s)). }
  destruct op; cbn [hosted_run_op]; try done; apply Hc.
  - unfold Hosted.claim. apply preserves_bind; [apply preserves_read|intros pending]. apply preserves_bind.
    { intros x [] x' Hx He. by rewrite (enqueue_all_objectives _ _ _ _ _ _ _ He). }
    intros _. preserve; by apply preserves_modify.
  - unfold launched. preserve. by apply preserves_modify.
  - unfold terminal_timestamp. preserve. by apply preserves_modify.
  - unfold answer_decision. preserve. by apply preserves_modify.
  - unfold ack_decision_answer. preserve. by apply preserves_modify.
Qed.

Lemma after_recorded w e ops s d : Forall (keeps_event w e) ops → recorded w e (execution_events (hd_objectives s)) d →
  ∃ d', recorded w e (execution_events (hd_objectives (after ops s))) d'.
Proof.
  intros Hf. revert s d. induction Hf as [|op ops Hop _ IH]; intros s d Hd; [by exists d|]. simpl.
  pose proof (op_objectives op s) as Ho. destruct op; try (rewrite <- Ho in Hd; by eapply IH).
  destruct (Hop _ _ Hd) as (d' & Hd'). by eapply (IH (hosted_run_op hmac_hex encrypt_token config (HEnvironment f) s)).
Qed.

(** [terminal_timestamp] records its first reading and returns it for ever. *)
Lemma terminal_timestamp_ok now o s r : runs_sound s → r ∈ hd_runs s → hr_objective r = o →
  ∃ s', terminal_timestamp now o s = Ok (default now (hr_terminal_observed r), s') ∧ hd_objectives s' = hd_objectives s ∧
    ∃ r', r' ∈ hd_runs s' ∧ lifecycle r r' ∧ hr_terminal_observed r' = Some (default now (hr_terminal_observed r)).
Proof.
  intros Hs Hr <-. set (f := λ r, r <| hr_terminal_observed ::= (λ t, Some (default now t)) |>).
  set (s' := s <| hd_runs ::= update (run_of (hr_objective r)) f |>).
  assert (run_of (hr_objective r) r = true) as Hof by apply eqb_refl.
  assert (f r ∈ hd_runs s') as Hin by (apply elem_of_update; exists r; by rewrite Hof).
  destruct (observe_step now (hr_objective r) _ Hs) as [Hs' _].
  exists s'. split; [|split; [done|]].
  - unfold terminal_timestamp. erewrite bind_run by (unfold set_runs, modify; reflexivity). fold f. fold s'.
    erewrite bind_run by (unfold read; reflexivity). rewrite (fetch_run (hd_runs s') (f r) Hs' Hin : fetchone (run_of (hr_objective r)) (hd_runs s') = _).
    done.
  - exists (f r). split; [done|]. split; [|done]. split; simpl; try done; try lia; try (by intros ? ->); intuition congruence.
Qed.

Lemma mark_terminal_ok now w o s r : r ∈ hd_runs s → hr_objective r = o → hr_owner r = w →
  ∃ s', mark_terminal now w o s = Ok (tt, s') ∧ hd_objectives s' = hd_objectives s ∧
    ∃ x, x ∈ hd_runs s' ∧ hr_objective x = o ∧ hr_state x = terminal.
Proof.
  intros Hr <- <-. eexists. split; [reflexivity|]. split; [done|]. exists (retired now r). split; [|done].
  apply elem_of_update. exists r. split; [done|]. unfold run_of. by rewrite !eqb_refl.
Qed.

(** The end of a run can be resumed: when the controller stops after it
    stored the terminal fact of a run, at any later time the same step finds
    the same fact recorded, adds no event, and retires the run. *)
Theorem end_run_resumes now now' purpose phase usage r r0 t s s1 pe o2 ops :
  hosted_reachable hmac_hex encrypt_token config s → r0 ∈ hd_runs s →
  hr_objective r0 = hr_objective r → hr_owner r0 = hr_owner r →
  let e := hosted_event payload_of (event_digest purpose r) r t (TerminalBody phase) usage in
  terminal_timestamp now (hr_objective r) s = Ok (t, s1) →
  ingest now (hr_owner r) e (hd_objectives s1) = Ok (pe, o2) →
  Forall (keeps_event (hr_owner r) e) ops →
  let stopped := s1 <| hd_objectives := o2 |> in
  let s2 := after ops stopped in
  ∃ s3, end_run payload_of now' purpose phase usage r s2 = (Ok tt, s3) ∧ hd_objectives s3 = hd_objectives s2 ∧
    ∃ x, x ∈ hd_runs s3 ∧ hr_objective x = hr_objective r ∧ hr_state x = terminal.
Proof.
  intros Hr Hr0 Ho Hw e Ht Hi Hops stopped s2. pose proof (reachable_sound _ _ _ _ Hr) as Hs.
  destruct (terminal_timestamp_ok now _ _ _ Hs Hr0 Ho) as (s1' & Ht' & _ & r1 & Hr1 & L1 & Hobs).
  rewrite Ht in Ht'. injection Ht' as -> <-. set (t0 := default now (hr_terminal_observed r0)) in *.
  destruct (terminal_timestamp_follows _ _ _ _ _ Hs Ht) as [Hs1 _].
  destruct (ingest_recorded _ _ _ _ _ _ Hi) as (d & Hd).
  assert (∃ d', recorded (hr_owner r) e (execution_events (hd_objectives s2)) d') as (d' & Hd') by (by eapply after_recorded).
  assert (runs_sound s2 ∧ runs_follow (hd_runs s1) (hd_runs s2)) as [Hs2 Hfol] by exact (after_follows hmac_hex encrypt_token config ops stopped Hs1).
  destruct (Hfol r1 Hr1) as (r2 & Hr2 & L2). pose proof (lc_observed _ _ L2 _ Hobs) as Hobs2.
  assert (lifecycle r0 r2) as L by (by etrans). pose proof (lc_objective _ _ L) as Ho2. pose proof (lc_identity _ _ L) as Hid.
  destruct (terminal_timestamp_ok now' (hr_objective r) s2 r2 Hs2 Hr2 ltac:(congruence)) as (s3 & Ht3 & Hob3 & r3 & Hr3 & L3 & _).
  rewrite Hobs2 in Ht3. simpl in Ht3.
  assert (ingest now' (hr_owner r) e (hd_objectives s3) = Ok (_public_event d' true, hd_objectives s3)) as Hdup.
  { apply ingest_duplicate. by rewrite Hob3. }
  pose proof (lc_identity _ _ L3) as Hid3. pose proof (lc_objective _ _ L3) as Ho3.
  destruct (mark_terminal_ok now' (hr_owner r) (hr_objective r) s3 r3 Hr3 ltac:(congruence) ltac:(congruence)) as (s4 & Hm & Hob4 & Hx).
  exists s4. split; [|split; [congruence|done]].
  assert (in_objectives (ingest now' (hr_owner r) e) s3 = Ok (_public_event d' true, s3)) as Hin.
  { unfold in_objectives. rewrite Hdup. by destruct s3. }
  unfold end_run. rewrite (io_bind_ok _ _ _ _ _ (proj2 (commit_ok _ _ _ _) Ht3)).
  rewrite (io_bind_ok _ _ _ _ _ (proj2 (commit_ok _ _ _ _) Hin)).
  exact (proj2 (commit_ok _ _ _ _) Hm).
Qed.
End Controller.
