(* ===== verification/HostedWitness.v ===== *)
(** * One hosted run from its queue to its retirement

    An accepted submission is claimed, launched under its lease and ended; the
    instances of the hosted execution theorems along it. *)

From stdpp Require Import base option list strings numbers sets.
From Stdlib Require Import ZArith Lia.
From S2P Require Import Prelude Sql Feed Json BillingCatalog BillingLedger Text Activity Deployment DeploymentTheorems ActivityWitness Objectives Execution ObjectiveInvariant ObjectiveTheorems ObjectiveWitness Hosted HostedInvariant HostedTheorems HostedRuns.

Open Scope string_scope.
Open Scope list_scope.
Open Scope Z_scope.

(** An accepted submission whose contract names its project. *)
Definition h_result : claim_result :=
  {| cl_objective := o_id; cl_task := o_task; cl_contract_json := demo_contract; cl_contract_sha256 := sha256_hex demo_contract;
     cl_accepted := false; cl_duplicate := false; cl_attempt := 1; cl_context_json := "{}"; cl_context_sha256 := sha256_hex "{}" |}.
Definition h_accepted : obj_db :=
  run (Accept 1001 "owner" h_result)
    (run (Claim 1 1000 o_ctx zeros demo_contract (Some (Some "p", "{}")) "Title" (Some demo_principal)) st_env).

Definition demo_hmac (s : string) : string := demo_sha ("key" +:+ s).
Definition demo_encrypt (s : string) : string := "enc:" +:+ s.
Definition demo_config : HostedExecutionConfig := Build_HostedExecutionConfig 2 1 60000.
Definition demo_payload (id : string) (r : hosted_run) (t : Z) (b : event_body) (usage : string) : string := id +:+ usage.
Definition demo_title (title project : string) : bool := true.
Definition demo_token (o : string) : string := "token-" +:+ o.

Abbreviation after_ops := (hosted_after demo_hmac demo_encrypt demo_config).
Abbreviation reachable := (hosted_reachable demo_hmac demo_encrypt demo_config).
Definition ops_claimed : list hosted_op := [HClaim 2000 demo_token "lease-1"].
Definition ops_running : list hosted_op :=
  [HClaim 2000 demo_token "lease-1"; HLaunched 2001 o_id "lease-1"].
Definition hs_claimed : hosted_db := after_ops ops_claimed (hosted_empty h_accepted).
Definition hs_running : hosted_db := after_ops ops_running (hosted_empty h_accepted).

Lemma reachable_after ops : reachable (after_ops ops (hosted_empty h_accepted)).
Proof. by exists h_accepted, ops. Qed.
Lemma empty_reachable : reachable (hosted_empty h_accepted).
Proof. by exists h_accepted, []. Qed.

Lemma hosted_capacity_witness :
  count is_active (hd_runs hs_running) = 1 ∧ count is_active (hd_runs hs_running) ≤ hc_max_global demo_config.
Proof.
  split; [vm_compute; reflexivity|].
  assert (0 ≤ hc_max_global demo_config ∧ 0 ≤ hc_max_per_tenant demo_config) as [Hg Ht] by (vm_compute; split; congruence).
  exact (proj1 (hosted_capacity demo_hmac demo_encrypt demo_config hs_running Hg Ht (reachable_after ops_running))).
Defined.

(** After the launch, the lease is spent. *)
Lemma other_lease : Forall (never_issues "lease-1") [HClaim 90000 demo_token "lease-2"].
Proof. constructor; [discriminate|constructor]. Qed.
Lemma hs_launched : launched 2001 o_id "lease-1" hs_claimed = Ok (tt, hs_running).
Proof. vm_compute. reflexivity. Qed.
Lemma lease_fenced_witness :
  let s2 := after_ops [HClaim 90000 demo_token "lease-2"] hs_running in
  commit (launched 90001 o_id "lease-1") s2 = (Err HostedRuntimeError, s2).
Proof.
  exact (proj1 (lease_fenced demo_hmac demo_encrypt demo_config o_id "lease-1" hs_claimed hs_running [HClaim 90000 demo_token "lease-2"] 2001
    (reachable_after ops_claimed) (or_introl hs_launched) other_lease 90001)).
Defined.

Definition o_default : hosted_run := Build_hosted_run "" "" "" "" "" "" "" "" "" "" terminal 0 None None None None None 0 0.
Definition first_run (s : hosted_db) : hosted_run := default o_default (head (hd_runs s)).
Definition hs_retired : hosted_db := after_ops (ops_running ++ [HMarkTerminal 3000 "owner" o_id]) (hosted_empty h_accepted).

Definition h_claim (s : hosted_db) (now : Z) (lease : string) : option hosted_claim * hosted_db :=
  match claim demo_hmac demo_encrypt demo_config now demo_token lease s with Ok x => x | Err _ => (None, s) end.

(** Another controller claims while this one waits for the backend. *)
Definition demo_peers (n : nat) : list hosted_op := if Nat.eqb n 1 then [HClaim 2001 demo_token "lease-2"] else [].
Definition demo_once : res hosted_error bool * hosted_db :=
  process_once demo_hmac demo_encrypt demo_payload demo_title (others demo_hmac demo_encrypt demo_config demo_peers)
    demo_config 2000 demo_token "lease-1" None (hosted_empty h_accepted).
Lemma demo_once_eq :
  process_once demo_hmac demo_encrypt demo_payload demo_title (others demo_hmac demo_encrypt demo_config demo_peers)
    demo_config 2000 demo_token "lease-1" None (hosted_empty h_accepted) = (demo_once.1, demo_once.2).
Proof. unfold demo_once. apply surjective_pairing. Qed.

(** The controller stops after the terminal fact of a run that exited; another
    transaction commits, and a later pass retires the run. *)
Definition no_submission : submission := mkSubmission "" "" "" "" "" "" "" "" "" "" "" "" "" None s_failed 0 None None 0 0.
Definition hs_started : hosted_db :=
  (_accepted_event demo_payload demo_title 2002 (first_run hs_running)
     (default no_submission (head (submissions h_accepted))) hs_running).2.
Definition ops_started : list hosted_op := ops_running ++ [HEnvironment (λ _, hd_objectives hs_started)].
Definition hs_ready : hosted_db := after_ops ops_started (hosted_empty h_accepted).
Definition h_event : exec_event :=
  hosted_event demo_payload (event_digest "worker-exit" (first_run hs_ready)) (first_run hs_ready) 3000 (TerminalBody "objective.failed") "5".
Definition hs_observed : hosted_db := (commit (terminal_timestamp 3000 o_id) hs_ready).2.
Definition h_ended : option (public_event * obj_db) :=
  match ingest 3000 "owner" h_event (hd_objectives hs_observed) with Ok x => Some x | Err _ => None end.
Definition h_public : public_event := o_public (ingest 3000 "owner" h_event (hd_objectives hs_observed)).
Definition h_after : obj_db := default empty_objectives (snd <$> h_ended).
Definition later_ops : list hosted_op := [HClaim 4000 demo_token "lease-2"].

