(* ===== verification/Decisions.v ===== *)
(** * Firstmate decisions ([gateway/app/firstmate_decisions.py])

    Captain holds of the runtime as decisions of their owner: the complete
    projections the producer pushes, the confirmation a user gives for one
    answer to one revision, the claim under which the answer is executed, and
    its outcome. Answer bytes come from the native chat; the store shares the
    objectives, whose published state depends on open decisions.

    [secrets] values and the clock are arguments. The Pydantic contracts are
    validated values. The [TextEngine] of this file holds this module's
    patterns. *)

From stdpp Require Import base option list strings numbers sets.
From Stdlib Require Import ZArith Lia.
From S2P Require Import Prelude Sql Feed Json Text Chat BillingCatalog BillingLedger Activity Deployment Objectives.

Open Scope string_scope.
Open Scope list_scope.
Open Scope Z_scope.

(** [FirstmateDecisionError] with its code and status, and the exceptions of
    SQLite, [json] and the projection. *)
Inductive decision_error :=
| FirstmateDecisionError (code : string) (status_code : Z)
| DecisionIntegrityError
| DecisionValueError
| DecisionProjection (e : obj_error).

Definition MAX_OPEN_DECISIONS : Z := 100.
Definition MAX_CONTEXT_DECISIONS : Z := 20.
Definition MAX_ANSWER_BYTES : Z := 8192.
Definition CONFIRMATION_TTL_SECONDS : Z := 300.
Definition ANSWER_EXECUTION_LEASE_MS : Z := 60000.

(** ** Tables *)

Record decision_source := {
  ds_owner : string; ds_source : string; ds_observed : option Z; ds_sha256 : string; ds_state : string; ds_updated : Z;
}.
Definition is_source (owner source : string) (r : decision_source) : bool := (ds_owner r == owner) && (ds_source r == source).

Inductive decision_state := d_pending | d_answering | d_answered | d_resolved.
#[export] Instance decision_state_eq_dec : EqDecision decision_state.
Proof. solve_decision. Defined.
Definition decision_state_text (s : decision_state) : string :=
  match s with d_pending => "pending" | d_answering => "answering" | d_answered => "answered" | d_resolved => "resolved" end.

(** [firstmate_decisions] *)
Record decision_row := {
  de_id : string; de_owner : string; de_source : string; de_task : string; de_lifecycle : string; de_revision : Z;
  de_state : decision_state; de_title : string; de_question : string; de_project : option string; de_event : string;
  de_payload_sha256 : string; de_observed : Z; de_request : option string; de_created : Z; de_updated : Z;
}.
#[export] Instance decision_row_settable : Settable decision_row :=
  λ r, Build_decision_row (de_id r) (de_owner r) (de_source r) (de_task r) (de_lifecycle r) (de_revision r) (de_state r)
    (de_title r) (de_question r) (de_project r) (de_event r) (de_payload_sha256 r) (de_observed r) (de_request r)
    (de_created r) (de_updated r).
Definition same_hold (owner source task lifecycle : string) (r : decision_row) : bool :=
  (de_owner r == owner) && (de_source r == source) && (de_task r == task) && (de_lifecycle r == lifecycle).
Definition decision_clash (a b : decision_row) : bool :=
  (de_id a == de_id b) || same_hold (de_owner a) (de_source a) (de_task a) (de_lifecycle a) b.
Definition is_decision (owner id : string) (r : decision_row) : bool := (de_owner r == owner) && (de_id r == id).

(** [firstmate_decision_events] *)
Record decision_event := {
  dv_id : string; dv_owner : string; dv_source : string; dv_event : string; dv_type : string; dv_decision : string;
  dv_payload : string; dv_sha256 : string; dv_observed : Z; dv_ingested : Z;
}.
Definition is_decision_event (owner source event : string) (r : decision_event) : bool :=
  (dv_owner r == owner) && (dv_source r == source) && (dv_event r == event).
Definition decision_event_clash (a b : decision_event) : bool :=
  (dv_id a == dv_id b) || is_decision_event (dv_owner a) (dv_source a) (dv_event a) b.

(** [firstmate_decision_answer_confirmations] *)
Record confirmation := {
  cf_hash : string; cf_owner : string; cf_session : string; cf_decision : string; cf_revision : Z; cf_message : string;
  cf_key : string; cf_answer_sha256 : string; cf_expires : Z; cf_used : option Z; cf_created : Z;
}.
#[export] Instance confirmation_settable : Settable confirmation :=
  λ r, Build_confirmation (cf_hash r) (cf_owner r) (cf_session r) (cf_decision r) (cf_revision r) (cf_message r)
    (cf_key r) (cf_answer_sha256 r) (cf_expires r) (cf_used r) (cf_created r).
Definition confirmation_clash (a b : confirmation) : bool := cf_hash a == cf_hash b.

Inductive answer_status := a_pending | a_succeeded | a_failed.
#[export] Instance answer_status_eq_dec : EqDecision answer_status.
Proof. solve_decision. Defined.

(** [firstmate_decision_answers] *)
Record answer_row := {
  an_id : string; an_owner : string; an_decision : string; an_revision : Z; an_message : string; an_key : string;
  an_session : string; an_answer_sha256 : string; an_bytes : Z; an_status : answer_status; an_error : option string;
  an_claim : string; an_lease : Z; an_created : Z; an_updated : Z;
}.
#[export] Instance answer_row_settable : Settable answer_row :=
  λ r, Build_answer_row (an_id r) (an_owner r) (an_decision r) (an_revision r) (an_message r) (an_key r) (an_session r)
    (an_answer_sha256 r) (an_bytes r) (an_status r) (an_error r) (an_claim r) (an_lease r) (an_created r) (an_updated r).
Definition is_answer (owner key : string) (r : answer_row) : bool := (an_owner r == owner) && (an_key r == key).
Definition is_live (r : answer_row) : bool := (an_status r == a_pending) || (an_status r == a_succeeded).
Definition answers_revision (owner decision : string) (revision : Z) (r : answer_row) : bool :=
  (an_owner r == owner) && (an_decision r == decision) && (an_revision r =? revision).
(** PRIMARY KEY, UNIQUE(owner, key), and the partial unique index on the live
    answers of a revision. *)
Definition answer_clash (a b : answer_row) : bool :=
  (an_id a == an_id b) || is_answer (an_owner a) (an_key a) b ||
  (answers_revision (an_owner a) (an_decision a) (an_revision a) b && is_live a && is_live b).

Record project := { pj_id : string; pj_owner_user : string; pj_status : string }.

Record decision_db := {
  dd_objectives : obj_db; dd_chat : chat_db; dd_projects : list project; dd_sources : list decision_source;
  dd_decisions : list decision_row; dd_events : list decision_event; dd_confirmations : list confirmation;
  dd_answers : list answer_row;
}.
#[export] Instance decision_db_settable : Settable decision_db :=
  λ s, Build_decision_db (dd_objectives s) (dd_chat s) (dd_projects s) (dd_sources s) (dd_decisions s) (dd_events s)
    (dd_confirmations s) (dd_answers s).

Definition dtx (A : Type) : Type := tx decision_error decision_db A.

Definition insert_into {R} (get : decision_db → list R) (set : list R → decision_db → decision_db) (clash : R → R → bool) (r : R) : dtx unit :=
  λ s, match insert clash r (get s) with Some t => Ok (tt, set t s) | None => Err DecisionIntegrityError end.
Definition insert_decision : decision_row → dtx unit := insert_into dd_decisions (λ t s, s <| dd_decisions := t |>) decision_clash.
Definition insert_decision_event : decision_event → dtx unit := insert_into dd_events (λ t s, s <| dd_events := t |>) decision_event_clash.
Definition insert_confirmation : confirmation → dtx unit :=
  insert_into dd_confirmations (λ t s, s <| dd_confirmations := t |>) confirmation_clash.
Definition insert_answer : answer_row → dtx unit := insert_into dd_answers (λ t s, s <| dd_answers := t |>) answer_clash.
Definition update_decisions (p : decision_row → bool) (f : decision_row → decision_row) : dtx unit :=
  modify (λ s, s <| dd_decisions ::= update p f |>).
Definition update_answers (p : answer_row → bool) (f : answer_row → answer_row) : dtx unit :=
  modify (λ s, s <| dd_answers ::= update p f |>).

(** The objectives read the decisions of this database. *)
Definition decision_view (r : decision_row) : decision :=
  {| dn_owner := de_owner r; dn_task := de_task r; dn_state := decision_state_text (de_state r) |}.
Definition in_objectives {A} (m : otx A) : dtx A := λ s,
  match m (dd_objectives s <| decisions := map decision_view (dd_decisions s) |>) with
  | Ok (a, o) => Ok (a, s <| dd_objectives := o |>)
  | Err e => Err (DecisionProjection e)
  end.

(** ** Contracts *)

Record decision_request := { rq_run : string; rq_request : string; rq_scope : string; rq_expires : Z }.
(** [FirstmateDecisionRequiredEvent]; [FirstmateDecisionEventBatch] *)
Record required_event := {
  re_source : string; re_event : string; re_task : string; re_lifecycle : string; re_title : string; re_question : string;
  re_project : option string; re_observed : Z; re_request : option decision_request;
}.
Record event_batch := { eb_source : string; eb_observed : Z; eb_events : list required_event }.
(** [FirstmateCommandResult] *)
Record command_result := { cr_ok : bool; cr_code : string }.

Definition request_json (r : decision_request) : json :=
  JObj [("run_id", JStr (rq_run r)); ("request_id", JStr (rq_request r)); ("scope", JStr (rq_scope r)); ("expires_at", JInt (rq_expires r))].
(** A stored request read back by [json.loads]. *)
Definition decode_request (j : json) : option decision_request :=
  d ← as_dict j; run ← as_str (get "run_id" d); request ← as_str (get "request_id" d); scope ← as_str (get "scope" d);
  expires ← as_int (get "expires_at" d);
  Some (Build_decision_request run request scope expires).

(** ** Risk *)

(** [re.search(r'\b(w)\b')] with [IGNORECASE]. The flag also makes the long s
    (U+017F) match an s and the Kelvin sign (U+212A) a k; both are beyond the
    characters of a [string], on which lower-casing ASCII letters is exact. *)
Definition word_start (s : string) : bool := match s with String c _ => is_word c | EmptyString => false end.
Fixpoint search_word (w s : string) (after_word : bool) : bool :=
  (negb after_word && startswith w s && negb (word_start (str_drop (String.length w) s))) ||
  match s with EmptyString => false | String c s' => search_word w s' (is_word c) end.
Definition RISK_WORDS : list string :=
  ["delete"; "destroy"; "deploy"; "merge"; "reset"; "credential"; "secret"; "password"; "token"; "security"; "permission";
   "production"; "public"; "irreversible"; "cannot be undone"].
Definition _RISK_PATTERN (s : string) : bool := existsb (λ w, search_word w (sql_lower s) false) RISK_WORDS.

Section Store.
Context `{TextEngine, Codec}.
(** [deployment_policy()] *)
Context (policy : deployment_contract).

Definition personal_owner (user : string) : bool := is_personal policy && (owner_principal_id policy == Some user).

(** [allowed]: the characters that are no control here. *)
Definition has_controls (value : string) (allow_newlines : bool) : bool :=
  str_exists (λ c, negb (allow_newlines && one_of (String (Ascii.ascii_of_nat 10) (String (Ascii.ascii_of_nat 13) (String (Ascii.ascii_of_nat 9) ""))) c) &&
    (startswith "C" (category c) || (category c == "Zl") || (category c == "Zp"))) value.

(** [_bounded_text] of a text that is required: the text or the error. *)
Definition bounded_required (value : string) (maximum : Z) : res decision_error string :=
  let invalid := FirstmateDecisionError "source_invalid" 503 in
  ensure (negb ((maximum <? str_len value) || has_controls value false)) invalid;;
  let text := strip value in
  ensure (negb ((text == "") || (maximum <? str_len text))) invalid;;
  ensure (negb (_contains_sensitive_text text)) invalid;;
  mret text.

Definition canonical (j : json) : res decision_error string := of_option DecisionValueError (dumps j).
Definition _payload_sha256 (j : json) : res decision_error string := sha256_hex <$> canonical j.

Definition _decision_id (owner source task lifecycle : string) : string :=
  "fmd_" +:+ str_take 32 (sha256_hex (join NUL [owner; source; task; lifecycle])).
Definition _event_id (source task lifecycle : string) (payload : json) : res decision_error string :=
  digest ← _payload_sha256 (JObj [("source_instance_id", JStr source); ("task_id", JStr task); ("lifecycle_identity", JStr lifecycle); ("payload", payload)]);
  mret ("fmde_" +:+ str_take 32 digest).

Definition _valid_owner (owner : string) : res decision_error string :=
  ensure (negb ((owner == "") || (128 <? str_len owner) || has_controls owner false)) (FirstmateDecisionError "unauthorized" 403);;
  mret owner.
(** [_SAFE_SOURCE_ID], [_SAFE_NATIVE_MESSAGE_ID] *)
Definition _SAFE_SOURCE_ID (s : string) : bool :=
  fullmatch1 is_alnum (λ c, is_alnum c || one_of "._:-" c) 0 127 s.
Definition _SAFE_NATIVE_MESSAGE_ID (s : string) : bool :=
  startswith "mgm_" s && fullmatch_class (λ c, is_alnum c || one_of "_-" c) 4 124 (str_drop 4 s).

Definition _validated_answer (answer : string) : res decision_error string :=
  ensure (negb ((strip answer == "") || has_controls answer true)) (FirstmateDecisionError "invalid_answer" 422);;
  ensure (negb (MAX_ANSWER_BYTES <? utf8_length answer)) (FirstmateDecisionError "invalid_answer" 422);;
  ensure (negb (_contains_sensitive_text answer)) (FirstmateDecisionError "unsupported_risk" 409);;
  mret answer.

(** ** The scope of a request *)

(** The run, terminal phase, project and project status of a task. *)
Definition task_rows (s : decision_db) (owner task : string) : list (string * option string * string * string) :=
  e ← select (λ e, (ex_owner e == owner) && (ex_task e == task)) (executions (dd_objectives s));
  b ← select (λ b, (sb_objective b == ex_objective e) && (sb_owner b == ex_owner e)) (submissions (dd_objectives s));
  p ← select (λ p, (sb_project b == Some (pj_id p)) && (pj_owner_user p == sb_owner b)) (dd_projects s);
  [(ex_run e, ex_terminal_phase e, pj_id p, pj_status p)].

Definition _request_scope (owner task : string) (request : decision_request) (answering : bool) (s : decision_db) : res decision_error unit :=
  let invalid := FirstmateDecisionError "request_scope_invalid" 409 in
  match head (task_rows s owner task) with
  | None => Err invalid
  | Some (run, terminal, project, status) =>
      ensure ((run == rq_run request) && (project == rq_scope request) && (status == "active") &&
        negb (128 <? str_len task) && negb (answering && is_some terminal)) invalid;;
      ensure (negb answering || is_some (execution_repository (dd_objectives s) owner (Some project))) invalid
  end.

Definition _require_current_request (d : decision_row) (now : Z) (s : decision_db) : res decision_error (option decision_request) :=
  match de_request d ≫= nonempty with
  | None =>
      ensure (negb (personal_owner (de_owner d))) (FirstmateDecisionError "request_binding_required" 409);;
      mret None
  | Some raw =>
      request ← of_option DecisionValueError (loads raw ≫= decode_request);
      ensure (negb (rq_expires request <=? now)) (FirstmateDecisionError "request_expired" 409);;
      _request_scope (de_owner d) (de_task d) request true s;;
      mret (Some request)
  end.

(** ** Views *)

(** [_private_decision]: the row and, when the request is bound, its JSON. *)
Record private_decision := { pd_row : decision_row; pd_request : option dict }.
Definition _private_decision (r : decision_row) : res decision_error private_decision :=
  match de_request r ≫= nonempty with
  | None => mret (Build_private_decision r None)
  | Some raw => d ← of_option DecisionValueError (loads raw ≫= as_dict); mret (Build_private_decision r (Some d))
  end.

Definition open_state (r : decision_row) : bool := (de_state r == d_pending) || (de_state r == d_answering).
Definition pending_order (a b : decision_row) : bool :=
  (de_observed a <? de_observed b) || ((de_observed a =? de_observed b) && String.leb (de_id a) (de_id b)).
Definition _pending_rows (owner : string) (s : decision_db) : res decision_error (list private_decision) :=
  let rows := take 101 (order_by pending_order (select (λ r, (de_owner r == owner) && open_state r) (dd_decisions s))) in
  ensure (negb (MAX_OPEN_DECISIONS <? Z.of_nat (length rows))) (FirstmateDecisionError "source_invalid" 503);;
  map_res _private_decision rows.
Definition pending_of (owner : string) (s : decision_db) : res decision_error (list private_decision) :=
  owner ← _valid_owner owner; _pending_rows owner s.
Definition source_status (owner source : string) (s : decision_db) : res decision_error (string * option Z) :=
  owner ← _valid_owner owner;
  ensure (_SAFE_SOURCE_ID source) (FirstmateDecisionError "source_invalid" 503);;
  match fetchone (is_source owner source) (dd_sources s) with
  | None => mret ("unobserved", None)
  | Some r => mret (if listed (ds_state r) ["available"; "fault"] then ds_state r else "unavailable", ds_observed r)
  end.
Definition get_decision (owner id : string) (s : decision_db) : res decision_error (option private_decision) :=
  owner ← _valid_owner owner;
  match fetchone (is_decision owner id) (dd_decisions s) with
  | None => mret None
  | Some r => Some <$> _private_decision r
  end.

(** ** Snapshots *)

Definition decision_event_row_id (owner source event : string) : string :=
  "fmdev_" +:+ str_take 32 (sha256_hex (join NUL [owner; source; event])).

Definition _insert_event (now : Z) (owner source event type decision payload digest : string) (observed : Z) : dtx unit :=
  existing ← read (λ s, fetchone (is_decision_event owner source event) (dd_events s));
  match existing with
  | Some e =>
      require ((dv_payload e == payload) && (dv_sha256 e == digest) && (dv_type e == type) && (dv_decision e == decision))
        (FirstmateDecisionError "source_conflict" 409)
  | None =>
      insert_decision_event (Build_decision_event (decision_event_row_id owner source event) owner source event type decision
        payload digest observed now)
  end.

(** [event.model_dump] without the time and without an absent request. *)
Definition event_payload (e : required_event) : json :=
  JObj ([("schema_version", JStr "firstmate.decision-event.v1"); ("event_type", JStr "decision.required");
    ("source_instance_id", JStr (re_source e)); ("source_event_id", JStr (re_event e)); ("task_id", JStr (re_task e));
    ("lifecycle_identity", JStr (re_lifecycle e)); ("title", JStr (re_title e)); ("question", JStr (re_question e));
    ("project", match re_project e with Some p => JStr p | None => JNull end); ("close_mode", JStr "release")] ++
    match re_request e with Some r => [("request", request_json r)] | None => [] end).

(** A reported hold is seen again: what its state allows. *)
Definition refreshed (now : Z) (e : required_event) (digest : string) (observed : Z) (r : decision_row) : decision_row :=
  r <| de_revision ::= Z.succ |> <| de_title := re_title e |> <| de_question := re_question e |> <| de_project := re_project e |>
    <| de_event := re_event e |> <| de_payload_sha256 := digest |> <| de_observed := observed |> <| de_updated := now |>.
Definition observe_decision (now : Z) (e : required_event) (digest : string) (observed : Z) (id owner : string) (existing : decision_row) : dtx unit :=
  let target := is_decision owner id in
  if de_state existing == d_resolved then
    update_decisions target (λ r, refreshed now e digest observed r <| de_state := d_pending |>)
  else if (de_state existing == d_pending) && negb (de_payload_sha256 existing == digest) then
    update_decisions target (refreshed now e digest observed)
  else update_decisions target (λ r, r <| de_observed := observed |> <| de_updated := now |>).

(** A bound request is kept, or replaced by a new one while nobody answers. *)
Definition request_change (existing : decision_row) (e : required_event) (incoming : option string) : res decision_error unit :=
  match de_request existing ≫= nonempty with
  | None => mret tt
  | Some raw =>
      if incoming == Some raw then mret tt
      else
        prior ← of_option DecisionValueError (loads raw ≫= decode_request);
        ensure (match re_request e with
                | None => false
                | Some r => negb ((rq_request prior == rq_request r) || (de_state existing == d_answering) || (de_state existing == d_answered))
                end) (FirstmateDecisionError "request_binding_conflict" 409)
  end.

(** One event of a snapshot; the result is the decision it keeps open. *)
Definition apply_event (now : Z) (owner source : string) (observed : Z) (e : required_event) : dtx string :=
  require ((re_source e == source) && (re_observed e =? observed)) (FirstmateDecisionError "source_invalid" 503);;
  scope ← read (λ s, match re_request e with Some r => _request_scope owner (re_task e) r false s | None => Ok tt end);
  lift scope;;
  payload ← lift (canonical (event_payload e));
  let digest := sha256_hex payload in
  let id := _decision_id owner source (re_task e) (re_lifecycle e) in
  _insert_event now owner source (re_event e) "decision.required" id payload digest observed;;
  incoming ← lift (match re_request e with Some r => Some <$> canonical (request_json r) | None => Ok None end);
  existing ← read (λ s, fetchone (same_hold owner source (re_task e) (re_lifecycle e)) (dd_decisions s));
  match existing with
  | None =>
      insert_decision (Build_decision_row id owner source (re_task e) (re_lifecycle e) 1 d_pending (re_title e) (re_question e)
        (re_project e) (re_event e) digest observed incoming now now);;
      mret id
  | Some d =>
      lift (request_change d e incoming);;
      (if (de_state d == d_pending) || (de_state d == d_resolved)
       then update_decisions (is_decision owner id) (λ r, r <| de_request := incoming |>) else mret tt);;
      require (de_id d == id) (FirstmateDecisionError "source_conflict" 409);;
      observe_decision now e digest observed id owner d;;
      mret id
  end.
Fixpoint apply_events (now : Z) (owner source : string) (observed : Z) (l : list required_event) : dtx (list string) :=
  match l with
  | [] => mret []
  | e :: l' => id ← apply_event now owner source observed e; ids ← apply_events now owner source observed l'; mret (id :: ids)
  end.

(** A decision the snapshot no longer lists. *)
Definition resolution_payload (source id snapshot : string) (observed : Z) : json :=
  JObj [("schema_version", JStr "firstmate.decision-event.v1"); ("event_type", JStr "decision.resolved"); ("source_instance_id", JStr source);
    ("decision_id", JStr id); ("snapshot_sha256", JStr snapshot); ("observed_at", JInt observed)].
Definition resolve_decision (now : Z) (owner source snapshot : string) (observed : Z) (d : decision_row) : dtx unit :=
  payload ← lift (canonical (resolution_payload source (de_id d) snapshot observed));
  let digest := sha256_hex payload in
  let event := "fmde_" +:+ str_take 32 digest in
  _insert_event now owner source event "decision.resolved" (de_id d) payload digest observed;;
  update_decisions (is_decision owner (de_id d)) (λ r, r <| de_revision ::= Z.succ |> <| de_state := d_resolved |> <| de_event := event |>
    <| de_payload_sha256 := digest |> <| de_observed := observed |> <| de_updated := now |>).
Fixpoint resolve_missing (now : Z) (owner source snapshot : string) (observed : Z) (ids : list string) (l : list decision_row) : dtx unit :=
  match l with
  | [] => mret tt
  | d :: l' =>
      (if listed (de_id d) ids then mret tt else resolve_decision now owner source snapshot observed d);;
      resolve_missing now owner source snapshot observed ids l'
  end.

(** [INSERT ... ON CONFLICT DO UPDATE] *)
Definition store_source (r : decision_source) (t : list decision_source) : list decision_source :=
  let key := is_source (ds_owner r) (ds_source r) in
  if exists_row key t then update key (λ _, r) t else t ++ [r].

Fixpoint persist_all (owner : string) (l : list submission) : dtx unit :=
  match l with
  | [] => mret tt
  | b :: l' => in_objectives (persist_objective_state owner (sb_objective b) false);; persist_all owner l'
  end.

Definition unresolved (owner source : string) (r : decision_row) : bool :=
  (de_owner r == owner) && (de_source r == source) && negb (de_state r == d_resolved).
Definition apply_current (now : Z) (owner source : string) (observed : Z) (sha : string) (events : list required_event) : dtx (list private_decision) :=
  ids ← apply_events now owner source observed events;
  previous ← read (λ s, select (unresolved owner source) (dd_decisions s));
  resolve_missing now owner source sha observed ids previous;;
  modify (λ s, s <| dd_sources ::= store_source (Build_decision_source owner source (Some observed) sha "available" now) |>);;
  mine ← read (λ s, select (λ b, sb_owner b == owner) (submissions (dd_objectives s)));
  persist_all owner mine;;
  rows ← read (_pending_rows owner);
  lift rows.

Definition apply_snapshot (now : Z) (owner source : string) (observed : Z) (sha : string) (events : list required_event) : dtx (list private_decision) :=
  owner ← lift (_valid_owner owner);
  require (_SAFE_SOURCE_ID source) (FirstmateDecisionError "source_invalid" 503);;
  require (negb (MAX_OPEN_DECISIONS <? Z.of_nat (length events)) && _SAFE_HASH sha) (FirstmateDecisionError "source_invalid" 503);;
  row ← read (λ s, fetchone (is_source owner source) (dd_sources s));
  match row with
  | Some r =>
      match ds_observed r with
      | Some prior =>
          if observed <? prior then rows ← read (_pending_rows owner); lift rows
          else
            require (negb ((observed =? prior) && (ds_sha256 r != sha))) (FirstmateDecisionError "source_conflict" 409);;
            apply_current now owner source observed sha events
      | None => apply_current now owner source observed sha events
      end
  | None => apply_current now owner source observed sha events
  end.

(** ** Answers *)

Record answer_request := {
  ar_decision : string; ar_revision : Z; ar_message : string; ar_message_created : Z; ar_conversation : string;
  ar_sequence : Z; ar_answer : string; ar_sha256 : string; ar_bytes : Z; ar_key : string;
}.
Definition answer_key (owner message : string) : string := "fma_" +:+ str_take 32 (sha256_hex (join NUL [owner; message])).

(** The completed message of the default conversation that holds the answer. *)
Definition native_message (owner id : string) (s : decision_db) : option Chat.message :=
  fetchone (λ m, (mg_owner m == owner) && (mg_id m == id) && (mg_role m == RoleUser) &&
    exists_row (λ c, (cv_id c == mg_conversation m) && (cv_owner c == mg_owner m) && cv_default c) (conversations (dd_chat s)))
    (Chat.messages (dd_chat s)).
Definition _answer_request (owner decision : string) (revision : Z) (message : string) (s : decision_db) : res decision_error answer_request :=
  let missing := FirstmateDecisionError "native_message_not_found" 404 in
  ensure (_SAFE_NATIVE_MESSAGE_ID message) missing;;
  m ← of_option missing (native_message owner message s);
  ensure ((mg_status m == completed) && listed (mg_source m) ["text"; "voice"]) missing;;
  answer ← _validated_answer (mg_content m);
  mret (Build_answer_request decision revision message (mg_created m) (mg_conversation m) (mg_sequence m) answer
          (sha256_hex answer) (utf8_length answer) (answer_key owner message)).
(** [_require_current_native_message] *)
Definition newer_message (owner : string) (r : answer_request) (m : Chat.message) : bool :=
  (mg_owner m == owner) && (mg_conversation m == ar_conversation r) && (mg_role m == RoleUser) && (ar_sequence r <? mg_sequence m).
Definition _require_current_native_message (owner : string) (r : answer_request) (s : decision_db) : res decision_error unit :=
  ensure (negb (exists_row (newer_message owner r) (Chat.messages (dd_chat s)))) (FirstmateDecisionError "native_message_stale" 409).

Record public_outcome := {
  po_decision : string; po_revision : Z; po_status : answer_status; po_error : option string; po_bytes : Z; po_timestamp : Z; po_idempotent : bool;
}.
Definition _public_outcome (r : answer_row) (idempotent : bool) : public_outcome :=
  Build_public_outcome (an_decision r) (an_revision r) (an_status r) (an_error r) (an_bytes r) (an_updated r) idempotent.
Definition _matching_outcome (r : answer_row) (q : answer_request) : bool :=
  (an_decision r == ar_decision q) && (an_revision r =? ar_revision q) && (an_message r == ar_message q) &&
  (an_answer_sha256 r == ar_sha256 q) && (an_bytes r =? ar_bytes q).
Definition mismatch : decision_error := FirstmateDecisionError "idempotency_mismatch" 409.

Definition existing_outcome (owner decision : string) (revision : Z) (message : string) (s : decision_db)
    : res decision_error (option (public_outcome * answer_row)) :=
  q ← _answer_request owner decision revision message s;
  match fetchone (is_answer owner (ar_key q)) (dd_answers s) with
  | None => mret None
  | Some r => ensure (_matching_outcome r q) mismatch;; mret (Some (_public_outcome r true, r))
  end.

(** The decision of an answer: present, at the revision, bound and open. *)
Definition current_decision (owner decision : string) (revision : Z) (s : decision_db) : res decision_error decision_row :=
  d ← of_option (FirstmateDecisionError "decision_not_found" 404) (fetchone (is_decision owner decision) (dd_decisions s));
  ensure (de_revision d =? revision) (FirstmateDecisionError "stale" 409);;
  mret d.
Definition require_pending (d : decision_row) : res decision_error unit :=
  ensure (de_state d != d_answering) (FirstmateDecisionError "duplicate" 409);;
  ensure (de_state d == d_pending) (FirstmateDecisionError "already_resolved" 409).

Inductive prepared_answer :=
| Outcome (o : public_outcome)
| ConfirmationRequired (token : string) (expires_at : Z) (target : decision_row).
Definition prepare_confirmation (now : Z) (token owner session decision : string) (revision : Z) (message : string) : dtx prepared_answer :=
  let expires_at := now + CONFIRMATION_TTL_SECONDS * 1000 in
  request ← read (_answer_request owner decision revision message);
  q ← lift request;
  existing ← read (λ s, fetchone (is_answer owner (ar_key q)) (dd_answers s));
  match existing with
  | Some r => require (_matching_outcome r q) mismatch;; mret (Outcome (_public_outcome r true))
  | None =>
      current ← read (_require_current_native_message owner q);
      lift current;;
      found ← read (current_decision owner decision revision);
      d ← lift found;
      bound ← read (_require_current_request d now);
      bound ← lift bound;
      let expires_at := match bound with Some r => Z.min expires_at (rq_expires r) | None => expires_at end in
      lift (require_pending d);;
      require (de_created d <=? ar_message_created q) (FirstmateDecisionError "answer_precedes_decision" 409);;
      require (negb (_RISK_PATTERN (de_title d +:+ " " +:+ de_question d))) (FirstmateDecisionError "unsupported_risk" 409);;
      insert_confirmation (Build_confirmation (sha256_hex token) owner session decision revision message (ar_key q) (ar_sha256 q) expires_at None now);;
      mret (ConfirmationRequired token expires_at d)
  end.

(** What [claim_answer] returns. *)
Record answer_claim := {
  ac_claimed : bool; ac_resumed : bool; ac_claim : string; ac_request : answer_request; ac_decision : private_decision; ac_outcome : public_outcome;
}.

(** An answer that is bound already: its claim is taken over once expired. *)
Definition resume_answer (now : Z) (claim_id owner decision : string) (revision : Z) (q : answer_request) (r : answer_row) : dtx answer_claim :=
  let key := is_answer owner (ar_key q) in
  resumed ←
    (if (an_status r == a_pending) && (an_lease r <=? now) then
       current ← read (λ s, fetchone (is_decision owner decision) (dd_decisions s));
       require (match current with Some d => de_revision d =? revision | None => false end) (FirstmateDecisionError "stale" 409);;
       bound ← read (λ s, match current with Some d => _require_current_request d now s | None => Ok None end);
       lift bound;;
       let target x := key x && (an_status x == a_pending) && (an_lease x <=? now) in
       updated ← read (λ s, count target (dd_answers s));
       update_answers target (λ x, x <| an_claim := claim_id |> <| an_lease := now + ANSWER_EXECUTION_LEASE_MS |> <| an_updated := now |>);;
       mret (Some (updated =? 1))
     else mret None);
  row ← read (λ s, fetchone key (dd_answers s));
  row ← lift (of_option DecisionValueError row);
  found ← read (λ s, fetchone (is_decision owner decision) (dd_decisions s));
  d ← lift (of_option (FirstmateDecisionError "decision_not_found" 404) found);
  private ← lift (_private_decision d);
  let claimed := default false resumed in
  mret (Build_answer_claim claimed claimed (if resumed is Some _ then claim_id else an_claim r) q private (_public_outcome row true)).

(** The confirmation is valid for exactly this answer. *)
Definition confirms (now : Z) (owner session decision : string) (revision : Z) (message : string) (q : answer_request) (c : confirmation) : bool :=
  (cf_owner c == owner) && (cf_session c == session) && (cf_decision c == decision) && (cf_revision c =? revision) &&
  (cf_message c == message) && (cf_key c == ar_key q) && (cf_answer_sha256 c == ar_sha256 q) && negb (cf_expires c <=? now) && (cf_used c == None).

Definition is_ascii (s : string) : bool := str_forall (in_range 0 127) s.
Definition answer_row_id (owner key : string) : string := "fmda_" +:+ str_take 32 (sha256_hex (join NUL [owner; key])).

(** The first claim of an answer consumes its confirmation. *)
Definition new_answer (now : Z) (claim_id owner session decision : string) (revision : Z) (message token : string) (q : answer_request) : dtx answer_claim :=
  current ← read (_require_current_native_message owner q);
  lift current;;
  found ← read (current_decision owner decision revision);
  d ← lift found;
  lift (require_pending d);;
  bound ← read (_require_current_request d now);
  lift bound;;
  require (token != "") (FirstmateDecisionError "confirmation_required" 400);;
  require (is_ascii token) (FirstmateDecisionError "confirmation_invalid" 409);;
  let hash := sha256_hex token in
  stored ← read (λ s, fetchone (λ c, cf_hash c == hash) (dd_confirmations s));
  require (match stored with Some c => confirms now owner session decision revision message q c | None => false end)
    (FirstmateDecisionError "confirmation_invalid" 409);;
  competing ← read (λ s, fetchone (λ r, answers_revision owner decision revision r && is_live r) (dd_answers s));
  require (negb (is_some competing)) (FirstmateDecisionError "duplicate" 409);;
  modify (λ s, s <| dd_confirmations ::= update (λ c, (cf_hash c == hash) && (cf_used c == None)) (λ c, c <| cf_used := Some now |>) |>);;
  let row := Build_answer_row (answer_row_id owner (ar_key q)) owner decision revision message (ar_key q) session (ar_sha256 q) (ar_bytes q)
    a_pending None claim_id (now + ANSWER_EXECUTION_LEASE_MS) now now in
  insert_answer row;;
  update_decisions (λ r, is_decision owner decision r && (de_revision r =? revision) && (de_state r == d_pending))
    (λ r, r <| de_state := d_answering |> <| de_updated := now |>);;
  private ← lift (_private_decision d);
  mret (Build_answer_claim true false claim_id q private (_public_outcome row false)).

Definition claim_answer (now : Z) (claim_id owner session decision : string) (revision : Z) (message token : string) : dtx answer_claim :=
  request ← read (_answer_request owner decision revision message);
  q ← lift request;
  existing ← read (λ s, fetchone (is_answer owner (ar_key q)) (dd_answers s));
  match existing with
  | Some r => require (_matching_outcome r q) mismatch;; resume_answer now claim_id owner decision revision q r
  | None => new_answer now claim_id owner session decision revision message token q
  end.

(** The state a decision takes with the result of its answer. *)
Definition after_answer (now : Z) (result : command_result) (d : decision_row) : decision_row :=
  if cr_ok result then d <| de_state := d_answered |> <| de_updated := now |>
  else if cr_code result == "stale" then d <| de_state := d_resolved |> <| de_revision ::= Z.succ |> <| de_updated := now |>
  else d <| de_state := d_pending |> <| de_updated := now |>.

Definition finish_answer (now : Z) (owner key claim_id : string) (result : command_result) : dtx public_outcome :=
  row ← read (λ s, fetchone (is_answer owner key) (dd_answers s));
  r ← lift (of_option (FirstmateDecisionError "answer_not_found" 409) row);
  if (an_status r != a_pending) || (an_claim r != claim_id) then mret (_public_outcome r true)
  else
    let target x := is_answer owner key x && (an_status x == a_pending) && (an_claim x == claim_id) in
    updated ← read (λ s, count target (dd_answers s));
    update_answers target (λ x, x <| an_status := (if cr_ok result then a_succeeded else a_failed) |>
      <| an_error := (if cr_ok result then None else Some (cr_code result)) |> <| an_updated := now |>);;
    if negb (updated =? 1) then
      row ← read (λ s, fetchone (is_answer owner key) (dd_answers s));
      current ← lift (of_option DecisionValueError row);
      mret (_public_outcome current true)
    else
      update_decisions (λ d, is_decision owner (an_decision r) d && (de_revision d =? an_revision r) && (de_state d == d_answering))
        (after_answer now result);;
      objective ← read (λ s, fetchone (λ b, exists_row (λ d, is_decision owner (an_decision r) d && (de_task d == sb_task b) && (de_owner d == sb_owner b))
        (dd_decisions s)) (submissions (dd_objectives s)));
      (match objective with Some b => in_objectives (persist_objective_state owner (sb_objective b) false) | None => mret tt end);;
      row ← read (λ s, fetchone (is_answer owner key) (dd_answers s));
      completed ← lift (of_option DecisionValueError row);
      mret (_public_outcome completed false).

(** ** The service *)

(** [MAGISTRATE_BOOTSTRAP_USER_ID], [hosted_execution_enabled()] and the source
    the service was built for. *)
Context (bootstrap : string) (hosted_enabled : bool) (service_source : string).

Definition configured_owner : string :=
  if is_personal policy then default "" (owner_principal_id policy) else bootstrap.
Definition _require_source_owner (owner : string) : res decision_error string :=
  owner ← _valid_owner owner;
  ensure (owner == configured_owner) (FirstmateDecisionError "forbidden" 403);;
  mret owner.
Definition _qualified_owner (owner : string) : res decision_error string :=
  if hosted_enabled then _valid_owner owner else _require_source_owner owner.

(** Every text of a pushed event is canonical, and its identity is the digest
    of its meaning. *)
Definition event_semantic (e : required_event) : json :=
  JObj ([("task_id", JStr (re_task e)); ("lifecycle_identity", JStr (re_lifecycle e)); ("title", JStr (re_title e)); ("question", JStr (re_question e));
    ("project", match re_project e with Some p => JStr p | None => JNull end); ("close_mode", JStr "release")] ++
    match re_request e with Some r => [("request", request_json r)] | None => [] end).
Definition check_event (e : required_event) : res decision_error unit :=
  let invalid := FirstmateDecisionError "source_invalid" 503 in
  title ← bounded_required (re_title e) 240;
  question ← bounded_required (re_question e) 600;
  project ← match re_project e with Some p => Some <$> bounded_required p 160 | None => mret None end;
  ensure ((title == re_title e) && (question == re_question e) && (project == re_project e)) invalid;;
  id ← _event_id service_source (re_task e) (re_lifecycle e) (event_semantic e);
  ensure (re_event e == id) invalid.
Fixpoint check_events (l : list required_event) : res decision_error unit :=
  match l with [] => mret tt | e :: l' => check_event e;; check_events l' end.

Definition timed (e : required_event) : json :=
  match event_payload e with JObj d => JObj (d ++ [("observed_at", JInt (re_observed e))]) | j => j end.
Definition batch_json (b : event_batch) : json :=
  JObj [("schema_version", JStr "firstmate.decision-events.v1"); ("source_instance_id", JStr (eb_source b)); ("observed_at", JInt (eb_observed b));
    ("complete", JBool true); ("events", JList (map timed (eb_events b)))].

Definition ingest_events (now : Z) (owner : string) (b : event_batch) : dtx (list private_decision) :=
  owner ← lift (_qualified_owner owner);
  require (eb_source b == service_source) (FirstmateDecisionError "source_conflict" 409);;
  lift (check_events (eb_events b));;
  sha ← lift (_payload_sha256 (batch_json b));
  apply_snapshot now owner service_source (eb_observed b) sha (eb_events b).

Definition reconcile (owner : string) (s : decision_db) : res decision_error (list private_decision) :=
  owner ← _qualified_owner owner; pending_of owner s.

(** [magi_context]: the status of the source, at most twenty pending decisions,
    and whether there are more. *)
Definition magi_context (owner : string) (s : decision_db) : res decision_error (string * list decision_row * bool) :=
  owner ← _qualified_owner owner;
  rows ← pending_of owner s;
  source ← source_status owner service_source s;
  let pending := select (λ r, de_state r == d_pending) (map pd_row rows) in
  mret (source.1, take MAX_CONTEXT_DECISIONS pending, MAX_CONTEXT_DECISIONS <? Z.of_nat (length pending)).

(** [attention_items]: the status of an item and whether it asks for action. *)
Record attention_item := { at_decision : decision_row; at_status : string; at_actionable : bool }.
Definition attention_item_of (now : Z) (owner : string) (stale : bool) (d : private_decision) : res decision_error attention_item :=
  let r := pd_row d in
  let status := if de_state r == d_answering then "answering" else if stale then "source-unavailable" else "needs-decision" in
  expired ← match pd_request d with
            | Some q => expires ← of_option DecisionValueError (as_int (get "expires_at" q)); mret (expires <=? now)
            | None => mret false
            end;
  let unbound := personal_owner owner && negb (is_some (pd_request d)) in
  mret (Build_attention_item r (if expired : bool then "expired" else if unbound then "request-unbound" else status)
          (negb (expired || unbound || stale) && (de_state r == d_pending))).
Definition attention_items (now : Z) (owner : string) (stale : bool) (s : decision_db) : res decision_error (list attention_item) :=
  owner ← _qualified_owner owner; rows ← pending_of owner s; map_res (attention_item_of now owner stale) rows.

(** [_authorize]; [None] is an object that is not a [Principal], the clock is
    in seconds. *)
Definition _authorize (seconds : Z) (p : option principal) : res decision_error principal :=
  p ← of_option (FirstmateDecisionError "unauthorized" 403) p;
  ensure (has p "command") (FirstmateDecisionError "unauthorized" 403);;
  ensure (hosted_enabled || (user_id p == configured_owner)) (FirstmateDecisionError "forbidden" 403);;
  ensure (negb (expires_at p <=? seconds)) (FirstmateDecisionError "unauthorized" 401);;
  mret p.

Local Abbreviation io := (Prelude.io decision_error decision_db).
(** What other tasks commit at the awaits, and the command that releases held
    work: a call and its result. *)
Record command_call := { cc_task : string; cc_lifecycle : string; cc_answer : string; cc_closed_replay : bool }.
Context (others : nat → decision_db → decision_db) (answer_decision : command_call → res decision_error command_result).
Local Abbreviation await := (await others).

Definition prepare_tool_answer (now : Z) (p : option principal) (token decision : string) (revision : Z) (message : string) : io prepared_answer :=
  p ← pure (_authorize (now / 1000) p);
  await 0;;
  existing ← run_tx (x ← read (existing_outcome (user_id p) decision revision message); lift x);
  match existing with
  | Some (o, _) => mret (Outcome o)
  | None => await 1;; run_tx (prepare_confirmation now token (user_id p) (session_id p) decision revision message)
  end.

Definition execute_claim (now : Z) (owner : string) (c : answer_claim) : io public_outcome :=
  if negb (ac_claimed c) then mret (ac_outcome c)
  else
    let d := pd_row (ac_decision c) in
    await 2;;
    result ← pure (answer_decision (Build_command_call (de_task d) (de_lifecycle d) (ar_answer (ac_request c)) (ac_resumed c)));
    await 3;;
    run_tx (finish_answer now owner (ar_key (ac_request c)) (ac_claim c) result).
Definition execute_tool_answer (now : Z) (later : Z) (p : option principal) (claim_id decision : string) (revision : Z) (message token : string) : io public_outcome :=
  p ← pure (_authorize (now / 1000) p);
  await 0;;
  existing ← run_tx (x ← read (existing_outcome (user_id p) decision revision message); lift x);
  match existing with
  | Some (o, r) =>
      if an_status r != a_pending then mret o
      else await 1;; c ← run_tx (claim_answer now claim_id (user_id p) (session_id p) decision revision message token); execute_claim later (user_id p) c
  | None => await 1;; c ← run_tx (claim_answer now claim_id (user_id p) (session_id p) decision revision message token); execute_claim later (user_id p) c
  end.
End Store.
