(* ===== verification/DecisionInvariant.v ===== *)
(** * The life of a decision

    [seen] is what a snapshot does to a decision, [advance] what any
    transaction does. [consistent] ties the state of a decision to its live
    answer and every answer to the confirmation that paid for it. *)

From stdpp Require Import base option list strings numbers sets.
From Stdlib Require Import ZArith Lia.
From S2P Require Import Prelude Sql Feed Json Text Chat BillingCatalog BillingLedger Activity Deployment Objectives Decisions.

Open Scope string_scope.
Open Scope list_scope.
Open Scope Z_scope.

(** ** Decisions *)

Definition identity (d : decision_row) := (de_id d, de_owner d, de_source d, de_task d, de_lifecycle d, de_created d).
(** What the user is shown and answers. *)
Definition shown (d : decision_row) := (de_title d, de_question d, de_project d).

(** No answer is out. *)
Definition idle (d : decision_row) : Prop := de_state d = d_pending ∨ de_state d = d_resolved.

(** A snapshot leaves a revision as it is or starts a new one. *)
Record seen (d d' : decision_row) : Prop := {
  sn_identity : identity d' = identity d;
  sn_revision : (de_revision d' = de_revision d ∧ de_state d' = de_state d ∧ shown d' = shown d) ∨ (de_revision d < de_revision d' ∧ idle d');
}.

(** The states one revision goes through. *)
Definition reaches (a b : decision_state) : bool :=
  match a, b with
  | d_pending, (d_pending | d_answering | d_answered) => true
  | d_answering, (d_pending | d_answering | d_answered) => true
  | d_answered, d_answered => true
  | d_resolved, d_resolved => true
  | _, _ => false
  end.
Record advance (d d' : decision_row) : Prop := {
  av_identity : identity d' = identity d;
  av_revision : de_revision d ≤ de_revision d';
  av_shown : de_revision d' = de_revision d → shown d' = shown d;
  av_state : de_revision d' = de_revision d → reaches (de_state d) (de_state d') = true;
}.

#[export] Instance seen_preorder : PreOrder seen.
Proof.
  split; [intros d; by split; [|left]|]. intros a b c [Ia Ra] [Ib Rb]. split; [congruence|].
  destruct Ra as [(?&?&?)|[? Ha]], Rb as [(?&?&?)|[? Hb]]; [left; repeat split; congruence|right..]; split; try lia; try done.
  unfold idle in *. destruct Ha; [left|right]; congruence.
Qed.
#[export] Instance advance_preorder : PreOrder advance.
Proof.
  split; [intros d; split; try done; by destruct (de_state d)|]. intros a b c [Ia Ra Sa Ta] [Ib Rb Sb Tb]. split; [congruence|lia|..].
  - intros E. rewrite Sb, Sa by lia. done.
  - intros E. specialize (Ta ltac:(lia)). specialize (Tb ltac:(lia)). by destruct (de_state a), (de_state b), (de_state c).
Qed.
Lemma seen_advance d d' : seen d d' → advance d d'.
Proof.
  intros [Hi [(Hr & Hs & Hc)|[Hr _]]]; split; try done; try lia. rewrite Hs. by destruct (de_state d).
Qed.

(** Every row is still there, further along. *)
Definition follow {R} (rel : R → R → Prop) (t t' : list R) : Prop := ∀ r, r ∈ t → ∃ r', r' ∈ t' ∧ rel r r'.
#[export] Instance follow_preorder {R} (rel : R → R → Prop) `{!PreOrder rel} : PreOrder (follow rel).
Proof.
  split; [intros t r Hr; by exists r|]. intros a b c Hab Hbc r Hr.
  destruct (Hab r Hr) as (r1 & H1 & L1), (Hbc r1 H1) as (r2 & H2 & L2). exists r2. split; [done|by etrans].
Qed.
Lemma follow_mono {R} (rel rel' : R → R → Prop) t t' : (∀ r r', rel r r' → rel' r r') → follow rel t t' → follow rel' t t'.
Proof. intros H Hf r Hr. destruct (Hf r Hr) as (r' & ? & ?). eauto. Qed.
Lemma follow_update {R} (rel : R → R → Prop) `{!PreOrder rel} p f t : (∀ r, r ∈ t → p r = true → rel r (f r)) → follow rel t (update p f t).
Proof.
  intros H r Hr. exists (if p r then f r else r). split; [by apply elem_of_update; exists r|]. destruct (p r) eqn:E; [auto|done].
Qed.
Lemma follow_app {R} (rel : R → R → Prop) `{!PreOrder rel} t u : follow rel t (t ++ u).
Proof. intros r Hr. exists r. split; [set_solver|done]. Qed.

Definition ids_ok (t : list decision_row) : Prop := NoDup (map de_id t).

(** A statement of a snapshot: rows are seen, new rows are idle. *)
Record snap (t t' : list decision_row) : Prop := {
  sp_ids : ids_ok t';
  sp_seen : follow seen t t';
  sp_new : ∀ d', d' ∈ t' → (∃ d, d ∈ t ∧ seen d d') ∨ idle d';
}.
Lemma snap_refl t : ids_ok t → snap t t.
Proof. intros H. split; [done|done|]. intros d Hd. left. by exists d. Qed.
Lemma snap_trans a b c : snap a b → snap b c → snap a c.
Proof.
  intros [_ Sa Na] [Hc Sb Nb]. split; [done|by etrans|]. intros d Hd.
  destruct (Nb d Hd) as [(d1 & Hd1 & L1)|?]; [|by right]. destruct (Na d1 Hd1) as [(d0 & Hd0 & L0)|Hi].
  - left. exists d0. split; [done|by etrans].
  - right. destruct L1 as [_ [(_ & E & _)|[_ ?]]]; [|done]. unfold idle in *. by rewrite E.
Qed.
Lemma snap_update p f t : ids_ok t → (∀ d, d ∈ t → p d = true → seen d (f d)) → snap t (update p f t).
Proof.
  intros Hn Hf. split.
  - unfold ids_ok. rewrite map_update_in; [done|]. intros d Hd Hp. destruct (Hf d Hd Hp) as [Hi _]. by injection Hi.
  - by apply follow_update; [apply _|].
  - intros d' (d & Hd & ->)%elem_of_update. left. exists d. split; [done|]. destruct (p d) eqn:E; [auto|done].
Qed.

(** ** Answers and confirmations *)

Definition answer_identity (a : answer_row) :=
  (an_id a, an_owner a, an_decision a, an_revision a, an_message a, an_key a, an_session a, an_answer_sha256 a, an_bytes a, an_created a).
(** A closed answer never changes. *)
Record answer_step (a a' : answer_row) : Prop := {
  as_identity : answer_identity a' = answer_identity a;
  as_final : an_status a ≠ a_pending → a' = a;
}.
#[export] Instance answer_step_preorder : PreOrder answer_step.
Proof.
  split; [by split|]. intros a b c [Ia Fa] [Ib Fb]. split; [congruence|]. intros H. specialize (Fa H). subst b. auto.
Qed.

(** A confirmation is used once. *)
Record confirmation_step (c c' : confirmation) : Prop := {
  cs_identity : c' <| cf_used := None |> = c <| cf_used := None |>;
  cs_used : is_Some (cf_used c) → c' = c;
}.
#[export] Instance confirmation_step_preorder : PreOrder confirmation_step.
Proof. split; [by split|]. intros a b c [Ia Ua] [Ib Ub]. split; [congruence|]. intros H. specialize (Ua H). subst b. auto. Qed.

(** The confirmation that paid for an answer. *)
Record pays (c : confirmation) (a : answer_row) : Prop := {
  py_used : cf_used c = Some (an_created a);
  py_owner : cf_owner c = an_owner a; py_session : cf_session c = an_session a; py_decision : cf_decision c = an_decision a;
  py_revision : cf_revision c = an_revision a; py_message : cf_message c = an_message a; py_key : cf_key c = an_key a;
  py_sha256 : cf_answer_sha256 c = an_answer_sha256 a; py_fresh : an_created a < cf_expires c;
}.

(** The decision of an answer at the revision it answers. *)
Record bound_to (a : answer_row) (d : decision_row) : Prop := {
  bd_id : de_id d = an_decision a; bd_owner : de_owner d = an_owner a; bd_revision : an_revision a ≤ de_revision d;
  bd_pending : an_revision a = de_revision d → an_status a = a_pending → de_state d = d_answering;
  bd_succeeded : an_revision a = de_revision d → an_status a = a_succeeded → de_state d = d_answered;
}.
Definition answer_of (d : decision_row) (status : answer_status) (a : answer_row) : Prop :=
  an_owner a = de_owner d ∧ an_decision a = de_id d ∧ an_revision a = de_revision d ∧ an_status a = status.
Definition answered_by (d : decision_row) (answers : list answer_row) : Prop :=
  (de_state d = d_answering → ∃ a, a ∈ answers ∧ answer_of d a_pending a) ∧
  (de_state d = d_answered → ∃ a, a ∈ answers ∧ answer_of d a_succeeded a).

Definition akey (a : answer_row) := (an_owner a, an_key a).
Record consistent (s : decision_db) : Prop := {
  ct_ids : ids_ok (dd_decisions s);
  ct_keys : NoDup (map akey (dd_answers s));
  ct_hashes : NoDup (map cf_hash (dd_confirmations s));
  ct_live : ∀ a b, a ∈ dd_answers s → b ∈ dd_answers s → is_live a = true → is_live b = true →
    answers_revision (an_owner a) (an_decision a) (an_revision a) b = true → a = b;
  ct_bound : ∀ a, a ∈ dd_answers s → ∃ d, d ∈ dd_decisions s ∧ bound_to a d;
  ct_state : ∀ d, d ∈ dd_decisions s → answered_by d (dd_answers s);
  ct_paid : ∀ a, a ∈ dd_answers s → ∃ c, c ∈ dd_confirmations s ∧ pays c a;
}.

Lemma decision_unique t x y : ids_ok t → x ∈ t → y ∈ t → de_id x = de_id y → x = y.
Proof. apply NoDup_key_inj. Qed.
Lemma is_decision_spec owner id d : is_decision owner id d = true → de_owner d = owner ∧ de_id d = id.
Proof. unfold is_decision. intros H. by bools. Qed.
Lemma fetch_decision owner id t d : fetchone (is_decision owner id) t = Some d → d ∈ t ∧ de_owner d = owner ∧ de_id d = id.
Proof. by intros [? []%is_decision_spec]%fetchone_some. Qed.

(** ** Snapshots *)

Record snapshot_of (s s' : decision_db) : Prop := {
  so_decisions : snap (dd_decisions s) (dd_decisions s');
  so_answers : dd_answers s' = dd_answers s;
  so_confirmations : dd_confirmations s' = dd_confirmations s;
}.
(** From unique decisions, a run of [m] does what a snapshot may. *)
Definition snapping {A} (m : dtx A) : Prop := ∀ s a s', ids_ok (dd_decisions s) → m s = Ok (a, s') → snapshot_of s s'.

Create HintDb snapping.

Lemma snapshot_refl s : ids_ok (dd_decisions s) → snapshot_of s s.
Proof. intros H. split; [by apply snap_refl|done|done]. Qed.
Lemma snapshot_trans a b c : snapshot_of a b → snapshot_of b c → snapshot_of a c.
Proof. intros [] []. split; [by eapply snap_trans|congruence|congruence]. Qed.

Lemma snapping_bind {A B} (m : dtx A) (f : A → dtx B) : snapping m → (∀ a, snapping (f a)) → snapping (m ≫= f).
Proof.
  intros Hm Hf s b s' Hs (a & s1 & H1 & H2)%bind_ok. pose proof (Hm _ _ _ Hs H1) as F1. eapply snapshot_trans; [exact F1|].
  eapply Hf; [apply F1|done].
Qed.
Lemma snapping_same {A} (m : dtx A) : (∀ s a s', m s = Ok (a, s') → dd_decisions s' = dd_decisions s ∧ dd_answers s' = dd_answers s ∧
  dd_confirmations s' = dd_confirmations s) → snapping m.
Proof. intros H s a s' Hs (E1 & E2 & E3)%H. split; [rewrite E1; by apply snap_refl|done|done]. Qed.
Lemma snapping_ret {A} (a : A) : snapping (mret a).
Proof. apply snapping_same. by intros s b s' [_ <-]%ret_ok. Qed.
Lemma snapping_read {A} (f : decision_db → A) : snapping (read f).
Proof. apply snapping_same. by intros s b s' [_ <-]%read_ok. Qed.
Lemma snapping_lift {A} (r : res decision_error A) : snapping (lift r).
Proof. apply snapping_same. by intros s b s' [_ <-]%lift_ok. Qed.
Lemma snapping_require b e : snapping (require b e).
Proof. apply snapping_lift. Qed.
Lemma snapping_objectives {A} (m : otx A) : snapping (in_objectives m).
Proof. apply snapping_same. intros s a s' H. unfold in_objectives in H. by destruct (m _) as [[? ?]|]; simplify_eq/=. Qed.
Lemma snapping_sources f : snapping (modify (λ s, s <| dd_sources ::= f |>)).
Proof. apply snapping_same. by intros s a s' ->%modify_ok. Qed.
Lemma insert_into_ok {R} (get : decision_db → list R) set clash (r : R) s (u : unit) s' :
  insert_into get set clash r s = Ok (u, s') ↔ (∀ x, x ∈ get s → clash r x = false) ∧ s' = set (get s ++ [r]) s.
Proof.
  unfold insert_into. split.
  - destruct (insert clash r (get s)) as [t|] eqn:E; [|done]. intros [= <- <-]. by apply insert_some in E as [-> ?].
  - intros [Hf ->]. rewrite insert_fresh by done. by destruct u.
Qed.
Lemma snapping_insert_event e : snapping (insert_decision_event e).
Proof. apply snapping_same. by intros s a s' [_ ->]%insert_into_ok. Qed.
Lemma snapping_insert_decision d : idle d → snapping (insert_decision d).
Proof.
  intros Hi s a s' Hs [Hf ->]%insert_into_ok. split; [|done|done]. simpl. split.
  - unfold ids_ok. rewrite map_app. apply NoDup_app. split; [done|]. split; [|apply NoDup_singleton].
    intros x (y & -> & Hy)%list_elem_of_fmap Ey%list_elem_of_singleton. specialize (Hf y Hy). unfold decision_clash in Hf.
    bools. congruence.
  - apply follow_app; apply _.
  - intros x [Hx| ->%list_elem_of_singleton]%elem_of_app; [left; by exists x|by right].
Qed.
(** An update of rows that a snapshot may see that way. *)
Lemma snapping_update p f : (∀ d, p d = true → seen d (f d)) → snapping (update_decisions p f).
Proof. intros Hf s a s' Hs ->%modify_ok. split; [apply snap_update; auto|done|done]. Qed.
#[local] Hint Resolve snapping_ret snapping_read snapping_lift snapping_require snapping_objectives snapping_sources snapping_insert_event : snapping.

Ltac snap := repeat (intros; match goal with
  | |- snapping (mbind _ _) => apply snapping_bind
  | |- snapping (match ?x with _ => _ end) => destruct x
  | |- snapping (if ?x then _ else _) => destruct x
  | |- snapping _ => solve [eauto with snapping]
  end); intros.

Section Snapshots.
Context `{TextEngine, Codec} (policy : deployment_contract).

Lemma _insert_event_snaps now w src e type id payload digest observed : snapping (_insert_event now w src e type id payload digest observed).
Proof. unfold _insert_event. snap. Qed.
#[local] Hint Resolve _insert_event_snaps : snapping.

Lemma same_hold_spec w src task life d : same_hold w src task life d = true → de_owner d = w ∧ de_source d = src ∧ de_task d = task ∧ de_lifecycle d = life.
Proof. unfold same_hold. intros H1. bools. auto. Qed.

(** The statements on a row that is there in one of the two states. *)
Lemma observe_snaps now e digest observed id w d s : ids_ok (dd_decisions s) → d ∈ dd_decisions s → is_decision w id d = true →
  ∀ a s', observe_decision now e digest observed id w d s = Ok (a, s') → snapshot_of s s'.
Proof.
  intros Hs Hd Hp a s' Ho. assert (∀ x, x ∈ dd_decisions s → is_decision w id x = true → x = d) as Honly.
  { intros x Hx [_ Ex]%is_decision_spec. apply is_decision_spec in Hp as [_ Ed]. apply (decision_unique _ x d Hs); congruence. }
  assert (∀ f, (seen d (f d)) → snapshot_of s (s <| dd_decisions ::= update (is_decision w id) f |>)) as Hu.
  { intros f Hf. split; [|done|done]. simpl. apply snap_update; [done|]. intros x Hx Hpx. by rewrite (Honly x Hx Hpx). }
  unfold observe_decision in Ho. destruct (de_state d == d_resolved) eqn:E1; [|destruct (_ && _) eqn:E2]; apply modify_ok in Ho as ->; apply Hu.
  - split; [done|]. right. simpl. split; [lia|]. by left.
  - bools. split; [done|]. right. simpl. split; [lia|]. left. by simpl.
  - split; [done|]. by left.
Qed.

Lemma apply_event_snaps now w src observed e : snapping (apply_event now w src observed e).
Proof.
  unfold apply_event. do 3 (apply snapping_bind; [auto with snapping|intros ?]). apply snapping_bind; [auto with snapping|intros payload]. cbv zeta.
  apply snapping_bind; [auto with snapping|intros _]. apply snapping_bind; [auto with snapping|intros incoming].
  intros s res s' Hs (ex & s1 & [E <-]%read_ok & Hx)%bind_ok. destruct ex as [d|].
  - apply fetchone_some in E as [Hd Hh%same_hold_spec]. apply bind_ok in Hx as ([] & s2 & [_ <-]%lift_ok & Hx).
    apply bind_ok in Hx as ([] & s2 & Hreq & Hx). apply bind_ok in Hx as ([] & s3 & [Hid <-]%require_ok & Hx). bools.
    apply bind_ok in Hx as ([] & s4 & Hob & [_ <-]%ret_ok).
    assert (snapshot_of s s2 ∧ ∃ d2, d2 ∈ dd_decisions s2 ∧ identity d2 = identity d ∧ de_state d2 = de_state d ∧ de_payload_sha256 d2 = de_payload_sha256 d) as (S1 & d2 & Hd2 & I2 & T2 & P2).
    { destruct (_ || _) eqn:Ei in Hreq; [|apply ret_ok in Hreq as [_ <-]; split; [by apply snapshot_refl|by exists d]].
      apply modify_ok in Hreq as ->. split.
      - split; [|done|done]. apply snap_update; [done|]. intros x _ _. split; [done|by left].
      - exists (if is_decision w (_decision_id w src (re_task e) (re_lifecycle e)) d then d <| de_request := incoming |> else d).
        split; [apply elem_of_update; by exists d|]. by destruct (is_decision _ _ _). }
    eapply snapshot_trans; [exact S1|]. assert (observe_decision now e (sha256_hex payload) observed (_decision_id w src (re_task e) (re_lifecycle e)) w d s2 =
      observe_decision now e (sha256_hex payload) observed (_decision_id w src (re_task e) (re_lifecycle e)) w d2 s2) as Eo
      by (unfold observe_decision; by rewrite T2, P2).
    rewrite Eo in Hob. eapply observe_snaps; [apply S1|exact Hd2| |exact Hob]. unfold is_decision. injection I2 as -> -> _ _ _ _.
    destruct Hh as (-> & _). by rewrite Hid, !eqb_refl.
  - apply bind_ok in Hx as ([] & s2 & Hi & [_ <-]%ret_ok). eapply snapping_insert_decision; [|done|exact Hi]. by left.
Qed.
#[local] Hint Resolve apply_event_snaps : snapping.

Lemma apply_events_snaps now w src observed l : snapping (apply_events now w src observed l).
Proof. induction l as [|e l IH]; simpl; snap. Qed.
Lemma resolve_decision_snaps now w src sha observed d : snapping (resolve_decision now w src sha observed d).
Proof.
  unfold resolve_decision. snap. apply snapping_update. intros x _. split; [done|]. right. simpl. split; [lia|]. by right.
Qed.
#[local] Hint Resolve apply_events_snaps resolve_decision_snaps : snapping.
Lemma resolve_missing_snaps now w src sha observed ids l : snapping (resolve_missing now w src sha observed ids l).
Proof. induction l as [|d l IH]; simpl; snap. Qed.
Lemma persist_all_snaps w l : snapping (persist_all w l).
Proof. induction l as [|b l IH]; simpl; snap. Qed.
#[local] Hint Resolve resolve_missing_snaps persist_all_snaps : snapping.

Lemma apply_current_snaps now w src observed sha events : snapping (apply_current now w src observed sha events).
Proof. unfold apply_current. snap. Qed.
#[local] Hint Resolve apply_current_snaps : snapping.
Lemma apply_snapshot_snaps now w src observed sha events : snapping (apply_snapshot now w src observed sha events).
Proof. unfold apply_snapshot. snap. Qed.
End Snapshots.

Lemma snapshot_consistent s s' : snapshot_of s s' → consistent s → consistent s'.
Proof.
  intros [[Hi Hs Hn] Ha Hc] [Ids Keys Hash Live Bound State Paid]. split; rewrite ?Ha, ?Hc; try done.
  - intros a Hin. destruct (Bound a Hin) as (d & Hd & B). destruct (Hs d Hd) as (d' & Hd' & [I R]). exists d'. split; [done|].
    injection I as I1 I2 _ _ _ _. destruct B as [B1 B2 B3 B4 B5].
    destruct R as [(E1 & E2 & _)|[E1 _]]; split; try congruence; try lia; rewrite ?E1, ?E2; auto.
  - intros d' Hd'. destruct (Hn d' Hd') as [(d & Hd & [I R])|Hidle]; [|destruct Hidle; split; congruence].
    destruct R as [(E1 & E2 & _)|[_ Hidle]]; [|destruct Hidle; split; congruence]. injection I as I1 I2 _ _ _ _.
    destruct (State d Hd) as [S1 S2]. unfold answered_by, answer_of. by rewrite E1, E2, I1, I2.
Qed.

(** ** Confirmations *)

Record prepared_of (s s' : decision_db) : Prop := {
  po_rest : s' <| dd_confirmations := dd_confirmations s |> = s;
  po_new : dd_confirmations s' = dd_confirmations s ∨
    ∃ c, dd_confirmations s' = dd_confirmations s ++ [c] ∧ cf_used c = None ∧ ∀ x, x ∈ dd_confirmations s → confirmation_clash c x = false;
}.
Lemma prepared_consistent s s' : prepared_of s s' → consistent s → consistent s'.
Proof.
  intros [Er Hnew] [Ids Keys Hash Live Bound State Paid].
  assert (dd_decisions s' = dd_decisions s) as Ed by (by rewrite <- Er).
  assert (dd_answers s' = dd_answers s) as Ea by (by rewrite <- Er).
  split; rewrite ?Ed, ?Ea; try done.
  - destruct Hnew as [-> |(c & -> & _ & Hf)]; [done|]. rewrite map_app. apply NoDup_app. split; [done|]. split; [|apply NoDup_singleton].
    intros x (y & -> & Hy)%list_elem_of_fmap Ey%list_elem_of_singleton. specialize (Hf y Hy). unfold confirmation_clash in Hf. bools. congruence.
  - intros a Ha. destruct (Paid a Ha) as (c & Hc & P). exists c. split; [|done]. destruct Hnew as [-> |(? & -> & _)]; set_solver.
Qed.

(** ** Answers *)

(** A claim that is taken over: claim and lease of one row. *)
Lemma reclaim_consistent (p : answer_row → bool) (f : answer_row → answer_row) s :
  (∀ a, answer_identity (f a) = answer_identity a ∧ an_status (f a) = an_status a) →
  consistent s → consistent (s <| dd_answers ::= update p f |>).
Proof.
  intros Hf [Ids Keys Hash Live Bound State Paid].
  assert (∀ a, let a' := if p a then f a else a in answer_identity a' = answer_identity a ∧ an_status a' = an_status a) as Hsame.
  { intros a. simpl. destruct (p a); auto. }
  split; simpl; try done.
  - rewrite map_update_in; [done|]. intros a _ _. destruct (Hf a) as [I _]. unfold akey. by injection I as _ -> _ _ _ -> _ _ _ _.
  - intros a b (a0 & Ha & ->)%elem_of_update (b0 & Hb & ->)%elem_of_update La Lb E. destruct (Hsame a0) as [Ia Sa], (Hsame b0) as [Ib Sb].
    simpl in *. assert (a0 = b0) as ->; [|done]. apply Live; [done|done|..]; unfold is_live, answers_revision in *.
    + by rewrite <- Sa.
    + by rewrite <- Sb.
    + injection Ia as _ E1 E2 E3 _ _ _ _ _ _. injection Ib as _ E4 E5 E6 _ _ _ _ _ _. by rewrite <- E1, <- E2, <- E3, <- E4, <- E5, <- E6.
  - intros a (a0 & Ha & ->)%elem_of_update. destruct (Hsame a0) as [Ia Sa]. destruct (Bound a0 Ha) as (d & Hd & [B1 B2 B3 B4 B5]). exists d. split; [done|].
    simpl in *. injection Ia as _ E1 E2 E3 _ _ _ _ _ _. split; rewrite ?E1, ?E2, ?E3, ?Sa; auto.
  - intros d Hd. destruct (State d Hd) as [S1 S2]. split; intros Hst; [destruct (S1 Hst) as (a & Ha & A)|destruct (S2 Hst) as (a & Ha & A)];
      (exists (if p a then f a else a); split; [apply elem_of_update; by exists a|]); destruct (Hsame a) as [Ia Sa]; simpl in *;
      injection Ia as _ E1 E2 E3 _ _ _ _ _ _; unfold answer_of in *; by rewrite E1, E2, E3, Sa.
  - intros a (a0 & Ha & ->)%elem_of_update. destruct (Hsame a0) as [Ia _]. destruct (Paid a0 Ha) as (c & Hc & []). exists c. split; [done|].
    simpl in *. injection Ia as _ E1 E2 E3 E4 E5 E6 E7 _ E8. split; congruence.
Qed.

(** The statements of a new claim. *)
Definition grants (s : decision_db) (row : answer_row) (c : confirmation) (d : decision_row) : decision_db :=
  s <| dd_confirmations ::= update (λ x, (cf_hash x == cf_hash c) && (cf_used x == None)) (λ x, x <| cf_used := Some (an_created row) |>) |>
    <| dd_answers ::= (λ t, t ++ [row]) |>
    <| dd_decisions ::= update (λ x, is_decision (de_owner d) (de_id d) x && (de_revision x =? de_revision d) && (de_state x == d_pending))
         (λ x, x <| de_state := d_answering |> <| de_updated := an_created row |>) |>.
Record grantable (s : decision_db) (row : answer_row) (c : confirmation) (d : decision_row) : Prop := {
  gr_decision : d ∈ dd_decisions s; gr_pending : de_state d = d_pending; gr_answer : answer_of d a_pending row;
  gr_confirmation : c ∈ dd_confirmations s; gr_pays : pays (c <| cf_used := Some (an_created row) |>) row; gr_unused : cf_used c = None;
  gr_free : ∀ x, x ∈ dd_answers s → answers_revision (de_owner d) (de_id d) (de_revision d) x && is_live x = false;
  gr_clash : ∀ x, x ∈ dd_answers s → answer_clash row x = false;
}.

Lemma grants_consistent s row c d : grantable s row c d → consistent s → consistent (grants s row c d).
Proof.
  intros [Hd Hp [A1 (A2 & A3 & A4)] Hc Hpay Hun Hfree Hclash] [Ids Keys Hash Live Bound State Paid].
  set (now := an_created row). set (p := λ x, is_decision (de_owner d) (de_id d) x && (de_revision x =? de_revision d) && (de_state x == d_pending)).
  set (f := λ x, x <| de_state := d_answering |> <| de_updated := now |>).
  assert (∀ x, x ∈ dd_decisions s → p x = true → x = d) as Honly.
  { intros x Hx Hpx. unfold p, is_decision in Hpx. bools. by apply (decision_unique _ x d Ids). }
  assert (p d = true) as Hpd by (unfold p, is_decision; by rewrite !eqb_refl, Z.eqb_refl, Hp).
  assert (f d ∈ update p f (dd_decisions s)) as Hfd by (pose proof (update_in p f _ d Hd) as U; by rewrite Hpd in U).
  assert (∀ x, x ∈ dd_decisions s → p x = false → x ∈ update p f (dd_decisions s)) as Hsame by (intros x Hx E; pose proof (update_in p f _ x Hx) as U; by rewrite E in U).
  assert (∀ x, x ∈ update p f (dd_decisions s) → ∃ y, y ∈ dd_decisions s ∧ x = if p y then f y else y) as Hdown by (intros x Hx; by apply elem_of_update).
  assert (∀ x, x ∈ dd_answers s → is_live x = true → an_owner x = de_owner d → an_decision x = de_id d → an_revision x ≠ de_revision d) as Hnone.
  { intros x Hx Lx E1 E2 E3. specialize (Hfree x Hx). unfold answers_revision in Hfree. by rewrite E1, E2, E3, !eqb_refl, Z.eqb_refl, Lx in Hfree. }
  split; simpl.
  - unfold ids_ok. rewrite map_update; [done|]. done.
  - rewrite map_app. apply NoDup_app. split; [done|]. split; [|apply NoDup_singleton].
    intros k (y & -> & Hy)%list_elem_of_fmap [= E1 E2]%list_elem_of_singleton. specialize (Hclash y Hy). unfold answer_clash, is_answer in Hclash.
    by rewrite E1, E2, !eqb_refl, orb_true_r in Hclash.
  - rewrite map_update; [done|]. done.
  - intros a b [Ha| ->%list_elem_of_singleton]%elem_of_app [Hb| ->%list_elem_of_singleton]%elem_of_app La Lb E; [by apply Live|..|done];
      exfalso; unfold answers_revision in E; bools.
    + apply (Hnone a Ha La); congruence.
    + apply (Hnone b Hb Lb); congruence.
  - intros a [Ha| ->%list_elem_of_singleton]%elem_of_app.
    + destruct (Bound a Ha) as (x & Hx & [B1 B2 B3 B4 B5]). destruct (p x) eqn:Ex.
      * pose proof (Honly x Hx Ex) as ->. exists (f d). split; [exact Hfd|].
        split; simpl; try done. intros E S. exfalso. apply (Hnone a Ha); try congruence. unfold is_live. by rewrite S.
      * exists x. split; [by apply Hsame|done].
    + exists (f d). split; [exact Hfd|].
      split; simpl; try done; [lia|congruence].
  - intros x (y & Hy & ->)%Hdown. destruct (p y) eqn:Ey.
    + pose proof (Honly y Hy Ey) as ->. split; [|done]. intros _. exists row. split; [set_solver|]. by repeat split.
    + destruct (State y Hy) as [S1 S2]. split; intros Hst; [destruct (S1 Hst) as (a & Ha & A)|destruct (S2 Hst) as (a & Ha & A)]; (exists a; split; [set_solver|done]).
  - intros a [Ha| ->%list_elem_of_singleton]%elem_of_app.
    + destruct (Paid a Ha) as (x & Hx & P). exists x. split; [|done]. apply elem_of_update. exists x. split; [done|].
      destruct P as [P _ _ _ _ _ _ _ _]. by rewrite P, andb_false_r.
    + exists (c <| cf_used := Some now |>). split; [|done]. apply elem_of_update. exists c. split; [done|]. by rewrite eqb_refl, Hun.
Qed.

(** The statements that record a result. *)
Definition closes (now : Z) (result : command_result) (r : answer_row) (o : obj_db) (s : decision_db) : decision_db :=
  s <| dd_answers ::= update (λ x, is_answer (an_owner r) (an_key r) x && (an_status x == a_pending) && (an_claim x == an_claim r))
         (λ x, x <| an_status := (if cr_ok result then a_succeeded else a_failed) |>
                 <| an_error := (if cr_ok result then None else Some (cr_code result)) |> <| an_updated := now |>) |>
    <| dd_decisions ::= update (λ d, is_decision (an_owner r) (an_decision r) d && (de_revision d =? an_revision r) && (de_state d == d_answering))
         (after_answer now result) |>
    <| dd_objectives := o |>.

Section Closing.
Context (now : Z) (result : command_result) (r : answer_row) (s : decision_db).
Hypotheses (Hs : consistent s) (Hr : r ∈ dd_answers s) (Hp : an_status r = a_pending).
Let p (x : answer_row) : bool := is_answer (an_owner r) (an_key r) x && (an_status x == a_pending) && (an_claim x == an_claim r).
Let f (x : answer_row) : answer_row :=
  x <| an_status := (if cr_ok result then a_succeeded else a_failed) |>
    <| an_error := (if cr_ok result then None else Some (cr_code result)) |> <| an_updated := now |>.
Let q (d : decision_row) : bool := is_decision (an_owner r) (an_decision r) d && (de_revision d =? an_revision r) && (de_state d == d_answering).

Lemma closing_only x : x ∈ dd_answers s → p x = true → x = r.
Proof.
  intros Hx Hpx. unfold p, is_answer in Hpx. bools. apply (NoDup_key_inj akey _ x r (ct_keys _ Hs)); [done..|]. unfold akey. congruence.
Qed.
Lemma closing_row : p r = true.
Proof. unfold p, is_answer. by rewrite !eqb_refl, Hp. Qed.
Lemma closing_live x : x ∈ dd_answers s → is_live x = true → an_owner x = an_owner r → an_decision x = an_decision r →
  an_revision x = an_revision r → x = r.
Proof.
  intros Hx Lx E1 E2 E3. symmetry. apply (ct_live _ Hs); [done|done|unfold is_live; by rewrite Hp|done|].
  unfold answers_revision. by rewrite E1, E2, E3, !eqb_refl, Z.eqb_refl.
Qed.
Lemma closing_decision d : q d = true → an_revision r = de_revision d ∧ an_owner r = de_owner d ∧ an_decision r = de_id d ∧ de_state d = d_answering.
Proof. unfold q, is_decision. intros H. bools. auto. Qed.
(** The answered revision ends in a state that fits the outcome, or is over. *)
Lemma after_answer_cases d : let d' := after_answer now result d in
  de_id d' = de_id d ∧ de_owner d' = de_owner d ∧
  ((de_revision d' = de_revision d ∧ de_state d' = (if cr_ok result then d_answered else d_pending)) ∨
   (de_revision d < de_revision d' ∧ de_state d' = d_resolved)).
Proof.
  unfold after_answer. destruct (cr_ok result); [by auto|]. destruct (_ == _); simpl; [|by auto]. split_and!; auto. right. split; [lia|done].
Qed.

Lemma closes_bound a : a ∈ dd_answers s → ∃ d, d ∈ update q (after_answer now result) (dd_decisions s) ∧ bound_to (if p a then f a else a) d.
Proof.
  intros Ha. destruct (ct_bound _ Hs a Ha) as (d & Hd & [B1 B2 B3 B4 B5]).
  exists (if q d then after_answer now result d else d). split; [by apply update_in|]. destruct (q d) eqn:Eq.
  - destruct (closing_decision d Eq) as (Q1 & Q2 & Q3 & Q4). destruct (after_answer_cases d) as (C1 & C2 & C3).
    assert (an_revision a ≤ de_revision (after_answer now result d)) as Hle by (destruct C3 as [[-> _]|[? _]]; lia).
    destruct (p a) eqn:Ea.
    + pose proof (closing_only a Ha Ea) as ->. split; [exact (eq_trans C1 B1)|exact (eq_trans C2 B2)|exact Hle|..]; intros E Hst;
        change (an_revision r = de_revision (after_answer now result d)) in E; (destruct C3 as [[C3 ->]|[C3 _]]; [|exfalso; lia]);
        unfold f in Hst; simpl in Hst; revert Hst; by destruct (cr_ok result).
    + assert (is_live a = true → an_revision a = de_revision (after_answer now result d) → False) as Hdead.
      { intros L E. assert (a = r) as Hx; [|rewrite Hx, closing_row in Ea; done]. apply closing_live; try done; try congruence.
        destruct C3 as [[C3 _]|[C3 _]]; [congruence|lia]. }
      split; [congruence|congruence|done|..]; intros E Hst; destruct Hdead; try done; unfold is_live; by rewrite Hst.
  - destruct (p a) eqn:Ea; [|done]. pose proof (closing_only a Ha Ea) as ->. split; simpl; [done..| |]; intros E _; exfalso;
      specialize (B4 E Hp); unfold q, is_decision in Eq; by rewrite B1, B2, <- E, B4, !eqb_refl, Z.eqb_refl in Eq.
Qed.

Lemma closes_state d : d ∈ dd_decisions s → answered_by (if q d then after_answer now result d else d) (update p f (dd_answers s)).
Proof.
  intros Hd. destruct (q d) eqn:Eq.
  - destruct (closing_decision d Eq) as (Q1 & Q2 & Q3 & Q4). destruct (after_answer_cases d) as (C1 & C2 & C3). split; intros Hst.
    + exfalso. destruct C3 as [[_ C3]|[_ C3]]; rewrite C3 in Hst; by destruct (cr_ok result).
    + exists (f r). split; [pose proof (update_in p f _ r Hr) as U; by rewrite closing_row in U|].
      destruct C3 as [[C3 C4]|[_ C4]]; [|congruence]. unfold answer_of, f. simpl. destruct (cr_ok result); [|congruence]. by rewrite C1, C2, C3.
  - destruct (ct_state _ Hs d Hd) as [S1 S2]. split; intros Hst; [destruct (S1 Hst) as (a & Ha & A)|destruct (S2 Hst) as (a & Ha & A)];
      (exists (if p a then f a else a); split; [by apply update_in|]); destruct A as (A1 & A2 & A3 & A4); destruct (p a) eqn:Ea; try by repeat split.
    + pose proof (closing_only a Ha Ea) as ->. unfold q, is_decision in Eq. by rewrite <- A1, <- A2, <- A3, Hst, !eqb_refl, Z.eqb_refl in Eq.
    + pose proof (closing_only a Ha Ea) as ->. congruence.
Qed.

Lemma closes_live a b : a ∈ dd_answers s → b ∈ dd_answers s → let a' := if p a then f a else a in let b' := if p b then f b else b in
  is_live a' = true → is_live b' = true → answers_revision (an_owner a') (an_decision a') (an_revision a') b' = true → a' = b'.
Proof.
  intros Ha Hb. simpl. destruct (p a) eqn:Ea, (p b) eqn:Eb; intros La Lb E.
  - by rewrite (closing_only a Ha Ea), (closing_only b Hb Eb).
  - exfalso. pose proof (closing_only a Ha Ea) as ->. unfold answers_revision in E. simpl in E. bools.
    assert (b = r) as Hx by (apply closing_live; congruence). rewrite Hx, closing_row in Eb. done.
  - exfalso. pose proof (closing_only b Hb Eb) as ->. unfold answers_revision in E. simpl in E. bools.
    assert (a = r) as Hx by (apply closing_live; congruence). rewrite Hx, closing_row in Ea. done.
  - by apply (ct_live _ Hs).
Qed.

Lemma closes_consistent o : consistent (closes now result r o s).
Proof.
  assert (∀ x, x ∈ update p f (dd_answers s) → ∃ y, y ∈ dd_answers s ∧ x = if p y then f y else y) as Hdown by (intros x Hx; by apply elem_of_update).
  pose proof Hs as [Ids Keys Hash _ _ _ Paid]. split; simpl.
  - unfold ids_ok. rewrite map_update; [done|]. intros d. by destruct (after_answer_cases d).
  - rewrite map_update; done.
  - done.
  - intros a b (a0 & Ha & ->)%Hdown (b0 & Hb & ->)%Hdown. by apply closes_live.
  - intros a (a0 & Ha & ->)%Hdown. by apply closes_bound.
  - intros d (d0 & Hd & ->)%elem_of_update. by apply closes_state.
  - intros a (a0 & Ha & ->)%Hdown. destruct (Paid a0 Ha) as (c & Hc & P). exists c. split; [done|].
    destruct (p a0); [|done]. destruct P as [P1 P2 P3 P4 P5 P6 P7 P8 P9]. by split.
Qed.
End Closing.
