(* ===== verification/DecisionTheorems.v ===== *)
(** * What the decision store promises

    [decision_consistent], [revision_pinned], [finish_fenced] and
    [answer_exclusive]: each for every sequence of transactions, the other
    components free to change their tables in between. *)

From stdpp Require Import base option list strings numbers sets.
From Stdlib Require Import ZArith Lia.
From S2P Require Import Prelude Sql Feed Json Text Chat BillingCatalog BillingLedger Activity Deployment Objectives Decisions DecisionInvariant.

Open Scope string_scope.
Open Scope list_scope.
Open Scope Z_scope.

Section Decisions.
Context `{TextEngine, Codec} (policy : deployment_contract).

(** ** Transactions *)

Inductive decision_op :=
| OSnapshot (now : Z) (owner source : string) (observed : Z) (sha : string) (events : list required_event)
| OPrepare (now : Z) (token owner session decision : string) (revision : Z) (message : string)
| OClaim (now : Z) (claim_id owner session decision : string) (revision : Z) (message token : string)
| OFinish (now : Z) (owner key claim_id : string) (result : command_result)
| OEnvironment (objectives : obj_db → obj_db) (chat : chat_db → chat_db) (projects : list project → list project).

Definition decision_run (op : decision_op) (s : decision_db) : decision_db :=
  match op with
  | OSnapshot now w src at_ sha events => (commit (apply_snapshot now w src at_ sha events) s).2
  | OPrepare now token w session d revision m => (commit (prepare_confirmation policy now token w session d revision m) s).2
  | OClaim now claim w session d revision m token => (commit (claim_answer policy now claim w session d revision m token) s).2
  | OFinish now w key claim result => (commit (finish_answer now w key claim result) s).2
  | OEnvironment f g h => s <| dd_objectives ::= f |> <| dd_chat ::= g |> <| dd_projects ::= h |>
  end.
Definition decision_after (ops : list decision_op) (s : decision_db) : decision_db := fold_left (λ s op, decision_run op s) ops s.
Definition empty_decisions (o : obj_db) (c : chat_db) : decision_db := Build_decision_db o c [] [] [] [] [] [].
Definition decision_reachable (s : decision_db) : Prop := ∃ o c ops, s = decision_after ops (empty_decisions o c).

(** ** What each transaction does *)

(** A result of [_answer_request] names its question. *)
Lemma answer_request_ok w d rev m s q : _answer_request w d rev m s = Ok q →
  ar_decision q = d ∧ ar_revision q = rev ∧ ar_message q = m ∧ ar_key q = answer_key w m ∧ ar_sha256 q = sha256_hex (ar_answer q) ∧
  ∃ x, native_message w m s = Some x ∧ ar_answer q = mg_content x ∧ ar_message_created q = mg_created x ∧ ar_conversation q = mg_conversation x ∧
    ar_sequence q = mg_sequence x.
Proof.
  unfold _answer_request, _validated_answer. intros Hq. tx_inv. simpl. repeat split. exists a0. by repeat split.
Qed.

(** What a new confirmation was checked against. *)
Record confirmable (now : Z) (w session d : string) (rev : Z) (m : string) (s : decision_db) (c : confirmation) (row : decision_row) : Prop := {
  cb_request : ∃ q, _answer_request w d rev m s = Ok q ∧ cf_key c = ar_key q ∧ cf_answer_sha256 c = ar_sha256 q ∧ de_created row ≤ ar_message_created q ∧
    ∀ x, x ∈ Chat.messages (dd_chat s) → newer_message w q x = false;
  cb_decision : fetchone (is_decision w d) (dd_decisions s) = Some row ∧ de_revision row = rev ∧ de_state row = d_pending;
  cb_safe : _RISK_PATTERN (de_title row +:+ " " +:+ de_question row) = false;
  cb_identity : cf_owner c = w ∧ cf_session c = session ∧ cf_decision c = d ∧ cf_revision c = rev ∧ cf_message c = m;
  cb_times : cf_created c = now ∧ cf_expires c ≤ now + CONFIRMATION_TTL_SECONDS * 1000 ∧ cf_used c = None;
}.
Lemma prepare_cases now token w session d rev m s r s' : prepare_confirmation policy now token w session d rev m s = Ok (r, s') →
  match r with
  | Outcome _ => s' = s
  | ConfirmationRequired t e row => t = token ∧ ∃ c, s' = s <| dd_confirmations ::= (λ l, l ++ [c]) |> ∧ confirmable now w session d rev m s c row ∧
      cf_hash c = sha256_hex token ∧ cf_expires c = e ∧ (∀ x, x ∈ dd_confirmations s → confirmation_clash c x = false)
  end.
Proof.
  unfold prepare_confirmation, insert_confirmation. intros (req & s1 & [Hq <-]%read_ok & Hp)%bind_ok.
  apply bind_ok in Hp as (q & s1 & [Hreq <-]%lift_ok & Hp). apply bind_ok in Hp as (ex & s1 & [_ <-]%read_ok & Hp).
  destruct ex as [x|]; [by tx_inv|]. unfold current_decision, require_pending, _require_current_native_message in Hp. tx_inv. split; [done|].
  match goal with X : insert_into _ _ _ _ _ = Ok _ |- _ => apply insert_into_ok in X as [Hf ->] end. eexists. split; [reflexivity|].
  bools. split; [|split; [done|split; [done|exact Hf]]]. split; simpl.
  - exists q. split; [done|]. split; [done|]. split; [done|]. split; [done|]. by apply exists_row_false.
  - by split_and!.
  - done.
  - by split_and!.
  - split; [done|]. split; [|done]. case_match; lia.
Qed.
Lemma prepare_ok now token w session d rev m s r s' : prepare_confirmation policy now token w session d rev m s = Ok (r, s') → prepared_of s s'.
Proof.
  intros Hp%prepare_cases. destruct r as [o|t e row]; [subst; split; [by destruct s|by left]|].
  destruct Hp as (_ & c & -> & Hc & _ & _ & Hf). split; [by destruct s|]. right. exists c. split; [done|]. split; [apply Hc|done].
Qed.

(** A claim that is taken over. *)
Definition reclaim (now : Z) (claim_id owner key : string) (s : decision_db) : decision_db :=
  s <| dd_answers ::= update (λ x, is_answer owner key x && (an_status x == a_pending) && (an_lease x <=? now))
        (λ x, x <| an_claim := claim_id |> <| an_lease := now + ANSWER_EXECUTION_LEASE_MS |> <| an_updated := now |>) |>.
Inductive claim_case (now : Z) (claim_id w session d : string) (rev : Z) (m token : string) (q : answer_request) (s : decision_db) :
    answer_claim → decision_db → Prop :=
| Told c r : fetchone (is_answer w (ar_key q)) (dd_answers s) = Some r → ac_claimed c = false → claim_case now claim_id w session d rev m token q s c s
| Resumed c r row : fetchone (is_answer w (ar_key q)) (dd_answers s) = Some r → an_decision r = d → an_revision r = rev →
    an_status r = a_pending → an_lease r ≤ now → fetchone (is_decision w d) (dd_decisions s) = Some row → de_revision row = rev → pd_row (ac_decision c) = row →
    ac_claimed c = (count (λ x, is_answer w (ar_key q) x && (an_status x == a_pending) && (an_lease x <=? now)) (dd_answers s) =? 1) →
    ac_resumed c = ac_claimed c → ac_claim c = claim_id → ac_request c = q → claim_case now claim_id w session d rev m token q s c (reclaim now claim_id w (ar_key q) s)
| Granted c cf row a : fetchone (is_answer w (ar_key q)) (dd_answers s) = None → grantable s a cf row → cf_hash cf = sha256_hex token →
    de_owner row = w → de_id row = d → de_revision row = rev → pd_row (ac_decision c) = row →
    (∀ x, x ∈ Chat.messages (dd_chat s) → newer_message w q x = false) →
    a = Build_answer_row (answer_row_id w (ar_key q)) w d rev m (ar_key q) session (ar_sha256 q) (ar_bytes q)
          a_pending None claim_id (now + ANSWER_EXECUTION_LEASE_MS) now now →
    ac_claimed c = true → ac_resumed c = false → ac_claim c = claim_id → ac_request c = q →
    claim_case now claim_id w session d rev m token q s c (grants s a cf row).

Lemma private_row r p : _private_decision r = Ok p → pd_row p = r.
Proof. unfold _private_decision. intros Hp. destruct (de_request r ≫= nonempty); tx_inv; done. Qed.

Lemma resume_cases now claim_id w session d rev m token q r s c s' : fetchone (is_answer w (ar_key q)) (dd_answers s) = Some r →
  an_decision r = d → an_revision r = rev →
  resume_answer policy now claim_id w d rev q r s = Ok (c, s') → claim_case now claim_id w session d rev m token q s c s'.
Proof.
  intros Hr Hrd Hrr Hc. unfold resume_answer in Hc. apply bind_ok in Hc as (resumed & s1 & Hres & Hc).
  apply bind_ok in Hc as (row & s2 & [_ <-]%read_ok & Hc). apply bind_ok in Hc as (a & s2 & [_ <-]%lift_ok & Hc).
  apply bind_ok in Hc as (found & s2 & [Hfound <-]%read_ok & Hc). apply bind_ok in Hc as (x & s2 & [Hx%of_option_ok <-]%lift_ok & Hc).
  apply bind_ok in Hc as (priv & s2 & [Hpriv%private_row <-]%lift_ok & [<- <-]%ret_ok). subst found.
  destruct (_ && _) eqn:E in Hres; [|apply ret_ok in Hres as [<- <-]; by eapply Told].
  apply bind_ok in Hres as (cur & s2 & [Hcur <-]%read_ok & Hres). apply bind_ok in Hres as ([] & s2 & [Hrev <-]%require_ok & Hres).
  apply bind_ok in Hres as (b & s2 & [_ <-]%read_ok & Hres). apply bind_ok in Hres as (bd & s2 & [_ <-]%lift_ok & Hres).
  apply bind_ok in Hres as (n & s2 & [Hn <-]%read_ok & Hres). apply bind_ok in Hres as ([] & s2 & ->%modify_ok & [<- <-]%ret_ok).
  destruct cur as [y|]; [|done]. bools. change (fetchone (is_decision w d) (dd_decisions s) = Some x) in Hx.
  assert (y = x) as -> by congruence. apply (Resumed now claim_id w session d rev m token q s _ r x); try done. by rewrite <- Hn.
Qed.

Lemma new_cases now claim_id w session d rev m token q s c s' : _answer_request w d rev m s = Ok q →
  fetchone (is_answer w (ar_key q)) (dd_answers s) = None →
  new_answer policy now claim_id w session d rev m token q s = Ok (c, s') → claim_case now claim_id w session d rev m token q s c s'.
Proof.
  intros Hq Hnone Hc. unfold new_answer, current_decision, require_pending, _require_current_native_message, insert_answer in Hc.
  apply bind_ok in Hc as (cur & s1 & [Hcur <-]%read_ok & Hc). apply bind_ok in Hc as ([] & s1 & [Hl <-]%lift_ok & Hc).
  apply bind_ok in Hc as (f & s1 & [Hf <-]%read_ok & Hc). apply bind_ok in Hc as (row & s1 & [Hrow <-]%lift_ok & Hc).
  apply bind_ok in Hc as ([] & s1 & [Hpend <-]%lift_ok & Hc). apply bind_ok in Hc as (b & s1 & [_ <-]%read_ok & Hc).
  apply bind_ok in Hc as (bd & s1 & [_ <-]%lift_ok & Hc). do 2 apply bind_ok in Hc as ([] & ? & [_ <-]%require_ok & Hc).
  apply bind_ok in Hc as (stored & s1 & [Hst <-]%read_ok & Hc). apply bind_ok in Hc as ([] & s1 & [Hconf <-]%require_ok & Hc).
  apply bind_ok in Hc as (comp & s1 & [Hcomp <-]%read_ok & Hc). apply bind_ok in Hc as ([] & s1 & [Hfree <-]%require_ok & Hc).
  apply bind_ok in Hc as ([] & s1 & ->%modify_ok & Hc). apply bind_ok in Hc as ([] & s2 & [Hclash ->]%insert_into_ok & Hc).
  apply bind_ok in Hc as ([] & s3 & ->%modify_ok & Hc). apply bind_ok in Hc as (priv & s4 & [Hpriv%private_row <-]%lift_ok & [<- <-]%ret_ok).
  destruct stored as [cf|]; [|done]. apply fetchone_some in Hst as [Hin Hhash]. destruct comp as [?|]; [done|].
  pose proof (fetchone_none_forall _ _ Hcomp) as Hcf. rewrite Forall_forall in Hcf. subst cur f.
  apply ensure_ok, negb_true_iff in Hl. apply res_bind_ok in Hrow as (row' & Hrow%of_option_ok & Hrev). apply res_bind_ok in Hrev as ([] & Hrev%ensure_ok & [= ->]).
  apply res_bind_ok in Hpend as ([] & _ & Hpend%ensure_ok). pose proof (fetch_decision _ _ _ _ Hrow) as (Hd & Ho & Hi). unfold confirms in Hconf. bools.
  match goal with |- claim_case _ _ _ _ _ _ _ _ _ _ _ ?S => assert (S = grants s (Build_answer_row (answer_row_id w (ar_key q)) w d rev m (ar_key q)
     session (ar_sha256 q) (ar_bytes q) a_pending None claim_id (now + ANSWER_EXECUTION_LEASE_MS) now now) cf row) as -> end.
  { unfold grants. simpl. rewrite Hhash, Ho, Hi. by subst rev. }
  assert (∀ x, x ∈ Chat.messages (dd_chat s) → newer_message w q x = false) as Hnew by (by apply exists_row_false).
  eapply Granted; try done.
  destruct (answer_request_ok _ _ _ _ _ _ Hq) as (_ & _ & _ & _ & Hsha & _).
  split; try done. intros x Hx. rewrite Ho, Hi. subst rev. by apply Hcf.
Qed.

Lemma claim_cases now claim_id w session d rev m token s c s' : claim_answer policy now claim_id w session d rev m token s = Ok (c, s') →
  ∃ q, _answer_request w d rev m s = Ok q ∧ claim_case now claim_id w session d rev m token q s c s'.
Proof.
  unfold claim_answer. intros (req & s1 & [Hq <-]%read_ok & Hc)%bind_ok. apply bind_ok in Hc as (q & s1 & [Hreq <-]%lift_ok & Hc).
  apply bind_ok in Hc as (ex & s1 & [Hex <-]%read_ok & Hc). subst req. exists q. split; [done|]. destruct ex as [r|].
  - apply bind_ok in Hc as ([] & s1 & [Hm <-]%require_ok & Hc). unfold _matching_outcome in Hm. bools.
    destruct (answer_request_ok _ _ _ _ _ _ Hreq) as (Hd & Hrev & _). eapply resume_cases; [exact Hex|congruence..|exact Hc].
  - by eapply new_cases.
Qed.

(** The statements of [finish_answer]. *)
Inductive finish_case (now : Z) (w key claim_id : string) (result : command_result) (s : decision_db) : public_outcome → decision_db → Prop :=
| Closed r o : fetchone (is_answer w key) (dd_answers s) = Some r → an_status r ≠ a_pending ∨ an_claim r ≠ claim_id →
    o = _public_outcome r true → finish_case now w key claim_id result s o s
| Closes r ob o : fetchone (is_answer w key) (dd_answers s) = Some r → an_status r = a_pending → an_claim r = claim_id →
    po_status o = (if cr_ok result then a_succeeded else a_failed) → po_decision o = an_decision r → po_revision o = an_revision r →
    finish_case now w key claim_id result s o (closes now result r ob s).

Lemma fetch_answer_row w key t r : fetchone (is_answer w key) t = Some r → r ∈ t ∧ an_owner r = w ∧ an_key r = key.
Proof. unfold is_answer. intros [? Hr]%fetchone_some. by bools. Qed.

Lemma fetch_one_answer w key t r : NoDup (map akey t) → r ∈ t → an_owner r = w → an_key r = key → fetchone (is_answer w key) t = Some r.
Proof.
  intros Hn Hr Ho Hk. apply fetchone_only; [done|unfold is_answer; by rewrite Ho, Hk, !eqb_refl|].
  intros x Hx E. unfold is_answer in E. bools. apply (NoDup_key_inj akey _ x r Hn); [done..|]. unfold akey. congruence.
Qed.

Lemma finish_cases now w key claim_id result s o s' : consistent s → finish_answer now w key claim_id result s = Ok (o, s') →
  finish_case now w key claim_id result s o s'.
Proof.
  intros Hs Hf. unfold finish_answer in Hf. apply bind_ok in Hf as (row & s1 & [Hr <-]%read_ok & Hf).
  apply bind_ok in Hf as (r & s1 & [E%of_option_ok <-]%lift_ok & Hf). subst row. pose proof (fetch_answer_row _ _ _ _ E) as (Hr & Ho & Hk).
  destruct (_ || _) eqn:Eg in Hf.
  { apply ret_ok in Hf as [<- <-]. apply (Closed _ _ _ _ _ _ r); [done| |done]. apply orb_true_iff in Eg as [Eg|Eg]; bools; auto. }
  apply orb_false_iff in Eg as [Hp Hc]. bools. apply bind_ok in Hf as (n & s1 & [Hn <-]%read_ok & Hf). apply bind_ok in Hf as ([] & s1 & Hu%modify_ok & Hf).
  set (target := λ x, is_answer w key x && (an_status x == a_pending) && (an_claim x == claim_id)) in *.
  assert (n = 1) as ->.
  { rewrite <- Hn. apply (count_only akey _ _ r (ct_keys _ Hs)); [done|unfold target, is_answer; by rewrite Ho, Hk, Hp, Hc, !eqb_refl|].
    intros x Hx Ex. unfold target, is_answer in Ex. bools. apply (NoDup_key_inj akey _ x r (ct_keys _ Hs)); [done..|]. unfold akey. congruence. }
  apply bind_ok in Hf as ([] & s2 & Hd%modify_ok & Hf). apply bind_ok in Hf as (b & s3 & [_ <-]%read_ok & Hf).
  apply bind_ok in Hf as ([] & s3 & Hper & Hf). apply bind_ok in Hf as (row & s4 & [Hrow <-]%read_ok & Hf).
  apply bind_ok in Hf as (a & s4 & [Ha%of_option_ok <-]%lift_ok & [<- <-]%ret_ok). subst row.
  assert (∃ ob, s3 = s2 <| dd_objectives := ob |>) as (ob & ->).
  { destruct b as [b|]; [|apply ret_ok in Hper as [_ <-]; exists (dd_objectives s2); by destruct s2].
    unfold in_objectives in Hper. destruct (persist_objective_state _ _ _ _) as [[? ob]|]; [|done]. exists ob. by injection Hper. }
  subst s2 s1. match goal with |- finish_case _ _ _ _ _ _ _ ?S => assert (S = closes now result r ob s) as -> end.
  { unfold closes, target. simpl. by rewrite Ho, Hk, Hc. }
  simpl in Ha. rewrite fetchone_update in Ha by done. rewrite E in Ha. simpl in Ha.
  assert (target r = true) as Ht by (unfold target, is_answer; by rewrite Ho, Hk, Hp, Hc, !eqb_refl). rewrite Ht in Ha. injection Ha as <-.
  by apply (Closes _ _ _ _ _ _ r).
Qed.
(** ** Runs *)

Lemma claim_consistent now claim_id w session d rev m token s c s' : consistent s →
  claim_answer policy now claim_id w session d rev m token s = Ok (c, s') → consistent s'.
Proof.
  intros Hs (q & _ & Hc)%claim_cases. destruct Hc; [done|..|by apply grants_consistent]. by apply reclaim_consistent.
Qed.
Lemma finish_consistent now w key claim_id result s o s' : consistent s → finish_answer now w key claim_id result s = Ok (o, s') → consistent s'.
Proof.
  intros Hs Hf. destruct (finish_cases _ _ _ _ _ _ _ _ Hs Hf) as [|r ob o E Hp _]; [done|]. apply fetch_answer_row in E as (Hr & _ & _).
  by apply closes_consistent.
Qed.
Lemma environment_consistent f g h s : consistent s → consistent (s <| dd_objectives ::= f |> <| dd_chat ::= g |> <| dd_projects ::= h |>).
Proof. intros [? ? ? ? ? ? ?]. by split. Qed.

Lemma op_consistent op s : consistent s → consistent (decision_run op s).
Proof.
  intros Hs. destruct op as [now w src at_ sha events|now token w session d rev m|now c w session d rev m token|now w key c r|f g h]; cbn [decision_run].
  - destruct (commit_cases (apply_snapshot now w src at_ sha events) s) as [(a & s' & E & ->)|(e & _ & ->)]; [|done].
    eapply snapshot_consistent; [|done]. eapply apply_snapshot_snaps; [apply Hs|exact E].
  - destruct (commit_cases (prepare_confirmation policy now token w session d rev m) s) as [(a & s' & E & ->)|(e & _ & ->)]; [|done].
    eapply prepared_consistent; [by eapply prepare_ok|done].
  - destruct (commit_cases (claim_answer policy now c w session d rev m token) s) as [(a & s' & E & ->)|(e & _ & ->)]; [|done]. by eapply claim_consistent.
  - destruct (commit_cases (finish_answer now w key c r) s) as [(a & s' & E & ->)|(e & _ & ->)]; [|done]. by eapply finish_consistent.
  - by apply environment_consistent.
Qed.

Lemma decision_ind (P : decision_db → Prop) : (∀ o c, P (empty_decisions o c)) → (∀ op s, P s → P (decision_run op s)) →
  ∀ s, decision_reachable s → P s.
Proof.
  intros Hi Hs s (o & c & ops & ->). unfold decision_after. rewrite <- fold_left_rev_right.
  induction (rev ops) as [|op l IH]; simpl; auto.
Qed.
Lemma reachable_consistent s : decision_reachable s → consistent s.
Proof.
  revert s. apply decision_ind; [|apply op_consistent]. intros o c.
  split; simpl; try (by constructor); intros; exfalso; by eapply not_elem_of_nil.
Qed.
Lemma after_ind (P Q : decision_db → Prop) ops s : (∀ op s, op ∈ ops → Q s → P s → P (decision_run op s)) →
  (∀ op s, Q s → Q (decision_run op s)) → Q s → P s → P (decision_after ops s).
Proof.
  revert s. induction ops as [|op l IH]; intros s Hp Hq Qs Ps; simpl; [done|]. apply IH; [|done|auto|apply Hp; [left|done..]].
  intros op' s' Hin. apply Hp. by right.
Qed.

(** Decisions and answers move along their life. *)
Record progress (s s' : decision_db) : Prop := {
  pg_decisions : follow advance (dd_decisions s) (dd_decisions s');
  pg_answers : follow answer_step (dd_answers s) (dd_answers s');
  pg_confirmations : follow confirmation_step (dd_confirmations s) (dd_confirmations s');
}.
#[local] Instance progress_preorder : PreOrder progress.
Proof. split; [intros s; by split|]. intros a b c [] []. split; by etrans. Qed.

Lemma grants_progress s a cf d : grantable s a cf d → progress s (grants s a cf d).
Proof.
  intros [Hd Hp _ _ _ _ _ _]. split; simpl; [|by apply (follow_app _)|]; apply (follow_update _); intros x _ Hx; bools; split; try done.
  - intros _. simpl. match goal with X : de_state x = d_pending |- _ => by rewrite X end.
  - intros [? ?]. congruence.
Qed.
Lemma reclaim_progress now c w key s : progress s (reclaim now c w key s).
Proof. split; simpl; [done| |done]. apply (follow_update _). intros x _ Hx. bools. by split. Qed.
Lemma closes_progress now result r o s : progress s (closes now result r o s).
Proof.
  split; simpl; [| |done]; apply (follow_update _); intros x _ Hx; bools.
  - unfold after_answer. destruct (cr_ok result); [|destruct (_ == _)]; split; try done; simpl; try lia; intros _;
      match goal with X : de_state x = d_answering |- _ => by rewrite X end.
  - by split.
Qed.

Lemma op_progress op s : consistent s → progress s (decision_run op s).
Proof.
  intros Hs. destruct op as [now w src at_ sha events|now token w session d rev m|now c w session d rev m token|now w key c r|f g h]; cbn [decision_run].
  - destruct (commit_cases (apply_snapshot now w src at_ sha events) s) as [(a & s' & E & ->)|(e & _ & ->)]; [|done].
    destruct (apply_snapshot_snaps _ _ _ _ _ _ _ _ _ (ct_ids _ Hs) E) as [[_ Hf _] Ha Hc].
    split; [by eapply follow_mono; [apply seen_advance|]|simpl; by rewrite Ha|simpl; by rewrite Hc].
  - destruct (commit_cases (prepare_confirmation policy now token w session d rev m) s) as [(a & s' & E%prepare_ok & ->)|(e & _ & ->)]; [|done].
    destruct E as [Er Hnew]. assert (dd_decisions s' = dd_decisions s) as Ed by (by rewrite <- Er).
    assert (dd_answers s' = dd_answers s) as Ea by (by rewrite <- Er). split; cbn [snd]; rewrite ?Ed, ?Ea; [done..|].
    destruct Hnew as [-> |(c & -> & _)]; [done|by apply (follow_app _)].
  - destruct (commit_cases (claim_answer policy now c w session d rev m token) s) as [(a & s' & E & ->)|(e & _ & ->)]; [|done].
    apply claim_cases in E as (q & _ & Hc). destruct Hc; [done|apply reclaim_progress|by apply grants_progress].
  - destruct (commit_cases (finish_answer now w key c r) s) as [(a & s' & E & ->)|(e & _ & ->)]; [|done].
    destruct (finish_cases _ _ _ _ _ _ _ _ Hs E) as [|]; [done|apply closes_progress].
  - by split.
Qed.
Lemma after_progress ops s : consistent s → consistent (decision_after ops s) ∧ progress s (decision_after ops s).
Proof.
  intros Hs. split.
  - apply (after_ind consistent (λ _, True)); [|done..]. intros op x _ _. apply op_consistent.
  - apply (after_ind (progress s) consistent); [|apply op_consistent|done..]. intros op x _ Hx Hp. etrans; [exact Hp|by apply op_progress].
Qed.
(** ** Claims *)

Lemma bound_unique s a d : consistent s → a ∈ dd_answers s → d ∈ dd_decisions s → an_decision a = de_id d → bound_to a d.
Proof.
  intros Hs Ha Hd E. destruct (ct_bound _ Hs a Ha) as (x & Hx & B). assert (x = d) as <-; [|done].
  apply (decision_unique _ x d (ct_ids _ Hs)); [done..|]. by rewrite (bd_id _ _ B).
Qed.

(** C6. In every reachable state a decision is being answered exactly when a
    pending answer to its current revision exists, and answered exactly when
    that answer succeeded; no revision has two answers that are pending or
    succeeded. *)
Theorem decision_consistent s d : decision_reachable s → d ∈ dd_decisions s →
  (de_state d = d_answering ↔ ∃ a, a ∈ dd_answers s ∧ answer_of d a_pending a) ∧
  (de_state d = d_answered ↔ ∃ a, a ∈ dd_answers s ∧ answer_of d a_succeeded a) ∧
  ∀ revision a b, a ∈ dd_answers s → b ∈ dd_answers s → is_live a = true → is_live b = true →
    answers_revision (de_owner d) (de_id d) revision a = true → answers_revision (de_owner d) (de_id d) revision b = true → a = b.
Proof.
  intros Hs%reachable_consistent Hd. destruct (ct_state _ Hs d Hd) as [S1 S2]. split_and!.
  - split; [exact S1|]. intros (a & Ha & (A1 & A2 & A3 & A4)). by apply (bd_pending a d (bound_unique s a d Hs Ha Hd A2)).
  - split; [exact S2|]. intros (a & Ha & (A1 & A2 & A3 & A4)). by apply (bd_succeeded a d (bound_unique s a d Hs Ha Hd A2)).
  - intros rev a b Ha Hb La Lb Ea Eb. unfold answers_revision in Ea, Eb. bools. apply (ct_live _ Hs); [done..|].
    unfold answers_revision. rewrite !andb_true_iff, !bool_decide_eq_true, Z.eqb_eq. split_and!; congruence.
Qed.

(** A revision pins the question: as long as a decision keeps its revision
    it keeps title, question and project, and passes only from pending to
    answering and back, or on to answered; revisions never decrease. *)
Theorem revision_pinned s ops d d' : decision_reachable s → d ∈ dd_decisions s → d' ∈ dd_decisions (decision_after ops s) → de_id d' = de_id d →
  identity d' = identity d ∧ de_revision d ≤ de_revision d' ∧
  (de_revision d' = de_revision d → shown d' = shown d ∧ reaches (de_state d) (de_state d') = true).
Proof.
  intros Hs%reachable_consistent Hd Hd' E. destruct (after_progress ops s Hs) as [Hs' [Hf _ _]]. destruct (Hf d Hd) as (x & Hx & [I R S T]).
  assert (x = d') as <-; [|by auto]. apply (decision_unique _ x d' (ct_ids _ Hs')); [done..|]. injection I. congruence.
Qed.

(** A closed answer is final, and only the current claim can close one: a
    finisher whose claim was taken over is told the stored outcome and changes
    nothing. *)
Theorem finish_fenced s ops now a claim_id result : decision_reachable s → a ∈ dd_answers s →
  (an_status a ≠ a_pending → a ∈ dd_answers (decision_after ops s)) ∧
  (an_status a ≠ a_pending ∨ an_claim a ≠ claim_id →
    finish_answer now (an_owner a) (an_key a) claim_id result s = Ok (_public_outcome a true, s)).
Proof.
  intros Hs%reachable_consistent Ha. split.
  - intros Hst. destruct (after_progress ops s Hs) as [_ [_ Hf _]]. destruct (Hf a Ha) as (b & Hb & [_ Hfin]). by rewrite <- (Hfin Hst).
  - intros Hor. unfold finish_answer. erewrite bind_run by (unfold read; reflexivity). rewrite (fetch_one_answer _ _ _ a (ct_keys _ Hs)) by done.
    erewrite bind_run by reflexivity. assert ((an_status a != a_pending) || (an_claim a != claim_id) = true) as ->; [|done].
    apply orb_true_iff. destruct Hor; [left|right]; apply negb_true_iff; by apply eqb_neq.
Qed.

(** *** Exclusive execution *)

Definition holds (a : answer_row) (s : decision_db) : Prop := a ∈ dd_answers s.
(** The clock has not reached the lease, and the holder has not finished. *)
Definition before_lease (a : answer_row) (op : decision_op) : Prop :=
  match op with
  | OClaim now _ _ _ _ _ _ _ => now < an_lease a
  | OFinish _ w key claim_id _ => ¬ (w = an_owner a ∧ key = an_key a ∧ claim_id = an_claim a)
  | _ => True
  end.
Lemma op_holds op a s : consistent s → an_status a = a_pending → before_lease a op → holds a s → holds a (decision_run op s).
Proof.
  intros Hs Hp Hb Ha. unfold holds in *.
  destruct op as [now w src at_ sha events|now token w session d rev m|now c w session d rev m token|now w key c r|f g h]; cbn [decision_run before_lease] in *.
  - destruct (commit_cases (apply_snapshot now w src at_ sha events) s) as [(x & s' & E & ->)|(e & _ & ->)]; [|done].
    simpl. by rewrite (so_answers _ _ (apply_snapshot_snaps _ _ _ _ _ _ _ _ _ (ct_ids _ Hs) E)).
  - destruct (commit_cases (prepare_confirmation policy now token w session d rev m) s) as [(x & s' & [Er _]%prepare_ok & ->)|(e & _ & ->)]; [|done].
    rewrite <- Er in Ha. done.
  - destruct (commit_cases (claim_answer policy now c w session d rev m token) s) as [(x & s' & (q & _ & Hc)%claim_cases & ->)|(e & _ & ->)]; [|done].
    destruct Hc; simpl; [done| |set_solver].
    pose proof (update_in (λ x, is_answer w (ar_key q) x && (an_status x == a_pending) && (an_lease x <=? now))
      (λ x, x <| an_claim := c |> <| an_lease := now + ANSWER_EXECUTION_LEASE_MS |> <| an_updated := now |>) _ a Ha) as U.
    cbv beta in U. assert ((an_lease a <=? now) = false) as El by lia. by rewrite El, andb_false_r in U.
  - destruct (commit_cases (finish_answer now w key c r) s) as [(x & s' & E & ->)|(e & _ & ->)]; [|done].
    destruct (finish_cases _ _ _ _ _ _ _ _ Hs E) as [|r' ob o Hr' _ Hcl]; [done|]. apply fetch_answer_row in Hr' as (_ & Ho & Hk). simpl.
    match goal with |- _ ∈ update ?p ?f _ => pose proof (update_in p f _ a Ha) as U end. cbv beta in U.
    destruct (_ && _) eqn:Et in U; [|done]. exfalso. apply Hb. unfold is_answer in Et. bools. split_and!; congruence.
  - done.
Qed.

(** C14. Until the lease of an execution claim expires, or its holder reports a
    result, nobody else is given the same revision to execute, whichever
    message, session or token they bring. *)
Theorem answer_exclusive s ops a now claim_id session message token c s' : decision_reachable s → a ∈ dd_answers s → an_status a = a_pending →
  Forall (before_lease a) ops → now < an_lease a →
  claim_answer policy now claim_id (an_owner a) session (an_decision a) (an_revision a) message token (decision_after ops s) = Ok (c, s') →
  ac_claimed c = false.
Proof.
  intros Hs%reachable_consistent Ha Hp Hops Hnow Hc. destruct (after_progress ops s Hs) as [Hs' _].
  assert (holds a (decision_after ops s)) as Hin.
  { rewrite Forall_forall in Hops. apply (after_ind (holds a) consistent); [|apply op_consistent|done..].
    intros op x Hop Hx Hh. by apply op_holds; auto. }
  apply claim_cases in Hc as (q & _ & Hc). destruct Hc as [c r E ?|c r row E Hd Hr Hst Hl|c cf row x E [_ _ _ _ _ _ Hfree _] _ Ho Hi Hv]; [done|..]; exfalso.
  - apply fetch_answer_row in E as (Hrin & Ho & _). assert (r = a) as ->; [|lia]. apply (ct_live _ Hs'); [done..|unfold is_live; by rewrite Hst|unfold is_live; by rewrite Hp|].
    unfold answers_revision. by rewrite Ho, Hd, Hr, !eqb_refl, Z.eqb_refl.
  - specialize (Hfree a Hin). unfold answers_revision, is_live in Hfree.
    by rewrite Ho, Hi, Hv, !eqb_refl, Z.eqb_refl, Hp in Hfree.
Qed.
End Decisions.
