(* ===== verification/DecisionOutcomes.v ===== *)
(** * Confirmed answers, complete snapshots, separate owners

    [released_as_confirmed] follows one confirmation token to the command that
    releases held work; [snapshot_open] says which decisions are open after a
    snapshot; [decisions_isolated] that owners do not see each other. *)

From stdpp Require Import base option list strings numbers sets.
From Stdlib Require Import ZArith Lia.
From S2P Require Import Prelude Sql Feed Json Text Chat BillingCatalog BillingLedger Activity Deployment Objectives Decisions DecisionInvariant DecisionTheorems.

Open Scope string_scope.
Open Scope list_scope.
Open Scope Z_scope.

Section Outcomes.
Context `{TextEngine, Codec} (policy : deployment_contract).
Local Abbreviation after := (decision_after policy).
Local Abbreviation reachable := (decision_reachable policy).

(** ** Confirmations *)

(** A claim that consumed the confirmation of its token. *)
Definition fresh_grant (c : answer_claim) : Prop := ac_claimed c = true ∧ ac_resumed c = false.

Lemma grant_of now claim_id w session d rev m token s c s' : claim_answer policy now claim_id w session d rev m token s = Ok (c, s') → fresh_grant c →
  ∃ q cf row, _answer_request w d rev m s = Ok q ∧ cf ∈ dd_confirmations s ∧ cf_hash cf = sha256_hex token ∧ cf_used cf = None ∧
    (cf_owner cf, cf_session cf, cf_decision cf, cf_revision cf, cf_message cf, cf_key cf, cf_answer_sha256 cf) = (w, session, d, rev, m, ar_key q, ar_sha256 q) ∧
    now < cf_expires cf ∧ row ∈ dd_decisions s ∧ de_owner row = w ∧ de_id row = d ∧ de_revision row = rev ∧ pd_row (ac_decision c) = row ∧ ac_request c = q ∧
    (∀ x, x ∈ Chat.messages (dd_chat s) → newer_message w q x = false) ∧
    (∃ cf', cf' ∈ dd_confirmations s' ∧ cf_hash cf' = sha256_hex token ∧ is_Some (cf_used cf')).
Proof.
  intros (q & Hq & Hc)%claim_cases [Hcl Hres]. destruct Hc as [c r E Hf|c r row E Hd Hr Hst Hl Hf Hrv Hpd Hcc Hrc|c cf row a E Hg Hh Ho Hi Hv Hpd Hnew Ea _ _ _ Hrq].
  1,2: congruence.
  destruct Hg as [Hd Hp _ Hc [P1 P2 P3 P4 P5 P6 P7 P8 P9] Hun _ _]. subst a. simpl in *. exists q, cf, row. split_and!; try done; [congruence|].
  exists (cf <| cf_used := Some now |>). split; [|by split; [|eexists]].
  match goal with |- _ ∈ update ?p ?f _ => pose proof (update_in p f _ cf Hc) as U end. cbv beta in U. by rewrite eqb_refl, Hun in U.
Qed.

Lemma confirmation_later cf s ops : consistent s → cf ∈ dd_confirmations s →
  consistent (after ops s) ∧ ∃ cf', cf' ∈ dd_confirmations (after ops s) ∧ confirmation_step cf cf'.
Proof. intros Hs Hc. destruct (after_progress policy ops s Hs) as [Hs' [_ _ Hf]]. split; [done|]. by apply Hf. Qed.
Lemma confirmation_unique s x y : consistent s → x ∈ dd_confirmations s → y ∈ dd_confirmations s → cf_hash x = cf_hash y → x = y.
Proof. intros Hs. apply NoDup_key_inj, Hs. Qed.
Lemma step_hash c c' : confirmation_step c c' →
  (cf_hash c', cf_owner c', cf_session c', cf_decision c', cf_revision c', cf_message c', cf_key c', cf_answer_sha256 c', cf_expires c') =
  (cf_hash c, cf_owner c, cf_session c, cf_decision c, cf_revision c, cf_message c, cf_key c, cf_answer_sha256 c, cf_expires c).
Proof. intros [E _]. destruct c, c'. by injection E as -> -> -> -> -> -> -> -> -> ->. Qed.

(** A used confirmation buys nothing more. *)
Lemma used_token cf token s ops now claim_id w session d rev m c s' : consistent s → cf ∈ dd_confirmations s → cf_hash cf = sha256_hex token →
  is_Some (cf_used cf) → claim_answer policy now claim_id w session d rev m token (after ops s) = Ok (c, s') → ¬ fresh_grant c.
Proof.
  intros Hs Hc Hh Hu Hcl Hg. destruct (confirmation_later cf s ops Hs Hc) as [Hs' (cf' & Hin & [_ Hfin])].
  destruct (grant_of _ _ _ _ _ _ _ _ _ _ _ Hcl Hg) as (q & x & row & _ & Hx & Hxh & Hxu & _).
  assert (cf' = x) as -> by (apply (confirmation_unique _ _ _ Hs'); [done..|]; rewrite (Hfin Hu); congruence).
  rewrite (Hfin Hu) in Hxu. rewrite Hxu in Hu. by destruct Hu.
Qed.

(** C5. A confirmation token releases exactly what was confirmed, and once: a
    claim it pays for comes before it expires, from the same owner and
    session, for the same message with the same answer bytes, and for the
    decision with the title, question and project the confirmation showed;
    no later claim is paid by the same token. *)
Theorem released_as_confirmed s now token w session d rev m e row s1 ops now' claim_id w' session' d' rev' m' c s2 :
  reachable s → prepare_confirmation policy now token w session d rev m s = Ok (ConfirmationRequired token e row, s1) →
  claim_answer policy now' claim_id w' session' d' rev' m' token (after ops s1) = Ok (c, s2) → fresh_grant c →
  (w', session', d', rev', m') = (w, session, d, rev, m) ∧ now' < e ∧
  identity (pd_row (ac_decision c)) = identity row ∧ de_revision (pd_row (ac_decision c)) = rev ∧ shown (pd_row (ac_decision c)) = shown row ∧
  (∃ q, _answer_request w d rev m s = Ok q ∧ sha256_hex (ar_answer (ac_request c)) = sha256_hex (ar_answer q)) ∧
  ∀ ops' now3 claim3 w3 session3 d3 rev3 m3 c3 s3,
    claim_answer policy now3 claim3 w3 session3 d3 rev3 m3 token (after ops' s2) = Ok (c3, s3) → ¬ fresh_grant c3.
Proof.
  intros Hr%reachable_consistent Hp Hcl Hg. pose proof (prepare_ok _ _ _ _ _ _ _ _ _ _ _ Hp) as Hpo.
  apply prepare_cases in Hp as (_ & cf & Es & [Hq Hdec _ Hid _] & Hh & He & _). pose proof (prepared_consistent _ _ Hpo Hr) as Hs1.
  destruct Hid as (I1 & I2 & I3 & I4 & I5). destruct Hq as (q0 & Hq0 & Hk0 & Hsha0 & _). destruct Hdec as (Hf & Hrev & _).
  assert (cf ∈ dd_confirmations s1) as Hcin by (rewrite Es; simpl; set_solver).
  destruct (confirmation_later cf s1 ops Hs1 Hcin) as [Hs' (cf' & Hin' & Hst)]. apply step_hash in Hst as Hst'.
  injection Hst' as T1 T2 T3 T4 T5 T6 T7 T8 T9.
  destruct (grant_of _ _ _ _ _ _ _ _ _ _ _ Hcl Hg) as (q & x & row' & Hq & Hx & Hxh & Hxu & Hfields & Hexp & Hrow & Ho & Hi & Hv & Hpd & Hrq & _ & cu & Hcu & Hcuh & Hcuu).
  assert (x = cf') as -> by (apply (confirmation_unique _ _ _ Hs'); [done..|congruence]).
  injection Hfields as F1 F2 F3 F4 F5 F6 F7. rewrite Hpd.
  assert (row ∈ dd_decisions s1 ∧ de_id row = d) as [Hrow1 Hid1] by (rewrite Es; simpl; apply fetch_decision in Hf; tauto).
  destruct (after_progress policy ops s1 Hs1) as [_ [Hfol _ _]]. destruct (Hfol row Hrow1) as (y & Hy & [A1 A2 A3 A4]).
  assert (y = row') as -> by (apply (decision_unique _ _ _ (ct_ids _ Hs')); [done..|injection A1; congruence]).
  destruct (answer_request_ok _ _ _ _ _ _ Hq0) as (_ & _ & _ & _ & S0 & _). destruct (answer_request_ok _ _ _ _ _ _ Hq) as (_ & _ & _ & _ & S1 & _).
  split_and!; [congruence|congruence|done|congruence|apply A3; congruence|exists q0; split; [done|congruence]|].
  intros ops' now3 claim3 w3 session3 d3 rev3 m3 c3 s3 H3. eapply used_token; [|exact Hcu|exact Hcuh|exact Hcuu|exact H3].
  by eapply claim_consistent.
Qed.

(** ** Complete snapshots *)

(** The id and state of every decision. *)
Definition state_view (d : decision_row) := (identity d, de_state d).
Definition view_id (v : string * string * string * string * string * Z * decision_state) : string * string :=
  match v with ((id, owner, _, _, _, _), _) => (id, owner) end.
(** What [resolve_missing] over the rows [l] does to a decision. *)
Definition gone (w : string) (ids : list string) (l : list decision_row) v : bool :=
  existsb (λ d, (view_id v == (de_id d, w)) && negb (listed (de_id d) ids)) l.
Definition settle (w : string) (ids : list string) (l : list decision_row) v := (v.1, if gone w ids l v then d_resolved else v.2).

Lemma insert_event_decisions now w src e type id payload digest at_ s a s' :
  _insert_event now w src e type id payload digest at_ s = Ok (a, s') → dd_decisions s' = dd_decisions s.
Proof.
  unfold _insert_event. intros (ex & s1 & [_ <-]%read_ok & Hx)%bind_ok. destruct ex; [by apply require_ok in Hx as [_ <-]|].
  by apply insert_into_ok in Hx as [_ ->].
Qed.
Lemma update_decisions_ok p f s (u : unit) s' : update_decisions p f s = Ok (u, s') → s' = s <| dd_decisions ::= update p f |>.
Proof. apply modify_ok. Qed.

Lemma resolve_decision_view now w src sha at_ ids d s u s' : listed (de_id d) ids = false → resolve_decision now w src sha at_ d s = Ok (u, s') →
  map state_view (dd_decisions s') = map (settle w ids [d]) (map state_view (dd_decisions s)).
Proof.
  intros Hl. unfold resolve_decision. intros (payload & s1 & [_ <-]%lift_ok & Hr)%bind_ok. cbv zeta in Hr.
  apply bind_ok in Hr as ([] & s1 & He%insert_event_decisions & Hr). apply update_decisions_ok in Hr as ->. simpl. rewrite He. unfold update.
  rewrite !map_map. apply map_ext. intros r. unfold settle, gone, is_decision. simpl. rewrite Hl, orb_false_r, andb_true_r.
  destruct ((de_id r, de_owner r) == (de_id d, w)) eqn:E.
  - apply eqb_true in E. injection E as -> ->. by rewrite !eqb_refl.
  - destruct (de_owner r == w) eqn:E1; [|done]. destruct (de_id r == de_id d) eqn:E2; [|done]. apply eqb_false in E. bools. congruence.
Qed.
Lemma settle_settle w ids d l v : listed (de_id d) ids = false → settle w ids l (settle w ids [d] v) = settle w ids (d :: l) v.
Proof.
  intros Hl. unfold settle, gone. destruct v as [[[[[[id o] ?] ?] ?] ?] st]. simpl. rewrite Hl, orb_false_r, andb_true_r. by destruct (existsb _ l), (_ == _).
Qed.
Lemma resolve_missing_view now w src sha at_ ids l s u s' : resolve_missing now w src sha at_ ids l s = Ok (u, s') →
  map state_view (dd_decisions s') = map (settle w ids l) (map state_view (dd_decisions s)).
Proof.
  revert s. induction l as [|d l IH]; simpl; intros s Hr.
  - apply ret_ok in Hr as [_ <-]. symmetry. rewrite map_map. apply map_ext. by intros [].
  - apply bind_ok in Hr as ([] & s1 & Hd & Hr%IH). destruct (listed (de_id d) ids) eqn:El.
    + apply ret_ok in Hd as [_ <-]. rewrite Hr. apply map_ext. intros v. unfold settle, gone. simpl. by rewrite El, andb_false_r.
    + rewrite Hr, (resolve_decision_view _ _ _ _ _ ids _ _ _ _ El Hd), map_map. apply map_ext. intros v. by apply settle_settle.
Qed.

(** The decision [id] of the source is there and not resolved. *)
Definition opened (w src id : string) (s : decision_db) : Prop := ∃ d, d ∈ dd_decisions s ∧ de_id d = id ∧ unresolved w src d = true.
Definition stays (d d' : decision_row) : Prop := identity d' = identity d ∧ (de_state d ≠ d_resolved → de_state d' ≠ d_resolved).
#[local] Instance stays_preorder : PreOrder stays.
Proof. split; [by split|]. intros a b c [I1 S1] [I2 S2]. split; [congruence|auto]. Qed.
Lemma opened_stays w src id s s' : follow stays (dd_decisions s) (dd_decisions s') → opened w src id s → opened w src id s'.
Proof.
  intros Hf (d & Hd & <- & Hu). destruct (Hf d Hd) as (d' & Hd' & Hi & Hst). injection Hi as I1 I2 I3 _ _ _. exists d'. split_and!; [done..|].
  unfold unresolved in *. rewrite I2, I3. bools. subst. rewrite !eqb_refl. apply negb_true_iff, eqb_neq. auto.
Qed.

Lemma observe_state now e digest at_ id w d s u s' : ids_ok (dd_decisions s) → d ∈ dd_decisions s → is_decision w id d = true →
  observe_decision now e digest at_ id w d s = Ok (u, s') → follow stays (dd_decisions s) (dd_decisions s') ∧ ∃ d', d' ∈ dd_decisions s' ∧
    identity d' = identity d ∧ de_state d' ≠ d_resolved.
Proof.
  intros Hs Hd Hp. assert (∀ x, x ∈ dd_decisions s → is_decision w id x = true → x = d) as Honly.
  { intros x Hx [_ Ex]%is_decision_spec. apply is_decision_spec in Hp as [_ Ed]. apply (decision_unique _ x d Hs); congruence. }
  assert (∀ f, identity (f d) = identity d → de_state (f d) ≠ d_resolved → ∀ s', s' = s <| dd_decisions ::= update (is_decision w id) f |> →
    follow stays (dd_decisions s) (dd_decisions s') ∧ ∃ d', d' ∈ dd_decisions s' ∧ identity d' = identity d ∧ de_state d' ≠ d_resolved) as Hu.
  { intros f Hi Hst s1 ->. simpl. split; [apply follow_update; [apply _|]; intros x Hx Hpx; rewrite (Honly x Hx Hpx); by split|].
    exists (f d). split; [|done]. pose proof (update_in (is_decision w id) f _ d Hd) as U. by rewrite Hp in U. }
  unfold observe_decision. destruct (de_state d == d_resolved) eqn:E1; [|destruct (_ && _) eqn:E2]; intros Ho%update_decisions_ok;
    eapply Hu; try exact Ho; simpl; try done; by apply eqb_false in E1.
Qed.

Lemma apply_event_opened now w src at_ e s id s' : ids_ok (dd_decisions s) → apply_event now w src at_ e s = Ok (id, s') →
  id = _decision_id w src (re_task e) (re_lifecycle e) ∧ follow stays (dd_decisions s) (dd_decisions s') ∧ opened w src id s'.
Proof.
  intros Hs. unfold apply_event. intros ([] & s1 & [_ <-]%require_ok & Hx)%bind_ok. apply bind_ok in Hx as (scope & s1 & [_ <-]%read_ok & Hx).
  apply bind_ok in Hx as ([] & s1 & [_ <-]%lift_ok & Hx). apply bind_ok in Hx as (payload & s1 & [_ <-]%lift_ok & Hx). cbv zeta in Hx.
  apply bind_ok in Hx as ([] & s1 & Hev%insert_event_decisions & Hx). apply bind_ok in Hx as (inc & s2 & [_ <-]%lift_ok & Hx).
  apply bind_ok in Hx as (ex & s2 & [Hex <-]%read_ok & Hx). rewrite <- Hev in Hs |- *. destruct ex as [d|].
  - apply fetchone_some in Hex as [Hd Hh%same_hold_spec]. destruct Hh as (H1 & H2 & _). apply bind_ok in Hx as ([] & s2 & [_ <-]%lift_ok & Hx).
    apply bind_ok in Hx as ([] & s2 & Hreq & Hx). apply bind_ok in Hx as ([] & s3 & [Hid%eqb_true <-]%require_ok & Hx).
    apply bind_ok in Hx as ([] & s3 & Hob & [<- <-]%ret_ok). split; [done|].
    set (f := λ r : decision_row, r <| de_request := inc |>).
    assert (follow stays (dd_decisions s1) (dd_decisions s2) ∧ ids_ok (dd_decisions s2) ∧ ∃ d2, d2 ∈ dd_decisions s2 ∧ identity d2 = identity d ∧
      is_decision w (_decision_id w src (re_task e) (re_lifecycle e)) d2 = true ∧ observe_decision now e (sha256_hex payload) at_
        (_decision_id w src (re_task e) (re_lifecycle e)) w d = observe_decision now e (sha256_hex payload) at_ (_decision_id w src (re_task e) (re_lifecycle e)) w d2)
      as (F1 & Hs2 & d2 & Hd2 & I2 & P2 & E2).
    { assert (is_decision w (_decision_id w src (re_task e) (re_lifecycle e)) d = true) as Hp by (unfold is_decision; by rewrite H1, Hid, !eqb_refl).
      destruct (_ || _) in Hreq; [apply update_decisions_ok in Hreq as ->|apply ret_ok in Hreq as [_ <-]; split; [done|split; [done|by exists d]]].
      simpl. split; [apply follow_update; [apply _|]; intros y _ _; by split|]. split; [unfold ids_ok; by rewrite map_update|].
      exists (f d). pose proof (update_in (is_decision w (_decision_id w src (re_task e) (re_lifecycle e))) f _ d Hd) as U. rewrite Hp in U. by split_and!. }
    rewrite E2 in Hob. destruct (observe_state _ _ _ _ _ _ _ _ _ _ Hs2 Hd2 P2 Hob) as (F2 & d' & Hd' & I' & N'). split; [by etrans|].
    exists d'. rewrite I2 in I'. injection I' as J1 J2 J3 _ _ _. split_and!; [done|congruence|]. unfold unresolved.
    rewrite J2, J3, H1, H2, !eqb_refl. by apply negb_true_iff, eqb_neq.
  - apply bind_ok in Hx as ([] & s2 & [_ ->]%insert_into_ok & [<- <-]%ret_ok). split; [done|]. simpl. split; [apply follow_app; apply _|].
    eexists. split; [apply elem_of_app; right; by apply list_elem_of_singleton|]. split; [done|]. unfold unresolved. simpl. by rewrite !eqb_refl.
Qed.

Lemma apply_events_opened now w src at_ l s ids s' : ids_ok (dd_decisions s) → apply_events now w src at_ l s = Ok (ids, s') →
  ids = map (λ e, _decision_id w src (re_task e) (re_lifecycle e)) l ∧ follow stays (dd_decisions s) (dd_decisions s') ∧ Forall (λ id, opened w src id s') ids.
Proof.
  revert s ids. induction l as [|e l IH]; simpl; intros s ids Hs Ha; [by apply ret_ok in Ha as [<- <-]|].
  apply bind_ok in Ha as (id & s1 & He & Ha). apply bind_ok in Ha as (ids' & s2 & Hl & [<- <-]%ret_ok).
  destruct (apply_event_opened _ _ _ _ _ _ _ _ Hs He) as (-> & F1 & O1). destruct (apply_event_snaps _ _ _ _ _ _ _ _ Hs He) as [[Hs1 _ _] _ _].
  destruct (IH _ _ Hs1 Hl) as (-> & F2 & O2). split; [done|]. split; [by etrans|]. constructor; [by eapply opened_stays|done].
Qed.

(** The listed decisions are the unresolved ones. *)
Lemma resolve_missing_opened now w src sha at_ ids s u s' : ids_ok (dd_decisions s) → Forall (λ id, opened w src id s) ids →
  resolve_missing now w src sha at_ ids (select (unresolved w src) (dd_decisions s)) s = Ok (u, s') → ∀ id, opened w src id s' ↔ id ∈ ids.
Proof.
  intros Hs Hids Hr%resolve_missing_view id. set (l := select (unresolved w src) (dd_decisions s)) in *.
  assert (∀ x, x ∈ dd_decisions s → de_owner x = w → de_id x ∈ ids → gone w ids l (state_view x) = false) as Hkept.
  { intros x Hx Hw Hin. unfold gone. apply exists_row_false. intros d _. destruct (_ == _) eqn:E; [|done]. apply eqb_true in E. injection E as <- _.
    apply negb_false_iff. by apply listed_spec. }
  assert (∀ v, v ∈ map state_view (dd_decisions s') ↔ ∃ x, x ∈ dd_decisions s ∧ v = settle w ids l (state_view x)) as Hmap.
  { intros v. rewrite Hr, map_map, list_elem_of_fmap. naive_solver. }
  split.
  - intros (d & Hd & <- & Hu). destruct (proj1 (Hmap (state_view d))) as (x & Hx & E); [by apply list_elem_of_fmap_2|].
    unfold settle in E. injection E as I1 I2 I3 I4 I5 I6 Est. unfold unresolved in Hu. bools. destruct (gone _ _ _ _) eqn:Eg; [done|].
    unfold gone in Eg. pose proof (proj1 (exists_row_false _ _) Eg x) as Hg. cbv beta in Hg. simpl in Hg.
    assert (x ∈ l) as Hxl. { apply elem_of_select. split; [done|]. unfold unresolved. rewrite <- I2, <- I3. bools. subst. rewrite !eqb_refl. apply negb_true_iff, eqb_neq. congruence. }
    specialize (Hg Hxl). replace (de_owner x) with w in Hg by congruence. rewrite eqb_refl in Hg. simpl in Hg. apply negb_false_iff, listed_spec in Hg. by rewrite I1.
  - intros Hin. rewrite Forall_forall in Hids. destruct (Hids id Hin) as (x & Hx & <- & Hu).
    assert (state_view x ∈ map state_view (dd_decisions s')) as (d & E & Hd)%list_elem_of_fmap.
    { apply Hmap. exists x. split; [done|]. unfold settle. rewrite Hkept; [done|done|unfold unresolved in Hu; by bools|done]. }
    injection E as I1 I2 I3 _ _ _ I4. exists d. split; [done|]. split; [done|]. unfold unresolved in *. by rewrite <- I2, <- I3, <- I4.
Qed.

Lemma persist_all_decisions w l s u s' : persist_all w l s = Ok (u, s') → dd_decisions s' = dd_decisions s.
Proof.
  revert s. induction l as [|b l IH]; simpl; intros s Hp; [by apply ret_ok in Hp as [_ <-]|].
  apply bind_ok in Hp as ([] & s1 & Ho & Hp%IH). rewrite Hp. unfold in_objectives in Ho. by destruct (persist_objective_state _ _ _ _) as [[]|]; simplify_eq/=.
Qed.

Lemma apply_current_opened now w src at_ sha events s rows s' : ids_ok (dd_decisions s) → apply_current now w src at_ sha events s = Ok (rows, s') →
  _pending_rows w s' = Ok rows ∧ ∀ id, opened w src id s' ↔ id ∈ map (λ e, _decision_id w src (re_task e) (re_lifecycle e)) events.
Proof.
  intros Hs. unfold apply_current. intros (ids & s1 & Ha & Hc)%bind_ok. destruct (apply_events_snaps _ _ _ _ _ _ _ _ Hs Ha) as [[Hs1 _ _] _ _].
  destruct (apply_events_opened _ _ _ _ _ _ _ _ Hs Ha) as (-> & _ & Ho). apply bind_ok in Hc as (prev & s2 & [<- <-]%read_ok & Hc).
  apply bind_ok in Hc as ([] & s2 & Hr & Hc). pose proof (resolve_missing_opened _ _ _ _ _ _ _ _ _ Hs1 Ho Hr) as Hop.
  apply bind_ok in Hc as ([] & s3 & ->%modify_ok & Hc). apply bind_ok in Hc as (mine & s4 & [_ <-]%read_ok & Hc).
  apply bind_ok in Hc as ([] & s4 & Hp%persist_all_decisions & Hc). apply bind_ok in Hc as (r & s5 & [<- <-]%read_ok & [Hrows <-]%lift_ok).
  split; [done|]. intros id. rewrite <- Hop. unfold opened. by rewrite Hp.
Qed.

(** An observation older than the one on record. *)
Definition superseded (at_ : Z) (r : option decision_source) : bool := match r ≫= ds_observed with Some prior => at_ <? prior | None => false end.

(** C15. A snapshot is complete: afterwards the unresolved decisions of its
    owner and source are exactly the holds it lists, and the answer is what the
    owner has pending; an observation older than the one on record changes
    nothing. *)
Theorem snapshot_open now w src at_ sha events s rows s' : reachable s → apply_snapshot now w src at_ sha events s = Ok (rows, s') →
  _pending_rows w s' = Ok rows ∧
  if superseded at_ (fetchone (is_source w src) (dd_sources s)) then s' = s
  else ∀ id, opened w src id s' ↔ ∃ e, e ∈ events ∧ id = _decision_id w src (re_task e) (re_lifecycle e).
Proof.
  intros Hs%reachable_consistent. unfold apply_snapshot. intros (o & s1 & [Ho <-]%lift_ok & Ha)%bind_ok.
  assert (o = w) as -> by (unfold _valid_owner in Ho; by tx_inv). do 2 apply bind_ok in Ha as ([] & ? & [_ <-]%require_ok & Ha).
  apply bind_ok in Ha as (row & s1 & [<- <-]%read_ok & Ha). set (row := fetchone (is_source w src) (dd_sources s)) in *.
  assert (∀ r s', apply_current now w src at_ sha events s = Ok (r, s') → _pending_rows w s' = Ok r ∧
    ∀ id, opened w src id s' ↔ ∃ e, e ∈ events ∧ id = _decision_id w src (re_task e) (re_lifecycle e)) as Hcur.
  { intros r s2 [Hp Hop]%apply_current_opened; [|apply Hs]. split; [done|]. intros id. rewrite Hop, list_elem_of_fmap. naive_solver. }
  unfold superseded. destruct row as [r|]; simpl; [|by apply Hcur]. destruct (ds_observed r) as [prior|]; [|by apply Hcur].
  destruct (at_ <? prior); [|by apply bind_ok in Ha as ([] & s1 & [_ <-]%require_ok & Ha); apply Hcur].
  by apply bind_ok in Ha as (x & s1 & [<- <-]%read_ok & [? <-]%lift_ok).
Qed.

(** ** Owners *)

(** The decisions, answers and confirmations of owner [v]. *)
Record same_for (v : string) (s s' : decision_db) : Prop := {
  sf_decisions : select (λ d, de_owner d == v) (dd_decisions s') = select (λ d, de_owner d == v) (dd_decisions s);
  sf_answers : select (λ a, an_owner a == v) (dd_answers s') = select (λ a, an_owner a == v) (dd_answers s);
  sf_confirmations : select (λ c, cf_owner c == v) (dd_confirmations s') = select (λ c, cf_owner c == v) (dd_confirmations s);
}.
#[local] Instance same_for_preorder v : PreOrder (same_for v).
Proof. split; [by split|]. intros a b c [] []. split; congruence. Qed.

(** A run of [m] keeps what [v] has. *)
Definition apart {A} (v : string) (m : dtx A) : Prop := ∀ s a s', m s = Ok (a, s') → same_for v s s'.
Create HintDb apart.
Lemma apart_bind {A B} v (m : dtx A) (f : A → dtx B) : apart v m → (∀ a, apart v (f a)) → apart v (m ≫= f).
Proof. intros Hm Hf s b s' (a & s1 & H1%Hm & H2%Hf)%bind_ok. by etrans. Qed.
Lemma apart_ret {A} v (a : A) : apart v (mret a).
Proof. by intros s b s' [_ <-]%ret_ok. Qed.
Lemma apart_read {A} v (f : decision_db → A) : apart v (read f).
Proof. by intros s b s' [_ <-]%read_ok. Qed.
Lemma apart_lift {A} v (r : res decision_error A) : apart v (lift r).
Proof. by intros s b s' [_ <-]%lift_ok. Qed.
Lemma apart_require v b e : apart v (require b e).
Proof. apply apart_lift. Qed.
Lemma apart_objectives {A} v (m : otx A) : apart v (in_objectives m).
Proof. intros s a s' Ho. unfold in_objectives in Ho. destruct (m _) as [[? ?]|]; simplify_eq/=. by split. Qed.
Lemma apart_sources v f : apart v (modify (λ s, s <| dd_sources ::= f |>)).
Proof. intros s a s' ->%modify_ok. by split. Qed.
Lemma apart_insert_event v e : apart v (insert_decision_event e).
Proof. intros s a s' [_ ->]%insert_into_ok. by split. Qed.
Lemma apart_insert_decision v d : de_owner d ≠ v → apart v (insert_decision d).
Proof. intros Hd s a s' [_ ->]%insert_into_ok. split; [|done..]. simpl. rewrite select_app. simpl. apply eqb_neq in Hd. by rewrite Hd, app_nil_r. Qed.
Lemma apart_update v p f : (∀ d, p d = true → de_owner d ≠ v ∧ de_owner (f d) = de_owner d) → apart v (update_decisions p f).
Proof.
  intros Hf s a s' ->%modify_ok. split; [|done..]. apply select_update_other. intros d _ [H1 H2]%Hf. rewrite H2. split; by apply eqb_neq.
Qed.
Lemma apart_update_mine v w id q f : w ≠ v → (∀ d, de_owner (f d) = de_owner d) → apart v (update_decisions (λ d, is_decision w id d && q d) f).
Proof. intros Hw Hf. apply apart_update. intros d [[<- _]%is_decision_spec _]%andb_true_iff. split; [done|apply Hf]. Qed.
#[local] Hint Resolve apart_ret apart_read apart_lift apart_require apart_objectives apart_sources apart_insert_event apart_insert_decision : apart.

Lemma apply_event_apart v now w src at_ e : w ≠ v → apart v (apply_event now w src at_ e).
Proof.
  intros Hw. unfold apply_event, _insert_event, observe_decision, is_decision.
  assert (∀ id f, (∀ d, de_owner (f d) = de_owner d) → apart v (update_decisions (λ r, (de_owner r == w) && (de_id r == id)) f)) as Hu.
  { intros id f Hf. apply apart_update. intros d Hd. bools. split; [congruence|auto]. }
  repeat (intros; match goal with
    | |- apart _ (mbind _ _) => apply apart_bind
    | |- apart _ (if ?x then _ else _) => destruct x
    | |- apart _ (match ?x with _ => _ end) => destruct x
    | |- apart _ _ => solve [eauto with apart | by apply Hu]
    end).
Qed.
Lemma apply_events_apart v now w src at_ l : w ≠ v → apart v (apply_events now w src at_ l).
Proof.
  intros Hw. induction l as [|e l IH]; simpl; [apply apart_ret|]. apply apart_bind; [by apply apply_event_apart|intros id].
  apply apart_bind; [done|intros ids]. apply apart_ret.
Qed.
Lemma resolve_missing_apart v now w src sha at_ ids l : w ≠ v → apart v (resolve_missing now w src sha at_ ids l).
Proof.
  intros Hw. induction l as [|d l IH]; simpl; [apply apart_ret|]. apply apart_bind; [|done]. destruct (listed _ _); [apply apart_ret|].
  unfold resolve_decision, _insert_event. apply apart_bind; [apply apart_lift|intros payload]. cbv zeta. apply apart_bind.
  - apply apart_bind; [apply apart_read|intros []]; auto with apart.
  - intros _. apply apart_update. intros x [<- _]%is_decision_spec. by split.
Qed.
Lemma persist_all_apart v w l : apart v (persist_all w l).
Proof. induction l as [|b l IH]; simpl; [apply apart_ret|]. apply apart_bind; [apply apart_objectives|done]. Qed.
Lemma apply_snapshot_apart v now w src at_ sha events : w ≠ v → apart v (apply_snapshot now w src at_ sha events).
Proof.
  intros Hw. assert (apart v (apply_current now w src at_ sha events)) as Hcur.
  { unfold apply_current. apply apart_bind; [by apply apply_events_apart|intros ids]. apply apart_bind; [apply apart_read|intros prev].
    apply apart_bind; [by apply resolve_missing_apart|intros _]. apply apart_bind; [apply apart_sources|intros _].
    apply apart_bind; [apply apart_read|intros mine]. apply apart_bind; [apply persist_all_apart|intros _].
    apply apart_bind; [apply apart_read|intros rows]. apply apart_lift. }
  intros s rows s'. unfold apply_snapshot. intros (o & s1 & [Ho <-]%lift_ok & Ha)%bind_ok.
  assert (o = w) as -> by (unfold _valid_owner in Ho; by tx_inv). revert Ha.
  assert (∀ m : dtx (list private_decision), apart v m → m s = Ok (rows, s') → same_for v s s') as Hm by (intros m Hm; apply Hm). apply Hm.
  do 2 (apply apart_bind; [apply apart_require|intros _]). apply apart_bind; [apply apart_read|intros [r|]]; [|done].
  destruct (ds_observed r); [|done]. destruct (_ <? _); apply apart_bind; auto with apart.
Qed.

(** Whose transaction it is. *)
Definition op_owner (op : decision_op) : option string :=
  match op with
  | OSnapshot _ w _ _ _ _ | OPrepare _ _ w _ _ _ _ | OClaim _ _ w _ _ _ _ _ | OFinish _ w _ _ _ => Some w
  | OEnvironment _ _ _ => None
  end.

Lemma grants_apart v s a cf row : consistent s → grantable s a cf row → an_owner a ≠ v → de_owner row ≠ v → cf_owner cf ≠ v →
  same_for v s (grants s a cf row).
Proof.
  intros Hs [Hd Hp _ Hc _ _ _ _] Ha Hrow Hcf. split; unfold grants; simpl.
  - apply select_update_other. intros d _ Hq. bools. unfold is_decision in *. bools. simpl. split; apply eqb_neq; congruence.
  - rewrite select_app. simpl. apply eqb_neq in Ha. by rewrite Ha, app_nil_r.
  - apply select_update_other. intros c Hin Hq. bools. assert (c = cf) as -> by (by apply (confirmation_unique s)). simpl. split; by apply eqb_neq.
Qed.
Lemma closes_apart v now result r o s : an_owner r ≠ v → same_for v s (closes now result r o s).
Proof.
  intros Hr. split; unfold closes; simpl; [| |done].
  - apply select_update_other. intros d _ Hq. unfold is_decision in Hq. bools.
    destruct (after_answer_cases now result d) as (_ & -> & _). split; apply eqb_neq; congruence.
  - apply select_update_other. intros a _ Hq. unfold is_answer in Hq. bools. simpl. split; apply eqb_neq; congruence.
Qed.

Lemma op_apart v op s : consistent s → op_owner op ≠ Some v → same_for v s (decision_run policy op s).
Proof.
  intros Hs Hv. destruct op as [now w src at_ sha events|now token w session d rev m|now c w session d rev m token|now w key c r|f g h]; cbn [decision_run op_owner] in *.
  - destruct (commit_cases (apply_snapshot now w src at_ sha events) s) as [(x & s' & E & ->)|(e & _ & ->)]; [|done].
    eapply apply_snapshot_apart; [|exact E]. congruence.
  - destruct (commit_cases (prepare_confirmation policy now token w session d rev m) s) as [(x & s' & Hp%prepare_cases & ->)|(e & _ & ->)]; [|done].
    destruct x as [o|t e row]; [by subst|]. destruct Hp as (_ & cf & -> & [_ _ _ (Ho & _) _] & _). split; [done..|]. simpl.
    rewrite select_app. simpl. assert ((cf_owner cf == v) = false) as -> by (apply eqb_neq; congruence). by rewrite app_nil_r.
  - destruct (commit_cases (claim_answer policy now c w session d rev m token) s) as [(x & s' & (q & _ & Hc)%claim_cases & ->)|(e & _ & ->)]; [|done].
    destruct Hc as [c' r E|c' r row E|c' cf row a E Hg _ Ho]; [done| |].
    + split; [done| |done]. apply select_update_other. intros a _ Hq. unfold is_answer in Hq. bools. simpl. split; apply eqb_neq; congruence.
    + assert (an_owner a = w) as Ha by (by subst). pose proof (py_owner _ _ (gr_pays _ _ _ _ Hg)) as P2. simpl in P2.
      apply grants_apart; congruence.
  - destruct (commit_cases (finish_answer now w key c r) s) as [(x & s' & E & ->)|(e & _ & ->)]; [|done].
    destruct (finish_cases _ _ _ _ _ _ _ _ Hs E) as [|r' ob o Hr' _ Hcl]; [done|]. apply fetch_answer_row in Hr' as (_ & Ho & Hk).
    apply closes_apart. congruence.
  - by split.
Qed.

(** Owners are separate: whatever snapshots, confirmations, claims and
    results other owners go through, with whatever tokens and identifiers, an
    owner's decisions, answers and confirmations stay as they are, and so does
    what the owner has pending. *)
Theorem decisions_isolated v ops s : reachable s → Forall (λ op, op_owner op ≠ Some v) ops →
  same_for v s (after ops s) ∧ pending_of v (after ops s) = pending_of v s.
Proof.
  intros Hs%reachable_consistent Hops. assert (same_for v s (after ops s)) as Hsame.
  { revert s Hs. induction Hops as [|op ops Hop Hops IH]; intros s Hs; [done|]. etrans; [by apply op_apart|]. apply IH. by apply op_consistent. }
  split; [done|]. assert (∀ t : list decision_row, select (λ r, (de_owner r == v) && open_state r) t = select open_state (select (λ d, de_owner d == v) t)) as Hsel.
  { intros t. unfold select. induction t as [|x t IH]; simpl; [done|]. destruct (de_owner x == v); simpl; [by destruct (open_state x); rewrite IH|done]. }
  unfold pending_of. destruct (_valid_owner v) as [o|e] eqn:Ho; [|done]. assert (o = v) as -> by (unfold _valid_owner in Ho; by tx_inv).
  cbn. unfold _pending_rows. by rewrite !Hsel, (sf_decisions _ _ _ Hsame).
Qed.
End Outcomes.
