(* ===== verification/DecisionWitness.v ===== *)
(** * One hold, asked, confirmed, answered

    A captain hold is reported, shown, confirmed and claimed; the instances of
    the decision theorems along it. *)

From stdpp Require Import base option list strings numbers sets.
From Stdlib Require Import ZArith Lia.
From S2P Require Import Prelude Sql Feed Json Text Chat BillingCatalog BillingLedger Activity Deployment ActivityWitness Objectives ObjectiveTheorems ObjectiveWitness Decisions DecisionInvariant DecisionTheorems DecisionOutcomes.

Open Scope string_scope.
Open Scope list_scope.
Open Scope Z_scope.

Definition d_policy : deployment_contract := Build_deployment_contract public_saas None 1 None None.
Definition hold (task title : string) (at_ : Z) : required_event :=
  {| re_source := "fm"; re_event := "fmde_" +:+ task +:+ title; re_task := task; re_lifecycle := "l1"; re_title := title;
     re_question := "Ship it?"; re_project := None; re_observed := at_; re_request := None |}.

(** The answer of user [u1] in the default conversation. *)
Definition d_chat : chat_db :=
  empty_chat <| conversations := [Build_conversation "c" "u1" true 1 1] |>
    <| Chat.messages := [Chat.Build_message "mgm_abcd" "c" "u1" "t" RoleUser "Yes." completed "text" (Some "k") None "[]" 1 1 0 None 2000 2000] |>.
Definition d_start : decision_db := empty_decisions empty_objectives d_chat.
Definition d_id : string := _decision_id "u1" "fm" "task" "l1".

Abbreviation d_after := (decision_after d_policy).
Definition o_reported : decision_op := OSnapshot 1000 "u1" "fm" 900 zeros [hold "task" "Release" 900; hold "other" "Delay" 900].
Definition o_confirmed : decision_op := OPrepare 3000 "token" "u1" "session" d_id 1 "mgm_abcd".
Definition o_claimed : decision_op := OClaim 4000 "claim-1" "u1" "session" d_id 1 "mgm_abcd" "token".
Definition s_reported : decision_db := d_after [o_reported] d_start.
Definition s_confirmed : decision_db := d_after [o_reported; o_confirmed] d_start.
Definition s_claimed : decision_db := d_after [o_reported; o_confirmed; o_claimed] d_start.

Lemma d_reachable ops : decision_reachable d_policy (d_after ops d_start).
Proof. by exists empty_objectives, d_chat, ops. Qed.

Definition no_decision : decision_row := Build_decision_row "" "" "" "" "" 0 d_resolved "" "" None "" "" 0 None 0 0.
Definition no_answer : answer_row := Build_answer_row "" "" "" 0 "" "" "" "" 0 a_failed None "" 0 0 0.
Definition first_decision (s : decision_db) : decision_row := default no_decision (head (dd_decisions s)).
Definition first_answer (s : decision_db) : answer_row := default no_answer (head (dd_answers s)).

Lemma decision_consistent_witness :
  de_state (first_decision s_claimed) = d_answering ∧ ∃ a, a ∈ dd_answers s_claimed ∧ answer_of (first_decision s_claimed) a_pending a.
Proof.
  split; [vm_compute; reflexivity|]. destruct (decision_consistent d_policy s_claimed (first_decision s_claimed)) as (Hiff & _);
    [apply d_reachable|vm_compute; left|]. apply Hiff. vm_compute. reflexivity.
Defined.

(** A finisher of an earlier claim. *)

(** The same question again, before the lease ends. *)
Definition second_claim (s : decision_db) : res decision_error (answer_claim * decision_db) :=
  claim_answer d_policy 5000 "claim-2" "u1" "session" d_id 1 "mgm_abcd" "token" s.
Definition no_claim : answer_claim * decision_db :=
  (Build_answer_claim true false "" (Build_answer_request "" 0 "" 0 "" 0 "" "" 0 "") (Build_private_decision no_decision None)
     (_public_outcome no_answer false), d_start).
Definition claim_out (r : res decision_error (answer_claim * decision_db)) : answer_claim * decision_db := match r with Ok x => x | Err _ => no_claim end.
Lemma answer_exclusive_witness : is_Some (head (dd_answers s_claimed)) ∧ ac_claimed (claim_out (second_claim s_claimed)).1 = false.
Proof.
  split; [vm_compute; eauto|].
  assert (first_answer s_claimed ∈ dd_answers s_claimed) as Ha by (vm_compute; left).
  assert (an_status (first_answer s_claimed) = a_pending) as Hp by (vm_compute; reflexivity).
  assert (5000 < an_lease (first_answer s_claimed)) as Hl by (vm_compute; reflexivity).
  refine (answer_exclusive d_policy s_claimed [] (first_answer s_claimed) 5000 "claim-2" "session" "mgm_abcd" "token" _
    (claim_out (second_claim s_claimed)).2 (d_reachable _) Ha Hp (Forall_nil_2 _) Hl _).
  vm_compute. reflexivity.
Defined.

Definition first_claim : res decision_error (answer_claim * decision_db) :=
  claim_answer d_policy 4000 "claim-1" "u1" "session" d_id 1 "mgm_abcd" "token" (d_after [] s_confirmed).
Definition third_claim : res decision_error (answer_claim * decision_db) :=
  claim_answer d_policy 90000 "claim-3" "u1" "session" d_id 1 "mgm_abcd" "token" (claim_out first_claim).2.
Lemma released_as_confirmed_witness :
  shown (pd_row (ac_decision (claim_out first_claim).1)) = ("Release", "Ship it?", None) ∧ ac_claimed (claim_out third_claim).1 = true ∧
  ¬ fresh_grant (claim_out third_claim).1.
Proof.
  split; [vm_compute; reflexivity|]. split; [vm_compute; reflexivity|].
  assert (prepare_confirmation d_policy 3000 "token" "u1" "session" d_id 1 "mgm_abcd" s_reported =
    Ok (ConfirmationRequired "token" 303000 (first_decision s_reported), s_confirmed)) as Hp by (vm_compute; reflexivity).
  assert (claim_answer d_policy 4000 "claim-1" "u1" "session" d_id 1 "mgm_abcd" "token" (d_after [] s_confirmed) =
    Ok ((claim_out first_claim).1, (claim_out first_claim).2)) as Hc by (vm_compute; reflexivity).
  assert (fresh_grant (claim_out first_claim).1) as Hg by (vm_compute; split; reflexivity).
  destruct (released_as_confirmed d_policy s_reported 3000 "token" "u1" "session" d_id 1 "mgm_abcd" 303000 (first_decision s_reported) s_confirmed []
    4000 "claim-1" "u1" "session" d_id 1 "mgm_abcd" (claim_out first_claim).1 (claim_out first_claim).2 (d_reachable _) Hp Hc Hg) as (_ & _ & _ & _ & _ & _ & Honce).
  apply (Honce [] 90000 "claim-3" "u1" "session" d_id 1 "mgm_abcd" (claim_out third_claim).1 (claim_out third_claim).2).
  vm_compute. reflexivity.
Defined.

(** The next observation no longer lists the other hold. *)
Definition snap_out (r : res decision_error (list private_decision * decision_db)) : list private_decision * decision_db :=
  match r with Ok x => x | Err _ => ([], d_start) end.
Definition next_hold : list required_event := [hold "task" "Release" 1900].
Definition after_next : list private_decision * decision_db := snap_out (apply_snapshot 2000 "u1" "fm" 1900 zeros next_hold s_reported).
Lemma snapshot_open_witness :
  length after_next.1 = 1%nat ∧ ∀ id, opened "u1" "fm" id after_next.2 ↔ ∃ e, e ∈ next_hold ∧ id = _decision_id "u1" "fm" (re_task e) (re_lifecycle e).
Proof.
  split; [vm_compute; reflexivity|].
  pose proof (d_reachable [o_reported] : decision_reachable d_policy s_reported) as Hr.
  assert (superseded 1900 (fetchone (is_source "u1" "fm") (dd_sources s_reported)) = false) as Hcur by (vm_compute; reflexivity).
  unshelve epose proof (snapshot_open d_policy 2000 "u1" "fm" 1900 zeros next_hold s_reported after_next.1 after_next.2 Hr _) as [_ Hopen];
    [vm_compute; reflexivity|].
  rewrite Hcur in Hopen. exact Hopen.
Defined.

(** Another user reports the same hold and guesses the token. *)
Definition foreign : list decision_op :=
  [OSnapshot 2000 "u2" "fm" 1900 zeros [hold "task" "Release" 1900]; OClaim 4000 "claim-9" "u2" "session" d_id 1 "mgm_abcd" "token"].
