(* ===== verification/Memory.v ===== *)
(** * Project memory ([gateway/app/project_memory.py])

    The durable memory of a project: entries with their revisions, the search
    index over their words, a hash-chained audit log per scope, and the record
    of every retrieval.

    Folding a text (NFKC and [casefold]), [MAGISTRATE_MAGI_PROJECT] and the
    ellipsis character are parameters; random identities and the clock are
    arguments. *)

From stdpp Require Import base option list strings numbers pretty sets.
From Stdlib Require Import ZArith Lia.
From S2P Require Import Prelude Sql Feed Json Text Order Objectives.

Open Scope string_scope.
Open Scope list_scope.
Open Scope Z_scope.

(** [ValueError], [MemoryConflict], [MemoryNotFound], an integrity error of
    SQLite and [RuntimeError]. *)
Inductive memory_error := MemoryValueError | MemoryConflict | MemoryNotFound | MemoryIntegrityError | MemoryRuntimeError.

Definition MEMORY_KINDS : list string :=
  ["goal"; "architecture-decision"; "user-decision"; "conversation-fact"; "repository"; "prior-objective"; "completed-outcome"; "artifact";
   "failed-approach"; "question"; "preference"; "fleet-outcome"].
Definition MAX_MEMORY_CONTENT_CHARS : Z := 8000.
Definition MAX_MEMORY_TITLE_CHARS : Z := 240.
Definition MAX_MEMORY_ENTRIES_PER_SCOPE : Z := 2000.
Definition MAX_MEMORY_REVISIONS_PER_ENTRY : Z := 100.
Definition MAX_MEMORY_SEARCH_RESULTS : Z := 20.
Definition MAX_MEMORY_SEARCH_CANDIDATES : Z := 500.
Definition MAX_MEMORY_QUERY_CHARS : Z := 1000.
Definition MAX_MEMORY_TERMS : Z := 128.
Definition MAX_CONTEXT_ENTRIES : Z := 12.
Definition MAX_CONTEXT_CHARS : Z := 16000.
Definition MAX_CONTEXT_ITEM_CHARS : Z := 1200.
Definition MAX_AUDIT_RESULTS : Z := 200.

Definition _SAFE_SCOPE (s : string) : bool := fullmatch1 is_alnum (λ c, is_alnum c || one_of "._:/-" c) 0 159 s.
Definition _SAFE_KEY (s : string) : bool := fullmatch1 is_alnum (λ c, is_alnum c || one_of "._:-" c) 0 199 s.
Definition _SAFE_ACTOR (s : string) : bool := fullmatch_class (λ c, is_alnum c || one_of "_-" c) 1 200 s.
Definition _SAFE_ENTRY (s : string) : bool := startswith "pmem_" s && fullmatch_class (λ c, is_alnum c || one_of "_-" c) 16 64 (str_drop 5 s).
Definition _SEARCH_STOP_WORDS : list string :=
  ["a"; "an"; "and"; "are"; "as"; "at"; "be"; "by"; "for"; "from"; "how"; "i"; "in"; "is"; "it"; "me"; "of"; "on"; "or"; "that"; "the"; "this";
   "to"; "use"; "was"; "we"; "what"; "when"; "where"; "which"; "with"; "you"].

(** ** Tables *)

Record MemoryScope := { tenant_id : string; organization_id : string; workspace_id : string; project_id : string; repository_id : string }.
#[export] Instance scope_eq_dec : EqDecision MemoryScope.
Proof. solve_decision. Defined.

(** [project_memory_entries] *)
Record memory_entry := {
  me_id : string; me_owner : string; me_scope : MemoryScope; me_key : string; me_kind : string; me_title : string; me_content : string;
  me_importance : Z; me_source_kind : string; me_source_id : string; me_revision : Z; me_sha256 : string; me_created : Z; me_updated : Z;
  me_deleted : option Z;
}.
#[export] Instance memory_entry_settable : Settable memory_entry :=
  λ r, Build_memory_entry (me_id r) (me_owner r) (me_scope r) (me_key r) (me_kind r) (me_title r) (me_content r) (me_importance r)
    (me_source_kind r) (me_source_id r) (me_revision r) (me_sha256 r) (me_created r) (me_updated r) (me_deleted r).
Definition entry_clash (a b : memory_entry) : bool :=
  (me_id a == me_id b) || ((me_owner a == me_owner b) && (me_scope a == me_scope b) && (me_key a == me_key b)).

(** [project_memory_terms], [project_memory_revisions] *)
Record memory_term := { mt_entry : string; mt_term : string }.
Definition term_clash (a b : memory_term) : bool := (mt_entry a == mt_entry b) && (mt_term a == mt_term b).
Record memory_revision := { mv_entry : string; mv_revision : Z; mv_snapshot : string; mv_sha256 : string; mv_actor : string; mv_created : Z }.
Definition revision_clash (a b : memory_revision) : bool := (mv_entry a == mv_entry b) && (mv_revision a =? mv_revision b).

(** [project_memory_audit]; [AuditEvent] is what an event is hashed with. *)
Inductive memory_operation := op_created | op_updated | op_deleted.
Definition operation_text (o : memory_operation) : string := match o with op_created => "created" | op_updated => "updated" | op_deleted => "deleted" end.
Record audit_event := {
  ae_sequence : Z; ae_entry : string; ae_revision : Z; ae_operation : memory_operation; ae_actor : string; ae_content_sha256 : string;
  ae_previous : string; ae_sha256 : string; ae_occurred : Z;
}.
Record audit_row := { au_owner : string; au_scope : MemoryScope; au_event : audit_event }.
Definition of_scope (owner : string) (scope : MemoryScope) (r : audit_row) : bool := (au_owner r == owner) && (au_scope r == scope).
Definition audit_clash (a b : audit_row) : bool :=
  (of_scope (au_owner a) (au_scope a) b && (ae_sequence (au_event a) =? ae_sequence (au_event b))) || (ae_sha256 (au_event a) == ae_sha256 (au_event b)).

(** [project_memory_retrievals] *)
Record retrieval := {
  rt_id : string; rt_owner : string; rt_scope : MemoryScope; rt_purpose : string; rt_actor : string; rt_query_sha256 : string;
  rt_selected : string; rt_count : Z; rt_created : Z;
}.
Definition retrieval_clash (a b : retrieval) : bool := rt_id a == rt_id b.

(** [projects], [project_repositories] *)
Record memory_project := { mp_id : string; mp_workspace : string; mp_owner : string; mp_name : string; mp_slug : string; mp_active : bool }.
Record memory_repository := { mr_id : string; mr_owner : string; mr_project : string; mr_provider_id : option string; mr_full_name : string }.

Record memory_db := {
  md_projects : list memory_project; md_repositories : list memory_repository; md_entries : list memory_entry; md_terms : list memory_term;
  md_revisions : list memory_revision; md_audit : list audit_row; md_retrievals : list retrieval;
}.
#[export] Instance memory_db_settable : Settable memory_db :=
  λ s, Build_memory_db (md_projects s) (md_repositories s) (md_entries s) (md_terms s) (md_revisions s) (md_audit s) (md_retrievals s).
Abbreviation mtx := (tx memory_error memory_db).

Definition insert_into {R} (get : memory_db → list R) (set : list R → memory_db → memory_db) (clash : R → R → bool) (r : R) : mtx unit :=
  λ s, match insert clash r (get s) with Some t => Ok (tt, set t s) | None => Err MemoryIntegrityError end.
Definition insert_entry : memory_entry → mtx unit := insert_into md_entries (λ t s, s <| md_entries := t |>) entry_clash.
Definition insert_term : memory_term → mtx unit := insert_into md_terms (λ t s, s <| md_terms := t |>) term_clash.
Definition insert_revision : memory_revision → mtx unit := insert_into md_revisions (λ t s, s <| md_revisions := t |>) revision_clash.
Definition insert_audit : audit_row → mtx unit := insert_into md_audit (λ t s, s <| md_audit := t |>) audit_clash.
Definition insert_retrieval : retrieval → mtx unit := insert_into md_retrievals (λ t s, s <| md_retrievals := t |>) retrieval_clash.
(** [executemany] of an [INSERT] *)
Fixpoint insert_terms (entry : string) (l : list string) : mtx unit :=
  match l with [] => mret tt | w :: l' => insert_term (Build_memory_term entry w);; insert_terms entry l' end.

(** ** Words *)

(** [dict.fromkeys(l)] *)
Fixpoint from_keys (seen l : list string) : list string :=
  match l with
  | [] => []
  | w :: l' => if listed w seen then from_keys seen l' else w :: from_keys (w :: seen) l'
  end.
Definition is_term (c : Ascii.ascii) : bool := is_word c || one_of "./:#-" c.
(** The longest run of at most [n] term characters, and the rest. *)
Fixpoint run_of (n : nat) (s : string) : string * string :=
  match n, s with
  | S n, String c s' => if is_term c then let '(w, r) := run_of n s' in (String c w, r) else ("", s)
  | _, _ => ("", s)
  end.
(** [re.findall(r"[\w][\w./:#-]{1,63}", s)]; a match consumes what it reads. *)
Fixpoint findall (fuel : nat) (s : string) : list string :=
  match fuel, s with
  | S fuel, String c s' =>
      if is_word c then
        let '(w, r) := run_of 63 s' in
        if w == "" then findall fuel s' else String c w :: findall fuel r
      else findall fuel s'
  | _, _ => []
  end.

Section Store.
Context `{TextEngine, Codec}.
Context (folded : string → string) (magi_project ellipsis : string).

Definition _tokens (value : string) : list string :=
  let normalized := folded value in
  take MAX_MEMORY_TERMS (from_keys [] (select (λ w, negb (listed w _SEARCH_STOP_WORDS)) (findall (String.length normalized) normalized))).

(** ** Validation *)

Definition has_control (value : string) : bool := str_exists (λ c, startswith "C" (category c)) value.
Definition _valid_owner (value : string) : bool := (0 <? str_len value) && (str_len value <=? 128) && negb (has_control value).
Definition _bounded_text (value : string) (maximum : Z) : res memory_error string :=
  ensure (negb ((value == "") || negb (value == strip value) || (maximum <? str_len value) || has_control value || _contains_sensitive_text value)) MemoryValueError;;
  mret value.

Definition validate (s : MemoryScope) : res memory_error unit :=
  ensure (forallb _SAFE_SCOPE [tenant_id s; organization_id s; workspace_id s; project_id s]) MemoryValueError;;
  ensure ((repository_id s == "") || _SAFE_SCOPE (repository_id s)) MemoryValueError.
Definition for_owner (owner organization workspace : string) (project : option string) (repository : string) : res memory_error MemoryScope :=
  let project := default magi_project (project ≫= nonempty) in
  let scope := Build_MemoryScope ("tenant-" +:+ str_take 32 (sha256_hex owner)) organization workspace project repository in
  validate scope;; mret scope.

(** The durable project a reference names: by id, slug or name. *)
Definition project_rank (reference : string) (p : memory_project) : Z :=
  if mp_id p == reference then 0 else if mp_slug p == sql_lower reference then 1 else 2.
Definition named_projects (owner reference : string) (s : memory_db) : list memory_project :=
  order_by (before (λ a b, project_rank reference a ?= project_rank reference b))
    (select (λ p, (mp_owner p == owner) && mp_active p && ((mp_id p == reference) || (mp_slug p == sql_lower reference) || (mp_name p == reference))) (md_projects s)).
Definition named_repository (owner project reference : string) (r : memory_repository) : bool :=
  (mr_owner r == owner) && (mr_project r == project) && ((mr_id r == reference) || (mr_full_name r == reference) || (mr_provider_id r == Some reference)).
Definition for_project (owner reference repository : string) (s : memory_db) : res memory_error MemoryScope :=
  ensure (_valid_owner owner) MemoryValueError;;
  ensure (_SAFE_SCOPE reference) MemoryNotFound;;
  ensure ((repository == "") || _SAFE_SCOPE repository) MemoryNotFound;;
  p ← of_option MemoryNotFound (head (named_projects owner reference s));
  r ← (if repository == "" then mret ""
       else mr_id <$> of_option MemoryNotFound (fetchone (named_repository owner (mp_id p) repository) (md_repositories s)));
  scope ← for_owner owner "personal" (mp_workspace p) (Some (mp_id p)) r;
  validate scope;; mret scope.

(** [ProjectMemoryStore._validate] *)
Definition _validate (owner : string) (scope : MemoryScope) : res memory_error unit :=
  ensure (_valid_owner owner) MemoryValueError;;
  validate scope;;
  expected ← for_owner owner (organization_id scope) (workspace_id scope) (Some (project_id scope)) (repository_id scope);
  ensure (tenant_id scope == tenant_id expected) MemoryValueError.

(** ** Identities and hashes *)

Definition digest (j : json) : res memory_error string := sha256_hex <$> of_option MemoryValueError (dumps j).
Definition _entry_id (owner : string) (scope : MemoryScope) (key : string) : string :=
  "pmem_" +:+ str_take 40 (sha256_hex (join NUL ["magi-memory-v1"; owner; tenant_id scope; organization_id scope; workspace_id scope; project_id scope;
    repository_id scope; key])).

Record memory_args := {
  ma_key : string; ma_kind : string; ma_title : string; ma_content : string; ma_importance : Z; ma_source_kind : string; ma_source_id : string;
  ma_actor : string; ma_immutable : bool;
}.
Definition content_json (kind title content : string) (importance : Z) (source_kind source_id : string) : json :=
  JObj [("kind", JStr kind); ("title", JStr title); ("content", JStr content); ("importance", JInt importance); ("source_kind", JStr source_kind);
    ("source_id", JStr source_id)].
Definition args_json (a : memory_args) : json :=
  content_json (ma_kind a) (ma_title a) (ma_content a) (ma_importance a) (ma_source_kind a) (ma_source_id a).
Definition _entry_hash (a : memory_args) : res memory_error string := digest (args_json a).

(** ** Writing *)

Record public_entry := {
  pe_id : string; pe_kind : string; pe_title : string; pe_content : string; pe_importance : Z; pe_repository : string; pe_revision : Z;
  pe_source_kind : string; pe_source_id : string; pe_created : Z; pe_updated : Z; pe_score : option Z;
}.
Definition _public_entry (r : memory_entry) (score : option Z) : public_entry :=
  Build_public_entry (me_id r) (me_kind r) (me_title r) (me_content r) (me_importance r) (repository_id (me_scope r)) (me_revision r)
    (me_source_kind r) (me_source_id r) (me_created r) (me_updated r) score.

Definition event_json (sequence : Z) (entry : string) (revision : Z) (operation : memory_operation) (actor sha256 : string) (occurred : Z) (previous : string) : json :=
  JObj [("sequence", JInt sequence); ("entry_id", JStr entry); ("revision", JInt revision); ("operation", JStr (operation_text operation));
    ("actor_session_id", JStr actor); ("content_sha256", JStr sha256); ("occurred_at", JInt occurred); ("previous_event_sha256", JStr previous)].
(** [ORDER BY sequence DESC LIMIT n] *)
Definition newest (n : Z) (owner : string) (scope : MemoryScope) (t : list audit_row) : list audit_event :=
  take n (order_by (before (λ a b, ae_sequence b ?= ae_sequence a)) (map au_event (select (of_scope owner scope) t))).
Definition _append_audit (owner : string) (scope : MemoryScope) (entry : string) (revision : Z) (operation : memory_operation) (actor sha256 : string)
    (occurred : Z) : mtx unit :=
  previous ← read (λ s, head (newest 1 owner scope (md_audit s)));
  let prior := match previous with Some e => ae_sha256 e | None => "" end in
  last ← read (λ s, default 0 (max_of (λ r, ae_sequence (au_event r)) (of_scope owner scope) (md_audit s)));
  let sequence := last + 1 in
  hash ← lift (digest (event_json sequence entry revision operation actor sha256 occurred prior));
  insert_audit (Build_audit_row owner scope (Build_audit_event sequence entry revision operation actor sha256 prior hash occurred)).

Definition is_entry (id owner : string) (r : memory_entry) : bool := (me_id r == id) && (me_owner r == owner).
Definition in_scope (owner : string) (scope : MemoryScope) (r : memory_entry) : bool := (me_owner r == owner) && (me_scope r == scope).
Definition live (r : memory_entry) : bool := me_deleted r == None.

Definition check_args (a : memory_args) : res memory_error unit :=
  ensure (_SAFE_KEY (ma_key a)) MemoryValueError;;
  ensure (listed (ma_kind a) MEMORY_KINDS) MemoryValueError;;
  _bounded_text (ma_title a) MAX_MEMORY_TITLE_CHARS;;
  _bounded_text (ma_content a) MAX_MEMORY_CONTENT_CHARS;;
  ensure ((1 <=? ma_importance a) && (ma_importance a <=? 5)) MemoryValueError;;
  ensure (_SAFE_KEY (ma_source_kind a) && _SAFE_KEY (ma_source_id a) && _SAFE_ACTOR (ma_actor a)) MemoryValueError.

(** The words of an entry, as the index holds them. *)
Definition entry_text (title content : string) : string := title +:+ String (Ascii.ascii_of_nat 10) content.

(** The statements that record a new revision of [id]. *)
Definition record_revision (now : Z) (owner : string) (scope : MemoryScope) (a : memory_args) (id hash : string) (revision : Z) (operation : memory_operation)
    : mtx public_entry :=
  snapshot ← lift (of_option MemoryValueError (dumps (args_json a)));
  insert_revision (Build_memory_revision id revision snapshot hash (ma_actor a) now);;
  modify (λ s, s <| md_terms ::= delete_where (λ t, mt_entry t == id) |>);;
  insert_terms id (_tokens (entry_text (ma_title a) (ma_content a)));;
  _append_audit owner scope id revision operation (ma_actor a) hash now;;
  row ← read (λ s, fetchone (λ r, me_id r == id) (md_entries s));
  row ← lift (of_option MemoryValueError row);
  mret (_public_entry row None).

Definition put (now : Z) (owner : string) (scope : MemoryScope) (a : memory_args) : mtx public_entry :=
  lift (_validate owner scope);;
  lift (check_args a);;
  let id := _entry_id owner scope (ma_key a) in
  hash ← lift (_entry_hash a);
  existing ← read (λ s, fetchone (is_entry id owner) (md_entries s));
  match existing with
  | None =>
      n ← read (λ s, count (λ r, in_scope owner scope r && live r) (md_entries s));
      require (negb (MAX_MEMORY_ENTRIES_PER_SCOPE <=? n)) MemoryConflict;;
      insert_entry (Build_memory_entry id owner scope (ma_key a) (ma_kind a) (ma_title a) (ma_content a) (ma_importance a) (ma_source_kind a) (ma_source_id a)
        1 hash now now None);;
      record_revision now owner scope a id hash 1 op_created
  | Some r =>
      require ((me_scope r == scope) && (me_key r == ma_key a)) MemoryConflict;;
      require (live r) MemoryConflict;;
      if me_sha256 r == hash then mret (_public_entry r None)
      else
        require (negb (ma_immutable a)) MemoryConflict;;
        let revision := me_revision r + 1 in
        require (negb (MAX_MEMORY_REVISIONS_PER_ENTRY <=? revision)) MemoryConflict;;
        modify (λ s, s <| md_entries ::= update (is_entry id owner) (λ x, x <| me_kind := ma_kind a |> <| me_title := ma_title a |> <| me_content := ma_content a |>
          <| me_importance := ma_importance a |> <| me_source_kind := ma_source_kind a |> <| me_source_id := ma_source_id a |> <| me_revision := revision |>
          <| me_sha256 := hash |> <| me_updated := now |>) |>);;
        record_revision now owner scope a id hash revision op_updated
  end.

(** [f"deleted\0{entry_id}\0{revision}\0{content_sha256}"] *)
Definition tombstone_text (id : string) (revision : Z) (sha256 : string) : string := join NUL ["deleted"; id; pretty revision; sha256].
Definition tombstone_snapshot : string :=
  let quoted := String (Ascii.ascii_of_nat 34) "deleted" +:+ String (Ascii.ascii_of_nat 34) "" in "{" +:+ quoted +:+ ":true}".
Definition delete (now : Z) (owner : string) (scope : MemoryScope) (id actor : string) : mtx unit :=
  lift (_validate owner scope);;
  require (_SAFE_ENTRY id) MemoryNotFound;;
  require (_SAFE_ACTOR actor) MemoryValueError;;
  row ← read (λ s, fetchone (λ r, (me_id r == id) && in_scope owner scope r && live r) (md_entries s));
  r ← lift (of_option MemoryNotFound row);
  let revision := me_revision r + 1 in
  modify (λ s, s <| md_entries ::= update (λ x, me_id x == id) (λ x, x <| me_revision := revision |> <| me_deleted := Some now |> <| me_updated := now |>) |>);;
  modify (λ s, s <| md_terms ::= delete_where (λ t, mt_entry t == id) |>);;
  let tombstone := sha256_hex (tombstone_text id revision (me_sha256 r)) in
  insert_revision (Build_memory_revision id revision tombstone_snapshot tombstone actor now);;
  _append_audit owner scope id revision op_deleted actor tombstone now.

(** ** Searching *)

Record search_args := { sa_query : string; sa_kinds : list string; sa_limit : Z; sa_purpose : string; sa_actor : string }.
Definition check_search (a : search_args) : res memory_error unit :=
  ensure (negb ((strip (sa_query a) == "") || (MAX_MEMORY_QUERY_CHARS <? str_len (sa_query a)))) MemoryValueError;;
  ensure (match _tokens (sa_query a) with [] => false | _ => true end) MemoryValueError;;
  ensure (forallb (λ k, listed k MEMORY_KINDS) (sa_kinds a)) MemoryValueError;;
  ensure ((1 <=? sa_limit a) && (sa_limit a <=? MAX_MEMORY_SEARCH_RESULTS)) MemoryValueError;;
  ensure (_SAFE_KEY (sa_purpose a)) MemoryValueError;;
  ensure (_SAFE_ACTOR (sa_actor a)) MemoryValueError.
(** [kinds or MEMORY_KINDS] *)
Definition selected_kinds (a : search_args) : list string := match sa_kinds a with [] => MEMORY_KINDS | l => l end.

(** The entries a scope may read: its own, and those of the whole project. *)
Definition readable (owner : string) (scope : MemoryScope) (r : memory_entry) : bool :=
  let s := me_scope r in
  (me_owner r == owner) && (tenant_id s == tenant_id scope) && (organization_id s == organization_id scope) && (workspace_id s == workspace_id scope) &&
  (project_id s == project_id scope) && ((repository_id s == "") || (repository_id s == repository_id scope)).
(** [COUNT(DISTINCT term.term)] *)
Definition matched_terms (terms : list memory_term) (query : list string) (r : memory_entry) : Z :=
  count (λ t, (mt_entry t == me_id r) && listed (mt_term t) query) terms.
(** [ORDER BY matched_terms DESC, importance DESC, updated_at DESC] *)
Definition candidate_order (a b : Z * memory_entry) : comparison :=
  lex (b.1 ?= a.1) (lex (me_importance b.2 ?= me_importance a.2) (me_updated b.2 ?= me_updated a.2)).
Definition candidates (owner : string) (scope : MemoryScope) (kinds query : list string) (s : memory_db) : list (Z * memory_entry) :=
  let found r := readable owner scope r && live r && listed (me_kind r) kinds && (0 <? matched_terms (md_terms s) query r) in
  take MAX_MEMORY_SEARCH_CANDIDATES
    (order_by (before candidate_order) (map (λ r, (matched_terms (md_terms s) query r, r)) (select found (md_entries s)))).
Definition score (now : Z) (scope : MemoryScope) (query : list string) (matched : Z) (r : memory_entry) : Z :=
  let title := _tokens (me_title r) in
  matched * 100 + count (λ w, listed w title) query * 25 + me_importance r * 5 +
  (if negb (repository_id scope == "") && (repository_id (me_scope r) == repository_id scope) then 1 else 0) * 4 +
  (if now - me_updated r <? 30 * 24 * 3600 * 1000 then 1 else 0).
(** [(score, updated_at, entry_id)], greatest first *)
Definition rank_order (a b : Z * memory_entry) : comparison :=
  lex (b.1 ?= a.1) (lex (me_updated b.2 ?= me_updated a.2) (String.compare (me_id b.2) (me_id a.2))).
Definition search (now : Z) (fresh_id : string) (owner : string) (scope : MemoryScope) (a : search_args) : mtx (list public_entry) :=
  lift (_validate owner scope);;
  lift (check_search a);;
  let query := _tokens (sa_query a) in
  rows ← read (candidates owner scope (selected_kinds a) query);
  let ranked := order_by (before rank_order) (map (λ x, (score now scope query x.1 x.2, x.2)) rows) in
  let selected := take (sa_limit a) ranked in
  ids ← lift (of_option MemoryValueError (dumps (JList (map (λ x, JStr (me_id x.2)) selected))));
  insert_retrieval (Build_retrieval ("pmr_" +:+ fresh_id) owner scope (sa_purpose a) (sa_actor a) (sha256_hex (sa_query a)) ids
    (Z.of_nat (length selected)) now);;
  mret (map (λ x, _public_entry x.2 (Some x.1)) selected).

(** ** Audit *)

Record audit_report := { ar_events : list audit_event; ar_retrievals : list (retrieval * json); ar_valid : bool }.
(** The events, oldest first, each hashed over its predecessor's hash. *)
Definition event_valid (previous : string) (e : audit_event) : res memory_error bool :=
  hash ← digest (event_json (ae_sequence e) (ae_entry e) (ae_revision e) (ae_operation e) (ae_actor e) (ae_content_sha256 e) (ae_occurred e) previous);
  mret ((ae_previous e == previous) && (hash == ae_sha256 e)).
Fixpoint chain_valid (previous : string) (l : list audit_event) : res memory_error bool :=
  match l with
  | [] => mret true
  | e :: l' => v ← event_valid previous e; rest ← chain_valid (ae_sha256 e) l'; mret (v && rest)
  end.
Definition chain_start (l : list audit_event) : string := match l with e :: _ => ae_previous e | [] => "" end.
Definition audit (owner : string) (scope : MemoryScope) (limit : Z) (s : memory_db) : res memory_error audit_report :=
  _validate owner scope;;
  ensure ((1 <=? limit) && (limit <=? MAX_AUDIT_RESULTS)) MemoryValueError;;
  let rows := newest limit owner scope (md_audit s) in
  let retrievals := take limit (order_by (before (λ a b, lex (rt_created b ?= rt_created a) (String.compare (rt_id b) (rt_id a))))
    (select (λ r, (rt_owner r == owner) && (rt_scope r == scope)) (md_retrievals s))) in
  valid ← chain_valid (chain_start (rev rows)) (rev rows);
  retrievals ← map_res (λ r, j ← of_option MemoryValueError (loads (rt_selected r)); mret (r, j)) retrievals;
  mret (Build_audit_report rows retrievals valid).

(** ** Contexts *)

Record context_item := { ci_id : string; ci_kind : string; ci_title : string; ci_content : string; ci_repository : string; ci_revision : Z }.
Definition context_item_of (e : public_entry) : context_item :=
  let content := if MAX_CONTEXT_ITEM_CHARS <? str_len (pe_content e)
                 then rstrip (str_take (Z.to_nat (MAX_CONTEXT_ITEM_CHARS - 1)) (pe_content e)) +:+ ellipsis else pe_content e in
  Build_context_item (pe_id e) (pe_kind e) (pe_title e) content (pe_repository e) (pe_revision e).
Definition item_json (i : context_item) : json :=
  JObj [("id", JStr (ci_id i)); ("kind", JStr (ci_kind i)); ("title", JStr (ci_title i)); ("content", JStr (ci_content i));
    ("repository_id", JStr (ci_repository i)); ("revision", JInt (ci_revision i))].
(** Items are taken while they fit; one that does not is passed over. *)
Fixpoint pack (used : Z) (l : list public_entry) : res memory_error (list context_item) :=
  match l with
  | [] => mret []
  | e :: l' =>
      let item := context_item_of e in
      text ← of_option MemoryValueError (dumps (item_json item));
      if MAX_CONTEXT_CHARS <? used + str_len text then pack used l' else items ← pack (used + str_len text) l'; mret (item :: items)
  end.
Definition selected_context (now : Z) (fresh_id : string) (owner : string) (scope : MemoryScope) (query purpose actor : string) (limit : Z) : mtx (list context_item) :=
  match _tokens query with
  | [] => mret []
  | _ =>
      entries ← search now fresh_id owner scope (Build_search_args query [] (Z.min limit MAX_CONTEXT_ENTRIES) purpose actor);
      lift (pack 0 entries)
  end.

(** [MemoryScope.public] and [MagiContextAssembler.assemble_worker] *)
Definition scope_json (s : MemoryScope) : json :=
  JObj [("organization_id", JStr (organization_id s)); ("workspace_id", JStr (workspace_id s)); ("project_id", JStr (project_id s));
    ("repository_id", JStr (repository_id s))].
Definition assemble_worker (now : Z) (fresh_id : string) (owner : string) (scope : MemoryScope) (objective : string) : mtx json :=
  memories ← selected_context now fresh_id owner scope objective "objective-worker" "system" 10;
  let payload := JObj [("schema_version", JStr "magi.context-plane.v1"); ("authority", JStr "magistrate-persisted-context"); ("scope", scope_json scope);
    ("objective_context", JList (map item_json memories))] in
  encoded ← lift (of_option MemoryValueError (dumps payload));
  require (negb (MAX_CONTEXT_CHARS <? str_len encoded)) MemoryRuntimeError;;
  mret payload.
End Store.
