(* ===== verification/MemoryInvariant.v ===== *)
(** * What the memory store keeps

    [memory_ok]: the index holds the words of every live entry, its revisions
    and its audit events are numbered without a gap, and the events of a scope
    form one hash chain. [put] and [delete] are one step, [revise]. *)

From stdpp Require Import base option list sorting strings numbers sets.
From Stdlib Require Import ZArith Lia.
From S2P Require Import Prelude Sql Feed Json Text Order Memory.

Open Scope string_scope.
Open Scope list_scope.
Open Scope Z_scope.

(** ** Inserts *)

Lemma memory_insert_ok {R} (get : memory_db → list R) set clash (r : R) s (u : unit) s' :
  insert_into get set clash r s = Ok (u, s') ↔ (∀ x, x ∈ get s → clash r x = false) ∧ s' = set (get s ++ [r]) s.
Proof.
  unfold insert_into. split.
  - destruct (insert clash r (get s)) as [t|] eqn:E; [|done]. intros [= <- <-]. by apply insert_some in E as [-> ?].
  - intros [Hf ->]. rewrite insert_fresh by done. by destruct u.
Qed.
Lemma insert_terms_ok entry l s (u : unit) s' : insert_terms entry l s = Ok (u, s') →
  s' = s <| md_terms ::= (λ t, t ++ map (Build_memory_term entry) l) |>.
Proof.
  revert s. induction l as [|w l IH]; simpl; intros s Hi.
  - apply ret_ok in Hi as [_ <-]. destruct s. unfold set_field. simpl. by rewrite app_nil_r.
  - apply bind_ok in Hi as ([] & s1 & [_ ->]%memory_insert_ok & ->%IH). destruct s. unfold set_field. simpl. by rewrite <- app_assoc.
Qed.

(** The words of a text need no more steps than it has characters. *)
Lemma run_of_length n s : (String.length (run_of n s).2 ≤ String.length s)%nat.
Proof.
  revert s. induction n as [|n IH]; intros [|c s]; simpl; try lia. destruct (is_term c); [|done]. specialize (IH s).
  destruct (run_of n s). simpl in *. lia.
Qed.
Lemma findall_fuel n s : (String.length s ≤ n)%nat → findall n s = findall (String.length s) s.
Proof.
  assert (∀ n m s, (String.length s ≤ n)%nat → (String.length s ≤ m)%nat → findall n s = findall m s) as H; [|intros; by apply H].
  clear. induction n as [|n IH]; intros m [|c s] Hn Hm; cbn [String.length] in *; try lia; [by destruct m..|]. destruct m as [|m]; [lia|]. cbn [findall].
  destruct (is_word c); [|apply IH; lia]. pose proof (run_of_length 63 s) as Hr. destruct (run_of 63 s) as [w r]. cbn [snd] in Hr.
  destruct (w == ""); [apply IH; lia|]. f_equal. apply IH; lia.
Qed.

(** ** Chains *)

Section Chains.
Context `{Codec}.

Definition last_hash (p : string) (l : list audit_event) : string := default p (ae_sha256 <$> last l).
Lemma last_hash_cons p e l : last_hash p (e :: l) = last_hash (ae_sha256 e) l.
Proof. unfold last_hash. destruct l as [|x l]; [done|]. by rewrite last_cons_cons; destruct (last (x :: l)) eqn:E; [|apply last_None in E]. Qed.

Lemma chain_cons p e l : chain_valid p (e :: l) = Ok true ↔ event_valid p e = Ok true ∧ chain_valid (ae_sha256 e) l = Ok true.
Proof.
  simpl. split.
  - intros (v & Hv & (r & Hr & [= E])%res_bind_ok)%res_bind_ok. apply andb_true_iff in E as [-> ->]. done.
  - intros [-> ->]. done.
Qed.
Lemma chain_app p l1 l2 : chain_valid p (l1 ++ l2) = Ok true ↔ chain_valid p l1 = Ok true ∧ chain_valid (last_hash p l1) l2 = Ok true.
Proof.
  revert p. induction l1 as [|e l1 IH]; intros p; [simpl; naive_solver|]. change ((e :: l1) ++ l2) with (e :: (l1 ++ l2)).
  rewrite !chain_cons, IH, last_hash_cons. naive_solver.
Qed.
Lemma event_valid_previous p e : event_valid p e = Ok true → ae_previous e = p.
Proof. unfold event_valid. intros (h & _ & [= E])%res_bind_ok. by bools. Qed.
(** A page of a chain is a chain. *)
Lemma chain_suffix p l1 l2 : chain_valid p (l1 ++ l2) = Ok true → chain_valid (chain_start l2) l2 = Ok true.
Proof.
  intros [_ Hc]%chain_app. destruct l2 as [|e l2]; [done|]. simpl chain_start.
  apply chain_cons in Hc as [He Hl]. pose proof (event_valid_previous _ _ He) as E. apply chain_cons. by rewrite E.
Qed.

End Chains.

(** ** The invariant *)

Section Invariant.
Context `{TextEngine, Codec} (folded : string → string).

Definition words_of (id : string) (t : memory_term) : bool := mt_entry t == id.
Definition revision_of (id : string) (v : memory_revision) : bool := mv_entry v == id.
Definition audited (id : string) (r : audit_row) : bool := ae_entry (au_event r) == id.
Definition entry_json (e : memory_entry) : json :=
  content_json (me_kind e) (me_title e) (me_content e) (me_importance e) (me_source_kind e) (me_source_id e).
Definition events_of (owner : string) (scope : MemoryScope) (s : memory_db) : list audit_event := map au_event (select (of_scope owner scope) (md_audit s)).

Record entry_ok (s : memory_db) (e : memory_entry) : Prop := {
  eo_words : map mt_term (select (words_of (me_id e)) (md_terms s)) = if live e then _tokens folded (entry_text (me_title e) (me_content e)) else [];
  eo_numbered : numbered mv_revision (revision_of (me_id e)) 0 (md_revisions s);
  eo_count : count (revision_of (me_id e)) (md_revisions s) = me_revision e;
  eo_audited : map (λ r, (ae_revision (au_event r), ae_content_sha256 (au_event r))) (select (audited (me_id e)) (md_audit s)) =
    map (λ v, (mv_revision v, mv_sha256 v)) (select (revision_of (me_id e)) (md_revisions s));
  eo_scope : ∀ r, r ∈ md_audit s → audited (me_id e) r = true → of_scope (me_owner e) (me_scope e) r = true;
  eo_bounds : 1 ≤ me_revision e ≤ (if live e then 99 else 100);
  eo_hash : live e = true → digest (entry_json e) = Ok (me_sha256 e) ∧
    mv_sha256 <$> last (select (revision_of (me_id e)) (md_revisions s)) = Some (me_sha256 e);
}.
Record memory_ok (s : memory_db) : Prop := {
  mk_ids : NoDup (map me_id (md_entries s));
  mk_entries : ∀ e, e ∈ md_entries s → entry_ok s e;
  mk_revisions : ∀ v, v ∈ md_revisions s → ∃ e, e ∈ md_entries s ∧ me_id e = mv_entry v;
  mk_events : ∀ r, r ∈ md_audit s → ∃ e, e ∈ md_entries s ∧ me_id e = ae_entry (au_event r);
  mk_sequence : ∀ owner scope, numbered (λ r, ae_sequence (au_event r)) (of_scope owner scope) 0 (md_audit s);
  mk_chain : ∀ owner scope, chain_valid "" (events_of owner scope s) = Ok true;
  mk_retrievals : ∀ r, r ∈ md_retrievals s → ∃ ids, dumps (JList (map JStr ids)) = Some (rt_selected r);
}.

Lemma entry_unique s x y : memory_ok s → x ∈ md_entries s → y ∈ md_entries s → me_id x = me_id y → x = y.
Proof. intros Hs. apply NoDup_key_inj, Hs. Qed.

(** ** The newest events *)

Lemma sequence_ascending (f : audit_row → Z) p t : numbered f p 0 t → StronglySorted (λ a b, f a < f b) (select p t).
Proof.
  unfold numbered. generalize (select p t) as l, (count p t) as n, (0 + 1) as m. intros l. induction l as [|x l IH]; intros n m E; [constructor|].
  destruct (decide (0 < n)) as [Hn|Hn]; [|by rewrite seqZ_nil in E by lia]. rewrite seqZ_cons in E by done. injection E as Hx E.
  constructor; [by eapply IH|]. apply Forall_forall. intros y Hy. assert (f y ∈ map f l) as Hin by by apply list_elem_of_fmap_2.
  rewrite E in Hin. apply elem_of_seqZ in Hin. lia.
Qed.
Lemma newest_spec n owner scope t : numbered (λ r, ae_sequence (au_event r)) (of_scope owner scope) 0 t →
  newest n owner scope t = take n (rev (map au_event (select (of_scope owner scope) t))).
Proof.
  intros Hs. unfold newest. f_equal. apply order_by_reverse. pose proof (sequence_ascending _ _ _ Hs) as Hsort.
  induction Hsort as [|x l Hl IH Hx]; simpl; constructor; [done|]. rewrite Forall_forall in Hx. apply Forall_forall.
  intros y (r & -> & Hr)%list_elem_of_fmap. specialize (Hx r Hr). unfold before. apply Z.compare_gt_iff in Hx. by rewrite Hx.
Qed.

(** ** One step *)

(** [e'] is a new entry, or the next revision of a live one. *)
Inductive next_entry (t t' : list memory_entry) (e' : memory_entry) : Prop :=
| NewEntry : (∀ x, x ∈ t → me_id x ≠ me_id e') → t' = t ++ [e'] → me_revision e' = 1 → live e' = true → next_entry t t' e'
| NextRevision e : e ∈ t → live e = true → me_id e' = me_id e → (me_owner e', me_scope e', me_key e', me_created e') = (me_owner e, me_scope e, me_key e, me_created e) →
    me_revision e' = me_revision e + 1 → me_revision e' ≤ (if live e' then 99 else 100) →
    t' = update (λ x, me_id x == me_id e') (λ _, e') t → next_entry t t' e'.
Record revise (s s' : memory_db) (e' : memory_entry) (v : memory_revision) (r : audit_row) : Prop := {
  rv_entry : next_entry (md_entries s) (md_entries s') e';
  rv_terms : md_terms s' = delete_where (words_of (me_id e')) (md_terms s) ++
    map (Build_memory_term (me_id e')) (if live e' then _tokens folded (entry_text (me_title e') (me_content e')) else []);
  rv_revisions : md_revisions s' = md_revisions s ++ [v] ∧ mv_entry v = me_id e' ∧ mv_revision v = me_revision e';
  rv_hash : live e' = true → digest (entry_json e') = Ok (me_sha256 e') ∧ mv_sha256 v = me_sha256 e';
  rv_audit : md_audit s' = md_audit s ++ [r] ∧ of_scope (me_owner e') (me_scope e') r = true ∧ audited (me_id e') r = true ∧
    ae_revision (au_event r) = me_revision e' ∧ ae_content_sha256 (au_event r) = mv_sha256 v;
  rv_event : ae_sequence (au_event r) = count (of_scope (me_owner e') (me_scope e')) (md_audit s) + 1 ∧
    event_valid (last_hash "" (events_of (me_owner e') (me_scope e') s)) (au_event r) = Ok true;
  rv_retrievals : md_retrievals s' = md_retrievals s;
}.

Lemma of_scope_spec w c r : of_scope w c r = true → au_owner r = w ∧ au_scope r = c.
Proof. unfold of_scope. intros Hr. by bools. Qed.
Lemma select_delete {R} (p q : R → bool) t : (∀ x, p x = true → q x = false) → select p (delete_where q t) = select p t.
Proof.
  intros Hpq. unfold select, delete_where. induction t as [|x t IH]; simpl; [done|]. destruct (q x) eqn:Eq, (p x) eqn:Ep; simpl; rewrite ?Ep, IH; try done.
  rewrite (Hpq x Ep) in Eq. done.
Qed.
Lemma select_deleted {R} (q : R → bool) t : select q (delete_where q t) = [].
Proof. unfold select, delete_where. induction t as [|x t IH]; simpl; [done|]. destruct (q x) eqn:Eq; simpl; [done|]. by rewrite Eq. Qed.
Lemma select_words id id' l : select (words_of id) (map (Build_memory_term id') l) = if id' == id then map (Build_memory_term id') l else [].
Proof.
  unfold select, words_of. induction l as [|w l IH]; simpl; [by destruct (id' == id)|]. rewrite IH. by destruct (id' == id).
Qed.
Lemma mt_term_map id l : map mt_term (map (Build_memory_term id) l) = l.
Proof. rewrite map_map. simpl. apply map_id. Qed.

Section Step.
Context (s s' : memory_db) (e' : memory_entry) (v : memory_revision) (r : audit_row).
Hypotheses (Hs : memory_ok s) (Hr : revise s s' e' v r).

Lemma next_members x : x ∈ md_entries s' → x = e' ∨ (x ∈ md_entries s ∧ me_id x ≠ me_id e').
Proof.
  destruct (rv_entry _ _ _ _ _ Hr) as [Hf -> _ _|e He _ Hid _ _ _ ->].
  - intros [Hx| ->%list_elem_of_singleton]%elem_of_app; auto.
  - intros (y & Hy & ->)%elem_of_update. destruct (me_id y == me_id e') eqn:E; [by left|]. right. split; [done|by apply eqb_false].
Qed.
Lemma next_keeps x : x ∈ md_entries s → ∃ y, y ∈ md_entries s' ∧ me_id y = me_id x.
Proof.
  intros Hx. destruct (rv_entry _ _ _ _ _ Hr) as [Hf -> _ _|e He _ Hid _ _ _ ->]; [exists x; set_solver|].
  pose proof (update_in (λ x, me_id x == me_id e') (λ _, e') _ x Hx) as U. eexists. split; [exact U|]. cbv beta.
  destruct (me_id x == me_id e') eqn:E; [by apply eqb_true in E|done].
Qed.
Lemma next_member : e' ∈ md_entries s'.
Proof.
  destruct (rv_entry _ _ _ _ _ Hr) as [Hf -> _ _|e He _ Hid _ _ _ ->]; [set_solver|].
  pose proof (update_in (λ x, me_id x == me_id e') (λ _, e') _ e He) as U. cbv beta in U. by rewrite <- Hid, eqb_refl in U.
Qed.
Lemma next_ids : NoDup (map me_id (md_entries s')).
Proof.
  destruct (rv_entry _ _ _ _ _ Hr) as [Hf -> _ _|e He _ Hid _ _ _ ->].
  - rewrite map_app. apply NoDup_app. split; [apply Hs|]. split; [|apply NoDup_singleton].
    intros i (x & -> & Hx)%list_elem_of_fmap Ei%list_elem_of_singleton. by apply (Hf x).
  - rewrite map_update_in; [apply Hs|]. intros x _ E%eqb_true. done.
Qed.
(** What was there before the step. *)
Lemma before_step : count (revision_of (me_id e')) (md_revisions s) = me_revision e' - 1 ∧ numbered mv_revision (revision_of (me_id e')) 0 (md_revisions s) ∧
  map (λ r, (ae_revision (au_event r), ae_content_sha256 (au_event r))) (select (audited (me_id e')) (md_audit s)) =
    map (λ v, (mv_revision v, mv_sha256 v)) (select (revision_of (me_id e')) (md_revisions s)) ∧
  (∀ x, x ∈ md_audit s → audited (me_id e') x = true → of_scope (me_owner e') (me_scope e') x = true) ∧
  1 ≤ me_revision e' ≤ (if live e' then 99 else 100).
Proof.
  destruct (rv_entry _ _ _ _ _ Hr) as [Hf _ H1 Hl|e He _ Hid Hsame Hrev Hmax _].
  - assert (∀ x, x ∈ md_revisions s → revision_of (me_id e') x = false) as Hn.
    { intros x Hx. destruct (mk_revisions _ Hs x Hx) as (y & Hy & E). unfold revision_of. apply eqb_neq. rewrite <- E. by apply Hf. }
    assert (∀ x, x ∈ md_audit s → audited (me_id e') x = false) as Ha.
    { intros x Hx. destruct (mk_events _ Hs x Hx) as (y & Hy & E). unfold audited. apply eqb_neq. rewrite <- E. by apply Hf. }
    assert (∀ {R} (p : R → bool) t, (∀ x, x ∈ t → p x = false) → select p t = []) as Hnil.
    { intros R p t Hp. induction t as [|x t IH]; [done|]. unfold select in *. simpl. rewrite (Hp x) by (by left). apply IH. intros y Hy. apply Hp. by right. }
    unfold numbered, count. rewrite (Hnil _ _ _ Hn), (Hnil _ _ _ Ha). simpl. split_and!; [lia|done|done| |lia|rewrite Hl; lia].
    intros x Hx E. by rewrite Ha in E.
  - rewrite Hid. destruct (mk_entries _ Hs e He) as [_ Hnum Hcount Haud Hscope Hb _]. split_and!; try done; try lia. injection Hsame as -> -> _ _. exact Hscope.
Qed.

Lemma next_ok : entry_ok s' e'.
Proof.
  destruct before_step as (Hc & Hn & Ha & Hsc & Hb). destruct (rv_revisions _ _ _ _ _ Hr) as (Ev & Hid & Hrev).
  destruct (rv_audit _ _ _ _ _ Hr) as (Er & Hof & Hau & Hare & Hash). assert (revision_of (me_id e') v = true) as Hpv by (unfold revision_of; by rewrite Hid, eqb_refl).
  split.
  - rewrite (rv_terms _ _ _ _ _ Hr), select_app, select_deleted, select_words, eqb_refl. simpl. by rewrite mt_term_map.
  - rewrite Ev. apply numbered_next; [done|lia|done].
  - rewrite Ev, count_snoc, Hpv. lia.
  - rewrite Er, Ev, !select_snoc, Hau, Hpv, !map_app, Ha. simpl. by rewrite Hare, Hash, Hrev.
  - rewrite Er. intros x [Hx| ->%list_elem_of_singleton]%elem_of_app; auto.
  - done.
  - intros Hl. destruct (rv_hash _ _ _ _ _ Hr Hl) as [Hh Hv]. split; [done|]. rewrite Ev, select_snoc, Hpv, last_snoc. simpl. by rewrite Hv.
Qed.
Lemma other_ok x : x ∈ md_entries s → me_id x ≠ me_id e' → entry_ok s' x.
Proof.
  intros Hx Hne. destruct (mk_entries _ Hs x Hx) as [Hw Hn Hc Ha Hsc Hb Hh]. destruct (rv_revisions _ _ _ _ _ Hr) as (Ev & Hid & _).
  destruct (rv_audit _ _ _ _ _ Hr) as (Er & _ & Hau & _ & _).
  assert (revision_of (me_id x) v = false) as Hv by (unfold revision_of; rewrite Hid; apply eqb_neq; congruence).
  assert (audited (me_id x) r = false) as Hr'. { unfold audited in *. apply eqb_true in Hau. rewrite Hau. apply eqb_neq. congruence. }
  split.
  - rewrite (rv_terms _ _ _ _ _ Hr), select_app, select_words, (eqb_neq (me_id e') (me_id x)) by congruence. rewrite app_nil_r, select_delete; [done|].
    unfold words_of. intros y Hy%eqb_true. apply eqb_neq. congruence.
  - rewrite Ev. by apply numbered_skip.
  - rewrite Ev, count_snoc, Hv, Hc. lia.
  - by rewrite Er, Ev, !select_snoc, Hr', Hv, !app_nil_r.
  - rewrite Er. intros y [Hy| ->%list_elem_of_singleton]%elem_of_app; [by apply Hsc|congruence].
  - done.
  - by rewrite Ev, select_snoc, Hv, app_nil_r.
Qed.

Theorem revise_ok : memory_ok s'.
Proof.
  destruct (rv_revisions _ _ _ _ _ Hr) as (Ev & Hid & _). destruct (rv_audit _ _ _ _ _ Hr) as (Er & Hof & Hau & _ & _).
  destruct (rv_event _ _ _ _ _ Hr) as [Hseq Hval]. split.
  - apply next_ids.
  - intros x [->|[Hx Hne]]%next_members; [apply next_ok|by apply other_ok].
  - rewrite Ev. intros x [Hx| ->%list_elem_of_singleton]%elem_of_app; [|exists e'; split; [apply next_member|done]].
    destruct (mk_revisions _ Hs x Hx) as (y & Hy & <-). by apply next_keeps.
  - rewrite Er. intros x [Hx| ->%list_elem_of_singleton]%elem_of_app; [|exists e'; split; [apply next_member|by apply eqb_true in Hau]].
    destruct (mk_events _ Hs x Hx) as (y & Hy & <-). by apply next_keeps.
  - intros w c. rewrite Er. pose proof (mk_sequence _ Hs w c) as Hn. destruct (of_scope w c r) eqn:E; [|by apply numbered_skip].
    apply of_scope_spec in Hof as [Hw Hc], E as [Ew Ec]. apply numbered_next; [unfold of_scope; by rewrite Ew, Ec, !eqb_refl| |done].
    rewrite Hseq, <- Hw, <- Hc, Ew, Ec. lia.
  - intros w c. unfold events_of. rewrite Er, select_snoc, map_app. pose proof (mk_chain _ Hs w c) as Hch.
    destruct (of_scope w c r) eqn:E; [|simpl; by rewrite app_nil_r]. apply of_scope_spec in Hof as [Hw Hc], E as [Ew Ec].
    apply chain_app. split; [done|]. simpl map. apply chain_cons. split; [|done]. fold (events_of w c s). congruence.
  - rewrite (rv_retrievals _ _ _ _ _ Hr). apply Hs.
Qed.
End Step.
End Invariant.
