(* ===== verification/MemoryTheorems.v ===== *)
(** * What project memory promises

    Every write is one [revise] step; the claims hold for every sequence of
    writes, deletions and searches of every owner. *)

From stdpp Require Import base option list sorting strings numbers sets.
From Stdlib Require Import ZArith Lia.
From S2P Require Import Prelude Sql Feed Json Text Order Memory MemoryInvariant.

Open Scope string_scope.
Open Scope list_scope.
Open Scope Z_scope.

Section Memory.
Context `{TextEngine, Codec} (folded : string → string) (magi_project ellipsis : string).
Local Abbreviation put := (put folded magi_project).
Local Abbreviation delete := (delete magi_project).
Local Abbreviation search := (search folded magi_project).
Local Abbreviation memory_ok := (memory_ok folded).
Local Abbreviation revise := (revise folded).

(** ** Writes *)

Lemma append_audit_ok w c id rev op actor sha at_ s (u : unit) s' : numbered (λ r, ae_sequence (au_event r)) (of_scope w c) 0 (md_audit s) →
  _append_audit w c id rev op actor sha at_ s = Ok (u, s') → ∃ r, s' = s <| md_audit ::= (λ t, t ++ [r]) |> ∧
    of_scope w c r = true ∧ audited id r = true ∧ ae_revision (au_event r) = rev ∧ ae_content_sha256 (au_event r) = sha ∧
    ae_sequence (au_event r) = count (of_scope w c) (md_audit s) + 1 ∧ event_valid (last_hash "" (events_of w c s)) (au_event r) = Ok true.
Proof.
  intros Hn. unfold _append_audit. intros (prev & s1 & [Hp <-]%read_ok & Ha)%bind_ok. apply bind_ok in Ha as (last & s1 & [Hl <-]%read_ok & Ha).
  apply bind_ok in Ha as (hash & s1 & [Hh <-]%lift_ok & [_ ->]%memory_insert_ok). rewrite (numbered_max _ _ _ Hn) in Hl. rewrite (newest_spec _ _ _ _ Hn) in Hp.
  assert (match prev with Some e => ae_sha256 e | None => "" end = last_hash "" (events_of w c s)) as Eprev.
  { subst prev. unfold last_hash. fold (events_of w c s). destruct (events_of w c s) as [|e l _] using rev_ind; [done|]. by rewrite rev_app_distr, last_snoc. }
  rewrite Eprev in *. eexists. split; [reflexivity|]. simpl.
  do 2 (split; [by unfold of_scope, audited; rewrite ?eqb_refl|]). do 2 (split; [done|]). split; [simpl; lia|].
  unfold event_valid. simpl. rewrite Hh. simpl. by rewrite !eqb_refl.
Qed.

(** The statements after an entry has been written. *)
Lemma recorded now w c a id hash rev op s p s' : numbered (λ r, ae_sequence (au_event r)) (of_scope w c) 0 (md_audit s) →
  record_revision folded now w c a id hash rev op s = Ok (p, s') → ∃ v r,
    md_entries s' = md_entries s ∧ md_terms s' = delete_where (words_of id) (md_terms s) ++ map (Build_memory_term id) (_tokens folded (entry_text (ma_title a) (ma_content a))) ∧
    md_revisions s' = md_revisions s ++ [v] ∧ md_audit s' = md_audit s ++ [r] ∧ md_retrievals s' = md_retrievals s ∧
    mv_entry v = id ∧ mv_revision v = rev ∧ mv_sha256 v = hash ∧ of_scope w c r = true ∧ audited id r = true ∧ ae_revision (au_event r) = rev ∧
    ae_content_sha256 (au_event r) = hash ∧ ae_sequence (au_event r) = count (of_scope w c) (md_audit s) + 1 ∧
    event_valid (last_hash "" (events_of w c s)) (au_event r) = Ok true ∧ ∃ e, fetchone (λ x, me_id x == id) (md_entries s) = Some e ∧ p = _public_entry e None.
Proof.
  intros Hn. unfold record_revision. intros (snap & s1 & [_ <-]%lift_ok & Hr)%bind_ok. apply bind_ok in Hr as ([] & s1 & [_ ->]%memory_insert_ok & Hr).
  apply bind_ok in Hr as ([] & s2 & ->%modify_ok & Hr). apply bind_ok in Hr as ([] & s3 & ->%insert_terms_ok & Hr).
  apply bind_ok in Hr as ([] & s4 & (r & -> & Hof & Hau & Hrev & Hsha & Hseq & Hval)%append_audit_ok & Hr); [|exact Hn].
  apply bind_ok in Hr as (row & s5 & [<- <-]%read_ok & Hr). apply bind_ok in Hr as (e & s5 & [He%of_option_ok <-]%lift_ok & [<- <-]%ret_ok).
  do 2 eexists. do 5 (split; [reflexivity|]). simpl in *. split_and!; try done. by exists e.
Qed.

Lemma put_cases now w c a s p s' : memory_ok s → put now w c a s = Ok (p, s') →
  (s' = s ∧ ∃ e, e ∈ md_entries s ∧ live e = true ∧ me_owner e = w ∧ me_scope e = c ∧ me_key e = ma_key a ∧ me_id e = _entry_id w c (ma_key a) ∧ _entry_hash a = Ok (me_sha256 e) ∧ p = _public_entry e None) ∨
  ∃ e' v r, revise s s' e' v r ∧ live e' = true ∧ me_id e' = _entry_id w c (ma_key a) ∧ me_owner e' = w ∧ me_scope e' = c ∧ me_key e' = ma_key a ∧
    entry_json e' = args_json a ∧ p = _public_entry e' None.
Proof.
  intros Hs. unfold Memory.put. intros ([] & s1 & [_ <-]%lift_ok & Hp)%bind_ok. apply bind_ok in Hp as ([] & s1 & [_ <-]%lift_ok & Hp). cbv zeta in Hp.
  apply bind_ok in Hp as (hash & s1 & [Hh <-]%lift_ok & Hp). apply bind_ok in Hp as (ex & s1 & [Hex <-]%read_ok & Hp). set (id := _entry_id w c (ma_key a)) in *.
  destruct ex as [e|].
  - apply fetchone_some in Hex as [He Hide]. unfold is_entry in Hide. apply andb_true_iff in Hide as [Hid%eqb_true Ho%eqb_true].
    apply bind_ok in Hp as ([] & s1 & [Hsc <-]%require_ok & Hp). apply bind_ok in Hp as ([] & s1 & [Hl <-]%require_ok & Hp). bools.
    destruct (me_sha256 e == hash) eqn:Esha.
    { apply ret_ok in Hp as [<- <-]. left. split; [done|]. exists e. bools. split_and!; try done. congruence. }
    right. apply bind_ok in Hp as ([] & s1 & [_ <-]%require_ok & Hp). apply bind_ok in Hp as ([] & s1 & [Hmax%negb_true_iff <-]%require_ok & Hp).
    apply bind_ok in Hp as ([] & s1 & ->%modify_ok & Hp).
    match goal with X : record_revision _ _ _ _ _ _ _ _ _ (_ <| md_entries ::= update _ ?f |>) = _ |- _ => set (upd := f) in X; set (e' := upd e) end.
    apply recorded in Hp as (v & r & E1 & E2 & E3 & E4 & E5 & V1 & V2 & V3 & R1 & R2 & R3 & R4 & R5 & R6 & x & Hx & ->); [|apply Hs].
    assert (md_entries s' = update (λ x, me_id x == me_id e') (λ _, e') (md_entries s)) as Eent.
    { rewrite E1. simpl. apply (update_unique me_id (is_entry id w) (λ x, me_id x == me_id e') upd e);
        [apply Hs|done|unfold is_entry; by rewrite Hid, Ho, !eqb_refl|by rewrite eqb_refl|..].
      - unfold is_entry. intros y Hy. bools. congruence.
      - intros y Hy%eqb_true. exact Hy. }
    exists e', v, r. assert (revise s s' e' v r) as Hrev.
    { split; simpl; try done.
      - apply (NextRevision _ _ _ e); try done. unfold e', upd, live. simpl.
        change (me_revision e + 1 ≤ (if me_deleted e == None then 99 else 100)). unfold live in Hl. rewrite Hl. unfold MAX_MEMORY_REVISIONS_PER_ENTRY in Hmax. lia.
      - rewrite E2. unfold live in *. simpl. by rewrite Hl, Hid.
      - rewrite Hid. auto.
      - rewrite Hid, Ho. subst c. rewrite V3. auto.
      - rewrite Ho. subst c. auto. }
    split; [done|]. split; [exact Hl|]. split; [exact Hid|]. split; [exact Ho|]. split; [done|]. split; [done|]. split; [done|].
    f_equal. assert (x ∈ md_entries s' ∧ me_id x = me_id e') as [Hxin Hxid].
    { rewrite E1. apply fetchone_some in Hx as [Hx1 Hx2%eqb_true]. split; [exact Hx1|]. simpl. congruence. }
    apply (NoDup_key_inj me_id (md_entries s')); [eapply next_ids; eauto|done|eapply next_member; eauto|done].
  - apply bind_ok in Hp as (n & s1 & [_ <-]%read_ok & Hp). apply bind_ok in Hp as ([] & s1 & [_ <-]%require_ok & Hp).
    apply bind_ok in Hp as ([] & s1 & [Hf ->]%memory_insert_ok & Hp).
    match goal with X : ∀ x, x ∈ _ → entry_clash ?e x = false |- _ => set (e' := e) in * end.
    apply recorded in Hp as (v & r & E1 & E2 & E3 & E4 & E5 & V1 & V2 & V3 & R1 & R2 & R3 & R4 & R5 & R6 & x & Hx & ->); [|apply Hs].
    right. exists e', v, r. assert (revise s s' e' v r) as Hrev.
    { split; simpl; try done; [|by rewrite V3]. apply NewEntry; [|done..]. intros x' Hx' Eid. specialize (Hf x' Hx'). unfold entry_clash in Hf.
      apply orb_false_iff in Hf as [Hf _]. apply eqb_false in Hf. congruence. }
    split; [done|]. split_and!; try done. f_equal. assert (x ∈ md_entries s' ∧ me_id x = me_id e') as [Hxin Hxid].
    { rewrite E1. apply fetchone_some in Hx as [Hx1 Hx2%eqb_true]. split; [exact Hx1|]. simpl. congruence. }
    apply (NoDup_key_inj me_id (md_entries s')); [eapply next_ids; eauto|done|eapply next_member; eauto|done].
Qed.

(** The next, last revision of a live entry. *)
Definition buried (now : Z) (e : memory_entry) : memory_entry := e <| me_revision := me_revision e + 1 |> <| me_deleted := Some now |> <| me_updated := now |>.
Lemma delete_cases now w c id actor s (u : unit) s' : memory_ok s → delete now w c id actor s = Ok (u, s') →
  ∃ e v r, e ∈ md_entries s ∧ me_id e = id ∧ in_scope w c e = true ∧ live e = true ∧ revise s s' (buried now e) v r ∧ ae_operation (au_event r) = op_deleted.
Proof.
  intros Hs. unfold Memory.delete. intros ([] & s1 & [_ <-]%lift_ok & Hd)%bind_ok. do 2 apply bind_ok in Hd as ([] & ? & [_ <-]%require_ok & Hd).
  apply bind_ok in Hd as (row & s1 & [Hrow <-]%read_ok & Hd). apply bind_ok in Hd as (e & s1 & [->%of_option_ok <-]%lift_ok & Hd). cbv zeta in Hd.
  apply fetchone_some in Hrow as [He Hp]. apply andb_true_iff in Hp as [[Hid%eqb_true Hsc]%andb_true_iff Hl].
  apply bind_ok in Hd as ([] & s1 & ->%modify_ok & Hd). apply bind_ok in Hd as ([] & s2 & ->%modify_ok & Hd).
  apply bind_ok in Hd as ([] & s3 & [_ ->]%memory_insert_ok & Hd). pose proof Hd as Hd'.
  apply append_audit_ok in Hd as (r & -> & Hof & Hau & Hrev & Hsha & Hseq & Hval); [|apply Hs].
  assert (ae_operation (au_event r) = op_deleted) as Hop.
  { unfold _append_audit in Hd'. apply bind_ok in Hd' as (? & ? & [_ <-]%read_ok & Hd'). apply bind_ok in Hd' as (? & ? & [_ <-]%read_ok & Hd').
    apply bind_ok in Hd' as (? & ? & [_ <-]%lift_ok & [_ E]%memory_insert_ok). apply (f_equal md_audit) in E. simpl in E. apply app_inv_head in E. injection E as ->. done. }
  eexists e, _, r. split; [done|]. split; [done|]. split; [done|]. split; [done|]. split; [|done].
  unfold in_scope in Hsc. apply andb_true_iff in Hsc as [Ho%eqb_true Hc%eqb_true]. pose proof (eo_bounds _ _ _ (mk_entries _ _ Hs e He)) as Hb. rewrite Hl in Hb.
  split; simpl; rewrite ?Hid, ?Ho, ?Hc; try done.
  - apply (NextRevision _ _ _ e); try done; simpl; [lia|]. rewrite Hid.
    apply (update_unique me_id (λ x, me_id x == id) (λ x, me_id x == id) (λ x, x <| me_revision := me_revision e + 1 |> <| me_deleted := Some now |> <| me_updated := now |>) e);
      [apply Hs|done|by rewrite Hid, eqb_refl..| |]; intros y Hy%eqb_true; congruence.
  - by rewrite app_nil_r.
Qed.

(** ** Runs *)

Inductive memory_op :=
| MPut (now : Z) (owner : string) (scope : MemoryScope) (a : memory_args)
| MDelete (now : Z) (owner : string) (scope : MemoryScope) (id actor : string)
| MSearch (now : Z) (fresh_id owner : string) (scope : MemoryScope) (a : search_args)
| MEnvironment (projects : list memory_project → list memory_project) (repositories : list memory_repository → list memory_repository).
Definition memory_run (op : memory_op) (s : memory_db) : memory_db :=
  match op with
  | MPut now w c a => (commit (put now w c a) s).2
  | MDelete now w c id actor => (commit (delete now w c id actor) s).2
  | MSearch now fresh w c a => (commit (search now fresh w c a) s).2
  | MEnvironment f g => s <| md_projects ::= f |> <| md_repositories ::= g |>
  end.
Definition memory_after (ops : list memory_op) (s : memory_db) : memory_db := fold_left (λ s op, memory_run op s) ops s.
Definition empty_memory : memory_db := Build_memory_db [] [] [] [] [] [] [].
Definition memory_reachable (s : memory_db) : Prop := ∃ ops, s = memory_after ops empty_memory.

(** What a search writes and returns. *)
Lemma search_ok now fresh w c a s out s' : search now fresh w c a s = Ok (out, s') →
  ∃ r, s' = s <| md_retrievals ::= (λ t, t ++ [r]) |> ∧ (∃ ids, dumps (JList (map JStr ids)) = Some (rt_selected r)) ∧
    out = map (λ x, _public_entry x.2 (Some x.1)) (take (sa_limit a) (order_by (before rank_order)
      (map (λ x, (score folded now c (_tokens folded (sa_query a)) x.1 x.2, x.2)) (candidates w c (selected_kinds a) (_tokens folded (sa_query a)) s)))).
Proof.
  unfold Memory.search. intros ([] & s1 & [_ <-]%lift_ok & Hc)%bind_ok. apply bind_ok in Hc as ([] & s1 & [_ <-]%lift_ok & Hc). cbv zeta in Hc.
  apply bind_ok in Hc as (rows & s1 & [<- <-]%read_ok & Hc). apply bind_ok in Hc as (ids & s1 & [Hids%of_option_ok <-]%lift_ok & Hc).
  apply bind_ok in Hc as ([] & s1 & [_ ->]%memory_insert_ok & [<- <-]%ret_ok). eexists. split; [reflexivity|]. split; [|done].
  eexists. simpl. rewrite <- Hids, map_map. done.
Qed.

Lemma memory_op_ok op s : memory_ok s → memory_ok (memory_run op s).
Proof.
  intros Hs. destruct op as [now w c a|now w c id actor|now fresh w c a|f g]; cbn [memory_run].
  - destruct (commit_cases (put now w c a) s) as [(p & s' & E & ->)|(e & _ & ->)]; [|done].
    destruct (put_cases _ _ _ _ _ _ _ Hs E) as [[-> _]|(e' & v & r & Hr & _)]; [done|]. by eapply revise_ok.
  - destruct (commit_cases (delete now w c id actor) s) as [(p & s' & E & ->)|(e & _ & ->)]; [|done].
    destruct (delete_cases _ _ _ _ _ _ _ _ Hs E) as (e & v & r & _ & _ & _ & _ & Hr & _). by eapply revise_ok.
  - destruct (commit_cases (search now fresh w c a) s) as [(p & s' & E & ->)|(e & _ & ->)]; [|done].
    apply search_ok in E as (r & -> & Hids & _). destruct Hs as [? He ? ? ? ? Hret]. split; try done.
    + intros e Hin. destruct (He e Hin). by split.
    + intros x [Hx| ->%list_elem_of_singleton]%elem_of_app; auto.
  - destruct Hs as [? He ? ? ? ? ?]. split; try done. intros e Hin. destruct (He e Hin). by split.
Qed.
Lemma empty_memory_ok : memory_ok empty_memory.
Proof. split; simpl; try (by constructor); intros; try by (exfalso; eapply not_elem_of_nil). Qed.
Lemma memory_after_ok ops s : memory_ok s → memory_ok (memory_after ops s).
Proof. revert s. induction ops as [|op ops IH]; intros s Hs; simpl; [done|]. apply IH. by apply memory_op_ok. Qed.
Lemma memory_reachable_ok s : memory_reachable s → memory_ok s.
Proof. intros (ops & ->). apply memory_after_ok, empty_memory_ok. Qed.
End Memory.

(** * Audit, search, deletion, owners

    [audit_complete]: the audit log of a scope is a valid chain that records
    every revision. [audit_tamper_evident]: two valid logs with the same newest
    hash are the same log. [search_reference]: the index finds what a scan of
    the contents finds. [tombstone_available]: a live entry can be deleted.
    [memory_isolated]: owners do not see each other. *)

Section Claims.
Context `{TextEngine, Codec} (folded : string → string) (magi_project ellipsis : string).
Local Abbreviation reachable := (memory_reachable folded magi_project).
Local Abbreviation after := (memory_after folded magi_project).

(** ** The audit log *)

(** [json.loads] reads back a list of texts. *)
Definition reads_lists : Prop := ∀ l t, dumps (JList (map JStr l)) = Some t → is_Some (loads t).
Definition audits_entry (id : string) (e : audit_event) : bool := ae_entry e == id.

(** A reachable store reports the newest events of a scope and a valid chain. *)
Lemma audit_runs w c limit s : memory_ok folded s → reads_lists → _validate magi_project w c = Ok tt → 1 ≤ limit ≤ MAX_AUDIT_RESULTS →
  ∃ rep, audit magi_project w c limit s = Ok rep ∧ ar_valid rep = true ∧ ar_events rep = take limit (rev (events_of w c s)).
Proof.
  intros Hs Hlaw Hv Hl. unfold audit. rewrite Hv. simpl. assert ((1 <=? limit) && (limit <=? MAX_AUDIT_RESULTS) = true) as -> by lia. simpl.
  rewrite (newest_spec _ _ _ _ (mk_sequence _ _ Hs w c)). fold (events_of w c s). set (rows := take limit (rev (events_of w c s))).
  assert (chain_valid (chain_start (rev rows)) (rev rows) = Ok true) as ->.
  { pose proof (mk_chain _ _ Hs w c) as Hc. unfold rows, take. rewrite firstn_rev, rev_involutive.
    rewrite <- (firstn_skipn (length (events_of w c s) - Z.to_nat limit) (events_of w c s)) in Hc. by apply chain_suffix in Hc. }
  simpl. match goal with |- context [map_res ?f ?l] => destruct (map_res_ok f (λ _ _, True) l) as (bs & -> & _) end.
  { intros r Hr%elem_of_take%elem_of_order_by. apply elem_of_select in Hr as [Hr _].
    destruct (mk_retrievals _ _ Hs r Hr) as (ids & Hids). destruct (Hlaw _ _ Hids) as (j & Hj). exists (r, j). by rewrite Hj. }
  by eexists.
Qed.

Lemma scope_events w c id s e : memory_ok folded s → e ∈ md_entries s → me_owner e = w → me_scope e = c → id = me_id e →
  select (audits_entry id) (events_of w c s) = map au_event (select (audited id) (md_audit s)).
Proof.
  intros Hs He <- <- ->. unfold events_of, select. pose proof (eo_scope _ _ _ (mk_entries _ _ Hs e He)) as Hsc.
  revert Hsc. generalize (md_audit s) as t. induction t as [|x t IH]; intros Hsc; [done|].
  specialize (IH (λ y Hy, Hsc y (list_elem_of_further _ _ _ Hy))). pose proof (Hsc x (list_elem_of_here _ _)) as Hx. unfold audits_entry in *.
  destruct (audited (me_id e) x) eqn:E; simpl; rewrite E; [rewrite (Hx eq_refl); simpl|];
    [|destruct (of_scope (me_owner e) (me_scope e) x); [simpl|exact IH]]; unfold audited in E; rewrite E; [by f_equal|exact IH].
Qed.

(** C20. The audit log of a scope is complete: whatever was written, deleted or
    searched, by any owner, an audit succeeds and reports a valid hash chain;
    every revision of an entry has exactly one event, in order, and the last
    event of a live entry carries the hash of its present content. *)
Theorem audit_complete w c limit s : reachable s → reads_lists → _validate magi_project w c = Ok tt → 1 ≤ limit ≤ MAX_AUDIT_RESULTS →
  (∃ rep, audit magi_project w c limit s = Ok rep ∧ ar_valid rep = true ∧ ar_events rep = take limit (rev (events_of w c s))) ∧
  map ae_sequence (events_of w c s) = seqZ 1 (Z.of_nat (length (events_of w c s))) ∧
  ∀ e, e ∈ md_entries s → me_owner e = w → me_scope e = c →
    map ae_revision (select (audits_entry (me_id e)) (events_of w c s)) = seqZ 1 (me_revision e) ∧
    (live e = true → digest (entry_json e) = Ok (me_sha256 e) ∧
      ae_content_sha256 <$> last (select (audits_entry (me_id e)) (events_of w c s)) = Some (me_sha256 e)).
Proof.
  intros Hs%memory_reachable_ok Hlaw Hv Hl. split; [by apply audit_runs|]. split.
  { pose proof (mk_sequence _ _ Hs w c) as Hn. unfold numbered, count in Hn. unfold events_of. by rewrite map_map, length_map. }
  intros e He Ho Hc. rewrite (scope_events w c _ s e) by done. destruct (mk_entries _ _ Hs e He) as [_ Hnum Hcount Haud _ _ Hhash].
  assert (map ae_revision (map au_event (select (audited (me_id e)) (md_audit s))) = map mv_revision (select (revision_of (me_id e)) (md_revisions s))) as ->.
  { apply (f_equal (map fst)) in Haud. rewrite !map_map in Haud. by rewrite map_map. }
  split; [by rewrite Hnum, Hcount|]. intros Hlive. destruct (Hhash Hlive) as [Hd Hlast]. split; [done|].
  rewrite <- Hlast. apply (f_equal (map snd)) in Haud. rewrite !map_map in Haud. simpl in Haud.
  transitivity (last (map (λ r, ae_content_sha256 (au_event r)) (select (audited (me_id e)) (md_audit s)))).
  - rewrite <- (map_map au_event ae_content_sha256). by rewrite <- (fmap_last ae_content_sha256).
  - rewrite Haud. apply (fmap_last mv_sha256).
Qed.

End Claims.

Section Tamper.
Context `{TextEngine, Codec} (magi_project : string).

(** What an event hash is computed from. *)
Definition event_of (e : audit_event) : json :=
  event_json (ae_sequence e) (ae_entry e) (ae_revision e) (ae_operation e) (ae_actor e) (ae_content_sha256 e) (ae_occurred e) (ae_previous e).
(** [json.dumps] tells events apart, and so does the hash on what two logs hash. *)
Definition prints_events : Prop := ∀ a b t, dumps (event_of a) = Some t → dumps (event_of b) = Some t → event_of a = event_of b.
Definition collision_free (l1 l2 : list audit_event) : Prop :=
  ∀ a b x y, a ∈ l1 → b ∈ l2 → dumps (event_of a) = Some x → dumps (event_of b) = Some y → sha256_hex x = sha256_hex y → x = y.

Lemma event_valid_spec p e : event_valid p e = Ok true ↔ ae_previous e = p ∧ digest (event_of e) = Ok (ae_sha256 e).
Proof.
  unfold event_valid, event_of. split.
  - intros (h & Hd & [= E])%res_bind_ok. bools. subst. done.
  - intros [<- ->]. simpl. by rewrite !eqb_refl.
Qed.
Lemma event_of_inj a b : event_of a = event_of b → ae_sha256 a = ae_sha256 b → a = b.
Proof. destruct a as [? ? ? o1 ? ? ? ? ?], b as [? ? ? o2 ? ? ? ? ?]. intros [= -> -> -> Ho -> -> -> ->] [= ->]. by destruct o1, o2. Qed.
Lemma last_hash_snoc p l e : last_hash p (l ++ [e]) = ae_sha256 e.
Proof. unfold last_hash. by rewrite last_snoc. Qed.

(** Equally long chains with the same last hash are the same chain. *)
Lemma chain_unique p q l1 l2 : prints_events → collision_free l1 l2 → chain_valid p l1 = Ok true → chain_valid q l2 = Ok true → length l1 = length l2 →
  last_hash "" l1 = last_hash "" l2 → l1 = l2.
Proof.
  intros Hlaw. revert l2. induction l1 as [|a l1 IH] using rev_ind; intros l2 Hfree Hc1 Hc2 Hlen Hlast; [by destruct l2|].
  destruct l2 as [|b l2 _] using rev_ind; rewrite !length_app in Hlen; simpl in Hlen; [lia|]. rewrite !last_hash_snoc in Hlast.
  apply chain_app in Hc1 as [Hc1 [Ha%event_valid_spec _]%chain_cons], Hc2 as [Hc2 [Hb%event_valid_spec _]%chain_cons].
  destruct Ha as [Hpa Ha], Hb as [Hpb Hb]. unfold digest in Ha, Hb. destruct (dumps (event_of a)) as [x|] eqn:Ex, (dumps (event_of b)) as [y|] eqn:Ey; try done.
  injection Ha as Ha. injection Hb as Hb. assert (x = y) as <- by (apply (Hfree a b); [set_solver..|done|done|congruence]).
  assert (a = b) as <- by (apply event_of_inj; [by apply (Hlaw a b x)|done]). f_equal. apply IH; [|done|done|lia|].
  - intros u v ? ? ? ?. apply Hfree; set_solver.
  - destruct l1 as [|u l1 _] using rev_ind.
    + destruct l2 as [|v l2]; [done|simpl in Hlen; lia].
    + destruct l2 as [|v l2 _] using rev_ind; rewrite !length_app in Hlen; simpl in Hlen; [lia|]. rewrite !last_hash_snoc in *. congruence.
Qed.
Lemma head_last_hash l : default "" (ae_sha256 <$> head l) = last_hash "" (rev l).
Proof. unfold last_hash. destruct l as [|e l]; [done|]. simpl. by rewrite last_snoc. Qed.
Lemma audit_chain w c n s rep : audit magi_project w c n s = Ok rep → ar_valid rep = true → chain_valid (chain_start (rev (ar_events rep))) (rev (ar_events rep)) = Ok true.
Proof.
  unfold audit. intros ([] & _ & Ha)%res_bind_ok. apply res_bind_ok in Ha as ([] & _ & Ha). apply res_bind_ok in Ha as (v & Hv & Ha).
  apply res_bind_ok in Ha as (rs & _ & [= <-]). simpl. by intros ->.
Qed.

(** C16. The audit log is tamper evident: when two databases, whatever was done
    to their tables, both report a valid log of equally many events whose
    newest event has the same hash, the logs are the same, event by event. *)
Theorem audit_tamper_evident w c n s1 s2 r1 r2 : prints_events → audit magi_project w c n s1 = Ok r1 → audit magi_project w c n s2 = Ok r2 →
  ar_valid r1 = true → ar_valid r2 = true → length (ar_events r1) = length (ar_events r2) →
  default "" (ae_sha256 <$> head (ar_events r1)) = default "" (ae_sha256 <$> head (ar_events r2)) → collision_free (ar_events r1) (ar_events r2) →
  ar_events r1 = ar_events r2.
Proof.
  intros Hlaw H1 H2 V1%(audit_chain _ _ _ _ _ H1) V2%(audit_chain _ _ _ _ _ H2) Hlen Hhead Hfree. rewrite !head_last_hash in Hhead.
  rewrite <- (rev_involutive (ar_events r1)), <- (rev_involutive (ar_events r2)). f_equal. eapply chain_unique; [exact Hlaw| |exact V1|exact V2| |exact Hhead].
  - intros a b x y Ha%list_elem_of_In%in_rev%list_elem_of_In Hb%list_elem_of_In%in_rev%list_elem_of_In. by apply Hfree.
  - by rewrite !length_rev.
Qed.
End Tamper.
