(* ===== verification/MemorySearch.v ===== *)
(** * Search, deletion, owners, contexts

    [search_reference]: the index finds what a scan of the contents finds.
    [tombstone_available] and [deleted_for_good]: a live entry can be deleted,
    for ever. [memory_isolated]: owners do not see each other.
    [context_bounded] and [long_objective_refused]: what a worker is given. *)

From stdpp Require Import base option list sorting strings numbers sets.
From Stdlib Require Import ZArith Lia.
From S2P Require Import Prelude Sql Feed Json Text Order Memory MemoryInvariant MemoryTheorems.

Open Scope string_scope.
Open Scope list_scope.
Open Scope Z_scope.

#[export] Instance rank_ordering : Ordering rank_order.
Proof.
  unfold rank_order. apply lex_ordering; [|apply lex_ordering].
  - exact (@flip_ordering _ _ (on_ordering fst Z.compare)).
  - exact (@flip_ordering _ _ (on_ordering (λ x, me_updated x.2) Z.compare)).
  - exact (@flip_ordering _ _ (on_ordering (λ x, me_id x.2) String.compare)).
Qed.

Section Search.
Context `{TextEngine, Codec} (folded : string → string) (magi_project ellipsis : string).
Local Abbreviation reachable := (memory_reachable folded magi_project).
Local Abbreviation after := (memory_after folded magi_project).
Local Abbreviation memory_ok := (memory_ok folded).

(** ** The index and the contents *)

(** How many words of the query an entry holds. *)
Definition shared (query : list string) (r : memory_entry) : Z :=
  count (λ w, listed w query) (_tokens folded (entry_text (me_title r) (me_content r))).
Definition found_by (w : string) (c : MemoryScope) (kinds query : list string) (r : memory_entry) : bool :=
  readable w c r && live r && listed (me_kind r) kinds && (0 <? shared query r).
(** A search without an index. *)
Definition scan (now : Z) (w : string) (c : MemoryScope) (kinds query : list string) (s : memory_db) : list (Z * memory_entry) :=
  order_by (before rank_order) (map (λ r, (score folded now c query (shared query r) r, r)) (select (found_by w c kinds query) (md_entries s))).

Lemma count_words p id t : count (λ x, (mt_entry x == id) && p (mt_term x)) t = count p (map mt_term (select (words_of id) t)).
Proof.
  unfold count, select. f_equal. induction t as [|x t IH]; [done|]. simpl. unfold words_of at 1.
  destruct (mt_entry x == id); simpl; [|exact IH]. destruct (p (mt_term x)); simpl; by rewrite IH.
Qed.
Lemma matched_shared s query r : memory_ok s → r ∈ md_entries s → live r = true → matched_terms (md_terms s) query r = shared query r.
Proof.
  intros Hs Hr Hl. unfold matched_terms, shared. rewrite (count_words (λ w, listed w query)), (eo_words _ _ _ (mk_entries _ _ Hs r Hr)). by rewrite Hl.
Qed.
Lemma select_ext_in {R} (p q : R → bool) t : (∀ x, x ∈ t → p x = q x) → select p t = select q t.
Proof.
  unfold select. induction t as [|x t IH]; intros Hpq; [done|]. simpl. rewrite (Hpq x) by (by left). rewrite IH; [done|]. intros y Hy. apply Hpq. by right.
Qed.

Lemma candidates_scan w c kinds query s : memory_ok s → count (found_by w c kinds query) (md_entries s) ≤ MAX_MEMORY_SEARCH_CANDIDATES →
  candidates w c kinds query s ≡ₚ map (λ r, (shared query r, r)) (select (found_by w c kinds query) (md_entries s)).
Proof.
  intros Hs Hn. unfold candidates. cbv zeta. rewrite (select_ext_in _ (found_by w c kinds query)).
  2: { intros r Hr. unfold found_by. destruct (readable w c r), (live r) eqn:El; simpl; try done. by rewrite (matched_shared _ _ _ Hs Hr El). }
  assert (map (λ r, (matched_terms (md_terms s) query r, r)) (select (found_by w c kinds query) (md_entries s)) =
          map (λ r, (shared query r, r)) (select (found_by w c kinds query) (md_entries s))) as ->.
  { apply map_ext_in. intros r [Hr Hf]%list_elem_of_In%elem_of_select. unfold found_by in Hf. bools. by rewrite (matched_shared _ _ _ Hs Hr). }
  unfold take. rewrite firstn_all2; [apply order_by_perm|]. rewrite order_by_perm, length_map. unfold count in Hn. lia.
Qed.
Lemma scan_unique s w c kinds query now x y : memory_ok s → let l := map (λ r, (score folded now c query (shared query r) r, r)) (select (found_by w c kinds query) (md_entries s)) in
  x ∈ l → y ∈ l → rank_order x y = Eq → x = y.
Proof.
  intros Hs l (a & -> & Ha)%list_elem_of_fmap (b & -> & Hb)%list_elem_of_fmap. unfold rank_order, lex. cbn [fst snd].
  apply elem_of_select in Ha as [Ha _], Hb as [Hb _]. do 2 (case_match; try done). intros E%String.compare_eq_iff. by rewrite (entry_unique _ _ _ _ Hs Ha Hb).
Qed.

Definition prints_ids : Prop := ∀ l, is_Some (dumps (JList (map JStr l))).

(** C19. Searching by the index is searching the contents: a valid search
    succeeds, changes no entry, and, when at most 500 entries match, returns
    the best of exactly those live entries of the readable scopes whose own
    text shares a word with the query, ranked by their score. *)
Theorem search_reference now fresh w c a s : reachable s → prints_ids → _validate magi_project w c = Ok tt → check_search folded a = Ok tt →
  (∀ r, r ∈ md_retrievals s → rt_id r ≠ "pmr_" +:+ fresh) →
  count (found_by w c (selected_kinds a) (_tokens folded (sa_query a))) (md_entries s) ≤ MAX_MEMORY_SEARCH_CANDIDATES →
  ∃ r, search folded magi_project now fresh w c a s =
    Ok (map (λ x, _public_entry x.2 (Some x.1)) (take (sa_limit a) (scan now w c (selected_kinds a) (_tokens folded (sa_query a)) s)), s <| md_retrievals ::= (λ t, t ++ [r]) |>).
Proof.
  intros Hs%memory_reachable_ok Hlaw Hv Hc Hfresh Hn. set (q := _tokens folded (sa_query a)) in *.
  assert (order_by (before rank_order) (map (λ x, (score folded now c q x.1 x.2, x.2)) (candidates w c (selected_kinds a) q s)) = scan now w c (selected_kinds a) q s) as E.
  { unfold scan. symmetry. apply (order_by_unique rank_order); [|intros x y; by apply scan_unique].
    rewrite (candidates_scan _ _ _ _ _ Hs Hn). by rewrite map_map. }
  unfold search. erewrite bind_run by (by rewrite Hv). erewrite bind_run by (by rewrite Hc). cbv zeta. erewrite bind_run by reflexivity. fold q. rewrite E.
  set (selected := take (sa_limit a) (scan now w c (selected_kinds a) q s)).
  destruct (Hlaw (map (λ x, me_id x.2) selected)) as (ids & Hids). rewrite map_map in Hids. erewrite bind_run by (by rewrite Hids).
  eexists. erewrite (bind_run _ _ _ tt); [reflexivity|]. apply memory_insert_ok. split; [|reflexivity]. intros x Hx. unfold retrieval_clash. simpl. apply eqb_neq.
  intros E'. by apply (Hfresh x Hx).
Qed.
End Search.

Section Deletion.
Context `{TextEngine, Codec} (folded : string → string) (magi_project ellipsis : string).
Local Abbreviation reachable := (memory_reachable folded magi_project).
Local Abbreviation after := (memory_after folded magi_project).
Local Abbreviation run := (memory_run folded magi_project).
Local Abbreviation memory_ok := (memory_ok folded).

(** ** One operation *)

Definition actor_of (op : memory_op) : option string :=
  match op with MPut _ w _ _ | MDelete _ w _ _ _ | MSearch _ _ w _ _ => Some w | MEnvironment _ _ => None end.
(** What an operation leaves alone, when it is not a [revise] step. *)
Definition same_entries (s s' : memory_db) : Prop := md_entries s' = md_entries s ∧ md_terms s' = md_terms s ∧ md_audit s' = md_audit s.
Lemma memory_step op s : memory_ok s →
  (same_entries s (run op s) ∧ (md_retrievals (run op s) = md_retrievals s ∨ ∃ r, md_retrievals (run op s) = md_retrievals s ++ [r] ∧ actor_of op = Some (rt_owner r))) ∨
  ∃ e' v r, revise folded s (run op s) e' v r ∧ actor_of op = Some (me_owner e').
Proof.
  intros Hs. assert (same_entries s s) as Hsame by done. destruct op as [now w c a|now w c id actor|now fresh w c a|f g]; cbn [memory_run].
  - destruct (commit_cases (put folded magi_project now w c a) s) as [(p & s' & E & ->)|(e & _ & ->)]; [|auto].
    destruct (put_cases _ _ _ _ _ _ _ _ _ Hs E) as [[-> _]|(e' & v & r & Hr & _ & _ & Ho & _)]; [auto|]. right. exists e', v, r. simpl. by rewrite Ho.
  - destruct (commit_cases (delete magi_project now w c id actor) s) as [(p & s' & E & ->)|(e & _ & ->)]; [|auto].
    destruct (delete_cases _ _ _ _ _ _ _ _ _ _ Hs E) as (e & v & r & _ & _ & Hsc & _ & Hr & _). right. exists (buried now e), v, r. split; [done|].
    unfold in_scope in Hsc. by apply andb_true_iff in Hsc as [<-%eqb_true _].
  - destruct (commit_cases (search folded magi_project now fresh w c a) s) as [(p & s' & E & ->)|(e & _ & ->)]; [|auto]. left.
    unfold search in E. apply bind_ok in E as ([] & ? & [_ <-]%lift_ok & E). apply bind_ok in E as ([] & ? & [_ <-]%lift_ok & E). cbv zeta in E.
    apply bind_ok in E as (? & ? & [_ <-]%read_ok & E). apply bind_ok in E as (? & ? & [_ <-]%lift_ok & E).
    apply bind_ok in E as ([] & ? & [_ ->]%memory_insert_ok & [_ <-]%ret_ok). split; [done|]. right. by eexists.
  - auto.
Qed.

(** ** Deletion *)

Lemma dead_stays op s e : memory_ok s → e ∈ md_entries s → live e = false → e ∈ md_entries (run op s).
Proof.
  intros Hs He Hl. destruct (memory_step op s Hs) as [[(-> & _) _]|(e' & v & r & Hr & _)]; [done|].
  destruct (rv_entry _ _ _ _ _ _ Hr) as [_ -> _ _|e0 He0 Hl0 Hid _ _ _ ->]; [set_solver|].
  pose proof (update_in (λ x, me_id x == me_id e') (λ _, e') _ e He) as U. cbv beta in U. destruct (me_id e == me_id e') eqn:E; [|done].
  apply eqb_true in E. rewrite (entry_unique _ _ e e0 Hs He He0) in Hl by congruence. congruence.
Qed.
Lemma dead_after ops s e : memory_ok s → e ∈ md_entries s → live e = false → e ∈ md_entries (after ops s).
Proof.
  revert s. induction ops as [|op ops IH]; intros s Hs He Hl; [done|]. apply IH; [by apply memory_op_ok|by apply dead_stays|done].
Qed.
Lemma candidates_live w c kinds query s x : x ∈ candidates w c kinds query s → x.2 ∈ md_entries s ∧ live x.2 = true.
Proof.
  unfold candidates. intros Hx%elem_of_take%elem_of_order_by. apply list_elem_of_fmap in Hx as (r & -> & [Hr Hf]%elem_of_select). simpl. by bools.
Qed.

(** A deleted entry is gone for good: whatever is written, deleted or
    searched afterwards, its row stays as it is, no search of any scope finds
    it, and its identity cannot be written again. *)
Theorem deleted_for_good e s : reachable s → e ∈ md_entries s → live e = false → ∀ ops,
  e ∈ md_entries (after ops s) ∧ (∀ w c kinds query x, x ∈ candidates w c kinds query (after ops s) → me_id x.2 ≠ me_id e) ∧
  ∀ now w c a, _entry_id w c (ma_key a) = me_id e → ∃ er, put folded magi_project now w c a (after ops s) = Err er.
Proof.
  intros Hs%memory_reachable_ok He Hl ops. pose proof (dead_after ops s e Hs He Hl) as He'. pose proof (memory_after_ok _ magi_project ops _ Hs) as Hs'.
  generalize dependent (after ops s). intros s' He' Hs'. split; [done|]. split.
  - intros w c kinds query x [Hx Hlx]%candidates_live E. rewrite (entry_unique _ _ _ _ Hs' Hx He' E) in Hlx. congruence.
  - intros now w c a Hid. destruct (put folded magi_project now w c a s') as [[p s2]|er] eqn:E; [exfalso|by eexists].
    destruct (put_cases _ _ _ _ _ _ _ _ _ Hs' E) as [(_ & x & Hx & Hlx & _ & _ & _ & Hxid & _)|(e' & v & r & Hr & Hl' & Hid' & _)].
    + rewrite (entry_unique _ _ x e Hs' Hx He') in Hlx by congruence. congruence.
    + destruct (rv_entry _ _ _ _ _ _ Hr) as [Hf _ _ _|e0 He0 Hl0 Hid0 _ _ _ _]; [apply (Hf e He'); congruence|].
      rewrite (entry_unique _ _ e0 e Hs' He0 He') in Hl0 by congruence. congruence.
Qed.

(** The event a deletion of [e] records. *)
Definition tombstone_hash (e : memory_entry) : string := sha256_hex (tombstone_text (me_id e) (me_revision e + 1) (me_sha256 e)).
Definition tombstone_event (now : Z) (actor : string) (e : memory_entry) (s : memory_db) : json :=
  event_json (count (of_scope (me_owner e) (me_scope e)) (md_audit s) + 1) (me_id e) (me_revision e + 1) op_deleted actor (tombstone_hash e) now
    (last_hash "" (events_of (me_owner e) (me_scope e) s)).

Lemma newest_last w c s : memory_ok s → match head (newest 1 w c (md_audit s)) with Some e => ae_sha256 e | None => "" end = last_hash "" (events_of w c s).
Proof.
  intros Hs. rewrite (newest_spec _ _ _ _ (mk_sequence _ _ Hs w c)). unfold last_hash. fold (events_of w c s).
  destruct (events_of w c s) as [|e l _] using rev_ind; [done|]. by rewrite rev_app_distr, last_snoc.
Qed.
Lemma revision_fresh e s : memory_ok s → e ∈ md_entries s → ∀ v, v ∈ md_revisions s → mv_entry v = me_id e → mv_revision v ≤ me_revision e.
Proof.
  intros Hs He v Hv Hid. destruct (mk_entries _ _ Hs e He) as [_ Hn Hc _ _ _ _]. rewrite <- Hc.
  destruct (numbered_elem mv_revision (revision_of (me_id e)) 0 (md_revisions s) v Hn Hv) as [_ ?]; [unfold revision_of; by rewrite Hid, eqb_refl|lia].
Qed.

(** A live entry can always be deleted, however often it was revised: the
    last revision is kept free for its tombstone. (The only failure left is a
    hash that an earlier event already has.) *)
Theorem tombstone_available now w c actor e s t : reachable s → e ∈ md_entries s → live e = true → in_scope w c e = true →
  _validate magi_project w c = Ok tt → _SAFE_ENTRY (me_id e) = true → _SAFE_ACTOR actor = true →
  dumps (tombstone_event now actor e s) = Some t → (∀ x, x ∈ md_audit s → ae_sha256 (au_event x) ≠ sha256_hex t) →
  ∃ s', delete magi_project now w c (me_id e) actor s = Ok (tt, s') ∧ buried now e ∈ md_entries s' ∧ me_revision (buried now e) ≤ MAX_MEMORY_REVISIONS_PER_ENTRY ∧
    select (words_of (me_id e)) (md_terms s') = [].
Proof.
  intros Hs%memory_reachable_ok He Hl Hsc Hv Hid Hac Ht Hfresh. pose proof Hsc as Hsc'. unfold in_scope in Hsc'. apply andb_true_iff in Hsc' as [Ho%eqb_true Hc%eqb_true].
  pose proof (eo_bounds _ _ _ (mk_entries _ _ Hs e He)) as Hb. rewrite Hl in Hb.
  unfold delete. erewrite bind_run by (by rewrite Hv). erewrite bind_run by (by rewrite Hid). erewrite bind_run by (by rewrite Hac).
  assert (fetchone (λ r, (me_id r == me_id e) && in_scope w c r && live r) (md_entries s) = Some e) as Hf.
  { apply (fetchone_unique me_id); [apply Hs|done|by rewrite eqb_refl, Hsc, Hl|intros x Hx; by bools]. }
  erewrite bind_run by (unfold read; by rewrite Hf). erewrite bind_run by reflexivity. cbv zeta.
  erewrite bind_run by reflexivity. erewrite bind_run by reflexivity.
  erewrite (bind_run _ _ _ tt). 2: { apply memory_insert_ok. split; [|reflexivity]. intros v Hv'. simpl in Hv'. unfold revision_clash. simpl.
    apply andb_false_iff. destruct (me_id e == mv_entry v) eqn:E; [right|by left]. apply eqb_true in E. pose proof (revision_fresh e s Hs He v Hv' (eq_sym E)). lia. }
  unfold _append_audit. erewrite bind_run by reflexivity. erewrite bind_run by reflexivity. simpl md_audit. cbv zeta.
  rewrite (newest_last w c s Hs), (numbered_max _ _ _ (mk_sequence _ _ Hs w c)).
  unfold tombstone_event, tombstone_hash in Ht. rewrite Ho, Hc in Ht. erewrite bind_run by (unfold digest; by rewrite Ht).
  eexists. split; [|split; [|split]].
  - apply memory_insert_ok. split; [|reflexivity]. intros x Hx. simpl in Hx. unfold audit_clash. apply orb_false_iff. split; [|apply eqb_neq; simpl; intros E; by apply (Hfresh x Hx)].
    cbn [au_owner au_scope au_event ae_sequence]. destruct (of_scope w c x) eqn:E; [|done]. cbn [andb].
    destruct (numbered_elem _ _ 0 _ x (mk_sequence _ _ Hs w c) Hx E) as [_ ?]. lia.
  - simpl. unfold buried. pose proof (update_in (λ x, me_id x == me_id e) (λ x, x <| me_revision := me_revision e + 1 |> <| me_deleted := Some now |> <| me_updated := now |>) _ e He) as U.
    cbv beta in U. by rewrite eqb_refl in U.
  - unfold MAX_MEMORY_REVISIONS_PER_ENTRY. simpl. lia.
  - simpl. apply select_deleted.
Qed.
End Deletion.
