(* ===== verification/MemoryOwners.v ===== *)
(** * Owners and contexts of project memory

    [memory_isolated]: what other owners do changes nothing an owner can read.
    [context_bounded] and [long_query_refused]: what a worker is given. *)

From stdpp Require Import base option list sorting strings numbers sets.
From Stdlib Require Import ZArith Lia.
From S2P Require Import Prelude Sql Feed Json Text Order Memory MemoryInvariant MemoryTheorems MemorySearch.

Open Scope string_scope.
Open Scope list_scope.
Open Scope Z_scope.

Section Owners.
Context `{TextEngine, Codec} (folded : string → string) (magi_project : string).
Local Abbreviation reachable := (memory_reachable folded magi_project).
Local Abbreviation after := (memory_after folded magi_project).
Local Abbreviation run := (memory_run folded magi_project).
Local Abbreviation memory_ok := (memory_ok folded).

Definition own (v : string) (e : memory_entry) : bool := me_owner e == v.
(** Two databases that hold the same for owner [v]. *)
Record same_view (v : string) (s s' : memory_db) : Prop := {
  sv_entries : select (own v) (md_entries s') = select (own v) (md_entries s);
  sv_words : ∀ e, e ∈ md_entries s → own v e = true → select (words_of (me_id e)) (md_terms s') = select (words_of (me_id e)) (md_terms s);
  sv_audit : select (λ r, au_owner r == v) (md_audit s') = select (λ r, au_owner r == v) (md_audit s);
  sv_retrievals : select (λ r, rt_owner r == v) (md_retrievals s') = select (λ r, rt_owner r == v) (md_retrievals s);
}.

Lemma step_view v op s : memory_ok s → actor_of op ≠ Some v → same_view v s (run op s).
Proof.
  intros Hs Ha. destruct (memory_step folded magi_project op s Hs) as [[(E1 & E2 & E3) Hr]|(e' & x & r & Hr & Ho)].
  - split; rewrite ?E1, ?E2, ?E3; try done. destruct Hr as [->|(r & -> & Hr)]; [done|]. rewrite select_app. simpl.
    rewrite (eqb_neq (rt_owner r) v) by congruence. apply app_nil_r.
  - assert (me_owner e' ≠ v) as Hne by congruence. destruct (rv_audit _ _ _ _ _ _ Hr) as (Er & [Hof _]%of_scope_spec & _). split.
    + destruct (rv_entry _ _ _ _ _ _ Hr) as [_ -> _ _|e He _ Hid Hsame _ _ ->].
      * rewrite select_app. simpl. unfold own at 2. rewrite (eqb_neq (me_owner e') v) by done. apply app_nil_r.
      * apply select_update_other. intros y Hy E%eqb_true. unfold own. split; [|by apply eqb_neq]. apply eqb_neq.
        rewrite (entry_unique _ _ y e Hs Hy He) by congruence. congruence.
    + intros e He Hv. rewrite (rv_terms _ _ _ _ _ _ Hr), select_app, select_words.
      assert (me_id e' ≠ me_id e) as Hid.
      { intros Hid. unfold own in Hv. apply eqb_true in Hv. destruct (rv_entry _ _ _ _ _ _ Hr) as [Hf _ _ _|e0 He0 _ Hid0 Hsame _ _ _]; [by apply (Hf e He)|].
        rewrite (entry_unique _ _ e0 e Hs He0 He) in Hsame by congruence. congruence. }
      rewrite (eqb_neq _ _ Hid), app_nil_r. apply select_delete. unfold words_of. intros y Hy%eqb_true. apply eqb_neq. congruence.
    + rewrite Er, select_snoc. rewrite (eqb_neq (au_owner r) v) by congruence. apply app_nil_r.
    + by rewrite (rv_retrievals _ _ _ _ _ _ Hr).
Qed.
Lemma view_entry v s s' e : same_view v s s' → e ∈ md_entries s → own v e = true → e ∈ md_entries s'.
Proof. intros Hv He Ho. assert (e ∈ select (own v) (md_entries s')) as Hin by (rewrite (sv_entries _ _ _ Hv); by apply elem_of_select). by apply elem_of_select in Hin as [? _]. Qed.
Lemma view_after v ops s : memory_ok s → Forall (λ op, actor_of op ≠ Some v) ops → same_view v s (after ops s).
Proof.
  intros Hs Hops. revert s Hs. induction Hops as [|op ops Hop Hops IH]; intros s Hs; [by split|].
  pose proof (step_view v op s Hs Hop) as V1. pose proof (IH (run op s) (memory_op_ok _ _ op s Hs)) as V2. change (after (op :: ops) s) with (after ops (run op s)).
  split; [by rewrite (sv_entries _ _ _ V2), (sv_entries _ _ _ V1)| |by rewrite (sv_audit _ _ _ V2), (sv_audit _ _ _ V1)|by rewrite (sv_retrievals _ _ _ V2), (sv_retrievals _ _ _ V1)].
  intros e He Ho. rewrite (sv_words _ _ _ V2 e (view_entry _ _ _ _ V1 He Ho) Ho). by apply (sv_words _ _ _ V1).
Qed.

Lemma view_matched v s s' query e : same_view v s s' → e ∈ md_entries s → own v e = true → matched_terms (md_terms s') query e = matched_terms (md_terms s) query e.
Proof. intros Hv He Ho. unfold matched_terms. by rewrite !(count_words (λ w, listed w query)), (sv_words _ _ _ Hv e He Ho). Qed.
Lemma readable_own v c r : readable v c r = true → own v r = true.
Proof. unfold readable, own. cbv zeta. intros Hr. by repeat apply andb_true_iff in Hr as [Hr _]. Qed.
Lemma view_candidates v s s' c kinds query : same_view v s s' → candidates v c kinds query s' = candidates v c kinds query s.
Proof.
  intros Hv. unfold candidates. cbv zeta. do 2 f_equal.
  rewrite (select_within _ (own v) (md_entries s')), (select_within _ (own v) (md_entries s)), (sv_entries _ _ _ Hv) by (intros r Hr; bools; by eapply readable_own).
  rewrite (select_ext_in _ (λ r, readable v c r && live r && listed (me_kind r) kinds && (0 <? matched_terms (md_terms s) query r))).
  - apply map_ext_in. intros r [[Hr Ho]%elem_of_select _]%list_elem_of_In%elem_of_select. by rewrite (view_matched _ _ _ _ _ Hv Hr Ho).
  - intros r [Hr Ho]%elem_of_select. by rewrite (view_matched _ _ _ _ _ Hv Hr Ho).
Qed.
Lemma view_audit v s s' c n : same_view v s s' → audit magi_project v c n s' = audit magi_project v c n s.
Proof.
  intros Hv. unfold audit, newest.
  rewrite (select_within (of_scope v c) (λ r, au_owner r == v) (md_audit s')), (select_within (of_scope v c) (λ r, au_owner r == v) (md_audit s)), (sv_audit _ _ _ Hv)
    by (unfold of_scope; intros r Hr; by apply andb_true_iff in Hr as [? _]).
  rewrite (select_within (λ r, (rt_owner r == v) && (rt_scope r == c)) (λ r, rt_owner r == v) (md_retrievals s')),
    (select_within (λ r, (rt_owner r == v) && (rt_scope r == c)) (λ r, rt_owner r == v) (md_retrievals s)), (sv_retrievals _ _ _ Hv) by (intros r Hr; by apply andb_true_iff in Hr as [? _]).
  done.
Qed.

(** Owners do not see each other: whatever other owners write, delete or
    search, in whatever scopes, every search of an owner finds the same entries
    with the same counts, and every audit reports the same. *)
Theorem memory_isolated v ops s : reachable s → Forall (λ op, actor_of op ≠ Some v) ops →
  (∀ c kinds query, candidates v c kinds query (after ops s) = candidates v c kinds query s) ∧
  (∀ c n, audit magi_project v c n (after ops s) = audit magi_project v c n s).
Proof.
  intros Hs%memory_reachable_ok Hops. pose proof (view_after v ops s Hs Hops) as Hv. split; intros; [by apply view_candidates|by apply view_audit].
Qed.
End Owners.

(** ** Contexts *)

Section Contexts.
Context `{TextEngine, Codec} (folded : string → string) (magi_project ellipsis : string).
Local Abbreviation selected_context := (selected_context folded magi_project ellipsis).
Local Abbreviation assemble_worker := (assemble_worker folded magi_project ellipsis).

Lemma str_len_app s t : str_len (s +:+ t) = str_len s + str_len t.
Proof. unfold str_len. induction s as [|c s IH]; [done|]. change (String c s +:+ t) with (String c (s +:+ t)). simpl String.length. lia. Qed.
Lemma str_len_take n s : str_len (str_take n s) ≤ Z.of_nat n.
Proof. unfold str_len, str_take. revert s. induction n as [|n IH]; intros [|c s]; simpl; try lia. specialize (IH s). lia. Qed.
Lemma str_len_rstrip s : str_len (rstrip s) ≤ str_len s.
Proof. unfold str_len. induction s as [|c s IH]; simpl; [lia|]. destruct (rstrip s) as [|d t]; simpl in *; [destruct (is_space c); simpl; lia|lia]. Qed.

Lemma item_content e : str_len ellipsis = 1 → str_len (ci_content (context_item_of ellipsis e)) ≤ MAX_CONTEXT_ITEM_CHARS.
Proof.
  intros He. unfold context_item_of. cbn [ci_content]. destruct (MAX_CONTEXT_ITEM_CHARS <? str_len (pe_content e)) eqn:E; [|unfold MAX_CONTEXT_ITEM_CHARS in *; lia].
  rewrite str_len_app, He. pose proof (str_len_rstrip (str_take (Z.to_nat (MAX_CONTEXT_ITEM_CHARS - 1)) (pe_content e))) as H1.
  pose proof (str_len_take (Z.to_nat (MAX_CONTEXT_ITEM_CHARS - 1)) (pe_content e)) as H2. unfold MAX_CONTEXT_ITEM_CHARS in *. lia.
Qed.

(** The characters the items of a context are written in. *)
Definition item_size (i : context_item) : Z := match dumps (item_json i) with Some t => str_len t | None => 0 end.
Definition context_size (l : list context_item) : Z := foldr (λ i n, item_size i + n) 0 l.
Lemma pack_ok used l items : used ≤ MAX_CONTEXT_CHARS → pack ellipsis used l = Ok items →
  used + context_size items ≤ MAX_CONTEXT_CHARS ∧ items `sublist_of` map (context_item_of ellipsis) l.
Proof.
  revert used items. induction l as [|e l IH]; intros used items Hu; [intros [= <-]; split; [simpl; lia|constructor]|].
  cbn [pack]. cbv zeta. intros (t & Ht%of_option_ok & Hp)%res_bind_ok. destruct (MAX_CONTEXT_CHARS <? used + str_len t) eqn:E.
  - destruct (IH _ _ Hu Hp) as [H1 H2]. split; [done|]. by apply sublist_cons.
  - apply res_bind_ok in Hp as (rest & Hr & [= <-]). destruct (IH (used + str_len t) rest ltac:(lia) Hr) as [H1 H2].
    split; [|by apply sublist_skip]. simpl. unfold item_size at 1. rewrite Ht. lia.
Qed.

(** What a model is given from memory is bounded: at most as many items as
    asked for, 12 at most, of at most 1200 characters of content each, 16000
    characters in all, and every item is the title and content of a live entry
    that the scope may read. *)
Theorem context_bounded now fresh w c query purpose actor limit s items s' : str_len ellipsis = 1 →
  selected_context now fresh w c query purpose actor limit s = Ok (items, s') →
  Z.of_nat (length items) ≤ Z.max 0 (Z.min limit MAX_CONTEXT_ENTRIES) ∧ context_size items ≤ MAX_CONTEXT_CHARS ∧
  ∀ i, i ∈ items → str_len (ci_content i) ≤ MAX_CONTEXT_ITEM_CHARS ∧
    ∃ e, e ∈ md_entries s ∧ live e = true ∧ readable w c e = true ∧ i = context_item_of ellipsis (_public_entry e None).
Proof.
  intros Hell. unfold Memory.selected_context. destruct (_tokens folded query) as [|x q'] eqn:Eq.
  { intros [<- <-]%ret_ok. split; [simpl; lia|]. split; [done|]. by intros i ?%not_elem_of_nil. }
  intros (entries & s1 & He & [Hp <-]%lift_ok)%bind_ok. apply search_ok in He as (r & -> & _ & ->).
  destruct (pack_ok 0 _ _ ltac:(done) Hp) as [Hsize Hsub]. split; [|split; [done|]].
  - pose proof (sublist_length _ _ Hsub) as Hlen. rewrite !length_map in Hlen. unfold take in Hlen. cbn [sa_limit] in Hlen.
    rewrite firstn_le_length in Hlen. lia.
  - intros i Hi. pose proof (sublist_subseteq _ _ Hsub i Hi) as Hin.
    apply list_elem_of_fmap in Hin as (p & -> & Hin). split; [by apply item_content|]. apply list_elem_of_fmap in Hin as (y & -> & Hy%elem_of_take%elem_of_order_by).
    apply list_elem_of_fmap in Hy as (z & -> & Hz). simpl. exists z.2. unfold candidates in Hz. apply elem_of_take, elem_of_order_by in Hz.
    apply list_elem_of_fmap in Hz as (e & -> & [Hz Hf]%elem_of_select). simpl. split; [done|]. by bools.
Qed.

Lemma validate_error w c e : _validate magi_project w c = Err e → e = MemoryValueError.
Proof.
  unfold _validate, validate, for_owner, validate, ensure. repeat match goal with |- context [if ?b then _ else _] => destruct b end; simpl; try congruence.
  all: repeat match goal with |- context [if ?b then _ else _] => destruct b end; simpl; congruence.
Qed.

(** C22. A worker's context cannot be built for a long objective: memory is
    searched with the whole objective, and a search refuses a query of more
    than 1000 characters, so every objective between 1000 and the 4000
    characters that a contract allows makes the submission fail. *)
Theorem long_objective_refused now fresh w c objective s : MAX_MEMORY_QUERY_CHARS < str_len objective → _tokens folded objective ≠ [] →
  assemble_worker now fresh w c objective s = Err MemoryValueError.
Proof.
  intros Hlen Ht. unfold Memory.assemble_worker. apply bind_fail. unfold Memory.selected_context. destruct (_tokens folded objective) as [|x q] eqn:Eq; [done|].
  apply bind_fail. unfold search. destruct (_validate magi_project w c) as [[]|er] eqn:Ev.
  - erewrite bind_run by reflexivity. apply bind_fail. unfold check_search. cbn [sa_query]. assert (MAX_MEMORY_QUERY_CHARS <? str_len objective = true) as -> by lia.
    by rewrite orb_true_r.
  - apply bind_fail. by rewrite (validate_error w c er Ev).
Qed.
End Contexts.
