(* ===== verification/Samples.v ===== *)
(** * Stand-ins for the witnesses

    A printer of JSON texts and a function with values of the shape of a SHA-256
    digest. No theorem is about them: the witnesses run on them. *)

From stdpp Require Import base option list strings numbers pretty.
From Stdlib Require Import ZArith.
From S2P Require Import Prelude Json Text.

Open Scope string_scope.
Open Scope list_scope.
Open Scope Z_scope.

(** A number of 64 hexadecimal digits. *)
Definition step_hash (h : Z) (c : Ascii.ascii) : Z :=
  Z.land (h * 1099511628211 + Z.of_N (Ascii.N_of_ascii c) + 1) (Z.ones 64).
Fixpoint hex_digits (n : nat) (h : Z) (acc : string) : string :=
  match n with
  | O => acc
  | S n => let d := Z.land h 15 in hex_digits n (Z.shiftr h 4) (String (Ascii.ascii_of_nat (Z.to_nat (if d <? 10 then 48 + d else 87 + d))) acc)
  end.
Fixpoint hash_from (h : Z) (s : string) : Z := match s with EmptyString => h | String c s' => hash_from (step_hash h c) s' end.
Definition sample_sha (s : string) : string := hex_digits 64 (hash_from 7 s * 71563446777022297856526126342750658392501306254664949883333486863006233104021) "".

(** [json.dumps(..., separators=(",", ":"), ensure_ascii=False)] *)
Definition quote : Ascii.ascii := Ascii.ascii_of_nat 34.
Fixpoint escaped (s : string) : string :=
  match s with
  | EmptyString => EmptyString
  | String c s' => if (Ascii.nat_of_ascii c =? 34)%nat || (Ascii.nat_of_ascii c =? 92)%nat then String (Ascii.ascii_of_nat 92) (String c (escaped s')) else String c (escaped s')
  end.
Definition quoted (s : string) : string := String quote (escaped s +:+ String quote "").
Fixpoint print (j : json) : string :=
  match j with
  | JNull => "null"
  | JBool b => if b then "true" else "false"
  | JInt z => pretty z
  | JFloat _ => "0.0"
  | JStr s => quoted s
  | JList l => "[" +:+ join "," (map print l) +:+ "]"
  | JObj kvs => "{" +:+ join "," (map (λ kv, quoted kv.1 +:+ ":" +:+ print kv.2) kvs) +:+ "}"
  end.
