(* ===== verification/MemoryWitness.v ===== *)
(** * Project memory on concrete inputs

    One project of one owner, and runs of the store that meet the hypotheses of its theorems. *)

From stdpp Require Import base option list sorting strings numbers pretty sets.
From Stdlib Require Import ZArith Lia.
From S2P Require Import Prelude Sql Feed Json Text Order Samples Memory MemoryInvariant MemoryTheorems MemorySearch MemoryOwners.

Open Scope string_scope.
Open Scope list_scope.
Open Scope Z_scope.

#[export] Instance memory_text : TextEngine :=
  {| category := λ c, if in_range 32 126 c then "L" else "Cc"; _ENV_ASSIGNMENT := λ _, false; _SENSITIVE_TEXT := contains "sk-"; unquote := λ s, s |}.
#[export] Instance memory_codec : Codec :=
  {| sha256_hex := sample_sha; dumps := λ j, Some (print j); loads := λ _, Some JNull; utf8_length := str_len |}.

Definition scope1 : MemoryScope := {| tenant_id := "tenant-" +:+ str_take 32 (sample_sha "u1"); organization_id := "personal"; workspace_id := "default";
  project_id := "Magistrate"; repository_id := "" |}.
Definition scope2 : MemoryScope := {| tenant_id := "tenant-" +:+ str_take 32 (sample_sha "u2"); organization_id := "personal"; workspace_id := "default";
  project_id := "Magistrate"; repository_id := "" |}.
Definition note (key title content : string) : memory_args :=
  {| ma_key := key; ma_kind := "preference"; ma_title := title; ma_content := content; ma_importance := 3; ma_source_kind := "user"; ma_source_id := "explicit";
     ma_actor := "session"; ma_immutable := false |}.
Definition ask (query : string) : search_args := {| sa_query := query; sa_kinds := []; sa_limit := 10; sa_purpose := "interactive-search"; sa_actor := "session" |}.
Definition id1 : string := _entry_id "u1" scope1 "deploy".
Local Abbreviation after1 ops := (memory_after sql_lower "Magistrate" ops empty_memory).
Definition ops1 : list memory_op :=
  [MPut 1 "u1" scope1 (note "deploy" "Deploy window" "Deploy on Tuesday morning."); MPut 2 "u2" scope2 (note "deploy" "Deploy" "Never deploy.");
   MPut 3 "u1" scope1 (note "style" "Code style" "Prefer small functions."); MPut 4 "u1" scope1 (note "deploy" "Deploy window" "Deploy on Wednesday.");
   MSearch 5 "r1" "u1" scope1 (ask "deploy")].
Definition st1 : memory_db := after1 ops1.
Definition entry1 : memory_entry := default (Build_memory_entry "" "" scope1 "" "" "" "" 0 "" "" 0 "" 0 0 None) (fetchone (λ e, me_id e == id1) (md_entries st1)).
Lemma st1_reachable : memory_reachable sql_lower "Magistrate" st1.
Proof. by exists ops1. Qed.
Lemma entry1_in : entry1 ∈ md_entries st1.
Proof. apply list_elem_of_In. vm_compute. by left. Qed.
Lemma list_printer : reads_lists.
Proof. intros l t _. by eexists. Qed.
Lemma ids_printer : prints_ids.
Proof. intros l. by eexists. Qed.

Lemma audit_complete_witness :
  ∃ rep, audit "Magistrate" "u1" scope1 10 st1 = Ok rep ∧ ar_valid rep = true ∧ map ae_sequence (ar_events rep) = [3; 2; 1].
Proof.
  unshelve epose proof (audit_complete sql_lower "Magistrate" "u1" scope1 10 st1 st1_reachable list_printer _ _) as ((rep & E & Hv & He) & _ & _);
    [vm_compute; reflexivity|unfold MAX_AUDIT_RESULTS; lia|].
  exists rep. split; [exact E|]. split; [exact Hv|]. rewrite He. vm_compute. reflexivity.
Defined.

Lemma search_reference_witness :
  ∃ s', search sql_lower "Magistrate" 6 "r2" "u1" scope1 (ask "How to deploy?") st1 =
    Ok ([_public_entry entry1 (Some 141)], s').
Proof.
  unshelve epose proof (search_reference sql_lower "Magistrate" 6 "r2" "u1" scope1 (ask "How to deploy?") st1 st1_reachable ids_printer _ _ _ _) as (r & E);
    [vm_compute; reflexivity|vm_compute; reflexivity| |vm_compute; discriminate|].
  - intros x Hx. assert (forallb (λ r, negb (rt_id r == "pmr_r2")) (md_retrievals st1) = true) as Hall by (vm_compute; reflexivity).
    rewrite forallb_forall in Hall. apply list_elem_of_In, Hall, negb_true_iff, eqb_false in Hx. exact Hx.
  - eexists. rewrite E. match goal with |- Ok (?a, _) = Ok (?b, _) => assert (a = b) as -> by (vm_compute; reflexivity) end. reflexivity.
Defined.

(** Two databases of one log: the second has another project and a retrieval. *)
Definition event1 : json := event_json 1 id1 1 op_created "session" "h1" 5 "".
Definition event_codec : Codec :=
  {| sha256_hex := λ s, s; utf8_length := str_len; loads := λ _, None;
     dumps := λ j, match j with
       | JObj [(_, JInt n); (_, JStr e); (_, JInt r); (_, JStr o); (_, JStr a); (_, JStr h); (_, JInt t); (_, JStr p)] =>
           if (n, e, r, o, a, h, t, p) == (1, "e", 1, "created", "s", "h1", 5, "") then Some "first"
           else if (n, e, r, o, a, h, t, p) == (2, "e", 2, "updated", "s", "h2", 6, "first") then Some "second" else None
       | _ => None
       end |}.
Definition scope3 : MemoryScope := {| tenant_id := "tenant-u1"; organization_id := "personal"; workspace_id := "default"; project_id := "Magistrate"; repository_id := "" |}.
Definition log3 : list audit_row :=
  [Build_audit_row "u1" scope3 (Build_audit_event 1 "e" 1 op_created "s" "h1" "" "first" 5);
   Build_audit_row "u1" scope3 (Build_audit_event 2 "e" 2 op_updated "s" "h2" "first" "second" 6)].
Definition copy1 : memory_db := Build_memory_db [] [] [] [] [] log3 [].
Definition copy2 : memory_db := Build_memory_db [Build_memory_project "p" "w" "u1" "P" "p" true] [] [] [] [] (log3 ++ [Build_audit_row "u2" scope2 (Build_audit_event 1 "x" 1 op_created "s" "h" "" "y" 1)]) [].

Lemma event_codec_law : @prints_events event_codec.
Proof.
  intros a b t. unfold event_of, event_json. simpl. intros Ha Hb.
  repeat match goal with H : context [if ?x == ?y then _ else _] |- _ => destruct (x == y) eqn:?; simpl in H end; bools; simplify_eq; congruence.
Qed.
Lemma audit_tamper_evident_witness :
  ∃ r1 r2, @audit memory_text event_codec "Magistrate" "u1" scope3 10 copy1 = Ok r1 ∧ @audit memory_text event_codec "Magistrate" "u1" scope3 10 copy2 = Ok r2 ∧
    ar_events r1 = ar_events r2 ∧ length (ar_events r1) = 2%nat.
Proof.
  do 2 eexists. split; [vm_compute; reflexivity|]. split; [vm_compute; reflexivity|]. split; [|reflexivity].
  eapply (@audit_tamper_evident memory_text event_codec "Magistrate" "u1" scope3 10 copy1 copy2); [exact event_codec_law|vm_compute; reflexivity|vm_compute; reflexivity|reflexivity..|].
  intros a b x y _ _ _ _ E. exact E.
Defined.

(** The memory [deploy] deleted, and then more. *)
Definition ops2 : list memory_op := [MDelete 7 "u1" scope1 id1 "session"; MPut 8 "u1" scope1 (note "deploy" "Deploy" "Deploy again."); MSearch 9 "r3" "u1" scope1 (ask "deploy")].
Definition st2 : memory_db := after1 (ops1 ++ [MDelete 7 "u1" scope1 id1 "session"]).
Lemma st2_reachable : memory_reachable sql_lower "Magistrate" st2.
Proof. by exists (ops1 ++ [MDelete 7 "u1" scope1 id1 "session"]). Qed.

Lemma context_bounded_witness :
  ∃ items s', selected_context sql_lower "Magistrate" "~" 6 "r2" "u1" scope1 "deploy" "provider-chat" "system" 8 st1 = Ok (items, s') ∧ length items = 1%nat ∧
    context_size items ≤ MAX_CONTEXT_CHARS.
Proof.
  do 2 eexists. assert (∀ items s', selected_context sql_lower "Magistrate" "~" 6 "r2" "u1" scope1 "deploy" "provider-chat" "system" 8 st1 = Ok (items, s') →
    context_size items ≤ MAX_CONTEXT_CHARS) as Hb.
  { intros items s' E. exact (proj1 (proj2 (context_bounded sql_lower "Magistrate" "~" 6 "r2" "u1" scope1 "deploy" "provider-chat" "system" 8 st1 items s' eq_refl E))). }
  match goal with |- ?A = ?B ∧ _ => assert (A = B) as E by (vm_compute; reflexivity) end.
  split; [exact E|]. split; [reflexivity|]. exact (Hb _ _ E).
Defined.

Fixpoint repeated (n : nat) (s : string) : string := match n with O => "" | S n => s +:+ repeated n s end.
Lemma long_objective_refused_witness :
  assemble_worker sql_lower "Magistrate" "~" 6 "r2" "u1" scope1 (repeated 200 "Deploy it. ") st1 = Err MemoryValueError.
Proof. apply (long_objective_refused sql_lower "Magistrate" "~" 6 "r2" "u1" scope1 (repeated 200 "Deploy it. ") st1); [vm_compute; reflexivity|vm_compute; discriminate]. Defined.

(** Ten memories of the greatest size about one word. *)
Definition full_note (n : nat) : memory_op :=
  MPut (Z.of_nat n) "u1" scope1 {| ma_key := "key" +:+ pretty (Z.of_nat n); ma_kind := "architecture-decision"; ma_title := "Deploy" +:+ repeated 234 "!";
    ma_content := "Deploy" +:+ repeated 1194 "!"; ma_importance := 3; ma_source_kind := "user"; ma_source_id := "explicit"; ma_actor := "session"; ma_immutable := false |}.
Definition full_ops : list memory_op := map full_note (seq 0 10).

Lemma full_results {E S A B} (e : res E (list A * S)) (f : res E B) (n : nat) (er : E) :
  (match e with Ok (items, _) => Some (length items) | Err _ => None end, match f with Ok _ => None | Err x => Some x end) = (Some n, Some er) →
  (∃ items s', e = Ok (items, s') ∧ length items = n) ∧ f = Err er.
Proof. destruct e as [[items s']|], f as [|]; try done. intros [= <- <-]. split; [by exists items, s'|done]. Qed.

(** The budget of a worker's context counts its items only, not the
    document around them: ten memories of legal size about one word fill it, and
    then every objective that mentions the word fails with [RuntimeError]. *)
Theorem full_context_refused : ∃ s, memory_reachable sql_lower "Magistrate" s ∧
  (∃ items s', selected_context sql_lower "Magistrate" "~" 20 "r9" "u1" scope1 "Deploy it." "objective-worker" "system" 10 s = Ok (items, s') ∧ length items = 10%nat) ∧
  assemble_worker sql_lower "Magistrate" "~" 20 "r9" "u1" scope1 "Deploy it." s = Err MemoryRuntimeError.
Proof.
  exists (after1 full_ops). split; [by exists full_ops|].
  apply (full_results _ _ 10 MemoryRuntimeError). vm_compute. reflexivity.
Qed.
