(* ===== verification/AuthStore.v ===== *)
(** * The tables of authentication ([gateway/app/db.py])

    Sessions, beta grants, provider accounts with their challenges, accepted
    assertions, session families and refresh tokens, the profiles and push
    destinations they touch, and the facts of onboarding. [auth.py] and
    [provider_auth.py] share them. *)

From stdpp Require Import base option list strings numbers sets.
From Stdlib Require Import ZArith Lia.
From S2P Require Import Prelude Sql Json Text Order.

Open Scope string_scope.
Open Scope list_scope.
Open Scope Z_scope.

(** [HTTPException], [ValueError], [TypeError], [RuntimeError] and an integrity
    error of SQLite. *)
Inductive auth_error := HTTPException (status_code : Z) | AuthValueError | AuthTypeError | AuthRuntimeError | AuthIntegrityError.
#[export] Instance auth_error_eq_dec : EqDecision auth_error.
Proof. solve_decision. Defined.

(** [gateway_sessions] *)
Record session := {
  ss_id : string; ss_hash : string; ss_user : string; ss_scopes : string; ss_issued : Z; ss_expires : Z; ss_revoked : option Z;
  ss_grant : option string; ss_family : option string; ss_account : option string;
}.
#[export] Instance session_settable : Settable session :=
  λ r, Build_session (ss_id r) (ss_hash r) (ss_user r) (ss_scopes r) (ss_issued r) (ss_expires r) (ss_revoked r) (ss_grant r) (ss_family r) (ss_account r).
Definition session_clash (a b : session) : bool := (ss_id a == ss_id b) || (ss_hash a == ss_hash b).

(** [friend_beta_access_grants] *)
Record grant := {
  gr_id : string; gr_hash : string; gr_user : string; gr_scopes : string; gr_created : Z; gr_expires : Z; gr_first : option Z; gr_last : option Z;
  gr_revoked : option Z;
}.
#[export] Instance grant_settable : Settable grant :=
  λ r, Build_grant (gr_id r) (gr_hash r) (gr_user r) (gr_scopes r) (gr_created r) (gr_expires r) (gr_first r) (gr_last r) (gr_revoked r).
Definition grant_clash (a b : grant) : bool := (gr_id a == gr_id b) || (gr_hash a == gr_hash b).

(** [user_profiles], [push_tokens], [account_onboarding] *)
Record profile := { pf_user : string; pf_name : string; pf_email : string; pf_created : Z; pf_updated : Z }.
#[export] Instance profile_settable : Settable profile :=
  λ r, Build_profile (pf_user r) (pf_name r) (pf_email r) (pf_created r) (pf_updated r).
Record push_token := { pt_user : string; pt_token : string; pt_revoked : option Z }.
#[export] Instance push_token_settable : Settable push_token := λ r, Build_push_token (pt_user r) (pt_token r) (pt_revoked r).
Record onboarding := { ob_user : string; ob_welcome : option Z; ob_created : Z; ob_updated : Z }.
#[export] Instance onboarding_settable : Settable onboarding := λ r, Build_onboarding (ob_user r) (ob_welcome r) (ob_created r) (ob_updated r).

(** [connected_accounts] *)
Record account := {
  ca_id : string; ca_user : string; ca_provider : string; ca_subject : option string; ca_username : string; ca_status : string; ca_created : Z;
  ca_updated : Z; ca_kind : string; ca_verified : Z; ca_last : option Z;
}.
#[export] Instance account_settable : Settable account :=
  λ r, Build_account (ca_id r) (ca_user r) (ca_provider r) (ca_subject r) (ca_username r) (ca_status r) (ca_created r) (ca_updated r) (ca_kind r)
    (ca_verified r) (ca_last r).
Definition is_login (r : account) : bool := ca_kind r == "login".
(** The primary key, and [idx_connected_login_subject]. *)
Definition account_clash (a b : account) : bool :=
  (ca_id a == ca_id b) ||
  (is_login a && is_login b && (ca_provider a == ca_provider b) && negb (ca_subject a == None) && (ca_subject a == ca_subject b)).

(** [provider_session_families], [provider_refresh_tokens] *)
Record family := {
  sf_id : string; sf_user : string; sf_account : string; sf_provider : string; sf_platform : string; sf_scopes : string; sf_created : Z; sf_expires : Z;
  sf_rotated : Z; sf_revoked : option Z; sf_reason : option string;
}.
#[export] Instance family_settable : Settable family :=
  λ r, Build_family (sf_id r) (sf_user r) (sf_account r) (sf_provider r) (sf_platform r) (sf_scopes r) (sf_created r) (sf_expires r) (sf_rotated r)
    (sf_revoked r) (sf_reason r).
Definition family_clash (a b : family) : bool := sf_id a == sf_id b.
Record refresh_token := { rf_hash : string; rf_family : string; rf_issued : Z; rf_expires : Z; rf_consumed : option Z }.
#[export] Instance refresh_token_settable : Settable refresh_token :=
  λ r, Build_refresh_token (rf_hash r) (rf_family r) (rf_issued r) (rf_expires r) (rf_consumed r).
Definition refresh_clash (a b : refresh_token) : bool := rf_hash a == rf_hash b.

(** [provider_auth_challenges], [provider_assertions] *)
Record challenge := {
  pc_id : string; pc_provider : string; pc_action : string; pc_nonce_hash : string; pc_owner : option string; pc_platform : string;
  pc_redirect : option string; pc_created : Z; pc_expires : Z; pc_consumed : option Z;
}.
#[export] Instance challenge_settable : Settable challenge :=
  λ r, Build_challenge (pc_id r) (pc_provider r) (pc_action r) (pc_nonce_hash r) (pc_owner r) (pc_platform r) (pc_redirect r) (pc_created r) (pc_expires r)
    (pc_consumed r).
Definition challenge_clash (a b : challenge) : bool := pc_id a == pc_id b.
Record assertion := { pa_hash : string; pa_challenge : string; pa_account : string; pa_accepted : Z }.
Definition assertion_clash (a b : assertion) : bool := (pa_hash a == pa_hash b) || (pa_challenge a == pa_challenge b).

Record auth_db := {
  ad_sessions : list session; ad_grants : list grant; ad_profiles : list profile; ad_push : list push_token; ad_onboarding : list onboarding;
  ad_accounts : list account; ad_families : list family; ad_refresh : list refresh_token; ad_challenges : list challenge; ad_assertions : list assertion;
}.
#[export] Instance auth_db_settable : Settable auth_db :=
  λ s, Build_auth_db (ad_sessions s) (ad_grants s) (ad_profiles s) (ad_push s) (ad_onboarding s) (ad_accounts s) (ad_families s) (ad_refresh s)
    (ad_challenges s) (ad_assertions s).
Definition empty_auth : auth_db := Build_auth_db [] [] [] [] [] [] [] [] [] [].

Abbreviation atx := (tx auth_error auth_db).
Abbreviation aio := (io auth_error auth_db).

Definition insert_row {R} (get : auth_db → list R) (set : list R → auth_db → auth_db) (clash : R → R → bool) (r : R) : atx unit :=
  λ s, match insert clash r (get s) with Some t => Ok (tt, set t s) | None => Err AuthIntegrityError end.
Definition insert_session_row : session → atx unit := insert_row ad_sessions (λ t s, s <| ad_sessions := t |>) session_clash.
Definition insert_grant : grant → atx unit := insert_row ad_grants (λ t s, s <| ad_grants := t |>) grant_clash.
Definition insert_account : account → atx unit := insert_row ad_accounts (λ t s, s <| ad_accounts := t |>) account_clash.
Definition insert_family : family → atx unit := insert_row ad_families (λ t s, s <| ad_families := t |>) family_clash.
Definition insert_refresh : refresh_token → atx unit := insert_row ad_refresh (λ t s, s <| ad_refresh := t |>) refresh_clash.
Definition insert_challenge : challenge → atx unit := insert_row ad_challenges (λ t s, s <| ad_challenges := t |>) challenge_clash.
Definition insert_assertion : assertion → atx unit := insert_row ad_assertions (λ t s, s <| ad_assertions := t |>) assertion_clash.
(** [INSERT OR IGNORE INTO user_profiles] and [account_onboarding] *)
Definition ensure_profile (user name email : string) (now : Z) : atx unit := modify (λ s,
  if exists_row (λ p, pf_user p == user) (ad_profiles s) then s else s <| ad_profiles ::= (λ t, t ++ [Build_profile user name email now now]) |>).
Definition ensure_provider_onboarding (user : string) (now : Z) : atx unit := modify (λ s,
  if exists_row (λ p, ob_user p == user) (ad_onboarding s) then s else s <| ad_onboarding ::= (λ t, t ++ [Build_onboarding user None now now]) |>).

(** [WHERE column = value] on a nullable column. *)
Definition names (c : option string) (v : string) : bool := c == Some v.
(** [os.getenv(name, default)] *)
Definition getenv (env : string → option string) (name dflt : string) : string := default dflt (env name).
(** [value.strip().lower() in {"1", "true", "yes", "on"}] *)
Definition flag_words : list string := ["1"; "true"; "yes"; "on"].

(** * First-run state ([gateway/app/onboarding.py])

    What an account still has to do, from the rows it owns. The GitHub
    connection, the billing account and the deployment are other components'
    facts, read in the same transaction: an argument. *)

(** The newest GitHub connection with its expiry, the billing account (status,
    subscription, event observed), [GitHubProviderAdapter().is_configured()],
    [personal_owner(user_id)]. *)
Record onboarding_facts := {
  of_github : option (string * option Z); of_billing : option (string * option string * option Z); of_github_available : bool; of_personal : bool;
}.

Inductive onboarding_step := step_welcome | step_profile | step_github | step_billing.
Record onboarding_state := {
  os_required : bool; os_next : option onboarding_step; os_welcome : bool; os_profile : bool; os_github : bool; os_billing : bool;
}.

Definition named_profile (user : string) (s : auth_db) : bool :=
  match fetchone (λ p, pf_user p == user) (ad_profiles s) with Some p => negb (strip (pf_name p) == "") | None => false end.
Definition github_complete (now : Z) (f : onboarding_facts) : bool :=
  of_github_available f && match of_github f with Some (status, expires) => (status == "connected") && match expires with Some e => now <? e | None => true end | None => false end.
Definition billing_complete (f : onboarding_facts) : bool :=
  match of_billing f with
  | Some (status, subscription, event) => listed status ["active"; "trialing"] && negb (default "" subscription == "") && negb (event == None)
  | None => false
  end.

Definition _state (now : Z) (f : onboarding_facts) (user : string) (s : auth_db) : onboarding_state :=
  let progress := fetchone (λ o, ob_user o == user) (ad_onboarding s) in
  let provider_account := negb (progress == None) in
  let welcome := negb provider_account || negb ((progress ≫= ob_welcome) == None) in
  let profile := named_profile user s in
  let github := github_complete now f in
  let billing := billing_complete f in
  let required := if of_personal f then negb (welcome && profile) else if negb provider_account then negb profile
                  else negb (welcome && profile && github && billing) in
  let next := if provider_account && negb welcome then step_welcome else if negb profile then step_profile
              else if provider_account && negb github then step_github else step_billing in
  Build_onboarding_state required (if required then Some next else None) welcome profile github billing.

Definition onboarding_required (now : Z) (f : onboarding_facts) (user : string) (s : auth_db) : bool := os_required (_state now f user s).

Definition acknowledge_welcome (now : Z) (user : string) : atx unit :=
  found ← read (λ s, exists_row (λ o, ob_user o == user) (ad_onboarding s));
  require found (HTTPException 409);;
  modify (λ s, s <| ad_onboarding ::= update (λ o, ob_user o == user) (λ o, o <| ob_welcome ::= (λ w, Some (default now w)) |> <| ob_updated := now |>) |>).
