(* ===== verification/Sessions.v ===== *)
(** * Sessions and access grants ([gateway/app/auth.py])

    Issuing a session from the bootstrap credential or from a beta grant,
    renewing and revoking it, and the verification that every request passes.

    The environment is the argument [env]; [policy] is the loaded deployment
    policy; tokens and identities drawn from [secrets] are arguments. *)

From stdpp Require Import base option list strings numbers sets.
From Stdlib Require Import ZArith Lia Ascii.
From S2P Require Import Prelude Sql Json Text Order Deployment AuthStore.

Open Scope string_scope.
Open Scope list_scope.
Open Scope Z_scope.

Definition SESSION_TTL_SECONDS : Z := 3600.
Definition SESSION_RETENTION_SECONDS : Z := 30 * 24 * 3600.
Definition FRIEND_BETA_GRANT_MAX_TTL_SECONDS : Z := 30 * 24 * 3600.
Definition FRIEND_BETA_ACCESS_PREFIX : string := "mgb_".
Definition KNOWN_SCOPES : list string := ["read"; "account"; "providers"; "notifications"; "voice"; "command"; "response"].
Definition FRIEND_BETA_REQUIRED_SCOPES : list string := ["read"; "account"].
Definition FRIEND_BETA_DEFAULT_SCOPES : list string := ["read"; "account"; "notifications"].
Definition FRIEND_BETA_SHARED_RUNTIME_SCOPES : list string := ["voice"; "command"].
Definition url_safe (c : Ascii.ascii) : bool := is_alnum c || one_of "_-" c.
Definition _FRIEND_BETA_ACCESS_PATTERN (s : string) : bool := startswith "mgb_" s && fullmatch_class url_safe 32 64 (str_drop 4 s).
Definition _FRIEND_BETA_USER_PATTERN (s : string) : bool := fullmatch1 is_alnum (λ c, is_alnum c || one_of "._-" c) 0 63 s.
Definition _USER_ID_PATTERN (s : string) : bool := fullmatch1 is_alnum (λ c, is_alnum c || one_of "._-" c) 0 127 s.
Definition _valid_user_id : string → bool := _USER_ID_PATTERN.
(** [re.fullmatch(r"fbg_[A-Za-z0-9_-]{20,32}", grant_id)] *)
Definition grant_id_pattern (s : string) : bool := startswith "fbg_" s && fullmatch_class url_safe 20 32 (str_drop 4 s).

Record Principal := {
  pr_user : string; pr_scopes : list string; pr_session : string; pr_expires : Z; pr_grant : option string; pr_family : option string;
  pr_account : option string; pr_provider : option string; pr_refresh : option Z;
}.
(** The fields of it that the deployment policy reads. *)
Definition policy_view (p : Principal) : principal :=
  {| user_id := pr_user p; scopes := pr_scopes p; session_id := pr_session p; expires_at := pr_expires p |}.

(** ** Scopes *)

Definition subset (l1 l2 : list string) : bool := forallb (λ x, listed x l2) l1.
(** [sorted(scopes)] of a set, and the column that holds it. *)
Definition sorted (l : list string) : list string := order_by (before String.compare) (remove_dups l).
Definition scope_text (l : list string) : string := join "," (sorted l).
(** [filter(None, text.split(","))] *)
Definition text_scopes (text : string) : list string := select (λ w, negb (w == "")) (split ","%char text).
Definition _validated_scopes (values : list string) : res auth_error (list string) :=
  let scopes := remove_dups (select (λ w, negb (w == "")) (map strip values)) in
  ensure (negb (scopes == []) && subset scopes KNOWN_SCOPES) AuthValueError;;
  mret scopes.
Definition _configured_scopes (env : string → option string) : res auth_error (list string) :=
  _validated_scopes (split ","%char (getenv env "MAGISTRATE_SESSION_SCOPES" "read,account,providers,notifications,voice,command")).

(** ** Configuration *)

Definition _truthy (env : string → option string) (name : string) : bool := listed (sql_lower (strip (getenv env name ""))) flag_words.
(** [None] of [ttl] is a [ValueError] of [int]. *)
Definition _configured_session_ttl (env : string → option string) (now : Z) (cap : option Z) : res auth_error Z :=
  ttl ← of_option AuthValueError (match env "MAGISTRATE_SESSION_TTL_SECONDS" with None => Some SESSION_TTL_SECONDS | Some raw => py_int raw end);
  let expires := now + ttl in
  ensure (negb ((expires <=? now) || (now + 86400 <? expires))) AuthValueError;;
  mret (match cap with Some c => Z.min expires c | None => expires end).
Definition _friend_beta_enabled (env : string → option string) : res auth_error bool :=
  let value := sql_lower (strip (getenv env "MAGISTRATE_FRIEND_BETA_ENABLED" "false")) in
  if listed value flag_words then mret true
  else if listed value ["0"; "false"; "no"; "off"; ""] then mret false
  else Err AuthRuntimeError.
(** [except (TypeError, ValueError): raise HTTPException(code)] and the like *)
Definition or_http {A} (code : Z) (r : res auth_error A) : res auth_error A := match r with Ok a => Ok a | Err _ => Err (HTTPException code) end.

Section Store.
Context `{Codec}.

(** [token.encode("ascii")] refuses other characters. *)
Definition _hash_token (token : string) : option string := if is_ascii token then Some (sha256_hex token) else None.

(** ** Statements *)

Definition _revoke_push_delivery (user : string) (now : Z) (s : auth_db) : auth_db :=
  s <| ad_push ::= update (λ p, (pt_user p == user) && (pt_revoked p == None)) (λ p, p <| pt_revoked := Some now |>) |>.
Definition revoke_sessions (p : session → bool) (now : Z) (s : auth_db) : auth_db :=
  s <| ad_sessions ::= update (λ x, p x && (ss_revoked x == None)) (λ x, x <| ss_revoked := Some now |>) |>.
Definition _suspend_friend_beta_sessions_and_push (now : Z) (s : auth_db) : auth_db :=
  let s := revoke_sessions (λ x, negb (ss_grant x == None)) now s in
  fold_left (λ s user, _revoke_push_delivery user now s) (remove_dups (map gr_user (ad_grants s))) s.
(** The sessions nobody needs any more. *)
Definition cleanup_sessions (now : Z) (s : auth_db) : auth_db :=
  let cutoff := now - SESSION_RETENTION_SECONDS in
  s <| ad_sessions ::= delete_where (λ x, (match ss_revoked x with Some r => r <? cutoff | None => false end) || (ss_expires x <? cutoff)) |>.

(** What [secrets] draws for a session, and the answer. *)
Record fresh_session := { fs_token : string; fs_id : string }.
Record session_payload := { sp_token : string; sp_expires : Z; sp_scopes : list string; sp_user : string }.
Definition _insert_session (fresh : fresh_session) (user : string) (scopes : list string) (now expires : Z) (grant family account : option string)
    : atx session_payload :=
  hash ← lift (of_option AuthValueError (_hash_token (fs_token fresh)));
  insert_session_row (Build_session (fs_id fresh) hash user (scope_text scopes) now expires None grant family account);;
  mret (Build_session_payload (fs_token fresh) expires (sorted scopes) user).

(** ** Beta grants *)

Record fresh_grant := { fg_id : string; fg_code : string }.
Record grant_payload := { gp_id : string; gp_code : string; gp_user : string; gp_scopes : list string; gp_created : Z; gp_expires : Z }.
(** [hosted] says whether [HostedExecutionConfig.from_env()] succeeds. *)
Definition grant_scopes (env : string → option string) (hosted : bool) (scopes : option (list string)) (allow_shared : bool) : res auth_error (list string) :=
  selected ← _validated_scopes (default FRIEND_BETA_DEFAULT_SCOPES scopes);
  ensure (subset FRIEND_BETA_REQUIRED_SCOPES selected) AuthValueError;;
  ensure (negb (listed "response" selected)) AuthValueError;;
  let elevated := existsb (λ x, listed x selected) FRIEND_BETA_SHARED_RUNTIME_SCOPES in
  let hosted_execution := _truthy env "MAGISTRATE_HOSTED_EXECUTION_ENABLED" in
  ensure (negb (elevated && hosted_execution) || hosted) AuthValueError;;
  ensure (negb (elevated && negb hosted_execution) || allow_shared) AuthValueError;;
  mret selected.
Definition create_friend_beta_access_grant (env : string → option string) (hosted : bool) (now : Z) (fresh : fresh_grant) (user : string)
    (scopes : option (list string)) (ttl : Z) (allow_shared : bool) : atx grant_payload :=
  let user := strip user in
  require (_valid_user_id user && _FRIEND_BETA_USER_PATTERN user) AuthValueError;;
  require (negb (user == strip (getenv env "MAGISTRATE_BOOTSTRAP_USER_ID" "default_user"))) AuthValueError;;
  selected ← lift (grant_scopes env hosted scopes allow_shared);
  require ((3600 <=? ttl) && (ttl <=? FRIEND_BETA_GRANT_MAX_TTL_SECONDS)) AuthValueError;;
  let expires := now + ttl in
  let code := FRIEND_BETA_ACCESS_PREFIX +:+ fg_code fresh in
  let id := "fbg_" +:+ fg_id fresh in
  existing ← read (λ s, exists_row (λ g, (gr_user g == user) && (gr_revoked g == None) && (now <? gr_expires g)) (ad_grants s));
  require (negb existing) AuthValueError;;
  hash ← lift (of_option AuthValueError (_hash_token code));
  insert_grant (Build_grant id hash user (scope_text selected) now expires None None None);;
  ensure_profile user "" "" now;;
  modify (_revoke_push_delivery user now);;
  mret (Build_grant_payload id code user (sorted selected) now expires).

Inductive grant_state := g_revoked | g_expired | g_active.
Definition state_of (now : Z) (g : grant) : grant_state :=
  if negb (gr_revoked g == None) then g_revoked else if gr_expires g <=? now then g_expired else g_active.
Definition list_friend_beta_access_grants (now : Z) (user : option string) (s : auth_db) : res auth_error (list (grant * list string * grant_state)) :=
  ensure (optional (λ u, _valid_user_id u && _FRIEND_BETA_USER_PATTERN u) user) AuthValueError;;
  let rows := select (λ g, optional (λ u, gr_user g == u) user) (ad_grants s) in
  mret (map (λ g, (g, sorted (text_scopes (gr_scopes g)), state_of now g))
    (order_by (before (λ a b, lex (gr_created a ?= gr_created b) (String.compare (gr_id a) (gr_id b)))) rows)).

(** [True] when the grant was revoked by this call. *)
Definition revoke_friend_beta_access_grant (now : Z) (id : string) : atx bool :=
  require (grant_id_pattern id) AuthValueError;;
  g ← read (λ s, fetchone (λ g, gr_id g == id) (ad_grants s));
  n ← read (λ s, count (λ g, (gr_id g == id) && (gr_revoked g == None)) (ad_grants s));
  modify (λ s, s <| ad_grants ::= update (λ g, (gr_id g == id) && (gr_revoked g == None)) (λ g, g <| gr_revoked := Some now |>) |>);;
  modify (revoke_sessions (λ x, names (ss_grant x) id) now);;
  modify (λ s, match g with Some g => _revoke_push_delivery (gr_user g) now s | None => s end);;
  mret (n =? 1).

Record grant_session := { gs_payload : session_payload; gs_renewable_until : Z; gs_onboarding : bool }.
Definition redeem_scopes (env : string → option string) (now : Z) (g : grant) : res auth_error (list string * Z) :=
  scopes ← _validated_scopes (split ","%char (gr_scopes g));
  ensure (subset FRIEND_BETA_REQUIRED_SCOPES scopes && negb (listed "response" scopes)) AuthValueError;;
  expires ← _configured_session_ttl env now (Some (gr_expires g));
  mret (scopes, expires).
Definition redeem (env : string → option string) (now : Z) (fresh : fresh_session) (hash : string) : atx grant_session :=
  row ← read (λ s, fetchone (λ g, gr_hash g == hash) (ad_grants s));
  g ← lift (of_option (HTTPException 401) row);
  require ((gr_revoked g == None) && (now <? gr_expires g) && _valid_user_id (gr_user g)) (HTTPException 401);;
  granted ← lift (or_http 503 (redeem_scopes env now g));
  modify (cleanup_sessions now);;
  modify (revoke_sessions (λ x, names (ss_grant x) (gr_id g)) now);;
  payload ← _insert_session fresh (gr_user g) granted.1 now granted.2 (Some (gr_id g)) None None;
  modify (λ s, s <| ad_grants ::= update (λ x, gr_id x == gr_id g) (λ x, x <| gr_first ::= (λ f, Some (default now f)) |> <| gr_last := Some now |>) |>);;
  profile ← read (named_profile (gr_user g));
  mret (Build_grant_session payload (gr_expires g) (negb profile)).
Definition issue_friend_beta_session (env : string → option string) (now : Z) (fresh : fresh_session) (code : string) : atx grant_session :=
  enabled ← lift (or_http 503 (_friend_beta_enabled env));
  require enabled (HTTPException 503);;
  require (_FRIEND_BETA_ACCESS_PATTERN code) (HTTPException 401);;
  hash ← lift (of_option AuthValueError (_hash_token code));
  redeem env now fresh hash.

(** [validate_friend_beta_configuration] *)
Definition validate_friend_beta_configuration (env : string → option string) (now : Z) : atx bool :=
  enabled ← lift (_friend_beta_enabled env);
  if enabled : bool then lift (match _configured_session_ttl env now None with Ok _ => Ok true | Err _ => Err AuthRuntimeError end)
  else modify (_suspend_friend_beta_sessions_and_push now);; mret false.

(** ** The owner's sessions *)

Definition development : list string := ["dev"; "development"; "test"; "testing"].
(** [hmac.compare_digest] refuses texts that are not ASCII. *)
Definition compare_digest (a b : string) : res auth_error bool := ensure (is_ascii a && is_ascii b) AuthTypeError;; mret (a == b).
Definition check_bootstrap (env : string → option string) (secret : option string) : res auth_error unit :=
  let configured := getenv env "MAGISTRATE_BOOTSTRAP_SECRET" "" in
  if negb (configured == "") then
    secret ← of_option (HTTPException 401) (secret ≫= nonempty);
    same ← compare_digest secret configured;
    ensure same (HTTPException 401)
  else ensure (listed (sql_lower (getenv env "MAGISTRATE_ENV" "")) development && _truthy env "MAGISTRATE_DEV_AUTO_SESSION") (HTTPException 503).
Definition issue_session (env : string → option string) (now : Z) (fresh : fresh_session) (secret : option string) : aio session_payload :=
  pure (check_bootstrap env secret);;
  let user := strip (getenv env "MAGISTRATE_BOOTSTRAP_USER_ID" "default_user") in
  pure (ensure (_valid_user_id user) (HTTPException 503));;
  scopes ← pure (or_http 503 (_configured_scopes env));
  expires ← pure (or_http 503 (_configured_session_ttl env now None));
  run_tx (modify (cleanup_sessions now));;
  run_tx (ensure_profile user "" "" now;; _insert_session fresh user scopes now expires None None None).

(** [provider_auth.revoke_provider_family] *)
Definition revoke_provider_family (now : Z) (id user : string) (s : auth_db) : auth_db :=
  let s := s <| ad_families ::= update (λ f, sf_id f == id)
    (λ f, f <| sf_revoked ::= (λ r, Some (default now r)) |> <| sf_reason ::= (λ r, Some (default "logout" r)) |>) |> in
  _revoke_push_delivery user now (revoke_sessions (λ x, names (ss_family x) id) now s).

(** [revoke_session]: the session, and the authority it came from. *)
Definition revoke_authority (now : Z) (x : session) (s : auth_db) : auth_db :=
  match ss_grant x ≫= nonempty, ss_family x ≫= nonempty with
  | Some id, _ =>
      let s := s <| ad_grants ::= update (λ g, (gr_id g == id) && (gr_revoked g == None)) (λ g, g <| gr_revoked := Some now |>) |> in
      _revoke_push_delivery (ss_user x) now (revoke_sessions (λ y, names (ss_grant y) id) now s)
  | None, Some id => revoke_provider_family now id (ss_user x) s
  | None, None => s
  end.
Definition revoke_hash (now : Z) (hash : string) (s : auth_db) : auth_db :=
  let row := fetchone (λ x, ss_hash x == hash) (ad_sessions s) in
  let s := s <| ad_sessions ::= update (λ x, ss_hash x == hash) (λ x, x <| ss_revoked := Some now |>) |> in
  match row with Some x => revoke_authority now x s | None => s end.
Definition revoke_session (now : Z) (token : string) (s : auth_db) : auth_db :=
  match _hash_token token with Some hash => revoke_hash now hash s | None => s end.

(** ** Verification *)

Definition grant_of (x : session) (s : auth_db) : option grant := id ← ss_grant x; fetchone (λ g, gr_id g == id) (ad_grants s).
Definition family_of (x : session) (s : auth_db) : option family :=
  id ← ss_family x; account ← ss_account x;
  fetchone (λ f, (sf_id f == id) && (sf_account f == account) && (sf_user f == ss_user x)) (ad_families s).
Definition account_of (x : session) (s : auth_db) : option account :=
  id ← ss_account x; fetchone (λ a, (ca_id a == id) && (ca_user a == ss_user x)) (ad_accounts s).
Definition grant_invalid (now : Z) (x : session) (s : auth_db) : bool :=
  match ss_grant x ≫= nonempty with
  | Some _ => match grant_of x s with Some g => (gr_expires g <=? now) || negb (gr_revoked g == None) | None => true end
  | None => false
  end.
Definition provider_invalid (now : Z) (x : session) (s : auth_db) : bool :=
  match ss_family x ≫= nonempty with
  | Some _ =>
      match family_of x s with
      | Some f => (sf_expires f <=? now) || negb (sf_revoked f == None) || negb (listed (sf_provider f) ["apple"; "google"])
      | None => true
      end ||
      match account_of x s with Some a => negb (ca_status a == "connected") || negb (ca_kind a == "login") | None => true end
  | None => false
  end.
(** Everything but the feature flag. *)
Definition session_valid (now : Z) (x : session) (s : auth_db) : bool :=
  negb (negb (ss_revoked x == None) || (ss_expires x <=? now) || grant_invalid now x s || provider_invalid now x s ||
        negb (Bool.eqb (ss_family x == None) (ss_account x == None)) || negb (_valid_user_id (ss_user x)) ||
        (text_scopes (ss_scopes x) == []) || negb (subset (text_scopes (ss_scopes x)) KNOWN_SCOPES)).
Definition principal_of (x : session) (s : auth_db) : Principal :=
  Build_Principal (ss_user x) (text_scopes (ss_scopes x)) (ss_id x) (ss_expires x) (ss_grant x) (ss_family x) (ss_account x)
    (sf_provider <$> family_of x s) (sf_expires <$> family_of x s).
Definition policy_gate (policy : res mode_error deployment_contract) (now : Z) (p : Principal) : res auth_error Principal :=
  match (c ← policy; require_principal c now (Some (policy_view p)) None) with
  | Ok _ => Ok p
  | Err (DeploymentModeError _ status) => Err (HTTPException status)
  | Err _ => Err AuthRuntimeError
  end.
(** A session of a grant while beta access is disabled suspends them all. *)
Definition beta_gate (env : string → option string) (now : Z) (x : session) : aio unit :=
  match ss_grant x ≫= nonempty with
  | Some _ =>
      enabled ← pure (or_http 503 (_friend_beta_enabled env));
      if enabled : bool then mret tt
      else run_tx (modify (_suspend_friend_beta_sessions_and_push now));; pure (Err (HTTPException 401))
  | None => mret tt
  end.
Definition _verified_session (env : string → option string) (policy : res mode_error deployment_contract) (now : Z) (identity : string)
    (by_session_id : bool) : aio Principal := λ s,
  match fetchone (λ x, (if by_session_id then ss_id x else ss_hash x) == identity) (ad_sessions s) with
  | None => (Err (HTTPException 401), s)
  | Some x =>
      (beta_gate env now x;;
       pure (ensure (session_valid now x s) (HTTPException 401);; policy_gate policy now (principal_of x s))) s
  end.
Definition _principal_from_token (env : string → option string) (policy : res mode_error deployment_contract) (now : Z) (token : string) : aio Principal :=
  pure (ensure (negb (token == "") && negb (512 <? str_len token)) (HTTPException 401));;
  hash ← pure (of_option (HTTPException 401) (_hash_token token));
  _verified_session env policy now hash false.
(** [authorization.partition(" ")] *)
Definition authenticate_request (env : string → option string) (policy : res mode_error deployment_contract) (now : Z) (authorization : option string) : aio Principal :=
  authorization ← pure (of_option (HTTPException 401) (authorization ≫= nonempty));
  parts ← pure (of_option (HTTPException 401) (partition_on " "%char authorization));
  pure (ensure ((sql_lower parts.1 == "bearer") && negb (parts.2 == "") && negb (512 <? str_len parts.2)) (HTTPException 401));;
  _principal_from_token env policy now parts.2.

(** [require_scope] and [require_any_scope], after the token is verified. *)
Definition has_scope (p : Principal) (scope : string) : bool := listed scope (pr_scopes p).
Definition require_scope (scope : string) (p : Principal) : res auth_error Principal := ensure (has_scope p scope) (HTTPException 403);; mret p.
Definition require_any_scope (scopes : list string) (p : Principal) : res auth_error Principal :=
  ensure (existsb (has_scope p) scopes) (HTTPException 403);; mret p.
(** [account_onboarding_required] *)
Definition account_onboarding_required (now : Z) (f : onboarding_facts) (p : Principal) (s : auth_db) : bool :=
  if negb (has_scope p "account") then false
  else if negb (pr_family p == None) then onboarding_required now f (pr_user p) s
  else if pr_grant p == None then false
  else negb (named_profile (pr_user p) s).
End Store.
