(* ===== verification/Identity.v ===== *)
(** * Identity assertions ([verify_identity_token], [gateway/app/provider_auth.py])

    The checks an OpenID token of Apple or Google passes. The signature check
    ([cryptography]), the download of the keys, base64 and [json.loads] with
    duplicate keys and constants refused are parameters. *)

From stdpp Require Import base option list strings numbers sets.
From Stdlib Require Import ZArith Lia Ascii.
From S2P Require Import Prelude Sql Json Text AuthStore Sessions.

Open Scope string_scope.
Open Scope list_scope.
Open Scope Z_scope.

Definition MAX_ID_TOKEN_BYTES : Z := 24 * 1024.
Definition _JWT_PART (s : string) : bool := fullmatch_class url_safe 1 (str_len s) s.
(** [[^\x00-\x1f\x7f-\x9f]{1,255}] *)
Definition _SAFE_SUBJECT (s : string) : bool := fullmatch_class (λ c, negb (in_range 0 31 c || in_range 127 159 c)) 1 255 s.
Definition _ISSUERS (provider : string) : list string :=
  if provider == "apple" then ["https://appleid.apple.com"] else ["https://accounts.google.com"; "accounts.google.com"].

(** ** Configuration *)

Definition client_id (v : string) : bool := (str_len v <=? 255) && fullmatch1 is_alnum (λ c, is_alnum c || one_of "._-" c) 1 254 v.
Definition stripped_items (text : string) : list string := select (λ w, negb (w == "")) (map strip (split ","%char text)).
Definition option_list {A} (o : option A) : list A := match o with Some a => [a] | None => [] end.
Definition _validated_client_ids (env : string → option string) (setting : string) : res auth_error (list string) :=
  let values := stripped_items (getenv env setting "") in
  ensure (forallb client_id values) (HTTPException 503);;
  mret values.
Definition _configured_ids (env : string → option string) (provider : string) : res auth_error (list string) :=
  values ← _validated_client_ids env (if provider == "apple" then "MAGISTRATE_APPLE_CLIENT_IDS" else "MAGISTRATE_GOOGLE_CLIENT_IDS");
  more ← (if provider == "apple" then mret (option_list (nonempty (strip (getenv env "MAGISTRATE_APPLE_SERVICE_ID" ""))))
          else web ← _validated_client_ids env "MAGISTRATE_GOOGLE_WEB_CLIENT_IDS";
               ios ← _validated_client_ids env "MAGISTRATE_GOOGLE_IOS_CLIENT_IDS";
               mret (web ++ ios));
  ensure (forallb client_id (values ++ more)) (HTTPException 503);;
  mret (values ++ more).

(** ** Claims *)

Record ProviderClaims := {
  pv_provider : string; pv_subject : string; pv_email : option string; pv_verified : bool; pv_name : option string; pv_assertion : string; pv_audience : string;
}.
(** A value that [in] on a set refuses. *)
Definition unhashable (j : json) : bool := match j with JList _ | JObj _ => true | _ => false end.
(** The audiences of a token: a text, or a list of texts. *)
Definition audiences_of (aud : json) : list string :=
  match aud with JStr a => [a] | JList l => match mapM as_str l with Some texts => texts | None => [] end | _ => [] end.
Definition is_bounded_int (lo hi : Z) (j : json) : bool := match j with JInt n => (lo <=? n) && (n <=? hi) | _ => false end.
(** [exp] and [iat] against the clock. *)
Definition fresh_times (now : Z) (expiration issued_at : json) : bool :=
  match expiration, issued_at with
  | JInt e, JInt i => negb ((e <=? now - 30) || (e <=? i) || (now + 86400 <? e) || (now + 120 <? i) || (i <? now - 86400))
  | _, _ => false
  end.
Definition printable_email (e : string) : bool := negb (320 <? str_len e) && contains "@" e && str_forall (λ c, negb (in_range 0 31 c)) e.
Definition printable_name (n : string) : bool := negb (strip n == "") && negb (120 <? str_len n) && str_forall (λ c, negb (in_range 0 31 c)) n.

(** ** Keys *)

Definition JWKS_UNKNOWN_KEY_REFRESH_SECONDS : Z := 60.
(** [_jwks_cache] and [_jwks_refreshed_at] of one provider; the monotonic clock
    counts whole seconds. *)
Record jwks_state := { jc_cache : option (Z * list json); jc_refreshed : option Z }.
(** [_jwks(provider, force)]; [download] is what [_download_jwks] does, and
    [later] the clock once it has done it. *)
Definition _jwks (now later : Z) (force : bool) (download : res auth_error (list json)) : io auth_error jwks_state (list json) := λ st,
  match jc_cache st with
  | Some (expires, keys) =>
      if negb force && (now <? expires) then (Ok keys, st)
      else if now <? default 0 (jc_refreshed st) + JWKS_UNKNOWN_KEY_REFRESH_SECONDS then (Ok keys, st)
      else match download with
           | Ok keys' => (Ok keys', Build_jwks_state (Some (later + 3600, keys')) (Some now))
           | Err _ => (Ok keys, Build_jwks_state (jc_cache st) (Some now))
           end
  | None =>
      if now <? default 0 (jc_refreshed st) + JWKS_UNKNOWN_KEY_REFRESH_SECONDS then (Err (HTTPException 503), st)
      else match download with
           | Ok keys' => (Ok keys', Build_jwks_state (Some (later + 3600, keys')) (Some now))
           | Err e => (Err e, Build_jwks_state None (Some now))
           end
  end.

Section Verify.
Context `{Codec}.
(** base64 of a segment with its padding, strict [json.loads], and whether the
    key of modulus [n] and exponent [e] signs [message] with [signature]. *)
Context (b64decode : string → option string) (strict_loads : string → option json) (rsa_verify : Z → Z → string → string → bool).

Definition _decode_segment (value : string) (maximum : Z) : res auth_error string :=
  ensure (negb ((value == "") || (maximum * 2 <? str_len value) || negb (_JWT_PART value))) (HTTPException 401);;
  decoded ← of_option (HTTPException 401) (b64decode value);
  ensure (negb (maximum <? str_len decoded)) (HTTPException 401);;
  mret decoded.
Definition _json_object (raw : string) : res auth_error dict := of_option (HTTPException 401) (strict_loads raw ≫= as_dict).

(** [int.from_bytes(raw, "big")] *)
Fixpoint from_bytes (acc : Z) (raw : string) : Z :=
  match raw with EmptyString => acc | String c raw' => from_bytes (256 * acc + Z.of_nat (Ascii.nat_of_ascii c)) raw' end.
Definition none_or (j : json) (s : string) : bool := is_none j || eq_str j s.
Definition _rsa_key (jwk : dict) : res auth_error (Z * Z) :=
  ensure (eq_str (get "kty" jwk) "RSA" && none_or (get "alg" jwk) "RS256" && none_or (get "use" jwk) "sig") (HTTPException 401);;
  n ← of_option (HTTPException 401) (as_str (get "n" jwk));
  e ← of_option (HTTPException 401) (as_str (get "e" jwk));
  n ← _decode_segment n 1024;
  e ← _decode_segment e 8;
  let modulus := from_bytes 0 n in
  let exponent := from_bytes 0 e in
  ensure (negb (modulus <? 2 ^ 2047) && ((exponent =? 3) || (exponent =? 65537))) (HTTPException 401);;
  mret (modulus, exponent).

Definition has_kid (kid : string) (jwk : json) : bool := match as_dict jwk with Some d => eq_str (get "kid" d) kid | None => false end.
(** What the network answers to the two requests a token may cause. *)
Record key_source := { ks_now : Z; ks_later : Z; ks_download : res auth_error (list json); ks_now' : Z; ks_later' : Z; ks_download' : res auth_error (list json) }.
Definition signing_key (net : key_source) (kid : string) : io auth_error jwks_state dict :=
  candidates ← _jwks (ks_now net) (ks_later net) false (ks_download net);
  match List.find (has_kid kid) candidates ≫= as_dict with
  | Some jwk => mret jwk
  | None =>
      candidates ← _jwks (ks_now' net) (ks_later' net) true (ks_download' net);
      pure (of_option (HTTPException 401) (List.find (has_kid kid) candidates ≫= as_dict))
  end.

Definition check_claims (env : string → option string) (now : Z) (provider raw_nonce token : string) (claims : dict) : res auth_error ProviderClaims :=
  let audiences := audiences_of (get "aud" claims) in
  configured ← _configured_ids env provider;
  expected ← (if provider == "apple" then of_option AuthValueError (_hash_token raw_nonce) else mret raw_nonce);
  let azp := get "azp" claims in
  ensure (is_none azp || match azp with JStr a => listed a configured && listed a audiences | _ => false end) (HTTPException 401);;
  ensure (negb (unhashable (get "iss" claims))) AuthTypeError;;
  subject ← of_option (HTTPException 401) (as_str (get "sub" claims));
  ensure (in_strs (get "iss" claims) (_ISSUERS provider) && _SAFE_SUBJECT subject && existsb (λ a, listed a configured) audiences &&
          fresh_times now (get "exp" claims) (get "iat" claims)) (HTTPException 401);;
  nonce ← of_option (HTTPException 401) (as_str (get "nonce" claims));
  same ← compare_digest nonce expected;
  ensure same (HTTPException 401);;
  ensure (negb ((1 <? Z.of_nat (length (remove_dups audiences))) && is_none azp)) (HTTPException 401);;
  audience ← of_option (HTTPException 401) (match azp with JStr a => Some a | _ => head audiences end);
  let verified := is_true (get "email_verified" claims) || eq_str (get "email_verified" claims) "true" in
  let email := match get "email" claims with JStr e => if verified && printable_email e then Some e else None | _ => None end in
  let name := match get "name" claims with JStr n => if printable_name n then Some (strip n) else None | _ => None end in
  mret (Build_ProviderClaims provider subject email (verified && negb (email == None)) name (sha256_hex token) audience).

(** What a token carries, before its signature is checked. *)
Record token_parts := { tp_message : string; tp_kid : string; tp_claims : dict; tp_signature : string }.
Definition parse_token (token raw_nonce : string) : res auth_error token_parts :=
  ensure (negb (token == "") && negb (MAX_ID_TOKEN_BYTES <? utf8_length token) && (32 <=? str_len raw_nonce) && (str_len raw_nonce <=? 128)) (HTTPException 401);;
  match split "."%char token with
  | [p0; p1; p2] =>
      header ← (d ← _decode_segment p0 4096; _json_object d);
      claims ← (d ← _decode_segment p1 (16 * 1024); _json_object d);
      signature ← _decode_segment p2 1024;
      kid ← of_option (HTTPException 401) (as_str (get "kid" header));
      ensure (eq_str (get "alg" header) "RS256" && (1 <=? str_len kid) && (str_len kid <=? 128)) (HTTPException 401);;
      mret (Build_token_parts (p0 +:+ "." +:+ p1) kid claims signature)
  | _ => Err (HTTPException 401)
  end.
Definition verify_identity_token (env : string → option string) (net : key_source) (now : Z) (provider token raw_nonce : string)
    : io auth_error jwks_state ProviderClaims :=
  parts ← pure (parse_token token raw_nonce);
  jwk ← signing_key net (tp_kid parts);
  key ← pure (_rsa_key jwk);
  pure (ensure (rsa_verify key.1 key.2 (tp_signature parts) (tp_message parts)) (HTTPException 401));;
  pure (check_claims env now provider raw_nonce token (tp_claims parts)).
End Verify.
