(* ===== verification/ProviderAuth.v ===== *)
(** * Provider sign-in ([gateway/app/provider_auth.py])

    One-time challenges, the exchange of a verified assertion for a session
    family, the rotation of refresh tokens, and the login methods of an account.

    [urlsplit] and the exchange of an Apple code over HTTP are parameters; what
    other tasks commit while the exchange waits is an argument ([others]). *)

From stdpp Require Import base option list strings numbers sets.
From Stdlib Require Import ZArith Lia Ascii.
From S2P Require Import Prelude Sql Feed Json Text Order Deployment AuthStore Sessions Identity.

Open Scope string_scope.
Open Scope list_scope.
Open Scope Z_scope.

Definition PROVIDER_CHALLENGE_TTL_SECONDS : Z := 10 * 60.
Definition PROVIDER_REFRESH_TTL_SECONDS : Z := 30 * 24 * 60 * 60.
Definition PROVIDER_REFRESH_MAX_TTL_SECONDS : Z := 90 * 24 * 60 * 60.
Definition MAX_ACTIVE_CHALLENGES : Z := 10000.
Definition MAX_EXPIRED_SESSION_FAMILY_CLEANUP : Z := 100.
Definition _SAFE_CHALLENGE (s : string) : bool := startswith "pac_" s && fullmatch_class url_safe 20 40 (str_drop 4 s).
Definition _SAFE_REFRESH (s : string) : bool := startswith "mgr_" s && fullmatch_class url_safe 32 80 (str_drop 4 s).
Definition known_provider (p : string) : bool := listed p ["apple"; "google"].

(** ** Configuration *)

Definition env_text (env : string → option string) (name : string) : string := strip (getenv env name "").
Definition production (env : string → option string) : bool := negb (listed (sql_lower (env_text env "MAGISTRATE_ENV")) development).
Definition _platform_client_ids (env : string → option string) (provider platform : string) : res auth_error (list string) :=
  if provider == "apple" then
    if platform == "web" then mret (option_list (nonempty (env_text env "MAGISTRATE_APPLE_SERVICE_ID")))
    else _validated_client_ids env "MAGISTRATE_APPLE_CLIENT_IDS"
  else _validated_client_ids env (if platform == "web" then "MAGISTRATE_GOOGLE_WEB_CLIENT_IDS" else "MAGISTRATE_GOOGLE_IOS_CLIENT_IDS").
Definition _provider_scopes (env : string → option string) : res auth_error (list string) :=
  scopes ← or_http 503 (_validated_scopes (split ","%char
    (getenv env "MAGISTRATE_PROVIDER_SESSION_SCOPES" "read,account,providers,notifications,voice,command")));
  ensure (negb (listed "response" scopes) && subset ["read"; "account"] scopes) (HTTPException 503);;
  mret scopes.
Definition _refresh_expiry (env : string → option string) (now : Z) : res auth_error Z :=
  ttl ← of_option (HTTPException 503)
    (match env "MAGISTRATE_PROVIDER_REFRESH_TTL_SECONDS" with None => Some PROVIDER_REFRESH_TTL_SECONDS | Some raw => py_int raw end);
  ensure (negb ((ttl <? 3600) || (PROVIDER_REFRESH_MAX_TTL_SECONDS <? ttl))) (HTTPException 503);;
  mret (now + ttl).
Definition apple_settings : list string :=
  ["MAGISTRATE_APPLE_TEAM_ID"; "MAGISTRATE_APPLE_KEY_ID"; "MAGISTRATE_APPLE_PRIVATE_KEY"; "MAGISTRATE_APPLE_SERVICE_ID"].
Record availability := { av_apple : bool; av_apple_native : bool; av_apple_web : bool; av_google : bool; av_google_native : bool; av_google_web : bool }.
Definition some_ids (r : res auth_error (list string)) : res auth_error bool := ids ← r; mret (negb (ids == [])).
Definition provider_availability (env : string → option string) : res auth_error availability :=
  apple_native ← some_ids (_platform_client_ids env "apple" "native");
  let apple_web := forallb (λ name, negb (env_text env name == "")) apple_settings in
  google_native ← some_ids (_platform_client_ids env "google" "native");
  google_web ← some_ids (_platform_client_ids env "google" "web");
  apple ← some_ids (_configured_ids env "apple");
  google ← some_ids (_configured_ids env "google");
  mret (Build_availability apple apple_native apple_web google google_native google_web).

(** ** Redirects *)

(** [urllib.parse.urlsplit]; [None] is [ValueError]. *)
Record url := { u_scheme : string; u_netloc : string; u_hostname : option string; u_username : option string; u_password : option string; u_fragment : string }.
Definition _allowed_redirects (env : string → option string) : list string := stripped_items (getenv env "MAGISTRATE_AUTH_REDIRECT_URIS" "").
Definition is_http (u : url) : bool := listed (u_scheme u) ["http"; "https"].
Definition native_scheme (u : url) : bool := negb (is_http u) && negb (u_scheme u == "") && (u_netloc u == "").
Definition plain_url (u : url) : bool :=
  let local := match u_hostname u with Some h => listed h ["localhost"; "127.0.0.1"; "::1"] | None => false end in
  (u_fragment u == "") && (default "" (u_username u) == "") && (default "" (u_password u) == "") &&
  (((u_scheme u == "https") && negb (u_netloc u == "")) || (local && (u_scheme u == "http")) || native_scheme u).
Definition _validate_redirect_uri (urlsplit : string → option url) (env : string → option string) (value : option string) (required : bool)
    : res auth_error (option string) :=
  match value with
  | None => ensure (negb required) (HTTPException 422);; mret None
  | Some value =>
      ensure (negb (value == "") && negb (1024 <? str_len value) && str_forall (λ c, negb (in_range 0 31 c)) value) (HTTPException 422);;
      u ← of_option (HTTPException 422) (urlsplit value);
      ensure (plain_url u) (HTTPException 422);;
      let allowed := _allowed_redirects env in
      ensure (negb ((negb (allowed == []) && negb (listed value allowed)) || (production env && (allowed == [])))) (HTTPException 422);;
      mret (Some value)
  end.
(** The redirect a platform may ask for. *)
Definition redirect_fits (urlsplit : string → option url) (provider platform : string) (redirect : option string) : bool :=
  let http := match redirect ≫= urlsplit with Some u => is_http u | None => false end in
  negb (((platform == "web") && negb http) || ((platform == "native") && (provider == "google") && http) ||
        ((platform == "native") && (provider == "apple") && negb (redirect == None))).

(** ** Challenges *)

Definition in_families (ids : list string) (id : option string) : bool := match id with Some i => listed i ids | None => false end.
Definition _cleanup_expired_session_families (now : Z) (s : auth_db) : auth_db :=
  let ids := map sf_id (take MAX_EXPIRED_SESSION_FAMILY_CLEANUP
    (order_by (before (λ a b, sf_expires a ?= sf_expires b)) (select (λ f, sf_expires f <=? now) (ad_families s)))) in
  s <| ad_sessions ::= delete_where (λ x, in_families ids (ss_family x)) |>
    <| ad_refresh ::= delete_where (λ r, listed (rf_family r) ids) |>
    <| ad_families ::= delete_where (λ f, listed (sf_id f) ids) |>.
(** What a new challenge retires. *)
Definition retire_challenges (now : Z) (s : auth_db) : auth_db :=
  let s := s <| ad_assertions ::= delete_where (λ a, pa_accepted a <? now - 86400) |> in
  s <| ad_challenges ::= delete_where (λ c, (pc_expires c <? now - 86400) && negb (exists_row (λ a, pa_challenge a == pc_id c) (ad_assertions s))) |>.

Section Providers.
Context `{Codec} (urlsplit : string → option url).

Record fresh_challenge := { fc_id : string; fc_nonce : string }.
Record challenge_payload := { cp_id : string; cp_nonce : string; cp_authorization_nonce : string; cp_redirect : option string; cp_expires : Z }.
Definition check_challenge (env : string → option string) (provider action platform : string) (redirect : option string) (principal : option Principal)
    : res auth_error (option string) :=
  ensure (known_provider provider) (HTTPException 503);;
  ids ← _configured_ids env provider;
  ensure (negb (ids == [])) (HTTPException 503);;
  ensure (negb ((action == "link") && (principal == None))) (HTTPException 401);;
  ensure (negb ((action == "sign_in") && negb (principal == None))) (HTTPException 409);;
  redirect ← _validate_redirect_uri urlsplit env redirect ((platform == "web") || (provider == "google"));
  ensure (redirect_fits urlsplit provider platform redirect) (HTTPException 422);;
  platform_ids ← _platform_client_ids env provider platform;
  ensure (negb (production env && (platform_ids == []))) (HTTPException 503);;
  available ← provider_availability env;
  ensure (negb ((provider == "apple") && (platform == "web") && negb (av_apple_web available))) (HTTPException 503);;
  mret redirect.
Definition create_challenge (env : string → option string) (now : Z) (fresh : fresh_challenge) (provider action platform : string) (redirect : option string)
    (principal : option Principal) : atx challenge_payload :=
  redirect ← lift (check_challenge env provider action platform redirect principal);
  let id := "pac_" +:+ fc_id fresh in
  nonce_hash ← lift (of_option AuthValueError (_hash_token (fc_nonce fresh)));
  modify (_cleanup_expired_session_families now);;
  modify (retire_challenges now);;
  active ← read (λ s, count (λ c, (pc_consumed c == None) && (now <? pc_expires c)) (ad_challenges s));
  require (negb (MAX_ACTIVE_CHALLENGES <=? active)) (HTTPException 503);;
  insert_challenge (Build_challenge id provider action nonce_hash (pr_user <$> principal) platform redirect now (now + PROVIDER_CHALLENGE_TTL_SECONDS) None);;
  mret (Build_challenge_payload id (fc_nonce fresh) (if provider == "apple" then nonce_hash else fc_nonce fresh) redirect (now + PROVIDER_CHALLENGE_TTL_SECONDS)).

(** ** The exchange *)

Definition _display_name (value : option string) : option string :=
  match value with
  | Some v => let n := join " " (words v) in if (n == "") || (80 <? str_len n) || str_exists (in_range 0 31) n then None else Some n
  | None => None
  end.
Record provider_payload := {
  pp_session : session_payload; pp_method : string; pp_refresh_expires : Z; pp_onboarding : bool; pp_refresh_token : string; pp_platform : option string;
}.
Definition _session_payload (env : string → option string) (fresh : fresh_session) (user account provider family : string) (scopes : list string)
    (now refresh_expires : Z) (refresh_token : string) (required : bool) : atx provider_payload :=
  expires ← lift (_configured_session_ttl env now (Some refresh_expires));
  payload ← _insert_session fresh user scopes now expires None (Some family) (Some account);
  mret (Build_provider_payload payload provider refresh_expires required refresh_token None).

Inductive exchange_result := Linked (provider user : string) | SignedIn (p : provider_payload).
(** What [secrets] draws, and the facts of onboarding at the end. *)
Record fresh_exchange := { fx_user : string; fx_account : string; fx_family : string; fx_refresh : string; fx_session : fresh_session }.

(** The challenge as the client must answer it, before anything is verified. *)
Definition challenge_open (now : Z) (provider raw_nonce : string) (principal : option Principal) (c : challenge) : bool :=
  (pc_provider c == provider) && (pc_consumed c == None) && negb (pc_expires c <=? now) && (pc_nonce_hash c == sha256_hex raw_nonce) &&
  negb ((pc_action c == "link") && negb (match principal with Some p => pc_owner c == Some (pr_user p) | None => false end)) &&
  negb ((pc_action c == "sign_in") && negb (principal == None)).
Definition exchange_check (now : Z) (provider id raw_nonce : string) (redirect : option string) (principal : option Principal) (s : auth_db) : res auth_error challenge :=
  ensure (known_provider provider && _SAFE_CHALLENGE id) (HTTPException 401);;
  c ← of_option (HTTPException 401) (fetchone (λ c, pc_id c == id) (ad_challenges s));
  ensure (challenge_open now provider raw_nonce principal c) (HTTPException 401);;
  ensure (redirect == pc_redirect c) (HTTPException 401);;
  mret c.

(** The account an identity signs in to, or is linked to. *)
Definition is_identity (provider subject : string) (a : account) : bool := (ca_provider a == provider) && (ca_subject a == Some subject) && is_login a.
Definition connected_login (user : string) (a : account) : bool := (ca_user a == user) && is_login a && (ca_status a == "connected").
Definition resolve_account (now : Z) (fresh : fresh_exchange) (claims : ProviderClaims) (requested_name : option string) (action : string) (owner : option string)
    : atx (string * string) :=
  let provider := pv_provider claims in
  found ← read (λ s, fetchone (is_identity provider (pv_subject claims)) (ad_accounts s));
  match found with
  | Some a =>
      require (negb ((action == "link") && negb (owner == Some (ca_user a)))) (HTTPException 409);;
      require (negb ((action == "sign_in") && negb (ca_status a == "connected"))) (HTTPException 403);;
      modify (λ s, s <| ad_accounts ::= update (λ x, (ca_id x == ca_id a) && is_login x) (λ x, x <| ca_status := "connected" |>
        <| ca_username ::= (λ n, if n == "" then default "" (pv_email claims) else n) |> <| ca_verified ::= Z.max (if pv_verified claims then 1 else 0) |>
        <| ca_last := Some now |> <| ca_updated := now |>) |>);;
      mret (ca_id a, ca_user a)
  | None =>
      linked ← read (λ s, exists_row (λ a, match owner with Some u => connected_login u a && (ca_provider a == provider) | None => false end) (ad_accounts s));
      require (negb ((action == "link") && linked)) (HTTPException 409);;
      let user := default ("usr_" +:+ fx_user fresh) (owner ≫= nonempty) in
      let id := "login_" +:+ fx_account fresh in
      ensure_profile user (default "" requested_name) (default "" (pv_email claims)) now;;
      insert_account (Build_account id user provider (Some (pv_subject claims)) (default "" (pv_email claims)) "connected" now now "login"
        (if pv_verified claims then 1 else 0) (Some now));;
      mret (id, user)
  end.
Definition complete_profile (now : Z) (user : string) (name email : string) : atx unit :=
  profile ← read (λ s, fetchone (λ p, pf_user p == user) (ad_profiles s));
  require (negb (profile == None)) (HTTPException 503);;
  modify (λ s, s <| ad_profiles ::= update (λ p, pf_user p == user) (λ p, p <| pf_name ::= (λ n, if n == "" then name else n) |>
    <| pf_email ::= (λ e, if e == "" then email else e) |> <| pf_updated := now |>) |>).
Definition new_family (env : string → option string) (now : Z) (fresh : fresh_exchange) (facts : onboarding_facts) (user account provider platform : string) (scopes : list string)
    : atx exchange_result :=
  ensure_provider_onboarding user now;;
  let family := "psf_" +:+ fx_family fresh in
  let token := "mgr_" +:+ fx_refresh fresh in
  expires ← lift (_refresh_expiry env now);
  insert_family (Build_family family user account provider platform (scope_text scopes) now expires now None None);;
  hash ← lift (of_option AuthValueError (_hash_token token));
  insert_refresh (Build_refresh_token hash family now expires None);;
  required ← read (onboarding_required now facts user);
  payload ← _session_payload env (fx_session fresh) user account provider family scopes now expires token required;
  mret (SignedIn (Build_provider_payload (pp_session payload) (pp_method payload) (pp_refresh_expires payload) (pp_onboarding payload) (pp_refresh_token payload)
    (Some platform))).
(** The transaction of [exchange_challenge]. *)
Definition exchange_commit (env : string → option string) (now : Z) (fresh : fresh_exchange) (facts : onboarding_facts) (id : string) (claims : ProviderClaims)
    (requested_name : option string) (scopes : list string) (principal : option Principal) : atx exchange_result :=
  let provider := pv_provider claims in
  row ← read (λ s, fetchone (λ c, pc_id c == id) (ad_challenges s));
  current ← lift (of_option (HTTPException 409) row);
  require ((pc_consumed current == None) && negb (pc_expires current <=? now) && (pc_provider current == provider)) (HTTPException 409);;
  replay ← read (λ s, exists_row (λ a, pa_hash a == pv_assertion claims) (ad_assertions s));
  require (negb replay) (HTTPException 409);;
  who ← resolve_account now fresh claims requested_name (pc_action current) (pr_user <$> principal);
  complete_profile now who.2 (default "" requested_name) (default "" (pv_email claims));;
  modify (λ s, s <| ad_challenges ::= update (λ c, (pc_id c == id) && (pc_consumed c == None)) (λ c, c <| pc_consumed := Some now |>) |>);;
  insert_assertion (Build_assertion (pv_assertion claims) id who.1 now);;
  if pc_action current == "link" then mret (Linked provider who.2)
  else new_family env now fresh facts who.2 who.1 provider (pc_platform current) scopes.

(** [identity_token], or [authorization_code] exchanged with Apple. *)
Definition provider_token (exchange_apple_code : string → option string → res auth_error string) (provider : string) (identity_token authorization_code : option string)
    (redirect : option string) : res auth_error string :=
  match authorization_code ≫= nonempty with
  | Some code =>
      ensure ((provider == "apple") && ((identity_token ≫= nonempty) == None)) (HTTPException 422);;
      token ← exchange_apple_code code redirect;
      of_option (HTTPException 422) (nonempty token)
  | None => of_option (HTTPException 422) (identity_token ≫= nonempty)
  end.
(** [verify] is [verify_identity_token] against the keys of the provider. *)
Definition exchange_challenge (env : string → option string) (verify : string → string → string → res auth_error ProviderClaims)
    (exchange_apple_code : string → option string → res auth_error string) (others : nat → auth_db → auth_db) (now : Z) (fresh : fresh_exchange) (facts : onboarding_facts)
    (provider id raw_nonce : string) (identity_token authorization_code redirect display_name : option string) (principal : option Principal) : aio exchange_result :=
  c ← (λ s, (exchange_check now provider id raw_nonce redirect principal s, s) : res auth_error challenge * auth_db);
  token ← pure (provider_token exchange_apple_code provider identity_token authorization_code redirect);
  await others 0;;
  claims ← pure (verify provider token raw_nonce);
  await others 1;;
  platform_ids ← pure (_platform_client_ids env provider (pc_platform c));
  pure (ensure ((platform_ids == []) || listed (pv_audience claims) platform_ids) (HTTPException 401));;
  scopes ← pure (_provider_scopes env);
  run_tx (exchange_commit env now fresh facts id claims (or_else (_display_name display_name) (pv_name claims)) scopes principal).

(** ** Refresh *)

Record fresh_refresh := { fr_refresh : string; fr_session : fresh_session }.
(** The family of a refresh token, with its account. *)
Definition refresh_row (hash : string) (s : auth_db) : option (refresh_token * family * account) :=
  t ← fetchone (λ t, rf_hash t == hash) (ad_refresh s);
  f ← fetchone (λ f, sf_id f == rf_family t) (ad_families s);
  a ← fetchone (λ a, ca_id a == sf_account f) (ad_accounts s);
  Some (t, f, a).
Definition revoke_family (now : Z) (reason : option string → option string) (id : string) (s : auth_db) : auth_db :=
  let s := s <| ad_families ::= update (λ f, sf_id f == id) (λ f, f <| sf_revoked ::= (λ r, Some (default now r)) |> <| sf_reason ::= reason |>) |> in
  revoke_sessions (λ x, names (ss_family x) id) now s.
(** [None] is a token that may be rotated, else what it means. *)
Definition compromise_reason (platform : string) (t : refresh_token) (f : family) : option string :=
  if negb (rf_consumed t == None) then Some "refresh-reuse" else if negb (sf_platform f == platform) then Some "refresh-channel-mismatch" else None.
Definition refresh_invalid (now : Z) (t : refresh_token) (f : family) (a : account) : bool :=
  negb (sf_revoked f == None) || (sf_expires f <=? now) || (rf_expires t <=? now) || negb (ca_status a == "connected") || negb (ca_kind a == "login") ||
  negb (known_provider (sf_provider f)).
Definition rotate (env : string → option string) (now : Z) (fresh : fresh_refresh) (facts : onboarding_facts) (hash : string) (f : family) : atx provider_payload :=
  let scopes := text_scopes (sf_scopes f) in
  require (negb (scopes == []) && subset scopes KNOWN_SCOPES && negb (listed "response" scopes)) (HTTPException 503);;
  n ← read (λ s, count (λ t, (rf_hash t == hash) && (rf_consumed t == None)) (ad_refresh s));
  modify (λ s, s <| ad_refresh ::= update (λ t, (rf_hash t == hash) && (rf_consumed t == None)) (λ t, t <| rf_consumed := Some now |>) |>);;
  require (n =? 1) (HTTPException 409);;
  modify (revoke_sessions (λ x, names (ss_family x) (sf_id f)) now);;
  let token := "mgr_" +:+ fr_refresh fresh in
  next ← lift (of_option AuthValueError (_hash_token token));
  insert_refresh (Build_refresh_token next (sf_id f) now (sf_expires f) None);;
  modify (λ s, s <| ad_families ::= update (λ x, sf_id x == sf_id f) (λ x, x <| sf_rotated := now |>) |>);;
  required ← read (onboarding_required now facts (sf_user f));
  _session_payload env (fr_session fresh) (sf_user f) (sf_account f) (sf_provider f) (sf_id f) scopes now (sf_expires f) token required.
(** The transaction: what it returns is committed, then raised. *)
Definition refresh_tx (env : string → option string) (now : Z) (fresh : fresh_refresh) (facts : onboarding_facts) (hash platform : string)
    : atx (res auth_error provider_payload) :=
  modify (_cleanup_expired_session_families now);;
  row ← read (refresh_row hash);
  found ← lift (of_option (HTTPException 401) row);
  let '(t, f, a) := found in
  match compromise_reason platform t f with
  | Some reason =>
      modify (revoke_family now (λ _, Some reason) (sf_id f));;
      modify (_revoke_push_delivery (sf_user f) now);;
      mret (Err (HTTPException 401))
  | None =>
      if refresh_invalid now t f a then
        modify (revoke_family now (λ r, Some (default "expired" r)) (sf_id f));;
        mret (Err (HTTPException 401))
      else p ← rotate env now fresh facts hash f; mret (Ok p)
  end.
Definition committed_result {A} (m : atx (res auth_error A)) : aio A := λ s, match commit m s with (Ok r, s') => (r, s') | (Err e, s') => (Err e, s') end.
Definition refresh_session (env : string → option string) (now : Z) (fresh : fresh_refresh) (facts : onboarding_facts) (token platform : string) : aio provider_payload :=
  pure (ensure (listed platform ["native"; "web"]) (HTTPException 400));;
  pure (ensure (_SAFE_REFRESH token) (HTTPException 401));;
  hash ← pure (of_option AuthValueError (_hash_token token));
  committed_result (refresh_tx env now fresh facts hash platform).
(** [public_session_payload]: whether the refresh token is told to the client. *)
Definition public_session_payload (include_refresh_token : bool) (p : provider_payload) : provider_payload * option string :=
  (p, if include_refresh_token then Some (pp_refresh_token p) else None).

(** ** Login methods *)

Record login_method := { lm_provider : string; lm_label : string; lm_current : bool; lm_linked : Z; lm_last : option Z }.
Definition list_login_methods (p : Principal) (s : auth_db) : list login_method :=
  map (λ a, Build_login_method (ca_provider a) (ca_username a) (pr_account p == Some (ca_id a)) (ca_created a) (ca_last a))
    (order_by (before (λ a b, lex (ca_created a ?= ca_created b) (String.compare (ca_provider a) (ca_provider b)))) (select (connected_login (pr_user p)) (ad_accounts s))).
Definition unlink_login_method (now : Z) (p : Principal) (provider : string) : atx unit :=
  require (known_provider provider) (HTTPException 404);;
  methods ← read (λ s, select (connected_login (pr_user p)) (ad_accounts s));
  target ← lift (of_option (HTTPException 404) (List.find (λ a, ca_provider a == provider) methods));
  require (negb (pr_account p == Some (ca_id target))) (HTTPException 409);;
  require (negb (Z.of_nat (length methods) <=? 1)) (HTTPException 409);;
  families ← read (λ s, map sf_id (select (λ f, (sf_account f == ca_id target) && (sf_revoked f == None)) (ad_families s)));
  modify (λ s, s <| ad_accounts ::= update (λ a, ca_id a == ca_id target) (λ a, a <| ca_status := "disconnected" |> <| ca_updated := now |>) |>);;
  modify (λ s, fold_left (λ s id, revoke_family now (λ _, Some "login-method-removed") id s) families s).
End Providers.
