(* ===== verification/AuthInvariant.v ===== *)
(** * What the authentication tables keep

    [backed]: every session that names an authority (a beta grant or a session
    family) is covered by it, and one unrevoked session names it at most. The
    lemmas follow the statements of the code, for both kinds of authority.
    [auth_ok] is the invariant of the whole database. *)

From stdpp Require Import base option list sorting strings numbers sets.
From Stdlib Require Import ZArith Lia Ascii.
From S2P Require Import Prelude Sql Json Text Order AuthStore Sessions ProviderAuth.

Open Scope string_scope.
Open Scope list_scope.
Open Scope Z_scope.

(** ** Authorities *)

Section Authorities.
Context {R : Type} (key : session → option string) (aid auser ascopes : R → string) (aexp : R → Z) (aacc : R → option string).
Context (adead : R → Prop).
Implicit Types (S : list session) (A : list R).

Definition covers (x : session) (a : R) : Prop :=
  key x = Some (aid a) ∧ auser a = ss_user x ∧ ss_expires x ≤ aexp a ∧ ss_account x = aacc a ∧
  (∀ w, w ∈ text_scopes (ss_scopes x) → w ∈ text_scopes (ascopes a)) ∧ (adead a → ss_revoked x ≠ None).
Record backed S A : Prop := {
  bk_ids : NoDup (map aid A);
  bk_auth : ∀ x id, x ∈ S → key x = Some id → ∃ a, a ∈ A ∧ covers x a;
  bk_one : ∀ x y, x ∈ S → y ∈ S → key x = key y → key x ≠ None → ss_revoked x = None → ss_revoked y = None → x = y;
}.

Lemma backed_sub S S' A : (∀ x, x ∈ S' → x ∈ S) → backed S A → backed S' A.
Proof. intros Hsub [Hi Ha Ho]. split; [done|eauto|eauto]. Qed.

Lemma backed_update_auth p g S A : (∀ a, aid (g a) = aid a ∧ auser (g a) = auser a ∧ ascopes (g a) = ascopes a ∧ aexp (g a) = aexp a ∧ aacc (g a) = aacc a ∧ (adead (g a) → adead a)) →
  backed S A → backed S (update p g A).
Proof.
  intros Hg [Hi Ha Ho]. split; [rewrite map_update; [done|]; intros a; by destruct (Hg a)| |done].
  intros x id Hx Hk. destruct (Ha x id Hx Hk) as (a & Hin & Hkx & Hu & He & Hac & Hsc & Hd). eexists. split; [by apply update_in|].
  destruct (p a); [|by split_and!]. destruct (Hg a) as (E1 & E2 & E3 & E4 & E5 & E6). unfold covers. rewrite E1, E2, E3, E4, E5. split_and!; auto.
Qed.

Lemma backed_insert_auth a S A : NoDup (map aid (A ++ [a])) → backed S A → backed S (A ++ [a]).
Proof.
  intros Hn [Hi Ha Ho]. split; [done| |done]. intros x id Hx Hk. destruct (Ha x id Hx Hk) as (b & Hb & Hc). exists b. split; [set_solver|done].
Qed.

Lemma backed_insert x a S A : a ∈ A → covers x a → (∀ y, y ∈ S → key y = Some (aid a) → ss_revoked y ≠ None) → backed S A → backed (S ++ [x]) A.
Proof.
  intros Hin Hc Hnone [Hi Ha Ho]. split; [done|..].
  - intros y id [Hy| ->%list_elem_of_singleton]%elem_of_app Hk; [by eapply Ha|eauto].
  - destruct Hc as [Hk _]. intros y z [Hy| ->%list_elem_of_singleton]%elem_of_app [Hz| ->%list_elem_of_singleton]%elem_of_app E Hn Hy' Hz'; try done; [by apply Ho|..].
    + exfalso. apply (Hnone y Hy); [congruence|done].
    + exfalso. apply (Hnone z Hz); [congruence|done].
Qed.
Lemma backed_insert_other x S A : key x = None → backed S A → backed (S ++ [x]) A.
Proof.
  intros Hk [Hi Ha Ho]. split; [done|..].
  - intros y id [Hy| ->%list_elem_of_singleton]%elem_of_app Hky; [by eapply Ha|congruence].
  - intros y z [Hy| ->%list_elem_of_singleton]%elem_of_app [Hz| ->%list_elem_of_singleton]%elem_of_app E Hn; [by apply Ho|congruence..].
Qed.

(** Authorities are deleted together with their sessions. *)
Lemma backed_delete ids S A : backed S A → backed (delete_where (λ x, in_families ids (key x)) S) (delete_where (λ a, listed (aid a) ids) A).
Proof.
  intros [Hi Ha Ho]. split.
  - by apply NoDup_map_delete.
  - intros x id [Hx Hni]%elem_of_delete Hk. destruct (Ha x id Hx Hk) as (a & Hin & Hc). exists a. split; [|done]. apply elem_of_delete. split; [done|].
    destruct Hc as [Hkx _]. unfold in_families in Hni. by rewrite Hkx in Hni.
  - intros x y [Hx _]%elem_of_delete [Hy _]%elem_of_delete. by apply Ho.
Qed.
Hypothesis key_revoke : ∀ x n, key (x <| ss_revoked := Some n |>) = key x.

(** The two ways a row comes out of a revocation. *)
Lemma revoked_cases p now S x : x ∈ update p (λ x, x <| ss_revoked := Some now |>) S →
  (x ∈ S ∧ p x = false) ∨ ∃ y, y ∈ S ∧ p y = true ∧ x = y <| ss_revoked := Some now |>.
Proof. intros (y & Hy & ->)%elem_of_update. destruct (p y) eqn:E; [right; eauto|left; eauto]. Qed.
Lemma covers_revoke x a now : covers x a → covers (x <| ss_revoked := Some now |>) a.
Proof. intros (H1 & H2 & H3 & H4 & H5 & H6). unfold covers. rewrite key_revoke. simpl. split_and!; try done. Qed.

Lemma backed_revoke p now S A : backed S A → backed (update p (λ x, x <| ss_revoked := Some now |>) S) A.
Proof.
  intros [Hi Ha Ho]. split; [done|..].
  - intros x id [[Hx _]|(y & Hy & _ & ->)]%revoked_cases Hk; [by eapply Ha|]. rewrite key_revoke in Hk.
    destruct (Ha y id Hy Hk) as (a & Hin & Hc). exists a. split; [done|by apply covers_revoke].
  - intros x y [[Hx _]|(x0 & _ & _ & ->)]%revoked_cases [[Hy _]|(y0 & _ & _ & ->)]%revoked_cases; simpl; try done. by apply Ho.
Qed.

(** An authority is retired together with its sessions. *)
Lemma backed_kill id p g now S A : (∀ a, p a = true → aid a = id) → (∀ a, aid (g a) = aid a ∧ auser (g a) = auser a ∧ ascopes (g a) = ascopes a ∧ aexp (g a) = aexp a ∧ aacc (g a) = aacc a) →
  backed S A → backed (update (λ x, names (key x) id && (ss_revoked x == None)) (λ x, x <| ss_revoked := Some now |>) S) (update p g A).
Proof.
  intros Hp Hg Hb. pose proof (backed_revoke (λ x, names (key x) id && (ss_revoked x == None)) now S A Hb) as [Hi Ha Ho]. split; [|..].
  - rewrite map_update; [done|]. intros a. by destruct (Hg a).
  - intros x i Hx Hk. destruct (Ha x i Hx Hk) as (a & Hin & Hkx & Hu & He & Hac & Hsc & Hd). eexists. split; [by apply update_in|].
    destruct (p a) eqn:Epa; [|by split_and!]. destruct (Hg a) as (E1 & E2 & E3 & E4 & E5). unfold covers. rewrite E1, E2, E3, E4, E5. split_and!; try done. intros _ Hrev.
    apply Hp in Epa. apply revoked_cases in Hx as [[Hx Hf]|(y & _ & _ & ->)]; [|done]. unfold names in Hf. rewrite Hkx, Epa, eqb_refl, Hrev in Hf. done.
  - done.
Qed.
End Authorities.

(** ** The database *)

Definition grant_backed : list session → list grant → Prop := backed ss_grant gr_id gr_user gr_scopes gr_expires (λ _, None) (λ g, gr_revoked g ≠ None).
Definition family_backed : list session → list family → Prop :=
  backed ss_family sf_id sf_user sf_scopes sf_expires (λ f, Some (sf_account f)) (λ f, sf_revoked f ≠ None).
Definition known_scopes (text : string) : Prop := ∃ l, text = scope_text l ∧ l ≠ [] ∧ subset l KNOWN_SCOPES = true.
Definition session_ok (x : session) : Prop :=
  known_scopes (ss_scopes x) ∧ ss_grant x ≠ Some "" ∧ ss_family x ≠ Some "" ∧ (ss_family x = None → ss_account x = None) ∧
  (ss_grant x ≠ None → ss_family x = None) ∧ ss_expires x ≤ ss_issued x + 86400.
Definition grant_ok (g : grant) : Prop := gr_id g ≠ "" ∧ known_scopes (gr_scopes g) ∧ "response" ∉ text_scopes (gr_scopes g).
Definition holder (f : family) (a : account) : Prop :=
  ca_id a = sf_account f ∧ is_login a = true ∧ ca_user a = sf_user f ∧ ca_provider a = sf_provider f ∧ (sf_revoked f = None → ca_status a = "connected").
Definition family_ok (accounts : list account) (f : family) : Prop :=
  sf_id f ≠ "" ∧ known_scopes (sf_scopes f) ∧ known_provider (sf_provider f) = true ∧ ∃ a, a ∈ accounts ∧ holder f a.
Definition spare (id : string) (t : refresh_token) : bool := (rf_family t == id) && (rf_consumed t == None).
Definition same_identity (a b : account) : bool := is_login a && is_login b && (ca_provider a == ca_provider b) && negb (ca_subject a == None) && (ca_subject a == ca_subject b).

Record auth_ok (s : auth_db) : Prop := {
  ak_session_ids : NoDup (map ss_id (ad_sessions s));
  ak_session_hashes : NoDup (map ss_hash (ad_sessions s));
  ak_sessions : ∀ x, x ∈ ad_sessions s → session_ok x;
  ak_grants : grant_backed (ad_sessions s) (ad_grants s);
  ak_grant_hashes : NoDup (map gr_hash (ad_grants s));
  ak_grant_rows : ∀ g, g ∈ ad_grants s → grant_ok g;
  ak_families : family_backed (ad_sessions s) (ad_families s);
  ak_family_rows : ∀ f, f ∈ ad_families s → family_ok (ad_accounts s) f;
  ak_account_ids : NoDup (map ca_id (ad_accounts s));
  ak_identities : ∀ a b, a ∈ ad_accounts s → b ∈ ad_accounts s → same_identity a b = true → a = b;
  ak_refresh_hashes : NoDup (map rf_hash (ad_refresh s));
  ak_refresh : ∀ t, t ∈ ad_refresh s → ∃ f, f ∈ ad_families s ∧ sf_id f = rf_family t ∧ rf_expires t = sf_expires f;
  ak_spare : ∀ f, f ∈ ad_families s → count (spare (sf_id f)) (ad_refresh s) = 1;
}.

(** ** Statements *)

Lemma auth_frame s s' : ad_sessions s' = ad_sessions s → ad_grants s' = ad_grants s → ad_accounts s' = ad_accounts s → ad_families s' = ad_families s →
  ad_refresh s' = ad_refresh s → auth_ok s → auth_ok s'.
Proof. intros E1 E2 E3 E4 E5 []. split; rewrite ?E1, ?E2, ?E3, ?E4, ?E5; done. Qed.

Lemma ok_cleanup p s : auth_ok s → auth_ok (s <| ad_sessions ::= delete_where p |>).
Proof.
  intros []. split; simpl; try done; try by apply NoDup_map_delete.
  - intros x [Hx _]%elem_of_delete. auto.
  - eapply backed_sub; [|done]. by intros x [Hx _]%elem_of_delete.
  - eapply backed_sub; [|done]. by intros x [Hx _]%elem_of_delete.
Qed.

Lemma session_ok_revoke x now : session_ok x → session_ok (x <| ss_revoked := Some now |>).
Proof. done. Qed.
Lemma sessions_revoke p now t : (∀ x, x ∈ t → session_ok x) → ∀ x, x ∈ update p (λ x, x <| ss_revoked := Some now |>) t → session_ok x.
Proof. intros Ht x [[Hx _]|(y & Hy & _ & ->)]%revoked_cases; [auto|]. by apply session_ok_revoke, Ht. Qed.
Lemma ok_revoke p now s : auth_ok s → auth_ok (s <| ad_sessions ::= update p (λ x, x <| ss_revoked := Some now |>) |>).
Proof.
  intros []. split; simpl; try done; try by rewrite map_update.
  - by apply sessions_revoke.
  - by apply backed_revoke.
  - by apply backed_revoke.
Qed.

(** A grant is revoked with its sessions, a family with its own. *)
Lemma ok_kill_grant id now s : auth_ok s →
  auth_ok (revoke_sessions (λ x, names (ss_grant x) id) now (s <| ad_grants ::= update (λ g, (gr_id g == id) && (gr_revoked g == None)) (λ g, g <| gr_revoked := Some now |>) |>)).
Proof.
  intros []. split; simpl; try done; try by rewrite map_update.
  - by apply sessions_revoke.
  - apply (backed_kill ss_grant _ _ _ _ _ _ (λ _ _, eq_refl) id); [|done|done]. intros a Ha. by apply andb_true_iff in Ha as [?%eqb_true _].
  - intros g (g0 & Hg0 & ->)%elem_of_update. destruct ((gr_id g0 == id) && (gr_revoked g0 == None)); exact (ak_grant_rows0 g0 Hg0).
  - by apply backed_revoke.
Qed.
Lemma family_ok_revoke accounts f now reason : family_ok accounts f →
  family_ok accounts (f <| sf_revoked ::= (λ r, Some (default now r)) |> <| sf_reason ::= reason |>).
Proof. intros (H1 & H2 & H3 & a & Ha & H4 & H5 & H6 & H7 & _). split_and!; try done. exists a. split; [done|]. by split_and!. Qed.
Lemma ok_kill_family id reason now s : auth_ok s → auth_ok (revoke_family now reason id s).
Proof.
  intros []. unfold revoke_family. split; simpl; try done; try by rewrite map_update.
  - by apply sessions_revoke.
  - by apply backed_revoke.
  - apply (backed_kill ss_family _ _ _ _ _ _ (λ _ _, eq_refl) id); [|done|done]. by intros a Ha%eqb_true.
  - intros f (f0 & Hf0 & ->)%elem_of_update. destruct (sf_id f0 == id); [apply family_ok_revoke|]; by apply ak_family_rows0.
  - intros t Ht. destruct (ak_refresh0 t Ht) as (f & Hf & Hid & He). eexists. split; [by apply update_in|]. by destruct (sf_id f == id).
  - intros f (f0 & Hf0 & ->)%elem_of_update. destruct (sf_id f0 == id); exact (ak_spare0 f0 Hf0).
Qed.
Lemma ok_kill_families ids reason now s : auth_ok s → auth_ok (fold_left (λ s id, revoke_family now reason id s) ids s).
Proof. revert s. induction ids as [|id ids IH]; intros s Hs; [done|]. apply IH. by apply ok_kill_family. Qed.

(** Expired families go with their sessions and tokens. *)
Lemma select_listed_keep ids id t : listed id ids = false → select (spare id) (delete_where (λ r, listed (rf_family r) ids) t) = select (spare id) t.
Proof.
  intros Hid. unfold select, delete_where. induction t as [|x t IH]; simpl; [done|]. destruct (listed (rf_family x) ids) eqn:E; simpl; [|by rewrite IH].
  rewrite IH. unfold spare. destruct (rf_family x == id) eqn:Ex; [|done]. apply eqb_true in Ex. congruence.
Qed.
Lemma ok_delete_families ids s : auth_ok s →
  auth_ok (s <| ad_sessions ::= delete_where (λ x, in_families ids (ss_family x)) |> <| ad_refresh ::= delete_where (λ r, listed (rf_family r) ids) |>
    <| ad_families ::= delete_where (λ f, listed (sf_id f) ids) |>).
Proof.
  intros []. split; simpl; try done; try by apply NoDup_map_delete.
  - intros x [Hx _]%elem_of_delete. auto.
  - eapply backed_sub; [|done]. by intros x [Hx _]%elem_of_delete.
  - by apply backed_delete.
  - intros f [Hf _]%elem_of_delete. auto.
  - intros t [Ht Hni]%elem_of_delete. destruct (ak_refresh0 t Ht) as (f & Hf & Hid & He). exists f. split; [|done]. apply elem_of_delete. by rewrite Hid.
  - intros f [Hf Hni]%elem_of_delete. unfold count. rewrite select_listed_keep by done. by apply ak_spare0.
Qed.

(** ** Scopes in a column *)

Definition free_of (c : Ascii.ascii) (w : string) : bool := str_forall (λ d, negb (Ascii.eqb d c)) w.
Lemma split_free c w : free_of c w = true → split c w = [w].
Proof. unfold free_of. induction w as [|d w IH]; simpl; [done|]. intros [Hd%negb_true_iff Hw]%andb_true_iff. by rewrite Hd, IH. Qed.
Lemma split_app c w rest : free_of c w = true → split c (w +:+ String c rest) = w :: split c rest.
Proof.
  unfold free_of. induction w as [|d w IH]; simpl; [by rewrite Ascii.eqb_refl|]. intros [Hd%negb_true_iff Hw]%andb_true_iff.
  change (String d w +:+ String c rest) with (String d (w +:+ String c rest)). simpl. by rewrite Hd, IH.
Qed.
Lemma split_join c l : l ≠ [] → (∀ w, w ∈ l → free_of c w = true) → split c (join (String c "") l) = l.
Proof.
  induction l as [|w l IH]; [done|]. intros _ Hf. destruct l as [|v l]; [apply split_free, Hf; by left|].
  change (join (String c "") (w :: v :: l)) with (w +:+ String c (join (String c "") (v :: l))). rewrite split_app by (apply Hf; by left).
  f_equal. apply IH; [done|]. intros x Hx. apply Hf. by right.
Qed.

Lemma subset_spec l1 l2 : subset l1 l2 = true ↔ ∀ w, w ∈ l1 → w ∈ l2.
Proof.
  unfold subset. rewrite forallb_forall. split; intros Hall w Hw.
  - apply listed_spec, Hall. by apply list_elem_of_In.
  - apply listed_spec, Hall. by apply list_elem_of_In.
Qed.
Lemma elem_of_sorted w l : w ∈ sorted l ↔ w ∈ l.
Proof. unfold sorted. by rewrite elem_of_order_by, elem_of_remove_dups. Qed.
Lemma known_scope w : w ∈ KNOWN_SCOPES → free_of ","%char w = true ∧ w ≠ "" ∧ strip w = w.
Proof.
  intros Hw. assert (forallb (λ w, free_of ","%char w && negb (w == "") && (strip w == w)) KNOWN_SCOPES = true) as Hall by (vm_compute; reflexivity).
  rewrite forallb_forall in Hall. apply list_elem_of_In, Hall, andb_true_iff in Hw as [[Hc Hn%negb_true_iff%eqb_false]%andb_true_iff Hs%eqb_true]. done.
Qed.
Lemma split_scope_text l : l ≠ [] → subset l KNOWN_SCOPES = true → split ","%char (scope_text l) = sorted l.
Proof.
  intros Hn Hk. rewrite subset_spec in Hk. apply (split_join ","%char).
  - destruct l as [|w l]; [done|]. intros E. assert (w ∈ sorted (w :: l)) as Hw by (apply elem_of_sorted; by left). rewrite E in Hw. by apply not_elem_of_nil in Hw.
  - intros w Hw. rewrite elem_of_sorted in Hw. by destruct (known_scope w (Hk w Hw)) as [? _].
Qed.
(** The column gives the set back. *)
Lemma text_scopes_spec l w : l ≠ [] → subset l KNOWN_SCOPES = true → w ∈ text_scopes (scope_text l) ↔ w ∈ l.
Proof.
  intros Hn Hk. unfold text_scopes. rewrite split_scope_text, elem_of_select, elem_of_sorted by done. split; [naive_solver|]. intros Hw. split; [done|].
  rewrite subset_spec in Hk. apply Hk, known_scope in Hw as (_ & Hw & _). by apply negb_true_iff, eqb_neq.
Qed.
Lemma validated_spec values l : _validated_scopes values = Ok l → l ≠ [] ∧ subset l KNOWN_SCOPES = true ∧ ∀ w, w ∈ l → ∃ p, p ∈ values ∧ w = strip p.
Proof.
  unfold _validated_scopes. intros ([] & Hc%ensure_ok & [= <-])%res_bind_ok.
  apply andb_true_iff in Hc as [Hn Hk].
  split; [intros E; by rewrite E in Hn|]. split; [done|]. intros w Hw. rewrite elem_of_remove_dups in Hw. apply elem_of_select in Hw as [(p & -> & Hp)%list_elem_of_fmap _]. eauto.
Qed.
(** Validating a column again gives the set it holds. *)
Lemma revalidated text l : known_scopes text → _validated_scopes (split ","%char text) = Ok l → ∀ w, w ∈ l → w ∈ text_scopes text.
Proof.
  intros (l0 & -> & Hn & Hk) (_ & _ & Hin)%validated_spec w Hw. destruct (Hin w Hw) as (p & Hp & ->). rewrite split_scope_text in Hp by done.
  rewrite elem_of_sorted in Hp. apply text_scopes_spec; [done..|]. rewrite subset_spec in Hk. destruct (known_scope p (Hk p Hp)) as (_ & _ & E). by rewrite E.
Qed.
Lemma known_scopes_text l : l ≠ [] → subset l KNOWN_SCOPES = true → known_scopes (scope_text l).
Proof. intros. by exists l. Qed.

(** ** Inserts *)

Lemma auth_insert_ok {R} (get : auth_db → list R) set clash (r : R) s (u : unit) s' :
  insert_row get set clash r s = Ok (u, s') ↔ (∀ x, x ∈ get s → clash r x = false) ∧ s' = set (get s ++ [r]) s.
Proof.
  unfold insert_row. split.
  - destruct (insert clash r (get s)) as [t|] eqn:E; [|done]. intros [= <- <-]. by apply insert_some in E as [-> ?].
  - intros [Hf ->]. rewrite insert_fresh by done. by destruct u.
Qed.
Lemma NoDup_snoc_fresh {R} (k : R → string) (r : R) t : (∀ x, x ∈ t → k r ≠ k x) → NoDup (map k t) → NoDup (map k (t ++ [r])).
Proof.
  intros Hf Hn. rewrite map_app. apply NoDup_app. split; [done|]. split; [|apply NoDup_singleton].
  intros i (x & -> & Hx)%list_elem_of_fmap Ei%list_elem_of_singleton. by apply (Hf x Hx).
Qed.

Definition live_free (key : session → option string) (id : string) (t : list session) : Prop := ∀ y, y ∈ t → key y = Some id → ss_revoked y ≠ None.
Lemma live_free_revoked key id now t : (∀ x n, key (x <| ss_revoked := Some n |>) = key x) →
  live_free key id (update (λ x, names (key x) id && (ss_revoked x == None)) (λ x, x <| ss_revoked := Some now |>) t).
Proof.
  intros Hk y [[Hy Hf]|(z & _ & _ & ->)]%revoked_cases E; [|done]. unfold names in Hf. rewrite E, eqb_refl, andb_true_l in Hf. by apply bool_decide_eq_false in Hf.
Qed.

Lemma ok_insert_session x s : auth_ok s → session_ok x → (∀ y, y ∈ ad_sessions s → session_clash x y = false) →
  (∀ id, ss_grant x = Some id → live_free ss_grant id (ad_sessions s) ∧
    ∃ g, g ∈ ad_grants s ∧ gr_id g = id ∧ gr_user g = ss_user x ∧ ss_expires x ≤ gr_expires g ∧ ss_account x = None ∧ gr_revoked g = None ∧
      ∀ w, w ∈ text_scopes (ss_scopes x) → w ∈ text_scopes (gr_scopes g)) →
  (∀ id, ss_family x = Some id → live_free ss_family id (ad_sessions s) ∧
    ∃ f, f ∈ ad_families s ∧ sf_id f = id ∧ sf_user f = ss_user x ∧ ss_expires x ≤ sf_expires f ∧ ss_account x = Some (sf_account f) ∧ sf_revoked f = None ∧
      ∀ w, w ∈ text_scopes (ss_scopes x) → w ∈ text_scopes (sf_scopes f)) →
  auth_ok (s <| ad_sessions ::= (λ t, t ++ [x]) |>).
Proof.
  intros [] Hx Hfresh Hg Hf.
  assert (∀ y, y ∈ ad_sessions s → ss_id x ≠ ss_id y ∧ ss_hash x ≠ ss_hash y) as Hne.
  { intros y Hy. specialize (Hfresh y Hy). unfold session_clash in Hfresh. apply orb_false_iff in Hfresh as [?%eqb_false ?%eqb_false]. done. }
  split; simpl; try done.
  - apply NoDup_snoc_fresh; [|done]. intros y Hy. by apply Hne.
  - apply NoDup_snoc_fresh; [|done]. intros y Hy. by apply Hne.
  - intros y [Hy| ->%list_elem_of_singleton]%elem_of_app; auto.
  - destruct (ss_grant x) as [id|] eqn:E; [|by apply backed_insert_other]. destruct (Hg id eq_refl) as (Hfree & g & Hin & <- & ? & ? & ? & Hr & Hsc).
    apply (backed_insert _ _ _ _ _ _ _ x g); [done| |exact Hfree|done]. unfold covers. rewrite E, ?Hr. by split_and!.
  - destruct (ss_family x) as [id|] eqn:E; [|by apply backed_insert_other]. destruct (Hf id eq_refl) as (Hfree & f & Hin & <- & ? & ? & ? & Hr & Hsc).
    apply (backed_insert _ _ _ _ _ _ _ x f); [done| |exact Hfree|done]. unfold covers. rewrite E, ?Hr. by split_and!.
Qed.

Lemma ok_insert_grant g s : auth_ok s → grant_ok g → (∀ y, y ∈ ad_grants s → grant_clash g y = false) → auth_ok (s <| ad_grants ::= (λ t, t ++ [g]) |>).
Proof.
  intros [] Hg Hfresh. assert (∀ y, y ∈ ad_grants s → gr_id g ≠ gr_id y ∧ gr_hash g ≠ gr_hash y) as Hne.
  { intros y Hy. specialize (Hfresh y Hy). unfold grant_clash in Hfresh. by apply orb_false_iff in Hfresh as [?%eqb_false ?%eqb_false]. }
  split; simpl; try done.
  - apply backed_insert_auth; [|exact ak_grants0]. apply NoDup_snoc_fresh; [intros y Hy; by apply Hne|apply ak_grants0].
  - apply NoDup_snoc_fresh; [|done]. intros y Hy. by apply Hne.
  - intros y [Hy| ->%list_elem_of_singleton]%elem_of_app; auto.
Qed.
Lemma ok_touch_grant p f s : (∀ g, gr_id (f g) = gr_id g ∧ gr_hash (f g) = gr_hash g ∧ gr_user (f g) = gr_user g ∧ gr_scopes (f g) = gr_scopes g ∧
    gr_expires (f g) = gr_expires g ∧ gr_revoked (f g) = gr_revoked g) → auth_ok s → auth_ok (s <| ad_grants ::= update p f |>).
Proof.
  intros Hf []. split; simpl; try done.
  - apply backed_update_auth; [|done]. intros g. destruct (Hf g) as (-> & _ & -> & -> & -> & ->). done.
  - rewrite map_update; [done|]. intros g. by destruct (Hf g) as (_ & -> & _).
  - intros g (g0 & Hg0 & ->)%elem_of_update. specialize (ak_grant_rows0 g0 Hg0). destruct (p g0); [|done]. unfold grant_ok in *.
    by destruct (Hf g0) as (-> & _ & _ & -> & _).
Qed.

(** ** Accounts *)

Lemma identity_spec a b : same_identity a b = true → is_login a = true ∧ is_login b = true ∧ ca_provider a = ca_provider b ∧ ca_subject a = ca_subject b ∧ ca_subject a ≠ None.
Proof.
  unfold same_identity. intros [[[[Ha Hb]%andb_true_iff Hp%eqb_true]%andb_true_iff Hn%negb_true_iff%bool_decide_eq_false]%andb_true_iff Hs%eqb_true]%andb_true_iff. done.
Qed.
Lemma identity_sym a b : same_identity a b = true → same_identity b a = true.
Proof.
  intros (Ha & Hb & Hp & Hs & Hn)%identity_spec. unfold same_identity. rewrite Ha, Hb, Hp, Hs, !eqb_refl, andb_true_r. simpl. apply negb_true_iff, bool_decide_eq_false. congruence.
Qed.
Lemma family_ok_more l l' f : (∀ a, a ∈ l → holder f a → ∃ b, b ∈ l' ∧ holder f b) → family_ok l f → family_ok l' f.
Proof. intros Hl (H1 & H2 & H3 & a & Ha & Hh). destruct (Hl a Ha Hh) as (b & ? & ?). split_and!; eauto. Qed.

Lemma ok_insert_account a s : auth_ok s → (∀ y, y ∈ ad_accounts s → account_clash a y = false) → auth_ok (s <| ad_accounts ::= (λ t, t ++ [a]) |>).
Proof.
  intros [] Hfresh. assert (∀ y, y ∈ ad_accounts s → ca_id a ≠ ca_id y ∧ same_identity a y = false) as Hne.
  { intros y Hy. specialize (Hfresh y Hy). unfold account_clash in Hfresh. by apply orb_false_iff in Hfresh as [?%eqb_false ?]. }
  split; simpl; try done.
  - intros f Hf. eapply family_ok_more; [|by apply ak_family_rows0]. intros b Hb Hh. exists b. split; [set_solver|done].
  - apply NoDup_snoc_fresh; [|done]. intros y Hy. by apply Hne.
  - intros x y [Hx| ->%list_elem_of_singleton]%elem_of_app [Hy| ->%list_elem_of_singleton]%elem_of_app E; auto.
    + apply identity_sym in E. destruct (Hne x Hx). congruence.
    + destruct (Hne y Hy). congruence.
Qed.

(** An update that keeps what an account is. *)
Definition keeps_account (f : account → account) : Prop :=
  ∀ a, ca_id (f a) = ca_id a ∧ ca_user (f a) = ca_user a ∧ ca_provider (f a) = ca_provider a ∧ ca_subject (f a) = ca_subject a ∧ ca_kind (f a) = ca_kind a.
Lemma ok_update_account p f s : keeps_account f →
  (∀ a, a ∈ ad_accounts s → p a = true → ca_status (f a) = "connected" ∨ ∀ fam, fam ∈ ad_families s → sf_account fam = ca_id a → sf_revoked fam ≠ None) →
  auth_ok s → auth_ok (s <| ad_accounts ::= update p f |>).
Proof.
  intros Hk Hst []. split; simpl; try done.
  - intros fam Hf. destruct (ak_family_rows0 fam Hf) as (H1 & H2 & H3 & a & Ha & Hid & Hl & Hu & Hp & Hc). split_and!; try done.
    eexists. split; [by apply update_in|]. destruct (p a) eqn:Epa; [|by split_and!]. destruct (Hk a) as (E1 & E2 & E3 & E4 & E5).
    unfold holder, is_login in *. rewrite E1, E2, E3, E5. split_and!; try done. intros Hr. destruct (Hst a Ha Epa) as [?|Hdead]; [done|]. by destruct (Hdead fam Hf (eq_sym Hid)).
  - rewrite map_update; [done|]. intros a. by destruct (Hk a).
  - intros x y (x0 & Hx & ->)%elem_of_update (y0 & Hy & ->)%elem_of_update E.
    assert (same_identity x0 y0 = true) as E0.
    { revert E. unfold same_identity, is_login. destruct (Hk x0) as (_ & _ & A1 & A2 & A3), (Hk y0) as (_ & _ & B1 & B2 & B3).
      destruct (p x0), (p y0); by rewrite ?A1, ?A2, ?A3, ?B1, ?B2, ?B3. }
    by rewrite (ak_identities0 x0 y0 Hx Hy E0).
Qed.

(** ** Families and refresh tokens *)

Lemma spare_none id t : (∀ x, x ∈ t → rf_family x ≠ id) → count (spare id) t = 0.
Proof.
  intros Hf. unfold count. rewrite select_none; [done|]. intros x Hx. unfold spare. by rewrite (eqb_neq _ _ (Hf x Hx)).
Qed.
Lemma count_spare_snoc id t x : count (spare id) (t ++ [x]) = count (spare id) t + (if spare id x then 1 else 0).
Proof. unfold count. rewrite select_app, length_app. simpl. destruct (spare id x); simpl; lia. Qed.

Lemma ok_new_family f t s : auth_ok s → family_ok (ad_accounts s) f → (∀ y, y ∈ ad_families s → family_clash f y = false) →
  (∀ y, y ∈ ad_refresh s → refresh_clash t y = false) → rf_family t = sf_id f → rf_expires t = sf_expires f → rf_consumed t = None →
  auth_ok (s <| ad_families ::= (λ l, l ++ [f]) |> <| ad_refresh ::= (λ l, l ++ [t]) |>).
Proof.
  intros [] Hf Hfresh Hfresht Hid Hexp Hc. assert (∀ y, y ∈ ad_families s → sf_id f ≠ sf_id y) as Hne by (intros y Hy; by apply eqb_false, Hfresh).
  assert (∀ x, x ∈ ad_refresh s → rf_family x ≠ sf_id f) as Hnone.
  { intros x Hx E. destruct (ak_refresh0 x Hx) as (g & Hg & Eg & _). apply (Hne g Hg). congruence. }
  split; simpl; try done.
  - apply backed_insert_auth; [|done]. apply NoDup_snoc_fresh; [done|apply ak_families0].
  - intros y [Hy| ->%list_elem_of_singleton]%elem_of_app; auto.
  - apply NoDup_snoc_fresh; [|done]. intros y Hy. by apply eqb_false, Hfresht.
  - intros x [Hx| ->%list_elem_of_singleton]%elem_of_app; [|exists f; split; [set_solver|by split]].
    destruct (ak_refresh0 x Hx) as (g & Hg & ?). exists g. split; [set_solver|done].
  - intros y [Hy| ->%list_elem_of_singleton]%elem_of_app; rewrite count_spare_snoc; unfold spare at 2; rewrite Hid, Hc.
    + rewrite (eqb_neq _ _ (Hne y Hy)). simpl. rewrite ak_spare0 by done. lia.
    + rewrite eqb_refl, spare_none by done. done.
Qed.
Lemma ok_touch_family p g s : (∀ f, sf_id (g f) = sf_id f ∧ sf_user (g f) = sf_user f ∧ sf_account (g f) = sf_account f ∧ sf_provider (g f) = sf_provider f ∧
    sf_scopes (g f) = sf_scopes f ∧ sf_expires (g f) = sf_expires f ∧ sf_revoked (g f) = sf_revoked f) → auth_ok s → auth_ok (s <| ad_families ::= update p g |>).
Proof.
  intros Hg []. split; simpl; try done.
  - apply backed_update_auth; [|done]. intros f. destruct (Hg f) as (-> & -> & -> & _ & -> & -> & ->). done.
  - intros f (f0 & Hf0 & ->)%elem_of_update. specialize (ak_family_rows0 f0 Hf0). destruct (p f0); [|done]. unfold family_ok, holder in *.
    by destruct (Hg f0) as (-> & -> & -> & -> & -> & _ & ->).
  - intros t Ht. destruct (ak_refresh0 t Ht) as (f & Hf & Hid & He). eexists. split; [by apply update_in|]. destruct (p f); [|done].
    by destruct (Hg f) as (-> & _ & _ & _ & _ & -> & _).
  - intros f (f0 & Hf0 & ->)%elem_of_update. destruct (p f0); [|by apply ak_spare0]. destruct (Hg f0) as (-> & _). by apply ak_spare0.
Qed.

(** The token is consumed and its successor inserted. *)
Definition consume (hash : string) (now : Z) : list refresh_token → list refresh_token :=
  update (λ t, (rf_hash t == hash) && (rf_consumed t == None)) (λ t, t <| rf_consumed := Some now |>).
Lemma consume_rows hash now l x : x ∈ consume hash now l → ∃ y, y ∈ l ∧ rf_hash x = rf_hash y ∧ rf_family x = rf_family y ∧ rf_expires x = rf_expires y.
Proof. intros (y & Hy & ->)%elem_of_update. exists y. by destruct ((rf_hash y == hash) && (rf_consumed y == None)). Qed.
Lemma count_consume hash now id l t : NoDup (map rf_hash l) → t ∈ l → rf_hash t = hash → rf_consumed t = None →
  count (spare id) (consume hash now l) = count (spare id) l - (if spare id t then 1 else 0).
Proof.
  intros Hn Ht Hh Hc. induction l as [|x l IH]; [by apply not_elem_of_nil in Ht|]. simpl in Hn. apply NoDup_cons in Hn as [Hx Hn].
  unfold consume, update, count, select in *. cbn [map List.filter]. apply elem_of_cons in Ht as [->|Ht].
  - rewrite Hh, Hc, eqb_refl. simpl. assert (List.map (λ r, if (rf_hash r == hash) && (rf_consumed r == None) then r <| rf_consumed := Some now |> else r) l = l) as ->.
    { apply update_id. intros y Hy E. apply andb_true_iff in E as [E%eqb_true _]. exfalso. apply Hx. rewrite Hh, <- E. by apply list_elem_of_fmap_2. }
    assert (spare id (x <| rf_consumed := Some now |>) = false) as -> by (unfold spare; simpl; apply andb_false_r).
    destruct (spare id x); simpl length; lia.
  - assert (rf_hash x ≠ hash) as Hne by (intros E; apply Hx; rewrite E, <- Hh; by apply list_elem_of_fmap_2). rewrite (eqb_neq _ _ Hne). cbn [andb].
    specialize (IH Hn Ht). destruct (spare id x); simpl length; lia.
Qed.
Lemma ok_rotate hash now t next f s : auth_ok s → t ∈ ad_refresh s → rf_hash t = hash → rf_consumed t = None → rf_family t = sf_id f → f ∈ ad_families s →
  (∀ y, y ∈ consume hash now (ad_refresh s) → refresh_clash next y = false) → rf_family next = sf_id f → rf_expires next = sf_expires f → rf_consumed next = None →
  auth_ok (s <| ad_refresh ::= (λ l, consume hash now l ++ [next]) |>).
Proof.
  intros [] Ht Hh Hc Hfam Hf Hfresh Hid Hexp Hnc. split; simpl; try done.
  - apply NoDup_snoc_fresh; [intros y Hy; by apply eqb_false, Hfresh|]. unfold consume. rewrite map_update; done.
  - intros x [(y & Hy & Eh & Ef & Ee)%consume_rows| ->%list_elem_of_singleton]%elem_of_app; [|exists f; by rewrite Hid].
    destruct (ak_refresh0 y Hy) as (g & Hg & ? & ?). exists g. rewrite Ef, Ee. done.
  - intros g Hg. rewrite count_spare_snoc, (count_consume _ _ _ _ t), ak_spare0 by done. unfold spare. rewrite Hfam, Hid, Hc, Hnc. lia.
Qed.
