(* ===== verification/AuthSteps.v ===== *)
(** * Every operation keeps the authentication tables

    One lemma per operation of [auth.py] and [provider_auth.py], and
    [auth_reachable]: the states of a gateway that runs them in any order. *)

From stdpp Require Import base option list sorting strings numbers sets.
From Stdlib Require Import ZArith Lia Ascii.
From S2P Require Import Prelude Sql Feed Json Text Order Deployment AuthStore Sessions Identity ProviderAuth AuthInvariant.

Open Scope string_scope.
Open Scope list_scope.
Open Scope Z_scope.

(** What profiles, push destinations and onboarding do not touch. *)
Definition same_auth (s s' : auth_db) : Prop :=
  ad_sessions s' = ad_sessions s ∧ ad_grants s' = ad_grants s ∧ ad_accounts s' = ad_accounts s ∧ ad_families s' = ad_families s ∧ ad_refresh s' = ad_refresh s ∧
  ad_challenges s' = ad_challenges s ∧ ad_assertions s' = ad_assertions s.
Lemma same_ok s s' : same_auth s s' → auth_ok s → auth_ok s'.
Proof. intros (E1 & E2 & E3 & E4 & E5 & _). by apply auth_frame. Qed.
Lemma same_trans s1 s2 s3 : same_auth s1 s2 → same_auth s2 s3 → same_auth s1 s3.
Proof. intros (E1 & E2 & E3 & E4 & E5 & E6 & E7) (F1 & F2 & F3 & F4 & F5 & F6 & F7). unfold same_auth. split_and!; congruence. Qed.
Lemma same_push user now s : same_auth s (_revoke_push_delivery user now s).
Proof. done. Qed.
Lemma same_push_all users now s : same_auth s (fold_left (λ s user, _revoke_push_delivery user now s) users s).
Proof. revert s. induction users as [|u users IH]; intros s; [done|]. eapply same_trans; [apply (same_push u now)|apply IH]. Qed.
Lemma ensure_profile_ok user name email now s (u : unit) s' : ensure_profile user name email now s = Ok (u, s') → same_auth s s'.
Proof. intros ->%modify_ok. by destruct (exists_row _ _). Qed.
Lemma ensure_onboarding_ok user now s (u : unit) s' : ensure_provider_onboarding user now s = Ok (u, s') → same_auth s s'.
Proof. intros ->%modify_ok. by destruct (exists_row _ _). Qed.
Create HintDb auth.
#[export] Hint Resolve same_ok same_push same_push_all : auth.

Lemma suspend_same now s : same_auth (revoke_sessions (λ x, negb (ss_grant x == None)) now s) (_suspend_friend_beta_sessions_and_push now s).
Proof. unfold _suspend_friend_beta_sessions_and_push. apply same_push_all. Qed.
Lemma suspend_ok now s : auth_ok s → auth_ok (_suspend_friend_beta_sessions_and_push now s).
Proof. intros Hs. eapply same_ok; [apply suspend_same|]. by apply ok_revoke. Qed.

Section Steps.
Context `{Codec} (urlsplit : string → option url).

(** ** Sessions *)

Lemma insert_session_ok fresh user scopes now expires g f a s p s' : _insert_session fresh user scopes now expires g f a s = Ok (p, s') →
  ∃ hash, _hash_token (fs_token fresh) = Some hash ∧
    let x := Build_session (fs_id fresh) hash user (scope_text scopes) now expires None g f a in
    (∀ y, y ∈ ad_sessions s → session_clash x y = false) ∧ s' = s <| ad_sessions ::= (λ t, t ++ [x]) |> ∧
    p = Build_session_payload (fs_token fresh) expires (sorted scopes) user.
Proof.
  unfold _insert_session. intros (hash & s1 & [Hh%of_option_ok <-]%lift_ok & Hi)%bind_ok. apply bind_ok in Hi as ([] & s1 & [Hf ->]%auth_insert_ok & [<- <-]%ret_ok).
  exists hash. by split_and!.
Qed.
Lemma ttl_spec env now cap expires : _configured_session_ttl env now cap = Ok expires →
  expires ≤ now + 86400 ∧ match cap with Some c => expires ≤ c | None => now < expires end.
Proof.
  unfold _configured_session_ttl. intros (ttl & _ & ([] & Hc%ensure_ok & [= <-])%res_bind_ok)%res_bind_ok. apply negb_true_iff, orb_false_iff in Hc as [H1 H2].
  destruct cap; lia.
Qed.
Lemma or_http_ok {A} code (r : res auth_error A) a : or_http code r = Ok a ↔ r = Ok a.
Proof. destruct r; simpl; naive_solver. Qed.

Lemma grant_scopes_spec env hosted scopes allow l : grant_scopes env hosted scopes allow = Ok l → l ≠ [] ∧ subset l KNOWN_SCOPES = true ∧ "response" ∉ l.
Proof.
  unfold grant_scopes. intros (l' & (Hn & Hk & _)%validated_spec & Hr)%res_bind_ok. apply res_bind_ok in Hr as ([] & _ & Hr).
  apply res_bind_ok in Hr as ([] & Hresp%ensure_ok%negb_true_iff & Hr). apply res_bind_ok in Hr as ([] & _ & Hr). apply res_bind_ok in Hr as ([] & _ & [= ->]).
  split_and!; try done. intros Hin%listed_spec. congruence.
Qed.

(** A grant is created for a user without a live one. *)
Lemma grant_cases env hosted now fresh user scopes ttl allow s p s' : create_friend_beta_access_grant env hosted now fresh user scopes ttl allow s = Ok (p, s') →
  ∃ g, same_auth (s <| ad_grants ::= (λ t, t ++ [g]) |>) s' ∧ grant_ok g ∧ (∀ y, y ∈ ad_grants s → grant_clash g y = false) ∧
    gr_id g = gp_id p ∧ gr_user g = strip user ∧ gr_created g = now ∧ gr_expires g = now + ttl ∧ gr_revoked g = None ∧ 3600 ≤ ttl ≤ FRIEND_BETA_GRANT_MAX_TTL_SECONDS ∧
    (∀ y, y ∈ ad_grants s → gr_user y = strip user → gr_revoked y = None → gr_expires y ≤ now) ∧ strip user ≠ strip (getenv env "MAGISTRATE_BOOTSTRAP_USER_ID" "default_user").
Proof.
  unfold create_friend_beta_access_grant. cbv zeta. intros ([] & s1 & [_ <-]%require_ok & Hc)%bind_ok. apply bind_ok in Hc as ([] & s1 & [Howner <-]%require_ok & Hc).
  apply bind_ok in Hc as (l & s1 & [(Hn & Hk & Hresp)%grant_scopes_spec <-]%lift_ok & Hc). apply bind_ok in Hc as ([] & s1 & [Httl <-]%require_ok & Hc).
  apply bind_ok in Hc as (ex & s1 & [Hex <-]%read_ok & Hc). apply bind_ok in Hc as ([] & s1 & [Hnone%negb_true_iff <-]%require_ok & Hc).
  apply bind_ok in Hc as (hash & s1 & [_ <-]%lift_ok & Hc). apply bind_ok in Hc as ([] & s1 & [Hf ->]%auth_insert_ok & Hc).
  apply bind_ok in Hc as ([] & s2 & Hp%ensure_profile_ok & Hc). apply bind_ok in Hc as ([] & s3 & ->%modify_ok & [<- <-]%ret_ok).
  eexists. split; [eapply same_trans; [exact Hp|apply same_push]|]. split; [|split; [exact Hf|]].
  { split; [done|]. split; [by apply known_scopes_text|]. intros Hin. apply Hresp. by apply (text_scopes_spec l). }
  do 5 (split; [done|]). split; [lia|]. split.
  - intros y Hy Hu Hr. subst ex. pose proof (proj1 (exists_row_false _ _) Hnone y Hy) as Hy'. cbv beta in Hy'. rewrite Hu, Hr, eqb_refl in Hy'. simpl in Hy'. lia.
  - by apply negb_true_iff, eqb_false in Howner.
Qed.
Lemma grant_op_ok env hosted now fresh user scopes ttl allow s p s' : auth_ok s → create_friend_beta_access_grant env hosted now fresh user scopes ttl allow s = Ok (p, s') → auth_ok s'.
Proof. intros Hs (g & Hsame & Hg & Hf & _)%grant_cases. eapply same_ok; [exact Hsame|]. by apply ok_insert_grant. Qed.

Definition kill_grant (id : string) (now : Z) (s : auth_db) : auth_db :=
  revoke_sessions (λ x, names (ss_grant x) id) now (s <| ad_grants ::= update (λ g, (gr_id g == id) && (gr_revoked g == None)) (λ g, g <| gr_revoked := Some now |>) |>).
Lemma revoke_grant_cases now id s b s' : revoke_friend_beta_access_grant now id s = Ok (b, s') → same_auth (kill_grant id now s) s'.
Proof.
  unfold revoke_friend_beta_access_grant. intros ([] & s1 & [_ <-]%require_ok & Hr)%bind_ok. do 2 apply bind_ok in Hr as (? & ? & [_ <-]%read_ok & Hr).
  apply bind_ok in Hr as ([] & s1 & ->%modify_ok & Hr). apply bind_ok in Hr as ([] & s2 & ->%modify_ok & Hr). apply bind_ok in Hr as ([] & s3 & ->%modify_ok & [_ <-]%ret_ok).
  by case_match.
Qed.
Lemma revoke_grant_ok now id s b s' : auth_ok s → revoke_friend_beta_access_grant now id s = Ok (b, s') → auth_ok s'.
Proof. intros Hs Hr%revoke_grant_cases. eapply same_ok; [exact Hr|]. by apply ok_kill_grant. Qed.

(** Redeeming a code replaces the session of its grant. *)
Definition redeemed (g : grant) (now : Z) (x : session) (s : auth_db) : auth_db :=
  revoke_sessions (λ x, names (ss_grant x) (gr_id g)) now (cleanup_sessions now s) <| ad_sessions ::= (λ t, t ++ [x]) |>
    <| ad_grants ::= update (λ x, gr_id x == gr_id g) (λ x, x <| gr_first ::= (λ f, Some (default now f)) |> <| gr_last := Some now |>) |>.
Lemma redeem_cases env now fresh hash s p s' : redeem env now fresh hash s = Ok (p, s') →
  ∃ g x, g ∈ ad_grants s ∧ gr_hash g = hash ∧ gr_revoked g = None ∧ now < gr_expires g ∧ _hash_token (fs_token fresh) = Some (ss_hash x) ∧
    (∃ l, x = Build_session (fs_id fresh) (ss_hash x) (gr_user g) (scope_text l) now (ss_expires x) None (Some (gr_id g)) None None ∧
      _validated_scopes (split ","%char (gr_scopes g)) = Ok l ∧ sp_scopes (gs_payload p) = sorted l) ∧
    _configured_session_ttl env now (Some (gr_expires g)) = Ok (ss_expires x) ∧ _valid_user_id (gr_user g) = true ∧
    (∀ y, y ∈ ad_sessions (revoke_sessions (λ x, names (ss_grant x) (gr_id g)) now (cleanup_sessions now s)) → session_clash x y = false) ∧ s' = redeemed g now x s ∧
    sp_token (gs_payload p) = fs_token fresh ∧ sp_user (gs_payload p) = gr_user g.
Proof.
  unfold redeem. intros (row & s1 & [Hrow <-]%read_ok & Hr)%bind_ok. apply bind_ok in Hr as (g & s1 & [->%of_option_ok <-]%lift_ok & Hr).
  apply bind_ok in Hr as ([] & s1 & [Hlive <-]%require_ok & Hr). apply bind_ok in Hr as ([l expires] & s1 & [Hs%or_http_ok <-]%lift_ok & Hr). cbn [fst snd] in Hr.
  unfold redeem_scopes in Hs. apply res_bind_ok in Hs as (l' & Hval & Hs). apply res_bind_ok in Hs as ([] & _ & Hs). apply res_bind_ok in Hs as (e' & Httl & [= -> ->]).
  apply bind_ok in Hr as ([] & s1 & ->%modify_ok & Hr). apply bind_ok in Hr as ([] & s2 & ->%modify_ok & Hr).
  apply bind_ok in Hr as (payload & s3 & (h & Hh & Hf & -> & ->)%insert_session_ok & Hr). apply bind_ok in Hr as ([] & s4 & ->%modify_ok & Hr).
  apply bind_ok in Hr as (profile & s5 & [_ <-]%read_ok & [<- <-]%ret_ok). apply fetchone_some in Hrow as [Hg Hgh%eqb_true].
  apply andb_true_iff in Hlive as [[Hrev%bool_decide_eq_true Hexp]%andb_true_iff Hu].
  exists g, (Build_session (fs_id fresh) h (gr_user g) (scope_text l) now expires None (Some (gr_id g)) None None).
  do 3 (split; [done|]). split; [lia|]. split; [exact Hh|]. split; [by exists l|]. split; [exact Httl|]. split; [exact Hu|]. by split_and!.
Qed.
Lemma cleanup_ok now s : auth_ok s → auth_ok (cleanup_sessions now s).
Proof. apply ok_cleanup. Qed.
Lemma redeem_ok env now fresh hash s p s' : auth_ok s → redeem env now fresh hash s = Ok (p, s') → auth_ok s'.
Proof.
  intros Hs (g & x & Hg & _ & Hrev & Hexp & _ & (l & Ex & Hval & _) & Httl & _ & Hfresh & -> & _)%redeem_cases. apply ttl_spec in Httl as [H1 H2].
  pose proof (ok_revoke (λ x, names (ss_grant x) (gr_id g) && (ss_revoked x == None)) now _ (cleanup_ok now s Hs)) as Hs1.
  destruct (ak_grant_rows _ Hs g Hg) as (Hid & Hsc & _). pose proof (validated_spec _ _ Hval) as (Hn & Hk & _).
  unfold redeemed. apply ok_touch_grant; [done|]. apply ok_insert_session; [exact Hs1| |exact Hfresh|..].
  - rewrite Ex. unfold session_ok. simpl. split_and!; try done; [by apply known_scopes_text|congruence].
  - rewrite Ex. simpl. intros id [= <-]. split; [by apply live_free_revoked|]. exists g. split_and!; try done.
    intros w Hw. rewrite text_scopes_spec in Hw by done. by apply (revalidated _ l).
  - rewrite Ex. done.
Qed.

(** ** The owner's sessions *)

Lemma issue_cases env now fresh secret s : let s' := (issue_session env now fresh secret s).2 in
  s' = s ∨ same_auth (cleanup_sessions now s) s' ∨
  ∃ l hash expires, _configured_scopes env = Ok l ∧ _hash_token (fs_token fresh) = Some hash ∧ _configured_session_ttl env now None = Ok expires ∧
    let x := Build_session (fs_id fresh) hash (strip (getenv env "MAGISTRATE_BOOTSTRAP_USER_ID" "default_user")) (scope_text l) now expires None None None None in
    (∀ y, y ∈ ad_sessions (cleanup_sessions now s) → session_clash x y = false) ∧ same_auth (cleanup_sessions now s <| ad_sessions ::= (λ t, t ++ [x]) |>) s'.
Proof.
  unfold issue_session. destruct (check_bootstrap env secret) as [[]|e]; [|by left]. erewrite io_bind_ok by reflexivity. cbv zeta.
  destruct (ensure _ _) as [[]|e]; [|by left]. erewrite io_bind_ok by reflexivity.
  destruct (or_http 503 (_configured_scopes env)) as [l|e] eqn:El; [|by left]. apply or_http_ok in El. erewrite io_bind_ok by reflexivity.
  destruct (or_http 503 (_configured_session_ttl env now None)) as [expires|e] eqn:Ee; [|by left]. apply or_http_ok in Ee. erewrite io_bind_ok by reflexivity.
  erewrite io_bind_ok by reflexivity. right. unfold run_tx.
  match goal with |- context [commit ?m ?t] => destruct (commit_cases m t) as [(p & s' & E & ->)|(e & _ & ->)] end; [|by left]. right. simpl.
  apply bind_ok in E as ([] & s1 & Hp & (hash & Hh & Hf & -> & _)%insert_session_ok). apply ensure_profile_ok in Hp. destruct Hp as (E1 & E2 & E3 & E4 & E5 & E6 & E7).
  exists l, hash, expires. rewrite E1 in Hf. split_and!; try done. unfold same_auth. simpl. rewrite E1, E2, E3, E4, E5, E6, E7. done.
Qed.
Lemma issue_ok env now fresh secret s : auth_ok s → auth_ok (issue_session env now fresh secret s).2.
Proof.
  intros Hs. destruct (issue_cases env now fresh secret s) as [->|[Hsame|(l & hash & expires & Hl & _ & He & Hf & Hsame)]]; [done|eapply same_ok; [exact Hsame|by apply cleanup_ok]|].
  eapply same_ok; [exact Hsame|]. apply ok_insert_session; [by apply cleanup_ok| |exact Hf|done|done].
  apply validated_spec in Hl as (Hn & Hk & _). apply ttl_spec in He as [He _]. unfold session_ok. simpl. split_and!; try done. by apply known_scopes_text.
Qed.

(** ** Logout *)

Lemma revoke_family_same now id user s : same_auth (revoke_family now (λ r, Some (default "logout" r)) id s) (revoke_provider_family now id user s).
Proof. done. Qed.
Lemma revoke_authority_ok now x s : auth_ok s → auth_ok (revoke_authority now x s).
Proof.
  intros Hs. unfold revoke_authority. destruct (ss_grant x ≫= nonempty) as [id|]; [|destruct (ss_family x ≫= nonempty) as [id|]; [|done]].
  - eapply same_ok; [apply same_push|]. by apply ok_kill_grant.
  - eapply same_ok; [apply revoke_family_same|]. by apply ok_kill_family.
Qed.
Lemma revoke_hash_ok now hash s : auth_ok s → auth_ok (revoke_hash now hash s).
Proof.
  intros Hs. unfold revoke_hash. pose proof (ok_revoke (λ x, ss_hash x == hash) now s Hs) as Hs'. destruct (fetchone _ _); [by apply revoke_authority_ok|done].
Qed.
Lemma revoke_session_ok now token s : auth_ok s → auth_ok (revoke_session now token s).
Proof. intros Hs. unfold revoke_session. destruct (_hash_token token); [by apply revoke_hash_ok|done]. Qed.

(** ** Verification *)

Lemma beta_gate_state env now x s : (beta_gate env now x s).2 = s ∨ (beta_gate env now x s).2 = _suspend_friend_beta_sessions_and_push now s.
Proof.
  unfold beta_gate. destruct (ss_grant x ≫= nonempty); [|by left]. destruct (or_http 503 (_friend_beta_enabled env)) as [[]|e]; [by left|by right|by left].
Qed.
Lemma verified_state env policy now identity by_id s : let s' := (_verified_session env policy now identity by_id s).2 in
  s' = s ∨ s' = _suspend_friend_beta_sessions_and_push now s.
Proof.
  unfold _verified_session. destruct (fetchone _ _) as [x|]; [|by left]. pose proof (beta_gate_state env now x s) as Hb. cbv zeta.
  unfold mbind, io_bind. destruct (beta_gate env now x s) as [[[]|e] s1]; done.
Qed.
Lemma verify_ok env policy now identity by_id s : auth_ok s → auth_ok (_verified_session env policy now identity by_id s).2.
Proof. intros Hs. destruct (verified_state env policy now identity by_id s) as [->| ->]; [done|by apply suspend_ok]. Qed.
End Steps.

(** * Provider sign-in keeps the authentication tables

    The transactions of [provider_auth.py], and the states a gateway reaches by
    running all of [auth.py] and [provider_auth.py] in any order. *)

Set Default Proof Using "Type".

Section Steps.
Context `{Codec} (urlsplit : string → option url).

(** ** Challenges *)

Lemma family_cleanup_ok now s : auth_ok s → auth_ok (_cleanup_expired_session_families now s).
Proof. apply ok_delete_families. Qed.
Lemma challenge_cases env now fresh provider action platform redirect principal s p s' :
  create_challenge urlsplit env now fresh provider action platform redirect principal s = Ok (p, s') →
  ∃ c, pc_id c = "pac_" +:+ fc_id fresh ∧ pc_consumed c = None ∧ pc_expires c = now + PROVIDER_CHALLENGE_TTL_SECONDS ∧ cp_id p = pc_id c ∧
    let s1 := retire_challenges now (_cleanup_expired_session_families now s) in
    (∀ y, y ∈ ad_challenges s1 → challenge_clash c y = false) ∧ s' = s1 <| ad_challenges ::= (λ t, t ++ [c]) |>.
Proof.
  unfold create_challenge. intros (r & s1 & [_ <-]%lift_ok & Hc)%bind_ok. cbv zeta in Hc. apply bind_ok in Hc as (nh & s1 & [_ <-]%lift_ok & Hc).
  apply bind_ok in Hc as ([] & s1 & ->%modify_ok & Hc). apply bind_ok in Hc as ([] & s2 & ->%modify_ok & Hc). apply bind_ok in Hc as (n & s3 & [_ <-]%read_ok & Hc).
  apply bind_ok in Hc as ([] & s3 & [_ <-]%require_ok & Hc). apply bind_ok in Hc as ([] & s3 & [Hf ->]%auth_insert_ok & [<- <-]%ret_ok).
  eexists. split; [|split; [|split; [|split; [|split; [exact Hf|reflexivity]]]]]; done.
Qed.
Lemma challenge_ok env now fresh provider action platform redirect principal s p s' : auth_ok s →
  create_challenge urlsplit env now fresh provider action platform redirect principal s = Ok (p, s') → auth_ok s'.
Proof.
  intros Hs (c & _ & _ & _ & _ & _ & ->)%challenge_cases. eapply auth_frame; [..|by apply (family_cleanup_ok now)]; done.
Qed.

(** ** The exchange *)

Definition signed_in_as (claims : ProviderClaims) (id user : string) (a : account) : Prop :=
  ca_id a = id ∧ ca_user a = user ∧ is_identity (pv_provider claims) (pv_subject claims) a = true ∧ ca_status a = "connected".
Lemma resolve_cases now fresh claims name action owner s w s' : auth_ok s → resolve_account now fresh claims name action owner s = Ok (w, s') →
  auth_ok s' ∧ ad_challenges s' = ad_challenges s ∧ ad_assertions s' = ad_assertions s ∧ ad_sessions s' = ad_sessions s ∧ ad_grants s' = ad_grants s ∧ ad_families s' = ad_families s ∧ ad_refresh s' = ad_refresh s ∧
  (∃ a, a ∈ ad_accounts s' ∧ signed_in_as claims w.1 w.2 a) ∧
  ((∃ p f, ad_accounts s' = update p f (ad_accounts s) ∧ keeps_account f ∧ ∀ a, ca_status (f a) = "connected") ∨ ∃ a, ad_accounts s' = ad_accounts s ++ [a] ∧ ca_status a = "connected").
Proof.
  intros Hs. unfold resolve_account. cbv zeta. intros (found & s1 & [Hf <-]%read_ok & Hr)%bind_ok. destruct found as [a|].
  - apply bind_ok in Hr as ([] & s1 & [_ <-]%require_ok & Hr). apply bind_ok in Hr as ([] & s1 & [_ <-]%require_ok & Hr).
    apply bind_ok in Hr as ([] & s1 & ->%modify_ok & [<- <-]%ret_ok). apply fetchone_some in Hf as [Ha Hid].
    set (pp := λ x : account, (ca_id x == ca_id a) && is_login x).
    set (ff := λ x : account, x <| ca_status := "connected" |> <| ca_username ::= (λ n, if n == "" then default "" (pv_email claims) else n) |>
      <| ca_verified ::= Z.max (if pv_verified claims then 1 else 0) |> <| ca_last := Some now |> <| ca_updated := now |>).
    assert (keeps_account ff) as Hk by (intros x; done).
    split; [apply ok_update_account; [done| |done]; intros x _ _; by left|]. do 6 (split; [done|]). split; [|left; by exists pp, ff].
    simpl. pose proof (update_in pp ff _ a Ha) as U. unfold is_identity in Hid. assert (is_login a = true) as Hl by (apply andb_true_iff in Hid as [_ ?]; done).
    assert (pp a = true) as Hpa by (unfold pp; by rewrite eqb_refl, Hl). rewrite Hpa in U. exists (ff a). split; [done|]. split_and!; try done.
  - apply bind_ok in Hr as (linked & s1 & [_ <-]%read_ok & Hr). apply bind_ok in Hr as ([] & s1 & [_ <-]%require_ok & Hr). cbv zeta in Hr.
    apply bind_ok in Hr as ([] & s1 & Hp & Hr). apply bind_ok in Hr as ([] & s2 & [Hfresh ->]%auth_insert_ok & [<- <-]%ret_ok).
    apply modify_ok in Hp. assert (same_auth s s1) as (E1 & E2 & E3 & E4 & E5 & E6 & E7) by (subst s1; by destruct (exists_row _ _)).
    match goal with |- context [ad_accounts s1 ++ [?x]] => set (a := x) in * end.
    split. { apply ok_insert_account; [|done]. eapply same_ok; [|exact Hs]. done. }
    simpl. rewrite E1, E2, E3, E4, E5. do 6 (split; [done|]). split; [|right; by exists a].
    exists a. split; [(apply elem_of_app; right; by left)|]. split_and!; try done. unfold is_identity, a, is_login. simpl. by rewrite !eqb_refl.
Qed.

Lemma complete_profile_ok now user name email s (u : unit) s' : complete_profile now user name email s = Ok (u, s') → same_auth s s'.
Proof.
  unfold complete_profile. intros (p & s1 & [_ <-]%read_ok & Hc)%bind_ok. by apply bind_ok in Hc as ([] & s1 & [_ <-]%require_ok & ->%modify_ok).
Qed.

Lemma provider_scopes_spec env l : _provider_scopes env = Ok l → l ≠ [] ∧ subset l KNOWN_SCOPES = true ∧ "response" ∉ l.
Proof.
  unfold _provider_scopes. intros (l' & Hv & Hr)%res_bind_ok. apply or_http_ok, validated_spec in Hv as (Hn & Hk & _).
  apply res_bind_ok in Hr as ([] & Hc%ensure_ok & [= ->]). apply andb_true_iff in Hc as [Hresp%negb_true_iff _]. split_and!; try done. intros Hin%listed_spec. congruence.
Qed.
Lemma session_payload_cases env fresh user account provider family scopes now expires token required s p s' :
  _session_payload env fresh user account provider family scopes now expires token required s = Ok (p, s') →
  ∃ x, _hash_token (fs_token fresh) = Some (ss_hash x) ∧ (∀ y, y ∈ ad_sessions s → session_clash x y = false) ∧ s' = s <| ad_sessions ::= (λ t, t ++ [x]) |> ∧
    x = Build_session (fs_id fresh) (ss_hash x) user (scope_text scopes) now (ss_expires x) None None (Some family) (Some account) ∧
    ss_expires x ≤ now + 86400 ∧ ss_expires x ≤ expires ∧
    pp_refresh_token p = token ∧ pp_session p = Build_session_payload (fs_token fresh) (ss_expires x) (sorted scopes) user.
Proof.
  unfold _session_payload. intros (e & s1 & [Ht <-]%lift_ok & Hp)%bind_ok. apply bind_ok in Hp as (q & s1 & (h & Hh & Hf & -> & ->)%insert_session_ok & [<- <-]%ret_ok).
  apply ttl_spec in Ht as [? ?]. eexists. split; [|split; [exact Hf|split; [reflexivity|]]]; done.
Qed.

(** A new family with its first token and its first session. *)
Lemma new_family_cases env now fresh facts user account provider platform scopes s r s' :
  new_family env now fresh facts user account provider platform scopes s = Ok (r, s') →
  ∃ f t x s1, same_auth s s1 ∧ (∀ y, y ∈ ad_families s → family_clash f y = false) ∧ (∀ y, y ∈ ad_refresh s → refresh_clash t y = false) ∧
    (∀ y, y ∈ ad_sessions s → session_clash x y = false) ∧ rf_family t = sf_id f ∧ rf_expires t = sf_expires f ∧ rf_consumed t = None ∧
    sf_id f = "psf_" +:+ fx_family fresh ∧ sf_user f = user ∧ sf_account f = account ∧ sf_provider f = provider ∧ sf_scopes f = scope_text scopes ∧ sf_revoked f = None ∧
    x = Build_session (fs_id (fx_session fresh)) (ss_hash x) user (scope_text scopes) now (ss_expires x) None None (Some (sf_id f)) (Some account) ∧
    _hash_token (fs_token (fx_session fresh)) = Some (ss_hash x) ∧ _hash_token ("mgr_" +:+ fx_refresh fresh) = Some (rf_hash t) ∧
    ss_expires x ≤ now + 86400 ∧ ss_expires x ≤ sf_expires f ∧ (∃ p, r = SignedIn p ∧ sp_user (pp_session p) = user) ∧
    s' = s1 <| ad_families ::= (λ l, l ++ [f]) |> <| ad_refresh ::= (λ l, l ++ [t]) |> <| ad_sessions ::= (λ l, l ++ [x]) |>.
Proof.
  unfold new_family. intros ([] & s1 & Ho%modify_ok & Hn)%bind_ok. cbv zeta in Hn. apply bind_ok in Hn as (expires & s2 & [He <-]%lift_ok & Hn).
  apply bind_ok in Hn as ([] & s2 & [Hff ->]%auth_insert_ok & Hn). apply bind_ok in Hn as (h & s3 & [Hh%of_option_ok <-]%lift_ok & Hn).
  apply bind_ok in Hn as ([] & s3 & [Hft ->]%auth_insert_ok & Hn). apply bind_ok in Hn as (req & s4 & [_ <-]%read_ok & Hn).
  apply bind_ok in Hn as (p & s4 & (x & Hhx & Hfx & -> & Ex & H1 & H2 & _ & Hp)%session_payload_cases & [<- <-]%ret_ok).
  assert (same_auth s s1) as Hsame by (subst s1; by destruct (exists_row _ _)). pose proof Hsame as (E1 & E2 & E3 & E4 & E5 & _).
  simpl in *. rewrite E4 in Hff. rewrite E5 in Hft. rewrite E1 in Hfx. do 3 eexists. exists s1.
  split; [done|]. split; [exact Hff|]. split; [exact Hft|]. split; [exact Hfx|]. split_and!; try done. eexists. split; [reflexivity|]. simpl. by rewrite Hp.
Qed.
Lemma new_family_ok env now fresh facts user account provider platform scopes s r s' a : auth_ok s → scopes ≠ [] → subset scopes KNOWN_SCOPES = true →
  known_provider provider = true → a ∈ ad_accounts s → ca_id a = account → is_login a = true → ca_user a = user → ca_provider a = provider → ca_status a = "connected" →
  new_family env now fresh facts user account provider platform scopes s = Ok (r, s') → auth_ok s'.
Proof.
  intros Hs Hn Hk Hp Ha Hid Hl Hu Hpr Hst (f & t & x & s1 & Hsame & Hff & Hft & Hfx & Ht1 & Ht2 & Ht3 & F1 & F2 & F3 & F4 & F5 & F6 & Ex & _ & _ & X1 & X2 & _ & ->)%new_family_cases.
  pose proof (same_ok _ _ Hsame Hs) as Hs1. destruct Hsame as (E1 & E2 & E3 & E4 & E5 & _). rewrite <- E4 in Hff. rewrite <- E5 in Hft. rewrite <- E1 in Hfx.
  assert (family_ok (ad_accounts s1) f) as Hfok.
  { unfold family_ok, holder. rewrite F1, F2, F3, F4, F5, E3. split_and!; try done; [by apply known_scopes_text|]. exists a. by split_and!. }
  apply ok_insert_session; [by apply ok_new_family| |exact Hfx|..]; rewrite Ex; simpl.
  - unfold session_ok. simpl. rewrite F1. split_and!; try done. by apply known_scopes_text.
  - done.
  - intros id [= <-]. split.
    + intros y Hy Hky _. destruct (bk_auth _ _ _ _ _ _ _ _ _ (ak_families _ Hs1) y _ Hy Hky) as (g & Hg & Hkg & _). pose proof (Hff g Hg) as Hne. apply eqb_false in Hne.
      apply Hne. congruence.
    + exists f. split; [(apply elem_of_app; right; by left)|]. rewrite F2, F3, F5, F6. by split_and!.
Qed.

Lemma exchange_cases env now fresh facts id claims name scopes principal s r s' : auth_ok s →
  exchange_commit env now fresh facts id claims name scopes principal s = Ok (r, s') →
  ∃ c w s1 s2, c ∈ ad_challenges s ∧ pc_id c = id ∧ pc_consumed c = None ∧ now < pc_expires c ∧ pc_provider c = pv_provider claims ∧
    (∀ a, a ∈ ad_assertions s → pa_hash a ≠ pv_assertion claims) ∧
    resolve_account now fresh claims name (pc_action c) (pr_user <$> principal) s = Ok (w, s1) ∧
    ad_sessions s2 = ad_sessions s1 ∧ ad_grants s2 = ad_grants s1 ∧ ad_accounts s2 = ad_accounts s1 ∧ ad_families s2 = ad_families s1 ∧ ad_refresh s2 = ad_refresh s1 ∧
    ad_challenges s2 = update (λ c, (pc_id c == id) && (pc_consumed c == None)) (λ c, c <| pc_consumed := Some now |>) (ad_challenges s) ∧
    ad_assertions s2 = ad_assertions s ++ [Build_assertion (pv_assertion claims) id w.1 now] ∧
    ((pc_action c = "link" ∧ r = Linked (pv_provider claims) w.2 ∧ s' = s2) ∨
     (pc_action c ≠ "link" ∧ new_family env now fresh facts w.2 w.1 (pv_provider claims) (pc_platform c) scopes s2 = Ok (r, s'))).
Proof.
  intros Hs. unfold exchange_commit. cbv zeta. intros (row & s1 & [Hrow <-]%read_ok & He)%bind_ok. apply bind_ok in He as (c & s1 & [->%of_option_ok <-]%lift_ok & He).
  apply bind_ok in He as ([] & s1 & [Hopen <-]%require_ok & He). apply bind_ok in He as (replay & s1 & [Hrep <-]%read_ok & He).
  apply bind_ok in He as ([] & s1 & [Hno%negb_true_iff <-]%require_ok & He). apply bind_ok in He as (w & s1 & Hw & He).
  apply bind_ok in He as ([] & s2 & Hp%complete_profile_ok & He). apply bind_ok in He as ([] & s3 & ->%modify_ok & He).
  apply bind_ok in He as ([] & s4 & [Hfa ->]%auth_insert_ok & He). apply fetchone_some in Hrow as [Hc Hid%eqb_true].
  apply andb_true_iff in Hopen as [[Hcons%bool_decide_eq_true Hexp]%andb_true_iff Hprov%eqb_true]. destruct Hp as (S1 & S2 & S3 & S4 & S5 & O1 & O2).
  destruct (resolve_cases _ _ _ _ _ _ _ _ _ Hs Hw) as (_ & R1 & R2 & _). exists c, w, s1.
  match type of He with _ ?s2 = _ => exists s2 end. do 3 (split; [done|]). split; [lia|]. split; [done|]. split.
  { intros a Ha E. subst replay. pose proof (proj1 (exists_row_false _ _) Hno a Ha) as Hf. cbv beta in Hf. by rewrite E, eqb_refl in Hf. }
  split; [exact Hw|]. do 5 (split; [done|]). split; [simpl; by rewrite O1, R1|]. split; [simpl; by rewrite O2, R2|].
  destruct (pc_action c == "link") eqn:El; [left; apply eqb_true in El; by apply ret_ok in He as [<- <-]|right; apply eqb_false in El; by split].
Qed.
Lemma exchange_ok env now fresh facts id claims name scopes principal s r s' : auth_ok s → _provider_scopes env = Ok scopes → known_provider (pv_provider claims) = true →
  exchange_commit env now fresh facts id claims name scopes principal s = Ok (r, s') → auth_ok s'.
Proof.
  intros Hs Hsc Hp Hx. destruct (exchange_cases _ _ _ _ _ _ _ _ _ _ _ _ Hs Hx) as (c & w & s1 & s2 & _ & _ & _ & _ & _ & _ & Hw & S1 & S2 & S3 & S4 & S5 & _ & _ & Hcase).
  destruct (resolve_cases _ _ _ _ _ _ _ _ _ Hs Hw) as (Hs1 & _ & _ & _ & _ & _ & _ & (a & Ha & Hid & Hu & Hi & Hst) & _).
  pose proof (auth_frame _ _ S1 S2 S3 S4 S5 Hs1) as Hs2.
  destruct Hcase as [(_ & _ & ->)|[_ Hn]]; [done|]. apply provider_scopes_spec in Hsc as (Hne & Hk & _). rewrite <- S3 in Ha.
  unfold is_identity in Hi. apply andb_true_iff in Hi as [[Hpr%eqb_true _]%andb_true_iff Hl]. by eapply new_family_ok.
Qed.
End Steps.
