(* ===== verification/AuthReach.v ===== *)
(** * The states of authentication

    Rotation of refresh tokens and removal of login methods keep the tables, and
    [auth_reachable]: the databases of a gateway that runs [auth.py],
    [provider_auth.py] and [onboarding.py] in any order, while other components
    write profiles, push destinations and accounts that are not logins. *)

From stdpp Require Import base option list sorting strings numbers sets.
From Stdlib Require Import ZArith Lia Ascii.
From S2P Require Import Prelude Sql Feed Json Text Order Deployment AuthStore Sessions Identity ProviderAuth AuthInvariant AuthSteps.

Set Default Proof Using "Type".
Open Scope string_scope.
Open Scope list_scope.
Open Scope Z_scope.

Section Refresh.
Context `{Codec} (urlsplit : string → option url).

Lemma refresh_row_some hash s t f a : refresh_row hash s = Some (t, f, a) →
  t ∈ ad_refresh s ∧ rf_hash t = hash ∧ f ∈ ad_families s ∧ sf_id f = rf_family t ∧ a ∈ ad_accounts s ∧ ca_id a = sf_account f.
Proof.
  unfold refresh_row. intros (t' & Ht & (f' & Hf & (a' & Ha & [= <- <- <-])%bind_Some)%bind_Some)%bind_Some.
  apply fetchone_some in Ht as [? ?%eqb_true], Hf as [? ?%eqb_true], Ha as [? ?%eqb_true]. done.
Qed.

(** What a rotation writes. *)
Definition rotated (now : Z) (hash : string) (f : family) (next : refresh_token) (x : session) (s : auth_db) : auth_db :=
  revoke_sessions (λ x, names (ss_family x) (sf_id f)) now s <| ad_refresh ::= (λ l, consume hash now l ++ [next]) |>
    <| ad_families ::= update (λ y, sf_id y == sf_id f) (λ y, y <| sf_rotated := now |>) |> <| ad_sessions ::= (λ l, l ++ [x]) |>.
Lemma rotate_cases env now fresh facts hash f s p s' : rotate env now fresh facts hash f s = Ok (p, s') →
  ∃ next x, let scopes := text_scopes (sf_scopes f) in
    scopes ≠ [] ∧ subset scopes KNOWN_SCOPES = true ∧ rf_family next = sf_id f ∧ rf_expires next = sf_expires f ∧ rf_consumed next = None ∧
    _hash_token ("mgr_" +:+ fr_refresh fresh) = Some (rf_hash next) ∧ (∀ y, y ∈ consume hash now (ad_refresh s) → refresh_clash next y = false) ∧
    (∀ y, y ∈ ad_sessions (revoke_sessions (λ x, names (ss_family x) (sf_id f)) now s) → session_clash x y = false) ∧
    x = Build_session (fs_id (fr_session fresh)) (ss_hash x) (sf_user f) (scope_text scopes) now (ss_expires x) None None (Some (sf_id f)) (Some (sf_account f)) ∧
    _hash_token (fs_token (fr_session fresh)) = Some (ss_hash x) ∧ ss_expires x ≤ now + 86400 ∧ ss_expires x ≤ sf_expires f ∧
    pp_refresh_token p = "mgr_" +:+ fr_refresh fresh ∧ pp_session p = Build_session_payload (fs_token (fr_session fresh)) (ss_expires x) (sorted scopes) (sf_user f) ∧
    s' = rotated now hash f next x s.
Proof.
  unfold rotate. cbv zeta. intros ([] & s1 & [Hc <-]%require_ok & Hr)%bind_ok. apply bind_ok in Hr as (n & s1 & [_ <-]%read_ok & Hr).
  apply bind_ok in Hr as ([] & s1 & ->%modify_ok & Hr). apply bind_ok in Hr as ([] & s1 & [_ <-]%require_ok & Hr). apply bind_ok in Hr as ([] & s1 & ->%modify_ok & Hr).
  apply bind_ok in Hr as (h & s1 & [Hh%of_option_ok <-]%lift_ok & Hr). apply bind_ok in Hr as ([] & s1 & [Hft ->]%auth_insert_ok & Hr).
  apply bind_ok in Hr as ([] & s1 & ->%modify_ok & Hr). apply bind_ok in Hr as (req & s1 & [_ <-]%read_ok & Hr).
  apply session_payload_cases in Hr as (x & Hhx & Hfx & -> & Ex & H1 & H2 & Ht & Hp). apply andb_true_iff in Hc as [[Hn%negb_true_iff Hk]%andb_true_iff _].
  exists (Build_refresh_token h (sf_id f) now (sf_expires f) None), x. split; [by apply bool_decide_eq_false in Hn|]. do 4 (split; [done|]). split; [exact Hh|].
  split; [exact Hft|]. split; [exact Hfx|]. by split_and!.
Qed.
Lemma rotated_ok env now fresh facts t f a s p s' : auth_ok s → refresh_row (rf_hash t) s = Some (t, f, a) → rf_consumed t = None → refresh_invalid now t f a = false →
  rotate env now fresh facts (rf_hash t) f s = Ok (p, s') → auth_ok s'.
Proof.
  intros Hs (Ht & _ & Hf & Hid & Ha & Hac)%refresh_row_some Hc Hinv (next & x & Hn & Hk & N1 & N2 & N3 & _ & Hfn & Hfx & Ex & _ & X1 & X2 & _ & _ & ->)%rotate_cases.
  unfold refresh_invalid in Hinv. apply orb_false_iff in Hinv as [[[[[Hr%negb_false_iff%bool_decide_eq_true _]%orb_false_iff _]%orb_false_iff _]%orb_false_iff _]%orb_false_iff _].
  pose proof (ok_revoke (λ x, names (ss_family x) (sf_id f) && (ss_revoked x == None)) now s Hs) as Hs1.
  assert (auth_ok (revoke_sessions (λ x, names (ss_family x) (sf_id f)) now s <| ad_refresh ::= (λ l, consume (rf_hash t) now l ++ [next]) |>)) as Hs2
    by exact (ok_rotate (rf_hash t) now t next f _ Hs1 Ht eq_refl Hc (eq_sym Hid) Hf Hfn N1 N2 N3).
  destruct (ak_family_rows _ Hs f Hf) as (Hne & Hsc & _). destruct Hsc as (l & El & Hln & Hlk). unfold rotated. apply ok_insert_session; [|rewrite Ex|exact Hfx|rewrite Ex..]; simpl.
  - apply ok_touch_family; [|exact Hs2]. done.
  - unfold session_ok. simpl. split_and!; try done; [by apply known_scopes_text|congruence].
  - done.
  - intros id [= <-]. split; [by apply live_free_revoked|]. eexists. split; [apply update_in, Hf|]. rewrite eqb_refl. simpl. split_and!; try done.
    intros w Hw. by rewrite text_scopes_spec in Hw by done.
Qed.
Lemma refresh_tx_cases env now fresh facts hash platform s r s' : refresh_tx env now fresh facts hash platform s = Ok (r, s') →
  let s1 := _cleanup_expired_session_families now s in
  ∃ t f a, refresh_row hash s1 = Some (t, f, a) ∧
    ((∃ reason, compromise_reason platform t f = Some reason ∧ r = Err (HTTPException 401) ∧
        s' = _revoke_push_delivery (sf_user f) now (revoke_family now (λ _, Some reason) (sf_id f) s1)) ∨
     (compromise_reason platform t f = None ∧ refresh_invalid now t f a = true ∧ r = Err (HTTPException 401) ∧
        s' = revoke_family now (λ r, Some (default "expired" r)) (sf_id f) s1) ∨
     (compromise_reason platform t f = None ∧ refresh_invalid now t f a = false ∧ ∃ p, r = Ok p ∧ rotate env now fresh facts hash f s1 = Ok (p, s'))).
Proof.
  unfold refresh_tx. intros ([] & s1 & ->%modify_ok & Hr)%bind_ok. apply bind_ok in Hr as (row & s1 & [Hrow <-]%read_ok & Hr).
  apply bind_ok in Hr as ([[t f] a] & s1 & [->%of_option_ok <-]%lift_ok & Hr). exists t, f, a. split; [done|]. destruct (compromise_reason platform t f) as [reason|].
  - left. exists reason. apply bind_ok in Hr as ([] & s1 & ->%modify_ok & Hr). by apply bind_ok in Hr as ([] & s1 & ->%modify_ok & [<- <-]%ret_ok).
  - right. destruct (refresh_invalid now t f a); [left|right].
    + by apply bind_ok in Hr as ([] & s1 & ->%modify_ok & [<- <-]%ret_ok).
    + apply bind_ok in Hr as (p & s1 & Hr & [<- <-]%ret_ok). split_and!; try done. by exists p.
Qed.
Lemma not_compromised platform t f : compromise_reason platform t f = None ↔ rf_consumed t = None ∧ sf_platform f = platform.
Proof.
  unfold compromise_reason. destruct (rf_consumed t) as [c|]; simpl; [by split; [|intros [? _]]|]. destruct (sf_platform f == platform) eqn:E; simpl.
  - by apply eqb_true in E.
  - apply eqb_false in E. by split; [|intros [_ ?]].
Qed.
Lemma refresh_ok env now fresh facts hash platform s r s' : auth_ok s → refresh_tx env now fresh facts hash platform s = Ok (r, s') → auth_ok s'.
Proof.
  intros Hs (t & f & a & Hrow & Hcase)%refresh_tx_cases. pose proof (family_cleanup_ok now s Hs) as Hs1. destruct Hcase as [(reason & _ & _ & ->)|[(_ & _ & _ & ->)|(Hc & Hi & p & _ & Hr)]].
  - eapply same_ok; [apply same_push|]. by apply ok_kill_family.
  - by apply ok_kill_family.
  - pose proof (refresh_row_some _ _ _ _ _ Hrow) as (_ & <- & _). apply not_compromised in Hc as [Hc _]. by eapply rotated_ok.
Qed.

(** ** Login methods *)

Lemma unlink_cases now principal provider s (u : unit) s' : auth_ok s → unlink_login_method now principal provider s = Ok (u, s') →
  ∃ a, a ∈ ad_accounts s ∧ ca_user a = pr_user principal ∧ ca_provider a = provider ∧ is_login a = true ∧ ca_status a = "connected" ∧ pr_account principal ≠ Some (ca_id a) ∧
    (∃ b, b ∈ ad_accounts s ∧ connected_login (pr_user principal) b = true ∧ ca_id a ≠ ca_id b) ∧
    s' = fold_left (λ s id, revoke_family now (λ _, Some "login-method-removed") id s)
           (map sf_id (select (λ f, (sf_account f == ca_id a) && (sf_revoked f == None)) (ad_families s)))
           (s <| ad_accounts ::= update (λ x, ca_id x == ca_id a) (λ x, x <| ca_status := "disconnected" |> <| ca_updated := now |>) |>).
Proof.
  intros Hs. unfold unlink_login_method. intros ([] & s1 & [_ <-]%require_ok & Hu)%bind_ok. apply bind_ok in Hu as (methods & s1 & [Hm <-]%read_ok & Hu).
  apply bind_ok in Hu as (a & s1 & [Ht%of_option_ok <-]%lift_ok & Hu). apply bind_ok in Hu as ([] & s1 & [Hcur%negb_true_iff%eqb_false <-]%require_ok & Hu).
  apply bind_ok in Hu as ([] & s1 & [Hlen <-]%require_ok & Hu). apply bind_ok in Hu as (ids & s1 & [Hids <-]%read_ok & Hu).
  apply bind_ok in Hu as ([] & s1 & ->%modify_ok & ->%modify_ok). apply find_some in Ht as [Ha%list_elem_of_In Hp%eqb_true].
  assert (∃ b, b ∈ methods ∧ ca_id a ≠ ca_id b) as (b & Hb & Hab).
  { assert (∀ x y, x ∈ methods → y ∈ methods → ca_id x = ca_id y → x = y) as Hinj.
    { subst methods. intros x y [Hx _]%elem_of_select [Hy _]%elem_of_select. by apply (NoDup_key_inj ca_id _ _ _ (ak_account_ids _ Hs)). }
    assert (NoDup methods) as Hn by (subst methods; apply (NoDup_select ca_id), Hs). destruct methods as [|x [|y methods]]; [done..|].
    apply NoDup_cons in Hn as [Hxy _]. destruct (decide (ca_id a = ca_id x)) as [E|]; [exists y|exists x]; (split; [set_solver|]); [|done].
    intros E'. apply Hxy. rewrite (Hinj x y) by (set_solver || congruence). by left. }
  subst methods. apply elem_of_select in Ha as [Ha Hc], Hb as [Hb Hcb]. exists a. subst ids.
  unfold connected_login in Hc. apply andb_true_iff in Hc as [[Hu%eqb_true Hl]%andb_true_iff Hst%eqb_true]. split_and!; try done. by exists b.
Qed.

(** Families that are retired in turn, with a write of the accounts before. *)
Local Abbreviation kill_all ids now reason s := (fold_left (λ db id, revoke_family now reason id db) ids s).
Lemma kill_all_accounts ids now reason g s : kill_all ids now reason (s <| ad_accounts ::= g |>) = (kill_all ids now reason s) <| ad_accounts ::= g |>.
Proof. revert s. induction ids as [|id ids IH]; intros s; [done|]. simpl. by rewrite <- IH. Qed.
Lemma kill_all_families ids now reason s f' : f' ∈ ad_families (kill_all ids now reason s) →
  ∃ f, f ∈ ad_families s ∧ sf_id f' = sf_id f ∧ sf_account f' = sf_account f ∧ (sf_id f ∈ ids ∨ sf_revoked f ≠ None → sf_revoked f' ≠ None).
Proof.
  revert s. induction ids as [|id ids IH]; intros s Hf; simpl in Hf; [exists f'; set_solver|]. destruct (IH _ Hf) as (f1 & (f & Hf0 & ->)%elem_of_update & E1 & E2 & Hr).
  exists f. destruct (sf_id f == id) eqn:E; simpl in *.
  - split_and!; try done. intros _. apply Hr. by right.
  - apply eqb_false in E. split_and!; try done. intros [[?|?]%elem_of_cons|?]; auto; done.
Qed.
Lemma kill_all_same ids now reason s : ad_accounts (kill_all ids now reason s) = ad_accounts s.
Proof. revert s. induction ids as [|id ids IH]; intros s; [done|]. simpl. by rewrite IH. Qed.
Lemma unlink_ok now principal provider s (u : unit) s' : auth_ok s → unlink_login_method now principal provider s = Ok (u, s') → auth_ok s'.
Proof.
  intros Hs (a & Ha & _ & _ & _ & _ & _ & _ & ->)%unlink_cases; [|done]. rewrite kill_all_accounts. apply ok_update_account; [done| |by apply ok_kill_families].
  rewrite kill_all_same. intros x Hx Hid%eqb_true. right. intros f' Hf' Eac. destruct (kill_all_families _ _ _ _ _ Hf') as (f & Hf & _ & E2 & Hr). apply Hr.
  destruct (sf_revoked f) as [r|] eqn:Er; [by right|]. left. apply list_elem_of_fmap_2, elem_of_select. split; [done|]. rewrite Er, <- E2, Eac, Hid, eqb_refl. done.
Qed.
End Refresh.

(** ** Operations *)

(** What other components commit: [others] replaces the rows of accounts that
    are not logins, the profiles and the push destinations. *)
Definition others_write (accounts : list account) (profiles : list profile) (push : list push_token) (s : auth_db) : auth_db :=
  let rows := select is_login (ad_accounts s) ++ select (λ a, negb (is_login a)) accounts in
  if bool_decide (NoDup (map ca_id rows)) then s <| ad_accounts := rows |> <| ad_profiles := profiles |> <| ad_push := push |> else s.

Inductive auth_op :=
  | AGrant (env : string → option string) (hosted : bool) (now : Z) (fresh : fresh_grant) (user : string) (scopes : option (list string)) (ttl : Z) (allow_shared : bool)
  | ARevokeGrant (now : Z) (id : string)
  | ARedeem (env : string → option string) (now : Z) (fresh : fresh_session) (code : string)
  | AStartup (env : string → option string) (now : Z)
  | AIssue (env : string → option string) (now : Z) (fresh : fresh_session) (secret : option string)
  | ALogout (now : Z) (token : string)
  | AVerify (env : string → option string) (policy : res mode_error deployment_contract) (now : Z) (identity : string) (by_session_id : bool)
  | AChallenge (env : string → option string) (now : Z) (fresh : fresh_challenge) (provider action platform : string) (redirect : option string) (principal : option Principal)
  | AExchange (env : string → option string) (now : Z) (fresh : fresh_exchange) (facts : onboarding_facts) (id : string) (claims : ProviderClaims) (name : option string)
      (principal : option Principal)
  | ARefresh (env : string → option string) (now : Z) (fresh : fresh_refresh) (facts : onboarding_facts) (token platform : string)
  | AUnlink (now : Z) (principal : Principal) (provider : string)
  | AWelcome (now : Z) (user : string)
  | AOthers (accounts : list account) (profiles : list profile) (push : list push_token).

Section Operations.
Context `{Codec} (urlsplit : string → option url).

(** The last statements of [exchange_challenge]. *)
Definition finish_exchange (env : string → option string) (now : Z) (fresh : fresh_exchange) (facts : onboarding_facts) (id : string) (claims : ProviderClaims) (name : option string)
    (principal : option Principal) : aio exchange_result :=
  scopes ← pure (_provider_scopes env);
  run_tx (exchange_commit env now fresh facts id claims name scopes principal).
Definition auth_run (op : auth_op) (s : auth_db) : auth_db :=
  match op with
  | AGrant env hosted now fresh user scopes ttl allow => (commit (create_friend_beta_access_grant env hosted now fresh user scopes ttl allow) s).2
  | ARevokeGrant now id => (commit (revoke_friend_beta_access_grant now id) s).2
  | ARedeem env now fresh code => (commit (issue_friend_beta_session env now fresh code) s).2
  | AStartup env now => (commit (validate_friend_beta_configuration env now) s).2
  | AIssue env now fresh secret => (issue_session env now fresh secret s).2
  | ALogout now token => revoke_session now token s
  | AVerify env policy now identity by_id => (_verified_session env policy now identity by_id s).2
  | AChallenge env now fresh provider action platform redirect principal =>
      (commit (create_challenge urlsplit env now fresh provider action platform redirect principal) s).2
  | AExchange env now fresh facts id claims name principal =>
      if known_provider (pv_provider claims) then (finish_exchange env now fresh facts id claims name principal s).2 else s
  | ARefresh env now fresh facts token platform => (refresh_session env now fresh facts token platform s).2
  | AUnlink now principal provider => (commit (unlink_login_method now principal provider) s).2
  | AWelcome now user => (commit (acknowledge_welcome now user) s).2
  | AOthers accounts profiles push => others_write accounts profiles push s
  end.
Definition auth_after (ops : list auth_op) (s : auth_db) : auth_db := fold_left (λ s op, auth_run op s) ops s.
Definition auth_reachable (s : auth_db) : Prop := ∃ ops, s = auth_after ops empty_auth.

(** Either nothing is committed, or what the transaction wrote. *)
Lemma commit_state {A} (P : auth_db → Prop) (m : atx A) s : P s → (∀ a s', m s = Ok (a, s') → P s') → P (commit m s).2.
Proof. intros Hs Hm. destruct (commit_cases m s) as [(a & s' & E & ->)|(e & _ & ->)]; simpl; eauto. Qed.
Lemma others_ok accounts profiles push s : auth_ok s → auth_ok (others_write accounts profiles push s).
Proof.
  intros []. unfold others_write. case_bool_decide as Hn; [|by split]. assert (∀ a, a ∈ ad_accounts s → is_login a = true → a ∈ select is_login (ad_accounts s) ++ select (λ a, negb (is_login a)) accounts) as Hin.
  { intros a Ha Hl. apply elem_of_app. left. by apply elem_of_select. }
  split; simpl; try done.
  - intros f Hf. eapply family_ok_more; [|by apply ak_family_rows]. intros a Ha Hh. exists a. split; [apply Hin; [done|apply Hh]|done].
  - intros a b Ha Hb E. pose proof E as (Hla & Hlb & _)%identity_spec. apply elem_of_app in Ha as [[Ha _]%elem_of_select|[_ Ha]%elem_of_select], Hb as [[Hb _]%elem_of_select|[_ Hb]%elem_of_select]; auto.
    all: rewrite ?Hla, ?Hlb in *; done.
Qed.
Lemma startup_cases env now s (b : bool) s' : validate_friend_beta_configuration env now s = Ok (b, s') → s' = s ∨ s' = _suspend_friend_beta_sessions_and_push now s.
Proof.
  unfold validate_friend_beta_configuration. intros ([|] & s1 & [_ <-]%lift_ok & Hv)%bind_ok; [left|right].
  - by apply lift_ok in Hv as [_ ->].
  - by apply bind_ok in Hv as ([] & s1 & ->%modify_ok & [_ <-]%ret_ok).
Qed.
Lemma issue_beta_cases env now fresh code s p s' : issue_friend_beta_session env now fresh code s = Ok (p, s') →
  ∃ hash, _hash_token code = Some hash ∧ redeem env now fresh hash s = Ok (p, s').
Proof.
  unfold issue_friend_beta_session. intros (b & s1 & [_ <-]%lift_ok & Hr)%bind_ok. do 2 apply bind_ok in Hr as ([] & s1 & [_ <-]%require_ok & Hr).
  apply bind_ok in Hr as (hash & s1 & [Hh%of_option_ok <-]%lift_ok & Hr). eauto.
Qed.
Lemma welcome_same now user s (u : unit) s' : acknowledge_welcome now user s = Ok (u, s') → same_auth s s'.
Proof. unfold acknowledge_welcome. intros (b & s1 & [_ <-]%read_ok & Hw)%bind_ok. by apply bind_ok in Hw as ([] & s1 & [_ <-]%require_ok & ->%modify_ok). Qed.
(** A refresh returns early, or runs its transaction. *)
Lemma refresh_session_cases env now fresh facts token platform s : let (r, s') := refresh_session env now fresh facts token platform s in
  (s' = s ∧ ∃ e, r = Err e) ∨ ∃ hash, _SAFE_REFRESH token = true ∧ _hash_token token = Some hash ∧ refresh_tx env now fresh facts hash platform s = Ok (r, s').
Proof.
  unfold refresh_session. destruct (ensure (listed platform _) _) as [[]|e] eqn:E1; [|left; split; eauto]. erewrite io_bind_ok by reflexivity.
  destruct (ensure (_SAFE_REFRESH token) _) as [[]|e] eqn:E2; [|left; split; eauto]. erewrite io_bind_ok by reflexivity. apply ensure_ok in E2.
  destruct (_hash_token token) as [hash|] eqn:Eh; [|left; split; eauto]. erewrite io_bind_ok by reflexivity. unfold committed_result.
  match goal with |- context [commit ?m s] => destruct (commit_cases m s) as [(r & s' & E & ->)|(e & E & ->)] end; [right; exists hash; done|left; split; eauto].
Qed.
Lemma finish_exchange_cases env now fresh facts id claims name principal s : let (r, s') := finish_exchange env now fresh facts id claims name principal s in
  (s' = s ∧ ∃ e, r = Err e) ∨ ∃ scopes x, r = Ok x ∧ _provider_scopes env = Ok scopes ∧ exchange_commit env now fresh facts id claims name scopes principal s = Ok (x, s').
Proof.
  unfold finish_exchange. destruct (_provider_scopes env) as [scopes|e] eqn:E; [|left; split; eauto]. erewrite io_bind_ok by reflexivity. unfold run_tx.
  match goal with |- context [commit ?m s] => destruct (commit_cases m s) as [(r & s' & Em & ->)|(e & Em & ->)] end; [right; by exists scopes, r|left; split; eauto].
Qed.

Lemma auth_op_ok op s : auth_ok s → auth_ok (auth_run op s).
Proof.
  intros Hs. destruct op; simpl; try (apply commit_state; [done|intros a s' Hm]).
  - by eapply grant_op_ok.
  - by eapply revoke_grant_ok.
  - apply issue_beta_cases in Hm as (hash & _ & Hr). by eapply redeem_ok.
  - destruct (startup_cases _ _ _ _ _ Hm) as [->| ->]; [done|by apply suspend_ok].
  - by apply issue_ok.
  - by apply revoke_session_ok.
  - by apply verify_ok.
  - by eapply challenge_ok.
  - destruct (known_provider _) eqn:Hp; [|done]. pose proof (finish_exchange_cases env now fresh facts id claims name principal s) as Hf. destruct (finish_exchange _ _ _ _ _ _ _ _ _) as [r s'].
    destruct Hf as [[-> _]|(scopes & x & _ & Hsc & Hx)]; [done|]. by eapply exchange_ok.
  - pose proof (refresh_session_cases env now fresh facts token platform s) as Hf. destruct (refresh_session _ _ _ _ _ _ _) as [r s'].
    destruct Hf as [[-> _]|(hash & _ & _ & Hr)]; [done|]. by eapply refresh_ok.
  - destruct a. by eapply unlink_ok.
  - destruct a. eapply same_ok; [by eapply welcome_same|done].
  - by apply others_ok.
Qed.
Lemma auth_empty_ok : auth_ok empty_auth.
Proof. split; simpl; try constructor; try set_solver. all: simpl; try constructor; set_solver. Qed.
Lemma auth_after_ok ops s : auth_ok s → auth_ok (auth_after ops s).
Proof. revert s. induction ops as [|op ops IH]; intros s Hs; [done|]. by apply IH, auth_op_ok. Qed.
Lemma auth_reachable_ok s : auth_reachable s → auth_ok s.
Proof. intros [ops ->]. apply auth_after_ok, auth_empty_ok. Qed.
End Operations.
