(* ===== verification/AuthHistory.v ===== *)
(** * What authentication remembers

    [remembers drawn s s']: how the rows of [s'] descend from those of [s]. A
    session, a family, a refresh token or a challenge keeps its identity and is
    never brought back once it is revoked or consumed; new ones carry drawn
    values; grants and logins stay. It holds of every operation. Records of
    accepted assertions stay for a day at least. *)

From stdpp Require Import base option list sorting strings numbers sets.
From Stdlib Require Import ZArith Lia Ascii.
From S2P Require Import Prelude Sql Feed Json Text Order Deployment AuthStore Sessions Identity ProviderAuth AuthInvariant AuthSteps AuthReach.

Open Scope string_scope.
Open Scope list_scope.
Open Scope Z_scope.

(** ** Descent of rows *)

Section Grows.
Context {R : Type} (le : R → R → Prop) `{!Reflexive le, !Transitive le} (new : R → Prop).
Implicit Types t : list R.

(** Every row descends from an old one, or is new. *)
Definition grows t t' : Prop := ∀ x', x' ∈ t' → (∃ x, x ∈ t ∧ le x x') ∨ new x'.
(** Every row has a descendant. *)
Definition stays t t' : Prop := ∀ x, x ∈ t → ∃ x', x' ∈ t' ∧ le x x'.

Lemma grows_refl t : grows t t.
Proof. intros x Hx. left. by exists x. Qed.
Lemma grows_update p f t t' : (∀ x, p x = true → le x (f x)) → (∀ x, p x = true → new x → new (f x)) → grows t t' → grows t (update p f t').
Proof.
  intros Hf Hn Ht x' (x & Hx & ->)%elem_of_update. destruct (p x) eqn:E; [|auto]. destruct (Ht x Hx) as [(y & Hy & Hle)|Hnew]; [left|right; auto].
  exists y. split; [done|]. by transitivity x; auto.
Qed.
Lemma grows_delete p t t' : grows t t' → grows t (delete_where p t').
Proof. intros Ht x' [Hx _]%elem_of_delete. auto. Qed.
Lemma grows_snoc x t t' : new x → grows t t' → grows t (t' ++ [x]).
Proof. intros Hx Ht x' [Hx'| ->%list_elem_of_singleton]%elem_of_app; auto. Qed.
Lemma stays_refl t : stays t t.
Proof. intros x Hx. by exists x. Qed.
Lemma stays_update p f t t' : (∀ x, p x = true → le x (f x)) → stays t t' → stays t (update p f t').
Proof.
  intros Hf Ht x Hx. destruct (Ht x Hx) as (y & Hy & Hle). eexists. split; [by apply update_in|]. destruct (p y) eqn:E; [|done]. by transitivity y; auto.
Qed.
Lemma stays_app t t' u : stays t t' → stays t (t' ++ u).
Proof. intros Ht x Hx. destruct (Ht x Hx) as (y & Hy & Hle). exists y. split; [apply elem_of_app; by left|done]. Qed.
Lemma stays_trans t t' t'' : stays t t' → stays t' t'' → stays t t''.
Proof. intros H1 H2 x Hx. destruct (H1 x Hx) as (y & Hy & Hle). destruct (H2 y Hy) as (z & Hz & Hle'). exists z. split; [done|by transitivity y]. Qed.
End Grows.
Lemma grows_trans {R} (le : R → R → Prop) `{!Transitive le} (new : R → Prop) t t' t'' :
  (∀ x y, new x → le x y → new y) → grows le new t t' → grows le new t' t'' → grows le new t t''.
Proof.
  intros Hn H1 H2 x Hx. destruct (H2 x Hx) as [(y & Hy & Hle)|?]; [|auto]. destruct (H1 y Hy) as [(z & Hz & Hle')|Hnew]; [left|right; by eapply Hn].
  exists z. split; [done|by transitivity y].
Qed.
Lemma grows_more {R} (le : R → R → Prop) (new1 new2 : R → Prop) t t' : (∀ x, new1 x → new2 x) → grows le new1 t t' → grows le new2 t t'.
Proof. intros Hn H x Hx. destruct (H x Hx) as [?|?]; auto. Qed.

(** ** Descent in the tables *)

Definition session_le (x y : session) : Prop := ss_id y = ss_id x ∧ ss_hash y = ss_hash x ∧ (ss_revoked x ≠ None → ss_revoked y ≠ None).
Definition family_le (x y : family) : Prop := sf_id y = sf_id x ∧ sf_user y = sf_user x ∧ sf_account y = sf_account x ∧ (sf_revoked x ≠ None → sf_revoked y ≠ None).
Definition refresh_le (x y : refresh_token) : Prop := rf_hash y = rf_hash x ∧ rf_family y = rf_family x ∧ (rf_consumed x ≠ None → rf_consumed y ≠ None).
Definition challenge_le (x y : challenge) : Prop := pc_id y = pc_id x ∧ (pc_consumed x ≠ None → pc_consumed y ≠ None).
Definition grant_le (x y : grant) : Prop := gr_id y = gr_id x ∧ gr_hash y = gr_hash x ∧ gr_user y = gr_user x ∧ gr_expires y = gr_expires x ∧ gr_scopes y = gr_scopes x ∧ (gr_revoked x ≠ None → gr_revoked y ≠ None).
Definition account_le (x y : account) : Prop := ca_kind y = ca_kind x ∧ ca_id y = ca_id x ∧ ca_user y = ca_user x ∧ ca_provider y = ca_provider x ∧ ca_subject y = ca_subject x.
(** Other components replace accounts that are not logins. *)
Definition logins_stay (t t' : list account) : Prop := ∀ a, a ∈ t → is_login a = true → ∃ a', a' ∈ t' ∧ account_le a a'.
#[export] Instance session_le_refl : Reflexive session_le. Proof. done. Qed.
#[export] Instance session_le_trans : Transitive session_le. Proof. intros x y z (H1 & H2 & H3) (G1 & G2 & G3). split_and!; [congruence..|auto]. Qed.
#[export] Instance family_le_refl : Reflexive family_le. Proof. done. Qed.
#[export] Instance family_le_trans : Transitive family_le. Proof. intros x y z (H1 & H2 & H3 & H4) (G1 & G2 & G3 & G4). split_and!; [congruence..|auto]. Qed.
#[export] Instance refresh_le_refl : Reflexive refresh_le. Proof. done. Qed.
#[export] Instance refresh_le_trans : Transitive refresh_le. Proof. intros x y z (H1 & H2 & H3) (G1 & G2 & G3). split_and!; [congruence..|auto]. Qed.
#[export] Instance challenge_le_refl : Reflexive challenge_le. Proof. done. Qed.
#[export] Instance challenge_le_trans : Transitive challenge_le. Proof. intros x y z (H1 & H2) (G1 & G2). split_and!; [congruence..|auto]. Qed.
#[export] Instance grant_le_refl : Reflexive grant_le. Proof. done. Qed.
#[export] Instance grant_le_trans : Transitive grant_le. Proof. intros x y z (H1 & H2 & H3 & H4 & H5 & H6) (G1 & G2 & G3 & G4 & G5 & G6). split_and!; [congruence..|auto]. Qed.
#[export] Instance account_le_refl : Reflexive account_le. Proof. done. Qed.
#[export] Instance account_le_trans : Transitive account_le. Proof. intros x y z (H1 & H2 & H3 & H4 & H5) (G1 & G2 & G3 & G4 & G5). split_and!; congruence. Qed.
Lemma account_le_login x y : account_le x y → is_login y = is_login x.
Proof. intros (E & _). unfold is_login. by rewrite E. Qed.
Lemma logins_trans t t' t'' : logins_stay t t' → logins_stay t' t'' → logins_stay t t''.
Proof.
  intros H1 H2 a Ha Hl. destruct (H1 a Ha Hl) as (b & Hb & Hle). destruct (H2 b Hb) as (c & Hc & Hle'); [by rewrite (account_le_login a b)|]. exists c. split; [done|by transitivity b].
Qed.
Lemma logins_stays t t' : stays account_le t t' → logins_stay t t'.
Proof. intros Ht a Ha _. by apply Ht. Qed.

Set Default Proof Using "Type".
Section History.
Context `{Codec} (urlsplit : string → option url).

Definition drawn_hash (drawn : list string) (h : string) : Prop := ∃ v, v ∈ drawn ∧ _hash_token v = Some h.
Record remembers (drawn : list string) (s s' : auth_db) : Prop := {
  re_sessions : grows session_le (λ x, drawn_hash drawn (ss_hash x)) (ad_sessions s) (ad_sessions s');
  re_families : grows family_le (λ f, sf_id f ∈ drawn) (ad_families s) (ad_families s');
  re_refresh : grows refresh_le (λ t, drawn_hash drawn (rf_hash t)) (ad_refresh s) (ad_refresh s');
  re_challenges : grows challenge_le (λ c, pc_id c ∈ drawn) (ad_challenges s) (ad_challenges s');
  re_grants : stays grant_le (ad_grants s) (ad_grants s');
  re_accounts : logins_stay (ad_accounts s) (ad_accounts s');
}.
(** What an operation draws. *)
Definition draws (op : auth_op) : list string :=
  match op with
  | ARedeem _ _ fresh _ | AIssue _ _ fresh _ => [fs_token fresh]
  | AChallenge _ _ fresh _ _ _ _ _ => ["pac_" +:+ fc_id fresh]
  | AExchange _ _ fresh _ _ _ _ _ => [fs_token (fx_session fresh); "mgr_" +:+ fx_refresh fresh; "psf_" +:+ fx_family fresh]
  | ARefresh _ _ fresh _ _ _ => [fs_token (fr_session fresh); "mgr_" +:+ fr_refresh fresh]
  | _ => []
  end.

Lemma remembers_refl drawn s : remembers drawn s s.
Proof. split; auto using grows_refl, stays_refl, logins_stays with typeclass_instances. Qed.
Lemma remembers_more drawn drawn' s s' : (∀ v, v ∈ drawn → v ∈ drawn') → remembers drawn s s' → remembers drawn' s s'.
Proof.
  intros Hd []. split; try done; (eapply grows_more; [|done]); cbn; auto; intros x (v & Hv & Hh); exists v; auto.
Qed.
Lemma remembers_trans drawn s1 s2 s3 : remembers drawn s1 s2 → remembers drawn s2 s3 → remembers drawn s1 s3.
Proof.
  intros [A1 A2 A3 A4 A5 A6] [B1 B2 B3 B4 B5 B6]. split.
  - refine (grows_trans _ _ _ _ _ _ A1 B1). by intros x y Hx (_ & -> & _).
  - refine (grows_trans _ _ _ _ _ _ A2 B2). by intros x y Hx (-> & _).
  - refine (grows_trans _ _ _ _ _ _ A3 B3). by intros x y Hx (-> & _).
  - refine (grows_trans _ _ _ _ _ _ A4 B4). by intros x y Hx (-> & _).
  - exact (stays_trans _ _ _ _ A5 B5).
  - exact (logins_trans _ _ _ A6 B6).
Qed.
(** One step after another: each statement on its table. *)
Lemma remembers_same drawn s1 s2 s3 : same_auth s2 s3 → remembers drawn s1 s2 → remembers drawn s1 s3.
Proof. intros (E1 & E2 & E3 & E4 & E5 & E6 & E7) []. split; rewrite ?E1, ?E2, ?E3, ?E4, ?E5, ?E6; done. Qed.

(** Statements. *)
Lemma keep_sessions_revoke drawn p now s s' : remembers drawn s s' → remembers drawn s (s' <| ad_sessions ::= update p (λ x, x <| ss_revoked := Some now |>) |>).
Proof. intros []. split; try done. apply grows_update; [apply _|by intros x _; unfold session_le; split_and!|done|done]. Qed.
Lemma keep_sessions_delete drawn p s s' : remembers drawn s s' → remembers drawn s (s' <| ad_sessions ::= delete_where p |>).
Proof. intros []. split; try done. by apply grows_delete. Qed.
Lemma keep_session_new drawn x s s' : drawn_hash drawn (ss_hash x) → remembers drawn s s' → remembers drawn s (s' <| ad_sessions ::= (λ t, t ++ [x]) |>).
Proof. intros Hx []. split; try done. by apply grows_snoc. Qed.
Lemma keep_grants drawn p f s s' : (∀ g, grant_le g (f g)) → remembers drawn s s' → remembers drawn s (s' <| ad_grants ::= update p f |>).
Proof. intros Hf []. split; try done. by apply stays_update; [apply _|intros x _; apply Hf|]. Qed.
Lemma keep_grant_new drawn g s s' : remembers drawn s s' → remembers drawn s (s' <| ad_grants ::= (λ t, t ++ [g]) |>).
Proof. intros []. split; try done. by apply stays_app. Qed.
Lemma keep_families drawn p f s s' : (∀ x, family_le x (f x)) → remembers drawn s s' → remembers drawn s (s' <| ad_families ::= update p f |>).
Proof. intros Hf []. split; try done. apply grows_update; [apply _|intros x _; apply Hf| |done]. intros x _ Hx. by destruct (Hf x) as (-> & _). Qed.
Lemma keep_accounts drawn p f s s' : keeps_account f → remembers drawn s s' → remembers drawn s (s' <| ad_accounts ::= update p f |>).
Proof.
  intros Hf []. split; try done. eapply logins_trans; [done|]. apply logins_stays, stays_update; [apply _| |by apply stays_refl, _].
  intros x _. destruct (Hf x) as (E1 & E2 & E3 & E4 & E5). unfold account_le. by rewrite E1, E2, E3, E4, E5.
Qed.
Lemma keep_revoke_family drawn now reason id s s' : remembers drawn s s' → remembers drawn s (revoke_family now reason id s').
Proof. intros Hs. unfold revoke_family. by apply keep_sessions_revoke, keep_families. Qed.
Lemma keep_family_cleanup drawn now s s' : remembers drawn s s' → remembers drawn s (_cleanup_expired_session_families now s').
Proof. intros []. split; try done; by apply grows_delete. Qed.
Lemma keep_suspend drawn now s s' : remembers drawn s s' → remembers drawn s (_suspend_friend_beta_sessions_and_push now s').
Proof. intros Hs. eapply remembers_same; [apply suspend_same|]. by apply keep_sessions_revoke. Qed.
Lemma keep_account_new drawn a s s' : remembers drawn s s' → remembers drawn s (s' <| ad_accounts ::= (λ t, t ++ [a]) |>).
Proof. intros []. split; try done. eapply logins_trans; [done|]. apply logins_stays, stays_app. by apply stays_refl, _. Qed.
Lemma keep_kill_all drawn ids now reason s s' : remembers drawn s s' → remembers drawn s (fold_left (λ db id, revoke_family now reason id db) ids s').
Proof. revert s'. induction ids as [|id ids IH]; intros s' Hs; [done|]. simpl. by apply IH, keep_revoke_family. Qed.
Lemma keep_family_new drawn f t s s' : sf_id f ∈ drawn → drawn_hash drawn (rf_hash t) → remembers drawn s s' →
  remembers drawn s (s' <| ad_families ::= (λ l, l ++ [f]) |> <| ad_refresh ::= (λ l, l ++ [t]) |>).
Proof. intros Hf Ht []. split; try done; by apply grows_snoc. Qed.
Lemma keep_rotation drawn hash now next s s' : drawn_hash drawn (rf_hash next) → remembers drawn s s' → remembers drawn s (s' <| ad_refresh ::= (λ l, consume hash now l ++ [next]) |>).
Proof.
  intros Hn []. split; try done. apply grows_snoc; [done|]. apply grows_update; [apply _| |done|done]. intros x _. unfold refresh_le. by split_and!.
Qed.
Lemma keep_challenges drawn p now s s' : remembers drawn s s' → remembers drawn s (s' <| ad_challenges ::= update p (λ c, c <| pc_consumed := Some now |>) |>).
Proof. intros []. split; try done. apply grows_update; [apply _|by intros x _; unfold challenge_le; split_and!|done|done]. Qed.
Lemma keep_kill_grant drawn id now s s' : remembers drawn s s' → remembers drawn s (kill_grant id now s').
Proof. intros Hs. unfold kill_grant. apply keep_sessions_revoke, keep_grants; [|done]. intros g. unfold grant_le. by split_and!. Qed.
Create HintDb remember.
Hint Resolve remembers_refl keep_sessions_revoke keep_sessions_delete keep_revoke_family keep_family_cleanup keep_suspend keep_kill_grant : remember.

(** ** Every operation remembers *)

Lemma logout_remembers now token s : remembers [] s (revoke_session now token s).
Proof.
  unfold revoke_session. destruct (_hash_token token) as [hash|]; [|apply remembers_refl]. unfold revoke_hash.
  pose proof (keep_sessions_revoke [] (λ x, ss_hash x == hash) now s s (remembers_refl [] s)) as Hs. destruct (fetchone _ _) as [x|]; [|done]. unfold revoke_authority.
  destruct (ss_grant x ≫= nonempty) as [id|]; [|destruct (ss_family x ≫= nonempty) as [id|]; [|done]].
  - eapply remembers_same; [apply same_push|]. by apply (keep_kill_grant _ id).
  - eapply remembers_same; [apply revoke_family_same|]. by apply keep_revoke_family.
Qed.
Lemma drawn_here v h drawn : v ∈ drawn → _hash_token v = Some h → drawn_hash drawn h.
Proof. intros Hv Hh. by exists v. Qed.
Lemma redeem_remembers env now fresh hash s p s' : redeem env now fresh hash s = Ok (p, s') → remembers [fs_token fresh] s s'.
Proof.
  intros (g & x & _ & _ & _ & _ & Hh & _ & _ & _ & _ & -> & _)%redeem_cases. unfold redeemed. apply keep_grants; [intros y; unfold grant_le; by split_and!|].
  apply keep_session_new; [eapply drawn_here; [by left|done]|]. apply keep_sessions_revoke. apply keep_sessions_delete, remembers_refl.
Qed.
Lemma issue_remembers env now fresh secret s : remembers [fs_token fresh] s (issue_session env now fresh secret s).2.
Proof.
  assert (remembers [fs_token fresh] s (cleanup_sessions now s)) as Hs by (apply keep_sessions_delete, remembers_refl).
  destruct (issue_cases env now fresh secret s) as [->|[Hsame|(l & hash & expires & _ & Hh & _ & _ & Hsame)]]; [apply remembers_refl|by eapply remembers_same|].
  eapply remembers_same; [done|]. apply keep_session_new; [|done]. eapply drawn_here; [by left|done].
Qed.
Lemma rotate_remembers env now fresh facts hash f s0 s p s' : rotate env now fresh facts hash f s = Ok (p, s') →
  let drawn := [fs_token (fr_session fresh); "mgr_" +:+ fr_refresh fresh] in remembers drawn s0 s → remembers drawn s0 s'.
Proof.
  intros (next & x & _ & _ & _ & _ & _ & Hn & _ & _ & _ & Hx & _ & _ & _ & _ & ->)%rotate_cases drawn Hs. unfold rotated.
  apply keep_session_new; [eapply drawn_here; [by left|done]|]. apply keep_families; [intros y; unfold family_le; by split_and!|].
  apply keep_rotation; [eapply drawn_here; [by right; left|done]|]. by apply keep_sessions_revoke.
Qed.
Lemma new_family_remembers env now fresh facts user account provider platform scopes s0 s r s' :
  new_family env now fresh facts user account provider platform scopes s = Ok (r, s') →
  let drawn := [fs_token (fx_session fresh); "mgr_" +:+ fx_refresh fresh; "psf_" +:+ fx_family fresh] in remembers drawn s0 s → remembers drawn s0 s'.
Proof.
  intros (f & t & x & s1 & Hsame & _ & _ & _ & _ & _ & _ & F1 & _ & _ & _ & _ & _ & _ & Hx & Ht & _ & _ & _ & ->)%new_family_cases drawn Hs.
  apply keep_session_new; [eapply drawn_here; [by left|done]|]. apply keep_family_new; [rewrite F1; by do 2 right; left|eapply drawn_here; [by right; left|done]|].
  by eapply remembers_same.
Qed.
Lemma resolve_remembers drawn now fresh claims name action owner s w s' : auth_ok s → resolve_account now fresh claims name action owner s = Ok (w, s') →
  remembers drawn s s'.
Proof.
  intros Hs (_ & E1 & _ & E3 & E4 & E5 & E6 & _ & Hacc)%resolve_cases; [|done]. split; rewrite ?E1, ?E3, ?E4, ?E5, ?E6; try (apply grows_refl; apply _); try (apply stays_refl; apply _).
  destruct Hacc as [(p & f & -> & Hf & _)|(a & -> & _)].
  - exact (re_accounts _ _ _ (keep_accounts drawn p f s s Hf (remembers_refl _ _))).
  - exact (re_accounts _ _ _ (keep_account_new drawn a s s (remembers_refl _ _))).
Qed.
Lemma exchange_remembers env now fresh facts id claims name scopes principal s r s' : auth_ok s →
  exchange_commit env now fresh facts id claims name scopes principal s = Ok (r, s') →
  remembers [fs_token (fx_session fresh); "mgr_" +:+ fx_refresh fresh; "psf_" +:+ fx_family fresh] s s'.
Proof.
  intros Hs (c & w & s1 & s2 & _ & _ & _ & _ & _ & _ & Hw & S1 & S2 & S3 & S4 & S5 & C & _ & Hcase)%exchange_cases; [|done].
  pose proof (resolve_cases _ _ _ _ _ _ _ _ _ Hs Hw) as (_ & R1 & _). pose proof (resolve_remembers [fs_token (fx_session fresh); "mgr_" +:+ fx_refresh fresh; "psf_" +:+ fx_family fresh] _ _ _ _ _ _ _ _ _ Hs Hw) as H1.
  assert (remembers [fs_token (fx_session fresh); "mgr_" +:+ fx_refresh fresh; "psf_" +:+ fx_family fresh] s s2) as H2.
  { pose proof (keep_challenges _ (λ c, (pc_id c == id) && (pc_consumed c == None)) now _ _ H1) as []. rewrite <- R1 in C. split; rewrite ?S1, ?S2, ?S3, ?S4, ?S5, ?C; done. }
  destruct Hcase as [(_ & _ & ->)|[_ Hn]]; [done|]. by eapply new_family_remembers.
Qed.
Lemma refresh_remembers env now fresh facts hash platform s r s' : refresh_tx env now fresh facts hash platform s = Ok (r, s') →
  remembers [fs_token (fr_session fresh); "mgr_" +:+ fr_refresh fresh] s s'.
Proof.
  intros (t & f & a & _ & Hcase)%refresh_tx_cases.
  pose proof (keep_family_cleanup [fs_token (fr_session fresh); "mgr_" +:+ fr_refresh fresh] now s s (remembers_refl _ _)) as Hs.
  destruct Hcase as [(reason & _ & _ & ->)|[(_ & _ & _ & ->)|(_ & _ & p & _ & Hr)]].
  - eapply remembers_same; [apply same_push|]. by apply keep_revoke_family.
  - by apply keep_revoke_family.
  - by eapply rotate_remembers.
Qed.
Lemma others_remembers drawn accounts profiles push s : remembers drawn s (others_write accounts profiles push s).
Proof.
  unfold others_write. case_bool_decide; [|apply remembers_refl]. destruct (remembers_refl drawn s). split; try done. intros a Ha Hl. exists a. split; [|done].
  apply elem_of_app. left. by apply elem_of_select.
Qed.

Lemma auth_op_remembers op s : auth_ok s → remembers (draws op) s (auth_run urlsplit op s).
Proof.
  intros Hs. destruct op; cbn [draws auth_run]; try (apply commit_state; [apply remembers_refl|intros a s' Hm]).
  - apply grant_cases in Hm as (g & Hsame & _). eapply remembers_same; [exact Hsame|]. apply keep_grant_new, remembers_refl.
  - apply revoke_grant_cases in Hm. eapply remembers_same; [exact Hm|]. apply keep_kill_grant, remembers_refl.
  - apply issue_beta_cases in Hm as (hash & _ & Hr). by eapply redeem_remembers.
  - destruct (startup_cases _ _ _ _ _ Hm) as [->| ->]; [apply remembers_refl|apply keep_suspend, remembers_refl].
  - apply issue_remembers.
  - apply logout_remembers.
  - destruct (verified_state env policy now identity by_session_id s) as [->| ->]; [apply remembers_refl|apply keep_suspend, remembers_refl].
  - apply challenge_cases in Hm as (c & Hid & _ & _ & _ & _ & ->). rewrite <- Hid.
    pose proof (keep_family_cleanup [pc_id c] now s s (remembers_refl _ _)) as [A1 A2 A3 A4 A5 A6]. split; try done. by apply grows_snoc, grows_delete; [left|].
  - destruct (known_provider _); [|apply remembers_refl]. pose proof (finish_exchange_cases env now fresh facts id claims name principal s) as Hf.
    destruct (finish_exchange _ _ _ _ _ _ _ _ _) as [r s']. destruct Hf as [[-> _]|(scopes & x & _ & _ & Hx)]; [apply remembers_refl|]. by eapply exchange_remembers.
  - pose proof (refresh_session_cases env now fresh facts token platform s) as Hf. destruct (refresh_session _ _ _ _ _ _ _) as [r s'].
    destruct Hf as [[-> _]|(hash & _ & _ & Hr)]; [apply remembers_refl|by eapply refresh_remembers].
  - destruct a. apply unlink_cases in Hm as (a & _ & _ & _ & _ & _ & _ & _ & ->); [|done]. apply keep_kill_all, keep_accounts; [done|apply remembers_refl].
  - destruct a. eapply remembers_same; [by eapply welcome_same|apply remembers_refl].
  - apply others_remembers.
Qed.
(** Along a run, what was drawn by its operations. *)
Definition drawn_by (ops : list auth_op) : list string := mjoin (map draws ops).
Lemma auth_after_remembers ops s : auth_ok s → remembers (drawn_by ops) s (auth_after urlsplit ops s).
Proof.
  revert s. induction ops as [|op ops IH]; intros s Hs; [apply remembers_refl|]. eapply remembers_trans.
  - eapply remembers_more; [|by apply (auth_op_remembers op)]. intros v Hv. apply elem_of_app. by left.
  - eapply remembers_more; [|by apply IH, auth_op_ok]. intros v Hv. apply elem_of_app. by right.
Qed.

(** ** Records of accepted assertions *)

(** An operation keeps an assertion accepted at [accepted]: only a new challenge
    removes records, those older than a day by its clock. *)
Definition within_a_day (accepted : Z) (op : auth_op) : Prop := match op with AChallenge _ now _ _ _ _ _ _ => now ≤ accepted + 86400 | _ => True end.
Lemma kill_all_assertions ids now reason s : ad_assertions (fold_left (λ db id, revoke_family now reason id db) ids s) = ad_assertions s.
Proof. revert s. induction ids as [|id ids IH]; intros s; [done|]. simpl. by rewrite IH. Qed.
Lemma suspend_assertions now s : ad_assertions (_suspend_friend_beta_sessions_and_push now s) = ad_assertions s.
Proof. by destruct (suspend_same now s) as (_ & _ & _ & _ & _ & _ & ->). Qed.
Lemma logout_assertions now token s : ad_assertions (revoke_session now token s) = ad_assertions s.
Proof.
  unfold revoke_session. destruct (_hash_token token); [|done]. unfold revoke_hash. destruct (fetchone _ _) as [x|]; [|done]. unfold revoke_authority.
  destruct (ss_grant x ≫= nonempty) as [id|]; [done|]. by destruct (ss_family x ≫= nonempty) as [id|].
Qed.
Lemma issue_assertions env now fresh secret s : ad_assertions (issue_session env now fresh secret s).2 = ad_assertions s.
Proof.
  destruct (issue_cases env now fresh secret s) as [->|[(_ & _ & _ & _ & _ & _ & ->)|(l & hash & expires & _ & _ & _ & _ & (_ & _ & _ & _ & _ & _ & ->))]]; done.
Qed.
Lemma refresh_assertions env now fresh facts hash platform s r s' : refresh_tx env now fresh facts hash platform s = Ok (r, s') → ad_assertions s' = ad_assertions s.
Proof.
  intros (t & f & a & _ & [(reason & _ & _ & ->)|[(_ & _ & _ & ->)|(_ & _ & p & _ & Hr)]])%refresh_tx_cases; [done..|].
  by apply rotate_cases in Hr as (next & x & _ & _ & _ & _ & _ & _ & _ & _ & _ & _ & _ & _ & _ & _ & ->).
Qed.
Lemma exchange_assertions env now fresh facts id claims name scopes principal s r s' : auth_ok s →
  exchange_commit env now fresh facts id claims name scopes principal s = Ok (r, s') →
  ∃ account, ad_assertions s' = ad_assertions s ++ [Build_assertion (pv_assertion claims) id account now].
Proof.
  intros Hs (c & w & s1 & s2 & _ & _ & _ & _ & _ & _ & _ & _ & _ & _ & _ & _ & _ & E & Hcase)%exchange_cases; [|done]. exists w.1.
  destruct Hcase as [(_ & _ & ->)|[_ Hn]]; [done|].
  apply new_family_cases in Hn as (f & t & x & s3 & (_ & _ & _ & _ & _ & _ & F7) & Hn). by destruct_and! Hn; subst; simpl; rewrite F7.
Qed.
Lemma auth_op_assertions op s a : auth_ok s → within_a_day (pa_accepted a) op → a ∈ ad_assertions s → a ∈ ad_assertions (auth_run urlsplit op s).
Proof.
  intros Hs Hop Ha. destruct op; cbn [within_a_day auth_run] in *; try (apply commit_state; [done|intros r s' Hm]).
  - by apply grant_cases in Hm as (g & (_ & _ & _ & _ & _ & _ & ->) & _).
  - by apply revoke_grant_cases in Hm as (_ & _ & _ & _ & _ & _ & ->).
  - apply issue_beta_cases in Hm as (hash & _ & Hr). by apply redeem_cases in Hr as (g & x & _ & _ & _ & _ & _ & _ & _ & _ & _ & -> & _).
  - destruct (startup_cases _ _ _ _ _ Hm) as [->| ->]; [done|by rewrite suspend_assertions].
  - by rewrite issue_assertions.
  - by rewrite logout_assertions.
  - destruct (verified_state env policy now identity by_session_id s) as [->| ->]; [done|by rewrite suspend_assertions].
  - apply challenge_cases in Hm as (c & _ & _ & _ & _ & _ & ->). simpl. apply elem_of_delete. split; [done|]. lia.
  - destruct (known_provider _); [|done]. pose proof (finish_exchange_cases env now fresh facts id claims name principal s) as Hf.
    destruct (finish_exchange _ _ _ _ _ _ _ _ _) as [r s']. simpl. destruct Hf as [[-> _]|(scopes & x & _ & _ & Hx)]; [done|].
    apply exchange_assertions in Hx as [w ->]; [|done]. apply elem_of_app. by left.
  - pose proof (refresh_session_cases env now fresh facts token platform s) as Hf. destruct (refresh_session _ _ _ _ _ _ _) as [r s']. simpl.
    destruct Hf as [[-> _]|(hash & _ & _ & Hr)]; [done|]. by rewrite (refresh_assertions _ _ _ _ _ _ _ _ _ Hr).
  - destruct r. apply unlink_cases in Hm as (b & _ & _ & _ & _ & _ & _ & _ & ->); [|done]. by rewrite kill_all_assertions.
  - destruct r. by apply welcome_same in Hm as (_ & _ & _ & _ & _ & _ & ->).
  - unfold others_write. by case_bool_decide.
Qed.
Lemma auth_after_assertions ops s a : auth_ok s → (∀ op, op ∈ ops → within_a_day (pa_accepted a) op) → a ∈ ad_assertions s → a ∈ ad_assertions (auth_after urlsplit ops s).
Proof.
  revert s. induction ops as [|op ops IH]; intros s Hs Hops Ha; [done|]. simpl. apply IH; [by apply auth_op_ok|intros op' Hop; apply Hops; by right|].
  apply auth_op_assertions; [done|apply Hops; by left|done].
Qed.
End History.
