(* ===== verification/AuthTheorems.v ===== *)
(** * What authentication promises

    Every verified principal is backed by a live authority; what is revoked or
    consumed stays so; a rotated refresh token betrays its family. *)

From stdpp Require Import base option list sorting strings numbers sets.
From Stdlib Require Import ZArith Lia Ascii.
From S2P Require Import Prelude Sql Feed Json Text Order Deployment AuthStore Sessions Identity ProviderAuth AuthInvariant AuthSteps AuthReach AuthHistory.

Open Scope string_scope.
Open Scope list_scope.
Open Scope Z_scope.
Set Default Proof Using "Type".

Section Verified.
Context `{Codec}.

(** ** Verification *)

Lemma valid_spec now x s : session_valid now x s = true →
  ss_revoked x = None ∧ now < ss_expires x ∧ grant_invalid now x s = false ∧ provider_invalid now x s = false ∧ (ss_family x = None ↔ ss_account x = None) ∧
  _valid_user_id (ss_user x) = true ∧ text_scopes (ss_scopes x) ≠ [] ∧ subset (text_scopes (ss_scopes x)) KNOWN_SCOPES = true.
Proof.
  unfold session_valid. intros Hv%negb_true_iff. repeat (apply orb_false_iff in Hv as [Hv ?]). apply negb_false_iff in Hv. split_and!; try done.
  - by apply bool_decide_eq_true in Hv.
  - lia.
  - match goal with Hb : negb (Bool.eqb _ _) = false |- _ => apply negb_false_iff, eqb_prop in Hb end. destruct (ss_family x), (ss_account x); done.
  - by match goal with Hb : negb (_valid_user_id _) = false |- _ => apply negb_false_iff in Hb end.
  - match goal with Hb : (_ == []) = false |- _ => by apply bool_decide_eq_false in Hb end.
  - by match goal with Hb : negb (subset _ _) = false |- _ => apply negb_false_iff in Hb end.
Qed.
Lemma verified_ok env policy now identity by_id s p s' : _verified_session env policy now identity by_id s = (Ok p, s') →
  s' = s ∧ ∃ x, fetchone (λ x, (if by_id then ss_id x else ss_hash x) == identity) (ad_sessions s) = Some x ∧ session_valid now x s = true ∧ p = principal_of x s ∧
    (ss_grant x ≫= nonempty ≠ None → _friend_beta_enabled env = Ok true).
Proof.
  unfold _verified_session. destruct (fetchone _ _) as [x|]; [|done]. destruct (beta_gate env now x s) as [[[]|e] s1] eqn:Eb; [|by rewrite (io_bind_err _ _ _ _ _ Eb)].
  rewrite (io_bind_ok _ _ _ _ _ Eb). unfold pure. intros [= Hv <-]. apply res_bind_ok in Hv as ([] & Hv%ensure_ok & Hg).
  assert (s1 = s ∧ (ss_grant x ≫= nonempty ≠ None → _friend_beta_enabled env = Ok true)) as [-> Hen].
  { unfold beta_gate in Eb. destruct (ss_grant x ≫= nonempty); [|by injection Eb as ->].
    destruct (_friend_beta_enabled env) as [b|e]; [|done]. cbn [or_http] in Eb. erewrite io_bind_ok in Eb by reflexivity. destruct b; [by injection Eb as ->|].
    by erewrite io_bind_ok in Eb by reflexivity. }
  split; [done|]. exists x. split_and!; try done. unfold policy_gate in Hg. repeat case_match; congruence.
Qed.

Lemma nonempty_spec (o : option string) id : o ≫= nonempty = Some id ↔ o = Some id ∧ id ≠ "".
Proof.
  destruct o as [v|]; simpl; [|naive_solver]. unfold nonempty. destruct (v == "") eqn:E; [apply eqb_true in E|apply eqb_false in E]; naive_solver.
Qed.
Definition live_grant (now : Z) (p : Principal) (g : grant) : Prop :=
  gr_user g = pr_user p ∧ gr_revoked g = None ∧ now < gr_expires g ∧ pr_expires p ≤ gr_expires g ∧ "response" ∉ pr_scopes p ∧ ∀ w, w ∈ pr_scopes p → w ∈ text_scopes (gr_scopes g).
Definition live_family (now : Z) (p : Principal) (f : family) (a : account) : Prop :=
  sf_user f = pr_user p ∧ sf_revoked f = None ∧ now < sf_expires f ∧ pr_expires p ≤ sf_expires f ∧ (∀ w, w ∈ pr_scopes p → w ∈ text_scopes (sf_scopes f)) ∧
  pr_account p = Some (ca_id a) ∧ ca_user a = pr_user p ∧ ca_provider a = sf_provider f ∧ is_login a = true ∧ ca_status a = "connected".

Lemma grant_covered s x : auth_ok s → x ∈ ad_sessions s → ∀ id, ss_grant x = Some id → ∃ g, g ∈ ad_grants s ∧ gr_id g = id ∧ grant_of x s = Some g ∧
  covers ss_grant gr_id gr_user gr_scopes gr_expires (λ _, None) (λ g, gr_revoked g ≠ None) x g.
Proof.
  intros Hs Hx id Hid. destruct (bk_auth _ _ _ _ _ _ _ _ _ (ak_grants _ Hs) x id Hx Hid) as (g & Hg & Hc). pose proof Hc as [Hk _]. exists g.
  assert (gr_id g = id) as E by congruence. split_and!; try done. unfold grant_of. rewrite Hid. simpl.
  apply (fetchone_unique gr_id); [apply (ak_grants _ Hs)|done|by rewrite E, eqb_refl|]. intros y Hy%eqb_true. congruence.
Qed.
Lemma family_covered s x : auth_ok s → x ∈ ad_sessions s → ∀ id, ss_family x = Some id → ∃ f, f ∈ ad_families s ∧ sf_id f = id ∧ family_of x s = Some f ∧
  covers ss_family sf_id sf_user sf_scopes sf_expires (λ f, Some (sf_account f)) (λ f, sf_revoked f ≠ None) x f.
Proof.
  intros Hs Hx id Hid. destruct (bk_auth _ _ _ _ _ _ _ _ _ (ak_families _ Hs) x id Hx Hid) as (f & Hf & Hc). pose proof Hc as (Hk & Hu & _ & Hac & _). exists f.
  assert (sf_id f = id) as E by congruence. split_and!; try done. unfold family_of. rewrite Hid, Hac. simpl.
  apply (fetchone_unique sf_id); [apply (ak_families _ Hs)|done|by rewrite E, Hu, !eqb_refl|]. intros y [[Hy%eqb_true _]%andb_true_iff _]%andb_true_iff. congruence.
Qed.

(** ** What is over *)

Definition refused (env : string → option string) (policy : res mode_error deployment_contract) (now : Z) (hash : string) (s : auth_db) : Prop :=
  ∃ code, (_verified_session env policy now hash false s).1 = Err (HTTPException code).
Definition over_hash (hash : string) (s : auth_db) : Prop := ∀ x, x ∈ ad_sessions s → ss_hash x = hash → ss_revoked x ≠ None.
Definition over_grant (id : string) (s : auth_db) : Prop := ∃ g, g ∈ ad_grants s ∧ gr_id g = id ∧ gr_revoked g ≠ None.
Definition over_family (id : string) (s : auth_db) : Prop := ∀ f, f ∈ ad_families s → sf_id f = id → sf_revoked f ≠ None.

Lemma over_hash_refused env policy now hash s : over_hash hash s → refused env policy now hash s.
Proof.
  intros Ho. unfold refused, _verified_session. destruct (fetchone _ _) as [x|] eqn:Ef; [|by exists 401]. apply fetchone_some in Ef as [Hx Hh%eqb_true].
  assert (session_valid now x s = false) as Hv.
  { unfold session_valid. destruct (ss_revoked x) as [r|] eqn:Er; [done|]. by specialize (Ho x Hx Hh). }
  destruct (beta_gate env now x s) as [[[]|e] s1] eqn:Eb; [rewrite (io_bind_ok _ _ _ _ _ Eb), Hv; by exists 401|]. rewrite (io_bind_err _ _ _ _ _ Eb).
  unfold beta_gate in Eb. destruct (ss_grant x ≫= nonempty); [|done]. destruct (_friend_beta_enabled env) as [[|]|]; cbn [or_http] in Eb.
  - by erewrite io_bind_ok in Eb by reflexivity.
  - erewrite io_bind_ok in Eb by reflexivity. cbv iota in Eb. erewrite io_bind_ok in Eb by reflexivity. injection Eb as <- _. by exists 401.
  - injection Eb as <- _. by exists 503.
Qed.
Lemma over_grant_sessions id s : auth_ok s → over_grant id s → ∀ y, y ∈ ad_sessions s → ss_grant y = Some id → ss_revoked y ≠ None.
Proof.
  intros Hs (g & Hg & Hid & Hrev) y Hy Hk. destruct (grant_covered s y Hs Hy id Hk) as (g' & Hg' & Hid' & _ & _ & _ & _ & _ & _ & Hd). apply Hd.
  by rewrite (NoDup_key_inj gr_id _ g' g (bk_ids _ _ _ _ _ _ _ _ _ (ak_grants _ Hs)) Hg' Hg) by congruence.
Qed.
Lemma over_family_sessions id s : auth_ok s → over_family id s → ∀ y, y ∈ ad_sessions s → ss_family y = Some id → ss_revoked y ≠ None.
Proof.
  intros Hs Ho y Hy Hk. destruct (family_covered s y Hs Hy id Hk) as (f & Hf & Hid & _ & _ & _ & _ & _ & _ & Hd). apply Hd, Ho; done.
Qed.
(** A retired family is never renewed. *)
Lemma family_cleanup_sub now s f : f ∈ ad_families (_cleanup_expired_session_families now s) → f ∈ ad_families s.
Proof. by intros [? _]%elem_of_delete. Qed.
Lemma over_family_refresh id env now fresh facts token hash platform s t : auth_ok s → over_family id s → _hash_token token = Some hash →
  t ∈ ad_refresh s → rf_hash t = hash → rf_family t = id → ∃ e, (refresh_session env now fresh facts token platform s).1 = Err e.
Proof.
  intros Hs Ho Hh Ht Hth Hid. pose proof (refresh_session_cases env now fresh facts token platform s) as Hc. destruct (refresh_session _ _ _ _ _ _ _) as [r s']. simpl.
  destruct Hc as [[_ ?]|(hash' & _ & Hh' & (t' & f & a & Hrow & Hcase)%refresh_tx_cases)]; [done|]. destruct Hcase as [(_ & _ & -> & _)|[(_ & _ & -> & _)|(_ & Hi & _)]]; [by eexists..|].
  exfalso. apply refresh_row_some in Hrow as (Ht' & Hth' & Hf & Hfam & _). apply family_cleanup_sub in Hf. assert (t' = t) as ->.
  { apply (NoDup_key_inj rf_hash _ _ _ (ak_refresh_hashes _ Hs)); [by apply elem_of_delete in Ht' as [? _]|done|congruence]. }
  specialize (Ho f Hf ltac:(congruence)). unfold refresh_invalid in Hi. destruct (sf_revoked f) as [n|]; [done|by apply Ho].
Qed.

Lemma over_hash_remembers drawn hash s s' : remembers drawn s s' → ¬ drawn_hash drawn hash → over_hash hash s → over_hash hash s'.
Proof.
  intros Hr Hn Ho x Hx Hh. destruct (re_sessions _ _ _ Hr x Hx) as [(y & Hy & _ & E & Hrev)|Hnew]; [|by rewrite Hh in Hnew]. apply Hrev, Ho; [done|congruence].
Qed.
Lemma over_grant_remembers drawn id s s' : remembers drawn s s' → over_grant id s → over_grant id s'.
Proof. intros Hr (g & Hg & Hid & Hrev). destruct (re_grants _ _ _ Hr g Hg) as (g' & Hg' & E & _ & _ & _ & _ & Hrev'). exists g'. split_and!; [done|congruence|auto]. Qed.
Lemma over_family_remembers drawn id s s' : remembers drawn s s' → id ∉ drawn → over_family id s → over_family id s'.
Proof.
  intros Hr Hn Ho f Hf Hid. destruct (re_families _ _ _ Hr f Hf) as [(y & Hy & E & _ & _ & Hrev)|Hnew]; [apply Hrev, Ho; [done|congruence]|congruence].
Qed.

(** ** Logout *)

Lemma family_now_over now reason id s : over_family id (revoke_family now reason id s).
Proof. intros f (f0 & _ & ->)%elem_of_update. destruct (sf_id f0 == id) eqn:E; [done|]. apply eqb_false in E. done. Qed.
Lemma logout_over now token hash x s : auth_ok s → _hash_token token = Some hash → x ∈ ad_sessions s → ss_hash x = hash → let s' := revoke_session now token s in
  over_hash hash s' ∧ (∀ id, ss_grant x = Some id → over_grant id s') ∧ (∀ id, ss_family x = Some id → over_family id s').
Proof.
  intros Hs Hh Hx Hxh. unfold revoke_session, revoke_hash. rewrite Hh. assert (fetchone (λ x, ss_hash x == hash) (ad_sessions s) = Some x) as ->.
  { apply (fetchone_unique ss_hash); [apply Hs|done|by rewrite Hxh, eqb_refl|]. intros y Hy%eqb_true. congruence. }
  cbv zeta. set (s1 := s <| ad_sessions ::= _ |>). assert (over_hash hash s1) as H1.
  { intros y (y0 & _ & ->)%elem_of_update. destruct (ss_hash y0 == hash) eqn:E; [done|]. apply eqb_false in E. done. }
  destruct (ak_sessions _ Hs x Hx) as (_ & Hg0 & Hf0 & _ & Hgf & _). unfold revoke_authority. destruct (ss_grant x) as [id|] eqn:Eg.
  - assert (Some id ≫= nonempty = Some id) as -> by (apply nonempty_spec; split; congruence). rewrite (Hgf ltac:(done)). split; [|split; [|done]].
    + eapply over_hash_remembers; [|by intros (v & ?%not_elem_of_nil & _)|exact H1]. eapply remembers_same; [apply same_push|]. apply (keep_kill_grant [] id), remembers_refl.
    + intros ? [= <-]. destruct (grant_covered s x Hs Hx id Eg) as (g & Hg & Hid & _). eexists. split; [by apply update_in|]. rewrite Hid, eqb_refl. simpl.
      destruct (gr_revoked g) as [r|] eqn:Er; simpl; [by rewrite Er|done].
  - destruct (ss_family x) as [id|] eqn:Ef; [|done]. assert (Some id ≫= nonempty = Some id) as -> by (apply nonempty_spec; split; congruence). split; [|split; [done|]].
    + eapply over_hash_remembers; [|by intros (v & ?%not_elem_of_nil & _)|exact H1]. eapply remembers_same; [apply revoke_family_same|]. apply keep_revoke_family, remembers_refl.
    + intros ? [= <-]. apply family_now_over.
Qed.
End Verified.

Section Claims.
Context `{Codec} (urlsplit : string → option url).
Local Abbreviation reachable := (auth_reachable urlsplit).
Local Abbreviation after := (auth_after urlsplit).

(** C2. A verified principal stands for a session that is neither revoked nor
    expired and lasts a day at most. A session of a beta grant is within a live
    grant of the same user, that never has the scope of responses; a session of
    a provider is within a live family of the same user, held by a connected
    login of that user. Verification itself writes nothing. *)
Theorem principal_backed env policy now identity by_id s p s' : reachable s → _verified_session env policy now identity by_id s = (Ok p, s') →
  s' = s ∧ now < pr_expires p ∧ pr_scopes p ≠ [] ∧ (∀ w, w ∈ pr_scopes p → w ∈ KNOWN_SCOPES) ∧
  (∃ x, x ∈ ad_sessions s ∧ ss_id x = pr_session p ∧ ss_user x = pr_user p ∧ ss_revoked x = None ∧ pr_expires p ≤ ss_issued x + 86400) ∧
  (∀ id, pr_grant p = Some id → _friend_beta_enabled env = Ok true ∧ pr_family p = None ∧ ∃ g, g ∈ ad_grants s ∧ gr_id g = id ∧ live_grant now p g) ∧
  (∀ id, pr_family p = Some id → ∃ f a, f ∈ ad_families s ∧ a ∈ ad_accounts s ∧ sf_id f = id ∧ live_family now p f a ∧ pr_provider p = Some (sf_provider f)).
Proof.
  intros Hr Hv. pose proof (auth_reachable_ok _ _ Hr) as Hs. apply verified_ok in Hv as (-> & x & Hx & Hv & -> & Hen). apply fetchone_some in Hx as [Hx _].
  apply valid_spec in Hv as (Hrev & Hexp & Hgi & Hpi & _ & _ & Hne & Hk). destruct (ak_sessions _ Hs x Hx) as (_ & Hg0 & Hf0 & _ & Hgf & Hday). rewrite subset_spec in Hk.
  split; [done|]. split; [done|]. split; [done|]. split; [done|]. split; [by exists x|]. simpl. split.
  - intros id Hid. assert (ss_grant x ≫= nonempty = Some id) as Hn by (apply nonempty_spec; split; congruence). split; [apply Hen; congruence|].
    split; [apply Hgf; congruence|]. destruct (grant_covered s x Hs Hx id Hid) as (g & Hg & E & Hof & _ & Hu & He & _ & Hsc & _). exists g. split; [done|]. split; [done|].
    unfold grant_invalid in Hgi. rewrite Hn, Hof in Hgi. apply orb_false_iff in Hgi as [Hge Hgr%negb_false_iff%bool_decide_eq_true].
    unfold live_grant. simpl. split_and!; try done; [lia|]. intros Hin%Hsc. by destruct (ak_grant_rows _ Hs g Hg) as (_ & _ & ?).
  - intros id Hid. assert (ss_family x ≫= nonempty = Some id) as Hn by (apply nonempty_spec; split; congruence).
    destruct (family_covered s x Hs Hx id Hid) as (f & Hf & E & Hof & _ & Hu & He & Hac & Hsc & _).
    unfold provider_invalid in Hpi. rewrite Hn, Hof in Hpi. apply orb_false_iff in Hpi as [Hpi _]. apply orb_false_iff in Hpi as [[Hfe Hfr%negb_false_iff%bool_decide_eq_true]%orb_false_iff _].
    destruct (ak_family_rows _ Hs f Hf) as (_ & _ & _ & a & Ha & Hid' & Hl & Hua & Hpa & Hst). exists f, a. rewrite Hof. unfold live_family. simpl. split_and!; auto; try congruence. lia.
Qed.

(** C13. Logout is final: whatever the gateway does afterwards, unless it draws the
    same values again, the token is refused, every session of the same grant or
    family is revoked, and no refresh token of the family is accepted. *)
Theorem logout_final now0 token hash x s ops : reachable s → _hash_token token = Some hash → x ∈ ad_sessions s → ss_hash x = hash →
  ¬ drawn_hash (drawn_by ops) hash → (∀ id, ss_family x = Some id → id ∉ drawn_by ops) →
  let s' := after ops (revoke_session now0 token s) in
  (∀ env policy now, refused env policy now hash s') ∧
  (∀ y, y ∈ ad_sessions s' → (ss_grant x ≠ None ∧ ss_grant y = ss_grant x) ∨ (ss_family x ≠ None ∧ ss_family y = ss_family x) → ss_revoked y ≠ None) ∧
  (∀ t env now fresh facts rtoken platform, t ∈ ad_refresh s' → ss_family x = Some (rf_family t) → _hash_token rtoken = Some (rf_hash t) →
     ∃ e, (refresh_session env now fresh facts rtoken platform s').1 = Err e).
Proof.
  intros Hr Hh Hx Hxh Hdh Hdf s'. pose proof (auth_reachable_ok _ _ Hr) as Hs. destruct (logout_over now0 token hash x s Hs Hh Hx Hxh) as (O1 & O2 & O3).
  pose proof (revoke_session_ok now0 token s Hs) as Hs1. pose proof (auth_after_remembers urlsplit ops _ Hs1) as Hm. pose proof (auth_after_ok urlsplit ops _ Hs1) as Hs'.
  split; [|split].
  - intros env policy now. by eapply over_hash_refused, over_hash_remembers.
  - intros y Hy [[Hn E]|[Hn E]].
    + destruct (ss_grant x) as [id|] eqn:Eg; [|done]. eapply over_grant_sessions; [done| |done|done]. eapply over_grant_remembers; [done|by apply O2].
    + destruct (ss_family x) as [id|] eqn:Ef; [|done]. eapply over_family_sessions; [done| |done|done]. eapply over_family_remembers; [done|by apply Hdf|by apply O3].
  - intros t env now fresh facts rtoken platform Ht Ef Hrt. eapply over_family_refresh; [done| |done|done|done|done]. eapply over_family_remembers; [done|by apply Hdf|by apply O3].
Qed.
End Claims.
