(* ===== verification/AuthClaims.v ===== *)
(** * One-time values of authentication

    Refresh tokens, challenges and identities: each works once, or always means
    the same user, in every run of the gateway. *)

From stdpp Require Import base option list sorting strings numbers sets.
From Stdlib Require Import ZArith Lia Ascii.
From S2P Require Import Prelude Sql Feed Json Text Order Deployment AuthStore Sessions Identity ProviderAuth AuthInvariant AuthSteps AuthReach AuthHistory AuthTheorems.

Open Scope string_scope.
Open Scope list_scope.
Open Scope Z_scope.
Set Default Proof Using "Type".

Section Once.
Context `{Codec}.

(** ** Refresh tokens *)

Definition over_refresh (hash : string) (s : auth_db) : Prop := ∀ t, t ∈ ad_refresh s → rf_hash t = hash → rf_consumed t ≠ None.
Definition over_challenge (id : string) (s : auth_db) : Prop := ∀ c, c ∈ ad_challenges s → pc_id c = id → pc_consumed c ≠ None.
Lemma over_refresh_remembers drawn hash s s' : remembers drawn s s' → ¬ drawn_hash drawn hash → over_refresh hash s → over_refresh hash s'.
Proof.
  intros Hr Hn Ho t Ht Hh. destruct (re_refresh _ _ _ Hr t Ht) as [(y & Hy & E & _ & Hc)|Hnew]; [apply Hc, Ho; [done|congruence]|by rewrite Hh in Hnew].
Qed.
Lemma over_challenge_remembers drawn id s s' : remembers drawn s s' → id ∉ drawn → over_challenge id s → over_challenge id s'.
Proof.
  intros Hr Hn Ho c Hc Hid. destruct (re_challenges _ _ _ Hr c Hc) as [(y & Hy & E & Hcons)|Hnew]; [apply Hcons, Ho; [done|congruence]|congruence].
Qed.
Lemma over_refresh_refused env now fresh facts token hash platform s : _hash_token token = Some hash → over_refresh hash s →
  ∃ e, (refresh_session env now fresh facts token platform s).1 = Err e.
Proof.
  intros Hh Ho. pose proof (refresh_session_cases env now fresh facts token platform s) as Hc. destruct (refresh_session _ _ _ _ _ _ _) as [r s']. simpl.
  destruct Hc as [[_ ?]|(hash' & _ & Hh' & (t' & f & a & Hrow & Hcase)%refresh_tx_cases)]; [done|]. destruct Hcase as [(_ & _ & -> & _)|[(_ & _ & -> & _)|(Hn & _)]]; [by eexists..|].
  exfalso. apply refresh_row_some in Hrow as (Ht & Hth & _). apply not_compromised in Hn as [Hn _]. apply elem_of_delete in Ht as [Ht _]. by apply (Ho t' Ht); [congruence|].
Qed.
Lemma over_challenge_refused env now fresh facts id claims name principal s : over_challenge id s → auth_ok s →
  ∃ e, (finish_exchange env now fresh facts id claims name principal s).1 = Err e.
Proof.
  intros Ho Hs. pose proof (finish_exchange_cases env now fresh facts id claims name principal s) as Hc. destruct (finish_exchange _ _ _ _ _ _ _ _ _) as [r s']. simpl.
  destruct Hc as [[_ ?]|(scopes & x & _ & _ & (c & w & s1 & s2 & Hc & Hid & Hn & _)%exchange_cases)]; [done| |done]. by destruct (Ho c Hc Hid).
Qed.
Lemma consumed_now hash now next s : rf_hash next ≠ hash → over_refresh hash (s <| ad_refresh ::= (λ l, consume hash now l ++ [next]) |>).
Proof.
  intros Hn t [(t0 & _ & ->)%elem_of_update| ->%list_elem_of_singleton]%elem_of_app Hh; [|done]. destruct (rf_hash t0 == hash) eqn:E; simpl in *.
  - destruct (rf_consumed t0) as [c|] eqn:Ec; simpl; [by rewrite Ec|done].
  - apply eqb_false in E. done.
Qed.
Lemma accepted_refused env now fresh facts id claims name principal s a : a ∈ ad_assertions s → pa_hash a = pv_assertion claims → auth_ok s →
  ∃ e, (finish_exchange env now fresh facts id claims name principal s).1 = Err e.
Proof.
  intros Ha Hh Hs. pose proof (finish_exchange_cases env now fresh facts id claims name principal s) as Hc. destruct (finish_exchange _ _ _ _ _ _ _ _ _) as [r s']. simpl.
  destruct Hc as [[_ ?]|(scopes & x & _ & _ & (c & w & s1 & s2 & _ & _ & _ & _ & _ & Hno & _)%exchange_cases)]; [done| |done]. by destruct (Hno a Ha).
Qed.
(** Two rows that a count of one counts are the same. *)
Lemma count_one {R} (p : R → bool) l x y : count p l = 1 → x ∈ l → y ∈ l → p x = true → p y = true → x = y.
Proof.
  unfold count. intros Hn Hx Hy Hpx Hpy. assert (x ∈ select p l) as Hx' by (by apply elem_of_select). assert (y ∈ select p l) as Hy' by (by apply elem_of_select).
  destruct (select p l) as [|z [|z' t]]; simpl in Hn; [lia| |lia]. apply list_elem_of_singleton in Hx', Hy'. congruence.
Qed.

(** The row a token names while its family has not expired. *)
Lemma unexpired_kept now s f : auth_ok s → f ∈ ad_families s → now < sf_expires f → let s1 := _cleanup_expired_session_families now s in
  f ∈ ad_families s1 ∧ ∀ t, t ∈ ad_refresh s → rf_family t = sf_id f → t ∈ ad_refresh s1.
Proof.
  intros Hs Hf Hexp. set (ids := map sf_id (take MAX_EXPIRED_SESSION_FAMILY_CLEANUP (order_by (before (λ a b, sf_expires a ?= sf_expires b)) (select (λ f, sf_expires f <=? now) (ad_families s))))).
  assert (listed (sf_id f) ids = false) as Hni.
  { destruct (listed (sf_id f) ids) eqn:E; [|done]. apply listed_spec, list_elem_of_fmap in E as (g & Eg & Hg). apply elem_of_take, elem_of_order_by, elem_of_select in Hg as [Hg Hge].
    rewrite (NoDup_key_inj sf_id _ f g (bk_ids _ _ _ _ _ _ _ _ _ (ak_families _ Hs)) Hf Hg Eg) in Hexp. lia. }
  split; [by apply elem_of_delete|]. intros t Ht Hid. apply elem_of_delete. by rewrite Hid.
Qed.
End Once.

Section Claims.
Context `{Codec} (urlsplit : string → option url).
Local Abbreviation reachable := (auth_reachable urlsplit).
Local Abbreviation after := (auth_after urlsplit).

(** C23. A successful refresh consumes its token for ever: the token was unused, the
    renewed session is the only live one of its family, the new token belongs to
    the same family and is the only unused one of it, and whatever the gateway
    does afterwards, presenting the old token again fails, unless its value is
    drawn again. *)
Theorem rotation_once env now fresh facts token hash platform s p s1 : reachable s → _hash_token token = Some hash →
  refresh_session env now fresh facts token platform s = (Ok p, s1) →
  ∃ t x next, t ∈ ad_refresh s ∧ rf_hash t = hash ∧ rf_consumed t = None ∧
    x ∈ ad_sessions s1 ∧ _hash_token (sp_token (pp_session p)) = Some (ss_hash x) ∧ ss_revoked x = None ∧ ss_family x = Some (rf_family t) ∧
    (∀ y, y ∈ ad_sessions s1 → ss_family y = Some (rf_family t) → ss_revoked y = None → y = x) ∧
    next ∈ ad_refresh s1 ∧ _hash_token (pp_refresh_token p) = Some (rf_hash next) ∧ rf_consumed next = None ∧ rf_family next = rf_family t ∧
    (∀ y, y ∈ ad_refresh s1 → rf_family y = rf_family t → rf_consumed y = None → y = next) ∧
    ∀ ops, ¬ drawn_hash (drawn_by ops) hash → ∀ env' now' fresh' facts' platform', ∃ e, (refresh_session env' now' fresh' facts' token platform' (after ops s1)).1 = Err e.
Proof.
  intros Hr Hh E. pose proof (auth_reachable_ok _ _ Hr) as Hs. pose proof (refresh_session_cases env now fresh facts token platform s) as Hc. rewrite E in Hc.
  destruct Hc as [[_ [e ?]]|(hash' & _ & Hh' & Htx)]; [done|]. pose proof (refresh_ok _ _ _ _ _ _ _ _ _ Hs Htx) as Hs1.
  apply refresh_tx_cases in Htx as (t & f & a & Hrow & [(? & _ & ? & _)|[(_ & _ & ? & _)|(Hn & Hi & p' & [= <-] & Hrot)]]); [done..|].
  assert (hash' = hash) as -> by congruence. apply refresh_row_some in Hrow as (Ht & Hth & Hf & Hfam & _). apply not_compromised in Hn as [Hn _].
  apply rotate_cases in Hrot as (next & x & _ & _ & N1 & N2 & N3 & Nh & Nf & Nx & Ex & Hx & _ & _ & Ept & Eps & E1).
  assert (over_refresh hash s1) as Ho.
  { assert (rf_hash next ≠ hash) as Hne.
    { intros Ee. assert (refresh_clash next (t <| rf_consumed := Some now |>) = false) as Hcl; [|unfold refresh_clash in Hcl; simpl in Hcl; by rewrite Ee, Hth, eqb_refl in Hcl].
      apply Nf. pose proof (update_in (λ t, (rf_hash t == hash) && (rf_consumed t == None)) (λ t, t <| rf_consumed := Some now |>) _ t Ht) as Hin. cbv beta in Hin. by rewrite Hth, Hn, eqb_refl in Hin. }
    rewrite E1. exact (consumed_now hash now next (_cleanup_expired_session_families now s) Hne). }
  apply elem_of_delete in Ht as [Ht _].
  assert (x ∈ ad_sessions s1) as Hxin by (rewrite E1; apply elem_of_app; right; by left). assert (ss_family x = Some (rf_family t)) as Hxf by (rewrite Ex; simpl; congruence).
  assert (ss_revoked x = None) as Hxr by (by rewrite Ex).
  exists t, x, next. do 4 (split; [done|]). split; [by rewrite Eps|]. do 2 (split; [done|]). split.
  - intros y Hy Hyf Hyr. apply (bk_one _ _ _ _ _ _ _ _ _ (ak_families _ Hs1)); congruence.
  - assert (next ∈ ad_refresh s1) as Hnext by (rewrite E1; apply elem_of_app; right; by left). assert (rf_family next = rf_family t) as Hnf by congruence.
    split; [done|]. split; [by rewrite Ept|]. do 2 (split; [done|]). split.
    { intros y Hy Hyf Hyc. destruct (ak_refresh _ Hs1 _ Hnext) as (g & Hg & Hgid & _). apply (count_one (spare (sf_id g)) (ad_refresh s1)); [by apply ak_spare|done..| |].
      all: unfold spare; by rewrite ?Hyc, ?N3, Hgid, ?Hyf, ?Hnf, !eqb_refl. }
    intros ops Hd env' now' fresh' facts' platform'.
    eapply over_refresh_refused; [done|]. by eapply over_refresh_remembers; [apply (auth_after_remembers urlsplit)|..].
Qed.

(** C12. A used refresh token, or one from another channel, betrays its family: the
    request fails with 401, yet the family is retired with that transaction, so
    that from then on all its sessions are revoked and every refresh token of it,
    the newest included, is refused. *)
Theorem reuse_betrays_family env now fresh facts token platform t s : reachable s → t ∈ ad_refresh s → _hash_token token = Some (rf_hash t) → now < rf_expires t →
  listed platform ["native"; "web"] = true → _SAFE_REFRESH token = true →
  rf_consumed t ≠ None ∨ (∃ f, f ∈ ad_families s ∧ sf_id f = rf_family t ∧ sf_platform f ≠ platform) →
  ∃ s1, refresh_session env now fresh facts token platform s = (Err (HTTPException 401), s1) ∧
    ∀ ops, rf_family t ∉ drawn_by ops → let s2 := after ops s1 in
      (∀ y, y ∈ ad_sessions s2 → ss_family y = Some (rf_family t) → ss_revoked y ≠ None) ∧
      (∀ t' env' now' fresh' facts' token' platform', t' ∈ ad_refresh s2 → rf_family t' = rf_family t → _hash_token token' = Some (rf_hash t') →
         ∃ e, (refresh_session env' now' fresh' facts' token' platform' s2).1 = Err e).
Proof.
  intros Hr Ht Hh Hexp Hp Hsafe Hbad. pose proof (auth_reachable_ok _ _ Hr) as Hs. destruct (ak_refresh _ Hs t Ht) as (f & Hf & Hid & He).
  destruct (unexpired_kept now s f Hs Hf ltac:(congruence)) as [Hf1 Hkeep]. specialize (Hkeep t Ht (eq_sym Hid)). set (s1 := _cleanup_expired_session_families now s) in *.
  pose proof (family_cleanup_ok now s Hs) as Hs1. change (auth_ok s1) in Hs1. destruct (ak_family_rows _ Hs f Hf) as (_ & _ & _ & a & Ha & Hai & _).
  assert (refresh_row (rf_hash t) s1 = Some (t, f, a)) as Hrow.
  { unfold refresh_row. rewrite (fetchone_unique rf_hash _ _ t (ak_refresh_hashes _ Hs1) Hkeep) by (rewrite ?eqb_refl; try done; by intros y Hy%eqb_true). simpl.
    rewrite (fetchone_unique sf_id _ _ f (bk_ids _ _ _ _ _ _ _ _ _ (ak_families _ Hs1)) Hf1) by (rewrite ?Hid, ?eqb_refl; try done; intros y Hy%eqb_true; congruence). simpl.
    by rewrite (fetchone_unique ca_id _ _ a (ak_account_ids _ Hs1) Ha) by (rewrite ?Hai, ?eqb_refl; try done; intros y Hy%eqb_true; congruence). }
  assert (∃ reason, compromise_reason platform t f = Some reason) as [reason Hreason].
  { destruct (compromise_reason platform t f) as [reason|] eqn:E; [by exists reason|]. apply not_compromised in E as [E1 E2]. destruct Hbad as [Hbad|(f' & Hf' & Hid' & Hpl)]; [done|].
    rewrite (NoDup_key_inj sf_id _ f f' (bk_ids _ _ _ _ _ _ _ _ _ (ak_families _ Hs)) Hf Hf') in E2 by congruence. done. }
  exists (_revoke_push_delivery (sf_user f) now (revoke_family now (λ _, Some reason) (sf_id f) s1)). split.
  - unfold refresh_session. rewrite Hp, Hsafe, Hh. erewrite io_bind_ok by reflexivity. erewrite io_bind_ok by reflexivity. erewrite io_bind_ok by reflexivity.
    unfold committed_result, commit, refresh_tx. rewrite (bind_run _ _ _ tt s1) by reflexivity. rewrite (bind_run _ _ _ (Some (t, f, a)) s1) by (by rewrite <- Hrow).
    rewrite (bind_run _ _ _ (t, f, a) s1) by reflexivity. by rewrite Hreason.
  - intros ops Hd s2. assert (auth_ok (_revoke_push_delivery (sf_user f) now (revoke_family now (λ _, Some reason) (sf_id f) s1))) as Hs1'.
    { eapply same_ok; [apply same_push|]. by apply ok_kill_family. }
    assert (over_family (rf_family t) s2) as Ho.
    { eapply over_family_remembers; [by apply (auth_after_remembers urlsplit)|done|]. rewrite <- Hid. apply (family_now_over now _ (sf_id f) s1). }
    pose proof (auth_after_ok urlsplit ops _ Hs1') as Hs2. split.
    + intros y Hy Hyf. by eapply over_family_sessions.
    + intros t' env' now' fresh' facts' token' platform' Ht' Hfam Hht. by eapply over_family_refresh.
Qed.

(** ** Challenges and identities *)

Definition result_user (r : exchange_result) : string := match r with Linked _ user => user | SignedIn p => sp_user (pp_session p) end.
Lemma exchanged env now fresh facts id claims name principal s r s' : auth_ok s → known_provider (pv_provider claims) = true →
  finish_exchange env now fresh facts id claims name principal s = (Ok r, s') →
  auth_ok s' ∧ over_challenge id s' ∧ ∃ c a, c ∈ ad_challenges s ∧ pc_id c = id ∧ pc_consumed c = None ∧ now < pc_expires c ∧ pc_provider c = pv_provider claims ∧
    (∀ a, a ∈ ad_assertions s → pa_hash a ≠ pv_assertion claims) ∧ a ∈ ad_accounts s' ∧ signed_in_as claims (ca_id a) (result_user r) a.
Proof.
  intros Hs Hk E. pose proof (finish_exchange_cases env now fresh facts id claims name principal s) as Hf. rewrite E in Hf. destruct Hf as [[_ [e ?]]|(scopes & r' & [= <-] & Hsc & Hx)]; [done|].
  split; [by eapply exchange_ok|]. destruct (exchange_cases _ _ _ _ _ _ _ _ _ _ _ _ Hs Hx) as (c & w & s1 & s2 & Hc & Hid & Hn & He & Hp & Hrep & Hw & S1 & S2 & S3 & S4 & S5 & C & _ & Hcase).
  destruct (resolve_cases _ _ _ _ _ _ _ _ _ Hs Hw) as (Hs1 & _ & _ & _ & _ & _ & _ & (a & Ha & Hia & Hua & Hi & Hst) & _).
  assert (ad_challenges s' = ad_challenges s2 ∧ ad_accounts s' = ad_accounts s2 ∧ result_user r = w.2) as (C' & A' & Hres).
  { destruct Hcase as [(_ & -> & ->)|[_ Hn']]; [done|]. apply new_family_cases in Hn' as (f & t & x & s3 & (F1 & F2 & F3 & F4 & F5 & F6 & F7) & _ & _ & _ & _ & _ & _ & _ & _ & _ & _ & _ & _ & _ & _ & _ & _ & _ & (p & -> & Hu) & ->). done. }
  split.
  - rewrite <- C' in C. intros y Hy Hyid. rewrite C in Hy. apply elem_of_update in Hy as (y0 & _ & ->). destruct ((pc_id y0 == id) && (pc_consumed y0 == None)) eqn:Eb; [done|].
    rewrite Hyid, eqb_refl in Eb. simpl in Eb. by apply bool_decide_eq_false in Eb.
  - exists c, a. rewrite A', S3, Hres. split_and!; try done.
Qed.

(** C24. A challenge is exchanged once: it was open when it was answered, with an
    assertion of which no record was kept, and whatever happens afterwards no
    exchange of it succeeds again, unless its identity is drawn again. The
    assertion is recorded, and no exchange under any challenge accepts it again
    while no challenge is created more than a day later: that is when its record
    is removed ([assertion_forgotten_early]). *)
Theorem challenge_once env now fresh facts id claims name principal s r s1 : reachable s → known_provider (pv_provider claims) = true →
  finish_exchange env now fresh facts id claims name principal s = (Ok r, s1) →
  (∃ c, c ∈ ad_challenges s ∧ pc_id c = id ∧ pc_consumed c = None ∧ now < pc_expires c ∧ pc_provider c = pv_provider claims) ∧
  (∀ a, a ∈ ad_assertions s → pa_hash a ≠ pv_assertion claims) ∧
  (∃ account, Build_assertion (pv_assertion claims) id account now ∈ ad_assertions s1) ∧
  ∀ ops env' now' fresh' facts' id' claims' name' principal',
    (id' = id ∧ id ∉ drawn_by ops) ∨ (pv_assertion claims' = pv_assertion claims ∧ ∀ op, op ∈ ops → within_a_day now op) →
    ∃ e, (finish_exchange env' now' fresh' facts' id' claims' name' principal' (after ops s1)).1 = Err e.
Proof.
  intros Hr Hk E. pose proof (auth_reachable_ok _ _ Hr) as Hs. destruct (exchanged _ _ _ _ _ _ _ _ _ _ _ Hs Hk E) as (Hs1 & Ho & c & a & Hc & Hid & Hn & He & Hp & Hrep & _).
  assert (∃ account, Build_assertion (pv_assertion claims) id account now ∈ ad_assertions s1) as [account Hrec].
  { pose proof (finish_exchange_cases env now fresh facts id claims name principal s) as Hf. rewrite E in Hf.
    destruct Hf as [[_ [e ?]]|(scopes & x & _ & _ & Hx)]; [done|]. apply exchange_assertions in Hx as [w ->]; [|done]. exists w. apply elem_of_app. right. by left. }
  split; [by exists c|]. split; [done|]. split; [by exists account|]. intros ops env' now' fresh' facts' id' claims' name' principal' [[-> Hd]|[Hsame Hday]].
  - apply over_challenge_refused; [|by apply auth_after_ok]. eapply over_challenge_remembers; [by apply (auth_after_remembers urlsplit)|done..].
  - eapply (accepted_refused _ _ _ _ _ _ _ _ _ (Build_assertion (pv_assertion claims) id account now)); [by apply (auth_after_assertions urlsplit ops s1)|done|by apply auth_after_ok].
Qed.

(** An identity belongs to one user for ever: two exchanges that succeed for the
    same provider and subject, however far apart, sign in or link the same user. *)
Theorem identity_stable env now fresh facts id claims name principal s r s1 ops env' now' fresh' facts' id' claims' name' principal' r' s2 :
  reachable s → known_provider (pv_provider claims) = true → finish_exchange env now fresh facts id claims name principal s = (Ok r, s1) →
  finish_exchange env' now' fresh' facts' id' claims' name' principal' (after ops s1) = (Ok r', s2) →
  pv_provider claims' = pv_provider claims → pv_subject claims' = pv_subject claims → result_user r' = result_user r.
Proof.
  intros Hr Hk E E' Hp Hsub. destruct (exchanged _ _ _ _ _ _ _ _ _ _ _ (auth_reachable_ok _ _ Hr) Hk E) as (Hs1 & _ & _ & a & _ & _ & _ & _ & _ & _ & Ha & _ & Hu & Hi & _).
  pose proof (auth_after_ok urlsplit ops _ Hs1) as Hs1'. assert (known_provider (pv_provider claims') = true) as Hk' by congruence.
  destruct (exchanged _ _ _ _ _ _ _ _ _ _ _ Hs1' Hk' E') as (Hs2 & _ & _ & a' & _ & _ & _ & _ & _ & _ & Ha' & _ & Hu' & Hi' & _).
  assert (remembers (drawn_by ops ++ draws (AExchange env' now' fresh' facts' id' claims' name' principal')) s1 s2) as Hm.
  { eapply remembers_trans; [eapply remembers_more; [|by apply (auth_after_remembers urlsplit)]; set_solver|].
    eapply remembers_more; [|pose proof (auth_op_remembers urlsplit (AExchange env' now' fresh' facts' id' claims' name' principal') _ Hs1') as Hm; cbn [auth_run] in Hm; rewrite Hk', E' in Hm; exact Hm]. set_solver. }
  unfold is_identity in Hi, Hi'. apply andb_true_iff in Hi as [[Hpr%eqb_true Hsu%eqb_true]%andb_true_iff Hl], Hi' as [[Hpr'%eqb_true Hsu'%eqb_true]%andb_true_iff Hl'].
  destruct (re_accounts _ _ _ Hm a Ha Hl) as (b & Hb & Hle). pose proof (account_le_login _ _ Hle) as Hlb. destruct Hle as (_ & _ & B1 & B2 & B3).
  assert (a' = b) as ->; [|congruence]. apply (ak_identities _ Hs2); [done..|]. unfold same_identity. rewrite Hl', Hlb, Hl, Hpr', B2, Hpr, Hsu', B3, Hsu, Hp, Hsub, !eqb_refl. done.
Qed.

(** ** Invariants and switches *)

(** In every state: a grant and a family have one unrevoked session at most, a
    family exactly one unused refresh token, an identity one account, and every
    live family is held by a connected login of its user. *)
Theorem one_live_session s : reachable s →
  (∀ x y, x ∈ ad_sessions s → y ∈ ad_sessions s → ss_revoked x = None → ss_revoked y = None →
     (ss_grant x = ss_grant y ∧ ss_grant x ≠ None) ∨ (ss_family x = ss_family y ∧ ss_family x ≠ None) → x = y) ∧
  (∀ f, f ∈ ad_families s → count (λ t, (rf_family t == sf_id f) && (rf_consumed t == None)) (ad_refresh s) = 1) ∧
  (∀ a b, a ∈ ad_accounts s → b ∈ ad_accounts s → is_login a = true → is_login b = true → ca_provider a = ca_provider b → ca_subject a = ca_subject b → ca_subject a ≠ None → a = b) ∧
  (∀ f, f ∈ ad_families s → sf_revoked f = None → ∃ a, a ∈ ad_accounts s ∧ ca_id a = sf_account f ∧ ca_user a = sf_user f ∧ ca_provider a = sf_provider f ∧ is_login a = true ∧ ca_status a = "connected").
Proof.
  intros Hr. pose proof (auth_reachable_ok _ _ Hr) as []. split; [|split; [done|split]].
  - intros x y Hx Hy Hxr Hyr [[E Hn]|[E Hn]]; [by apply (bk_one _ _ _ _ _ _ _ _ _ ak_grants)|by apply (bk_one _ _ _ _ _ _ _ _ _ ak_families)].
  - intros a b Ha Hb Hla Hlb Hp Hsu Hn. apply ak_identities; [done..|]. unfold same_identity. rewrite Hla, Hlb, Hp, Hsu, !eqb_refl, andb_true_r. simpl.
    apply negb_true_iff, bool_decide_eq_false. congruence.
  - intros f Hf Hrev. destruct (ak_family_rows f Hf) as (_ & _ & _ & a & Ha & H1 & H2 & H3 & H4 & H5). exists a. split_and!; auto.
Qed.
End Claims.
