(* ===== verification/AuthIssue.v ===== *)
(** * What an issued session can do

    A renewed session verifies; the switch of beta access; a revoked grant; and
    the exchange of a challenge, with its awaits, as a run of operations. *)

From stdpp Require Import base option list sorting strings numbers sets.
From Stdlib Require Import ZArith Lia Ascii.
From S2P Require Import Prelude Sql Feed Json Text Order Deployment AuthStore Sessions Identity ProviderAuth AuthInvariant AuthSteps AuthReach AuthHistory AuthTheorems.

Open Scope string_scope.
Open Scope list_scope.
Open Scope Z_scope.
Set Default Proof Using "Type".

Section Issue.
Context `{Codec}.

Lemma push_suspended users now s p : p ∈ ad_push (fold_left (λ s user, _revoke_push_delivery user now s) users s) → pt_user p ∈ users → pt_revoked p ≠ None.
Proof.
  assert (∀ users s, p ∈ ad_push (fold_left (λ s user, _revoke_push_delivery user now s) users s) → pt_user p ∈ users ∨ (∀ q, q ∈ ad_push s → pt_user q = pt_user p → pt_revoked q ≠ None) → pt_revoked p ≠ None) as Hgen;
    [|intros Hp Hu; eapply Hgen; eauto].
  clear s users. induction users as [|u users IH]; intros s Hp Hu; simpl in *.
  - destruct Hu as [Hu|Hu]; [by apply not_elem_of_nil in Hu|by apply Hu].
  - apply (IH _ Hp). destruct (decide (pt_user p ∈ users)) as [|Hni]; [by left|right]. intros q (q0 & Hq & ->)%elem_of_update.
    destruct ((pt_user q0 == u) && (pt_revoked q0 == None)) eqn:E; [done|]. intros Eu. destruct Hu as [[Hu|?]%elem_of_cons|Hu]; [|done|by apply Hu].
    rewrite Eu, Hu, eqb_refl in E. simpl in E. by apply bool_decide_eq_false in E.
Qed.
Lemma suspended_sessions now s y : y ∈ ad_sessions (_suspend_friend_beta_sessions_and_push now s) → ss_grant y ≠ None → ss_revoked y ≠ None.
Proof.
  intros Hy Hg. pose proof (suspend_same now s) as (E & _). rewrite E in Hy. apply elem_of_update in Hy as (z & Hz & ->).
  destruct (negb (ss_grant z == None) && (ss_revoked z == None)) eqn:Eb; [done|]. apply andb_false_iff in Eb as [Hb%negb_false_iff%bool_decide_eq_true|Hb%bool_decide_eq_false]; done.
Qed.
End Issue.

Section Claims.
Context `{Codec} (urlsplit : string → option url).
Local Abbreviation reachable := (auth_reachable urlsplit).
Local Abbreviation after := (auth_after urlsplit).

(** Once beta access is disabled, the first request with a session of a grant is
    refused and ends the beta for everyone: every session of every grant is
    revoked and no device of a beta user receives push messages. *)
Theorem kill_switch env policy now x s : reachable s → x ∈ ad_sessions s → ss_grant x ≠ None → _friend_beta_enabled env = Ok false →
  ∃ s1, _verified_session env policy now (ss_hash x) false s = (Err (HTTPException 401), s1) ∧
    (∀ y, y ∈ ad_sessions s1 → ss_grant y ≠ None → ss_revoked y ≠ None) ∧
    (∀ g p, g ∈ ad_grants s1 → p ∈ ad_push s1 → pt_user p = gr_user g → pt_revoked p ≠ None).
Proof.
  intros Hr Hx Hg Hen. pose proof (auth_reachable_ok _ _ Hr) as Hs. exists (_suspend_friend_beta_sessions_and_push now s). split; [|split].
  - unfold _verified_session. rewrite (fetchone_unique ss_hash _ _ x (ak_session_hashes _ Hs) Hx) by (rewrite ?eqb_refl; try done; by intros y Hy%eqb_true).
    apply io_bind_err. unfold beta_gate. destruct (ss_grant x) as [id|] eqn:E; [|done].
    assert (Some id ≫= nonempty = Some id) as -> by (apply nonempty_spec; split; [done|]; destruct (ak_sessions _ Hs x Hx) as (_ & ? & _); congruence). rewrite Hen. done.
  - intros y. apply suspended_sessions.
  - intros g p Hgr Hp Hu. apply (push_suspended _ _ _ _ Hp). rewrite Hu, elem_of_remove_dups. apply list_elem_of_fmap_2.
    pose proof (suspend_same now s) as (_ & E & _). by rewrite E in Hgr.
Qed.

(** A renewed session works: until it expires, verifying its token gives the
    principal of its user, family and login, as long as the deployment admits it. *)
Theorem renewed_session_verifies env now fresh facts token hash platform s p s1 policy now' env' h : reachable s → _hash_token token = Some hash →
  refresh_session env now fresh facts token platform s = (Ok p, s1) → _hash_token (sp_token (pp_session p)) = Some h → _valid_user_id (sp_user (pp_session p)) = true →
  now' < sp_expires (pp_session p) → (∀ q, pr_user q = sp_user (pp_session p) → pr_session q = fs_id (fr_session fresh) → now' < pr_expires q → policy_gate policy now' q = Ok q) →
  ∃ q, _verified_session env' policy now' h false s1 = (Ok q, s1) ∧ pr_user q = sp_user (pp_session p) ∧ pr_expires q = sp_expires (pp_session p) ∧
    (∀ w, w ∈ pr_scopes q ↔ w ∈ sp_scopes (pp_session p)) ∧ ∃ t, t ∈ ad_refresh s ∧ rf_hash t = hash ∧ pr_family q = Some (rf_family t).
Proof.
  intros Hr Hh E Hh' Hu Hexp Hgate. pose proof (auth_reachable_ok _ _ Hr) as Hs. pose proof (refresh_session_cases env now fresh facts token platform s) as Hc. rewrite E in Hc.
  destruct Hc as [[_ [e ?]]|(hash' & _ & Hh2 & Htx)]; [done|]. pose proof (refresh_ok _ _ _ _ _ _ _ _ _ Hs Htx) as Hs1. assert (hash' = hash) as -> by congruence.
  apply refresh_tx_cases in Htx as (t & f & a & Hrow & [(? & _ & ? & _)|[(_ & _ & ? & _)|(_ & Hi & p' & [= <-] & Hrot)]]); [done..|].
  apply refresh_row_some in Hrow as (Ht & Hth & Hf & Hfam & Ha & Hai). apply elem_of_delete in Ht as [Ht _].
  apply rotate_cases in Hrot as (next & x & Hne & Hk & _ & _ & _ & _ & _ & _ & Ex & Hx & _ & Hcap & _ & Eps & E1). rewrite Eps in Hh', Hu, Hexp, Hgate |- *. cbn [sp_token sp_user sp_expires sp_scopes] in *.
  assert (x ∈ ad_sessions s1) as Hxin by (rewrite E1; apply elem_of_app; right; by left). assert (ss_hash x = h) as Hxh by congruence.
  set (f1 := f <| sf_rotated := now |>). assert (f1 ∈ ad_families s1) as Hf1.
  { rewrite E1. pose proof (update_in (λ y, sf_id y == sf_id f) (λ y, y <| sf_rotated := now |>) _ f Hf) as Hin. cbv beta in Hin. by rewrite eqb_refl in Hin. }
  unfold refresh_invalid in Hi. apply orb_false_iff in Hi as [[[[[Hrev%negb_false_iff%bool_decide_eq_true _]%orb_false_iff _]%orb_false_iff Hst%negb_false_iff]%orb_false_iff Hkind%negb_false_iff]%orb_false_iff Hkp%negb_false_iff].
  destruct (ak_family_rows _ Hs1 f1 Hf1) as (Hidne & _ & _ & a1 & Ha1 & A1 & A2 & A3 & A4 & A5). specialize (A5 Hrev).
  assert (family_of x s1 = Some f1) as Hfo.
  { unfold family_of. rewrite Ex. simpl. apply (fetchone_unique sf_id); [apply (ak_families _ Hs1)|done|by rewrite !eqb_refl|]. intros y [[Hy%eqb_true _]%andb_true_iff _]%andb_true_iff. done. }
  assert (account_of x s1 = Some a1) as Hao.
  { unfold account_of. rewrite Ex. simpl. apply (fetchone_unique ca_id); [apply Hs1|done|by rewrite A1, A3, !eqb_refl|]. intros y [Hy%eqb_true _]%andb_true_iff. rewrite Hy. by symmetry. }
  assert (∀ w, w ∈ text_scopes (scope_text (text_scopes (sf_scopes f))) ↔ w ∈ text_scopes (sf_scopes f)) as Hsc by (intros w; by apply text_scopes_spec).
  assert (session_valid now' x s1 = true) as Hv.
  { unfold session_valid, grant_invalid, provider_invalid. rewrite Hfo, Hao. assert (ss_family x ≫= nonempty = Some (sf_id f)) as Hfn by (rewrite Ex; by apply nonempty_spec). rewrite Hfn.
    rewrite A5. unfold is_login in A2. rewrite A2. change (sf_revoked f1) with (sf_revoked f). change (sf_provider f1) with (sf_provider f). change (sf_expires f1) with (sf_expires f).
    rewrite Hrev. unfold known_provider in Hkp. rewrite Hkp. assert ((sf_expires f <=? now') = false) as -> by lia.
    assert ((ss_expires x <=? now') = false) as -> by lia. rewrite Ex. cbn -[text_scopes scope_text subset _valid_user_id]. rewrite Hu. apply negb_true_iff. rewrite !orb_false_iff. split_and!; try done.
    - apply bool_decide_eq_false. intros En. assert (∃ w, w ∈ text_scopes (sf_scopes f)) as [w Hw] by (destruct (text_scopes (sf_scopes f)) as [|w l]; [done|exists w; by left]).
      apply Hsc in Hw. rewrite En in Hw. by apply not_elem_of_nil in Hw.
    - apply negb_false_iff, subset_spec. intros w Hw%Hsc. rewrite subset_spec in Hk. auto. }
  exists (principal_of x s1). split; [|rewrite Ex; cbn; split_and!; try done].
  - unfold _verified_session. rewrite (fetchone_unique ss_hash _ _ x (ak_session_hashes _ Hs1) Hxin) by (rewrite ?Hxh, ?eqb_refl; try done; intros y Hy%eqb_true; congruence).
    rewrite (io_bind_ok _ _ s1 tt s1) by (unfold beta_gate; by rewrite Ex). unfold pure. rewrite Hv. cbn [ensure]. change (Ok tt ≫= ?f) with (f tt). cbv beta. rewrite Hgate; [done|by rewrite Ex|by rewrite Ex|done].
  - intros w. rewrite Hsc. by rewrite elem_of_sorted.
  - exists t. split_and!; try done. congruence.
Qed.

(** The exchange of a challenge waits twice, and other operations run
    meanwhile; what it and they leave is what a sequence of operations leaves:
    those of the waits, in order, then at most one exchange. When it succeeds, the
    challenge it answered was open before the first wait. *)
Theorem exchange_is_run env verify apple ops0 ops1 now fresh facts provider id nonce identity_token code redirect name principal s :
  (∀ provider token nonce claims, verify provider token nonce = Ok claims → pv_provider claims = provider) →
  let others n := after (match n with O => ops0 | S _ => ops1 end) in
  let (r, s') := exchange_challenge env verify apple others now fresh facts provider id nonce identity_token code redirect name principal s in
  (∃ ops, s' = after ops s ∧ (ops = [] ∨ ops = ops0 ∨ ops = ops0 ++ ops1 ∨ ∃ claims name, ops = ops0 ++ ops1 ++ [AExchange env now fresh facts id claims name principal])) ∧
  (∀ x, r = Ok x → ∃ c claims name, c ∈ ad_challenges s ∧ pc_id c = id ∧ challenge_open now provider nonce principal c = true ∧ redirect = pc_redirect c ∧
     finish_exchange env now fresh facts id claims name principal (after (ops0 ++ ops1) s) = (Ok x, s')).
Proof.
  intros Hv others. unfold exchange_challenge. destruct (exchange_check now provider id nonce redirect principal s) as [c|e] eqn:Ec; [|rewrite (io_bind_err _ _ s e s) by (by rewrite Ec); split; [exists []; auto|done]].
  rewrite (io_bind_ok _ _ s c s) by (by rewrite Ec). destruct (provider_token apple provider identity_token code redirect) as [token|e]; [|erewrite io_bind_err by reflexivity; split; [exists []; auto|done]].
  erewrite io_bind_ok by reflexivity. erewrite io_bind_ok by reflexivity. cbv beta. destruct (verify provider token nonce) as [claims|e] eqn:Ev; [|erewrite io_bind_err by reflexivity; split; [exists ops0; auto|done]].
  erewrite io_bind_ok by reflexivity. erewrite io_bind_ok by reflexivity. assert (others 1%nat (others 0%nat s) = after (ops0 ++ ops1) s) as -> by (unfold others, auth_after; by rewrite fold_left_app).
  destruct (_platform_client_ids env provider (pc_platform c)) as [ids|e]; [|erewrite io_bind_err by reflexivity; split; [exists (ops0 ++ ops1); auto|done]]. erewrite io_bind_ok by reflexivity.
  destruct (ensure _ _) as [[]|e]; [|erewrite io_bind_err by reflexivity; split; [exists (ops0 ++ ops1); auto|done]]. erewrite io_bind_ok by reflexivity.
  change (let (r, s') := finish_exchange env now fresh facts id claims (or_else (_display_name name) (pv_name claims)) principal (after (ops0 ++ ops1) s) in
    (∃ ops, s' = after ops s ∧ (ops = [] ∨ ops = ops0 ∨ ops = ops0 ++ ops1 ∨ ∃ claims name, ops = ops0 ++ ops1 ++ [AExchange env now fresh facts id claims name principal])) ∧
    (∀ x, r = Ok x → ∃ c claims name, c ∈ ad_challenges s ∧ pc_id c = id ∧ challenge_open now provider nonce principal c = true ∧ redirect = pc_redirect c ∧
     finish_exchange env now fresh facts id claims name principal (after (ops0 ++ ops1) s) = (Ok x, s'))).
  unfold exchange_check in Ec. apply res_bind_ok in Ec as ([] & Hk%ensure_ok & Ec). apply res_bind_ok in Ec as (c' & Hf%of_option_ok & Ec).
  apply res_bind_ok in Ec as ([] & Hopen%ensure_ok & Ec). apply res_bind_ok in Ec as ([] & Hred%ensure_ok%eqb_true & [= ->]). apply fetchone_some in Hf as [Hc Hid%eqb_true].
  apply andb_true_iff in Hk as [Hk _]. destruct (finish_exchange _ _ _ _ _ _ _ _ _) as [r s'] eqn:Ef. split; [|intros x ->; by exists c, claims, (or_else (_display_name name) (pv_name claims))].
  exists (ops0 ++ ops1 ++ [AExchange env now fresh facts id claims (or_else (_display_name name) (pv_name claims)) principal]). split; [|do 3 right; eauto].
  rewrite app_assoc. unfold auth_after. rewrite fold_left_app. fold (after (ops0 ++ ops1) s). cbn [fold_left auth_run]. by rewrite (Hv _ _ _ _ Ev), Hk, Ef.
Qed.

(** Revoking a grant is final: its code and its sessions. *)
Theorem grant_revoked_final now id s b s1 g ops : reachable s → revoke_friend_beta_access_grant now id s = Ok (b, s1) → g ∈ ad_grants s → gr_id g = id →
  let s2 := after ops s1 in (∀ y, y ∈ ad_sessions s2 → ss_grant y = Some id → ss_revoked y ≠ None) ∧
  ∀ env now' fresh code, _hash_token code = Some (gr_hash g) → ∃ e, issue_friend_beta_session env now' fresh code s2 = Err e.
Proof.
  intros Hr E Hg Hid s2. pose proof (auth_reachable_ok _ _ Hr) as Hs. pose proof (revoke_grant_ok _ _ _ _ _ Hs E) as Hs1. pose proof (auth_after_ok urlsplit ops _ Hs1) as Hs2.
  assert (∃ g1, g1 ∈ ad_grants s1 ∧ gr_id g1 = id ∧ gr_hash g1 = gr_hash g ∧ gr_revoked g1 ≠ None) as (g1 & Hg1 & Hid1 & Hh1 & Hrev1).
  { apply revoke_grant_cases in E as (_ & -> & _). eexists. split; [by apply update_in|]. rewrite Hid, eqb_refl. simpl. destruct (gr_revoked g) eqn:Er; simpl; by rewrite ?Er. }
  destruct (re_grants _ _ _ (auth_after_remembers urlsplit ops s1 Hs1) g1 Hg1) as (g2 & Hg2 & Hid2 & Hh2 & _ & _ & _ & Hrev2). specialize (Hrev2 Hrev1). split.
  - apply over_grant_sessions; [done|]. exists g2. split_and!; [done|congruence|done].
  - intros env now' fresh code Hc. destruct (issue_friend_beta_session env now' fresh code s2) as [[p s3]|e] eqn:Ei; [|by exists e]. exfalso.
    apply issue_beta_cases in Ei as (hash & Hh & (g3 & x & Hg3 & Hh3 & Hr3 & _)%redeem_cases). apply Hrev2.
    by rewrite <- (NoDup_key_inj gr_hash _ g3 g2 (ak_grant_hashes _ Hs2) Hg3 Hg2) by congruence.
Qed.
End Claims.

(** ** Requests to the key servers *)

Record jwks_call := { jw_now : Z; jw_later : Z; jw_force : bool; jw_download : res auth_error (list json) }.
Definition jwks_after (c : jwks_call) (st : jwks_state) : jwks_state := (_jwks (jw_now c) (jw_later c) (jw_force c) (jw_download c) st).2.
Definition jwks_run (calls : list jwks_call) (st : jwks_state) : jwks_state := fold_left (λ st c, jwks_after c st) calls st.
(** A call asks the network when what comes back makes a difference. *)
Definition asks (c : jwks_call) (st : jwks_state) : Prop :=
  ∃ d1 d2, _jwks (jw_now c) (jw_later c) (jw_force c) d1 st ≠ _jwks (jw_now c) (jw_later c) (jw_force c) d2 st.
Lemma asks_recorded c st : asks c st → default 0 (jc_refreshed st) + 60 ≤ jw_now c ∧ jc_refreshed (jwks_after c st) = Some (jw_now c).
Proof.
  intros (d1 & d2 & Hne). unfold jwks_after, _jwks in *. change JWKS_UNKNOWN_KEY_REFRESH_SECONDS with 60 in *. destruct (jc_cache st) as [[e keys]|].
  - destruct (negb (jw_force c) && (jw_now c <? e)); [done|]. destruct (jw_now c <? _) eqn:El; [done|]. split; [lia|]. by destruct (jw_download c).
  - destruct (jw_now c <? _) eqn:El; [done|]. split; [lia|]. by destruct (jw_download c).
Qed.
Lemma refresh_time c st : default 0 (jc_refreshed st) ≤ default 0 (jc_refreshed (jwks_after c st)).
Proof.
  unfold jwks_after, _jwks. change JWKS_UNKNOWN_KEY_REFRESH_SECONDS with 60. destruct (jc_cache st) as [[e keys]|].
  - destruct (negb (jw_force c) && (jw_now c <? e)); [done|]. destruct (jw_now c <? _) eqn:El; [done|]. destruct (jw_download c); simpl; lia.
  - destruct (jw_now c <? _) eqn:El; [done|]. destruct (jw_download c); simpl; lia.
Qed.
Lemma refresh_time_run calls st : default 0 (jc_refreshed st) ≤ default 0 (jc_refreshed (jwks_run calls st)).
Proof. revert st. induction calls as [|c calls IH]; intros st; [done|]. pose proof (refresh_time c st). pose proof (IH (jwks_after c st)). simpl. lia. Qed.

(** However many tokens with unknown keys arrive, and whatever the servers
    answer, two calls that ask the network for the keys of a provider are a
    minute apart at least. *)
Theorem key_requests_spaced before c1 between c2 st : asks c1 (jwks_run before st) → asks c2 (jwks_run (before ++ c1 :: between) st) → jw_now c1 + 60 ≤ jw_now c2.
Proof.
  intros [_ H1]%asks_recorded [H2 _]%asks_recorded. unfold jwks_run in H2. rewrite fold_left_app in H2. cbn [fold_left] in H2.
  pose proof (refresh_time_run between (jwks_after c1 (jwks_run before st))) as Hm. rewrite H1 in Hm. unfold jwks_run in Hm. simpl in Hm. lia.
Qed.
