(* ===== verification/AuthWitness.v ===== *)
(** * Authentication on concrete inputs

    A stand-in for SHA-256, one gateway with Apple sign-in and one beta grant, and
    runs that meet the hypotheses of the theorems. *)

From stdpp Require Import base option list sorting strings numbers sets.
From Stdlib Require Import ZArith Lia.
From S2P Require Import Prelude Sql Feed Json Text Order Deployment AuthStore Sessions Identity ProviderAuth AuthInvariant AuthSteps AuthReach AuthHistory AuthTheorems AuthClaims AuthIssue.

Open Scope string_scope.
Open Scope list_scope.
Open Scope Z_scope.

#[export] Instance auth_codec : Codec := {| sha256_hex := λ s, "sha:" +:+ s; dumps := λ _, None; loads := λ _, None; utf8_length := str_len |}.
Definition no_url (s : string) : option url := None.
Definition env0 (name : string) : option string :=
  if name == "MAGISTRATE_APPLE_CLIENT_IDS" then Some "dev.magistrate.app" else if name == "MAGISTRATE_FRIEND_BETA_ENABLED" then Some "true" else None.
Definition env_off (name : string) : option string := None.
Definition facts0 : onboarding_facts := {| of_github := None; of_billing := None; of_github_available := false; of_personal := false |}.
Definition policy0 : res mode_error deployment_contract := Ok (Build_deployment_contract public_saas None 1 None None).
Definition claims0 (subject assertion : string) : ProviderClaims := Build_ProviderClaims "apple" subject (Some "ann@example.org") true None assertion "dev.magistrate.app".
Definition refresh_value (n : string) : string := n +:+ "aaaaaaaaaabbbbbbbbbbccccccccccdddd".
Definition fresh_x (n : string) : fresh_exchange :=
  {| fx_user := n; fx_account := n; fx_family := n; fx_refresh := refresh_value n; fx_session := {| fs_token := "t-" +:+ n; fs_id := "s-" +:+ n |} |}.
Definition fresh_r (n : string) : fresh_refresh := {| fr_refresh := refresh_value n; fr_session := {| fs_token := "t-" +:+ n; fs_id := "s-" +:+ n |} |}.
Definition challenge_op (n : string) (now : Z) : auth_op := AChallenge env0 now {| fc_id := n; fc_nonce := "nonce" |} "apple" "sign_in" "native" None None.
Definition exchange_op (n subject : string) (now : Z) : auth_op := AExchange env0 now (fresh_x n) facts0 ("pac_" +:+ n) (claims0 subject n) (Some "Ann") None.
Definition beta_code : string := refresh_value "".
Local Abbreviation run ops := (auth_after no_url ops empty_auth).
Definition signed : list auth_op := [challenge_op "a" 1000; challenge_op "b" 1000; exchange_op "a" "ann" 1010].
Definition beta : list auth_op :=
  [AGrant env0 false 1000 {| fg_id := "aaaaaaaaaaaaaaaaaaaaaaaa"; fg_code := beta_code |} "bob" None 86400 false;
   ARedeem env0 1020 {| fs_token := "t-bob"; fs_id := "s-bob" |} ("mgb_" +:+ beta_code)].
(** Ann signed in and renewed her session once. *)
Definition renewed : list auth_op := signed ++ [ARefresh env0 1100 (fresh_r "r") facts0 ("mgr_" +:+ refresh_value "a") "native"].

Example signed_rows : (length (ad_sessions (run signed)), length (ad_families (run signed)), length (ad_refresh (run signed))) = (1%nat, 1%nat, 1%nat).
Proof. vm_compute. reflexivity. Qed.
Example beta_rows : map ss_user (ad_sessions (run beta)) = ["bob"].
Proof. vm_compute. reflexivity. Qed.
Example renewed_rows : map (λ x, (ss_id x, ss_revoked x)) (ad_sessions (run renewed)) = [("s-a", Some 1100); ("s-r", None)].
Proof. vm_compute. reflexivity. Qed.

Lemma run_reachable ops : auth_reachable no_url (run ops).
Proof. by exists ops. Qed.
Definition nobody : Principal := Build_Principal "" [] "" 0 None None None None None.
Definition bob : Principal := match (_verified_session env0 policy0 1030 "sha:t-bob" false (run beta)).1 with Ok p => p | Err _ => nobody end.
Definition bob_grant : string := "fbg_aaaaaaaaaaaaaaaaaaaaaaaa".
Lemma principal_backed_witness : pr_user bob = "bob" ∧ 1030 < pr_expires bob ∧ ∃ g, g ∈ ad_grants (run beta) ∧ gr_id g = bob_grant ∧ live_grant 1030 bob g.
Proof.
  assert (_verified_session env0 policy0 1030 "sha:t-bob" false (run beta) = (Ok bob, run beta)) as E by (vm_compute; reflexivity).
  destruct (principal_backed no_url env0 policy0 1030 "sha:t-bob" false (run beta) bob (run beta) (run_reachable beta) E) as (_ & Hexp & _ & _ & _ & Hg & _).
  split; [vm_compute; reflexivity|]. split; [exact Hexp|]. apply Hg. vm_compute. reflexivity.
Defined.

Lemma session_there ops h x : fetchone (λ y, ss_hash y == h) (ad_sessions (run ops)) = Some x → x ∈ ad_sessions (run ops) ∧ ss_hash x = h.
Proof. by intros [Hx Hh%eqb_true]%fetchone_some. Qed.
Definition bob_session : session := Build_session "s-bob" "sha:t-bob" "bob" "account,notifications,read" 1020 4620 None (Some bob_grant) None None.
Lemma bob_there : bob_session ∈ ad_sessions (run beta) ∧ ss_hash bob_session = "sha:t-bob".
Proof. apply session_there. vm_compute. reflexivity. Qed.
Lemma logout_final_witness : let s' := auth_after no_url [ARedeem env0 1050 {| fs_token := "t-again"; fs_id := "s-again" |} ("mgb_" +:+ beta_code)] (revoke_session 1040 "t-bob" (run beta)) in
  (∀ env policy now, refused env policy now "sha:t-bob" s') ∧ (∀ y, y ∈ ad_sessions s' → ss_grant y = Some bob_grant → ss_revoked y ≠ None).
Proof.
  destruct (logout_final no_url 1040 "t-bob" "sha:t-bob" bob_session (run beta) [ARedeem env0 1050 {| fs_token := "t-again"; fs_id := "s-again" |} ("mgb_" +:+ beta_code)]
    (run_reachable beta) eq_refl (proj1 bob_there) (proj2 bob_there)) as (H1 & H2 & _).
  - intros (v & Hv & Hh). apply list_elem_of_singleton in Hv as ->. vm_compute in Hh. discriminate Hh.
  - intros id Hid. discriminate Hid.
  - split; [exact H1|]. intros y Hy Hg. apply (H2 y Hy). left. split; [discriminate|exact Hg].
Defined.

(** Ann renews once more. *)
Definition again := refresh_session env0 1200 (fresh_r "n") facts0 ("mgr_" +:+ refresh_value "r") "native" (run renewed).
Definition no_payload : provider_payload := Build_provider_payload (Build_session_payload "" 0 [] "") "" 0 false "" None.
Definition again_payload : provider_payload := match again.1 with Ok p => p | Err _ => no_payload end.
Lemma again_runs : refresh_session env0 1200 (fresh_r "n") facts0 ("mgr_" +:+ refresh_value "r") "native" (run renewed) = (Ok again_payload, again.2).
Proof. vm_compute. reflexivity. Qed.
Lemma rotation_once_witness : ∃ x next, x ∈ ad_sessions again.2 ∧ ss_revoked x = None ∧ rf_family next = "psf_a" ∧
  (∀ y, y ∈ ad_refresh again.2 → rf_family y = "psf_a" → rf_consumed y = None → y = next) ∧
  ∀ env' now' fresh' facts' platform', ∃ e, (refresh_session env' now' fresh' facts' ("mgr_" +:+ refresh_value "r") platform' (auth_after no_url [challenge_op "z" 1300] again.2)).1 = Err e.
Proof.
  destruct (rotation_once no_url env0 1200 (fresh_r "n") facts0 ("mgr_" +:+ refresh_value "r") ("sha:mgr_" +:+ refresh_value "r") "native" (run renewed) again_payload again.2
    (run_reachable renewed) eq_refl again_runs) as (t & x & next & Ht & Hth & _ & Hx & _ & Hxr & _ & _ & _ & _ & _ & Hnf & Honly & Hover).
  assert (rf_family t = "psf_a") as Hfam.
  { assert (∀ t, t ∈ ad_refresh (run renewed) → rf_family t = "psf_a") as Hall by (apply Forall_forall; vm_compute; repeat constructor). exact (Hall t Ht). }
  rewrite Hfam in Hnf, Honly. exists x, next. do 4 (split; [assumption|]). refine (Hover [challenge_op "z" 1300] _).
  intros (v & Hv & Hh). apply list_elem_of_singleton in Hv as ->. vm_compute in Hh. discriminate Hh.
Defined.
Lemma policy0_admits now q : pr_session q ≠ "" → now < pr_expires q → policy_gate policy0 now q = Ok q.
Proof.
  intros Hs He. unfold policy_gate, policy0, require_principal. cbn. rewrite (eqb_neq _ _ Hs). assert ((pr_expires q <=? now) = false) as -> by lia. done.
Qed.

(** The first refresh token is presented again. *)
Definition first_token : refresh_token := Build_refresh_token ("sha:mgr_" +:+ refresh_value "a") "psf_a" 1010 2593010 (Some 1100).
Lemma first_token_there : first_token ∈ ad_refresh (run renewed).
Proof. assert (fetchone (λ t, rf_family t == "psf_a") (ad_refresh (run renewed)) = Some first_token) as E by (vm_compute; reflexivity). by apply fetchone_some in E as [? _]. Qed.
Lemma reuse_betrays_family_witness : ∃ s1, refresh_session env0 1200 (fresh_r "n") facts0 ("mgr_" +:+ refresh_value "a") "native" (run renewed) = (Err (HTTPException 401), s1) ∧
  ∀ y, y ∈ ad_sessions (auth_after no_url [challenge_op "z" 1300] s1) → ss_family y = Some "psf_a" → ss_revoked y ≠ None.
Proof.
  destruct (reuse_betrays_family no_url env0 1200 (fresh_r "n") facts0 ("mgr_" +:+ refresh_value "a") "native" first_token (run renewed) (run_reachable renewed) first_token_there)
    as (s1 & E & Hover).
  1,2,3,4: vm_compute; reflexivity.
  - left. discriminate.
  - exists s1. split; [exact E|]. refine (proj1 (Hover [challenge_op "z" 1300] _)). intros Hv. apply list_elem_of_singleton in Hv. discriminate Hv.
Defined.

(** The exchanges of two challenges by the same identity. *)
Definition result_of (r : res auth_error exchange_result) : exchange_result := match r with Ok x => x | Err _ => Linked "" "" end.
Definition first_exchange := finish_exchange env0 1010 (fresh_x "a") facts0 "pac_a" (claims0 "ann" "a") (Some "Ann") None (run [challenge_op "a" 1000; challenge_op "b" 1000]).
Lemma first_runs : finish_exchange env0 1010 (fresh_x "a") facts0 "pac_a" (claims0 "ann" "a") (Some "Ann") None (run [challenge_op "a" 1000; challenge_op "b" 1000]) = (Ok (result_of first_exchange.1), first_exchange.2).
Proof. vm_compute. reflexivity. Qed.
Definition second_exchange := finish_exchange env0 1500 (fresh_x "b") facts0 "pac_b" (claims0 "ann" "b") None None (auth_after no_url [challenge_op "z" 1300] first_exchange.2).
Lemma second_runs : finish_exchange env0 1500 (fresh_x "b") facts0 "pac_b" (claims0 "ann" "b") None None (auth_after no_url [challenge_op "z" 1300] first_exchange.2) = (Ok (result_of second_exchange.1), second_exchange.2).
Proof. vm_compute. reflexivity. Qed.
Lemma challenge_once_witness : let s := auth_after no_url [challenge_op "z" 1300] first_exchange.2 in
  (∃ e, (finish_exchange env0 1500 (fresh_x "b") facts0 "pac_a" (claims0 "bob" "c") (Some "Bob") None s).1 = Err e) ∧
  (∃ e, (finish_exchange env0 1500 (fresh_x "b") facts0 "pac_b" (claims0 "bob" "a") (Some "Bob") None s).1 = Err e).
Proof.
  destruct (challenge_once no_url env0 1010 (fresh_x "a") facts0 "pac_a" (claims0 "ann" "a") (Some "Ann") None (run [challenge_op "a" 1000; challenge_op "b" 1000])
    (result_of first_exchange.1) first_exchange.2 (run_reachable _) eq_refl first_runs) as (_ & _ & _ & Hover).
  split; apply (Hover [challenge_op "z" 1300]); [left|right]; (split; [reflexivity|]).
  - intros Hv. apply list_elem_of_singleton in Hv. discriminate Hv.
  - intros op Hop. apply list_elem_of_singleton in Hop as ->. unfold challenge_op, within_a_day. lia.
Defined.
Lemma one_live_session_witness : count (λ t, (rf_family t == "psf_a") && (rf_consumed t == None)) (ad_refresh (run renewed)) = 1.
Proof.
  pose proof (one_live_session no_url (run renewed) (run_reachable renewed)) as (_ & Hspare & _). destruct (ad_families (run renewed)) as [|f l] eqn:E; [vm_compute in E; discriminate E|].
  assert (sf_id f = "psf_a") as <- by (vm_compute in E; by injection E as <- _). apply Hspare. by left.
Defined.
Lemma kill_switch_witness : ∃ s1, _verified_session env_off policy0 1030 "sha:t-bob" false (run beta) = (Err (HTTPException 401), s1) ∧
  ∀ y, y ∈ ad_sessions s1 → ss_grant y ≠ None → ss_revoked y ≠ None.
Proof.
  destruct (kill_switch no_url env_off policy0 1030 bob_session (run beta) (run_reachable beta) (proj1 bob_there)) as (s1 & E & H1 & _); [discriminate|vm_compute; reflexivity|].
  exists s1. split; [exact E|exact H1].
Defined.
Definition verify0 (provider token nonce : string) : res auth_error ProviderClaims := Ok (Build_ProviderClaims provider "ann" None false None token "dev.magistrate.app").
Definition no_apple (code : string) (redirect : option string) : res auth_error string := Err (HTTPException 503).

(** ** A removed login that comes back

    Ann signs in with Google, links one Apple identity, removes it, links another
    and links the first again: the branch for known identities does not look for
    a connected login of the same provider. *)
Definition app_url (s : string) : option url := Some (Build_url "app" "" None None None "").
Definition env1 (name : string) : option string :=
  if name == "MAGISTRATE_GOOGLE_IOS_CLIENT_IDS" then Some "dev.magistrate.app" else if name == "MAGISTRATE_AUTH_REDIRECT_URIS" then Some "app:/cb" else env0 name.
Definition ann : Principal := Build_Principal "usr_g" ["read"; "account"] "s-g" 5000 None (Some "psf_g") (Some "login_g") (Some "google") None.
Definition google_claims : ProviderClaims := Build_ProviderClaims "google" "g" None false None "g" "dev.magistrate.app".
Definition link_ops (n subject : string) (now : Z) : list auth_op :=
  [AChallenge env1 now {| fc_id := n; fc_nonce := "nonce" |} "apple" "link" "native" None (Some ann);
   AExchange env1 now (fresh_x n) facts0 ("pac_" +:+ n) (claims0 subject n) None (Some ann)].
Definition relinked : list auth_op :=
  [AChallenge env1 1000 {| fc_id := "g"; fc_nonce := "nonce" |} "google" "sign_in" "native" (Some "app:/cb") None;
   AExchange env1 1010 (fresh_x "g") facts0 "pac_g" google_claims (Some "Ann") None] ++
  link_ops "1" "x" 1100 ++ [AUnlink 1200 ann "apple"] ++ link_ops "2" "y" 1300 ++ link_ops "3" "x" 1400.

(** After it, one account has two connected logins of one provider. *)
Lemma relink_two_logins : let s := auth_after app_url relinked empty_auth in
  map ca_subject (select (λ a, connected_login (pr_user ann) a && (ca_provider a == "apple")) (ad_accounts s)) = [Some "x"; Some "y"].
Proof. vm_compute. reflexivity. Qed.
(** Without the removal the second link is refused. *)
Lemma second_link_refused : let s := auth_after app_url (take 4 relinked ++ link_ops "2" "y" 1300) empty_auth in
  map ca_subject (select (λ a, connected_login (pr_user ann) a && (ca_provider a == "apple")) (ad_accounts s)) = [Some "x"].
Proof. vm_compute. reflexivity. Qed.

(** ** Keys and assertions *)

Definition ask0 (now : Z) (force : bool) : jwks_call := {| jw_now := now; jw_later := now; jw_force := force; jw_download := Ok [] |}.
Lemma asks_cold now st : jc_cache st = None → 60 ≤ now → jc_refreshed st = None → asks (ask0 now false) st.
Proof.
  intros Hc Hn Hr. exists (Ok []), (Ok [JNull]). unfold _jwks, JWKS_UNKNOWN_KEY_REFRESH_SECONDS. simpl. rewrite Hc, Hr. simpl. assert ((now <? 0 + 60) = false) as -> by lia. discriminate.
Qed.

(** An assertion issued by a clock that runs ahead is still in time when its
    digest is removed. *)
Lemma assertion_forgotten_early : let accepted := 1000 in let now := accepted + 86401 in
  fresh_times accepted (JInt (accepted + 86400)) (JInt (accepted + 100)) = true ∧ fresh_times now (JInt (accepted + 86400)) (JInt (accepted + 100)) = true ∧
  ad_assertions (retire_challenges now (empty_auth <| ad_assertions := [Build_assertion "digest" "pac_a" "login_a" accepted] |>)) = [].
Proof. vm_compute. done. Qed.
(** A machine that booted less than a minute ago cannot verify any token. *)
Lemma fresh_boot_refused now later force download : now < 60 → _jwks now later force download (Build_jwks_state None None) = (Err (HTTPException 503), Build_jwks_state None None).
Proof. intros Hn. unfold _jwks, JWKS_UNKNOWN_KEY_REFRESH_SECONDS. simpl. by assert ((now <? 0 + 60) = true) as -> by lia. Qed.
