(* ===== verification/Push.v ===== *)
(** * Push deliveries ([gateway/app/push_receipts.py])

    A push is sent under a claim, its ticket is polled for a receipt, and the
    receipt settles it. The store of deliveries, with the tables of
    [notifications.py] that a receipt touches. *)

From stdpp Require Import base option list sorting strings numbers sets.
From Stdlib Require Import ZArith Lia.
From S2P Require Import Prelude Sql Json Text AuthStore.

Open Scope string_scope.
Open Scope list_scope.
Open Scope Z_scope.

Inductive push_error := PushValueError | PushIntegrityError.
#[export] Instance push_error_eq_dec : EqDecision push_error.
Proof. solve_decision. Defined.

(** ** Tables *)

(** [notification_push_deliveries] *)
Inductive delivery_state := ds_sending | ds_retry | ds_pending | ds_delivered | ds_failed | ds_expired.
#[export] Instance delivery_state_eq_dec : EqDecision delivery_state.
Proof. solve_decision. Defined.
Record delivery := {
  dl_id : string; dl_user : string; dl_item : string; dl_fingerprint : string; dl_token_sha256 : string; dl_ticket : option string;
  dl_state : delivery_state; dl_send_attempts : Z; dl_poll_attempts : Z; dl_next : Z; dl_expires : Z; dl_created : Z; dl_updated : Z;
  dl_error : option string;
}.
#[export] Instance delivery_settable : Settable delivery :=
  λ r, Build_delivery (dl_id r) (dl_user r) (dl_item r) (dl_fingerprint r) (dl_token_sha256 r) (dl_ticket r) (dl_state r) (dl_send_attempts r)
    (dl_poll_attempts r) (dl_next r) (dl_expires r) (dl_created r) (dl_updated r) (dl_error r).
(** The primary key and the two unique constraints; [NULL]s are distinct. *)
Definition delivery_clash (a b : delivery) : bool :=
  (dl_id a == dl_id b) || (negb (dl_ticket a == None) && (dl_ticket a == dl_ticket b)) ||
  ((dl_user a == dl_user b) && (dl_item a == dl_item b) && (dl_fingerprint a == dl_fingerprint b) && (dl_token_sha256 a == dl_token_sha256 b)).

(** [push_tokens], [notification_state], [notification_preferences] *)
Record device := { dv_user : string; dv_token : string; dv_platform : string; dv_updated : Z; dv_revoked : option Z; dv_timezone : option Z }.
#[export] Instance device_settable : Settable device :=
  λ r, Build_device (dv_user r) (dv_token r) (dv_platform r) (dv_updated r) (dv_revoked r) (dv_timezone r).
Record attention_state := {
  as_user : string; as_item : string; as_fingerprint : string; as_active : bool; as_delivered : bool; as_viewed : bool; as_updated : Z;
}.
#[export] Instance attention_state_settable : Settable attention_state :=
  λ r, Build_attention_state (as_user r) (as_item r) (as_fingerprint r) (as_active r) (as_delivered r) (as_viewed r) (as_updated r).
Record preference := { np_user : string; np_enabled : bool; np_quiet_start : option Z; np_quiet_end : option Z; np_mode : string; np_updated : Z }.

Record notification_db := {
  nd_deliveries : list delivery; nd_devices : list device; nd_states : list attention_state; nd_preferences : list preference; nd_grants : list grant;
}.
#[export] Instance notification_db_settable : Settable notification_db :=
  λ s, Build_notification_db (nd_deliveries s) (nd_devices s) (nd_states s) (nd_preferences s) (nd_grants s).
Definition empty_notifications : notification_db := Build_notification_db [] [] [] [] [].

Abbreviation ptx := (tx push_error notification_db).

Definition write_deliveries (p : delivery → bool) (f : delivery → delivery) : ptx unit := modify (λ s, s <| nd_deliveries ::= update p f |>).

(** ** [PushDeliveryStore] *)

Definition RECEIPT_DELAY : Z := 15 * 60.
Definition RECEIPT_TTL : Z := 24 * 60 * 60.
Definition MAX_SENDS : Z := 3.

Section Store.
Context (sha256_hex : string → string).

Definition token_digest (token : string) : string := sha256_hex token.
Definition delivery_identity (user item fingerprint token_hash : string) : string :=
  sha256_hex (join NUL ["push-v1"; user; item; fingerprint; token_hash]).
(** [state in {'sending', 'retry'}] *)
Definition unsent (r : delivery) : bool := (dl_state r == ds_sending) || (dl_state r == ds_retry).
(** [item_id LIKE 'owner-test-%'], which ignores the case of letters. *)
Definition like_owner_test (item : string) : bool := startswith "owner-test-" (sql_lower item).

Definition claim_send (user item fingerprint token : string) (owner_test : bool) (now : Z) : ptx (option delivery) :=
  let token_hash := token_digest token in
  let identity := delivery_identity user item fingerprint token_hash in
  let mine r := dl_id r == identity in
  found ← read (λ s, fetchone mine (nd_deliveries s));
  match found with
  | Some row =>
      if unsent row && (dl_expires row <=? now) then
        write_deliveries mine (λ r, r <| dl_state := ds_expired |> <| dl_error := Some "send_expired" |> <| dl_updated := now |>);;
        mret None
      else if negb (unsent row) || (now <? dl_next row) then mret None
      else if MAX_SENDS <=? dl_send_attempts row then
        write_deliveries mine (λ r, r <| dl_state := ds_failed |> <| dl_error := Some "send_exhausted" |> <| dl_updated := now |>);;
        mret None
      else
        write_deliveries mine (λ r, r <| dl_state := ds_sending |> <| dl_send_attempts ::= Z.add 1 |> <| dl_next := now + 120 |> <| dl_updated := now |>);;
        read (λ s, fetchone mine (nd_deliveries s))
  | None =>
      recent ← read (λ s, exists_row (λ r, (dl_user r == user) && like_owner_test (dl_item r) && (now - 60 <? dl_created r)) (nd_deliveries s));
      if owner_test && recent then mret None
      else
        let row := Build_delivery identity user item fingerprint token_hash None ds_sending 1 0 (now + 120) (now + RECEIPT_TTL) now now None in
        rows ← read nd_deliveries;
        rows' ← lift (of_option PushIntegrityError (insert delivery_clash row rows));
        modify (λ s, s <| nd_deliveries := rows' |>);;
        read (λ s, fetchone mine (nd_deliveries s))
  end.

(** The row a claim may still report on. *)
Definition claimed_by (claim r : delivery) : bool :=
  (dl_id r == dl_id claim) && (dl_state r == ds_sending) && (dl_send_attempts r =? dl_send_attempts claim).

(** A ticket that another delivery holds violates the unique constraint. *)
Definition accepted (claim : delivery) (ticket : string) (now : Z) : ptx unit :=
  rows ← read nd_deliveries;
  require (negb (exists_row (claimed_by claim) rows && exists_row (λ r, negb (dl_id r == dl_id claim) && (dl_ticket r == Some ticket)) rows))
    PushIntegrityError;;
  write_deliveries (claimed_by claim) (λ r, r <| dl_state := ds_pending |> <| dl_ticket := Some ticket |> <| dl_next := now + RECEIPT_DELAY |>
    <| dl_updated := now |> <| dl_error := None |>).

Definition send_failed (claim : delivery) (retryable : bool) (now : Z) : ptx unit :=
  let state := if retryable && (dl_send_attempts claim <? MAX_SENDS) then ds_retry else ds_failed in
  write_deliveries (claimed_by claim) (λ r, r <| dl_state := state |> <| dl_next := now + 60 * 2 ^ dl_send_attempts claim |> <| dl_updated := now |>
    <| dl_error := Some "send_failed" |>).

Definition poll_delay (polls : Z) : Z := Z.min 3600 (60 * 2 ^ Z.min polls 6).
(** Rows due at the same time come in rowid order, as in the index. *)
Definition due (now : Z) (rows : list delivery) : list delivery :=
  take 100 (order_by (λ a b, dl_next a <=? dl_next b) (select (λ r, (dl_state r == ds_pending) && (dl_next r <=? now)) rows)).
Definition claim_receipts (now : Z) : ptx (list delivery) :=
  write_deliveries (λ r, (dl_state r == ds_pending) && (dl_expires r <=? now))
    (λ r, r <| dl_state := ds_expired |> <| dl_error := Some "receipt_expired" |> <| dl_updated := now |>);;
  rows ← read (λ s, due now (nd_deliveries s));
  modify (λ s, s <| nd_deliveries ::= λ t, fold_left (λ t row,
    update (λ r, dl_id r == dl_id row) (λ r, r <| dl_next := now + poll_delay (dl_poll_attempts row) |> <| dl_poll_attempts ::= Z.add 1 |> <| dl_updated := now |>) t)
    rows t |>);;
  mret rows.

(** [WHERE user_id=? AND revoked_at IS NULL] *)
Definition live_device (user : string) (p : device) : bool := (dv_user p == user) && (dv_revoked p == None).
Definition receipt (d : delivery) (delivered invalid_token : bool) (now : Z) : ptx unit :=
  let open r := (dl_id r == dl_id d) && (dl_state r == ds_pending) in
  changed ← read (λ s, count open (nd_deliveries s));
  write_deliveries open (λ r, r <| dl_state := (if delivered then ds_delivered else ds_failed) |>
    <| dl_error := (if delivered then None else Some "receipt_rejected") |> <| dl_updated := now |>);;
  if changed =? 0 then mret tt
  else
    current ← read (λ s, fetchone (live_device (dl_user d)) (nd_devices s));
    match current with
    | Some c =>
        if token_digest (dv_token c) == dl_token_sha256 d then
          modify (λ s, if invalid_token
            then s <| nd_devices ::= update (λ p, (dv_user p == dl_user d) && (dv_token p == dv_token c)) (λ p, p <| dv_revoked := Some now |>) |> else s);;
          modify (λ s, if delivered
            then s <| nd_states ::= update (λ r, (as_user r == dl_user d) && (as_item r == dl_item d) && (as_fingerprint r == dl_fingerprint d) && as_active r)
                                     (λ r, r <| as_delivered := true |>) |> else s)
        else mret tt
    | None => mret tt
    end.

(** [SELECT state,COUNT( * ) ... GROUP BY state], and what [dict.get] reads off it. *)
Definition delivery_states : list delivery_state := [ds_delivered; ds_expired; ds_failed; ds_pending; ds_retry; ds_sending].
Definition summary (user : string) (s : notification_db) : list (delivery_state * Z) :=
  select (λ kv, 0 <? kv.2) (map (λ st, (st, count (λ r, (dl_user r == user) && (dl_state r == st)) (nd_deliveries s))) delivery_states).
Definition states_get (states : list (delivery_state * Z)) (st : delivery_state) : Z :=
  match List.find (λ kv, kv.1 == st) states with Some kv => kv.2 | None => 0 end.
Record evidence := {
  ev_queued : Z; ev_provider_accepted : Z; ev_provider_handoff : Z; ev_failed : Z; ev_expired : Z; ev_observed : string; ev_saw : string;
}.
Definition evidence_summary (user : string) (s : notification_db) : evidence :=
  let states := summary user s in
  Build_evidence (states_get states ds_sending + states_get states ds_retry) (states_get states ds_pending) (states_get states ds_delivered)
    (states_get states ds_failed) (states_get states ds_expired) "unknown" "unknown".
End Store.
