(* ===== verification/Notifications.v ===== *)
(** * Notifications ([gateway/app/notifications.py])

    Devices, preferences, the transitions of attention items that are worth a
    notification, and the programs that deliver them: [dispatch], the poll of
    receipts and the test of an owner. The push service and what other tasks
    commit are arguments of those programs. The text and the link of a push are
    not modelled. *)

From stdpp Require Import base option list sorting strings numbers sets.
From Stdlib Require Import ZArith Lia Ascii.
From S2P Require Import Prelude Sql Json Text AuthStore Sessions Push.

Open Scope string_scope.
Open Scope list_scope.
Open Scope Z_scope.

(** ** Policy *)

Definition NOTIFICATION_MODES : list string := ["restricted"; "moderate"; "full"].
Definition DEFAULT_NOTIFICATION_MODE : string := "moderate".
Definition MAX_PUSH_ATTEMPTS : Z := 3.
Definition ACCOUNT_ATTENTION_KINDS : list string := ["budget"; "credit"; "repository_disconnected"; "payment_issue"].
Definition RESTRICTED_KINDS : list string := ["captain_question"; "blocker"; "consequential_decision"] ++ ACCOUNT_ATTENTION_KINDS.
Definition MODERATE_KINDS : list string := RESTRICTED_KINDS ++ ["pr_ready"; "stall"; "failure"; "completion"].
Definition FULL_KINDS : list string :=
  ["captain_question"; "blocker"; "stall"; "failure"; "completion"; "consequential_decision"] ++ ACCOUNT_ATTENTION_KINDS.
Definition INFORMATIONAL_KINDS : list string := ["completion"; "pr_ready"].
Definition KNOWN_PLATFORMS : list string := ["ios"; "android"; "native"].

Definition among (kind : option string) (kinds : list string) : bool := match kind with Some k => listed k kinds | None => false end.
Definition _mode_for_kind (mode : string) (kind : option string) (consequential : bool) : bool :=
  if mode == "restricted" then among kind RESTRICTED_KINDS
  else if mode == "full" then among kind FULL_KINDS || ((kind == Some "pr_ready") && consequential)
  else among kind MODERATE_KINDS.
Definition _quiet (local_hour quiet_start quiet_end : option Z) : bool :=
  match local_hour, quiet_start, quiet_end with
  | Some hour, Some start, Some stop => if start <? stop then (start <=? hour) && (hour <? stop) else (start <=? hour) || (hour <? stop)
  | _, _, _ => false
  end.

(** [DecisionNotification]: strict, no other fields. *)
Definition is_opaque (j : json) : bool :=
  match j with JStr s => fullmatch_class (λ c, is_alnum c || one_of "._:-" c) 1 128 s | _ => false end.
Definition within (lo hi : Z) (j : json) : bool := match j with JInt z => (lo <=? z) && (z <=? hi) | _ => false end.
Definition decision_fields : list string := ["schema_version"; "decision_id"; "task_id"; "run_id"; "request_id"; "scope"; "revision"; "expires_at"].
Record decision_notification := { dn_fields : dict; dn_expires : Z }.
(** [None] is a [ValidationError]; an item may have none. *)
Definition _decision_notification (value : json) : option (option decision_notification) :=
  match value with
  | JNull => Some None
  | JObj d =>
      if forallb (λ k, listed k decision_fields) (keys d) && eq_str (get "schema_version" d) "magistrate.decision-notification.v1"
         && forallb (λ k, is_opaque (get k d)) ["decision_id"; "task_id"; "run_id"; "request_id"; "scope"]
         && within 1 2147483647 (get "revision" d) && within 1 9007199254740991 (get "expires_at" d)
      then Some (Some (Build_decision_notification d (default 0 (as_int (get "expires_at" d))))) else None
  | _ => None
  end.

(** An attention item: what notifications read of it. *)
Record item := {
  it_id : string; it_requires_action : bool; it_kind : option string; it_consequential : bool; it_revision : json; it_title : json;
  it_subtitle : json; it_status : json; it_url : json; it_decision : json;
}.

Section Notifications.
(** SHA-256, and [json.dumps] with sorted keys and compact separators. *)
Context (sha256_hex : string → string) (compact : json → string).

Definition _fingerprint (i : item) : string := sha256_hex (compact (JObj [
  ("decision_notification", it_decision i); ("kind", match it_kind i with Some k => JStr k | None => JNull end); ("revision", it_revision i);
  ("status", it_status i); ("subtitle", it_subtitle i); ("title", it_title i); ("url", it_url i)])).

(** ** Devices *)

Definition token_char (c : Ascii.ascii) : bool := is_alnum c || one_of "_-" c.
Definition expo_token (prefix s : string) : bool :=
  startswith (prefix +:+ "[") s && endswith "]" s &&
  fullmatch_class token_char 1 200 (str_take (String.length s - String.length prefix - 2) (str_drop (String.length prefix + 1) s)).
Definition _validate_push_token (push_token : string) : res push_error string :=
  let token := strip push_token in
  ensure (negb (token == "")) PushValueError;;
  ensure (expo_token "ExponentPushToken" token || expo_token "ExpoPushToken" token) PushValueError;;
  mret token.

Definition register_push_token (user push_token platform : string) (timezone : option Z) (now : Z) : ptx unit :=
  token ← lift (_validate_push_token push_token);
  let platform := strip (sql_lower (if platform == "" then "ios" else platform)) in
  require (listed platform KNOWN_PLATFORMS) PushValueError;;
  require (match timezone with Some m => (-840 <=? m) && (m <=? 840) | None => true end) PushValueError;;
  let row := Build_device user token platform now None timezone in
  modify (λ s, if exists_row (λ p, dv_user p == user) (nd_devices s)
               then s <| nd_devices ::= update (λ p, dv_user p == user) (λ _, row) |> else s <| nd_devices ::= (λ t, t ++ [row]) |>).
Definition revoke_push_token (user : string) (push_token : option string) (now : Z) : ptx unit :=
  let revoke p := modify (λ s, s <| nd_devices ::= update p (λ r, r <| dv_revoked := Some now |>) |>) in
  match push_token with
  | Some t => if t == "" then revoke (λ p, dv_user p == user) else revoke (λ p, (dv_user p == user) && (dv_token p == strip t))
  | None => revoke (λ p, dv_user p == user)
  end.

(** A user that was ever granted beta access needs a live grant and the flag. *)
Definition live_grant (friend_enabled : bool) (user : string) (now : Z) (grants : list grant) : bool :=
  friend_enabled && exists_row (λ g, (gr_user g == user) && (gr_revoked g == None) && (now <? gr_expires g)) grants.
Definition known_grant (user : string) (grants : list grant) : bool := exists_row (λ g, gr_user g == user) grants.
Definition get_registered_push_token (env : string → option string) (user : string) (now : Z) (s : notification_db) : option device :=
  let friend_enabled := _truthy env "MAGISTRATE_FRIEND_BETA_ENABLED" in
  let row := fetchone (live_device user) (nd_devices s) in
  if known_grant user (nd_grants s) && negb (live_grant friend_enabled user now (nd_grants s)) then None else row.
Definition list_registered_push_users (env : string → option string) (now : Z) (s : notification_db) : list string :=
  let friend_enabled := _truthy env "MAGISTRATE_FRIEND_BETA_ENABLED" in
  map dv_user (select (λ p, (dv_revoked p == None) && negb (dv_token p == "") &&
    (negb (known_grant (dv_user p) (nd_grants s)) || live_grant friend_enabled (dv_user p) now (nd_grants s))) (nd_devices s)).
(** The hour of the day [offset] minutes west of UTC. *)
Definition registered_local_hour (env : string → option string) (user : string) (now : Z) (s : notification_db) : Z :=
  let offset := default 0 (get_registered_push_token env user now s ≫= dv_timezone) in
  ((now - 60 * offset) / 3600) mod 24.

(** ** Preferences *)

Record preferences := { pr_enabled : bool; pr_quiet_start : option Z; pr_quiet_end : option Z; pr_mode : string }.
Definition get_notification_preferences (user : string) (s : notification_db) : preferences :=
  match fetchone (λ p, np_user p == user) (nd_preferences s) with
  | None => Build_preferences true None None DEFAULT_NOTIFICATION_MODE
  | Some row => Build_preferences (np_enabled row) (np_quiet_start row) (np_quiet_end row)
                  (if listed (np_mode row) NOTIFICATION_MODES then np_mode row else DEFAULT_NOTIFICATION_MODE)
  end.
Definition hour_of_day (h : option Z) : bool := match h with Some h => (0 <=? h) && (h <=? 23) | None => true end.
Definition update_notification_preferences (user : string) (enabled : bool) (quiet_start quiet_end : option Z) (mode : string) (now : Z) : ptx preferences :=
  require (listed mode NOTIFICATION_MODES) PushValueError;;
  require (Bool.eqb (quiet_start == None) (quiet_end == None)) PushValueError;;
  require (hour_of_day quiet_start && hour_of_day quiet_end) PushValueError;;
  let row := Build_preference user enabled quiet_start quiet_end mode now in
  modify (λ s, if exists_row (λ p, np_user p == user) (nd_preferences s)
               then s <| nd_preferences ::= update (λ p, np_user p == user) (λ _, row) |> else s <| nd_preferences ::= (λ t, t ++ [row]) |>);;
  mret (Build_preferences enabled quiet_start quiet_end mode).

(** ** Transitions *)

(** [d[k] = v]: a known key keeps its place. *)
Fixpoint dict_set {A} (k : string) (v : A) (d : list (string * A)) : list (string * A) :=
  match d with
  | [] => [(k, v)]
  | (k', v') :: d' => if k' == k then (k, v) :: d' else (k', v') :: dict_set k v d'
  end.
Definition wanted (mode : string) (i : item) : bool :=
  (it_requires_action i || among (it_kind i) INFORMATIONAL_KINDS) && _mode_for_kind mode (it_kind i) (it_consequential i).
Definition actionable (mode : string) (items : list item) : list (string * item) :=
  fold_left (λ d i, dict_set (it_id i) i d) (select (wanted mode) items) [].

Definition state_of_item (id : string) (existing : list attention_state) : option attention_state := fetchone (λ r, as_item r == id) existing.
Definition changed (existing : list attention_state) (kv : string * item) : bool :=
  match state_of_item kv.1 existing with None => true | Some r => negb (as_fingerprint r == _fingerprint kv.2) || negb (as_active r) end.
Definition is_pending (existing : list attention_state) (kv : string * item) : bool :=
  negb (if changed existing kv then false else match state_of_item kv.1 existing with Some r => as_delivered r | None => false end).

Definition on_item (user id : string) (r : attention_state) : bool := (as_user r == user) && (as_item r == id).
(** An item that is no longer actionable. *)
Definition retire (user : string) (now : Z) (current : list (string * item)) (t : list attention_state) (row : attention_state) : list attention_state :=
  if negb (listed (as_item row) (map fst current)) && as_active row
  then update (on_item user (as_item row)) (λ r, r <| as_active := false |> <| as_delivered := true |> <| as_viewed := true |> <| as_updated := now |>) t else t.
(** [INSERT ... ON CONFLICT(user_id,item_id) DO UPDATE] *)
Definition surface (user : string) (now : Z) (existing : list attention_state) (t : list attention_state) (kv : string * item) : list attention_state :=
  let fingerprint := _fingerprint kv.2 in
  if changed existing kv then
    if exists_row (on_item user kv.1) t
    then update (on_item user kv.1) (λ r, r <| as_fingerprint := fingerprint |> <| as_active := true |> <| as_delivered := false |> <| as_viewed := false |>
           <| as_updated := now |>) t
    else t ++ [Build_attention_state user kv.1 fingerprint true false false now]
  else t.
Definition mark_delivered (user : string) (ids : list string) (t : list attention_state) : list attention_state :=
  fold_left (λ t id, update (λ r, on_item user id r && as_active r) (λ r, r <| as_delivered := true |>) t) ids t.
(** The writes of a reconciliation that read [existing]. *)
Definition reconcile_writes (user : string) (now : Z) (foreground : bool) (current : list (string * item)) (existing : list attention_state) : ptx (list item) :=
  let pending := map snd (select (is_pending existing) current) in
  modify (λ s, s <| nd_states ::= λ t, fold_left (surface user now existing) current (fold_left (retire user now current) existing t) |>);;
  if foreground then modify (λ s, s <| nd_states ::= mark_delivered user (map it_id pending) |>);; mret [] else mret pending.

Definition mark_notification_events_delivered (user : string) (ids : list string) : ptx unit := modify (λ s, s <| nd_states ::= mark_delivered user ids |>).
Definition acknowledge_notification_events (user : string) (ids : list string) : ptx unit := modify (λ s, s <| nd_states ::= λ t,
  fold_left (λ t id, update (λ r, on_item user id r && as_active r) (λ r, r <| as_delivered := true |> <| as_viewed := true |>) t) ids t |>).

Definition _unread_events (user : string) (items : list item) (p : preferences) (s : notification_db) : list item :=
  if negb (pr_enabled p) then []
  else let by_id := fold_left (λ d i, dict_set (it_id i) i d) items [] in
       omap (λ r, assoc (as_item r) by_id) (select (λ r, (as_user r == user) && as_active r && negb (as_viewed r)) (nd_states s)).
End Notifications.

(** ** Sending *)

(** What [httpx] raises or answers; [body] is [response.json()], or the empty
    object where that raises. *)
Inductive posted := PostRaised | Posted (status_code : Z) (body : json).
Inductive push_outcome := po_skipped | po_accepted (attempts : Z) (ticket_id : string) | po_revoked | po_error (retryable : bool).
#[export] Instance push_outcome_eq_dec : EqDecision push_outcome.
Proof. solve_decision. Defined.
Inductive verdict := vd_done (o : push_outcome) | vd_revoke | vd_again.

Definition is_success (status_code : Z) : bool := (200 <=? status_code) && (status_code <=? 299).
Definition ticket_of (result : json) : json :=
  let ticket := match result with JObj d => default result (assoc "data" d) | _ => JObj [] end in
  match ticket with JList [] => JObj [] | JList (t :: _) => t | _ => ticket end.
Definition ticket_get (k : string) (ticket : json) : json := match ticket with JObj d => get k d | _ => JNull end.
Definition ticket_error (ticket : json) : json := match ticket_get "details" ticket with JObj d => get "error" d | _ => JNull end.
Definition is_ticket (s : string) : bool := fullmatch_class token_char 1 200 s.
Definition judge (attempt : Z) (p : posted) : verdict :=
  match p with
  | PostRaised => vd_again
  | Posted status_code body =>
      let ticket := ticket_of body in
      if is_success status_code && eq_str (ticket_get "status" ticket) "ok" then
        match ticket_get "id" ticket with
        | JStr id => if is_ticket id then vd_done (po_accepted (attempt + 1) id) else vd_done (po_error false)
        | _ => vd_done (po_error false)
        end
      else if eq_str (ticket_error ticket) "DeviceNotRegistered" then vd_revoke
      else if (status_code <? 500) && negb (status_code =? 429) then vd_done (po_error false)
      else vd_again
  end.

(** The places where other tasks may commit. *)
Inductive site := at_preferences | at_existing | at_writes | at_registered | at_unread | at_claim (n : nat) | at_send (n : nat) | at_post (n attempt : nat) | at_report (n : nat) | at_recover (n : nat).

Abbreviation pio := (io push_error notification_db).

Section Delivery.
Context (sha256_hex : string → string) (compact : json → string) (env : string → option string).
(** What other tasks commit at each place, and the answers of the push service. *)
Context (others : site → notification_db → notification_db) (post : nat → nat → posted).
Definition elsewhere {A} (p : site) (m : ptx A) : pio A := λ s, commit m (others p s).

Fixpoint send_attempts (user token : string) (now : Z) (n : nat) (attempt left : nat) : pio push_outcome :=
  match left with
  | O => mret (po_error true)
  | S left' =>
      match judge (Z.of_nat attempt) (post n attempt) with
      | vd_done o => mret o
      | vd_revoke => elsewhere (at_post n attempt) (revoke_push_token user (Some token) now);; mret po_revoked
      | vd_again => send_attempts user token now n (S attempt) left'
      end
  end.
Definition send_push_notification (user : string) (expected_token : option string) (max_attempts : Z) (now : Z) (n : nat) : pio push_outcome :=
  registered ← elsewhere (at_send n) (read (get_registered_push_token env user now));
  match registered with
  | None => mret po_skipped
  | Some d =>
      if match expected_token with Some t => negb (t == dv_token d) | None => false end then mret po_skipped
      else send_attempts user (dv_token d) now n 0 (Z.to_nat (Z.max 1 (Z.min MAX_PUSH_ATTEMPTS max_attempts)))
  end.

Record reconciled := { rc_events : list item; rc_enabled : bool; rc_mode : string; rc_is_quiet : bool; rc_foreground : bool }.
Definition reconcile_notification_events (user : string) (items : list item) (foreground : bool) (local_hour : option Z) (now : Z) : pio reconciled :=
  p ← elsewhere at_preferences (read (get_notification_preferences user));
  let current := actionable (pr_mode p) items in
  existing ← elsewhere at_existing (read (λ s, select (λ r, as_user r == user) (nd_states s)));
  pending ← elsewhere at_writes (reconcile_writes sha256_hex compact user now foreground current existing);
  let quiet := _quiet local_hour (pr_quiet_start p) (pr_quiet_end p) in
  mret (Build_reconciled (if pr_enabled p && negb quiet then pending else []) (pr_enabled p) (pr_mode p) quiet foreground).

(** The report of what became of a claim; a ticket that is in use counts as a
    refusal. *)
Definition report (claim : delivery) (o : push_outcome) (now : Z) (n : nat) : pio bool :=
  match o with
  | po_accepted _ ticket => λ s,
      match elsewhere (at_report n) (accepted claim ticket now) s with
      | (Ok _, s') => (Ok true, s')
      | (Err PushIntegrityError, s') => (elsewhere (at_recover n) (send_failed claim false now);; mret false) s'
      | (Err e, s') => (Err e, s')
      end
  | po_error retryable => elsewhere (at_report n) (send_failed claim retryable now);; mret false
  | _ => elsewhere (at_report n) (send_failed claim false now);; mret false
  end.

Inductive failure := fl_invalid | fl_expired | fl_conflict | fl_outcome (o : push_outcome).
Inductive event_result := er_accepted | er_claimed_before | er_failed (f : failure).
Definition failure_of (o : push_outcome) : failure := match o with po_accepted _ _ => fl_conflict | _ => fl_outcome o end.
Definition push_event (user token : string) (now : Z) (n : nat) (e : item) : pio event_result :=
  claim ← elsewhere (at_claim n) (claim_send sha256_hex user (it_id e) (_fingerprint sha256_hex compact e) token false now);
  match claim with
  | None => mret er_claimed_before
  | Some claim =>
      outcome ← send_push_notification user (Some token) 1 now n;
      ok ← report claim outcome now n;
      mret match ok with true => er_accepted | false => er_failed (failure_of outcome) end
  end.
Definition deliver_event (user token : string) (now_ms : Z) (n : nat) (e : item) : pio event_result :=
  match _decision_notification (it_decision e) with
  | None => mret (er_failed fl_invalid)
  | Some (Some d) => if dn_expires d <=? now_ms then mret (er_failed fl_expired) else push_event user token (now_ms / 1000) n e
  | Some None => push_event user token (now_ms / 1000) n e
  end.
Fixpoint deliver (user token : string) (now_ms : Z) (n : nat) (events : list item) : pio (list (string * event_result)) :=
  match events with
  | [] => mret []
  | e :: events' =>
      r ← deliver_event user token now_ms n e;
      rest ← deliver user token now_ms (S n) events';
      mret ((it_id e, r) :: rest)
  end.

Record dispatched := { di_result : reconciled; di_unread : list item; di_delivery : string; di_failures : list (string * failure) }.
Definition failures_of (l : list (string * event_result)) : list (string * failure) :=
  omap (λ kr, match kr.2 with er_failed f => Some (kr.1, f) | _ => None end) l.
Definition was_accepted (kr : string * event_result) : bool := match kr.2 with er_accepted => true | _ => false end.
Definition unread_now (user : string) (items : list item) : pio (list item) :=
  p ← elsewhere at_preferences (read (get_notification_preferences user));
  elsewhere at_unread (read (_unread_events user items p)).
Definition dispatch_notification_events (user : string) (items : list item) (local_hour : option Z) (now_ms : Z) : pio dispatched :=
  result ← reconcile_notification_events user items false local_hour (now_ms / 1000);
  registered ← elsewhere at_registered (read (get_registered_push_token env user (now_ms / 1000)));
  unread ← unread_now user items;
  match registered, rc_events result with
  | None, events => mret (Build_dispatched result unread (match events with [] => "none" | _ => "web-or-in-app" end) [])
  | _, [] => mret (Build_dispatched result unread "none" [])
  | Some d, events =>
      results ← deliver user (dv_token d) now_ms 0 events;
      let failures := failures_of results in
      unread ← unread_now user items;
      mret (Build_dispatched result unread
        (match failures with [] => if existsb was_accepted results then "accepted" else "pending" | _ => "partial" end) failures)
  end.

(** ** Receipts *)

(** [fetch] asks for the receipts of tickets; [None] where the request fails,
    answers too much or is no JSON. A status that is a list or an object cannot
    be looked up in a set: the [TypeError] ends the round. *)
Definition unhashable (j : json) : bool := match j with JList _ | JObj _ => true | _ => false end.
Fixpoint settle (receipts : dict) (now : Z) (n : nat) (deliveries : list delivery) : pio unit :=
  match deliveries with
  | [] => mret tt
  | d :: deliveries' =>
      let r := match dl_ticket d with Some t => get t receipts | None => JNull end in
      match r with
      | JObj fields =>
          let status := get "status" fields in
          if unhashable status then mret tt
          else if negb (in_strs status ["ok"; "error"]) then settle receipts now (S n) deliveries'
          else
            let invalid := match get "details" fields with JObj details => eq_str (get "error" details) "DeviceNotRegistered" | _ => false end in
            elsewhere (at_report n) (receipt sha256_hex d (eq_str status "ok") invalid now);;
            settle receipts now (S n) deliveries'
      | _ => settle receipts now (S n) deliveries'
      end
  end.
Definition reconcile_push_receipts (fetch : list (option string) → option json) (now : Z) : pio unit :=
  deliveries ← elsewhere (at_claim 0) (claim_receipts now);
  match deliveries with
  | [] => mret tt
  | _ => match fetch (map dl_ticket deliveries) with
         | Some (JObj payload) => match get "data" payload with JObj receipts => settle receipts now 0 deliveries | _ => mret tt end
         | _ => mret tt
         end
  end.

(** ** The test an owner asks for *)

Inductive test_result := tr_suppressed | tr_unavailable | tr_limited | tr_sent (ticket : string) | tr_conflict | tr_outcome (o : push_outcome).
Definition is_request (s : string) : bool := fullmatch_class token_char 8 80 s.
Definition send_owner_test_notification (user request_id : string) (now : Z) : pio (test_result * evidence) :=
  let answer (r : test_result) : pio (test_result * evidence) := e ← elsewhere at_unread (read (evidence_summary user)); mret (r, e) in
  pure (ensure (is_request request_id) PushValueError);;
  p ← elsewhere at_preferences (read (get_notification_preferences user));
  hour ← elsewhere at_existing (read (registered_local_hour env user now));
  if negb (pr_enabled p) || _quiet (Some hour) (pr_quiet_start p) (pr_quiet_end p) then answer tr_suppressed
  else
    registered ← elsewhere at_registered (read (get_registered_push_token env user now));
    match registered with
    | None => answer tr_unavailable
    | Some d =>
        claim ← elsewhere (at_claim 0) (claim_send sha256_hex user ("owner-test-" +:+ request_id) "owner-test-v1" (dv_token d) true now);
        match claim with
        | None => answer tr_limited
        | Some claim =>
            outcome ← send_push_notification user (Some (dv_token d)) 1 now 0;
            ok ← report claim outcome now 0;
            answer match outcome with po_accepted _ t => match ok with true => tr_sent t | false => tr_conflict end | _ => tr_outcome outcome end
        end
    end.
End Delivery.
