(* ===== verification/PushTheorems.v ===== *)
(** * What push delivery promises

    [life] is what may happen to a delivery and [push_turns] what may happen to
    the table, with the claims it hands out; every operation follows them.
    The claims hold for every sequence of operations ([push_run]). *)

From stdpp Require Import base option list sorting strings numbers sets.
From Stdlib Require Import ZArith Lia.
From S2P Require Import Prelude Sql Json Text AuthStore Push Notifications.

Open Scope string_scope.
Open Scope list_scope.
Open Scope Z_scope.

Implicit Types (r d c : delivery) (t : list delivery) (s : notification_db).

(** ** The life of a delivery *)

Definition settled r : Prop := dl_state r = ds_delivered ∨ dl_state r = ds_failed ∨ dl_state r = ds_expired.
(** What never changes. *)
Definition same_push r r' : Prop :=
  dl_id r' = dl_id r ∧ dl_user r' = dl_user r ∧ dl_item r' = dl_item r ∧ dl_fingerprint r' = dl_fingerprint r ∧ dl_token_sha256 r' = dl_token_sha256 r ∧
  dl_expires r' = dl_expires r ∧ dl_created r' = dl_created r.
Definition same_counts r r' : Prop := dl_send_attempts r' = dl_send_attempts r ∧ dl_ticket r' = dl_ticket r.
(** The steps that are no send: a claim fails, is given up or expires; a
    pending receipt is polled, or settles the delivery. *)
Inductive life r r' : Prop :=
| life_refused : dl_state r = ds_sending → dl_state r' = ds_failed ∨ dl_state r' = ds_retry ∧ dl_send_attempts r < MAX_SENDS →
    same_push r r' → same_counts r r' → life r r'
| life_given_up : unsent r = true → dl_state r' = ds_expired ∨ dl_state r' = ds_failed → same_push r r' → same_counts r r' → life r r'
| life_polled : dl_state r = ds_pending → dl_state r' = ds_pending → dl_poll_attempts r' = dl_poll_attempts r + 1 → same_push r r' → same_counts r r' → life r r'
| life_settled : dl_state r = ds_pending → settled r' → same_push r r' → same_counts r r' → life r r'.
(** A further send under the next number, and the ticket it brings. *)
Definition resent r r' : Prop :=
  unsent r = true ∧ dl_state r' = ds_sending ∧ dl_send_attempts r' = dl_send_attempts r + 1 ∧ dl_send_attempts r < MAX_SENDS ∧ dl_ticket r' = dl_ticket r ∧ same_push r r'.
Definition handed (ticket : string) r r' : Prop :=
  dl_state r = ds_sending ∧ dl_state r' = ds_pending ∧ dl_ticket r' = Some ticket ∧ dl_send_attempts r' = dl_send_attempts r ∧ same_push r r'.
Definition first_send r : Prop := dl_state r = ds_sending ∧ dl_send_attempts r = 1 ∧ dl_ticket r = None.

Definition with_id (id : string) r : bool := dl_id r == id.
Inductive push_turns : list delivery → list delivery → list delivery → Prop :=
| pt_done t : push_turns t [] t
| pt_life t p f cs t' : (∀ r, r ∈ t → p r = true → life r (f r)) → push_turns (update p f t) cs t' → push_turns t cs t'
| pt_handed t p f ticket cs t' : (∀ r, r ∈ t → p r = true → handed ticket r (f r)) → (∀ r r', p r = true → p r' = true → dl_id r = dl_id r') →
    (∀ r r', r ∈ t → p r = true → r' ∈ t → dl_id r' ≠ dl_id r → dl_ticket r' ≠ Some ticket) → push_turns (update p f t) cs t' → push_turns t cs t'
| pt_resent t r f cs t' : r ∈ t → resent r (f r) → push_turns (update (with_id (dl_id r)) f t) cs t' → push_turns t (f r :: cs) t'
| pt_first t r rows cs t' : first_send r → insert delivery_clash r t = Some rows → push_turns rows cs t' → push_turns t (r :: cs) t'.

Lemma turns_trans t cs t1 cs' t' : push_turns t cs t1 → push_turns t1 cs' t' → push_turns t (cs ++ cs') t'.
Proof. induction 1; simpl; intros; eauto using push_turns. Qed.
Lemma turns_life t p f : (∀ r, r ∈ t → p r = true → life r (f r)) → push_turns t [] (update p f t).
Proof. intros. eapply pt_life; [done|constructor]. Qed.

(** ** The table *)

Record delivery_ok r : Prop := {
  do_attempts : 1 ≤ dl_send_attempts r ≤ MAX_SENDS;
  do_ticket : dl_state r = ds_pending ∨ dl_state r = ds_delivered → is_Some (dl_ticket r);
  do_no_ticket : unsent r = true → dl_ticket r = None;
}.
Record push_ok t : Prop := {
  po_keyed : NoDup (map dl_id t);
  po_rows : Forall delivery_ok t;
  po_tickets : ∀ a b k, a ∈ t → b ∈ t → dl_ticket a = Some k → dl_ticket b = Some k → dl_id a = dl_id b;
}.

Lemma unsent_cases r : unsent r = true ↔ dl_state r = ds_sending ∨ dl_state r = ds_retry.
Proof. unfold unsent. rewrite orb_true_iff, !bool_decide_eq_true. done. Qed.
Lemma life_same r r' : life r r' → same_push r r' ∧ same_counts r r'.
Proof. by destruct 1. Qed.
(** Refutes contradictory states. *)
Ltac states :=
  unfold settled in *; repeat match goal with
  | H : unsent _ = true |- _ => apply unsent_cases in H
  | H : _ ∨ _ |- _ => destruct H
  | H : _ ∧ _ |- _ => destruct H
  end; congruence.
Lemma life_open r r' : life r r' → ¬ settled r.
Proof. intros Hl Hr. destruct Hl; states. Qed.
Lemma life_ok r r' : life r r' → delivery_ok r → delivery_ok r'.
Proof.
  intros Hl [Ha Ht Hn]. destruct (life_same _ _ Hl) as [_ [Ea Et]]. split; [by rewrite Ea|rewrite Et..]; intros Hs.
  - destruct Hl; try (apply Ht; by left); states.
  - destruct Hl; try (apply Hn, unsent_cases; by left); states.
Qed.
Lemma resent_ok r r' : resent r r' → delivery_ok r → delivery_ok r'.
Proof. intros (Hu & Hs & Ha & Hm & Ht & _) [Hr _ Hn]. split; [lia|intros; states|]. intros _. rewrite Ht. by apply Hn. Qed.
Lemma handed_ok k r r' : handed k r r' → delivery_ok r → delivery_ok r'.
Proof. intros (Hs & Hs' & Ht & Ha & _) [Hr _ _]. split; [by rewrite Ha|by rewrite Ht|intros; states]. Qed.

(** Rows of an updated table under the keys they had. *)
Lemma map_id_update p f t : (∀ r, r ∈ t → p r = true → dl_id (f r) = dl_id r) → map dl_id (update p f t) = map dl_id t.
Proof. apply map_update_in. Qed.
Lemma tickets_update p f t : (∀ r, r ∈ t → p r = true → dl_ticket (f r) = dl_ticket r ∧ dl_id (f r) = dl_id r) →
  (∀ a b k, a ∈ t → b ∈ t → dl_ticket a = Some k → dl_ticket b = Some k → dl_id a = dl_id b) →
  ∀ a b k, a ∈ update p f t → b ∈ update p f t → dl_ticket a = Some k → dl_ticket b = Some k → dl_id a = dl_id b.
Proof.
  intros Hf Ht a b k (a0 & Ha & ->)%elem_of_update (b0 & Hb & ->)%elem_of_update Hka Hkb.
  destruct (p a0) eqn:Ea, (p b0) eqn:Eb; try destruct (Hf _ Ha Ea) as [Ta Ia]; try destruct (Hf _ Hb Eb) as [Tb Ib]; try rewrite Ia; try rewrite Ib; (apply (Ht a0 b0 k); [done|done|congruence|congruence]).
Qed.
Lemma same_update_ok p f t : (∀ r, r ∈ t → p r = true → delivery_ok r → delivery_ok (f r)) →
  (∀ r, r ∈ t → p r = true → dl_ticket (f r) = dl_ticket r ∧ dl_id (f r) = dl_id r) → push_ok t → push_ok (update p f t).
Proof.
  intros Hok Hf [Hk Hr Ht]. split.
  - rewrite map_id_update; [done|]. intros r Hin Hp. by apply Hf.
  - by apply Forall_update.
  - by apply tickets_update.
Qed.
Lemma handed_update_ok p f ticket t : (∀ r, r ∈ t → p r = true → handed ticket r (f r)) → (∀ r r', p r = true → p r' = true → dl_id r = dl_id r') →
  (∀ r r', r ∈ t → p r = true → r' ∈ t → dl_id r' ≠ dl_id r → dl_ticket r' ≠ Some ticket) → push_ok t → push_ok (update p f t).
Proof.
  intros Hf Hone Hfree [Hk Hr Ht].
  assert (∀ r, r ∈ t → p r = true → dl_id (f r) = dl_id r) as Hid by (intros r Hin Hp; by destruct (Hf r Hin Hp) as (_ & _ & _ & _ & Hsame & _)).
  split; [by rewrite map_id_update|..].
  - apply Forall_update; [done|]. intros r Hin Hp. eapply handed_ok. by apply Hf.
  - assert (∀ a0 b0 k, a0 ∈ t → b0 ∈ t → p a0 = true → p b0 = false → dl_ticket (f a0) = Some k → dl_ticket b0 = Some k → dl_id (f a0) = dl_id b0) as Hx.
    { intros a0 b0 k Ha Hb Ea Eb Hka Hkb. rewrite Hid by done. destruct (decide (dl_id b0 = dl_id a0)) as [->|Hne]; [done|].
      destruct (Hf a0 Ha Ea) as (_ & _ & Hka' & _). destruct (Hfree _ _ Ha Ea Hb Hne). congruence. }
    intros a b k (a0 & Ha & ->)%elem_of_update (b0 & Hb & ->)%elem_of_update Hka Hkb. destruct (p a0) eqn:Ea, (p b0) eqn:Eb.
    + rewrite !Hid by done. by apply Hone.
    + by eapply Hx.
    + symmetry. by eapply Hx.
    + by eapply Ht.
Qed.
Lemma first_ok r t rows : first_send r → insert delivery_clash r t = Some rows → push_ok t → push_ok rows.
Proof.
  intros (Hs & Ha & Htk) Hi [Hk Hr Ht]. split.
  - eapply (insert_NoDup dl_id delivery_clash); [|exact Hi|done]. intros x y Hxy. unfold delivery_clash. by rewrite (bool_decide_true _ Hxy).
  - apply insert_some in Hi as [-> _]. apply Forall_app. split; [done|]. constructor; [|done]. split; [rewrite Ha; by unfold MAX_SENDS|intros; states|done].
  - apply insert_some in Hi as [-> _]. intros a b k [Hin|Hin%list_elem_of_singleton]%elem_of_app [Hin'|Hin'%list_elem_of_singleton]%elem_of_app Hka Hkb;
      subst; [by eapply Ht|congruence..].
Qed.
Lemma turns_ok t cs t' : push_turns t cs t' → push_ok t → push_ok t'.
Proof.
  induction 1 as [|t p f cs t' Hl _ IH|t p f k cs t' Hh Hone Hfree _ IH|t r f cs t' Hr Hre _ IH|t r rows cs t' Hf Hi _ IH]; intros Hok; [done|apply IH..].
  - apply same_update_ok; [|intros r Hin Hp; by destruct (life_same _ _ (Hl r Hin Hp)) as [(? & _) [_ ?]]|done].
    intros r Hin Hp. apply life_ok, Hl; done.
  - by eapply handed_update_ok.
  - assert (∀ x, x ∈ t → with_id (dl_id r) x = true → x = r) as Hx.
    { intros x Hx Hid. unfold with_id in Hid. bools. by eapply (NoDup_key_inj dl_id); [apply (po_keyed _ Hok)|..]. }
    apply same_update_ok; [|intros x Hin Hid; rewrite (Hx x) by done; by destruct Hre as (_ & _ & _ & _ & ? & ? & _)|done].
    intros x Hin Hid. rewrite (Hx x Hin Hid). by apply resent_ok.
  - by eapply first_ok.
Qed.

(** ** The operations follow it *)

Definition claims_of (c : option delivery) : list delivery := match c with Some c => [c] | None => [] end.

Section Operations.
Context (sha256_hex : string → string) (compact : json → string).
Local Abbreviation claim_send := (claim_send sha256_hex).
Local Abbreviation receipt := (receipt sha256_hex).

Lemma keyed_one t id r x : push_ok t → r ∈ t → dl_id r = id → x ∈ t → with_id id x = true → x = r.
Proof. intros Hok Hr Hid Hx Hx'. unfold with_id in Hx'. bools. eapply (NoDup_key_inj dl_id); [apply (po_keyed _ Hok)|done|done|congruence]. Qed.
Lemma fetch_updated id f t r : push_ok t → r ∈ t → dl_id r = id → dl_id (f r) = id → fetchone (with_id id) (update (with_id id) f t) = Some (f r).
Proof.
  intros Hok Hr Hid Hf. assert (NoDup (map dl_id (update (with_id id) f t))) as Hn.
  { rewrite map_id_update; [apply (po_keyed _ Hok)|]. intros x Hx Hx'. rewrite (keyed_one t id r x) by done. congruence. }
  eapply (fetchone_unique dl_id); [exact Hn| |by apply bool_decide_true|].
  - apply elem_of_update. exists r. split; [done|]. unfold with_id. by rewrite (bool_decide_true _ Hid).
  - intros x Hx. unfold with_id in Hx. bools. congruence.
Qed.

Lemma life_by_id t id f r : push_ok t → r ∈ t → dl_id r = id → life r (f r) → push_turns t [] (update (with_id id) f t).
Proof. intros Hok Hr Hid Hl. apply turns_life. intros x Hx Hx'. by rewrite (keyed_one t id r x). Qed.
Lemma resent_id t id f r : push_ok t → r ∈ t → dl_id r = id → resent r (f r) →
  push_turns t (claims_of (fetchone (with_id id) (update (with_id id) f t))) (update (with_id id) f t).
Proof.
  intros Hok Hr <- Hre. rewrite (fetch_updated _ f t r) by (try done; apply Hre). eapply pt_resent; [done..|constructor].
Qed.

Lemma claim_send_turns user item fingerprint token owner_test now s o s' :
  push_ok (nd_deliveries s) → claim_send user item fingerprint token owner_test now s = Ok (o, s') →
  push_turns (nd_deliveries s) (claims_of o) (nd_deliveries s').
Proof.
  intros Hok H. unfold Push.claim_send, write_deliveries in H. tx_inv; try by constructor.
  1-3: match goal with Hf : fetchone _ _ = Some ?r |- _ => pose proof Hf as [Hr Hid]%fetchone_some; bools end.
  - eapply life_by_id; [done..|]. apply life_given_up; [done|by left|repeat split..].
  - eapply life_by_id; [done..|]. apply life_given_up; [done|by right|repeat split..].
  - eapply resent_id; [done..|]. unfold resent. cbn. split_and!; try done; lia.
  - match goal with Hi : insert delivery_clash ?r _ = Some ?rows |- _ => pose proof Hi as [-> Hfree]%insert_some; rename Hi into Hinsert end. cbn.
    rewrite fetchone_app_none by done. cbn. rewrite eqb_refl. cbn. eapply pt_first; [done|exact Hinsert|constructor].
Qed.

Lemma claimed_sending c r : claimed_by c r = true → dl_state r = ds_sending ∧ dl_id r = dl_id c ∧ dl_send_attempts r = dl_send_attempts c.
Proof. unfold claimed_by. intros H. by bools. Qed.
Lemma accepted_turns c ticket now s (u : unit) s' : accepted c ticket now s = Ok (u, s') → push_turns (nd_deliveries s) [] (nd_deliveries s').
Proof.
  unfold accepted, write_deliveries. intros H. tx_inv. cbn.
  match goal with Hx : negb (_ && _) = true |- _ => apply negb_true_iff, andb_false_iff in Hx; rename Hx into H1 end.
  eapply (pt_handed _ _ _ ticket); [| | |constructor].
  - intros r Hr (Hs & _ & _)%claimed_sending. by repeat split.
  - intros r r' (_ & -> & _)%claimed_sending (_ & -> & _)%claimed_sending. done.
  - intros r r' Hr Hp Hr' Hne Ht. destruct (claimed_sending _ _ Hp) as (_ & Hid & _).
    destruct H1 as [Hx|Hx]; [by rewrite (proj1 (exists_row_false _ _) Hx r Hr) in Hp|].
    apply (proj1 (exists_row_false _ _)) with (r := r') in Hx; [|done]. rewrite Ht, <- Hid, (eqb_neq _ _ Hne), eqb_refl in Hx. done.
Qed.
Lemma send_failed_turns c retryable now s (u : unit) s' : send_failed c retryable now s = Ok (u, s') → push_turns (nd_deliveries s) [] (nd_deliveries s').
Proof.
  unfold send_failed, write_deliveries. intros H. tx_inv. cbn. apply turns_life. intros r Hr (Hs & Hid & Ha)%claimed_sending.
  apply life_refused; [done| |by repeat split..]. cbn. destruct (retryable && _) eqn:E; [|by left]. right. bools. split; [done|lia].
Qed.
Lemma receipt_turns d delivered invalid now s (u : unit) s' : receipt d delivered invalid now s = Ok (u, s') → push_turns (nd_deliveries s) [] (nd_deliveries s').
Proof.
  assert (∀ t, push_turns t [] (update (λ r, (dl_id r == dl_id d) && (dl_state r == ds_pending)) (λ r, r <| dl_state := (if delivered then ds_delivered else ds_failed) |>
    <| dl_error := (if delivered then None else Some "receipt_rejected") |> <| dl_updated := now |>) t)) as Hs.
  { intros t. apply turns_life. intros r Hr Hp. bools. apply life_settled; [done| |by repeat split..]. unfold settled. cbn. destruct delivered; auto. }
  unfold Push.receipt, write_deliveries. intros H. tx_inv; try apply Hs. cbn. destruct delivered, invalid; apply Hs.
Qed.
Lemma polls_turns now rows t : push_ok t → (∀ row, row ∈ rows → ∃ r, r ∈ t ∧ dl_id r = dl_id row ∧ dl_state r = ds_pending) →
  push_turns t [] (fold_left (λ t row, update (λ r, dl_id r == dl_id row)
    (λ r, r <| dl_next := now + poll_delay (dl_poll_attempts row) |> <| dl_poll_attempts ::= Z.add 1 |> <| dl_updated := now |>) t) rows t).
Proof.
  revert t. induction rows as [|row rows IH]; intros t Hok Hp; [constructor|]. cbn [fold_left]. destruct (Hp row ltac:(by left)) as (r & Hr & Hid & Hs).
  set (f := λ r : delivery, r <| dl_next := _ |> <| dl_poll_attempts ::= _ |> <| dl_updated := _ |>). assert (push_turns t [] (update (with_id (dl_id row)) f t)) as Ht.
  { eapply life_by_id; [done..|]. apply life_polled; [done|done|cbn; lia|by repeat split..]. }
  apply (turns_trans _ [] (update (with_id (dl_id row)) f t) []); [exact Ht|]. apply IH; [by eapply turns_ok|].
  intros row' Hrow'. destruct (Hp row' ltac:(by right)) as (r' & Hr' & Hid' & Hs').
  exists (if with_id (dl_id row) r' then f r' else r'). split; [by apply update_in|]. by destruct (with_id _ r').
Qed.
Definition expire_receipts now t : list delivery := update (λ r, (dl_state r == ds_pending) && (dl_expires r <=? now))
  (λ r, r <| dl_state := ds_expired |> <| dl_error := Some "receipt_expired" |> <| dl_updated := now |>) t.
Lemma due_pending now t row : row ∈ due now t → row ∈ t ∧ dl_state row = ds_pending.
Proof.
  unfold due. intros (i & Hi & _)%elem_of_take. apply list_elem_of_lookup_2, elem_of_order_by, elem_of_select in Hi as [Hr Hp]. by bools.
Qed.
Lemma claim_receipts_turns now s rows s' : push_ok (nd_deliveries s) → claim_receipts now s = Ok (rows, s') → push_turns (nd_deliveries s) [] (nd_deliveries s').
Proof.
  intros Hok H. unfold claim_receipts, write_deliveries in H. tx_inv. cbn. change (update _ _ (nd_deliveries ?x)) with (expire_receipts now (nd_deliveries x)).
  assert (∀ t, push_turns t [] (expire_receipts now t)) as H1.
  { intros t. apply turns_life. intros r Hr Hp. bools. apply life_settled; [done|by right; right|by repeat split..]. }
  eapply (turns_trans _ [] _ []); [apply H1|]. apply polls_turns; [by eapply turns_ok|].
  intros row [Hr Hp]%due_pending. by exists row.
Qed.

(** ** Runs *)

(** The operations that touch the tables, and what other components do to the
    grants. *)
Inductive push_op :=
| PClaim (user item fingerprint token : string) (owner_test : bool) (now : Z)
| PAccepted (claim : delivery) (ticket : string) (now : Z)
| PFailed (claim : delivery) (retryable : bool) (now : Z)
| PPoll (now : Z)
| PReceipt (d : delivery) (delivered invalid : bool) (now : Z)
| PRegister (user token platform : string) (timezone : option Z) (now : Z)
| PRevoke (user : string) (token : option string) (now : Z)
| PPreferences (user : string) (enabled : bool) (quiet_start quiet_end : option Z) (mode : string) (now : Z)
| PReconcile (user : string) (now : Z) (foreground : bool) (current : list (string * Notifications.item)) (existing : list attention_state)
| PDelivered (user : string) (ids : list string)
| PAcknowledge (user : string) (ids : list string)
| PGrants (grants : list grant).
Definition quietly {A} (m : ptx A) s : notification_db * list delivery := ((commit m s).2, []).
(** The state after an operation, and the claim it hands out. *)
Definition push_step (op : push_op) s : notification_db * list delivery :=
  match op with
  | PClaim user item fingerprint token owner_test now =>
      match commit (claim_send user item fingerprint token owner_test now) s with (Ok o, s') => (s', claims_of o) | (Err _, s') => (s', []) end
  | PAccepted claim ticket now => quietly (accepted claim ticket now) s
  | PFailed claim retryable now => quietly (send_failed claim retryable now) s
  | PPoll now => quietly (claim_receipts now) s
  | PReceipt d delivered invalid now => quietly (receipt d delivered invalid now) s
  | PRegister user token platform timezone now => quietly (register_push_token user token platform timezone now) s
  | PRevoke user token now => quietly (revoke_push_token user token now) s
  | PPreferences user enabled quiet_start quiet_end mode now => quietly (update_notification_preferences user enabled quiet_start quiet_end mode now) s
  | PReconcile user now foreground current existing => quietly (reconcile_writes sha256_hex compact user now foreground current existing) s
  | PDelivered user ids => quietly (mark_notification_events_delivered user ids) s
  | PAcknowledge user ids => quietly (acknowledge_notification_events user ids) s
  | PGrants grants => (s <| nd_grants := grants |>, [])
  end.
Fixpoint push_run (ops : list push_op) s : notification_db * list delivery :=
  match ops with
  | [] => (s, [])
  | op :: ops' => let '(s1, cs) := push_step op s in let '(s2, cs') := push_run ops' s1 in (s2, cs ++ cs')
  end.
Definition push_after ops : notification_db := (push_run ops empty_notifications).1.
Definition claims_in ops : list delivery := (push_run ops empty_notifications).2.

Lemma quietly_turns {A} (m : ptx A) s : (∀ a s', m s = Ok (a, s') → push_turns (nd_deliveries s) [] (nd_deliveries s')) →
  push_turns (nd_deliveries s) (quietly m s).2 (nd_deliveries (quietly m s).1).
Proof. intros H. unfold quietly. destruct (commit_cases m s) as [(a & s' & E & ->)|(e & E & ->)]; [by eapply H|constructor]. Qed.
Lemma quietly_same {A} (m : ptx A) s : (∀ a s', m s = Ok (a, s') → nd_deliveries s' = nd_deliveries s) →
  push_turns (nd_deliveries s) (quietly m s).2 (nd_deliveries (quietly m s).1).
Proof. intros H. apply quietly_turns. intros a s' E. rewrite (H a s' E). constructor. Qed.
Lemma push_step_turns op s : push_ok (nd_deliveries s) → push_turns (nd_deliveries s) (push_step op s).2 (nd_deliveries (push_step op s).1).
Proof.
  intros Hok. destruct op; cbn [push_step].
  1: { destruct (commit_cases (claim_send user item fingerprint token owner_test now) s) as [(o & s' & E & ->)|(e & E & ->)]; cbn; [|constructor].
    by eapply claim_send_turns. }
  1-4: apply quietly_turns; intros a s' E; first [by eapply accepted_turns|by eapply send_failed_turns|by eapply claim_receipts_turns|by eapply receipt_turns].
  1-6: apply quietly_same; intros a s' E; revert E; unfold register_push_token, revoke_push_token, update_notification_preferences, reconcile_writes,
    mark_notification_events_delivered, acknowledge_notification_events; intros E; tx_inv; try done; by destruct (exists_row _ _).
  constructor.
Qed.

Lemma push_run_turns ops s : push_ok (nd_deliveries s) → push_turns (nd_deliveries s) (push_run ops s).2 (nd_deliveries (push_run ops s).1).
Proof.
  revert s. induction ops as [|op ops IH]; intros s Hok; cbn [push_run]; [constructor|]. pose proof (push_step_turns op s Hok) as Hs.
  destruct (push_step op s) as [s1 cs]. cbn in Hs. specialize (IH s1 ltac:(by eapply turns_ok)). destruct (push_run ops s1) as [s2 cs'].
  by eapply turns_trans.
Qed.
Lemma push_run_app ops ops' s : push_run (ops ++ ops') s =
  let '(s1, cs) := push_run ops s in let '(s2, cs') := push_run ops' s1 in (s2, cs ++ cs').
Proof.
  revert s. induction ops as [|op ops IH]; intros s; cbn [push_run app]; [by destruct (push_run ops' s)|].
  destruct (push_step op s) as [s1 cs]. rewrite IH. destruct (push_run ops s1) as [s2 cs2], (push_run ops' s2) as [s3 cs3]. by rewrite app_assoc.
Qed.
Lemma empty_ok : push_ok [].
Proof. split; [constructor|constructor|by intros ? ? ? ?%elem_of_nil]. Qed.
Lemma push_after_ok ops : push_ok (nd_deliveries (push_after ops)).
Proof. eapply turns_ok; [apply (push_run_turns ops empty_notifications), empty_ok|apply empty_ok]. Qed.

(** ** What turns do to one delivery *)

(** The number of sends so far. *)
Definition sends (id : string) t : Z := match fetchone (with_id id) t with Some r => dl_send_attempts r | None => 0 end.
Definition of_id (id : string) (cs : list delivery) : list Z := map dl_send_attempts (select (with_id id) cs).

Lemma sends_same id p f t : (∀ r, r ∈ t → p r = true → dl_id (f r) = dl_id r ∧ (dl_id r = id → dl_send_attempts (f r) = dl_send_attempts r)) →
  sends id (update p f t) = sends id t.
Proof.
  intros Hf. unfold sends. induction t as [|x t IH]; [done|]. cbn [update map fetchone List.find]. change (List.find (with_id id)) with (fetchone (with_id id)).
  specialize (IH ltac:(intros r Hr; apply Hf; by right)). destruct (p x) eqn:Ex; [|by destruct (with_id id x)].
  destruct (Hf x ltac:(by left) Ex) as [Hi Ha]. unfold with_id at 1 3. rewrite Hi. case_bool_decide; [by apply Ha|exact IH].
Qed.
Lemma sends_resent id r f t : push_ok t → r ∈ t → resent r (f r) →
  sends id (update (with_id (dl_id r)) f t) = sends id t + (if dl_id r == id then 1 else 0) ∧ (dl_id r = id → dl_send_attempts (f r) = sends id t + 1).
Proof.
  intros Hok Hr Hre. destruct Hre as (_ & _ & Ha & _ & _ & Hid & _). case_bool_decide as E.
  - subst id. unfold sends. rewrite (fetch_updated _ f t r), Ha by done. assert (fetchone (with_id (dl_id r)) t = Some r) as ->; [|lia].
    eapply (fetchone_unique dl_id); [apply (po_keyed _ Hok)|done|by apply bool_decide_true|]. intros x Hx. unfold with_id in Hx. by bools.
  - split; [|done]. rewrite Z.add_0_r. apply sends_same. intros x Hx Hx'. rewrite (keyed_one t (dl_id r) r x) by done. done.
Qed.
Lemma sends_first id r t rows : insert delivery_clash r t = Some rows → first_send r →
  sends id rows = sends id t + (if dl_id r == id then 1 else 0) ∧ (dl_id r = id → dl_send_attempts r = sends id t + 1).
Proof.
  intros [-> Hfree]%insert_some (_ & Ha & _). unfold sends. rewrite fetchone_app. case_bool_decide as E.
  - assert (fetchone (with_id id) t = None) as ->.
    { apply fetchone_all_false. intros x Hx. specialize (Hfree x Hx). unfold delivery_clash in Hfree. unfold with_id. bools. apply eqb_neq. congruence. }
    unfold with_id. rewrite (bool_decide_true _ E), Ha. lia.
  - unfold with_id at 2. rewrite (bool_decide_false _ E). split; [|done]. destruct (fetchone (with_id id) t); lia.
Qed.
Lemma of_id_cons id c cs a n : (dl_id c = id → dl_send_attempts c = a + 1) → of_id id cs = seqZ (a + (if dl_id c == id then 1 else 0) + 1) (n - (a + (if dl_id c == id then 1 else 0))) →
  a + (if dl_id c == id then 1 else 0) ≤ n → of_id id (c :: cs) = seqZ (a + 1) (n - a).
Proof.
  intros Hc Hcs Hle. unfold of_id in *. cbn [select List.filter]. unfold with_id at 1. case_bool_decide as E.
  - cbn [map]. unfold select in Hcs. rewrite Hcs, Hc, (seqZ_cons (a + 1)) by (done || lia). f_equal. f_equal; lia.
  - rewrite !Z.add_0_r in Hcs. exact Hcs.
Qed.
Lemma turns_sends id t cs t' : push_turns t cs t' → push_ok t → of_id id cs = seqZ (sends id t + 1) (sends id t' - sends id t) ∧ sends id t ≤ sends id t'.
Proof.
  induction 1 as [t|t p f cs t' Hl _ IH|t p f k cs t' Hh Hone Hfree _ IH|t r f cs t' Hr Hre Ht IH|t r rows cs t' Hf Hi Ht IH]; intros Hok.
  - by rewrite Z.sub_diag.
  - rewrite <- (sends_same id p f t) in * by (intros r Hin Hp; destruct (life_same _ _ (Hl r Hin Hp)) as [(? & _) [? _]]; done).
    apply IH. by apply (turns_ok _ [] _ (turns_life t p f Hl)).
  - rewrite <- (sends_same id p f t) in * by (intros r Hin Hp; destruct (Hh r Hin Hp) as (_ & _ & _ & ? & ? & _); done).
    apply IH. by eapply handed_update_ok.
  - destruct (sends_resent id r f t Hok Hr Hre) as [Hs Ha]. rewrite Hs in IH. destruct IH as [IH Hle].
    { eapply turns_ok; [|exact Hok]. eapply pt_resent; [done..|constructor]. }
    assert (dl_id (f r) = dl_id r) as Hid by apply Hre. split; [|case_bool_decide; lia]. apply of_id_cons; by rewrite Hid.
  - destruct (sends_first id r t rows Hi Hf) as [Hs Ha]. rewrite Hs in IH. destruct IH as [IH Hle]; [by eapply first_ok|].
    split; [|case_bool_decide; lia]. by apply of_id_cons.
Qed.

(** A settled delivery never changes again. *)
Lemma turns_settled t cs t' r : push_turns t cs t' → push_ok t → r ∈ t → settled r → r ∈ t'.
Proof.
  intros Ht Hok Hr Hs. induction Ht as [t|t p f cs t' Hl _ IH|t p f k cs t' Hh Hone Hfree _ IH|t r' f cs t' Hr' Hre Ht IH|t r' rows cs t' Hf Hi Ht IH]; [done|apply IH..].
  - by apply (turns_ok _ [] _ (turns_life t p f Hl)).
  - apply elem_of_update. exists r. split; [done|]. destruct (p r) eqn:E; [|done]. by destruct (life_open _ _ (Hl r Hr E)).
  - by eapply handed_update_ok.
  - apply elem_of_update. exists r. split; [done|]. destruct (p r) eqn:E; [|done]. destruct (Hh r Hr E) as (Hx & _). states.
  - eapply turns_ok; [|exact Hok]. by eapply (pt_resent _ r' f); [..|constructor].
  - apply elem_of_update. exists r. split; [done|]. destruct (with_id _ r) eqn:E; [|done].
    assert (r = r') as -> by (by apply (keyed_one t (dl_id r') r' r)). destruct Hre as (Hx & _). states.
  - by eapply first_ok.
  - apply insert_some in Hi as [-> _]. apply elem_of_app. by left.
Qed.

Lemma sends_range id t : push_ok t → 0 ≤ sends id t ≤ MAX_SENDS.
Proof.
  intros Hok. unfold sends. destruct (fetchone (with_id id) t) as [r|] eqn:E; [|by unfold MAX_SENDS]. apply fetchone_some in E as [Hr _].
  pose proof (proj1 (Forall_forall _ _) (po_rows _ Hok) r Hr) as [Ha _ _]. lia.
Qed.
Lemma claims_numbered ops id : of_id id (claims_in ops) = seqZ 1 (sends id (nd_deliveries (push_after ops))).
Proof.
  pose proof (turns_sends id _ _ _ (push_run_turns ops empty_notifications empty_ok) empty_ok) as [H _].
  unfold claims_in, push_after. rewrite H. cbn. by rewrite Z.sub_0_r.
Qed.

(** ** The claims *)

(** C30. A push is claimed for sending at most three times: in any run of
    the store from empty, with reports of any senders, receipts, changes of
    devices and reconciliations in any order, the claims handed out for one
    item, fingerprint and device of a user carry the send numbers 1, 2, 3 in
    this order, none of them twice, and there is no fourth. *)
Theorem sends_bounded ops user item fingerprint token :
  ∃ n, 0 ≤ n ≤ MAX_SENDS ∧
    map dl_send_attempts (select (λ c, dl_id c == delivery_identity sha256_hex user item fingerprint (token_digest sha256_hex token)) (claims_in ops)) = seqZ 1 n.
Proof.
  exists (sends (delivery_identity sha256_hex user item fingerprint (token_digest sha256_hex token)) (nd_deliveries (push_after ops))).
  split; [apply sends_range, push_after_ok|apply claims_numbered].
Qed.

(** What became of a push is settled once: a delivered, failed or expired
    delivery is the same row after anything that happens later. Reports of
    senders, receipts that come late or twice, and further claims of the same
    push do not change it. *)
Theorem settled_stays ops ops' r : r ∈ nd_deliveries (push_after ops) → settled r → r ∈ nd_deliveries (push_after (ops ++ ops')).
Proof.
  intros Hr Hs. unfold push_after in *. rewrite push_run_app. destruct (push_run ops empty_notifications) as [s1 cs] eqn:E.
  pose proof (push_after_ok ops) as Hok. unfold push_after in Hok. rewrite E in Hok. cbn in Hr, Hok.
  pose proof (push_run_turns ops' s1 Hok) as Ht. destruct (push_run ops' s1) as [s2 cs']. by eapply turns_settled.
Qed.

(** A report writes only a row that still carries its number. *)
Lemma write_nothing p f s : exists_row p (nd_deliveries s) = false → (commit (write_deliveries p f) s).2 = s.
Proof.
  intros Hn. assert (update p f (nd_deliveries s) = nd_deliveries s) as E.
  { apply update_id. intros r Hr Hp. by rewrite (proj1 (exists_row_false _ _) Hn r Hr) in Hp. }
  destruct s as [t devices states prefs grants]. change (Build_notification_db (update p f t) devices states prefs grants = Build_notification_db t devices states prefs grants).
  f_equal. exact E.
Qed.
Lemma failed_writes c retryable now s : (commit (send_failed c retryable now) s).2 ≠ s → exists_row (claimed_by c) (nd_deliveries s) = true.
Proof. intros H. destruct (exists_row _ _) eqn:E; [done|]. destruct H. by apply write_nothing. Qed.
Lemma accepted_writes c ticket now s : (commit (accepted c ticket now) s).2 ≠ s → exists_row (claimed_by c) (nd_deliveries s) = true.
Proof.
  intros H. destruct (exists_row _ _) eqn:E; [done|]. destruct H. unfold accepted, commit, mbind, tx_bind, read, require, lift, ensure. rewrite E. cbn.
  by apply (write_nothing _ (λ r, r <| dl_state := ds_pending |> <| dl_ticket := Some ticket |> <| dl_next := now + RECEIPT_DELAY |>
    <| dl_updated := now |> <| dl_error := None |>)) in E.
Qed.
Lemma last_numbered (l : list delivery) c : map dl_send_attempts l = seqZ 1 (dl_send_attempts c) → c ∈ l → last l = Some c.
Proof.
  intros Hl [k Hk]%list_elem_of_lookup_1. pose proof (f_equal (λ x, x !! k) Hl) as E. cbn in E. rewrite list_lookup_fmap, Hk in E. cbn in E.
  symmetry in E. apply lookup_seqZ in E as [E Hlt]. apply (f_equal length) in Hl. rewrite length_map, length_seqZ in Hl.
  rewrite last_lookup. rewrite <- Hk. f_equal. lia.
Qed.

(** C31. Only the newest claim of a push can report on it: when the report of a
    claim the store once handed out (that a ticket was accepted, or that
    sending failed) changes anything, no later claim of the same push has been
    handed out since. A sender whose lease ran out reports into the void. *)
Theorem newest_claim_reports ops c ticket retryable now : c ∈ claims_in ops →
  (commit (accepted c ticket now) (push_after ops)).2 ≠ push_after ops ∨ (commit (send_failed c retryable now) (push_after ops)).2 ≠ push_after ops →
  last (select (λ x, dl_id x == dl_id c) (claims_in ops)) = Some c.
Proof.
  intros Hc Hw. assert (exists_row (claimed_by c) (nd_deliveries (push_after ops)) = true) as (r & Hr & Hp)%exists_row_spec
    by (destruct Hw; [by eapply accepted_writes|by eapply failed_writes]).
  destruct (claimed_sending _ _ Hp) as (_ & Hid & Ha). apply last_numbered.
  - pose proof (claims_numbered ops (dl_id c)) as Hn. unfold of_id, with_id in Hn. rewrite Hn. f_equal. unfold sends.
    assert (fetchone (with_id (dl_id c)) (nd_deliveries (push_after ops)) = Some r) as ->; [|done].
    eapply (fetchone_unique dl_id); [apply (po_keyed _ (push_after_ok ops))|done|by apply bool_decide_true|]. intros x Hx. unfold with_id in Hx. bools. congruence.
  - apply elem_of_select. split; [done|]. apply eqb_refl.
Qed.

(** A user has one device. *)
Definition one_device s : Prop := NoDup (map dv_user (nd_devices s)).
Lemma one_device_update p f s : (∀ x, dv_user (f x) = dv_user x) → one_device s → one_device (s <| nd_devices ::= update p f |>).
Proof. unfold one_device. cbn [nd_devices set_field]. intros Hf. change (nd_devices (s <| nd_devices ::= update p f |>)) with (update p f (nd_devices s)). by rewrite map_update. Qed.
Lemma quietly_keeps {A} (P : notification_db → Prop) (m : ptx A) s : P s → (∀ a s', m s = Ok (a, s') → P s') → P (quietly m s).1.
Proof. intros Hs H. unfold quietly. destruct (commit_cases m s) as [(a & s' & E & ->)|(e & E & ->)]; [by eapply H|done]. Qed.
Lemma register_keeps user token platform timezone now s (u : unit) s' : register_push_token user token platform timezone now s = Ok (u, s') → one_device s → one_device s'.
Proof.
  unfold register_push_token. intros H Hs. tx_inv. destruct (exists_row _ _) eqn:E; unfold one_device.
  - change (NoDup (map dv_user (update (λ p, dv_user p == user) (λ _, Build_device user a (strip (sql_lower (if platform == "" then "ios" else platform))) now None timezone)
      (nd_devices s2)))). rewrite map_update_in; [done|]. intros x _ Hx. by bools.
  - change (NoDup (map dv_user (nd_devices s2 ++ [Build_device user a (strip (sql_lower (if platform == "" then "ios" else platform))) now None timezone]))).
    rewrite map_app. apply NoDup_app. split_and!; [done| |apply NoDup_singleton]. intros x (y & -> & Hy)%list_elem_of_fmap Hx%list_elem_of_singleton.
    pose proof (proj1 (exists_row_false _ _) E y Hy) as Hne. cbn in Hne. bools. done.
Qed.
Lemma same_devices s s' : nd_devices s' = nd_devices s → one_device s → one_device s'.
Proof. unfold one_device. by intros ->. Qed.
Lemma one_device_step op s : one_device s → one_device (push_step op s).1.
Proof.
  intros Hs. destruct op; cbn [push_step].
  1: { destruct (commit_cases (claim_send user item fingerprint token owner_test now) s) as [(o & s' & E & ->)|(e & E & ->)]; [|done].
    unfold Push.claim_send, write_deliveries in E. tx_inv; by (eapply same_devices; [|exact Hs]). }
  5: { apply quietly_keeps; [done|]. intros [] s' E. by eapply register_keeps. }
  all: try (apply (quietly_keeps one_device); [done|]; intros a s' E; revert E; unfold accepted, send_failed, claim_receipts, write_deliveries, update_notification_preferences,
    reconcile_writes, mark_notification_events_delivered, acknowledge_notification_events; intros E; tx_inv; try done; by destruct (exists_row _ _)).
  - apply (quietly_keeps one_device); [done|]. intros [] s' E. unfold Push.receipt, write_deliveries in E. tx_inv; try done.
    destruct delivered, invalid; try done; by apply one_device_update.
  - apply (quietly_keeps one_device); [done|]. intros [] s' E. unfold revoke_push_token in E. tx_inv; by apply one_device_update.
  - done.
Qed.
Lemma one_device_after ops : one_device (push_after ops).
Proof.
  unfold push_after. assert (∀ s, one_device s → one_device (push_run ops s).1) as H; [|apply H; constructor].
  induction ops as [|op ops IH]; intros s Hs; cbn [push_run]; [done|]. pose proof (one_device_step op s Hs) as Hs1.
  destruct (push_step op s) as [s1 cs]. specialize (IH s1 Hs1). by destruct (push_run ops s1).
Qed.

(** What a receipt does to the tables it does not own. *)
Definition sent_to (d : delivery) (p : device) : Prop := live_device (dl_user d) p = true ∧ token_digest sha256_hex (dv_token p) = dl_token_sha256 d.
Definition announced (d : delivery) (a : attention_state) : Prop :=
  as_user a = dl_user d ∧ as_item a = dl_item d ∧ as_fingerprint a = dl_fingerprint d ∧ as_active a = true.
Lemma receipt_cases s d delivered invalid now s' (u : unit) : receipt d delivered invalid now s = Ok (u, s') → one_device s →
  nd_devices s' = nd_devices s ∧ nd_states s' = nd_states s ∨
  ∃ c : device, c ∈ nd_devices s ∧ sent_to d c ∧
    nd_devices s' = (if invalid then update (λ p, (dv_user p == dl_user d) && (dv_token p == dv_token c)) (λ p, p <| dv_revoked := Some now |>) (nd_devices s) else nd_devices s) ∧
    nd_states s' = (if delivered then update (λ a, (as_user a == dl_user d) && (as_item a == dl_item d) && (as_fingerprint a == dl_fingerprint d) && as_active a)
      (λ a, a <| as_delivered := true |>) (nd_states s) else nd_states s).
Proof.
  unfold Push.receipt, write_deliveries. intros H Hn. tx_inv; try by left.
  match goal with Hf : fetchone _ _ = Some ?c |- _ => apply fetchone_some in Hf as [Hc Hl]; right; exists c end. bools.
  split; [done|]. split; [done|]. by destruct delivered, invalid.
Qed.

(** C32. A receipt reaches only the device its push was sent to. After any run,
    whatever receipt comes, late or repeated: a device changes only if it is
    the live device of the user of that delivery with the token the push was
    sent to, and the receipt says the token is invalid; an attention state
    changes only if that device is still the live one, the state is active with
    the item and the fingerprint of the push, and the receipt confirms it. A
    device that replaced it is neither revoked nor acknowledged. *)
Theorem receipt_spares_others ops d delivered invalid now s' (u : unit) : receipt d delivered invalid now (push_after ops) = Ok (u, s') →
  (∀ p, p ∈ nd_devices (push_after ops) → p ∉ nd_devices s' → invalid = true ∧ sent_to d p) ∧
  (∀ a, a ∈ nd_states (push_after ops) → a ∉ nd_states s' →
     delivered = true ∧ announced d a ∧ ∃ p, p ∈ nd_devices (push_after ops) ∧ sent_to d p).
Proof.
  intros H. pose proof (one_device_after ops) as Hn. destruct (receipt_cases _ _ _ _ _ _ _ H Hn) as [[-> ->]|(c & Hc & Hs & -> & ->)]; [done|]. split.
  - intros p Hp Hnot. destruct invalid; [|done]. split; [done|]. destruct ((dv_user p == dl_user d) && (dv_token p == dv_token c)) eqn:E.
    + assert (p = c) as ->; [|done]. destruct Hs as [Hl _]. unfold live_device in Hl. bools. eapply (NoDup_key_inj dv_user); [exact Hn|done|done|congruence].
    + destruct Hnot. apply elem_of_update. exists p. by rewrite E.
  - intros a Ha Hnot. destruct delivered; [|done]. split; [done|]. split; [|by exists c].
    destruct ((as_user a == dl_user d) && (as_item a == dl_item d) && (as_fingerprint a == dl_fingerprint d) && as_active a) eqn:E; [by bools|].
    destruct Hnot. apply elem_of_update. exists a. by rewrite E.
Qed.

End Operations.
