(* ===== verification/NotificationTheorems.v ===== *)
(** * What is offered, and what is recorded of it

    Section [Offers]: what a reconciliation offers ([offers_in]) and leaves in
    the table ([offered]), for any items, preferences and hours. Section
    [Programs]: the delivery programs are runs of the store. The sections after
    it follow one push from the answer of the push service ([judge_spec]) over
    its claim ([claim_rows]) and report ([report_answered]) to the rows of a
    dispatch ([recorded], [dispatch_runs]) and of a poll of receipts
    ([receipts_rows]). A sample run closes the file: a question is held back at
    night, offered and pushed in the morning, and its receipt arrives. *)

From stdpp Require Import base option list sorting strings numbers sets.
From Stdlib Require Import ZArith Lia.
From S2P Require Import Prelude Sql Json Text Samples AuthStore Sessions Push Notifications PushTheorems.

Open Scope string_scope.
Open Scope list_scope.
Open Scope Z_scope.

Section Offers.
Context (sha256_hex : string → string) (compact : json → string).
Implicit Types (a : attention_state) (w : list attention_state) (kv : string * item).
Local Abbreviation fingerprint := (_fingerprint sha256_hex compact).
Local Abbreviation changed := (changed sha256_hex compact).
Local Abbreviation is_pending := (is_pending sha256_hex compact).
Local Abbreviation surface := (surface sha256_hex compact).





(** ** Reconciliations *)

Definition existing_of user (s : notification_db) : list attention_state := select (λ a, as_user a == user) (nd_states s).
Definition current_of user items s : list (string * item) := actionable (pr_mode (get_notification_preferences user s)) items.
Definition pending_of user items s : list item := map snd (select (is_pending (existing_of user s)) (current_of user items s)).
Definition admitted user local_hour (s : notification_db) : bool :=
  let p := get_notification_preferences user s in pr_enabled p && negb (_quiet local_hour (pr_quiet_start p) (pr_quiet_end p)).
Definition offers user items local_hour s : list item := if admitted user local_hour s then pending_of user items s else [].
(** Other tasks may do anything but write the attention states and preferences
    of [user]. *)
Definition same_view user (s s' : notification_db) : Prop :=
  existing_of user s' = existing_of user s ∧ get_notification_preferences user s' = get_notification_preferences user s.
#[export] Instance same_view_preorder user : PreOrder (same_view user).
Proof. split; [done|]. intros s1 s2 s3 [A1 A2] [B1 B2]. split; congruence. Qed.
Lemma offers_view user items hour s s' : same_view user s s' → offers user items hour s' = offers user items hour s.
Proof. intros [E1 E2]. unfold offers, admitted, pending_of, current_of. by rewrite E1, E2. Qed.

Section Alongside.
Context (user : string) (others : site → notification_db → notification_db) (others_view : ∀ p s, same_view user s (others p s)).
Local Abbreviation reconcile := (reconcile_notification_events sha256_hex compact others).
Implicit Types (i : item) (items : list item).

(** What a reconciliation returns and leaves. *)
Lemma reconcile_runs items hour now s r s' : reconcile user items false hour now s = (Ok r, s') →
  rc_events r = offers user items hour s ∧ get_notification_preferences user s' = get_notification_preferences user s ∧
  ∃ w, select (λ a, as_user a == user) w = existing_of user s ∧
    nd_states s' = fold_left (surface user now (existing_of user s)) (current_of user items s) (fold_left (retire user now (current_of user items s)) (existing_of user s) w).
Proof.
  intros [= <- <-]. destruct (others_view at_preferences s) as [V1 P1]. set (s1 := others at_preferences s) in *.
  destruct (others_view at_existing s1) as [V2 P2]. set (s2 := others at_existing s1) in *. destruct (others_view at_writes s2) as [V3 P3]. set (s3 := others at_writes s2) in *.
  unfold offers, admitted, pending_of, current_of. cbn. unfold existing_of in *. rewrite P1, V2, V1. split; [done|]. split; [transitivity (get_notification_preferences user s3); [done|congruence]|].
  exists (nd_states s3). split; [congruence|done].
Qed.
End Alongside.

End Offers.

(** ** Programs are runs of the store *)

Section Programs.
Context (sha256_hex : string → string) (compact : json → string) (env : string → option string).
Context (others : site → notification_db → notification_db) (post : nat → nat → posted).
Local Abbreviation step := (push_step sha256_hex compact).
Local Abbreviation run := (push_run sha256_hex compact).
Local Abbreviation elsewhere := (elsewhere others).

Definition reaches (s s' : notification_db) : Prop := ∃ ops, (run ops s).1 = s'.
Definition program {A} (m : pio A) : Prop := ∀ s, reaches s (m s).2.
#[local] Instance reaches_preorder : PreOrder reaches.
Proof.
  split; [by exists []|]. intros s1 s2 s3 [ops <-] [ops' <-]. exists (ops ++ ops'). rewrite push_run_app.
  destruct (run ops s1) as [s2 cs]. cbn. by destruct (run ops' s2).
Qed.
Lemma reaches_step op s : reaches s (step op s).1.
Proof. exists [op]. cbn. by destruct (step op s). Qed.

Context (others_run : ∀ p s, reaches s (others p s)).

Lemma program_ret {A} (x : A) : program (mret x).
Proof. intros s. reflexivity. Qed.
Lemma program_bind {A B} (m : pio A) (f : A → pio B) : program m → (∀ x, program (f x)) → program (m ≫= f).
Proof.
  intros Hm Hf s. specialize (Hm s). unfold mbind, io_bind. destruct (m s) as [[x|e] s1]; [|exact Hm]. cbn in Hm. etransitivity; [exact Hm|apply Hf].
Qed.
Lemma program_step {A} (p : site) (m : ptx A) op : (∀ s, (step op s).1 = (commit m s).2) → program (elsewhere p m).
Proof. intros Hop s. unfold Notifications.elsewhere. rewrite <- Hop. etransitivity; [apply others_run|apply reaches_step]. Qed.
Lemma program_read {A} (p : site) (f : notification_db → A) : program (elsewhere p (read f)).
Proof. intros s. apply others_run. Qed.
Lemma program_pure {A} (r : res push_error A) : program (pure r).
Proof. intros s. reflexivity. Qed.
#[local] Hint Resolve program_ret program_read program_pure : program.
Ltac program := repeat (intros; match goal with
  | |- program (mbind _ _) => apply program_bind
  | |- program (match ?x with _ => _ end) => destruct x
  | |- program (if ?x then _ else _) => destruct x
  | |- program _ => solve [eauto with program]
  end).

Lemma program_claim p user item fingerprint token owner_test now : program (elsewhere p (claim_send sha256_hex user item fingerprint token owner_test now)).
Proof. apply (program_step _ _ (PClaim user item fingerprint token owner_test now)). intros s. cbn. by destruct (commit _ s) as [[o|e] s']. Qed.
Lemma program_failed p c retryable now : program (elsewhere p (send_failed c retryable now)).
Proof. by apply (program_step _ _ (PFailed c retryable now)). Qed.
Lemma program_accepted p c ticket now : program (elsewhere p (accepted c ticket now)).
Proof. by apply (program_step _ _ (PAccepted c ticket now)). Qed.
Lemma program_receipt p d delivered invalid now : program (elsewhere p (receipt sha256_hex d delivered invalid now)).
Proof. by apply (program_step _ _ (PReceipt d delivered invalid now)). Qed.
Lemma program_poll p now : program (elsewhere p (claim_receipts now)).
Proof. by apply (program_step _ _ (PPoll now)). Qed.
Lemma program_revoke p user token now : program (elsewhere p (revoke_push_token user token now)).
Proof. by apply (program_step _ _ (PRevoke user token now)). Qed.
Lemma program_reconcile p user now foreground current existing : program (elsewhere p (reconcile_writes sha256_hex compact user now foreground current existing)).
Proof. by apply (program_step _ _ (PReconcile user now foreground current existing)). Qed.
#[local] Hint Resolve program_claim program_failed program_accepted program_receipt program_poll program_revoke program_reconcile : program.

Lemma program_attempts user token now n attempt left : program (send_attempts others post user token now n attempt left).
Proof. revert attempt. induction left as [|left IH]; intros attempt; cbn [send_attempts]; program. Qed.
#[local] Hint Resolve program_attempts : program.
Lemma program_send user expected attempts now n : program (send_push_notification env others post user expected attempts now n).
Proof. unfold send_push_notification. program. Qed.
Lemma program_report c o now n : program (report others c o now n).
Proof.
  destruct o; unfold report; [program| |program..]. intros s. pose proof (program_accepted (at_report n) c ticket_id now s) as H.
  destruct (elsewhere (at_report n) (accepted c ticket_id now) s) as [[u|[|]] s'] eqn:E; cbn in H |- *; [done|done|].
  etransitivity; [exact H|]. revert s' E H. assert (program (elsewhere (at_recover n) (send_failed c false now);; mret false)) as Hp by program. intros s' _ _. apply Hp.
Qed.
#[local] Hint Resolve program_send program_report : program.
Lemma program_event user token now_ms n e : program (deliver_event sha256_hex compact env others post user token now_ms n e).
Proof. unfold deliver_event, push_event. program. Qed.
#[local] Hint Resolve program_event : program.
Lemma program_deliver user token now_ms n events : program (deliver sha256_hex compact env others post user token now_ms n events).
Proof. revert n. induction events as [|e events IH]; intros n; cbn [deliver]; program. Qed.
Lemma program_reconcile_events user items foreground hour now : program (reconcile_notification_events sha256_hex compact others user items foreground hour now).
Proof. unfold reconcile_notification_events. program. Qed.
Lemma program_settle receipts now n deliveries : program (settle sha256_hex others receipts now n deliveries).
Proof. revert n. induction deliveries as [|d deliveries IH]; intros n; cbn [settle]; program. Qed.
#[local] Hint Resolve program_deliver program_reconcile_events program_settle : program.

(** The programs that deliver notifications (the dispatch of events, the
    poll of receipts, the test an owner asks for) are runs of the store,
    whatever the push service answers or fails to answer and whatever runs of
    the store other tasks commit at each of their steps: every state they
    leave, after an exception too, is one the store reaches by its operations.
    What holds in every run of the store holds during and after them. *)
Theorem delivery_programs_run user items hour now_ms request fetch now s :
  reaches s (dispatch_notification_events sha256_hex compact env others post user items hour now_ms s).2 ∧
  reaches s (reconcile_push_receipts sha256_hex others fetch now s).2 ∧
  reaches s (send_owner_test_notification sha256_hex env others post user request now s).2.
Proof.
  split_and!.
  - revert s. change (program (dispatch_notification_events sha256_hex compact env others post user items hour now_ms)).
    unfold dispatch_notification_events, unread_now. program.
  - revert s. change (program (reconcile_push_receipts sha256_hex others fetch now)). unfold reconcile_push_receipts. program.
  - revert s. change (program (send_owner_test_notification sha256_hex env others post user request now)). unfold send_owner_test_notification. program.
Qed.
End Programs.

(** ** What the push service answered *)

(** A ticket for the push. *)
Definition gave_ticket (p : posted) (ticket : string) : Prop :=
  ∃ code body, p = Posted code body ∧ 200 ≤ code ≤ 299 ∧ ticket_get "status" (ticket_of body) = JStr "ok" ∧ ticket_get "id" (ticket_of body) = JStr ticket ∧ is_ticket ticket = true.
(** The device is gone. *)
Definition unregistered (p : posted) : Prop := ∃ code body, p = Posted code body ∧ ticket_error (ticket_of body) = JStr "DeviceNotRegistered".
(** No answer, or one that may be better later. *)
Definition transient (p : posted) : Prop :=
  p = PostRaised ∨ ∃ code body, p = Posted code body ∧ (500 ≤ code ∨ code = 429) ∧ ticket_error (ticket_of body) ≠ JStr "DeviceNotRegistered".
Definition no_ticket (p : posted) : Prop := ∀ ticket, ¬ gave_ticket p ticket.
Lemma eq_str_spec j s : eq_str j s = true ↔ j = JStr s.
Proof. unfold eq_str. destruct j; try by split. rewrite bool_decide_eq_true. split; [by intros ->|by intros [= ->]]. Qed.
Lemma judge_spec p : match judge 0 p with
  | vd_done (po_accepted _ ticket) => gave_ticket p ticket
  | vd_done (po_error retryable) => retryable = false ∧ ¬ transient p ∧ no_ticket p
  | vd_done _ => False
  | vd_revoke => unregistered p ∧ ¬ transient p ∧ no_ticket p
  | vd_again => transient p ∧ no_ticket p
  end.
Proof.
  destruct p as [|code body]; cbn [judge]; [split; [by left|by intros t (? & ? & ? & _)]|]. unfold is_success.
  assert (¬ (500 ≤ code ∨ code = 429) → ¬ transient (Posted code body)) as Hfinal by (intros Hc [?|(c & b & [= <- <-] & Hx & _)]; done).
  destruct ((200 <=? code) && (code <=? 299) && eq_str (ticket_get "status" (ticket_of body)) "ok") eqn:Eok.
  - apply andb_true_iff in Eok as [Hc Hok%eq_str_spec]. assert (200 ≤ code ≤ 299) as Hcode by lia.
    assert (∀ t, gave_ticket (Posted code body) t → ticket_get "id" (ticket_of body) = JStr t ∧ is_ticket t = true) as Hid by (by intros t (c & b & [= <- <-] & _ & _ & ? & ?)).
    destruct (ticket_get "id" (ticket_of body)) as [| | | |id| |] eqn:Ei; try (split; [done|split; [apply Hfinal; lia|by intros t [? _]%Hid]]).
    destruct (is_ticket id) eqn:Et; [by exists code, body|]. split; [done|]. split; [apply Hfinal; lia|]. intros t [[= <-] ?]%Hid. congruence.
  - assert (no_ticket (Posted code body)) as Hno.
    { intros t (c & b & [= <- <-] & Hc & Hs & _). apply eq_str_spec in Hs. rewrite Hs, andb_true_r in Eok. lia. }
    destruct (eq_str (ticket_error _) _) eqn:Er.
    + apply eq_str_spec in Er. split; [by exists code, body|]. split; [|done]. intros [?|(c & b & [= <- <-] & _ & ?)]; done.
    + destruct ((code <? 500) && negb (code =? 429)) eqn:Ec; [split; [done|]; split; [apply Hfinal; lia|done]|]. split; [|done]. right. exists code, body.
      split; [done|]. split; [lia|]. intros E. apply eq_str_spec in E. congruence.
Qed.

(** ** One event *)

(** The store would hand out a claim of this identity. *)
Definition sendable (k : string) (now : Z) (s : notification_db) : Prop :=
  match fetchone (with_id k) (nd_deliveries s) with
  | None => True
  | Some r => unsent r = true ∧ now < dl_expires r ∧ dl_next r ≤ now ∧ dl_send_attempts r < MAX_SENDS
  end.
Definition others_same k (s s' : notification_db) : Prop := ∀ j, j ≠ k → fetchone (with_id j) (nd_deliveries s') = fetchone (with_id j) (nd_deliveries s).
Lemma update_others k p f t j : (∀ r : delivery, p r = true → dl_id r = k ∧ dl_id (f r) = k) → j ≠ k → fetchone (with_id j) (update p f t) = fetchone (with_id j) t.
Proof.
  intros Hp Hj. rewrite fetchone_update.
  - destruct (fetchone (with_id j) t) as [r|] eqn:E; [|done]. cbn. destruct (p r) eqn:Ep; [|done]. apply fetchone_some in E as [_ E]. unfold with_id in E. bools.
    destruct (Hp r Ep). congruence.
  - intros r Hr. unfold with_id. destruct (Hp r Hr) as [-> ->]. done.
Qed.

Lemma turns_ticket t cs t' ticket : push_turns t cs t' → push_ok t → ∀ r, r ∈ t → dl_ticket r = Some ticket → ∃ r', r' ∈ t' ∧ dl_id r' = dl_id r ∧ dl_ticket r' = Some ticket.
Proof.
  induction 1 as [t|t p f cs t' Hl Ht IH|t p f k cs t' Hh Hone Hfree Ht IH|t x f cs t' Hx Hre Ht IH|t x rows cs t' Hf Hi Ht IH]; intros Hok r Hr Hk; [by exists r|..].
  - destruct (IH ltac:(by eapply (turns_ok _ [] _ (turns_life t p f Hl))) _ (update_in p f t r Hr)) as (r' & Hr' & Hid & Hk').
    { destruct (p r) eqn:E; [|done]. by destruct (life_same _ _ (Hl r Hr E)) as [_ [_ ->]]. }
    exists r'. split; [done|]. split; [|done]. rewrite Hid. destruct (p r) eqn:E; [|done]. apply (life_same _ _ (Hl r Hr E)).
  - destruct (p r) eqn:E.
    { destruct (Hh r Hr E) as (Hs & _). pose proof (proj1 (Forall_forall _ _) (po_rows _ Hok) r Hr) as [_ _ Hn]. rewrite Hn in Hk; [done|]. apply unsent_cases. by left. }
    pose proof (update_in p f t r Hr) as Hin. rewrite E in Hin. apply IH; [by eapply handed_update_ok|done..].
  - assert (push_ok (update (with_id (dl_id x)) f t)) as Hok' by (eapply turns_ok; [|exact Hok]; eapply (pt_resent _ x f); [done..|constructor]).
    destruct (IH Hok' _ (update_in (with_id (dl_id x)) f t r Hr)) as (r' & Hr' & Hid & Hk').
    { destruct (with_id _ r) eqn:E; [|done]. rewrite (keyed_one t _ x r Hok Hx eq_refl Hr E) in Hk |- *. by destruct Hre as (_ & _ & _ & _ & -> & _). }
    exists r'. split; [done|]. split; [|done]. rewrite Hid. destruct (with_id _ r) eqn:E; [|done]. rewrite (keyed_one t _ x r Hok Hx eq_refl Hr E). apply Hre.
  - apply IH; [by eapply first_ok|apply insert_some in Hi as [-> _]; apply elem_of_app; by left|done].
Qed.

Lemma keyed_update k f t r x : push_ok t → r ∈ t → dl_id r = k → x ∈ update (with_id k) f t → x = f r ∨ x ∈ t ∧ dl_id x ≠ k.
Proof.
  intros Hok Hr Hk (y & Hy & ->)%elem_of_update. destruct (with_id k y) eqn:E; [left; by rewrite (keyed_one t k r y)|right]. unfold with_id in E. by bools.
Qed.

Section Claim.
Context (sha256_hex : string → string) (user item fingerprint token : string) (now : Z).
Local Abbreviation k := (delivery_identity sha256_hex user item fingerprint (token_digest sha256_hex token)).
Lemma claim_rows s o s' : push_ok (nd_deliveries s) → claim_send sha256_hex user item fingerprint token false now s = Ok (o, s') →
  nd_devices s' = nd_devices s ∧ nd_grants s' = nd_grants s ∧ others_same k s s' ∧
  match o with
  | Some c => dl_id c = k ∧ dl_state c = ds_sending ∧ sendable k now s ∧ fetchone (with_id k) (nd_deliveries s') = Some c ∧
      ∀ x, x ∈ nd_deliveries s' → x = c ∨ x ∈ nd_deliveries s ∧ dl_id x ≠ k
  | None => ¬ sendable k now s ∧ ∀ x, x ∈ nd_deliveries s' →
      x ∈ nd_deliveries s ∨ dl_id x = k ∧ (dl_state x = ds_expired ∧ dl_expires x ≤ now ∨ dl_state x = ds_failed ∧ MAX_SENDS ≤ dl_send_attempts x)
  end.
Proof.
  intros Hok H. unfold claim_send, write_deliveries in H. fold (with_id k) in H. tx_inv.
  1-4: match goal with Hf : fetchone (with_id k) _ = Some ?r |- _ => rename Hf into Hrow; pose proof Hrow as [Hr Hid]%fetchone_some; unfold with_id in Hid; bools end.
  all: do 2 (split; [done|]).
  1-4: split; [intros j Hj; first [reflexivity|apply (update_others k); [intros x Hx; unfold with_id in Hx; by bools|done]]|].
  - unfold sendable. rewrite Hrow. split; [intros (_ & ? & _); lia|]. intros x [->|[Hx _]]%(keyed_update _ _ _ _ _ Hok Hr Hid); [right|by left]. split; [done|]. by left.
  - unfold sendable. rewrite Hrow. split; [|by left]. intros (Hu & He & Hn & _). rewrite Hu in *. lia.
  - unfold sendable. rewrite Hrow. split; [intros (_ & _ & _ & ?); lia|]. intros x [->|[Hx _]]%(keyed_update _ _ _ _ _ Hok Hr Hid); [right|by left]. split; [done|]. by right.
  - assert (sendable k now s0) as Hsend by (match goal with Hu : unsent _ = true |- _ => rewrite Hu in * end; unfold sendable; rewrite Hrow; split_and!; [done|lia..]). cbn. erewrite fetch_updated by done.
    do 3 (split; [done|]). split; [done|]. by intros x Hx%(keyed_update _ _ _ _ _ Hok Hr Hid).
  - match goal with Hi : insert _ _ _ = Some _ |- _ => apply insert_some in Hi as [-> _] end. unfold sendable. cbn.
    match goal with Hf : fetchone (with_id k) _ = None |- _ => rename Hf into Hnone end. rewrite fetchone_app_none, Hnone by done. cbn. unfold with_id at 1. cbn. rewrite eqb_refl.
    split.
    { intros j Hj. cbn. rewrite fetchone_app. destruct (fetchone (with_id j) _); [done|]. unfold with_id. cbn.
      rewrite eqb_neq; [done|]. by intros <-. }
    do 3 (split; [done|]). split; [unfold with_id; cbn; by rewrite eqb_refl|]. intros x [Hx|Hx%list_elem_of_singleton]%elem_of_app; [right|by left]. split; [done|]. pose proof (fetchone_none _ _ _ Hnone Hx) as Hw. unfold with_id in Hw. by bools.
Qed.
End Claim.

Section Answers.
Context (sha256_hex : string → string) (compact : json → string) (env : string → option string).
Context (others : site → notification_db → notification_db).
(** Other tasks leave the deliveries, devices and grants alone. *)
Definition same_store (s s' : notification_db) : Prop := nd_deliveries s' = nd_deliveries s ∧ nd_devices s' = nd_devices s ∧ nd_grants s' = nd_grants s.
Context (others_store : ∀ p s, same_store s (others p s)).
Context (user token : string) (now : Z).
Definition identity (e : item) : string := delivery_identity sha256_hex user (it_id e) (_fingerprint sha256_hex compact e) (token_digest sha256_hex token).
Definition registered (s : notification_db) : Prop := ∃ d, get_registered_push_token env user now s = Some d ∧ dv_token d = token.
Lemma registered_same s s' : nd_devices s' = nd_devices s → nd_grants s' = nd_grants s → registered s' ↔ registered s.
Proof. unfold registered, get_registered_push_token. by intros -> ->. Qed.
Lemma elsewhere_store {A} p (m : ptx A) s : ∃ s1, same_store s s1 ∧ elsewhere others p m s = commit m s1.
Proof. exists (others p s). split; [apply others_store|done]. Qed.

(** One attempt to send: what it returns agrees with the answer [p]; it skips a
    device that is [gone]. *)
Definition agrees (p : posted) (gone : Prop) (o : push_outcome) : Prop :=
  match o with
  | po_skipped => gone
  | po_accepted _ ticket => gave_ticket p ticket
  | po_error true => transient p ∧ no_ticket p
  | _ => ¬ transient p ∧ no_ticket p
  end.
Lemma send_answered post n s : ∃ o s', send_push_notification env others post user (Some token) 1 now n s = (Ok o, s') ∧
  nd_deliveries s' = nd_deliveries s ∧ nd_grants s' = nd_grants s ∧ (nd_devices s' = nd_devices s ∨ unregistered (post n 0%nat)) ∧
  agrees (post n 0%nat) (¬ registered s) o.
Proof.
  unfold send_push_notification. destruct (elsewhere_store (at_send n) (read (get_registered_push_token env user now)) s) as (s1 & Hs & E).
  unfold mbind at 1, io_bind at 1. rewrite E. cbn. destruct Hs as (D1 & D2 & D3). pose proof (registered_same _ _ D2 D3) as Hreg.
  destruct (get_registered_push_token env user now s1) as [d|] eqn:Ed.
  2:{ exists po_skipped, s1. split_and!; [done..|by left|]. unfold agrees. rewrite <- Hreg. by intros (d & ? & _); congruence. }
  destruct (negb (token == dv_token d)) eqn:Et.
  { exists po_skipped, s1. split_and!; [done..|by left|]. unfold agrees. rewrite <- Hreg. intros (d' & ? & ?). bools. congruence. }
  change (Z.to_nat (1 `max` (MAX_PUSH_ATTEMPTS `min` 1))) with 1%nat. cbn [send_attempts]. change (Z.of_nat 0) with 0.
  pose proof (judge_spec (post n 0%nat)) as Hj. destruct (judge 0 (post n 0%nat)) as [o| |].
  - exists o, s1. split_and!; [done..|by left|]. unfold agrees. destruct o as [| | |[]]; naive_solver.
  - destruct (elsewhere_store (at_post n 0) (revoke_push_token user (Some (dv_token d)) now) s1) as (s2 & (F1 & F2 & F3) & E2).
    assert (∃ s3, commit (revoke_push_token user (Some (dv_token d)) now) s2 = (Ok tt, s3) ∧ nd_deliveries s3 = nd_deliveries s2 ∧ nd_grants s3 = nd_grants s2) as (s3 & E3 & G1 & G3).
    { unfold revoke_push_token. destruct (dv_token d == ""); by eexists. }
    destruct Hj as (Hu & Hj). exists po_revoked, s3. rewrite E3 in E2. erewrite io_bind_ok by exact E2. split; [done|]. do 2 (split; [congruence|]). split; [by right|exact Hj].
  - exists (po_error true), s1. do 3 (split; [done|]). split; [by left|exact Hj].
Qed.

(** The report of it. *)
Lemma failed_answered c retryable p s : ∃ s' f, elsewhere others p (send_failed c retryable now) s = (Ok tt, s') ∧ nd_deliveries s' = update (claimed_by c) f (nd_deliveries s) ∧
  nd_devices s' = nd_devices s ∧ nd_grants s' = nd_grants s ∧ (∀ x, dl_id (f x) = dl_id x ∧ dl_send_attempts (f x) = dl_send_attempts x) ∧
  (∀ x, dl_state (f x) = if retryable && (dl_send_attempts c <? MAX_SENDS) then ds_retry else ds_failed) ∧ push_turns (nd_deliveries s) [] (nd_deliveries s').
Proof.
  destruct (elsewhere_store p (send_failed c retryable now) s) as (s1 & (D1 & D2 & D3) & ->). eexists _, _. split; [reflexivity|].
  pose proof (send_failed_turns c retryable now s1 tt _ eq_refl) as Ht. rewrite D1 in Ht. cbn in Ht |- *. rewrite D1 in Ht |- *. by split_and!.
Qed.
Definition is_retryable (o : push_outcome) : bool := match o with po_error true => true | _ => false end.
Definition reported c o s (ok : bool) s' : Prop := push_turns (nd_deliveries s) [] (nd_deliveries s') ∧ ∃ f, nd_deliveries s' = update (claimed_by c) f (nd_deliveries s) ∧
  nd_devices s' = nd_devices s ∧ nd_grants s' = nd_grants s ∧ (∀ x, dl_id (f x) = dl_id x ∧ dl_send_attempts (f x) = dl_send_attempts x) ∧
  if ok then ∃ a ticket, o = po_accepted a ticket ∧ ∀ x, dl_state (f x) = ds_pending ∧ dl_ticket (f x) = Some ticket
  else (∀ x, dl_state (f x) = if is_retryable o && (dl_send_attempts c <? MAX_SENDS) then ds_retry else ds_failed) ∧
    ∀ a ticket, o = po_accepted a ticket → ∃ y, y ∈ nd_deliveries s ∧ dl_id y ≠ dl_id c ∧ dl_ticket y = Some ticket.
Lemma report_answered c o n s : ∃ ok s', report others c o now n s = (Ok ok, s') ∧ reported c o s ok s'.
Proof.
  assert (∀ p s0, same_store s s0 → (∀ a ticket, o = po_accepted a ticket → ∃ y, y ∈ nd_deliveries s ∧ dl_id y ≠ dl_id c ∧ dl_ticket y = Some ticket) →
    ∃ ok s', (elsewhere others p (send_failed c (is_retryable o) now);; mret false : pio bool) s0 = (Ok ok, s') ∧ reported c o s ok s') as Hfail.
  { intros p s0 (D1 & D2 & D3) Ht. destruct (failed_answered c (is_retryable o) p s0) as (s' & f & E & F1 & F2 & F3 & F4 & F5 & F6).
    exists false, s'. erewrite io_bind_ok by exact E. split; [done|]. split; [congruence|]. exists f. do 3 (split; [congruence|]). by split. }
  destruct o as [|a ticket| |[]]; try by apply Hfail.
  unfold report. destruct (elsewhere_store (at_report n) (accepted c ticket now) s) as (s1 & Hs & E). rewrite E.
  destruct (commit_cases (accepted c ticket now) s1) as [([] & s2 & Ea & ->)|(err & Ea & ->)].
  - pose proof (accepted_turns c ticket now s1 tt s2 Ea) as Ht. destruct Hs as (D1 & D2 & D3). rewrite D1 in Ht. exists true, s2. split; [done|]. split; [exact Ht|].
    unfold accepted, write_deliveries in Ea. tx_inv. eexists. cbn. rewrite D1. split; [reflexivity|]. do 3 (split; [done|]). by exists a, ticket.
  - unfold accepted, mbind, tx_bind, read, require in Ea.
    destruct (exists_row (claimed_by c) (nd_deliveries s1) && exists_row (λ r, negb (dl_id r == dl_id c) && (dl_ticket r == Some ticket)) (nd_deliveries s1)) eqn:Ex; [|done].
    injection Ea as <-. apply Hfail; [done|]. intros ? ? [= <- <-]. apply andb_true_iff in Ex as [_ (y & Hy & Hp)%exists_row_spec]. destruct Hs as (D1 & _). rewrite D1 in Hy. exists y. by bools.
Qed.

(** What a row says of the answer [p] to the push of identity [k]; [gone] where
    the device was gone before. *)
Definition recorded (k : string) (p : posted) (gone : Prop) (rows : list delivery) (x : delivery) : Prop :=
  dl_id x = k ∧
  match dl_state x with
  | ds_pending => ∃ ticket, dl_ticket x = Some ticket ∧ gave_ticket p ticket
  | ds_retry => transient p ∧ dl_send_attempts x < MAX_SENDS
  | ds_failed => MAX_SENDS ≤ dl_send_attempts x ∨ gone ∨ ¬ transient p ∧ ∀ ticket, gave_ticket p ticket → ∃ y, y ∈ rows ∧ dl_id y ≠ k ∧ dl_ticket y = Some ticket
  | ds_expired => dl_expires x ≤ now
  | _ => False
  end.
Lemma gave_final p ticket : gave_ticket p ticket → ¬ transient p.
Proof. intros (c & b & -> & Hc & _) [?|(c' & b' & [= <- <-] & Hc' & _)]; [done|]. lia. Qed.
Lemma gave_one p ticket ticket' : gave_ticket p ticket → gave_ticket p ticket' → ticket' = ticket.
Proof. intros (c & b & -> & _ & _ & H & _) (c' & b' & [= <- <-] & _ & _ & H' & _). congruence. Qed.
(** What the report of a claim writes agrees with the answer. *)
Lemma reported_recorded p (gone : Prop) c o (ok : bool) rows k (x : delivery) : dl_id x = k → dl_send_attempts x = dl_send_attempts c →
  agrees p gone o →
  (if ok then ∃ a ticket, o = po_accepted a ticket ∧ dl_state x = ds_pending ∧ dl_ticket x = Some ticket
   else dl_state x = (if is_retryable o && (dl_send_attempts c <? MAX_SENDS) then ds_retry else ds_failed) ∧
     ∀ a ticket, o = po_accepted a ticket → ∃ y, y ∈ rows ∧ dl_id y ≠ k ∧ dl_ticket y = Some ticket) → recorded k p gone rows x.
Proof.
  intros Hid Hatt Ho Hok. split; [done|]. destruct ok.
  - destruct Hok as (a & ticket & -> & -> & Ht). by exists ticket.
  - destruct Hok as [-> Htaken]. destruct o as [|a ticket| |[]]; cbn [is_retryable andb].
    + by right; left.
    + right; right. split; [by eapply gave_final|]. intros ticket' H'. rewrite (gave_one _ _ _ Ho H'). by eapply Htaken.
    + right; right. destruct Ho as [? Hno]. split; [done|]. by intros ticket ?%Hno.
    + destruct (dl_send_attempts c <? MAX_SENDS) eqn:E; [split; [apply Ho|lia]|left; lia].
    + right; right. destruct Ho as [? Hno]. split; [done|]. by intros ticket ?%Hno.
Qed.
Lemma event_answered post n e s : push_ok (nd_deliveries s) → let (r, s') := push_event sha256_hex compact env others post user token now n e s in
  (∃ cs, push_turns (nd_deliveries s) cs (nd_deliveries s')) ∧ others_same (identity e) s s' ∧ nd_grants s' = nd_grants s ∧
  (nd_devices s' = nd_devices s ∨ unregistered (post n 0%nat)) ∧
  (∀ x, x ∈ nd_deliveries s' → x ∈ nd_deliveries s ∨ recorded (identity e) (post n 0%nat) (¬ registered s) (nd_deliveries s') x) ∧
  match r with
  | Ok er_accepted => ∃ ticket x, gave_ticket (post n 0%nat) ticket ∧ fetchone (with_id (identity e)) (nd_deliveries s') = Some x ∧ dl_state x = ds_pending ∧ dl_ticket x = Some ticket
  | Ok er_claimed_before => ¬ sendable (identity e) now s
  | _ => True
  end.
Proof.
  intros Hok. unfold push_event. destruct (elsewhere_store (at_claim n) (claim_send sha256_hex user (it_id e) (_fingerprint sha256_hex compact e) token false now) s) as (s1 & Hs1 & E1).
  pose proof Hs1 as (D1 & D2 & D3).
  destruct (commit_cases (claim_send sha256_hex user (it_id e) (_fingerprint sha256_hex compact e) token false now) s1) as [(o & s2 & Ec & Ecommit)|(err & _ & Ecommit)]; rewrite Ecommit in E1.
  2:{ erewrite io_bind_err by exact E1. rewrite D1. split_and!; try done; [exists []; constructor|intros j _; by rewrite D1|by left|by left]. }
  erewrite io_bind_ok by exact E1. rewrite <- D1 in Hok. pose proof (claim_send_turns _ _ _ _ _ _ _ _ _ _ Hok Ec) as Ht1.
  apply claim_rows in Ec as (C1 & C2 & Cother & Cc); [|done]. fold (identity e) in Cother, Cc.
  assert (sendable (identity e) now s1 ↔ sendable (identity e) now s) as Hsend by (unfold sendable; by rewrite D1).
  destruct o as [c|].
  2:{ destruct Cc as [Cn Crows]. rewrite <- D1. split_and!; [by eexists|intros j Hj; rewrite (Cother j Hj); by rewrite D1|congruence|left; congruence| |by rewrite <- Hsend].
      intros x [Hx|(Hid & Hx)]%Crows; [by left|right]. split; [done|]. destruct Hx as [[-> ?]|[-> ?]]; [done|by left]. }
  destruct Cc as (Cid & Cst & Cs & Crow & Crows). destruct (send_answered post n s2) as (o & s3 & E3 & S1 & S2 & S3 & So). erewrite io_bind_ok by exact E3.
  destruct (report_answered c o n s3) as (ok & s4 & E4 & Ht2 & f & R1 & R2 & R3 & R4 & R5). erewrite io_bind_ok by exact E4.
  assert (claimed_by c c = true) as Hcc by (unfold claimed_by; by rewrite Cst, Z.eqb_refl, !eqb_refl).
  assert (∀ y, dl_id y ≠ identity e → claimed_by c y = false) as Hne by (intros y Hy; unfold claimed_by; by rewrite Cid, eqb_neq).
  assert (registered s2 ↔ registered s) as Hreg by (apply registered_same; congruence).
  rewrite S1 in R1, Ht2, R5.
  assert (agrees (post n 0%nat) (¬ registered s) o) as So' by (destruct o; [unfold agrees; by rewrite <- Hreg|exact So..]). clear So.
  cbn [mret io_ret]. split_and!.
  - eexists. eapply turns_trans; [|exact Ht2]. rewrite <- D1. exact Ht1.
  - intros j Hj. rewrite R1, <- D1, <- (Cother j Hj). apply (update_others (identity e)); [|done].
    intros x (_ & Hx & _)%claimed_sending. split; [congruence|]. rewrite (proj1 (R4 x)). congruence.
  - congruence.
  - destruct S3 as [S3|S3]; [left|by right]. congruence.
  - intros x Hx. rewrite R1 in Hx. apply elem_of_update in Hx as (y & [->|[Hy Hid]]%Crows & ->).
    + right. rewrite Hcc. destruct (R4 c) as [Fid Fatt]. apply (reported_recorded _ _ c o ok); [congruence|done|done|]. destruct ok.
      * destruct R5 as (a & ticket & Ho & Hf). exists a, ticket. split; [done|apply Hf].
      * destruct R5 as [Hf Htaken]. split; [apply Hf|]. intros a ticket Ho. destruct (Htaken a ticket Ho) as (y & Hy & Hyid & Hyt). exists y. rewrite Cid in Hyid. split; [|done].
        rewrite R1. apply elem_of_update. exists y. split; [done|]. by rewrite Hne.
    + left. rewrite Hne by done. by rewrite <- D1.
  - destruct ok; [|done]. destruct R5 as (a & ticket & -> & Hf). exists ticket, (f c). split; [done|]. split; [|apply Hf]. rewrite R1, fetchone_update, Crow; [cbn; by rewrite Hcc|].
    intros x _. unfold with_id. by rewrite (proj1 (R4 x)).
Qed.
(** An event that the store would not let be sent does not ask the push service. *)
Lemma send_same post post' n s : post' n 0%nat = post n 0%nat →
  send_push_notification env others post' user (Some token) 1 now n s = send_push_notification env others post user (Some token) 1 now n s.
Proof.
  intros Hp. unfold send_push_notification. change (Z.to_nat (1 `max` (MAX_PUSH_ATTEMPTS `min` 1))) with 1%nat. cbn [send_attempts]. by rewrite Hp.
Qed.
Lemma event_same post post' n e s : push_ok (nd_deliveries s) → (sendable (identity e) now s → post' n 0%nat = post n 0%nat) →
  push_event sha256_hex compact env others post' user token now n e s = push_event sha256_hex compact env others post user token now n e s.
Proof.
  intros Hok Hp. unfold push_event. destruct (elsewhere_store (at_claim n) (claim_send sha256_hex user (it_id e) (_fingerprint sha256_hex compact e) token false now) s) as (s1 & (D1 & _) & E1).
  destruct (commit_cases (claim_send sha256_hex user (it_id e) (_fingerprint sha256_hex compact e) token false now) s1) as [(o & s2 & Ec & Ecommit)|(err & _ & Ecommit)]; rewrite Ecommit in E1.
  2:{ by rewrite !(io_bind_err _ _ _ _ _ E1). }
  rewrite !(io_bind_ok _ _ _ _ _ E1). destruct o as [c|]; [|done]. apply claim_rows in Ec as (_ & _ & _ & _ & _ & Hs & _); [|by rewrite D1].
  assert (post' n 0%nat = post n 0%nat) as Heq by (apply Hp; unfold sendable in *; by rewrite <- D1). unfold mbind, io_bind. by rewrite (send_same _ _ _ _ Heq).
Qed.
End Answers.

(** ** All events of a dispatch *)

Section Dispatch.
Context (sha256_hex : string → string) (compact : json → string) (env : string → option string).
Context (others : site → notification_db → notification_db) (others_store : ∀ p s, same_store s (others p s)).
Context (user token : string) (now_ms : Z).
Local Abbreviation now := (now_ms / 1000).
Local Abbreviation identity := (identity sha256_hex compact user token).
Local Abbreviation registered := (registered env user token now).
Local Abbreviation recorded := (recorded now).
Implicit Types (post : nat → nat → posted) (e : item) (events : list item).

(** A notification of a decision is not sent once the decision expired. *)
Definition deliverable e : bool :=
  match _decision_notification (it_decision e) with None => false | Some None => true | Some (Some d) => negb (dn_expires d <=? now_ms) end.
Lemma deliver_event_cases post n e s :
  deliver_event sha256_hex compact env others post user token now_ms n e s =
    if deliverable e then push_event sha256_hex compact env others post user token now n e s
    else (Ok (er_failed (match _decision_notification (it_decision e) with None => fl_invalid | _ => fl_expired end)), s).
Proof. unfold deliver_event, deliverable. destruct (_decision_notification _) as [[d|]|]; [destruct (dn_expires d <=? now_ms)|..]; done. Qed.
Lemma deliver_event_answered post n e s : push_ok (nd_deliveries s) → let (r, s') := deliver_event sha256_hex compact env others post user token now_ms n e s in
  (∃ cs, push_turns (nd_deliveries s) cs (nd_deliveries s')) ∧ others_same (identity e) s s' ∧ nd_grants s' = nd_grants s ∧
  (nd_devices s' = nd_devices s ∨ unregistered (post n 0%nat)) ∧
  (∀ x, x ∈ nd_deliveries s' → x ∈ nd_deliveries s ∨ deliverable e = true ∧ recorded (identity e) (post n 0%nat) (¬ registered s) (nd_deliveries s') x) ∧
  match r with
  | Ok er_accepted => ∃ ticket x, gave_ticket (post n 0%nat) ticket ∧ fetchone (with_id (identity e)) (nd_deliveries s') = Some x ∧ dl_state x = ds_pending ∧ dl_ticket x = Some ticket
  | Ok er_claimed_before => ¬ sendable (identity e) now s
  | _ => True
  end.
Proof.
  intros Hok. rewrite deliver_event_cases. destruct (deliverable e).
  { pose proof (event_answered sha256_hex compact env others others_store user token now post n e s Hok) as Ha. destruct (push_event _ _ _ _ post _ _ _ n e s) as [r s']. naive_solver. }
  split_and!; try done; [exists []; constructor|by left|by left].
Qed.
Lemma deliver_event_same post post' n e s : push_ok (nd_deliveries s) → (deliverable e = true → sendable (identity e) now s → post' n 0%nat = post n 0%nat) →
  deliver_event sha256_hex compact env others post' user token now_ms n e s = deliver_event sha256_hex compact env others post user token now_ms n e s.
Proof. intros Hok Hp. rewrite !deliver_event_cases. destruct (deliverable e); [apply event_same; auto|done]. Qed.
Lemma sendable_others k e s s' : others_same (identity e) s s' → k ≠ identity e → sendable k now s' ↔ sendable k now s.
Proof. intros H Hk. unfold sendable. by rewrite (H k Hk). Qed.

Lemma deliver_same post post' events n s : push_ok (nd_deliveries s) → NoDup (map identity events) →
  (∀ i e, events !! i = Some e → deliverable e = true → sendable (identity e) now s → post' (n + i)%nat 0%nat = post (n + i)%nat 0%nat) →
  deliver sha256_hex compact env others post' user token now_ms n events s = deliver sha256_hex compact env others post user token now_ms n events s.
Proof.
  revert n s. induction events as [|e events IH]; intros n s Hok Hn Hp; [done|]. cbn [deliver]. cbn [map] in Hn. apply NoDup_cons in Hn as [He Hn].
  assert (deliver_event sha256_hex compact env others post' user token now_ms n e s = deliver_event sha256_hex compact env others post user token now_ms n e s) as Heq.
  { apply deliver_event_same; [done|]. intros Hd Hs. rewrite <- (Nat.add_0_r n). by apply (Hp 0%nat e). }
  unfold mbind, io_bind. rewrite Heq. pose proof (deliver_event_answered post n e s Hok) as Ha. destruct (deliver_event _ _ _ _ post _ _ _ n e s) as [[r|err] s']; [|done].
  destruct Ha as ([cs Ht] & Ho & _). rewrite IH; [done|by eapply turns_ok|done|]. intros i e' Hi Hd Hs. rewrite Nat.add_succ_comm. apply (Hp (S i) e' Hi Hd).
  apply (sendable_others _ e s s' Ho); [|exact Hs]. intros E. apply He. rewrite <- E. apply list_elem_of_fmap_2. by eapply list_elem_of_lookup_2.
Qed.
Lemma recorded_more k p (gone gone' : Prop) cs rows rows' x : push_turns rows cs rows' → push_ok rows → (gone → gone') → recorded k p gone rows x → recorded k p gone' rows' x.
Proof.
  intros Ht Hok Hg [Hid Hx]. split; [done|]. destruct (dl_state x); try done. destruct Hx as [?|[?|[Hn Htaken]]]; [by left|by right; left; auto|right; right].
  split; [done|]. intros ticket (y & Hy & Hyid & Hyt)%Htaken. destruct (turns_ticket _ _ _ _ Ht Hok y Hy Hyt) as (y' & Hy' & Hid' & Hyt'). exists y'. by rewrite Hid'.
Qed.
(** The device is registered, or an answer said that it is gone. *)
Definition gone_before post (n : nat) : Prop := ∃ m, (m < n)%nat ∧ unregistered (post m 0%nat).
Lemma deliver_answered post events n s : push_ok (nd_deliveries s) → registered s ∨ gone_before post n →
  let (r, s') := deliver sha256_hex compact env others post user token now_ms n events s in
  (∃ cs, push_turns (nd_deliveries s) cs (nd_deliveries s')) ∧
  (∀ x, x ∈ nd_deliveries s' → x ∈ nd_deliveries s ∨ ∃ i e, events !! i = Some e ∧ deliverable e = true ∧ recorded (identity e) (post (n + i)%nat 0%nat) (gone_before post (n + i)) (nd_deliveries s') x).
Proof.
  revert n s. induction events as [|e events IH]; intros n s Hok Hreg; [split; [exists []; constructor|by left]|]. cbn [deliver]. unfold mbind, io_bind.
  pose proof (deliver_event_answered post n e s Hok) as Ha. destruct (deliver_event _ _ _ _ post _ _ _ n e s) as [[r|err] s1]; destruct Ha as ([cs1 Ht1] & Ho & G1 & D1 & Hrows & _).
  2:{ split; [by eexists|]. intros x [Hx|[Hd Hx]]%Hrows; [by left|right]. exists 0%nat, e. do 2 (split; [done|]). rewrite Nat.add_0_r. eapply recorded_more; [constructor|by eapply turns_ok| |done]. tauto. }
  assert (registered s1 ∨ gone_before post (S n)) as Hreg1.
  { destruct Hreg as [Hreg|(m & Hm & Hu)]; [|right; exists m; split; [lia|done]]. destruct D1 as [D1|Hu]; [left|right; exists n; split; [lia|done]].
    by apply (registered_same _ _ _ _ _ _ D1 G1). }
  specialize (IH (S n) s1 ltac:(by eapply turns_ok) Hreg1). destruct (deliver _ _ _ _ post _ _ _ (S n) events s1) as [[rest|err] s2]; destruct IH as ([cs2 Ht2] & Hrows2).
  all: split; [eexists; eapply turns_trans; [exact Ht1|exact Ht2]|]; intros x [Hx|(i & e' & Hi & Hd & Hx)]%Hrows2; [apply Hrows in Hx as [Hx|[Hd Hx]]; [by left|right]|right].
  all: try (exists (S i), e'; do 2 (split; [done|]); by rewrite <- Nat.add_succ_comm).
  all: exists 0%nat, e; do 2 (split; [done|]); rewrite Nat.add_0_r; eapply recorded_more; [exact Ht2|by eapply turns_ok| |exact Hx]; tauto.
Qed.
Lemma deliver_others post events n s k : push_ok (nd_deliveries s) → k ∉ map identity events →
  fetchone (with_id k) (nd_deliveries (deliver sha256_hex compact env others post user token now_ms n events s).2) = fetchone (with_id k) (nd_deliveries s).
Proof.
  revert n s. induction events as [|e events IH]; intros n s Hok Hk; [done|]. cbn [deliver map] in *. apply not_elem_of_cons in Hk as [Hke Hk]. unfold mbind, io_bind.
  pose proof (deliver_event_answered post n e s Hok) as Ha. destruct (deliver_event _ _ _ _ post _ _ _ n e s) as [[r|err] s1]; destruct Ha as ([cs1 Ht1] & Ho & _); [|by apply Ho].
  specialize (IH (S n) s1 ltac:(by eapply turns_ok) Hk). destruct (deliver _ _ _ _ post _ _ _ (S n) events s1) as [[rest|err] s2]; cbn in IH |- *; rewrite IH; by apply Ho.
Qed.
Lemma deliver_delivered post events n s l s' : push_ok (nd_deliveries s) → NoDup (map identity events) →
  deliver sha256_hex compact env others post user token now_ms n events s = (Ok l, s') → failures_of l = [] → ∀ i e, events !! i = Some e → sendable (identity e) now s →
  ∃ ticket x, gave_ticket (post (n + i)%nat 0%nat) ticket ∧ fetchone (with_id (identity e)) (nd_deliveries s') = Some x ∧ dl_state x = ds_pending ∧ dl_ticket x = Some ticket.
Proof.
  revert n s l. induction events as [|e events IH]; intros n s l Hok Hn H Hl; [by intros i e ?|]. cbn [deliver map] in *. apply NoDup_cons in Hn as [He Hn]. unfold mbind, io_bind in H.
  pose proof (deliver_event_answered post n e s Hok) as Ha. destruct (deliver_event _ _ _ _ post _ _ _ n e s) as [[r|err] s1]; destruct Ha as ([cs1 Ht1] & Ho & _ & _ & _ & Hr); [|done].
  pose proof (deliver_others post events (S n) s1 (identity e) ltac:(by eapply turns_ok) He) as Hlast. specialize (IH (S n) s1).
  destruct (deliver _ _ _ _ post _ _ _ (S n) events s1) as [[rest|err] s2]; [|done]. injection H as <- ->. cbn in Hlast. unfold failures_of in Hl. cbn in Hl.
  destruct r as [| |f]; [..|done]; intros [|i] e' Hi Hs.
  - injection Hi as <-. rewrite Nat.add_0_r. destruct Hr as (ticket & x & Hg & Hx & Hst & Htk). exists ticket, x. by rewrite Hlast.
  - rewrite <- Nat.add_succ_comm. apply (IH rest); [by eapply turns_ok|done|done|done|exact Hi|]. apply (sendable_others _ e s s1 Ho); [|exact Hs].
    intros E. apply He. rewrite <- E. apply list_elem_of_fmap_2. by eapply list_elem_of_lookup_2.
  - injection Hi as <-. by destruct Hr.
  - rewrite <- Nat.add_succ_comm. apply (IH rest); [by eapply turns_ok|done|done|done|exact Hi|]. apply (sendable_others _ e s s1 Ho); [|exact Hs].
    intros E. apply He. rewrite <- E. apply list_elem_of_fmap_2. by eapply list_elem_of_lookup_2.
Qed.
End Dispatch.

(** ** Receipts *)

Section Receipts.
Context (sha256_hex : string → string) (others : site → notification_db → notification_db) (others_store : ∀ p s, same_store s (others p s)) (now : Z).
Implicit Types (fields receipts : dict) (x d : delivery) (ds : list delivery).

(** The receipt of a polled delivery, where the service gave one. *)
Definition receipt_in receipts d : option dict := ticket ← dl_ticket d; match get ticket receipts with JObj fields => Some fields | _ => None end.
Definition status_in receipts d (status : string) : Prop := ∃ fields, receipt_in receipts d = Some fields ∧ get "status" fields = JStr status.
Definition settled_as receipts d x : Prop := dl_state x = ds_delivered ∧ status_in receipts d "ok" ∨ dl_state x = ds_failed ∧ status_in receipts d "error".
Definition open d x : bool := (dl_id x == dl_id d) && (dl_state x == ds_pending).
Lemma receipt_rows d (delivered invalid : bool) p s : ∃ s' f, elsewhere others p (receipt sha256_hex d delivered invalid now) s = (Ok tt, s') ∧
  nd_deliveries s' = update (open d) f (nd_deliveries s) ∧ ∀ x, dl_id (f x) = dl_id x ∧ dl_ticket (f x) = dl_ticket x ∧ dl_state (f x) = if delivered then ds_delivered else ds_failed.
Proof.
  unfold elsewhere. destruct (others_store p s) as (D1 & _). set (s1 := others p s) in *. exists (commit (receipt sha256_hex d delivered invalid now) s1).2.
  eexists. rewrite <- D1. unfold receipt, commit, write_deliveries, mbind, tx_bind, read, modify. cbn -[update]. destruct (_ =? 0); [by split|].
  destruct (fetchone _ _) as [c|]; [|by split]. destruct (_ == _); [|by split]. by destruct invalid, delivered.
Qed.
(** One receipt after another. *)
Definition course receipts (ds : list delivery) x x' : Prop :=
  dl_id x' = dl_id x ∧ dl_ticket x' = dl_ticket x ∧ (dl_state x' = dl_state x ∨ dl_state x = ds_pending ∧ ∃ d, d ∈ ds ∧ dl_id d = dl_id x ∧ settled_as receipts d x').
Lemma settle_step receipts n d ds s : (∃ s1 f (ok : bool), (∀ x, dl_id (f x) = dl_id x ∧ dl_ticket (f x) = dl_ticket x ∧ dl_state (f x) = if ok then ds_delivered else ds_failed) ∧
    nd_deliveries s1 = update (open d) f (nd_deliveries s) ∧ status_in receipts d (if ok then "ok" else "error") ∧
    settle sha256_hex others receipts now n (d :: ds) s = settle sha256_hex others receipts now (S n) ds s1) ∨
  (¬ status_in receipts d "ok" ∧ ¬ status_in receipts d "error" ∧
    (settle sha256_hex others receipts now n (d :: ds) s = settle sha256_hex others receipts now (S n) ds s ∨
     settle sha256_hex others receipts now n (d :: ds) s = (Ok tt, s) ∧ ∃ fields, receipt_in receipts d = Some fields ∧ unhashable (get "status" fields) = true)).
Proof.
  cbn [settle]. assert (receipt_in receipts d = match (match dl_ticket d with Some t => get t receipts | None => JNull end) with JObj fields => Some fields | _ => None end) as Hin
    by (unfold receipt_in; by destruct (dl_ticket d)). destruct (match dl_ticket d with Some t => get t receipts | None => JNull end) as [| | | | | |fields] eqn:Er.
  1-6: right; split_and!; [by intros (? & ? & _); congruence..|by left].
  assert (∀ status, status_in receipts d status ↔ eq_str (get "status" fields) status = true) as Hst.
  { intros status. unfold status_in. rewrite eq_str_spec. split; [intros (? & ? & ?); congruence|]. intros E. by exists fields. }
  cbv zeta. destruct (unhashable (get "status" fields)) eqn:Eu.
  { right. rewrite !Hst. assert (∀ status, eq_str (get "status" fields) status ≠ true) as Hno by (intros status E%eq_str_spec; by rewrite E in Eu).
    split_and!; [apply Hno..|]. right. split; [done|]. by exists fields. }
  rewrite !Hst. unfold in_strs. cbn [existsb]. destruct (eq_str (get "status" fields) "ok") eqn:Eok; [|destruct (eq_str (get "status" fields) "error") eqn:Eerr]; cbn [orb negb].
  3: right; split_and!; [done..|by left].
  all: left; match goal with |- context [receipt _ ?d ?ok ?invalid _] => destruct (receipt_rows d ok invalid (at_report n) s) as (s1 & f & E & Erows & Hf); exists s1, f, ok end.
  all: split; [exact Hf|]; split; [exact Erows|]; split; [by apply Hst|]; by erewrite io_bind_ok by exact E.
Qed.
Lemma settle_rows receipts n ds s x' : x' ∈ nd_deliveries (settle sha256_hex others receipts now n ds s).2 → ∃ x, x ∈ nd_deliveries s ∧ course receipts ds x x'.
Proof.
  revert n s. induction ds as [|d ds IH]; intros n s Hx; [exists x'; split; [done|split_and!; [done..|by left]]|].
  assert (∀ x, course receipts ds x x' → course receipts (d :: ds) x x') as Hmore.
  { intros x (? & ? & [?|(? & y & ? & ?)]); (split_and!; [done..|]); [by left|right]. split; [done|]. exists y. split; [by right|done]. }
  destruct (settle_step receipts n d ds s) as [(s1 & f & ok & Hf & E1 & Hst & E)|(_ & _ & [E|[E _]])]; rewrite E in Hx.
  - apply IH in Hx as (x1 & Hx1 & Hc). rewrite E1 in Hx1. apply elem_of_update in Hx1 as (x & Hin & ->). exists x. split; [done|]. destruct (open d x) eqn:Eo; [|by apply Hmore].
    unfold open in Eo. bools. destruct (Hf x) as (F1 & F2 & F3). destruct Hc as (C1 & C2 & C3). split_and!; [congruence..|right]. split; [done|].
    exists d. split; [by left|]. split; [done|]. destruct C3 as [C3|[C3 _]]; [|rewrite F3 in C3; by destruct ok]. unfold settled_as. rewrite C3, F3. destruct ok; [by left|by right].
  - apply IH in Hx as (x & Hin & Hc). exists x. auto.
  - exists x'. split; [done|]. split_and!; [done..|by left].
Qed.
(** Every polled delivery gets its verdict, unless a receipt ends the round. *)
Lemma settle_settles receipts n ds s d : NoDup (map dl_id ds) → d ∈ ds → (∃ x, x ∈ nd_deliveries s ∧ dl_id x = dl_id d ∧ dl_state x = ds_pending) → status_in receipts d "ok" →
  (∀ y fields, y ∈ ds → receipt_in receipts y = Some fields → unhashable (get "status" fields) = false) →
  ∃ x, x ∈ nd_deliveries (settle sha256_hex others receipts now n ds s).2 ∧ dl_id x = dl_id d ∧ dl_state x = ds_delivered.
Proof.
  intros Hn Hd Hx Hok Hhash. assert (∀ ds n s x, x ∈ nd_deliveries s → dl_state x ≠ ds_pending → x ∈ nd_deliveries (settle sha256_hex others receipts now n ds s).2) as Hstay.
  { clear -others_store. intros ds. induction ds as [|d ds IH]; intros n s x Hx Hst; [done|].
    destruct (settle_step receipts n d ds s) as [(s1 & f & ok & Hf & E1 & _ & ->)|(_ & _ & [->|[-> _]])]; [|by apply IH|done].
    apply IH; [|done]. rewrite E1. apply elem_of_update. exists x. split; [done|]. unfold open. by rewrite (eqb_neq _ _ Hst), andb_false_r. }
  revert n s Hx. induction ds as [|y ds IH]; intros n s (x & Hx & Hid & Hst); [by apply elem_of_nil in Hd|]. cbn [map] in Hn. apply NoDup_cons in Hn as [Hy Hn].
  destruct (settle_step receipts n y ds s) as [(s1 & f & ok & Hf & E1 & Hs & ->)|(Hno & _ & Hcase)].
  - apply elem_of_cons in Hd as [->|Hd].
    + assert (ok = true) as -> by (destruct ok; [done|]; destruct Hok as (? & ? & ?), Hs as (? & ? & ?); congruence). exists (f x). destruct (Hf x) as (F1 & _ & F3).
      split; [|split; [congruence|done]]. apply Hstay; [|by rewrite F3]. rewrite E1. apply elem_of_update. exists x. split; [done|]. unfold open. by rewrite Hid, Hst, !eqb_refl.
    + apply IH; [done|done|intros z fields Hz; apply Hhash; by right|]. exists x. split; [|done]. rewrite E1. apply elem_of_update. exists x. split; [done|].
      unfold open. rewrite eqb_neq; [done|]. rewrite Hid. intros E. apply Hy. rewrite <- E. by apply list_elem_of_fmap_2.
  - apply elem_of_cons in Hd as [->|Hd]; [done|]. destruct Hcase as [->|[_ (fields & Hr & Hu)]]; [|rewrite (Hhash y fields) in Hu; [done|by left|done]].
    apply IH; [done|done|intros z fields Hz; apply Hhash; by right|by exists x].
Qed.
(** The deliveries a poll asks for, and the receipts it is given. *)
Definition polled s : list delivery := due now (expire_receipts now (nd_deliveries s)).
Definition receipts_for (fetch : list (option string) → option json) ds : dict :=
  match fetch (map dl_ticket ds) with Some (JObj payload) => match get "data" payload with JObj receipts => receipts | _ => [] end | _ => [] end.
Lemma polled_open s d : d ∈ polled s → d ∈ nd_deliveries s ∧ dl_state d = ds_pending ∧ dl_next d ≤ now < dl_expires d.
Proof.
  unfold polled, due. intros (i & Hi & _)%elem_of_take. apply list_elem_of_lookup_2, elem_of_order_by, elem_of_select in Hi as [Hr Hp]. unfold expire_receipts in Hr.
  apply elem_of_update in Hr as (y & Hy & ->). destruct ((dl_state y == ds_pending) && (dl_expires y <=? now)) eqn:E; [by bools|]. bools. split; [done|]. split; [done|].
  match goal with Hs : dl_state y = ds_pending |- _ => rewrite Hs, eqb_refl in E end. cbn in E. lia.
Qed.
Lemma polled_keyed s : push_ok (nd_deliveries s) → NoDup (map dl_id (polled s)).
Proof.
  intros Hok. assert (map dl_id (expire_receipts now (nd_deliveries s)) = map dl_id (nd_deliveries s)) as Hids by (by apply map_update).
  assert (NoDup (map dl_id (expire_receipts now (nd_deliveries s)))) as Hn by (rewrite Hids; apply (po_keyed _ Hok)).
  unfold polled, due. rewrite <- firstn_map.
  assert (∀ le t, map dl_id (order_by le t) ≡ₚ map dl_id t) as Hperm by (intros le t; apply Permutation_map, order_by_perm).
  eapply sublist_NoDup; [|apply sublist_take]. rewrite Hperm. by apply NoDup_map_select.
Qed.
Lemma poll_rows s : push_ok (nd_deliveries s) → ∃ s1, elsewhere others (at_claim 0) (claim_receipts now) s = (Ok (polled s), s1) ∧
  map (λ x, (dl_id x, dl_ticket x, dl_state x)) (nd_deliveries s1) = map (λ x, (dl_id x, dl_ticket x, dl_state x)) (expire_receipts now (nd_deliveries s)).
Proof.
  intros Hok. destruct (elsewhere_store others others_store (at_claim 0) (claim_receipts now) s) as (s0 & (D1 & _) & ->). eexists. split; [unfold polled; rewrite <- D1; reflexivity|]. cbn.
  change (update _ _ (nd_deliveries s0)) with (expire_receipts now (nd_deliveries s0)). rewrite D1. generalize (expire_receipts now (nd_deliveries s)). intros t.
  match goal with |- context [fold_left _ ?rows _] => generalize rows end. intros l. revert t. induction l as [|row l IH]; intros t; [done|]. cbn [fold_left]. rewrite IH. by apply map_update.
Qed.
Lemma settle_nothing n ds s : settle sha256_hex others [] now n ds s = (Ok tt, s).
Proof. revert n. induction ds as [|d ds IH]; intros n; [done|]. cbn [settle]. destruct (dl_ticket d); apply IH. Qed.
Lemma receipts_run fetch s : push_ok (nd_deliveries s) → ∃ s1, reconcile_push_receipts sha256_hex others fetch now s = settle sha256_hex others (receipts_for fetch (polled s)) now 0 (polled s) s1 ∧
  map (λ x, (dl_id x, dl_ticket x, dl_state x)) (nd_deliveries s1) = map (λ x, (dl_id x, dl_ticket x, dl_state x)) (expire_receipts now (nd_deliveries s)).
Proof.
  intros Hok. destruct (poll_rows s Hok) as (s1 & E & Hrows). exists s1. split; [|exact Hrows]. unfold reconcile_push_receipts, receipts_for. erewrite io_bind_ok by exact E.
  destruct (polled s) as [|d ds] eqn:Ep; [done|]. destruct (fetch _) as [[| | | | | |payload]|]; try by rewrite settle_nothing. destruct (get "data" payload); by rewrite ?settle_nothing.
Qed.
Lemma same_row {A} (k : delivery → A) t t' x : map k t = map k t' → x ∈ t → ∃ x', x' ∈ t' ∧ k x' = k x.
Proof. intros E Hx. apply (list_elem_of_fmap_2 k) in Hx. change (k <$> t) with (map k t) in Hx. rewrite E in Hx. apply list_elem_of_fmap in Hx as (x' & ? & ?). by exists x'. Qed.
Lemma receipts_rows fetch s x' : push_ok (nd_deliveries s) → x' ∈ nd_deliveries (reconcile_push_receipts sha256_hex others fetch now s).2 →
  ∃ x, x ∈ nd_deliveries s ∧ dl_id x' = dl_id x ∧
    (dl_state x' = dl_state x ∨ dl_state x = ds_pending ∧ (dl_state x' = ds_expired ∧ dl_expires x ≤ now ∨ x ∈ polled s ∧ settled_as (receipts_for fetch (polled s)) x x')).
Proof.
  intros Hok Hx. destruct (receipts_run fetch s Hok) as (s1 & E & Hrows). rewrite E in Hx. apply settle_rows in Hx as (x1 & Hx1 & Hid & Htk & Hst).
  destruct (same_row _ _ _ x1 Hrows Hx1) as (x2 & Hx2 & [= E1 E2 E3]). apply elem_of_update in Hx2 as (x & Hin & ->). exists x. split; [done|].
  assert (∀ d, d ∈ polled s → dl_id d = dl_id x → d = x) as Hone.
  { intros d Hd Heq. apply polled_open in Hd as [Hd _]. by apply (NoDup_key_inj dl_id _ _ _ (po_keyed _ Hok)). }
  destruct ((dl_state x == ds_pending) && (dl_expires x <=? now)) eqn:Ee; cbn in E1, E2, E3.
  - bools. split; [congruence|]. right. split; [done|]. left. split; [|lia]. destruct Hst as [Hst|[Hst _]]; congruence.
  - split; [congruence|]. destruct Hst as [Hst|(Hst & d & Hd & Hdid & Hs)]; [left; congruence|right]. split; [congruence|]. right. rewrite <- (Hone d Hd) by congruence. by split.
Qed.
Lemma receipts_deliver fetch s d : push_ok (nd_deliveries s) → d ∈ polled s → status_in (receipts_for fetch (polled s)) d "ok" →
  (∀ y fields, y ∈ polled s → receipt_in (receipts_for fetch (polled s)) y = Some fields → unhashable (get "status" fields) = false) →
  ∃ x, x ∈ nd_deliveries (reconcile_push_receipts sha256_hex others fetch now s).2 ∧ dl_id x = dl_id d ∧ dl_state x = ds_delivered.
Proof.
  intros Hok Hd Hs Hhash. destruct (receipts_run fetch s Hok) as (s1 & -> & Hrows). apply settle_settles; [by apply polled_keyed|done| |done|done].
  pose proof (polled_open s d Hd) as (Hin & Hst & Hexp).
  assert (d ∈ expire_receipts now (nd_deliveries s)) as Hin'.
  { apply elem_of_update. exists d. split; [done|]. assert ((dl_expires d <=? now) = false) as -> by lia. by rewrite andb_false_r. }
  destruct (same_row _ _ _ d (eq_sym Hrows) Hin') as (x & Hx & [= E1 E2 E3]). exists x. split; [done|]. split; congruence.
Qed.
End Receipts.

(** ** What is recorded *)

Section Records.
Context (sha256_hex : string → string) (compact : json → string) (env : string → option string) (others : site → notification_db → notification_db) (user : string).
(** Other tasks may write what belongs to no push of the user: the attention
    states and preferences of other users. *)
Context (others_aside : ∀ p s, same_store s (others p s) ∧ same_view user s (others p s)).
Local Abbreviation dispatch post := (dispatch_notification_events sha256_hex compact env others post user).

#[local] Instance same_store_preorder : PreOrder same_store.
Proof. split; [done|]. intros s1 s2 s3 (A1 & A2 & A3) (B1 & B2 & B3). split_and!; congruence. Qed.
Lemma others_store p s : same_store s (others p s).
Proof. apply others_aside. Qed.
Lemma reconcile_store items hour now s : ∃ r s', reconcile_notification_events sha256_hex compact others user items false hour now s = (Ok r, s') ∧
  rc_events r = offers sha256_hex compact user items hour s ∧ same_store s s'.
Proof.
  destruct (reconcile_notification_events sha256_hex compact others user items false hour now s) as [r s'] eqn:E. pose proof E as [= <- <-].
  eexists _, _. split; [reflexivity|]. split.
  - eapply reconcile_runs; [|exact E]. intros p s1. apply others_aside.
  - etransitivity; [apply others_store|]. etransitivity; [apply others_store|]. apply (others_store at_writes).
Qed.
Lemma unread_store items s : ∃ l s', unread_now others user items s = (Ok l, s') ∧ same_store s s'.
Proof. eexists _, _. split; [reflexivity|]. etransitivity; [apply (others_store at_preferences)|apply others_store]. Qed.
Lemma registration_store s s' now : same_store s s' → get_registered_push_token env user now s' = get_registered_push_token env user now s.
Proof. unfold get_registered_push_token. by intros (_ & -> & ->). Qed.

(** A dispatch delivers the events of its reconciliation, if a device is there. *)
Lemma dispatch_runs items hour now_ms s : ∃ s3, same_store s s3 ∧
  match get_registered_push_token env user (now_ms / 1000) s, offers sha256_hex compact user items hour s with
  | Some d, (_ :: _) as events => ∃ finish : list (string * event_result) → notification_db → dispatched * notification_db,
      (∀ l s4, di_failures (finish l s4).1 = failures_of l ∧ same_store s4 (finish l s4).2) ∧
      ∀ post, dispatch post items hour now_ms s = match deliver sha256_hex compact env others post user (dv_token d) now_ms 0 events s3 with
        | (Ok l, s4) => (Ok (finish l s4).1, (finish l s4).2) | (Err e, s4) => (Err e, s4) end
  | _, _ => ∃ r, ∀ post, dispatch post items hour now_ms s = (Ok r, s3)
  end.
Proof.
  destruct (reconcile_store items hour (now_ms / 1000) s) as (r & s1 & E1 & He & H1).
  set (s2 := others at_registered s1). assert (same_store s s2) as H2 by (etransitivity; [exact H1|apply others_store]).
  destruct (unread_store items s2) as (unread & s3 & E3 & H3). exists s3. assert (same_store s s3) as Hs3 by (etransitivity; [exact H2|exact H3]). split; [exact Hs3|].
  assert (∀ post, dispatch post items hour now_ms s = match get_registered_push_token env user (now_ms / 1000) s2, rc_events r with
    | None, events => (Ok (Build_dispatched r unread (match events with [] => "none" | _ => "web-or-in-app" end) []), s3)
    | _, [] => (Ok (Build_dispatched r unread "none" []), s3)
    | Some d, events => (results ← deliver sha256_hex compact env others post user (dv_token d) now_ms 0 events;
        unread ← unread_now others user items;
        mret (Build_dispatched r unread (match failures_of results with [] => if existsb was_accepted results then "accepted" else "pending" | _ => "partial" end) (failures_of results))) s3
    end) as Hall.
  { intros post. unfold dispatch_notification_events. erewrite io_bind_ok by exact E1. erewrite io_bind_ok by reflexivity. erewrite io_bind_ok by exact E3.
    fold s2. destruct (get_registered_push_token env user (now_ms / 1000) s2); [|done]. destruct (rc_events r); done. }
  rewrite <- (registration_store _ _ _ H2), <- He. destruct (get_registered_push_token env user (now_ms / 1000) s2) as [d|]; [|by eexists]. destruct (rc_events r) as [|e events]; [by eexists|].
  set (unread_after := λ s4, match unread_now others user items s4 with (Ok l, s5) => (l, s5) | (Err _, s5) => ([], s5) end).
  exists (λ results s4, (Build_dispatched r (unread_after s4).1 (match failures_of results with [] => if existsb was_accepted results then "accepted" else "pending" | _ => "partial" end)
    (failures_of results), (unread_after s4).2)). split.
  - intros l s4. split; [done|]. unfold unread_after. cbn. destruct (unread_store items s4) as (l' & s5 & -> & H5). exact H5.
  - intros post. rewrite Hall. unfold mbind at 1, io_bind at 1. destruct (deliver _ _ _ _ post _ _ _ 0 (e :: events) s3) as [[l|err] s4]; [|done].
    unfold unread_after. destruct (unread_store items s4) as (l' & s5 & E5 & _). erewrite io_bind_ok by exact E5. by rewrite E5.
Qed.
Lemma sendable_store s s' k now : same_store s s' → sendable k now s' ↔ sendable k now s.
Proof. unfold sendable. by intros (-> & _). Qed.
Lemma registered_token s d now token : get_registered_push_token env user now s = Some d → registered env user token now s → token = dv_token d.
Proof. intros Hd (d' & ? & <-). congruence. Qed.

(** C34. The store says of a push what the push service answered to it. In any
    state of the store, while other tasks leave the pushes, devices, grants and
    the user's attention states and preferences alone: (1) every delivery that a
    dispatch changes or adds is of one of the events to be offered (none in
    quiet hours or when notifications are off) whose decision has not expired, on
    the registered device, and is
    pending with a ticket only when the answer to that event gave this ticket,
    to be retried only when the answer was transient and sends are left, failed
    only when there was no usable ticket, the sends are exhausted or the device
    was reported gone before, and expired only past its time. Where identities
    do not collide: (2) the push service is asked once about each such event
    the store lets be sent and about no other, so that a dispatch in quiet hours, or
    over events that are claimed elsewhere, settled or not yet due, does not
    depend on its answers; (3) a dispatch without failures leaves every event
    that could be sent pending with the ticket it was given. (4) A poll settles
    only deliveries it asked for, as delivered only on the receipt "ok" and as
    failed only on "error", and expires only overdue ones; (5) it settles every
    receipt "ok" unless a receipt it cannot look up ends the round. *)
Theorem push_answers_recorded items hour now_ms ops :
  let s := push_after sha256_hex compact ops in let now := now_ms / 1000 in let events := offers sha256_hex compact user items hour s in
  let identity := identity sha256_hex compact user in let registered token := registered env user token now s in
  (∀ post x, let s' := (dispatch post items hour now_ms s).2 in x ∈ nd_deliveries s' →
     x ∈ nd_deliveries s ∨ ∃ token n e, events !! n = Some e ∧ registered token ∧ deliverable now_ms e = true ∧
       recorded now (identity token e) (post n 0%nat) (gone_before post n) (nd_deliveries s') x) ∧
  ((∀ token, registered token → NoDup (map (identity token) events)) → ∀ post,
     (∀ post', (∀ token n e, events !! n = Some e → registered token → deliverable now_ms e = true → sendable (identity token e) now s → post' n 0%nat = post n 0%nat) →
        dispatch post' items hour now_ms s = dispatch post items hour now_ms s) ∧
     (∀ r s', dispatch post items hour now_ms s = (Ok r, s') → di_failures r = [] → ∀ token n e, events !! n = Some e → registered token → sendable (identity token e) now s →
        ∃ ticket x, gave_ticket (post n 0%nat) ticket ∧ fetchone (with_id (identity token e)) (nd_deliveries s') = Some x ∧ dl_state x = ds_pending ∧ dl_ticket x = Some ticket)) ∧
  (∀ fetch at_, let s' := (reconcile_push_receipts sha256_hex others fetch at_ s).2 in let receipts := receipts_for fetch (polled at_ s) in
     (∀ x', x' ∈ nd_deliveries s' → ∃ x, x ∈ nd_deliveries s ∧ dl_id x' = dl_id x ∧
        (dl_state x' = dl_state x ∨ dl_state x = ds_pending ∧ (dl_state x' = ds_expired ∧ dl_expires x ≤ at_ ∨ x ∈ polled at_ s ∧ settled_as receipts x x'))) ∧
     (∀ d, d ∈ polled at_ s → status_in receipts d "ok" → (∀ y fields, y ∈ polled at_ s → receipt_in receipts y = Some fields → unhashable (get "status" fields) = false) →
        ∃ x, x ∈ nd_deliveries s' ∧ dl_id x = dl_id d ∧ dl_state x = ds_delivered)).
Proof.
  intros s now events ident reg. pose proof (push_after_ok sha256_hex compact ops : push_ok (nd_deliveries s)) as Hok.
  destruct (dispatch_runs items hour now_ms s) as (s3 & H3 & Hd). pose proof (proj1 H3) as D3. assert (push_ok (nd_deliveries s3)) as Hok3 by (by rewrite D3).
  split; [|split; [|intros fetch at_ s' receipts; split; [intros x'; exact (receipts_rows _ _ others_store _ fetch s x' Hok)|intros d; exact (receipts_deliver _ _ others_store _ fetch s d Hok)]]].
  all: destruct (get_registered_push_token env user (now_ms / 1000) s) as [d|] eqn:Ed.
  2: { destruct Hd as [r Hd]. intros post x s' Hx. unfold s' in Hx. rewrite Hd in Hx. cbn in Hx. rewrite D3 in Hx. by left. }
  3: { destruct Hd as [r Hd]. intros _ post. split; [by intros; rewrite !Hd|]. intros r' s' _ _ token n e _ (d & Hreg & _). by pose proof (eq_trans (eq_sym Hreg) Ed). }
  all: fold events in Hd; destruct events as [|e0 events'] eqn:Eev.
  - destruct Hd as [r Hd]. intros post x s' Hx. unfold s' in Hx. rewrite Hd in Hx. cbn in Hx. rewrite D3 in Hx. by left.
  - destruct Hd as (finish & Hfin & Hd). rewrite <- Eev in Hd |- *. intros post x s'. unfold s'. rewrite Hd.
    assert (registered env user (dv_token d) now s3) as Hreg by (exists d; split; [by rewrite (registration_store _ _ _ H3)|done]).
    pose proof (deliver_answered sha256_hex compact env others others_store user (dv_token d) now_ms post events 0 s3 Hok3 (or_introl Hreg)) as Ha. rewrite D3 in Ha.
    destruct (deliver _ _ _ _ post _ _ _ 0 events s3) as [[l|err] s4]; cbn [fst snd]; [rewrite (proj1 (proj2 (Hfin l s4)))|];
      (intros [Hx|(n & e & He & Hx)]%(proj2 Ha); [by left|right]; exists (dv_token d), n, e; split; [done|]; split; [by exists d|exact Hx]).
  - destruct Hd as [r Hd]. intros _ post. split; [by intros; rewrite !Hd|]. by intros r' s' _ _ token n e ?.
  - destruct Hd as (finish & Hfin & Hd). rewrite <- Eev in Hd |- *. assert (reg (dv_token d)) as Hreg by (by exists d). intros Hn post. split.
    + intros post' Hp. rewrite !Hd. rewrite (deliver_same sha256_hex compact env others others_store _ _ _ post); [done..|by apply Hn|].
      intros i e He Hdel Hs. apply (Hp _ _ _ He Hreg Hdel). exact (proj1 (sendable_store _ _ _ _ H3) Hs).
    + intros r s' E Hr token n e He Hr' Hs. pose proof (registered_token _ _ _ _ Ed Hr') as ->. rewrite Hd in E.
      destruct (deliver _ _ _ _ post _ _ _ 0 events s3) as [[l|err] s4] eqn:El; [|done]. injection E as <- <-. destruct (Hfin l s4) as [Hf (Hdel & _)]. rewrite Hf in Hr. rewrite Hdel.
      apply (deliver_delivered sha256_hex compact env others others_store _ _ _ _ _ 0 _ _ _ Hok3 (Hn _ Hreg) El Hr n e He). exact (proj2 (sendable_store _ _ _ _ H3) Hs).
Qed.
End Records.

(** ** A sample run *)

Definition sample_token : string := "ExpoPushToken[abcdef]".
Definition sample_item : item := Build_item "item-1" true (Some "captain_question") false (JInt 1) (JStr "Merge?") JNull (JStr "needs-decision") JNull JNull.
Definition sample_fingerprint : string := _fingerprint sample_sha print sample_item.
Definition sample_setup : list push_op :=
  [PRegister "user-1" sample_token "ios" (Some 0) 100; PPreferences "user-1" true (Some 22) (Some 7) "moderate" 110;
   PReconcile "user-1" 900 false [("item-1", sample_item)] []].
Definition sample_claim : push_op := PClaim "user-1" "item-1" sample_fingerprint sample_token false 1000.
Definition sample_sent : list push_op := sample_setup ++ [sample_claim].
Local Abbreviation sample_after := (push_after sample_sha print).
Definition sample_row (ops : list push_op) : delivery :=
  default (Build_delivery "" "" "" "" "" None ds_failed 0 0 0 0 0 0 None) (head (nd_deliveries (sample_after ops))).
Definition sample_first : delivery := Eval vm_compute in sample_row sample_sent.
Definition sample_handed : list push_op := sample_sent ++ [PAccepted sample_first "ticket-1" 1010].
Definition sample_second : delivery := Eval vm_compute in sample_row sample_handed.
Definition sample_settled : list push_op := sample_handed ++ [PPoll 2000; PReceipt sample_second true false 2010].
Definition sample_last : delivery := Eval vm_compute in sample_row sample_settled.

Lemma sample_claimed : sample_first ∈ claims_in sample_sha print sample_sent.
Proof. apply list_elem_of_In. vm_compute. by left. Qed.
Lemma sample_reported : (commit (accepted sample_first "ticket-1" 1005) (sample_after sample_sent)).2 ≠ sample_after sample_sent ∨
  (commit (send_failed sample_first true 1005) (sample_after sample_sent)).2 ≠ sample_after sample_sent.
Proof. right. intros H. apply (f_equal (λ s, map dl_state (nd_deliveries s))) in H. vm_compute in H. discriminate. Qed.
Lemma newest_claim_reports_witness : last (select (λ x, dl_id x == dl_id sample_first) (claims_in sample_sha print sample_sent)) = Some sample_first.
Proof. exact (newest_claim_reports sample_sha print sample_sent sample_first "ticket-1" true 1005 sample_claimed sample_reported). Defined.

Lemma sample_delivered : sample_last ∈ nd_deliveries (sample_after sample_settled).
Proof. apply list_elem_of_In. vm_compute. by left. Qed.
Lemma sample_final : settled sample_last.
Proof. left. reflexivity. Qed.
Lemma settled_stays_witness : sample_last ∈ nd_deliveries (sample_after (sample_settled ++ [sample_claim; PFailed sample_first false 3000])).
Proof. exact (settled_stays sample_sha print sample_settled _ sample_last sample_delivered sample_final). Defined.

Definition sample_receipt : res push_error (unit * notification_db) := receipt sample_sha sample_second true false 2010 (sample_after sample_handed).
Definition sample_state : notification_db := match sample_receipt with Ok (_, s) => s | Err _ => empty_notifications end.
Lemma sample_received : receipt sample_sha sample_second true false 2010 (sample_after sample_handed) = Ok (tt, sample_state).
Proof. vm_compute. reflexivity. Qed.
Definition sample_announced : attention_state := Build_attention_state "user-1" "item-1" sample_fingerprint true false false 900.
Lemma sample_acknowledged : sample_announced ∈ nd_states (sample_after sample_handed) ∧ sample_announced ∉ nd_states sample_state.
Proof. rewrite !list_elem_of_In. split; vm_compute; [by left|]. intros [H|[]]. discriminate. Qed.
Lemma receipt_spares_others_witness : ∃ p, p ∈ nd_devices (sample_after sample_handed) ∧ sent_to sample_sha sample_second p.
Proof.
  apply (proj2 (receipt_spares_others sample_sha print sample_handed sample_second true false 2010 sample_state tt sample_received) sample_announced);
    apply sample_acknowledged.
Defined.

(** Another user changes their preferences at every step. *)
Definition bystander (p : site) (s : notification_db) : notification_db := (commit (update_notification_preferences "user-2" true None None "full" 500) s).2.
Lemma bystander_aside p s : same_store s (bystander p s) ∧ same_view "user-1" s (bystander p s).
Proof.
  assert (nd_deliveries (bystander p s) = nd_deliveries s ∧ nd_devices (bystander p s) = nd_devices s ∧ nd_grants (bystander p s) = nd_grants s ∧ nd_states (bystander p s) = nd_states s ∧
    fetchone (λ r, np_user r == "user-1") (nd_preferences (bystander p s)) = fetchone (λ r, np_user r == "user-1") (nd_preferences s)) as (E1 & E2 & E3 & E4 & E5).
  { unfold bystander, commit, update_notification_preferences, mbind, tx_bind, require, modify. cbn. destruct (exists_row (λ r, np_user r == "user-2") (nd_preferences s)); cbn; split_and!; try done.
    - generalize (nd_preferences s). intros t. induction t as [|r t IH]; [done|]. cbn. destruct (np_user r == "user-2") eqn:E; [|by destruct (np_user r == "user-1")].
      bools. rewrite E. exact IH.
    - rewrite fetchone_app. by destruct (fetchone _ (nd_preferences s)). }
  unfold same_store, same_view, existing_of, get_notification_preferences. by rewrite E1, E2, E3, E4, E5.
Qed.

(** At 23 o'clock nothing is offered, at 9 the question is. *)
Definition sample_start : notification_db := sample_after sample_setup.
Definition reconciled_of (r : res push_error reconciled) : reconciled := match r with Ok r => r | Err _ => Build_reconciled [] false "" false false end.

(** The question is pushed in the morning, and the push is kept with its ticket. *)
Definition sample_posts (n attempt : nat) : posted := Posted 200 (JObj [("data", JObj [("status", JStr "ok"); ("id", JStr "ticket-1")])]).
Definition sample_dispatch (s : notification_db) : res push_error dispatched * notification_db :=
  dispatch_notification_events sample_sha print (λ _, None) bystander sample_posts "user-1" [sample_item] (Some 9) 1300000 s.
Definition dispatched_of (r : res push_error dispatched) : dispatched := match r with Ok d => d | Err _ => Build_dispatched (reconciled_of (Err PushValueError)) [] "" [] end.
Lemma sample_registered : registered (λ _, None) "user-1" sample_token (1300000 / 1000) sample_start.
Proof. unfold registered. vm_compute. eexists. by split. Qed.
Lemma sample_sendable : sendable (identity sample_sha print "user-1" sample_token sample_item) (1300000 / 1000) sample_start.
Proof. vm_compute. done. Qed.
Lemma sample_offers : offers sample_sha print "user-1" [sample_item] (Some 9) sample_start = [sample_item].
Proof. vm_compute. reflexivity. Qed.
Lemma sample_dispatched : dispatch_notification_events sample_sha print (λ _, None) bystander sample_posts "user-1" [sample_item] (Some 9) 1300000 sample_start = (Ok (dispatched_of (sample_dispatch sample_start).1), (sample_dispatch sample_start).2).
Proof. vm_compute. reflexivity. Qed.
Lemma sample_no_failures : di_failures (dispatched_of (sample_dispatch sample_start).1) = [].
Proof. vm_compute. reflexivity. Qed.
Lemma push_answers_recorded_witness : ∃ ticket x, gave_ticket (sample_posts 0 0) ticket ∧
  fetchone (with_id (identity sample_sha print "user-1" sample_token sample_item)) (nd_deliveries (sample_dispatch sample_start).2) = Some x ∧ dl_state x = ds_pending ∧ dl_ticket x = Some ticket.
Proof.
  pose proof (proj1 (proj2 (push_answers_recorded sample_sha print (λ _, None) bystander "user-1" bystander_aside [sample_item] (Some 9) 1300000 sample_setup))) as H.
  fold sample_start in H. cbv zeta in H. rewrite sample_offers in H.
  assert (∀ token, registered (λ _, None) "user-1" token (1300000 / 1000) sample_start → NoDup (map (identity sample_sha print "user-1" token) [sample_item])) as Hone
    by (intros token _; apply NoDup_singleton).
  exact (proj2 (H Hone sample_posts) _ _ sample_dispatched sample_no_failures sample_token 0%nat sample_item eq_refl sample_registered sample_sendable).
Defined.
