(* ===== verification/Attention.v ===== *)
(** * Attention actions ([gateway/app/attention_actions.py])

    The owner approves or rejects a decision of the runtime from its attention
    item: [prepare_confirmation] hands out a token for one action on one live
    item, [execute_confirmation] spends it, records the outcome and answers the
    captain hold. The runtime's answer and what other tasks commit are
    arguments. The evidence stored with an outcome repeats its columns and is
    left out. *)

From stdpp Require Import base option list strings numbers sets.
From Stdlib Require Import ZArith Lia Ascii.
From S2P Require Import Prelude Sql Json Text.

Open Scope string_scope.
Open Scope list_scope.
Open Scope Z_scope.

(** [AttentionActionError(code, ..., status_code)], the [TypeError] of a value
    that cannot be looked up in a set, an integrity error of SQLite. *)
Inductive attention_error := AttentionActionError (code : string) (status_code : Z) | AttentionTypeError | AttentionIntegrityError.
#[export] Instance attention_error_eq_dec : EqDecision attention_error.
Proof. solve_decision. Defined.

Definition CONFIRMATION_TTL_SECONDS : Z := 300.
Definition SAFE_ACTIONS : list string := ["approve"; "reject"].
Definition task_char (c : Ascii.ascii) : bool := is_alnum c || one_of "._-" c.
Definition TASK_ID_PATTERN (s : string) : bool := fullmatch_class task_char 1 200 s.

(** ** The risk of a text *)

Definition risk_words : list string :=
  ["delete"; "destroy"; "deploy"; "merge"; "reset"; "credential"; "secret"; "password"; "token"; "security"; "permission"; "production"; "public";
   "irreversible"; "cannot be undone"].
(** [s] starts with [word] and a word ends there. *)
Definition starts_word (word s : string) : bool :=
  startswith word s && match str_drop (String.length word) s with String c _ => negb (is_word c) | EmptyString => true end.
(** [RISK_PATTERN.search(s)] on lower-case text; [inside] says that a word
    character precedes. Of the characters a [string] holds, [re.I] folds only
    the ASCII letters of the words. *)
Fixpoint risk_from (inside : bool) (s : string) : bool :=
  match s with
  | EmptyString => false
  | String c s' => (negb inside && existsb (λ w, starts_word w s) risk_words) || risk_from (is_word c) s'
  end.
Definition RISK_PATTERN (s : string) : bool := risk_from false (sql_lower s).

(** ** Items *)

Definition _safe_text (value : json) : string := match value with JStr s => str_take 200 (strip s) | _ => "" end.
Definition context_of (item : dict) : dict := match get "context" item with JObj d => d | _ => [] end.
Definition is_false (j : json) : bool := match j with JBool false => true | _ => false end.
Definition hashable (j : json) : bool := match j with JList _ | JObj _ => false | _ => true end.
Definition risk_flags : list string := ["destructive"; "irreversible"; "security_sensitive"; "security_sensitive_request"].
Definition risk_levels : list string := ["high"; "destructive"; "security-sensitive"].
Definition at_risk (j : json) : bool := match j with JStr s => RISK_PATTERN s | _ => false end.
(** [true] when the item has a risk reason. *)
Definition risk_reason (item : dict) : res attention_error bool :=
  let context := context_of item in
  let flagged := existsb (λ name, is_true (get name context) || is_true (get name item)) risk_flags || is_false (get "reversible" item) in
  explicit_risk ← (if flagged then mret true
                   else ensure (hashable (get "risk_level" context)) AttentionTypeError;; mret (in_strs (get "risk_level" context) risk_levels));
  mret (explicit_risk || existsb at_risk [get "title" item; get "subtitle" item; get "summary" context; get "risk" context]).

Record action := { ac_key : string; ac_decision_key : string; ac_source_revision : string; ac_task : string; ac_allowed : list string; ac_blocked : bool }.

(** [attention_action_outcomes], [attention_action_confirmations] *)
Inductive outcome_status := os_pending | os_succeeded | os_failed.
#[export] Instance outcome_status_eq_dec : EqDecision outcome_status.
Proof. solve_decision. Defined.
Record outcome := {
  oc_key : string; oc_user : string; oc_session : string; oc_item : string; oc_decision_key : string; oc_action : string; oc_target : string;
  oc_revision : string; oc_status : outcome_status; oc_created : Z; oc_updated : Z;
}.
#[export] Instance outcome_settable : Settable outcome :=
  λ r, Build_outcome (oc_key r) (oc_user r) (oc_session r) (oc_item r) (oc_decision_key r) (oc_action r) (oc_target r) (oc_revision r) (oc_status r)
    (oc_created r) (oc_updated r).
Definition outcome_clash (a b : outcome) : bool := oc_key a == oc_key b.
Record confirmation := {
  cf_hash : string; cf_key : string; cf_user : string; cf_session : string; cf_action : string; cf_target : string; cf_expires : Z; cf_used : option Z;
}.
#[export] Instance confirmation_settable : Settable confirmation :=
  λ r, Build_confirmation (cf_hash r) (cf_key r) (cf_user r) (cf_session r) (cf_action r) (cf_target r) (cf_expires r) (cf_used r).
Definition confirmation_clash (a b : confirmation) : bool := cf_hash a == cf_hash b.

Record attention_db := { an_outcomes : list outcome; an_confirmations : list confirmation }.
#[export] Instance attention_db_settable : Settable attention_db := λ s, Build_attention_db (an_outcomes s) (an_confirmations s).
Definition empty_attention : attention_db := Build_attention_db [] [].

Abbreviation ntx := (tx attention_error attention_db).
Abbreviation nio := (io attention_error attention_db).

(** The places where other tasks may commit. *)
Inductive place := at_outcome | at_confirmation | at_use | at_claim | at_previous | at_execute | at_finish | at_result.

Section Actions.
(** SHA-256, HMAC-SHA-256 and [MAGISTRATE_SECRET_KEY]. *)
Context (sha256_hex : string → string) (hmac_sha256_hex : string → string → string) (_action_secret : string).

Definition action_key_for (item : dict) : string :=
  let context := context_of item in
  "aa1_" +:+ hmac_sha256_hex _action_secret (join NUL
    ["attention-action.v1"; "firstmate"; _safe_text (get "task_id" context); _safe_text (get "decision_key" context); _safe_text (get "revision" item)]).

Definition action_for_item (item : dict) : res attention_error (option action) :=
  let context := context_of item in
  let task_id := _safe_text (get "task_id" context) in
  let decision_key := _safe_text (get "decision_key" context) in
  if eq_str (get "provider" item) "firstmate" && eq_str (get "notification_kind" item) "captain_question" && eq_str (get "status" item) "needs-decision"
     && negb (task_id == "") && negb (decision_key == "") && TASK_ID_PATTERN task_id && TASK_ID_PATTERN decision_key
  then
    blocked ← risk_reason item;
    mret (Some (Build_action (action_key_for item) decision_key (_safe_text (get "revision" item)) task_id
      match blocked with true => [] | false => SAFE_ACTIONS end blocked))
  else mret None.
Definition _action_from_item (item : dict) : res attention_error action :=
  found ← action_for_item item; of_option (AttentionActionError "unsupported" 409) found.
Fixpoint _find_live_item (items : list dict) (action_key target_id : string) : res attention_error dict :=
  match items with
  | [] => Err (AttentionActionError "stale" 409)
  | item :: items' =>
      found ← action_for_item item;
      match found with
      | Some a =>
          if ac_key a == action_key then
            ensure (ac_task a == target_id) (AttentionActionError "mismatch" 409);;
            ensure (negb (ac_blocked a)) (AttentionActionError "unsupported_risk" 409);;
            mret item
          else _find_live_item items' action_key target_id
      | None => _find_live_item items' action_key target_id
      end
  end.
(** The live item an action is taken on, with the action. *)
Definition live_action (items : list dict) (action_key selected target_id : string) : res attention_error (dict * action) :=
  item ← _find_live_item items action_key target_id;
  a ← _action_from_item item;
  ensure (listed selected (ac_allowed a)) (AttentionActionError "unsupported" 409);;
  mret (item, a).

(** ** Outcomes *)

Definition _outcome_row (action_key user : string) (s : attention_db) : option outcome :=
  fetchone (λ r, (oc_key r == action_key) && (oc_user r == user)) (an_outcomes s).
(** The newest outcome of an item; equal times come in rowid order. *)
Definition outcome_for_item (item_id user : string) (s : attention_db) : option outcome :=
  head (order_by (λ a b, oc_updated b <=? oc_updated a) (select (λ r, (oc_item r == item_id) && (oc_user r == user)) (an_outcomes s))).

(** ** Confirmations *)

Definition _confirmation_hash (token : string) : string := sha256_hex token.
(** [token] is what [secrets.token_urlsafe] draws. *)
Definition _store_confirmation (a : action) (user session selected target_id token : string) (now : Z) : ntx string :=
  let row := Build_confirmation (_confirmation_hash token) (ac_key a) user session selected target_id (now + CONFIRMATION_TTL_SECONDS) None in
  rows ← read an_confirmations;
  rows' ← lift (of_option AttentionIntegrityError (insert confirmation_clash row rows));
  modify (λ s, s <| an_confirmations := rows' |>);;
  mret token.
Definition prepare_confirmation (items : list dict) (action_key selected target_id user session token : string) (now : Z) : ntx string :=
  require (listed selected SAFE_ACTIONS) (AttentionActionError "invalid_action" 422);;
  found ← lift (live_action items action_key selected target_id);
  _store_confirmation found.2 user session selected target_id token now.

(** The guard on the row of a token. *)
Definition confirms (action_key selected target_id user session : string) (now : Z) (r : confirmation) : bool :=
  (cf_user r == user) && (cf_session r == session) && (cf_key r == action_key) && (cf_action r == selected) && (cf_target r == target_id) &&
  (now <=? cf_expires r) && (cf_used r == None).
Definition confirmation_row (token : string) (s : attention_db) : option confirmation :=
  fetchone (λ r, cf_hash r == _confirmation_hash token) (an_confirmations s).
Definition use_confirmation (token : string) (now : Z) : ntx unit := modify (λ s, s <| an_confirmations ::=
  update (λ r, (cf_hash r == _confirmation_hash token) && (cf_used r == None)) (λ r, r <| cf_used := Some now |>) |>).

(** [INSERT] of the pending outcome. *)
Definition claim_outcome (a : action) (item_id user session selected target_id : string) (now : Z) : ntx unit :=
  let row := Build_outcome (ac_key a) user session item_id (ac_decision_key a) selected target_id (_safe_text (JStr (ac_source_revision a))) os_pending now now in
  rows ← read an_outcomes;
  rows' ← lift (of_option AttentionIntegrityError (insert outcome_clash row rows));
  modify (λ s, s <| an_outcomes := rows' |>).
Definition finish_outcome (action_key user : string) (status : outcome_status) (now : Z) : ntx unit := modify (λ s, s <| an_outcomes ::=
  update (λ r, (oc_key r == action_key) && (oc_user r == user)) (λ r, r <| oc_status := status |> <| oc_updated := now |>) |>).

(** ** Execution *)

(** What the captain hold is told. *)
Definition capitalize (s : string) : string :=
  match s with
  | String c s' => String (if is_lower c then Ascii.ascii_of_nat (Ascii.nat_of_ascii c - 32) else c) (sql_lower s')
  | EmptyString => ""
  end.
Definition decision_text (selected : string) : string := capitalize selected +:+ "d by Captain via Magistrate Attention.".
(** [answer] runs [fm-captain-hold.sh answer] on a task with a decision: whether
    it ended with status zero in time. *)
Definition execute_firstmate_action (answer : string → string → bool) (task_id selected : string) : res attention_error bool :=
  ensure (TASK_ID_PATTERN task_id) (AttentionActionError "mismatch" 409);;
  mret (answer task_id (decision_text selected)).

Context (others : place → attention_db → attention_db) (answer : string → string → bool).
Definition at_place {A} (p : place) (m : ntx A) : nio A := λ s, commit m (others p s).

(** The outcome, and whether it was there before. *)
Inductive executed := ex_replayed (o : outcome) | ex_done (status : outcome_status) (o : option outcome).

Definition _claim_pending (a : action) (item_id user session selected target_id : string) (now : Z) : nio (option outcome) := λ s,
  match at_place at_claim (claim_outcome a item_id user session selected target_id now) s with
  | (Ok _, s') => (Ok None, s')
  | (Err AttentionIntegrityError, s') => at_place at_previous (read (_outcome_row (ac_key a) user)) s'
  | (Err e, s') => (Err e, s')
  end.

Definition spend (action_key selected target_id token user session : string) (now : Z) : nio unit :=
  row ← at_place at_confirmation (read (confirmation_row token));
  pure (ensure match row with Some r => confirms action_key selected target_id user session now r | None => false end
    (AttentionActionError "confirmation_invalid" 409));;
  at_place at_use (use_confirmation token now).
Definition execute_confirmation (items : list dict) (action_key selected target_id : string) (token : option string) (user session : string) (now later : Z)
  : nio executed :=
  pure (ensure (listed selected SAFE_ACTIONS) (AttentionActionError "invalid_action" 422));;
  existing ← at_place at_outcome (read (_outcome_row action_key user));
  match existing with
  | Some o =>
      pure (ensure ((oc_action o == selected) && (oc_target o == target_id)) (AttentionActionError "replay_mismatch" 409));;
      mret (ex_replayed o)
  | None =>
      found ← pure (live_action items action_key selected target_id);
      token ← pure (of_option (AttentionActionError "confirmation_required" 400) (token ≫= nonempty));
      pure (ensure (is_ascii token) (AttentionActionError "confirmation_invalid" 409));;
      spend action_key selected target_id token user session now;;
      let item_id := _safe_text (get "id" (fst found)) in
      previous ← _claim_pending (snd found) item_id user session selected target_id now;
      match previous with
      | Some o => mret (ex_replayed o)
      | None =>
          ok ← (at_place at_execute (mret tt);; pure (execute_firstmate_action answer target_id selected));
          let status := match ok with true => os_succeeded | false => os_failed end in
          at_place at_finish (finish_outcome action_key user status later);;
          o ← at_place at_result (read (_outcome_row action_key user));
          mret (ex_done status o)
      end
  end.
End Actions.
