(* ===== verification/AttentionTheorems.v ===== *)
(** * What attention actions promise

    The operations of the owner of the gateway ([_require_owner] of [main.py]
    admits nobody else), in any order; a confirmation is what one call of
    [prepare_confirmation] stored, and an action key is claimed once. *)

From stdpp Require Import base option list strings numbers sets relations.
From Stdlib Require Import ZArith Lia Ascii.
From S2P Require Import Prelude Sql Json Text Samples Attention.

Open Scope string_scope.
Open Scope list_scope.
Open Scope Z_scope.

Implicit Types (s : attention_db) (o : outcome) (r : confirmation) (a : action).

Section Actions.
Context (sha256_hex : string → string) (hmac_sha256_hex : string → string → string) (_action_secret : string) (owner : string).
Local Abbreviation prepare := (prepare_confirmation sha256_hex hmac_sha256_hex _action_secret).
Local Abbreviation live_action := (live_action hmac_sha256_hex _action_secret).
Local Abbreviation use_confirmation := (use_confirmation sha256_hex).

(** ** Runs *)

Inductive attention_op :=
| APrepare (items : list dict) (action_key selected target_id session token : string) (now : Z)
| AUse (token : string) (now : Z)
| AClaim (a : action) (item_id session selected target_id : string) (now : Z)
| AFinish (action_key : string) (status : outcome_status) (now : Z).
Definition attention_step (op : attention_op) s : attention_db :=
  match op with
  | APrepare items action_key selected target_id session token now => (commit (prepare items action_key selected target_id owner session token now) s).2
  | AUse token now => (commit (use_confirmation token now) s).2
  | AClaim a item_id session selected target_id now => (commit (claim_outcome a item_id owner session selected target_id now) s).2
  | AFinish action_key status now => (commit (finish_outcome action_key owner status now) s).2
  end.
Definition attention_run (ops : list attention_op) s : attention_db := fold_left (λ s op, attention_step op s) ops s.
Definition attention_after (ops : list attention_op) : attention_db := attention_run ops empty_attention.
Definition leads_to s s' : Prop := ∃ ops, s' = attention_run ops s.

#[export] Instance leads_preorder : PreOrder leads_to.
Proof.
  split; [by exists []|]. intros s1 s2 s3 [ops ->] [ops' ->]. exists (ops ++ ops'). unfold attention_run. by rewrite fold_left_app.
Qed.
Lemma leads_step op s : leads_to s (attention_step op s).
Proof. by exists [op]. Qed.
Lemma run_invariant (P : attention_db → Prop) ops s : (∀ op s, P s → P (attention_step op s)) → P s → P (attention_run ops s).
Proof. intros Hop. unfold attention_run. revert s. induction ops as [|op ops IH]; intros s Hs; [done|]. cbn. apply IH. by apply Hop. Qed.

(** ** One step *)

Lemma attention_prepare_cases items action_key selected target_id session token now s t s' :
  prepare items action_key selected target_id owner session token now s = Ok (t, s') →
  ∃ item a, live_action items action_key selected target_id = Ok (item, a) ∧
    s' = s <| an_confirmations := an_confirmations s ++
      [Build_confirmation (sha256_hex token) (ac_key a) owner session selected target_id (now + CONFIRMATION_TTL_SECONDS) None] |>.
Proof.
  unfold prepare_confirmation, _store_confirmation. intros H. tx_inv.
  match goal with Hi : insert _ _ _ = Some _, Hl : Attention.live_action _ _ _ _ _ _ = Ok ?f |- _ => apply insert_some in Hi as [-> _]; destruct f as [item a]; exists item, a end.
  done.
Qed.
(** A live action is the action of its key. *)
Lemma find_live_key items action_key target_id item : _find_live_item hmac_sha256_hex _action_secret items action_key target_id = Ok item →
  ∃ a, action_for_item hmac_sha256_hex _action_secret item = Ok (Some a) ∧ ac_key a = action_key ∧ ac_task a = target_id ∧ ac_blocked a = false.
Proof.
  induction items as [|x items IH]; cbn [_find_live_item]; [done|]. intros (found & Hf & H)%res_bind_ok.
  destruct found as [a|]; [|by apply IH]. destruct (ac_key a == action_key) eqn:Ek; [|by apply IH]. tx_inv. bools. by exists a.
Qed.
Lemma live_action_key items action_key selected target_id item a : live_action items action_key selected target_id = Ok (item, a) →
  ac_key a = action_key ∧ ac_task a = target_id ∧ ac_blocked a = false ∧ listed selected (ac_allowed a) = true.
Proof.
  unfold Attention.live_action, _action_from_item. intros H. tx_inv.
  match goal with Hf : _find_live_item _ _ _ _ _ = Ok _ |- _ => apply find_live_key in Hf as (a' & Ha & ? & ? & ?) end. 
  assert (a' = a) as -> by congruence. by subst.
Qed.

Lemma attention_claim_cases a item_id session selected target_id now s :
  let op := AClaim a item_id session selected target_id now in
  exists_row (λ x, ac_key a == oc_key x) (an_outcomes s) = true ∧ attention_step op s = s ∧
    (commit (claim_outcome a item_id owner session selected target_id now) s).1 = Err AttentionIntegrityError ∨
  exists_row (λ x, ac_key a == oc_key x) (an_outcomes s) = false ∧ (commit (claim_outcome a item_id owner session selected target_id now) s).1 = Ok tt ∧
    attention_step op s = s <| an_outcomes := an_outcomes s ++
      [Build_outcome (ac_key a) owner session item_id (ac_decision_key a) selected target_id (_safe_text (JStr (ac_source_revision a))) os_pending now now] |>.
Proof.
  cbn. unfold commit, claim_outcome, mbind, tx_bind, read, lift, modify, insert, outcome_clash. cbn. fold (exists_row (λ x, ac_key a == oc_key x) (an_outcomes s)).
  change (existsb (λ b, ac_key a == oc_key b) (an_outcomes s)) with (exists_row (λ x, ac_key a == oc_key x) (an_outcomes s)).
  destruct (exists_row _ _); [by left|by right].
Qed.

(** ** What runs keep *)

(** Outcomes are the owner's, one for each key, and stay. *)
Definition taken (key : string) s : Prop := ∃ o, _outcome_row key owner s = Some o.
Definition owned s : Prop := ∀ o, o ∈ an_outcomes s → oc_user o = owner.
Lemma taken_row key s : taken key s ↔ exists_row (λ o, (oc_key o == key) && (oc_user o == owner)) (an_outcomes s) = true.
Proof.
  unfold taken, _outcome_row. rewrite exists_row_spec. split.
  - intros (o & Ho%fetchone_some). eauto.
  - intros (o & Ho & Hp). destruct (fetchone _ _) as [x|] eqn:E; [eauto|]. by rewrite (fetchone_none _ _ _ E Ho) in Hp.
Qed.
Lemma owned_taken key s : owned s → exists_row (λ o, key == oc_key o) (an_outcomes s) = true → taken key s.
Proof.
  intros Ho (o & Hin & Hk)%exists_row_spec. apply taken_row, exists_row_spec. exists o. split; [done|]. bools. by rewrite (Ho o Hin), !bool_decide_true.
Qed.
(** What an outcome says of the call that claimed it. *)
Definition origin o := (oc_key o, oc_user o, oc_session o, oc_item o, oc_decision_key o, oc_action o, oc_target o, oc_revision o, oc_created o).
Lemma outcomes_step op s : an_outcomes (attention_step op s) = an_outcomes s ∨
  (∃ x, oc_user x = owner ∧ an_outcomes (attention_step op s) = an_outcomes s ++ [x]) ∨
  (∃ p f, (∀ o, origin (f o) = origin o) ∧ an_outcomes (attention_step op s) = update p f (an_outcomes s)).
Proof.
  destruct op as [items key selected target session token now|token now|a item_id session selected target now|key status now].
  - left. cbn [attention_step]. destruct (commit_cases (prepare items key selected target owner session token now) s) as [(t & s' & E & ->)|(e & E & ->)]; [|done].
    by apply attention_prepare_cases in E as (item & a & _ & ->).
  - by left.
  - destruct (attention_claim_cases a item_id session selected target now s) as [(_ & -> & _)|(_ & _ & ->)]; [by left|right; left]. by eexists; split; [|reflexivity].
  - right; right. by eexists _, _; split; [|reflexivity].
Qed.
Lemma owned_step op s : owned s → owned (attention_step op s).
Proof.
  unfold owned. intros Ho. destruct (outcomes_step op s) as [-> |[(x & Hx & ->)|(p & f & Hf & ->)]]; [done|..].
  - intros o [Hin|Hin%list_elem_of_singleton]%elem_of_app; [auto|by subst].
  - intros o (o' & Hin & ->)%elem_of_update. destruct (p o'); [|auto]. specialize (Hf o'). injection Hf as _ -> _ _ _ _ _ _ _. auto.
Qed.
(** The row of a key stays the row of the call that claimed it. *)
Definition claimed_by key o s : Prop := ∃ o', _outcome_row key owner s = Some o' ∧ origin o' = origin o.
Lemma claimed_step key o op s : claimed_by key o s → claimed_by key o (attention_step op s).
Proof.
  intros (o' & Ho & He). unfold claimed_by, _outcome_row. destruct (outcomes_step op s) as [-> |[(x & Hx & ->)|(p & f & Hf & ->)]]; [by exists o'|..].
  - exists o'. split; [|done]. by apply fetchone_app_some.
  - exists (if p o' then f o' else o'). split; [|destruct (p o'); [by rewrite Hf|done]]. unfold _outcome_row in Ho.
    rewrite fetchone_update, Ho; [done|]. intros y _. specialize (Hf y). by injection Hf as -> -> _ _ _ _ _ _ _.
Qed.
Lemma owned_leads s s' : leads_to s s' → owned s → owned s'.
Proof. intros [ops ->]. apply run_invariant. intros op s1. apply owned_step. Qed.
Lemma claimed_leads key o s s' : leads_to s s' → claimed_by key o s → claimed_by key o s'.
Proof. intros [ops ->]. apply run_invariant. intros op s1. apply claimed_step. Qed.
Lemma taken_leads key s s' : leads_to s s' → taken key s → taken key s'.
Proof. intros Hl [o Ho]. destruct (claimed_leads key o _ _ Hl) as (o' & Ho' & _); [by exists o|by exists o']. Qed.
Lemma owned_after ops : owned (attention_after ops).
Proof. apply (owned_leads empty_attention); [by exists ops|by intros o ?%elem_of_nil]. Qed.

(** Every confirmation is what one [prepare_confirmation] of the owner stored,
    for an action that was live then. *)
Definition prepared_in (ops : list attention_op) r : Prop := ∃ pre items key token created post f,
  ops = pre ++ APrepare items key (cf_action r) (cf_target r) (cf_session r) token created :: post ∧ live_action items key (cf_action r) (cf_target r) = Ok f ∧
  cf_hash r = sha256_hex token ∧ cf_key r = key ∧ cf_user r = owner ∧ cf_expires r = created + CONFIRMATION_TTL_SECONDS.
Lemma prepared_snoc ops op r : prepared_in ops r → prepared_in (ops ++ [op]) r.
Proof.
  intros (pre & items & key & token & created & post & f & -> & H). exists pre, items, key, token, created, (post ++ [op]), f. by rewrite <- app_assoc.
Qed.
Lemma confirmations_step op s r : r ∈ an_confirmations (attention_step op s) →
  (∃ r0, r0 ∈ an_confirmations s ∧ (r = r0 ∨ ∃ at_, r = r0 <| cf_used := Some at_ |>)) ∨
  (∃ items key token created f, op = APrepare items key (cf_action r) (cf_target r) (cf_session r) token created ∧
     live_action items key (cf_action r) (cf_target r) = Ok f ∧ cf_hash r = sha256_hex token ∧ cf_key r = key ∧ cf_user r = owner ∧
     cf_expires r = created + CONFIRMATION_TTL_SECONDS).
Proof.
  destruct op as [items key selected target session token now|token now|a item_id session selected target now|key status now]; cbn [attention_step].
  - destruct (commit_cases (prepare items key selected target owner session token now) s) as [(t & s' & E & ->)|(e & E & ->)]; [|by eauto].
    apply attention_prepare_cases in E as (item & a & Hl & ->). cbn. intros [Hin|Hin%list_elem_of_singleton]%elem_of_app; [by eauto|]. subst r. right.
    destruct (live_action_key _ _ _ _ _ _ Hl) as (Hk & _). by exists items, key, token, now, (item, a).
  - cbn. intros (r0 & Hin & ->)%elem_of_update. left. exists r0. split; [done|]. destruct (_ && _); [right; by eexists|by left].
  - destruct (attention_claim_cases a item_id session selected target now s) as [(_ & E & _)|(_ & _ & E)]; cbn [attention_step] in E; rewrite E; eauto.
  - cbn. eauto.
Qed.
Lemma rows_prepared ops r : r ∈ an_confirmations (attention_after ops) → prepared_in ops r.
Proof.
  unfold attention_after, attention_run. revert r. induction ops as [|op ops IH] using rev_ind; [by intros r ?%elem_of_nil|]. intros r. rewrite fold_left_app. cbn [fold_left].
  intros [(r0 & Hin & Hr)|(items & key & token & created & f & -> & H)]%confirmations_step.
  - apply prepared_snoc. destruct Hr as [-> |[at_ ->]]; [by apply IH|]. destruct (IH _ Hin) as (pre & items & key & token & created & post & f & H).
    by exists pre, items, key, token, created, post, f.
  - by exists ops, items, key, token, created, [], f.
Qed.
End Actions.

(** ** Executions *)

Section Inversion.
Context {A B : Type}.
Lemma io_bind_inv (m : nio A) (f : A → nio B) s (b : B) s' : (m ≫= f) s = (Ok b, s') → ∃ x s1, m s = (Ok x, s1) ∧ f x s1 = (Ok b, s').
Proof. unfold mbind, io_bind. destruct (m s) as [[x|e] s1]; [by eauto|done]. Qed.
Lemma pure_inv (x : res attention_error A) s b s' : pure x s = (Ok b, s') → x = Ok b ∧ s' = s.
Proof. by intros [= -> ->]. Qed.
Lemma io_ret_inv (x : A) s b s' : (mret x : nio A) s = (Ok b, s') → b = x ∧ s' = s.
Proof. by intros [= -> ->]. Qed.
Lemma place_inv others p (m : ntx A) s b s' : at_place others p m s = (Ok b, s') → m (others p s) = Ok (b, s').
Proof. unfold at_place. apply commit_ok. Qed.
End Inversion.

Section Executions.
Context (sha256_hex : string → string) (hmac_sha256_hex : string → string → string) (_action_secret : string) (owner : string).
Local Abbreviation live_action := (live_action hmac_sha256_hex _action_secret).
Local Abbreviation use_confirmation := (use_confirmation sha256_hex).
Local Abbreviation step := (attention_step sha256_hex hmac_sha256_hex _action_secret owner).
Local Abbreviation run := (attention_run sha256_hex hmac_sha256_hex _action_secret owner).
Local Abbreviation after := (attention_after sha256_hex hmac_sha256_hex _action_secret owner).
Local Abbreviation leads_to := (leads_to sha256_hex hmac_sha256_hex _action_secret owner).
Local Abbreviation execute := (execute_confirmation sha256_hex hmac_sha256_hex _action_secret).

(** The course of a call that executes. *)
Lemma execute_done others answer items key selected target token session now later s st seen s' :
  execute others answer items key selected target token owner session now later s = (Ok (ex_done st seen), s') →
  let s1 := others at_confirmation (others at_outcome s) in
  ∃ t item a r s3, token = Some t ∧ live_action items key selected target = Ok (item, a) ∧ confirmation_row sha256_hex t s1 = Some r ∧
    confirms key selected target owner session now r = true ∧
    _claim_pending others a (_safe_text (get "id" item)) owner session selected target now (step (AUse t now) (others at_use s1)) = (Ok None, s3) ∧
    st = (if answer target (decision_text selected) then os_succeeded else os_failed) ∧
    s' = others at_result (step (AFinish key st later) (others at_finish (others at_execute s3))) ∧ seen = _outcome_row key owner s'.
Proof.
  unfold execute_confirmation. intros (u1 & s1 & [_ ->]%pure_inv & H)%io_bind_inv. apply io_bind_inv in H as (existing & s2 & [_ <-]%place_inv%read_ok & H).
  destruct existing as [o'|].
  { apply io_bind_inv in H as (u2 & s3 & _ & H). by apply io_ret_inv in H as [? _]. }
  apply io_bind_inv in H as (f & s3 & [Hl ->]%pure_inv & H). destruct f as [item a].
  apply io_bind_inv in H as (t & s4 & [Ht%of_option_ok ->]%pure_inv & H). apply io_bind_inv in H as (u2 & s5 & [_ ->]%pure_inv & H).
  apply io_bind_inv in H as (u3 & s6 & Hspend & H). unfold spend in Hspend.
  apply io_bind_inv in Hspend as (row & s7 & [Hrow <-]%place_inv%read_ok & Hspend). apply io_bind_inv in Hspend as (u4 & s8 & [Hc%ensure_ok ->]%pure_inv & Hspend).
  destruct row as [r|]; [|done]. apply place_inv, modify_ok in Hspend as ->.
  apply io_bind_inv in H as (previous & s9 & Hclaim & H). destruct previous as [o'|]; [by apply io_ret_inv in H as [? _]|].
  apply io_bind_inv in H as (ok & s10 & Hok & H). apply io_bind_inv in Hok as (u5 & s11 & [_ <-]%place_inv%ret_ok & [Hok ->]%pure_inv).
  apply io_bind_inv in H as (u6 & s12 & ->%place_inv%modify_ok & H). apply io_bind_inv in H as (o1 & s13 & [Hseen <-]%place_inv%read_ok & H).
  apply io_ret_inv in H as [[= -> ->] ->]. exists t, item, a, r, s9.
  assert (token = Some t) as -> by (destruct token as [x|]; [|done]; cbn in Ht; unfold nonempty in Ht; case_bool_decide; [done|congruence]).
  unfold execute_firstmate_action in Hok. apply res_bind_ok in Hok as (u7 & _ & [= ->]). subst o1. by destruct (answer target (decision_text selected)).
Qed.

(** What other tasks do is a run of the owner's operations. *)
Implicit Types course : place → list attention_op.
Definition interleaved course (p : place) s : attention_db := run (course p) s.
Lemma interleaved_leads course p s : leads_to s (interleaved course p s).
Proof. by exists (course p). Qed.

(** C35. The runtime is told only what the owner confirmed. When a call of
    [execute_confirmation] executes, in any run and with any operations between
    its steps: its token was handed out by a [prepare_confirmation] that ran
    before, of the same owner and session, for the same action on the same
    target under the same key, which was live and admitted then, at most 300
    seconds ago; the action is live and admitted now; and the outcome it
    reports is what the captain hold of that target answered to the text of
    that action. *)
Theorem executed_as_confirmed course answer ops items key selected target token session now later st seen s' :
  execute (interleaved course) answer items key selected target token owner session now later (after ops) = (Ok (ex_done st seen), s') →
  st = (if answer target (decision_text selected) then os_succeeded else os_failed) ∧ is_ok (live_action items key selected target) = true ∧
  ∃ t pre items' t' created post f, token = Some t ∧
    ops ++ course at_outcome ++ course at_confirmation = pre ++ APrepare items' key selected target session t' created :: post ∧
    sha256_hex t' = sha256_hex t ∧ now ≤ created + CONFIRMATION_TTL_SECONDS ∧ live_action items' key selected target = Ok f.
Proof.
  intros (t & item & a & r & s3 & -> & Hl & Hrow & Hc & _ & Hst & _ & _)%execute_done. split; [done|]. split; [by rewrite Hl|].
  apply fetchone_some in Hrow as [Hr Hh]. unfold confirms, _confirmation_hash in Hc, Hh. bools.
  assert (interleaved course at_confirmation (interleaved course at_outcome (after ops)) = after (ops ++ course at_outcome ++ course at_confirmation)) as E
    by (unfold interleaved, attention_after, attention_run; by rewrite !fold_left_app).
  rewrite E in Hr. apply rows_prepared in Hr as (pre & items' & k & t' & created & post & f & Hops & Hf & Hh' & Hk & _ & He). subst.
  exists t, pre, items', t', created, post, f. rewrite He in *. split_and!; congruence || done.
Qed.

(** A claim that finds no outcome inserted its own. *)
Lemma claim_none course a item_id session selected target now s s3 : owned owner s →
  _claim_pending (interleaved course) a item_id owner session selected target now s = (Ok None, s3) →
  ¬ taken owner (ac_key a) (interleaved course at_claim s) ∧ s3 = step (AClaim a item_id session selected target now) (interleaved course at_claim s) ∧
  _outcome_row (ac_key a) owner s3 =
    Some (Build_outcome (ac_key a) owner session item_id (ac_decision_key a) selected target (_safe_text (JStr (ac_source_revision a))) os_pending now now).
Proof.
  intros Ho. unfold _claim_pending, at_place at 1. set (sc := interleaved course at_claim s).
  assert (owned owner sc) as Hc by (eapply owned_leads; [apply interleaved_leads|done]).
  pose proof (attention_claim_cases sha256_hex hmac_sha256_hex _action_secret owner a item_id session selected target now sc) as Hcase.
  destruct (commit _ sc) as [r s1] eqn:E. cbn [fst] in Hcase. cbn [attention_step] in Hcase |- *. rewrite E in Hcase |- *. cbn [snd] in Hcase |- *.
  destruct Hcase as [(Hx & -> & ->)|(Hx & -> & Hs1)].
  - intros [Hn _]%place_inv%read_ok. exfalso. pose proof (owned_taken owner _ _ Hc Hx) as Ht.
    apply (taken_leads _ _ _ owner _ _ _ (interleaved_leads course at_previous sc)) in Ht as (o & Ht). congruence.
  - intros [= <-].
    assert (∀ o, o ∈ an_outcomes sc → (oc_key o == ac_key a) && (oc_user o == owner) = false) as Hfree.
    { intros o Hin. pose proof (proj1 (exists_row_false _ _) Hx o Hin) as Hne. cbn in Hne. apply eqb_false in Hne. by rewrite (eqb_neq (oc_key o)) by congruence. }
    split_and!; [|done|].
    + intros (o & [Hin Hp]%fetchone_some). by rewrite Hfree in Hp.
    + rewrite Hs1. unfold _outcome_row. cbn -[fetchone]. rewrite fetchone_app_none by (by apply fetchone_all_false). cbn. by rewrite !eqb_refl.
Qed.
(** A claim of a key that is taken gets the outcome on record. *)
Lemma claim_taken course a item_id session selected target now s o : claimed_by owner (ac_key a) o s →
  ∃ o', origin o' = origin o ∧ let s' := interleaved course at_previous (interleaved course at_claim s) in _outcome_row (ac_key a) owner s' = Some o' ∧
    _claim_pending (interleaved course) a item_id owner session selected target now s = (Ok (Some o'), s').
Proof.
  intros Ho. pose proof (claimed_leads _ _ _ owner _ _ _ _ (interleaved_leads course at_claim s) Ho) as Hc.
  pose proof (claimed_leads _ _ _ owner _ _ _ _ (interleaved_leads course at_previous _) Hc) as (o' & Ho' & He). exists o'. split; [done|]. split; [exact Ho'|].
  unfold _claim_pending, at_place at 1. set (sc := interleaved course at_claim s) in *.
  pose proof (attention_claim_cases sha256_hex hmac_sha256_hex _action_secret owner a item_id session selected target now sc) as Hcase.
  destruct (commit _ sc) as [r s1] eqn:E. cbn [fst] in Hcase. cbn [attention_step] in Hcase. rewrite E in Hcase. cbn [snd] in Hcase.
  destruct Hcase as [(_ & -> & ->)|(Hx & _)].
  - by rewrite <- Ho'.
  - destruct Hc as (o1 & [Hin Hp]%fetchone_some & _). apply andb_true_iff in Hp as [Hk%eqb_true _].
    pose proof (proj1 (exists_row_false _ _) Hx o1 Hin) as Hne. cbn in Hne. by rewrite Hk, eqb_refl in Hne.
Qed.
(** A call that finds an outcome answers with it, for the same action. *)
Lemma execute_replays course answer items key selected target token session now later s o : listed selected SAFE_ACTIONS = true → claimed_by owner key o s →
  ∃ o', origin o' = origin o ∧ let s' := interleaved course at_outcome s in _outcome_row key owner s' = Some o' ∧
    execute (interleaved course) answer items key selected target token owner session now later s =
      (if (oc_action o == selected) && (oc_target o == target) then Ok (ex_replayed o') else Err (AttentionActionError "replay_mismatch" 409), s').
Proof.
  intros Hsel Ho. pose proof (claimed_leads _ _ _ owner _ _ _ _ (interleaved_leads course at_outcome s) Ho) as (o' & Ho' & He). exists o'. split; [done|]. split; [exact Ho'|].
  unfold execute_confirmation. rewrite Hsel. erewrite io_bind_ok by reflexivity.
  erewrite io_bind_ok by reflexivity. rewrite Ho'.
  injection He as _ _ _ _ _ <- <- _ _. by destruct ((oc_action o' == selected) && (oc_target o' == target)).
Qed.

(** C36. A key is executed once. When a call of [execute_confirmation] executes,
    with any operations between its steps, there is a moment in its course
    before which no outcome of the key existed and from which on the store
    records this call: its session, action, target and time. Whatever runs from
    then on, every call that comes to claim the key, those that are on their way
    included, under any token, action, target or session, gets the recorded
    outcome instead of executing; and every later call answers with it when its
    action and target are the recorded ones, and with [replay_mismatch] when
    they are not. The call itself reports the recorded outcome. *)
Theorem executed_once course answer ops items key selected target token session now later st seen s' :
  execute (interleaved course) answer items key selected target token owner session now later (after ops) = (Ok (ex_done st seen), s') →
  ∃ s1 s2 o, leads_to (after ops) s1 ∧ ¬ taken owner key s1 ∧ leads_to s1 s2 ∧ leads_to s2 s' ∧
    _outcome_row key owner s2 = Some o ∧ oc_status o = os_pending ∧ oc_session o = session ∧ oc_action o = selected ∧ oc_target o = target ∧ oc_created o = now ∧
    (∃ o', seen = Some o' ∧ origin o' = origin o) ∧
    ∀ course' s3, leads_to s2 s3 →
      (∀ a item_id session' selected' target' now', ac_key a = key →
         ∃ o', origin o' = origin o ∧ let s4 := interleaved course' at_previous (interleaved course' at_claim s3) in _outcome_row key owner s4 = Some o' ∧
           _claim_pending (interleaved course') a item_id owner session' selected' target' now' s3 = (Ok (Some o'), s4)) ∧
      (∀ answer' items' selected' target' token' session' now' later', listed selected' SAFE_ACTIONS = true →
         ∃ o', origin o' = origin o ∧ let s4 := interleaved course' at_outcome s3 in _outcome_row key owner s4 = Some o' ∧
           execute (interleaved course') answer' items' key selected' target' token' owner session' now' later' s3 =
             (if (selected == selected') && (target == target') then Ok (ex_replayed o') else Err (AttentionActionError "replay_mismatch" 409), s4)).
Proof.
  intros (t & item & a & r & s3 & -> & Hl & _ & _ & Hclaim & _ & -> & Hseen)%execute_done. destruct (live_action_key _ _ _ _ _ _ _ _ Hl) as (Hk & _).
  set (s0 := step (AUse t now) _) in Hclaim.
  assert (leads_to (after ops) s0) as H0.
  { unfold s0. etransitivity; [|apply leads_step]. etransitivity; [|apply interleaved_leads]. etransitivity; [|apply interleaved_leads]. apply interleaved_leads. }
  apply claim_none in Hclaim as (Hfree & Hs3 & Hrow); [|eapply owned_leads; [exact H0|apply owned_after]]. rewrite Hk in Hfree, Hrow.
  match type of Hrow with _ = Some ?x => set (o := x) in Hrow end. exists (interleaved course at_claim s0), s3, o.
  assert (claimed_by owner key o s3) as Hby by (by exists o).
  set (s5 := step (AFinish key _ later) _) in Hseen |- *.
  assert (leads_to s3 (interleaved course at_result s5)) as Hend.
  { etransitivity; [apply (interleaved_leads course at_execute)|]. etransitivity; [apply (interleaved_leads course at_finish)|].
    etransitivity; [apply leads_step|apply interleaved_leads]. }
  split_and!; try done.
  - etransitivity; [exact H0|apply interleaved_leads].
  - rewrite Hs3. apply leads_step.
  - destruct (claimed_leads _ _ _ owner _ _ _ _ Hend Hby) as (o' & Ho' & He). exists o'. by rewrite Hseen.
  - intros course' s4 Hs4. pose proof (claimed_leads _ _ _ owner _ _ _ _ Hs4 Hby) as H4. split.
    + intros a' item_id session' selected' target' now' Hk'. rewrite <- Hk' in H4 |- *. by apply claim_taken.
    + intros answer' items' selected' target' token' session' now' later' Hsel. by apply execute_replays.
Qed.
End Executions.

(** The verb is made by appending a letter. *)
Lemma rejected_text : decision_text "approve" = "Approved by Captain via Magistrate Attention." ∧ decision_text "reject" = "Rejectd by Captain via Magistrate Attention.".
Proof. done. Qed.

(** ** A sample call *)

Definition sample_hmac (key s : string) : string := sample_sha (key +:+ s).
Definition sample_attention : dict :=
  [("id", JStr "captain-question-task-1"); ("provider", JStr "firstmate"); ("notification_kind", JStr "captain_question"); ("status", JStr "needs-decision");
   ("revision", JStr "7"); ("title", JStr "Use the new parser?"); ("context", JObj [("task_id", JStr "task-1"); ("decision_key", JStr "parser")])].
Definition sample_key : string := Eval vm_compute in action_key_for sample_hmac "secret" sample_attention.
Definition sample_prepared : list attention_op := [APrepare [sample_attention] sample_key "approve" "task-1" "session-1" "token-1" 1000].
Definition nothing (p : place) : list attention_op := [].
Definition sample_execution : res attention_error executed * attention_db :=
  execute_confirmation sample_sha sample_hmac "secret" (interleaved sample_sha sample_hmac "secret" "user-1" nothing) (λ _ _, true)
    [sample_attention] sample_key "approve" "task-1" (Some "token-1") "user-1" "session-1" 1100 1130
    (attention_after sample_sha sample_hmac "secret" "user-1" sample_prepared).
Definition sample_seen : option outcome := Eval vm_compute in match sample_execution.1 with Ok (ex_done _ o) => o | _ => None end.
Definition sample_end : attention_db := Eval vm_compute in sample_execution.2.
Lemma sample_executes : execute_confirmation sample_sha sample_hmac "secret" (interleaved sample_sha sample_hmac "secret" "user-1" nothing) (λ _ _, true)
    [sample_attention] sample_key "approve" "task-1" (Some "token-1") "user-1" "session-1" 1100 1130
    (attention_after sample_sha sample_hmac "secret" "user-1" sample_prepared) = (Ok (ex_done os_succeeded sample_seen), sample_end).
Proof. vm_compute. reflexivity. Qed.
Lemma executed_as_confirmed_witness : is_ok (live_action sample_hmac "secret" [sample_attention] sample_key "approve" "task-1") = true.
Proof.
  exact (proj1 (proj2 (executed_as_confirmed sample_sha sample_hmac "secret" "user-1" nothing (λ _ _, true) sample_prepared [sample_attention] sample_key "approve" "task-1"
    (Some "token-1") "session-1" 1100 1130 os_succeeded sample_seen sample_end sample_executes))).
Defined.
(** A second call for the same key, and one that would reject. *)
Lemma executed_once_witness : ∃ o, oc_session o = "session-1" ∧ oc_created o = 1100 ∧
  (∃ o', origin o' = origin o ∧ (execute_confirmation sample_sha sample_hmac "secret" (interleaved sample_sha sample_hmac "secret" "user-1" nothing) (λ _ _, true)
     [] sample_key "approve" "task-1" None "user-1" "session-2" 1200 1230 sample_end).1 = Ok (ex_replayed o')) ∧
  (execute_confirmation sample_sha sample_hmac "secret" (interleaved sample_sha sample_hmac "secret" "user-1" nothing) (λ _ _, true)
     [] sample_key "reject" "task-1" None "user-1" "session-2" 1200 1230 sample_end).1 = Err (AttentionActionError "replay_mismatch" 409).
Proof.
  destruct (executed_once sample_sha sample_hmac "secret" "user-1" nothing (λ _ _, true) sample_prepared [sample_attention] sample_key "approve" "task-1"
    (Some "token-1") "session-1" 1100 1130 os_succeeded sample_seen sample_end sample_executes) as (s1 & s2 & o & _ & _ & _ & Hend & _ & _ & Hs & _ & _ & Hc & _ & Hlater).
  exists o. split; [exact Hs|]. split; [exact Hc|]. destruct (Hlater nothing sample_end Hend) as [_ Hreplay]. split.
  - destruct (Hreplay (λ _ _, true) [] "approve" "task-1" None "session-2" 1200 1230 eq_refl) as (o' & He & _ & ->). exists o'. split; [exact He|reflexivity].
  - destruct (Hreplay (λ _ _, true) [] "reject" "task-1" None "session-2" 1200 1230 eq_refl) as (o' & _ & _ & ->). reflexivity.
Defined.
