(* ===== verification/OAuth.v ===== *)
(** * OAuth transactions ([gateway/app/oauth_transactions.py])

    A provider redirects the browser to a callback that carries no session: what
    the callback may trust is what [connect] stored under a one-time state. The
    redirect policy ([urlsplit], the allowlist) and the store, with the retention
    that prunes it ([account_lifecycle.py]). *)

From stdpp Require Import base option list strings numbers sets.
From Stdlib Require Import ZArith Lia Ascii.
From S2P Require Import Prelude Sql Json Text Identity.

Open Scope string_scope.
Open Scope list_scope.
Open Scope Z_scope.

(** ** [urllib.parse] on characters below 256 *)

Record split_url := { su_scheme : string; su_netloc : string; su_path : string; su_query : string; su_fragment : string }.

Definition ascii_alpha (c : Ascii.ascii) : bool := is_lower c || is_upper c.
Definition scheme_chars (c : Ascii.ascii) : bool := is_alnum c || one_of "+-." c.
(** Control characters and the space. *)
Definition c0_or_space := in_range 0 32.
Fixpoint drop_while (p : Ascii.ascii → bool) (s : string) : string :=
  match s with String c s' => if p c then drop_while p s' else s | EmptyString => EmptyString end.
Fixpoint remove_chars (p : Ascii.ascii → bool) (s : string) : string :=
  match s with String c s' => if p c then remove_chars p s' else String c (remove_chars p s') | EmptyString => EmptyString end.
(** Tab, line feed and carriage return are removed anywhere. *)
Definition unsafe_bytes (c : Ascii.ascii) : bool := in_range 9 10 c || in_range 13 13 c.
(** The longest prefix without a character of [p], and what follows. *)
Fixpoint span (p : Ascii.ascii → bool) (s : string) : string * string :=
  match s with
  | String c s' => if p c then ("", s) else let '(a, b) := span p s' in (String c a, b)
  | EmptyString => ("", "")
  end.
(** [s.partition(c)] and [s.rpartition(c)] as pairs of texts; the separator is
    present when the flag is set. *)
Definition partition (c : Ascii.ascii) (s : string) : string * bool * string :=
  match partition_on c s with Some (a, b) => (a, true, b) | None => (s, false, "") end.
Fixpoint rpartition (c : Ascii.ascii) (s : string) : string * bool * string :=
  match s with
  | EmptyString => ("", false, "")
  | String x s' =>
      match rpartition c s' with
      | (a, true, b) => (String x a, true, b)
      | (_, false, b) => if Ascii.eqb x c then ("", true, b) else ("", false, String x b)
      end
  end.
Definition head_is (p : Ascii.ascii → bool) (s : string) : bool := match s with String c _ => p c | EmptyString => false end.

Definition split_scheme (url : string) : string * string :=
  match partition_on ":"%char url with
  | Some (name, rest) => if head_is ascii_alpha url && str_forall scheme_chars name then (sql_lower name, rest) else ("", url)
  | None => ("", url)
  end.
Definition has (c : Ascii.ascii) (s : string) : bool := str_exists (Ascii.eqb c) s.

Section Urlsplit.
(** The check of a bracketed host, which differs between releases of Python:
    [false] is [ValueError]. *)
Context (bracketed : string → bool).

(** [urlsplit(url)]; [None] is [ValueError]. The normalization check of
    [_checknetloc] never fires below 256. *)
Definition urlsplit (raw : string) : option split_url :=
  let '(scheme, url) := split_scheme (remove_chars unsafe_bytes (drop_while c0_or_space raw)) in
  let '(netloc, url) := if startswith "//" url then span (one_of "/?#") (str_drop 2 url) else ("", url) in
  if negb (Bool.eqb (has "["%char netloc) (has "]"%char netloc)) || has "["%char netloc && negb (bracketed netloc) then None
  else
    let '(url, _, fragment) := partition "#"%char url in
    let '(path, _, query) := partition "?"%char url in
    Some (Build_split_url scheme netloc path query fragment).

(** [username], [password] and [hostname] of the result. *)
Definition username (u : split_url) : option string :=
  match rpartition "@"%char (su_netloc u) with (info, true, _) => Some (partition ":"%char info).1.1 | _ => None end.
Definition password (u : split_url) : option string :=
  match rpartition "@"%char (su_netloc u) with
  | (info, true, _) => match partition ":"%char info with (_, true, p) => Some p | _ => None end
  | _ => None
  end.
Definition hostname (u : split_url) : option string :=
  let hostinfo := (rpartition "@"%char (su_netloc u)).2 in
  let host := match partition "["%char hostinfo with
              | (_, true, rest) => (partition "]"%char rest).1.1
              | _ => (partition ":"%char hostinfo).1.1
              end in
  if host == "" then None
  else let '(name, percent, zone) := partition "%"%char host in Some (sql_lower name +:+ (if percent then "%" else "") +:+ zone).

(** ** The redirect policy *)

Definition UNSAFE_REDIRECT_SCHEMES : list string := ["data"; "file"; "javascript"; "vbscript"].
Definition custom_scheme (s : string) : bool := head_is ascii_alpha s && str_forall scheme_chars s.

Definition _is_safe_redirect_uri (uri : string) : bool :=
  if (uri == "") || (2048 <? str_len uri) then false
  else match urlsplit uri with
       | None => false
       | Some u =>
           if (su_scheme u == "") || (su_netloc u == "") || negb (default "" (username u) == "") || negb (default "" (password u) == "") then false
           else if negb (su_query u == "") || negb (su_fragment u == "") then false
           else if listed (sql_lower (su_scheme u)) UNSAFE_REDIRECT_SCHEMES then false
           else if su_scheme u == "http" then match hostname u with Some h => listed h ["localhost"; "127.0.0.1"; "::1"] | None => false end
           else if su_scheme u == "https" then negb (hostname u == None)
           else custom_scheme (su_scheme u)
       end.

Definition DEFAULT_REDIRECT_URI : string := "magistrate://account".
Definition REDIRECT_URI_ENV : string := "MAGISTRATE_OAUTH_REDIRECT_URIS".
Definition allowed_redirect_uris (env : string → option string) : list string :=
  let entries := match env REDIRECT_URI_ENV with Some configured => split ","%char configured | None => [DEFAULT_REDIRECT_URI] end in
  select (λ e, negb (e == "") && _is_safe_redirect_uri e) (map strip entries).
Definition is_allowed_redirect_uri (env : string → option string) (uri : string) : bool :=
  _is_safe_redirect_uri uri && listed uri (allowed_redirect_uris env).
End Urlsplit.

(** ** The store *)

Inductive oauth_error :=
| InvalidPrincipal | InvalidProvider | DisallowedRedirect | InvalidLifetime | MalformedState | UnknownState | AlreadyConsumed | ExpiredState
| ProviderMismatch | PrincipalMismatch | OAuthIntegrityError.
#[export] Instance oauth_error_eq_dec : EqDecision oauth_error.
Proof. solve_decision. Defined.

(** [oauth_transactions] *)
Record oauth_row := { ot_hash : string; ot_principal : string; ot_provider : string; ot_redirect : string; ot_expires : Z; ot_consumed : option Z }.
#[export] Instance oauth_row_settable : Settable oauth_row :=
  λ r, Build_oauth_row (ot_hash r) (ot_principal r) (ot_provider r) (ot_redirect r) (ot_expires r) (ot_consumed r).
Definition oauth_clash (a b : oauth_row) : bool := ot_hash a == ot_hash b.
Record oauth_transaction := { tr_principal : string; tr_provider : string; tr_redirect : string; tr_expires : Z }.

Abbreviation otx := (tx oauth_error (list oauth_row)).

Definition DEFAULT_STATE_TTL_SECONDS : Z := 600.
Definition MAX_STATE_TTL_SECONDS : Z := 3600.
Definition valid_ttl (ttl : Z) : bool := (1 <=? ttl) && (ttl <=? MAX_STATE_TTL_SECONDS).
Definition _state_ttl_seconds (env : string → option string) : Z :=
  match env "MAGISTRATE_OAUTH_STATE_TTL_SECONDS" with
  | None => DEFAULT_STATE_TTL_SECONDS
  | Some configured => match py_int configured with
                       | Some ttl => if valid_ttl ttl then ttl else DEFAULT_STATE_TTL_SECONDS
                       | None => DEFAULT_STATE_TTL_SECONDS
                       end
  end.
(** [STATE_PATTERN], and the format check: [None] is a state that is no text. *)
Definition STATE_PATTERN (s : string) : bool := fullmatch_class (λ c, is_alnum c || one_of "_-" c) 43 43 s.
Definition _validate_state_format (state : option string) : res oauth_error string :=
  match state with Some s => if STATE_PATTERN s then Ok s else Err MalformedState | None => Err MalformedState end.

Section Store.
Context (bracketed : string → bool) (sha256_hex : string → string).

(** [state] is what [secrets.token_urlsafe] draws. *)
Definition create (env : string → option string) (state principal provider redirect : string) (now : Z) (ttl_seconds : option Z) : otx string :=
  require (negb (principal == "")) InvalidPrincipal;;
  require (negb (provider == "")) InvalidProvider;;
  require (is_allowed_redirect_uri bracketed env redirect) DisallowedRedirect;;
  let ttl := default (_state_ttl_seconds env) ttl_seconds in
  require (valid_ttl ttl) InvalidLifetime;;
  let row := Build_oauth_row (sha256_hex state) principal provider redirect (now + ttl) None in
  rows ← read id;
  match insert oauth_clash row rows with
  | Some rows' => modify (λ _, rows');; mret state
  | None => raise OAuthIntegrityError
  end.

Definition consume (state : option string) (provider : string) (expected : option string) (now : Z) : otx oauth_transaction :=
  valid ← lift (_validate_state_format state);
  require (negb (provider == "")) InvalidProvider;;
  require (negb (expected == Some "")) InvalidPrincipal;;
  let mine r := ot_hash r == sha256_hex valid in
  found ← read (fetchone mine);
  row ← lift (of_option UnknownState found);
  require (ot_consumed row == None) AlreadyConsumed;;
  require (now <? ot_expires row) ExpiredState;;
  require (ot_provider row == provider) ProviderMismatch;;
  require (match expected with Some p => ot_principal row == p | None => true end) PrincipalMismatch;;
  let open r := mine r && (ot_consumed r == None) && (now <? ot_expires r) in
  updated ← read (count open);
  modify (update open (λ r, r <| ot_consumed := Some now |>));;
  require (updated =? 1) AlreadyConsumed;;
  mret (Build_oauth_transaction (ot_principal row) (ot_provider row) (ot_redirect row) (ot_expires row)).

(** The statement of [enforce_retention] on this table. *)
Definition prune (current : Z) (rows : list oauth_row) : list oauth_row :=
  delete_where (λ r, ot_expires r <? current - 24 * 3600) rows.

(** A run of the store: calls in any order, each with its clock. *)
Inductive oauth_op :=
| OCreate (env : string → option string) (state principal provider redirect : string) (now : Z) (ttl_seconds : option Z)
| OConsume (state : option string) (provider : string) (expected : option string) (now : Z)
| OPrune (current : Z).
Definition oauth_step (op : oauth_op) (s : list oauth_row) : list oauth_row :=
  match op with
  | OCreate env state principal provider redirect now ttl => (commit (create env state principal provider redirect now ttl) s).2
  | OConsume state provider expected now => (commit (consume state provider expected now) s).2
  | OPrune current => prune current s
  end.
Definition oauth_after (ops : list oauth_op) (s : list oauth_row) : list oauth_row := foldl (λ s op, oauth_step op s) s ops.
End Store.
