(* ===== verification/OAuthTheorems.v ===== *)
(** * What a callback may trust

    The rows of the store in every run ([oauth_after]): the hash of a state is
    unique, a row is what one [create] wrote, and it is consumed once. *)

From stdpp Require Import base option list strings numbers sets.
From Stdlib Require Import ZArith Lia Ascii.
From S2P Require Import Prelude Sql Json Text Identity OAuth.

Open Scope string_scope.
Open Scope list_scope.
Open Scope Z_scope.

(** ** The redirect policy *)

Section Redirects.
Context (bracketed : string → bool).

Lemma sql_lower_scheme name : head_is ascii_alpha name = true → str_forall scheme_chars name = true → custom_scheme (sql_lower name) = true.
Proof.
  assert (∀ s, str_forall scheme_chars s = true → str_forall scheme_chars (sql_lower s) = true) as Hall.
  { induction s as [|c s IH]; simpl; [done|]. intros [Hc Hs]%andb_prop. rewrite (IH Hs), andb_true_r.
    revert Hc. clear. destruct c as [[] [] [] [] [] [] [] []]; vm_compute; done. }
  intros Hh Hs. unfold custom_scheme. rewrite (Hall _ Hs), andb_true_r. destruct name as [|c name]; [done|].
  revert Hh. clear. simpl. destruct c as [[] [] [] [] [] [] [] []]; vm_compute; done.
Qed.
Lemma partition_on_head c s a b : partition_on c s = Some (a, b) → a ≠ "" → ∀ p, head_is p a = head_is p s.
Proof.
  destruct s as [|x s]; simpl; [done|]. destruct (Ascii.eqb x c); [by intros [= <- <-]|].
  destruct (partition_on c s) as [[k v]|]; simpl; [|done]. by intros [= <- <-].
Qed.
(** The last test of [_is_safe_redirect_uri] never refuses: [urlsplit] only
    takes for a scheme what the pattern accepts. *)
Lemma scheme_always_custom raw u : urlsplit bracketed raw = Some u → su_scheme u ≠ "" → custom_scheme (su_scheme u) = true.
Proof.
  unfold urlsplit. destruct (split_scheme _) as [scheme url] eqn:Es.
  destruct (if startswith "//" url then _ else _) as [netloc url']. destruct (_ || _); [done|].
  destruct (partition "#"%char url') as [[? ?] ?]. destruct (partition "?"%char _) as [[? ?] ?]. intros [= <-] Hne. simpl in *.
  revert Es Hne. unfold split_scheme. set (w := remove_chars _ _).
  destruct (partition_on ":"%char w) as [[name rest]|] eqn:Ep; [|by intros [= <- <-]].
  destruct (head_is ascii_alpha w && str_forall scheme_chars name) eqn:E; [|by intros [= <- <-]]. intros [= <- <-] Hne.
  apply andb_prop in E as [Hh Hs]. apply sql_lower_scheme; [|done]. rewrite (partition_on_head _ _ _ _ Ep); [done|]. by intros ->.
Qed.

(** An allowed redirect is an entry of the allowlist, names a host and no
    account, and does not run in a browser. *)
Lemma allowed_redirect env uri : is_allowed_redirect_uri bracketed env uri = true →
  uri ∈ allowed_redirect_uris bracketed env ∧
  ∃ u, urlsplit bracketed uri = Some u ∧ su_netloc u ≠ "" ∧ su_query u = "" ∧ su_fragment u = "" ∧ su_scheme u ∉ UNSAFE_REDIRECT_SCHEMES ∧
    (su_scheme u = "http" → ∃ h, hostname u = Some h ∧ h ∈ ["localhost"; "127.0.0.1"; "::1"]).
Proof.
  unfold is_allowed_redirect_uri. intros [Hs Hl]%andb_prop. split; [by apply listed_spec|]. revert Hs. unfold _is_safe_redirect_uri.
  destruct (_ || _); [done|]. destruct (urlsplit bracketed uri) as [u|] eqn:Eu; [|done]. intros Hs. exists u. split; [done|].
  destruct (_ || _) eqn:E1 in Hs; [done|]. apply orb_false_iff in E1 as [[[E1 E2]%orb_false_iff E3]%orb_false_iff E4].
  destruct (_ || _) eqn:E5 in Hs; [done|]. apply orb_false_iff in E5 as [E5%negb_false_iff E6%negb_false_iff].
  destruct (listed (sql_lower _) _) eqn:E7; [done|]. bools. repeat split; [done..| |].
  - intros Hin. assert (sql_lower (su_scheme u) = su_scheme u) as Hlow; [|rewrite Hlow in E7; apply listed_spec in Hin; congruence].
    clear -Hin. unfold UNSAFE_REDIRECT_SCHEMES in Hin. set_unfold in Hin. destruct Hin as [-> | [-> | [-> | [-> | []]]]]; reflexivity.
  - intros Hh. rewrite Hh in Hs. cbn in Hs. destruct (hostname u) as [h|]; [|done].
    exists h. split; [done|]. by apply listed_spec.
Qed.
End Redirects.

(** ** The store *)

Section Store.
Context (bracketed : string → bool) (sha256_hex : string → string).
Local Abbreviation step := (oauth_step bracketed sha256_hex).
Local Abbreviation after := (oauth_after bracketed sha256_hex).
Implicit Types (r : oauth_row) (s : list oauth_row).

Definition keyed s : Prop := NoDup (map ot_hash s).
(** What a successful [create] writes. *)
Definition writes env state principal provider redirect now ttl r : Prop :=
  ot_hash r = sha256_hex state ∧ ot_principal r = principal ∧ ot_provider r = provider ∧ ot_redirect r = redirect ∧
  ot_expires r = now + default (_state_ttl_seconds env) ttl ∧ ot_consumed r = None ∧
  is_allowed_redirect_uri bracketed env redirect = true ∧ principal ≠ "" ∧ provider ≠ "" ∧ valid_ttl (default (_state_ttl_seconds env) ttl) = true.

Lemma create_cases env state principal provider redirect now ttl s st s' :
  create bracketed sha256_hex env state principal provider redirect now ttl s = Ok (st, s') →
  st = state ∧ ∃ r, writes env state principal provider redirect now ttl r ∧ insert oauth_clash r s = Some s'.
Proof.
  unfold create. intros H. tx_inv. bools. split; [done|]. eexists. split; [|eassumption]. repeat split; done.
Qed.

Definition opens (state : string) (now : Z) r : bool := (ot_hash r == sha256_hex state) && (ot_consumed r == None) && (now <? ot_expires r).
Lemma consume_cases state provider expected now s t s' : consume sha256_hex state provider expected now s = Ok (t, s') →
  ∃ st r, state = Some st ∧ STATE_PATTERN st = true ∧ provider ≠ "" ∧ r ∈ s ∧ ot_hash r = sha256_hex st ∧ ot_consumed r = None ∧ now < ot_expires r ∧
    ot_provider r = provider ∧ (∀ p, expected = Some p → ot_principal r = p) ∧
    t = Build_oauth_transaction (ot_principal r) (ot_provider r) (ot_redirect r) (ot_expires r) ∧
    s' = update (opens st now) (λ r, r <| ot_consumed := Some now |>) s.
Proof.
  unfold consume, _validate_state_format. intros H. tx_inv. bools.
  match goal with Hf : fetchone (λ x, ot_hash x == sha256_hex ?st) _ = Some ?r |- _ => apply fetchone_some in Hf as [Hr Hh]; exists st, r end. bools.
  repeat split; try done. intros p ->. by bools.
Qed.

(** A step changes nothing of a row but marks it consumed once, and adds what
    [create] writes. *)
Lemma step_rows op s r : r ∈ step op s →
  (∃ r0, r0 ∈ s ∧ (r = r0 ∨ ot_consumed r0 = None ∧ ∃ at_, r = r0 <| ot_consumed := Some at_ |>)) ∨
  (∃ env state principal provider redirect now ttl, op = OCreate env state principal provider redirect now ttl ∧
     writes env state principal provider redirect now ttl r).
Proof.
  destruct op as [env state principal provider redirect now ttl|state provider expected now|current]; simpl.
  - destruct (commit_cases (create bracketed sha256_hex env state principal provider redirect now ttl) s) as [(a & s1 & E & ->)|(e & E & ->)]; simpl; [|by eauto].
    apply create_cases in E as (_ & r1 & Hw & (-> & _)%insert_some). intros [Hr|Hr%list_elem_of_singleton]%elem_of_app; [by eauto|].
    subst. right. naive_solver.
  - destruct (commit_cases (consume sha256_hex state provider expected now) s) as [(a & s1 & E & ->)|(e & E & ->)]; simpl; [|by eauto].
    apply consume_cases in E as (st & r1 & _ & _ & _ & _ & _ & _ & _ & _ & _ & _ & ->). intros (r0 & Hr0 & ->)%elem_of_update.
    left. exists r0. split; [done|]. destruct (opens st now r0) eqn:E; [|by left]. unfold opens in E. bools. eauto.
  - intros [Hr _]%elem_of_delete. eauto.
Qed.
Lemma step_keyed op s : keyed s → keyed (step op s).
Proof.
  unfold keyed. intros Hs. destruct op as [env state principal provider redirect now ttl|state provider expected now|current]; simpl.
  - destruct (commit_cases (create bracketed sha256_hex env state principal provider redirect now ttl) s) as [(a & s1 & E & ->)|(e & E & ->)]; simpl; [|done].
    apply create_cases in E as (_ & r1 & _ & Hi). apply (insert_NoDup ot_hash oauth_clash r1 s s1); [|done..]. intros x y Hxy. by apply bool_decide_true.
  - destruct (commit_cases (consume sha256_hex state provider expected now) s) as [(a & s1 & E & ->)|(e & E & ->)]; simpl; [|done].
    apply consume_cases in E as (st & r1 & _ & _ & _ & _ & _ & _ & _ & _ & _ & _ & ->). by rewrite map_update.
  - by apply NoDup_map_delete.
Qed.
Lemma after_snoc ops op s : after (ops ++ [op]) s = step op (after ops s).
Proof. unfold oauth_after. by rewrite foldl_app. Qed.
Lemma after_keyed ops s : keyed s → keyed (after ops s).
Proof. intros Hs. induction ops as [|op ops IH] using rev_ind; [done|]. rewrite after_snoc. by apply step_keyed. Qed.

Lemma after_cons op ops s : after (op :: ops) s = after ops (step op s).
Proof. done. Qed.

(** Every row was written by one call of [create]; its identity never changes. *)
Definition written_in (ops : list oauth_op) r : Prop := ∃ pre env state principal provider redirect now ttl post r0,
  ops = pre ++ OCreate env state principal provider redirect now ttl :: post ∧ writes env state principal provider redirect now ttl r0 ∧
  ot_hash r = ot_hash r0 ∧ ot_principal r = ot_principal r0 ∧ ot_provider r = ot_provider r0 ∧ ot_redirect r = ot_redirect r0 ∧ ot_expires r = ot_expires r0.
Lemma rows_written ops r : r ∈ after ops [] → written_in ops r.
Proof.
  revert r. induction ops as [|op ops IH] using rev_ind; [by intros ? ?%elem_of_nil|]. intros r. rewrite after_snoc.
  intros [(r0 & Hr0 & Hsame)|(env & state & principal & provider & redirect & now & ttl & -> & Hw)]%step_rows.
  - destruct (IH _ Hr0) as (pre & env & state & principal & provider & redirect & now & ttl & post & r1 & -> & Hw & ? & ? & ? & ? & ?).
    exists pre, env, state, principal, provider, redirect, now, ttl, (post ++ [op]), r1. rewrite <- app_assoc.
    by destruct Hsame as [->|(_ & at_ & ->)].
  - exists ops, env, state, principal, provider, redirect, now, ttl, [], r. done.
Qed.

(** The rows of a consumed state. *)
Definition spent (h : string) s : Prop := ∀ r, r ∈ s → ot_hash r = h → ot_consumed r ≠ None.
Definition draws_not (h : string) (op : oauth_op) : Prop := match op with OCreate _ state _ _ _ _ _ => sha256_hex state ≠ h | _ => True end.
Lemma step_spent op h s : draws_not h op → spent h s → spent h (step op s).
Proof.
  intros Hd Hs r [(r0 & Hr0 & [->|(_ & at_ & ->)])|(env & state & principal & provider & redirect & now & ttl & -> & Hw)]%step_rows Hh; [by eapply Hs|done|].
  destruct Hw as (Hhash & _). simpl in Hd. congruence.
Qed.
Lemma after_spent ops h s : Forall (draws_not h) ops → spent h s → spent h (after ops s).
Proof. revert s. induction ops as [|op ops IH]; intros s Hd Hs; [done|]. inversion Hd; subst. rewrite after_cons. apply IH; [done|]. by apply step_spent. Qed.
Lemma spent_refused st provider expected now s : spent (sha256_hex st) s → ∃ e, consume sha256_hex (Some st) provider expected now s = Err e.
Proof.
  intros Hs. destruct (consume sha256_hex (Some st) provider expected now s) as [[t s']|e] eqn:E; [|by eauto].
  apply consume_cases in E as (st' & r & [= <-] & _ & _ & Hr & Hh & Hc & _). by destruct (Hs r Hr Hh).
Qed.

(** An unconsumed row stays until a callback of its own provider names its
    state or retention removes it. *)
Definition spares (h provider : string) (expires : Z) (op : oauth_op) : Prop :=
  match op with
  | OCreate _ _ _ _ _ _ _ => True
  | OConsume state p _ _ => ∀ st, state = Some st → sha256_hex st = h → p ≠ provider
  | OPrune current => current - 24 * 3600 ≤ expires
  end.
Lemma step_spares op s r : keyed s → r ∈ s → spares (ot_hash r) (ot_provider r) (ot_expires r) op → r ∈ step op s.
Proof.
  intros Hk Hr. destruct op as [env state principal provider redirect now ttl|state provider expected now|current]; simpl; intros Hsp.
  - destruct (commit_cases (create bracketed sha256_hex env state principal provider redirect now ttl) s) as [(a & s1 & E & ->)|(e & E & ->)]; simpl; [|done].
    apply create_cases in E as (_ & r1 & _ & (-> & _)%insert_some). apply elem_of_app. by left.
  - destruct (commit_cases (consume sha256_hex state provider expected now) s) as [(a & s1 & E & ->)|(e & E & ->)]; simpl; [|done].
    apply consume_cases in E as (st & r1 & -> & _ & _ & Hr1 & Hh1 & _ & _ & Hp1 & _ & _ & ->). apply elem_of_update. exists r. split; [done|].
    destruct (opens st now r) eqn:E; [|done]. unfold opens in E. bools. exfalso. eapply Hsp; [done..|].
    assert (r = r1) as <-; [|done]. eapply (NoDup_key_inj ot_hash); [exact Hk|done..|congruence].
  - apply elem_of_delete. split; [done|]. apply Z.ltb_ge. lia.
Qed.
Lemma after_spares ops s r : keyed s → r ∈ s → Forall (spares (ot_hash r) (ot_provider r) (ot_expires r)) ops → r ∈ after ops s.
Proof.
  revert s. induction ops as [|op ops IH]; intros s Hk Hr Hd; [done|]. inversion Hd; subst. rewrite after_cons.
  apply IH; [by apply step_keyed|by apply step_spares|done].
Qed.
Lemma consume_open s r st provider expected now : keyed s → r ∈ s → ot_hash r = sha256_hex st → ot_consumed r = None → STATE_PATTERN st = true → provider ≠ "" →
  ot_provider r = provider → (expected = None ∨ expected = Some (ot_principal r)) → ot_principal r ≠ "" → now < ot_expires r →
  ∃ s', consume sha256_hex (Some st) provider expected now s = Ok (Build_oauth_transaction (ot_principal r) provider (ot_redirect r) (ot_expires r), s').
Proof.
  intros Hk Hr Hh Hc Hst Hp Hpr He Hne Hnow. unfold consume, _validate_state_format. rewrite Hst.
  assert (fetchone (λ x, ot_hash x == sha256_hex st) s = Some r) as Hf.
  { eapply (fetchone_unique ot_hash); [exact Hk|done|by apply bool_decide_true|]. intros x Hx. bools. congruence. }
  assert (count (opens st now) s = 1) as Hcount.
  { eapply (count_only ot_hash); [exact Hk|exact Hr| |].
    - unfold opens. by rewrite Hh, Hc, !bool_decide_true, (proj2 (Z.ltb_lt _ _) Hnow).
    - intros x Hx Hopen. unfold opens in Hopen. bools. eapply (NoDup_key_inj ot_hash); [exact Hk|done..|congruence]. }
  eexists. unfold mbind, tx_bind, require, lift, ensure, read, modify, mret, tx_ret, of_option. simpl.
  rewrite (bool_decide_false (provider = "")), (bool_decide_false (expected = Some "")) by naive_solver. simpl.
  rewrite Hf, Hc, (proj2 (Z.ltb_lt _ _) Hnow), Hpr, (bool_decide_true (provider = provider)) by done. simpl. unfold opens in Hcount.
  destruct He as [->| ->]; simpl; rewrite ?(bool_decide_true (ot_principal r = ot_principal r)), Hcount by done; reflexivity.
Qed.

(** ** The contract of the store *)

(** C28. What a callback gets is what one [connect] stored: in any run of the
    store from empty, a transaction that [consume] returns was written by an
    earlier [create] with a state of the same hash, for the principal, provider
    and redirect it returns, which was then on the allowlist; the callback came
    before the expiry, at most an hour after that [create], and named the
    provider (and the principal, where it expects one). Nothing comes from the
    request but the state. *)
Theorem callback_trusts_connect ops st provider expected now t s' :
  consume sha256_hex (Some st) provider expected now (after ops []) = Ok (t, s') →
  ∃ pre env state redirect created ttl post,
    ops = pre ++ OCreate env state (tr_principal t) (tr_provider t) redirect created ttl :: post ∧ sha256_hex state = sha256_hex st ∧
    tr_redirect t = redirect ∧ is_allowed_redirect_uri bracketed env redirect = true ∧ tr_provider t = provider ∧
    (∀ p, expected = Some p → tr_principal t = p) ∧ now < tr_expires t ∧ created < tr_expires t ≤ created + MAX_STATE_TTL_SECONDS.
Proof.
  intros (st' & r & [= <-] & _ & _ & Hr & Hh & _ & Hnow & Hp & He & -> & _)%consume_cases.
  apply rows_written in Hr as (pre & env & state & principal & provider' & redirect & created & ttl & post & r0 & -> & Hw & Eh & Ep & Epr & Er & Ee).
  destruct Hw as (Wh & Wp & Wpr & Wr & We & _ & Wa & _ & _ & Wt). unfold valid_ttl in Wt. bools. simpl.
  exists pre, env, state, redirect, created, ttl, post. rewrite Ep, Wp, Epr, Wpr. split_and!; try congruence; try done; try lia. intros p Hx. rewrite <- (He p Hx). congruence.
Qed.

(** A state works once: after a callback consumed it, every later callback
    with the same state is refused, whatever runs in between, as long as no
    [create] draws a state with the same hash. *)
Theorem state_works_once ops st provider expected now t s1 later provider' expected' now' :
  consume sha256_hex (Some st) provider expected now (after ops []) = Ok (t, s1) → Forall (draws_not (sha256_hex st)) later →
  ∃ e, consume sha256_hex (Some st) provider' expected' now' (after later s1) = Err e.
Proof.
  intros E Hl. apply spent_refused, after_spent; [done|]. apply consume_cases in E as (st' & r & [= <-] & _ & _ & Hr & Hh & Hc & Hnow & _ & _ & _ & ->).
  intros r1 (r2 & Hr2 & ->)%elem_of_update Hh1. destruct (opens st now r2) eqn:Eo; [done|]. exfalso.
  assert (ot_hash r2 = ot_hash r) as Hk by congruence.
  assert (r2 = r) as -> by (eapply (NoDup_key_inj ot_hash); [apply (after_keyed ops []), NoDup_nil_2|done..]).
  unfold opens in Eo. rewrite Hh, Hc, (proj2 (Z.ltb_lt _ _) Hnow), !bool_decide_true in Eo by done. done.
Qed.

(** C29. A stored state comes back: after [create] returned a state of 43
    characters, a callback of its provider before the expiry gets the principal,
    the provider and the redirect that were stored, whatever ran in between
    except a callback of the same provider with that state. Callbacks that name
    the state under another provider do not burn it, and retention leaves it. *)
Theorem stored_state_recovered ops env state principal provider redirect created ttl s1 later expected now :
  create bracketed sha256_hex env state principal provider redirect created ttl (after ops []) = Ok (state, s1) → STATE_PATTERN state = true →
  let expires := created + default (_state_ttl_seconds env) ttl in
  Forall (spares (sha256_hex state) provider expires) later → now < expires → expected = None ∨ expected = Some principal →
  ∃ s2, consume sha256_hex (Some state) provider expected now (after later s1) = Ok (Build_oauth_transaction principal provider redirect expires, s2).
Proof.
  intros E Hst expires Hl Hnow He. pose proof (step_keyed (OCreate env state principal provider redirect created ttl) _ (after_keyed ops [] (NoDup_nil_2))) as Hk.
  simpl in Hk. unfold commit in Hk. rewrite E in Hk. simpl in Hk.
  apply create_cases in E as (_ & r & (Wh & Wp & Wpr & Wr & We & Wc & _ & Hne & Hnp & _) & (Hs1 & _)%insert_some).
  subst principal provider redirect. rewrite <- Wh in Hl. fold expires in We. rewrite <- We in *. apply consume_open; try done.
  - by apply after_keyed.
  - apply after_spares; [done| |done]. rewrite Hs1. apply elem_of_app. right. by apply list_elem_of_singleton.
Qed.
End Store.

(** * A run of the OAuth store

    Two connections, a callback under the wrong provider, retention, and the
    callback of the first. *)

Definition any_host : string → bool := λ _, true.
Definition tagged (s : string) : string := "sha:" +:+ s.
Definition oauth_env (name : string) : option string :=
  if String.eqb name REDIRECT_URI_ENV then Some " magistrate://account , http://localhost:8081/cb, http://evil.example/cb,javascript://x/%0a" else None.
Definition state1 : string := "state-one-0123456789012345678901234567890ab".
Definition state2 : string := "state-two-0123456789012345678901234567890ab".
Definition connect1 := OCreate oauth_env state1 "ann" "github" "http://localhost:8081/cb" 1000 None.
Definition between : list oauth_op :=
  [OCreate oauth_env state2 "bob" "google" "magistrate://account" 1010 (Some 60); OConsume (Some state1) "google" None 1020; OPrune 50000].
Definition callback (ops : list oauth_op) (now : Z) := consume tagged (Some state1) "github" (Some "ann") now (oauth_after any_host tagged ops []).
Definition stored_ann : oauth_transaction := Build_oauth_transaction "ann" "github" "http://localhost:8081/cb" 1600.

(** The allowlist keeps what is safe. *)
Example allowlist : allowed_redirect_uris any_host oauth_env = ["magistrate://account"; "http://localhost:8081/cb"].
Proof. vm_compute. reflexivity. Qed.
(** A user name that is empty passes. *)
Example empty_user_passes : _is_safe_redirect_uri any_host "app://@host/" = true ∧ _is_safe_redirect_uri any_host "app://user@host/" = false.
Proof. vm_compute. done. Qed.
Example expired_callback : callback [connect1] 1600 = Err ExpiredState.
Proof. vm_compute. reflexivity. Qed.

Definition rows_after (r : res oauth_error (oauth_transaction * list oauth_row)) : list oauth_row := match r with Ok (_, s) => s | Err _ => [] end.

Lemma callback_trusts_connect_witness : ∃ pre env state redirect created ttl post,
  connect1 :: between = pre ++ OCreate env state "ann" "github" redirect created ttl :: post ∧ tagged state = tagged state1 ∧
  "http://localhost:8081/cb" = redirect ∧ is_allowed_redirect_uri any_host env redirect = true ∧ "github" = "github" ∧
  (∀ p, Some "ann" = Some p → "ann" = p) ∧ created < 1600 ≤ created + MAX_STATE_TTL_SECONDS.
Proof.
  destruct (callback_trusts_connect any_host tagged (connect1 :: between) state1 "github" (Some "ann") 1500 stored_ann (rows_after (callback (connect1 :: between) 1500)))
    as (pre & env & state & redirect & created & ttl & post & H1 & H2 & H3 & H4 & H5 & H6 & _ & H8); [vm_compute; reflexivity|].
  exists pre, env, state, redirect, created, ttl, post. split_and!; try assumption; apply H8.
Defined.

Lemma stored_state_recovered_witness :
  ∃ s2, consume tagged (Some state1) "github" (Some "ann") 1500 (oauth_after any_host tagged between (oauth_after any_host tagged [connect1] [])) = Ok (stored_ann, s2).
Proof.
  apply (stored_state_recovered any_host tagged [] oauth_env state1 "ann" "github" "http://localhost:8081/cb" 1000 None (oauth_after any_host tagged [connect1] []) between (Some "ann") 1500).
  - vm_compute. reflexivity.
  - vm_compute. reflexivity.
  - repeat constructor; vm_compute; congruence.
  - vm_compute. reflexivity.
  - by right.
Defined.
