(* ===== verification/PiEnvelope.v ===== *)
(** * Ownership envelopes of the Pi adapter ([gateway/app/pi_ownership.py])

    What the adapter sends: the contracts with their validators, the identity
    of an envelope ([_semantic_envelope_hash]), the proof that its source
    entries belong to one turn ([_validate_sequence]) and the text it carries
    ([_visible_text]). *)

From stdpp Require Import base option list strings numbers sets.
From Stdlib Require Import ZArith Lia.
From S2P Require Import Prelude Sql Json Text.

Open Scope string_scope.
Open Scope list_scope.
Open Scope Z_scope.

(** [PiOwnershipError], [LookupError], the [ValueError]s of pydantic and of
    [json.dumps], [RuntimeError], and an integrity error of SQLite. *)
Inductive pi_error := PiOwnershipError | PiLookupError | PiValueError | PiRuntimeError | PiIntegrityError.
#[export] Instance pi_error_eq_dec : EqDecision pi_error.
Proof. solve_decision. Defined.

(** ** Contracts *)

Inductive entry_type := et_message | et_custom | et_redacted.
Inductive entry_role := er_user | er_assistant.
Inductive stop_reason := sr_stop | sr_length | sr_tool_use | sr_error | sr_aborted.
Inductive event_type := ev_prepared | ev_bound | ev_finalized | ev_failed.
Inductive finality := fi_pending | fi_final | fi_failed.
#[export] Instance entry_type_eq_dec : EqDecision entry_type. Proof. solve_decision. Defined.
#[export] Instance entry_role_eq_dec : EqDecision entry_role. Proof. solve_decision. Defined.
#[export] Instance stop_reason_eq_dec : EqDecision stop_reason. Proof. solve_decision. Defined.
#[export] Instance event_type_eq_dec : EqDecision event_type. Proof. solve_decision. Defined.
#[export] Instance finality_eq_dec : EqDecision finality. Proof. solve_decision. Defined.

Record PiSourceEntry := {
  se_order : Z; se_id : string; se_parent : option string; se_type : entry_type; se_role : option entry_role; se_custom : option string;
  se_stop : option stop_reason;
}.
#[export] Instance source_entry_eq_dec : EqDecision PiSourceEntry. Proof. solve_decision. Defined.
Record PiAssistantContentBlock := { cb_index : Z; cb_text : string }.
#[export] Instance content_block_eq_dec : EqDecision PiAssistantContentBlock. Proof. solve_decision. Defined.

(** [schema_version] is a constant; a [type] of a block too. *)
Record PiOwnershipEnvelope := {
  en_event : event_type; en_nonce : string; en_incarnation : string; en_capability : string; en_tenant : string; en_principal : string;
  en_conversation : string; en_turn : string; en_message : string; en_objective : string; en_run : string; en_revision : Z;
  en_session : option string; en_prepare : option string; en_user : option string; en_user_order : option Z; en_user_sha : option string;
  en_bind : option string; en_assistant : option string; en_assistant_order : option Z; en_finalize : option string; en_finality : finality;
  en_stop : option stop_reason; en_bound_at : option Z; en_finalized_at : option Z; en_start : option Z; en_end : option Z; en_cursor : option string;
  en_sequence : list PiSourceEntry; en_sequence_sha : option string; en_visible_sha : option string; en_content : list PiAssistantContentBlock;
  en_error : option string;
}.

Definition PI_MAX_SOURCE_ENTRIES : Z := 4096.
Definition PI_MAX_VISIBLE_CHARS : Z := 200000.
Definition PI_MAX_VISIBLE_BYTES : Z := 1000000.
Definition PI_PREPARE_ENTRY_TYPE : string := "magistrate.pi.dispatch.prepare.v1".
Definition PI_BIND_ENTRY_TYPE : string := "magistrate.pi.dispatch.bind.v1".
Definition PI_FINALIZE_ENTRY_TYPE : string := "magistrate.pi.dispatch.finalize.v1".

(** Characters below 32 or from 127 to 159; text is valid Unicode below 256. *)
Definition is_control (c : Ascii.ascii) : bool := in_range 0 31 c || in_range 127 159 c.
Definition _valid_identity_text (value : string) : bool := negb (str_exists is_control value).
Definition _valid_visible_text (value : string) : bool :=
  negb (str_exists (λ c, in_range 0 31 c && negb (in_range 9 10 c || in_range 13 13 c) || in_range 127 159 c) value).

Definition id_char (c : Ascii.ascii) : bool := is_alnum c || one_of "._-" c.
Definition _PI_ENTRY_ID_PATTERN (s : string) : bool := fullmatch1 is_alnum id_char 0 127 s.
Definition opaque_char (c : Ascii.ascii) : bool := is_alnum c || one_of "_-" c.
(** [^prefix[A-Za-z0-9_-]+$] within [lo] and [hi] characters *)
Definition opaque_id (prefix : string) (lo hi : Z) (s : string) : bool :=
  startswith prefix s && fullmatch_class opaque_char 1 hi (str_drop (String.length prefix) s) && (lo <=? str_len s) && (str_len s <=? hi).
Definition bounded (lo hi n : Z) : bool := (lo <=? n) && (n <=? hi).
Definition optional {A} (p : A → bool) (o : option A) : bool := match o with Some a => p a | None => true end.
Definition absent {A} (o : option A) : bool := match o with Some _ => false | None => true end.
Definition given {A} (o : option A) : bool := negb (absent o).

(** [PiSourceEntry.validate_shape] *)
Definition validate_shape (e : PiSourceEntry) : bool :=
  match se_type e with
  | et_message => given (se_role e) && absent (se_custom e) &&
      (if bool_decide (se_role e = Some er_assistant) then given (se_stop e) else absent (se_stop e))
  | et_custom => given (se_custom e) && absent (se_role e) && absent (se_stop e)
  | et_redacted => absent (se_role e) && absent (se_custom e) && absent (se_stop e)
  end.
Definition valid_entry (e : PiSourceEntry) : bool :=
  bounded 0 MAX_CONTRACT_INTEGER (se_order e) && _PI_ENTRY_ID_PATTERN (se_id e) && optional _PI_ENTRY_ID_PATTERN (se_parent e) &&
  optional (λ t, bounded 1 128 (str_len t)) (se_custom e) && validate_shape e.
Definition valid_block (b : PiAssistantContentBlock) : bool := bounded 0 1000000 (cb_index b).
Definition error_code_char (c : Ascii.ascii) : bool := is_lower c || is_digit c || one_of "._-" c.
Definition order_ok (n : Z) : bool := bounded 0 MAX_CONTRACT_INTEGER n.
Definition time_ok (n : Z) : bool := 1000000000000 <=? n.

(** The constraints of the fields. *)
Definition valid_fields (e : PiOwnershipEnvelope) : bool :=
  fullmatch_class opaque_char 16 128 (en_nonce e) && opaque_id "pdi_" 20 100 (en_incarnation e) && _SAFE_HASH (en_capability e) &&
  bounded 1 256 (str_len (en_tenant e)) && _valid_identity_text (en_tenant e) && bounded 1 256 (str_len (en_principal e)) && _valid_identity_text (en_principal e) &&
  opaque_id "cv_" 4 128 (en_conversation e) && opaque_id "ct_" 4 128 (en_turn e) && opaque_id "cm_" 4 128 (en_message e) &&
  opaque_id "obj_" 5 128 (en_objective e) && opaque_id "run_" 5 128 (en_run e) && bounded 0 2 (en_revision e) &&
  forallb (optional _PI_ENTRY_ID_PATTERN) [en_session e; en_prepare e; en_user e; en_bind e; en_assistant e; en_finalize e; en_cursor e] &&
  forallb (optional order_ok) [en_user_order e; en_assistant_order e; en_start e; en_end e] && forallb (optional time_ok) [en_bound_at e; en_finalized_at e] &&
  forallb (optional _SAFE_HASH) [en_user_sha e; en_sequence_sha e; en_visible_sha e] &&
  forallb valid_entry (en_sequence e) && (Z.of_nat (length (en_sequence e)) <=? PI_MAX_SOURCE_ENTRIES) &&
  forallb valid_block (en_content e) && (Z.of_nat (length (en_content e)) <=? 4096) &&
  optional (fullmatch1 (λ c, is_lower c || is_digit c) error_code_char 0 63) (en_error e).

Definition binding_given (e : PiOwnershipEnvelope) : list bool :=
  [given (en_session e); given (en_prepare e); given (en_user e); given (en_user_order e); given (en_user_sha e); given (en_bind e); given (en_bound_at e)].
Definition final_given (e : PiOwnershipEnvelope) : list bool :=
  [given (en_assistant e); given (en_assistant_order e); given (en_finalize e); given (en_finalized_at e)].
Definition source_given (e : PiOwnershipEnvelope) : list bool :=
  [given (en_start e); given (en_end e); given (en_cursor e); given (en_sequence_sha e)].
Definition all_given (l : list bool) : bool := forallb id l.
Definition none_given (l : list bool) : bool := forallb negb l.
Definition empty {A} (l : list A) : bool := match l with [] => true | _ => false end.

(** [PiOwnershipEnvelope.validate_stage] *)
Definition validate_stage (e : PiOwnershipEnvelope) : bool :=
  match en_event e with
  | ev_prepared => (en_revision e =? 0) && bool_decide (en_finality e = fi_pending) && none_given (binding_given e ++ final_given e ++ source_given e) &&
      absent (en_stop e) && absent (en_error e) && empty (en_sequence e) && empty (en_content e) && absent (en_visible_sha e)
  | ev_bound => (en_revision e =? 1) && bool_decide (en_finality e = fi_pending) && all_given (binding_given e ++ source_given e) && none_given (final_given e) &&
      absent (en_stop e) && absent (en_error e) && negb (empty (en_sequence e)) && empty (en_content e) && absent (en_visible_sha e)
  | ev_finalized => (en_revision e =? 2) && bool_decide (en_finality e = fi_final) && bool_decide (en_stop e = Some sr_stop) &&
      all_given (binding_given e ++ final_given e ++ source_given e) && absent (en_error e) && negb (empty (en_sequence e)) && negb (empty (en_content e)) &&
      given (en_visible_sha e)
  | ev_failed => (en_revision e =? 0) && bool_decide (en_finality e = fi_failed) && given (en_error e) &&
      none_given (binding_given e ++ final_given e ++ source_given e) && empty (en_sequence e) && empty (en_content e) && absent (en_visible_sha e) && absent (en_stop e)
  end.
Definition model_validate (e : PiOwnershipEnvelope) : bool := valid_fields e && validate_stage e.

(** ** Identity *)

Definition jopt {A} (f : A → json) (o : option A) : json := match o with Some a => f a | None => JNull end.
Definition type_text (t : entry_type) : string := match t with et_message => "message" | et_custom => "custom" | et_redacted => "redacted" end.
Definition role_text (r : entry_role) : string := match r with er_user => "user" | er_assistant => "assistant" end.
Definition stop_text (r : stop_reason) : string :=
  match r with sr_stop => "stop" | sr_length => "length" | sr_tool_use => "toolUse" | sr_error => "error" | sr_aborted => "aborted" end.
Definition event_text (e : event_type) : string :=
  match e with ev_prepared => "dispatch.prepared" | ev_bound => "dispatch.bound" | ev_finalized => "dispatch.finalized" | ev_failed => "dispatch.failed" end.
Definition finality_text (f : finality) : string := match f with fi_pending => "pending" | fi_final => "final" | fi_failed => "failed" end.

(** [model_dump(mode='json')], with the keys in the order [sort_keys] gives. *)
Definition entry_json (e : PiSourceEntry) : json :=
  JObj [("custom_type", jopt JStr (se_custom e)); ("entry_id", JStr (se_id e)); ("entry_type", JStr (type_text (se_type e))); ("order", JInt (se_order e));
    ("parent_id", jopt JStr (se_parent e)); ("role", jopt (λ r, JStr (role_text r)) (se_role e)); ("stop_reason", jopt (λ r, JStr (stop_text r)) (se_stop e))].
Definition sequence_json (l : list PiSourceEntry) : json := JList (map entry_json l).
Definition block_json (b : PiAssistantContentBlock) : json := JObj [("index", JInt (cb_index b)); ("text", JStr (cb_text b)); ("type", JStr "text")].
Definition visible_json (l : list PiAssistantContentBlock) : json :=
  JList (map (λ b, JObj [("index", JInt (cb_index b)); ("text", JStr (cb_text b))]) l).
(** Without [request_nonce]. *)
Definition envelope_json (e : PiOwnershipEnvelope) : json :=
  JObj [("assistant_content", JList (map block_json (en_content e))); ("assistant_message_id", JStr (en_message e)); ("bound_at", jopt JInt (en_bound_at e));
    ("capability_sha256", JStr (en_capability e)); ("conversation_id", JStr (en_conversation e)); ("dispatch_incarnation", JStr (en_incarnation e));
    ("error_code", jopt JStr (en_error e)); ("event_type", JStr (event_text (en_event e))); ("finality", JStr (finality_text (en_finality e)));
    ("finalized_at", jopt JInt (en_finalized_at e)); ("objective_id", JStr (en_objective e)); ("pi_assistant_entry_id", jopt JStr (en_assistant e));
    ("pi_assistant_entry_order", jopt JInt (en_assistant_order e)); ("pi_bind_entry_id", jopt JStr (en_bind e));
    ("pi_finalize_entry_id", jopt JStr (en_finalize e)); ("pi_prepare_entry_id", jopt JStr (en_prepare e)); ("pi_session_id", jopt JStr (en_session e));
    ("pi_user_content_sha256", jopt JStr (en_user_sha e)); ("pi_user_entry_id", jopt JStr (en_user e)); ("pi_user_entry_order", jopt JInt (en_user_order e));
    ("principal_id", JStr (en_principal e)); ("run_id", JStr (en_run e)); ("schema_version", JStr "magistrate.pi.ownership.v1");
    ("source_cursor", jopt JStr (en_cursor e)); ("source_end_order", jopt JInt (en_end e)); ("source_revision", JInt (en_revision e));
    ("source_sequence", sequence_json (en_sequence e)); ("source_sequence_sha256", jopt JStr (en_sequence_sha e)); ("source_start_order", jopt JInt (en_start e));
    ("stop_reason", jopt (λ r, JStr (stop_text r)) (en_stop e)); ("tenant_id", JStr (en_tenant e)); ("turn_id", JStr (en_turn e));
    ("visible_content_sha256", jopt JStr (en_visible_sha e))].

Section Evidence.
Context `{Codec}.

Definition json_hash (j : json) : res pi_error string := sha256_hex <$> of_option PiValueError (dumps j).
Definition _semantic_envelope_hash (e : PiOwnershipEnvelope) : res pi_error string := json_hash (envelope_json e).

(** ** The source entries of a turn *)

(** The orders count up from [start]; each entry is the child of the one before. *)
Fixpoint ordered_from (start : Z) (l : list PiSourceEntry) : bool :=
  match l with [] => true | e :: l' => (se_order e =? start) && ordered_from (start + 1) l' end.
Fixpoint chained (l : list PiSourceEntry) : bool :=
  match l with
  | previous :: (current :: _) as rest => bool_decide (se_parent current = Some (se_id previous)) && chained rest
  | _ => true
  end.
(** [by_id.get(id or '')] with its position *)
Fixpoint entry_at (id : string) (l : list PiSourceEntry) : option (nat * PiSourceEntry) :=
  match l with
  | [] => None
  | e :: l' => if se_id e == id then Some (O, e) else (λ '(n, x), (S n, x)) <$> entry_at id l'
  end.
Definition by_id (id : option string) (l : list PiSourceEntry) : res pi_error (nat * PiSourceEntry) := of_option PiOwnershipError (entry_at (default "" id) l).
Definition is_marker (kind : string) (e : PiSourceEntry) : bool := bool_decide (se_type e = et_custom) && bool_decide (se_custom e = Some kind).
Definition is_message (role : entry_role) (e : PiSourceEntry) : bool := bool_decide (se_type e = et_message) && bool_decide (se_role e = Some role).
Definition last_id (l : list PiSourceEntry) : option string := se_id <$> last l.

Definition check_order (e : PiOwnershipEnvelope) : res pi_error unit :=
  let sequence := en_sequence e in
  ensure (negb (empty sequence) && (Z.of_nat (length sequence) <=? PI_MAX_SOURCE_ENTRIES)) PiOwnershipError;;
  start ← of_option PiOwnershipError (en_start e);
  stop ← of_option PiOwnershipError (en_end e);
  ensure ((start <=? stop) && (stop - start + 1 =? Z.of_nat (length sequence)) && ordered_from start sequence) PiOwnershipError;;
  ensure (bool_decide (NoDup (map se_id sequence))) PiOwnershipError;;
  ensure (chained sequence) PiOwnershipError.

Definition _validate_sequence (e : PiOwnershipEnvelope) (final : bool) : res pi_error string :=
  let sequence := en_sequence e in
  check_order e;;
  computed_hash ← json_hash (sequence_json sequence);
  ensure (en_sequence_sha e == Some computed_hash) PiOwnershipError;;
  ensure (en_cursor e == last_id sequence) PiOwnershipError;;
  prepare ← by_id (en_prepare e) sequence;
  ensure ((prepare.1 =? 0)%nat && is_marker PI_PREPARE_ENTRY_TYPE prepare.2) PiOwnershipError;;
  user ← by_id (en_user e) sequence;
  ensure (is_message er_user user.2) PiOwnershipError;;
  ensure (en_user_order e == Some (se_order user.2)) PiOwnershipError;;
  bind ← by_id (en_bind e) sequence;
  ensure (is_marker PI_BIND_ENTRY_TYPE bind.2) PiOwnershipError;;
  ensure ((prepare.1 <? user.1)%nat && (user.1 <? bind.1)%nat) PiOwnershipError;;
  ensure (bool_decide (Some <$> map se_id (select (is_message er_user) sequence) = [en_user e])) PiOwnershipError;;
  if negb final then
    ensure (last_id sequence == en_bind e) PiOwnershipError;;
    mret computed_hash
  else
    assistant ← by_id (en_assistant e) sequence;
    finalize ← by_id (en_finalize e) sequence;
    ensure (is_message er_assistant assistant.2 && (se_stop assistant.2 == Some sr_stop) && (en_assistant_order e == Some (se_order assistant.2))) PiOwnershipError;;
    ensure ((S finalize.1 =? length sequence)%nat && is_marker PI_FINALIZE_ENTRY_TYPE finalize.2) PiOwnershipError;;
    ensure ((bind.1 <? assistant.1)%nat && (assistant.1 <? finalize.1)%nat) PiOwnershipError;;
    ensure (negb (exists_row (is_message er_assistant) (drop (S assistant.1) sequence))) PiOwnershipError;;
    mret computed_hash.

(** The text of a finalized envelope and its bytes. *)
Definition _visible_text (e : PiOwnershipEnvelope) : res pi_error (string * Z) :=
  let blocks := en_content e in
  ensure (negb (empty blocks) && bool_decide (map cb_index blocks = seqZ 0 (Z.of_nat (length blocks)))) PiOwnershipError;;
  computed_hash ← json_hash (visible_json blocks);
  ensure (en_visible_sha e == Some computed_hash) PiOwnershipError;;
  let text := join "" (map cb_text blocks) in
  ensure (negb (strip text == "")) PiOwnershipError;;
  ensure (_valid_visible_text text) PiOwnershipError;;
  ensure ((str_len text <=? PI_MAX_VISIBLE_CHARS) && (utf8_length text <=? PI_MAX_VISIBLE_BYTES)) PiOwnershipError;;
  mret (text, utf8_length text).
End Evidence.

(** * What the source entries prove

    [source_owned] says in terms of lists what the adapter has to show of the
    entries of a turn; [_validate_sequence] accepts nothing else. *)

(** Consecutive orders from [start], every entry the child of the one before,
    identities that differ. *)
Record gap_free (start : Z) (l : list PiSourceEntry) : Prop := {
  gf_orders : map se_order l = seqZ start (Z.of_nat (length l));
  gf_chain : ∀ n a b, l !! n = Some a → l !! S n = Some b → se_parent b = Some (se_id a);
  gf_ids : NoDup (map se_id l);
}.
(** The prompt of the turn is the only message of a user, between the marker of
    the dispatch, which opens the sequence, and the marker that binds it. *)
Record prompt_owned (e : PiOwnershipEnvelope) (before user between bind : list PiSourceEntry) (after : list PiSourceEntry) : Prop := {
  po_split : en_sequence e = before ++ user ++ between ++ bind ++ after;
  po_prepare : ∃ p rest, before = p :: rest ∧ en_prepare e = Some (se_id p) ∧ is_marker PI_PREPARE_ENTRY_TYPE p = true;
  po_user : ∃ u, user = [u] ∧ en_user e = Some (se_id u) ∧ en_user_order e = Some (se_order u) ∧ is_message er_user u = true;
  po_bind : ∃ b, bind = [b] ∧ en_bind e = Some (se_id b) ∧ is_marker PI_BIND_ENTRY_TYPE b = true;
  po_only : ∀ x, x ∈ en_sequence e → is_message er_user x = true → x ∈ user;
}.
(** The answer is the last message of the assistant, it stopped normally, and
    the marker that closes the dispatch ends the sequence. *)
Record answer_owned (e : PiOwnershipEnvelope) (after : list PiSourceEntry) : Prop := {
  ao_split : ∃ between a tail f, after = between ++ a :: tail ++ [f] ∧
    en_assistant e = Some (se_id a) ∧ en_assistant_order e = Some (se_order a) ∧ is_message er_assistant a = true ∧ se_stop a = Some sr_stop ∧
    en_finalize e = Some (se_id f) ∧ is_marker PI_FINALIZE_ENTRY_TYPE f = true ∧ ∀ x, x ∈ tail ++ [f] → is_message er_assistant x = false;
}.
Definition source_owned (e : PiOwnershipEnvelope) (final : bool) : Prop :=
  (∃ start, en_start e = Some start ∧ en_end e = Some (start + Z.of_nat (length (en_sequence e)) - 1) ∧ gap_free start (en_sequence e)) ∧
  ∃ before user between bind after, prompt_owned e before user between bind after ∧ (if final then answer_owned e after else after = []).

Lemma ordered_from_spec start l : ordered_from start l = true → map se_order l = seqZ start (Z.of_nat (length l)).
Proof.
  revert start. induction l as [|e l IH]; intros start; cbn [ordered_from]; [done|]. intros H. bools. cbn [map length].
  rewrite Nat2Z.inj_succ, seqZ_cons by lia. f_equal; [done|]. rewrite (IH (start + 1)) by done. f_equal. lia.
Qed.
Lemma chained_spec l n a b : chained l = true → l !! n = Some a → l !! S n = Some b → se_parent b = Some (se_id a).
Proof.
  revert n. induction l as [|e l IH]; intros n; [done|]. destruct l as [|e' l]; [by destruct n|]. intros Hc Ha Hb. cbn in Hc. bools.
  destruct n as [|n]; [by simplify_eq/=|]. eapply (IH n); [done| |]; assumption.
Qed.
Lemma entry_at_lookup id l n e : entry_at id l = Some (n, e) → l !! n = Some e ∧ se_id e = id.
Proof.
  revert n. induction l as [|x l IH]; intros n; cbn [entry_at]; [done|]. destruct (se_id x == id) eqn:E; [intros [= <- <-]; by bools|].
  destruct (entry_at id l) as [[m y]|]; [|done]. intros [= <- <-]. by apply (IH m).
Qed.
Lemma entry_at_some id l e : e ∈ l → se_id e = id → ∃ n x, entry_at id l = Some (n, x).
Proof.
  induction l as [|x l IH]; [set_solver|]. intros Hin Hid. cbn [entry_at]. destruct (se_id x == id) eqn:E; [by eauto|]. bools.
  apply elem_of_cons in Hin as [->|Hin]; [done|]. destruct (IH Hin Hid) as (n & y & ->). by exists (S n), y.
Qed.
(** An entry with a non-empty identity is the one the envelope names. *)
Lemma by_id_spec id l n e : by_id id l = Ok (n, e) → (∀ x, x ∈ l → se_id x ≠ "") → id = Some (se_id e) ∧ l !! n = Some e.
Proof.
  unfold by_id. intros [Hl Hid]%of_option_ok%entry_at_lookup Hne. split; [|done]. destruct id as [i|]; simpl in Hid; [congruence|].
  exfalso. eapply Hne; [|exact Hid]. by eapply list_elem_of_lookup_2.
Qed.
Lemma valid_entry_id e : valid_entry e = true → se_id e ≠ "".
Proof. unfold valid_entry. intros H. bools. intros Hid. by rewrite Hid in *. Qed.

Section Accepted.
Context `{Codec}.

Lemma check_order_spec e : check_order e = Ok tt →
  ∃ start, en_start e = Some start ∧ en_end e = Some (start + Z.of_nat (length (en_sequence e)) - 1) ∧ gap_free start (en_sequence e).
Proof.
  unfold check_order. intros Hc. tx_inv. bools. repeat match goal with Hx : Is_true _ |- _ => clear Hx end.
  exists a0. split; [done|]. split; [replace (a0 + _ - 1) with a1 by lia; done|]. split; [by apply ordered_from_spec| |done].
  intros. by eapply chained_spec.
Qed.

(** Three positions cut the sequence. *)
Lemma cut {A} (l : list A) n a : l !! n = Some a → l = firstn n l ++ a :: skipn (S n) l.
Proof. intros Hl. symmetry. by apply take_drop_middle. Qed.
Lemma cut_between {A} (l : list A) n m b : (n <= m)%nat → l !! m = Some b → skipn n l = firstn (m - n) (skipn n l) ++ b :: skipn (S m) l.
Proof.
  intros Hm Hl. rewrite (cut (skipn n l) (m - n) b) at 1 by (rewrite lookup_drop; by replace (n + (m - n))%nat with m by lia).
  rewrite drop_drop. do 3 f_equal. lia.
Qed.
Lemma only_selected {A} (p : A → bool) (k : A → string) l u x : map k (select p l) = [k u] → x ∈ l → p x = true → k x = k u.
Proof.
  intros Hs Hx Hp. assert (k x ∈ map k (select p l)) as Hin by (apply list_elem_of_fmap_2, elem_of_select; done).
  rewrite Hs in Hin. by apply list_elem_of_singleton in Hin.
Qed.

Lemma unique_position l n x m y : NoDup (map se_id l) → l !! n = Some x → l !! m = Some y → se_id x = se_id y → n = m ∧ x = y.
Proof.
  intros Hn Hx Hy Hid. assert (n = m) as ->; [|split; congruence].
  eapply NoDup_lookup; [exact Hn|rewrite list_lookup_fmap, Hx; reflexivity|rewrite list_lookup_fmap, Hy; simpl; by rewrite Hid].
Qed.

Lemma prompt_split e p u b nu nb : NoDup (map se_id (en_sequence e)) → en_sequence e !! 0%nat = Some p → en_sequence e !! nu = Some u → en_sequence e !! nb = Some b →
  (0 < nu)%nat → (nu < nb)%nat → en_prepare e = Some (se_id p) → is_marker PI_PREPARE_ENTRY_TYPE p = true → en_user e = Some (se_id u) →
  en_user_order e = Some (se_order u) → is_message er_user u = true → en_bind e = Some (se_id b) → is_marker PI_BIND_ENTRY_TYPE b = true →
  Some <$> map se_id (select (is_message er_user) (en_sequence e)) = [en_user e] →
  ∃ before user between bind, prompt_owned e before user between bind (skipn (S nb) (en_sequence e)).
Proof.
  intros Hn Hp Hu Hb H0u Hub Ep Mp Eu Euo Mu Eb Mb Hsel.
  exists (firstn nu (en_sequence e)), [u], (firstn (nb - S nu) (skipn (S nu) (en_sequence e))), [b]. split.
  - etrans; [exact (cut _ _ _ Hu)|]. f_equal. simpl. f_equal. apply cut_between; [lia|done].
  - destruct (en_sequence e) as [|p' l]; [done|]. injection Hp as ->. destruct nu as [|nu]; [lia|]. simpl. eauto.
  - eauto.
  - eauto.
  - intros x Hx Mx. apply list_elem_of_singleton. rewrite Eu in Hsel.
    destruct (map se_id (select (is_message er_user) (en_sequence e))) as [|i [|? ?]] eqn:Es; try done. injection Hsel as ->.
    apply list_elem_of_lookup in Hx as (n & Hx'). eapply (unique_position (en_sequence e) n x nu u); try done.
    eapply only_selected; [exact Es|by eapply list_elem_of_lookup_2|done].
Qed.
Lemma answer_split e a f nb na nf : en_sequence e !! na = Some a → en_sequence e !! nf = Some f → (nb < na)%nat → (na < nf)%nat → S nf = length (en_sequence e) →
  en_assistant e = Some (se_id a) → en_assistant_order e = Some (se_order a) → is_message er_assistant a = true → se_stop a = Some sr_stop →
  en_finalize e = Some (se_id f) → is_marker PI_FINALIZE_ENTRY_TYPE f = true → exists_row (is_message er_assistant) (drop (S na) (en_sequence e)) = false →
  answer_owned e (skipn (S nb) (en_sequence e)).
Proof.
  intros Ha Hf Hba Haf Hlen Ea Eao Ma Sa Ef Mf Hno. split.
  exists (firstn (na - S nb) (skipn (S nb) (en_sequence e))), a, (firstn (nf - S na) (skipn (S na) (en_sequence e))), f.
  assert (skipn (S na) (en_sequence e) = firstn (nf - S na) (skipn (S na) (en_sequence e)) ++ [f]) as Htail.
  { etrans; [apply (cut_between _ (S na) nf f); [lia|done]|]. by rewrite (drop_ge _ (S nf)) by lia. }
  split_and!; try done.
  - etrans; [apply (cut_between _ (S nb) na a); [lia|done]|]. by rewrite <- Htail.
  - rewrite <- Htail. by apply exists_row_false.
Qed.

(** What [_validate_sequence] accepts is owned by one turn, under the hash the
    envelope names. *)
Lemma validated_source_owned e final h : _validate_sequence e final = Ok h → (∀ x, x ∈ en_sequence e → se_id x ≠ "") →
  source_owned e final ∧ json_hash (sequence_json (en_sequence e)) = Ok h ∧ en_sequence_sha e = Some h ∧ en_cursor e = last_id (en_sequence e).
Proof.
  unfold _validate_sequence. intros Hv Hne. tx_inv.
  all: repeat match goal with
    | Hx : by_id _ _ = Ok ?a |- _ => destruct a as [? ?]; apply by_id_spec in Hx as [? ?]; [|done]
    | Hx : check_order _ = Ok _ |- _ => apply check_order_spec in Hx as (start & Hs & He & [Ho Hc Hi])
    end; cbn [fst snd] in *; bools; repeat match goal with
    | Hx : (_ =? _)%nat = true |- _ => apply Nat.eqb_eq in Hx
    | Hx : (_ <? _)%nat = true |- _ => apply Nat.ltb_lt in Hx
    end; subst; (split; [|by repeat split]); (split; [by exists start|]).
  all: match goal with
    | Hp : en_prepare ?e = Some (se_id ?p), Hu : en_user ?e = Some (se_id ?u), Hb : en_bind ?e = Some (se_id ?b),
      Lu : en_sequence ?e !! ?nu = Some ?u, Lb : en_sequence ?e !! ?nb = Some ?b |- _ =>
        destruct (prompt_split e p u b nu nb) as (before & user & between & bind & Hprompt); [assumption..|];
        exists before, user, between, bind, (skipn (S nb) (en_sequence e)); split; [exact Hprompt|]
    end.
  - match goal with Lb : en_sequence e !! ?nb = Some ?b, Hb : en_bind e = Some (se_id ?b), Hl : last_id _ = en_bind e |- _ => rename Lb into Hlast; rewrite Hb in Hl; rename Hl into Hid end.
    unfold last_id in Hid. rewrite last_lookup in Hid. destruct (en_sequence e !! pred _) as [x|] eqn:Ex; [|done]. injection Hid as Hid.
    edestruct (unique_position (en_sequence e)) as [Hn _]; [exact Hi|exact Ex|exact Hlast|done|]. apply drop_ge. lia.
  - match goal with Ha : en_assistant e = Some (se_id ?a), Hf : en_finalize e = Some (se_id ?f), La : en_sequence e !! ?na = Some ?a, Lf : en_sequence e !! ?nf = Some ?f |- _ =>
      eapply (answer_split e a f _ na nf); assumption end.
Qed.
End Accepted.
