(* ===== verification/Pi.v ===== *)
(** * Ownership of captain turns by Pi entries ([gateway/app/pi_ownership.py])

    A dispatch reserves the primary answer of a turn for one incarnation of the
    adapter: prepared, bound to the exact source entry of the prompt, finalized
    with the text of the exact answer entry, or failed. The store, with the
    conversation tables it updates ([db.py]). *)

From stdpp Require Import base option list strings numbers sets.
From Stdlib Require Import ZArith Lia.
From S2P Require Import Prelude Sql Feed Json Text PiEnvelope.

Open Scope string_scope.
Open Scope list_scope.
Open Scope Z_scope.

(** ** Tables *)

Inductive dispatch_state := ds_prepared | ds_bound | ds_finalized | ds_failed.
#[export] Instance dispatch_state_eq_dec : EqDecision dispatch_state.
Proof. solve_decision. Defined.

(** [pi_semantic_dispatches]. The columns no statement updates are the
    identity; the columns one statement sets together are a group, absent while
    they are [NULL]. *)
Record dispatch_identity := {
  di_incarnation : string; di_capability : string; di_user : string; di_tenant : string; di_principal : string; di_conversation : string;
  di_turn : string; di_message : string; di_objective : string; di_run : string; di_prompt : string; di_visible_prompt : string; di_expires : Z;
  di_created : Z;
}.
#[export] Instance dispatch_identity_eq_dec : EqDecision dispatch_identity. Proof. solve_decision. Defined.
Record binding_columns := {
  bc_used_at : Z; bc_session : option string; bc_prepare : option string; bc_user : option string; bc_user_order : option Z; bc_user_sha : option string;
  bc_bind : option string; bc_sequence_json : string; bc_sequence_sha : string; bc_envelope : string; bc_bound_at : option Z;
}.
Record source_columns := { sc_start : option Z; sc_end : option Z; sc_cursor : option string; sc_sha : string }.
Record final_columns := {
  fc_assistant : option string; fc_assistant_order : option Z; fc_finalize : option string; fc_visible : option string; fc_bytes : Z; fc_envelope : string;
  fc_finalized_at : option Z;
}.
Record failure_columns := { xc_code : string; xc_envelope : string }.
Record dispatch := {
  dp_id : dispatch_identity; dp_state : dispatch_state; dp_capability_enc : string; dp_prompt_enc : string; dp_binding : option binding_columns;
  dp_source : option source_columns; dp_final : option final_columns; dp_failure : option failure_columns; dp_acknowledged : option Z;
  dp_last_attempt : option Z; dp_updated : Z;
}.
#[export] Instance dispatch_settable : Settable dispatch :=
  λ r, Build_dispatch (dp_id r) (dp_state r) (dp_capability_enc r) (dp_prompt_enc r) (dp_binding r) (dp_source r) (dp_final r) (dp_failure r)
    (dp_acknowledged r) (dp_last_attempt r) (dp_updated r).
Definition dp_incarnation (d : dispatch) : string := di_incarnation (dp_id d).
Definition dp_session (d : dispatch) : option string := dp_binding d ≫= bc_session.
Definition dp_user_entry (d : dispatch) : option string := dp_binding d ≫= bc_user.
Definition dp_assistant_entry (d : dispatch) : option string := dp_final d ≫= fc_assistant.

(** The primary key, the unique columns and the partial unique indexes. *)
Definition both_equal (a b : option string) : bool := match a, b with Some x, Some y => String.eqb x y | _, _ => false end.
Definition identity_clash (a b : dispatch) : bool :=
  (dp_incarnation a == dp_incarnation b) || (di_capability (dp_id a) == di_capability (dp_id b)) || (di_turn (dp_id a) == di_turn (dp_id b)) ||
  (di_message (dp_id a) == di_message (dp_id b)).
Definition entry_clash (a b : dispatch) : bool :=
  both_equal (dp_session a) (dp_session b) && (both_equal (dp_user_entry a) (dp_user_entry b) || both_equal (dp_assistant_entry a) (dp_assistant_entry b)).
Definition dispatch_clash (a b : dispatch) : bool := identity_clash a b || entry_clash a b.

(** [conversations], [conversation_turns], [conversation_messages],
    [conversation_changes] *)
Record conversation := { cn_id : string; cn_user : string; cn_target : string; cn_created : Z; cn_updated : Z }.
#[export] Instance conversation_settable : Settable conversation :=
  λ r, Build_conversation (cn_id r) (cn_user r) (cn_target r) (cn_created r) (cn_updated r).
Record turn := {
  tn_id : string; tn_conversation : string; tn_status : string; tn_lifecycle : string; tn_revision : Z; tn_decision : option string; tn_sequence : Z;
  tn_created : Z; tn_updated : Z;
}.
#[export] Instance turn_settable : Settable turn :=
  λ r, Build_turn (tn_id r) (tn_conversation r) (tn_status r) (tn_lifecycle r) (tn_revision r) (tn_decision r) (tn_sequence r) (tn_created r) (tn_updated r).
Record message := {
  mg_id : string; mg_turn : string; mg_conversation : string; mg_role : string; mg_type : string; mg_slot : string; mg_text : string; mg_visible : bool;
  mg_sequence : Z; mg_revision : Z; mg_source : string; mg_attachments : string; mg_content_source : string; mg_structured : option string;
  mg_structured_revision : option Z; mg_kind : string; mg_created : Z; mg_updated : Z;
}.
#[export] Instance message_settable : Settable message :=
  λ r, Build_message (mg_id r) (mg_turn r) (mg_conversation r) (mg_role r) (mg_type r) (mg_slot r) (mg_text r) (mg_visible r) (mg_sequence r) (mg_revision r)
    (mg_source r) (mg_attachments r) (mg_content_source r) (mg_structured r) (mg_structured_revision r) (mg_kind r) (mg_created r) (mg_updated r).
Definition message_clash (a b : message) : bool := (mg_id a == mg_id b) || ((mg_turn a == mg_turn b) && (mg_slot a == mg_slot b)).
Record change := { ch_conversation : string; ch_sequence : Z; ch_message : string; ch_revision : Z; ch_changed : Z }.
Definition change_clash (a b : change) : bool :=
  (ch_conversation a == ch_conversation b) && ((ch_sequence a =? ch_sequence b) || ((ch_message a == ch_message b) && (ch_revision a =? ch_revision b))).

(** [pd_structured]: the turns named in [magi_response_events] and
    [magi_additional_response_events]. *)
Record pi_db := {
  pd_dispatches : list dispatch; pd_conversations : list conversation; pd_turns : list turn; pd_messages : list message; pd_changes : list change;
  pd_structured : list string;
}.
#[export] Instance pi_db_settable : Settable pi_db :=
  λ s, Build_pi_db (pd_dispatches s) (pd_conversations s) (pd_turns s) (pd_messages s) (pd_changes s) (pd_structured s).

Abbreviation ptx := (tx pi_error pi_db).

Definition insert_message (r : message) : ptx unit := λ s,
  match insert message_clash r (pd_messages s) with Some t => Ok (tt, s <| pd_messages := t |>) | None => Err PiIntegrityError end.
Definition insert_change (r : change) : ptx unit := λ s,
  match insert change_clash r (pd_changes s) with Some t => Ok (tt, s <| pd_changes := t |>) | None => Err PiIntegrityError end.

Definition PI_DEFAULT_CAPABILITY_TTL_MS : Z := 120000.
Definition PI_MIN_CAPABILITY_TTL_MS : Z := 5000.
Definition PI_MAX_CAPABILITY_TTL_MS : Z := 600000.
Definition PI_MAX_RECOVERY_BATCH : Z := 100.
Definition PI_MAX_CLOCK_SKEW_MS : Z := 30000.
Definition PI_CONTENT_SOURCE : string := "pi-semantic".
Definition PI_SOURCE_NAME : string := "pi-semantic".

Definition is_dispatch (incarnation : string) (d : dispatch) : bool := dp_incarnation d == incarnation.
Definition of_turn (turn_id : string) (d : dispatch) : bool := di_turn (dp_id d) == turn_id.
Definition update_dispatches (p : dispatch → bool) (f : dispatch → dispatch) (s : pi_db) : pi_db := s <| pd_dispatches ::= update p f |>.

(** ** Reading a dispatch *)

Section Store.
Context `{Codec}.
(** [db.decrypt_token]: [None] is [SecretDecryptionError]. *)
Context (decrypt_token : string → option string).

Record dispatch_view := {
  dv_id : dispatch_identity; dv_state : dispatch_state; dv_accepted : option string; dv_capability : option string; dv_prompt : option string;
}.
(** The envelope that closed a dispatch. *)
Definition accepted_envelope (d : dispatch) : option string :=
  match dp_state d with ds_finalized => fc_envelope <$> dp_final d | ds_failed => xc_envelope <$> dp_failure d | _ => None end.
Definition _row_dispatch (d : dispatch) (include_secret : bool) : res pi_error dispatch_view :=
  if include_secret then
    capability ← of_option PiOwnershipError (decrypt_token (dp_capability_enc d));
    prompt ← (if dp_state d == ds_prepared then Some <$> of_option PiOwnershipError (decrypt_token (dp_prompt_enc d)) else mret None);
    mret (Build_dispatch_view (dp_id d) (dp_state d) (accepted_envelope d) (Some capability) prompt)
  else mret (Build_dispatch_view (dp_id d) (dp_state d) (accepted_envelope d) None None).

(** ** Preparing *)

Record prepare_args := {
  pa_user : string; pa_conversation : string; pa_turn : string; pa_message : string; pa_objective : string; pa_run : string; pa_prompt : string;
  pa_visible : string; pa_ttl : Z;
}.
(** What one attempt draws: incarnation and capability, and the ciphertexts of
    the capability and of the prompt. *)
Record draw := { dr_incarnation : string; dr_capability : string; dr_capability_enc : string; dr_prompt_enc : string }.

Definition check_prepare (a : prepare_args) : res pi_error unit :=
  ensure (bounded PI_MIN_CAPABILITY_TTL_MS PI_MAX_CAPABILITY_TTL_MS (pa_ttl a)) PiOwnershipError;;
  ensure (bounded 1 256 (str_len (pa_user a)) && _valid_identity_text (pa_user a)) PiOwnershipError;;
  ensure (negb (pa_prompt a == "")) PiOwnershipError;;
  literal ← of_option PiValueError (dumps (JStr (pa_prompt a)));
  ensure ((str_len (pa_prompt a) <=? 100000) && (utf8_length (pa_prompt a) <=? PI_MAX_VISIBLE_BYTES) && (str_len (pa_visible a) <=? 100000) &&
          (utf8_length (pa_visible a) <=? PI_MAX_VISIBLE_BYTES) && (utf8_length literal <=? PI_MAX_VISIBLE_BYTES)) PiOwnershipError.

Definition prepared_identity (a : prepare_args) (r : draw) (now : Z) : dispatch_identity :=
  Build_dispatch_identity (dr_incarnation r) (sha256_hex (dr_capability r)) (pa_user a) (pa_user a) (pa_user a) (pa_conversation a) (pa_turn a)
    (pa_message a) (pa_objective a) (pa_run a) (sha256_hex (pa_prompt a)) (sha256_hex (pa_visible a)) (now + pa_ttl a) now.
Definition new_dispatch (a : prepare_args) (r : draw) (now : Z) : dispatch :=
  Build_dispatch (prepared_identity a r now) ds_prepared (dr_capability_enc r) (dr_prompt_enc r) None None None None None None now.

(** The loop over attempts: a clash draws again. *)
Fixpoint allocate (a : prepare_args) (now : Z) (draws : list draw) : ptx dispatch :=
  match draws with
  | [] => raise PiRuntimeError
  | r :: draws' => λ s,
      match insert dispatch_clash (new_dispatch a r now) (pd_dispatches s) with
      | Some t => Ok (new_dispatch a r now, s <| pd_dispatches := t |>)
      | None => allocate a now draws' s
      end
  end.

Definition same_owner (a : prepare_args) (i : dispatch_identity) : bool :=
  (di_user i == pa_user a) && (di_tenant i == pa_user a) && (di_principal i == pa_user a) && (di_conversation i == pa_conversation a) &&
  (di_message i == pa_message a) && (di_objective i == pa_objective a) && (di_run i == pa_run a).
Definition is_primary (turn_id : string) (m : message) : bool := (mg_turn m == turn_id) && (mg_slot m == "primary").

Definition prepare_pi_dispatch (now : Z) (draws : list draw) (a : prepare_args) : ptx dispatch_view :=
  lift (check_prepare a);;
  existing ← read (λ s, fetchone (of_turn (pa_turn a)) (pd_dispatches s));
  match existing with
  | Some d =>
      require (same_owner a (dp_id d)) PiOwnershipError;;
      require ((di_prompt (dp_id d) == sha256_hex (pa_prompt a)) && (di_visible_prompt (dp_id d) == sha256_hex (pa_visible a))) PiOwnershipError;;
      lift (_row_dispatch d true)
  | None =>
      primary ← read (λ s, exists_row (is_primary (pa_turn a)) (pd_messages s));
      require (negb primary) PiOwnershipError;;
      structured ← read (λ s, listed (pa_turn a) (pd_structured s));
      require (negb structured) PiOwnershipError;;
      d ← allocate a now (take 100 draws);
      lift (_row_dispatch d true)
  end.

(** ** Applying an envelope *)

Definition capability_format (s : string) : bool := startswith "pic_" s && fullmatch_class opaque_char 40 96 (str_drop 4 s).
Definition _capability_hash (capability : string) : res pi_error string :=
  ensure (capability_format capability) PiOwnershipError;; mret (sha256_hex capability).

(** The dispatch with its conversation and its turn. *)
Definition _owned_row (user target incarnation : string) (s : pi_db) : res pi_error (dispatch * turn) :=
  d ← of_option PiLookupError (fetchone (λ d, is_dispatch incarnation d && (di_user (dp_id d) == user)) (pd_dispatches s));
  c ← of_option PiLookupError (fetchone (λ c, cn_id c == di_conversation (dp_id d)) (pd_conversations s));
  t ← of_option PiLookupError (fetchone (λ t, tn_id t == di_turn (dp_id d)) (pd_turns s));
  ensure ((cn_user c == user) && (cn_target c == target)) PiLookupError;;
  mret (d, t).
Definition owned_row (user target incarnation : string) : ptx (dispatch * turn) := λ s,
  match _owned_row user target incarnation s with Ok r => Ok (r, s) | Err e => Err e end.

Definition _verify_identity (i : dispatch_identity) (e : PiOwnershipEnvelope) (capability : string) : res pi_error unit :=
  digest ← _capability_hash capability;
  ensure (digest == di_capability i) PiOwnershipError;;
  ensure (en_capability e == di_capability i) PiOwnershipError;;
  ensure ((en_tenant e == di_tenant i) && (en_principal e == di_principal i) && (en_conversation e == di_conversation i) && (en_turn e == di_turn i) &&
          (en_message e == di_message i) && (en_objective e == di_objective i) && (en_run e == di_run i)) PiOwnershipError.

(** [UPDATE ... WHERE dispatch_incarnation = ? AND state = ?] with the unique
    indexes on entries, and [SELECT changes()]. *)
Definition guarded_update (incarnation : string) (state : dispatch_state) (f : dispatch → dispatch) : ptx unit :=
  let target d := is_dispatch incarnation d && (dp_state d == state) in
  rows ← read pd_dispatches;
  require (negb (exists_row (λ d, target d && exists_row (λ x, negb (is_dispatch incarnation x) && entry_clash (f d) x) rows) rows)) PiOwnershipError;;
  modify (update_dispatches target f);;
  require (count target rows =? 1) PiOwnershipError.

Definition bind_columns (e : PiOwnershipEnvelope) (encoded sequence_hash envelope_hash : string) (now : Z) (d : dispatch) : dispatch :=
  d <| dp_state := ds_bound |>
    <| dp_binding := Some (Build_binding_columns now (en_session e) (en_prepare e) (en_user e) (en_user_order e) (en_user_sha e) (en_bind e) encoded sequence_hash
                             envelope_hash (en_bound_at e)) |>
    <| dp_source := Some (Build_source_columns (en_start e) (en_end e) (en_cursor e) sequence_hash) |> <| dp_updated := now |>.

Inductive apply_status := as_pending | as_applied | as_duplicate | as_discarded.
#[export] Instance apply_status_eq_dec : EqDecision apply_status.
Proof. solve_decision. Defined.

(** [e] is the binding envelope and its [en_sequence] the sequence. *)
Definition _apply_binding (now : Z) (d : dispatch) (e : PiOwnershipEnvelope) (sequence_hash envelope_hash : string) : ptx apply_status :=
  bound_at ← lift (of_option PiOwnershipError (en_bound_at e));
  require (bound_at <=? di_expires (dp_id d)) PiOwnershipError;;
  require (en_user_sha e == Some (di_prompt (dp_id d))) PiOwnershipError;;
  require (di_created (dp_id d) - 5000 <=? bound_at) PiOwnershipError;;
  require (bound_at <=? now + PI_MAX_CLOCK_SKEW_MS) PiOwnershipError;;
  match dp_state d with
  | ds_finalized | ds_failed => raise PiOwnershipError
  | ds_bound =>
      require (((bc_envelope <$> dp_binding d) == Some envelope_hash) && (dp_session d == en_session e) && (dp_user_entry d == en_user e) &&
               ((dp_binding d ≫= bc_user_sha) == en_user_sha e)) PiOwnershipError;;
      mret as_duplicate
  | ds_prepared =>
      require (negb (default "" (en_session e) == "")) PiOwnershipError;;
      encoded ← lift (of_option PiValueError (dumps (sequence_json (en_sequence e))));
      guarded_update (dp_incarnation d) ds_prepared (bind_columns e encoded sequence_hash envelope_hash now);;
      mret as_applied
  end.

(** [_record_message_change] *)
Definition _record_message_change (message_id : string) : ptx unit :=
  found ← read (λ s, fetchone (λ m, mg_id m == message_id) (pd_messages s));
  m ← lift (of_option PiRuntimeError found);
  top ← read (λ s, max_of ch_sequence (λ c, ch_conversation c == mg_conversation m) (pd_changes s));
  let sequence := match top with Some t => t + 1 | None => 0 end in
  insert_change (Build_change (mg_conversation m) sequence message_id (mg_revision m) (mg_updated m)).

Definition final_message (i : dispatch_identity) (sequence_index : Z) (text : string) (now : Z) : message :=
  Build_message (di_message i) (di_turn i) (di_conversation i) "assistant" "conversation" "primary" text true sequence_index 1 PI_SOURCE_NAME "[]"
    PI_CONTENT_SOURCE None None "response" now now.
Definition overwrite (sequence_index : Z) (text : string) (now : Z) (m : message) : message :=
  m <| mg_role := "assistant" |> <| mg_type := "conversation" |> <| mg_text := text |> <| mg_visible := true |> <| mg_sequence := sequence_index |>
    <| mg_source := PI_SOURCE_NAME |> <| mg_content_source := PI_CONTENT_SOURCE |> <| mg_structured := None |> <| mg_structured_revision := None |>
    <| mg_kind := "response" |> <| mg_revision ::= Z.succ |> <| mg_updated := now |>.
Definition unchanged (sequence_index : Z) (text : string) (m : message) : bool :=
  (mg_text m == text) && (mg_role m == "assistant") && (mg_type m == "conversation") && mg_visible m && (mg_sequence m =? sequence_index) &&
  (mg_source m == PI_SOURCE_NAME) && (mg_content_source m == PI_CONTENT_SOURCE) && (mg_structured m == None) && (mg_structured_revision m == None).

Definition _upsert_final_message (now : Z) (i : dispatch_identity) (t : turn) (text : string) : ptx (Z * bool) :=
  let sequence_index := tn_sequence t * 1000 + 999 in
  existing ← read (λ s, fetchone (λ m, mg_id m == di_message i) (pd_messages s));
  match existing with
  | None =>
      collision ← read (λ s, exists_row (is_primary (di_turn i)) (pd_messages s));
      require (negb collision) PiOwnershipError;;
      insert_message (final_message i sequence_index text now);;
      _record_message_change (di_message i);;
      mret (1, true)
  | Some m =>
      require ((mg_turn m == di_turn i) && (mg_slot m == "primary")) PiOwnershipError;;
      require (negb (mg_content_source m == "structured")) PiOwnershipError;;
      if unchanged sequence_index text m then mret (mg_revision m, false)
      else
        modify (λ s, s <| pd_messages ::= update (λ x, mg_id x == di_message i) (overwrite sequence_index text now) |>);;
        _record_message_change (di_message i);;
        mret (mg_revision m + 1, true)
  end.

Record apply_result := {
  ar_status : apply_status; ar_state : dispatch_state; ar_incarnation : string; ar_turn : string; ar_message : string; ar_revision : option Z;
  ar_changed : option bool; ar_visible : option string; ar_accepted : option string;
}.
Definition answer (status : apply_status) (state : dispatch_state) (i : dispatch_identity) (revision : option Z) (changed : option bool)
    (visible accepted : option string) : apply_result :=
  Build_apply_result status state (di_incarnation i) (di_turn i) (di_message i) revision changed visible accepted.

(** The envelope before the transaction: its hash, the hash of its sequence and
    its text. What the code checks again of the other two stages follows from
    [validate_stage]. *)
Definition check_envelope (e : PiOwnershipEnvelope) : res pi_error (string * string * option (string * Z)) :=
  ensure (model_validate e) PiValueError;;
  envelope_hash ← _semantic_envelope_hash e;
  match en_event e with
  | ev_bound => sequence_hash ← _validate_sequence e false; mret (envelope_hash, sequence_hash, None)
  | ev_finalized => sequence_hash ← _validate_sequence e true; text ← _visible_text e; mret (envelope_hash, sequence_hash, Some text)
  | _ => mret (envelope_hash, "", None)
  end.

Definition ended (lifecycle : string) : bool := listed lifecycle ["completed"; "cancelled"; "failed"].
Definition end_turn (status lifecycle : string) (increment now : Z) (turn_id : string) (s : pi_db) : pi_db :=
  s <| pd_turns ::= update (λ t, tn_id t == turn_id)
         (λ t, t <| tn_status := status |> <| tn_lifecycle := lifecycle |> <| tn_decision := None |> <| tn_revision ::= Z.add increment |> <| tn_updated := now |>) |>.
Definition fail_dispatch (code envelope_hash : string) (now : Z) (d : dispatch) : dispatch :=
  d <| dp_state := ds_failed |> <| dp_failure := Some (Build_failure_columns code envelope_hash) |> <| dp_updated := now |>.

(** [dispatch.failed] *)
Definition apply_failure (now : Z) (d : dispatch) (t : turn) (e : PiOwnershipEnvelope) (envelope_hash : string) : ptx apply_result :=
  let done status := answer status ds_failed (dp_id d) None None None (Some envelope_hash) in
  match dp_state d with
  | ds_finalized => raise PiOwnershipError
  | ds_failed =>
      require (((xc_code <$> dp_failure d) == en_error e) && ((xc_envelope <$> dp_failure d) == Some envelope_hash)) PiOwnershipError;;
      mret (done as_duplicate)
  | _ =>
      modify (update_dispatches (is_dispatch (dp_incarnation d)) (fail_dispatch (default "" (en_error e)) envelope_hash now));;
      modify (λ s, if ended (tn_lifecycle t) then s else end_turn "failed" "failed" 1 now (di_turn (dp_id d)) s);;
      mret (done as_applied)
  end.

(** The binding a finalized envelope contains. *)
Definition binding_prefix (e : PiOwnershipEnvelope) : res pi_error (list PiSourceEntry) :=
  position ← of_option PiOwnershipError (en_bind e ≫= λ b, fst <$> entry_at b (en_sequence e));
  mret (firstn (S position) (en_sequence e)).
Definition binding_payload (e : PiOwnershipEnvelope) (prefix : list PiSourceEntry) (binding_hash : string) : PiOwnershipEnvelope :=
  Build_PiOwnershipEnvelope ev_bound (en_nonce e) (en_incarnation e) (en_capability e) (en_tenant e) (en_principal e) (en_conversation e) (en_turn e) (en_message e)
    (en_objective e) (en_run e) 1 (en_session e) (en_prepare e) (en_user e) (en_user_order e) (en_user_sha e) (en_bind e) None None None fi_pending None
    (en_bound_at e) None (en_start e) (se_order <$> last prefix) (last_id prefix) prefix (Some binding_hash) None [] None.

(** [==] between the entries of a sequence and a stored value *)
Fixpoint same_json (expected stored : json) : bool :=
  match expected with
  | JNull => is_none stored
  | JInt n => eq_int stored n
  | JStr s => eq_str stored s
  | JList l =>
      match stored with
      | JList l' => (fix all l l' := match l, l' with [], [] => true | x :: l, y :: l' => same_json x y && all l l' | _, _ => false end) l l'
      | _ => false
      end
  | JObj kvs =>
      match stored with
      | JObj d => (length kvs =? length d)%nat &&
                  (fix all kvs := match kvs with [] => true | (k, v) :: kvs => match assoc k d with Some w => same_json v w | None => false end && all kvs end) kvs
      | _ => false
      end
  | JBool _ | JFloat _ => false
  end.
Definition binding_kept (d : dispatch) (e : PiOwnershipEnvelope) (prefix : list PiSourceEntry) (binding_hash binding_envelope : string) : res pi_error unit :=
  let raw := default "" (bc_sequence_json <$> dp_binding d) in
  stored ← of_option PiOwnershipError (loads (if raw == "" then "null" else raw));
  ensure (same_json (sequence_json prefix) stored && ((bc_sequence_sha <$> dp_binding d) == Some binding_hash) &&
          ((bc_envelope <$> dp_binding d) == Some binding_envelope)) PiOwnershipError;;
  ensure ((dp_session d == en_session e) && (dp_user_entry d == en_user e) && ((dp_binding d ≫= bc_user_sha) == en_user_sha e) &&
          ((dp_binding d ≫= bc_bind) == en_bind e)) PiOwnershipError.

Definition frozen (t : turn) : bool := listed (tn_status t) ["cancelled"; "failed"] || listed (tn_lifecycle t) ["cancelled"; "failed"].
Definition FROZEN : string := "canonical-turn-frozen".
Definition final_update (e : PiOwnershipEnvelope) (sequence_hash envelope_hash : string) (bytes now : Z) (d : dispatch) : dispatch :=
  d <| dp_state := ds_finalized |>
    <| dp_final := Some (Build_final_columns (en_assistant e) (en_assistant_order e) (en_finalize e) (en_visible_sha e) bytes envelope_hash (en_finalized_at e)) |>
    <| dp_source := Some (Build_source_columns (en_start e) (en_end e) (en_cursor e) sequence_hash) |> <| dp_updated := now |>.
Definition touch_conversation (now : Z) (id : string) (s : pi_db) : pi_db := s <| pd_conversations ::= update (λ c, cn_id c == id) (λ c, c <| cn_updated := now |>) |>.

(** The times of a final envelope. *)
Definition check_times (now : Z) (e : PiOwnershipEnvelope) : res pi_error unit :=
  bound_at ← of_option PiOwnershipError (en_bound_at e);
  finalized_at ← of_option PiOwnershipError (en_finalized_at e);
  ensure (bound_at <=? finalized_at) PiOwnershipError;;
  ensure (finalized_at <=? now + PI_MAX_CLOCK_SKEW_MS) PiOwnershipError.

(** The binding a final envelope needs: taken from it, or the one stored. *)
Definition settle_binding (now : Z) (user target : string) (d : dispatch) (t : turn) (e : PiOwnershipEnvelope) : ptx (dispatch * turn) :=
  prefix ← lift (binding_prefix e);
  binding_hash ← lift (json_hash (sequence_json prefix));
  let payload := binding_payload e prefix binding_hash in
  binding_envelope ← lift (_semantic_envelope_hash payload);
  if dp_state d == ds_prepared then
    _apply_binding now d payload binding_hash binding_envelope;;
    owned_row user target (en_incarnation e)
  else
    lift (binding_kept d e prefix binding_hash binding_envelope);;
    mret (d, t).

(** What a bound dispatch does with its answer. *)
Definition deliver (now : Z) (d : dispatch) (t : turn) (e : PiOwnershipEnvelope) (envelope_hash sequence_hash text : string) (bytes : Z) : ptx apply_result :=
  if frozen t then
    guarded_update (dp_incarnation d) ds_bound (fail_dispatch FROZEN envelope_hash now);;
    mret (answer as_discarded ds_failed (dp_id d) None None None (Some envelope_hash))
  else
    upserted ← _upsert_final_message now (dp_id d) t text;
    modify (end_turn "answered" "completed" (if tn_lifecycle t == "completed" then 0 else 1) now (di_turn (dp_id d)));;
    guarded_update (dp_incarnation d) ds_bound (final_update e sequence_hash envelope_hash bytes now);;
    modify (touch_conversation now (di_conversation (dp_id d)));;
    mret (answer as_applied ds_finalized (dp_id d) (Some upserted.1) (Some upserted.2) (en_visible_sha e) (Some envelope_hash)).

(** [dispatch.finalized] *)
Definition apply_final (now : Z) (user target : string) (d : dispatch) (t : turn) (e : PiOwnershipEnvelope) (envelope_hash sequence_hash text : string)
    (bytes : Z) : ptx apply_result :=
  lift (check_times now e);;
  match dp_state d with
  | ds_finalized =>
      require (((fc_envelope <$> dp_final d) == Some envelope_hash) && ((dp_final d ≫= fc_visible) == en_visible_sha e) && (dp_assistant_entry d == en_assistant e))
        PiOwnershipError;;
      stored ← read (λ s, fetchone (λ m, mg_id m == di_message (dp_id d)) (pd_messages s));
      mret (answer as_duplicate ds_finalized (dp_id d) (mg_revision <$> stored) None None (Some envelope_hash))
  | ds_failed =>
      require (((xc_code <$> dp_failure d) == Some FROZEN) && ((xc_envelope <$> dp_failure d) == Some envelope_hash)) PiOwnershipError;;
      mret (answer as_duplicate ds_failed (dp_id d) None None None (Some envelope_hash))
  | _ =>
      '(d, t) ← settle_binding now user target d t e;
      deliver now d t e envelope_hash sequence_hash text bytes
  end.

Definition apply_pi_ownership_envelope (now : Z) (user target capability : string) (e : PiOwnershipEnvelope) : ptx apply_result :=
  '(envelope_hash, sequence_hash, visible) ← lift (check_envelope e);
  '(d, t) ← owned_row user target (en_incarnation e);
  lift (_verify_identity (dp_id d) e capability);;
  match en_event e with
  | ev_prepared => mret (answer as_pending (dp_state d) (dp_id d) None None None None)
  | ev_failed => apply_failure now d t e envelope_hash
  | ev_bound =>
      status ← _apply_binding now d e sequence_hash envelope_hash;
      mret (answer status ds_bound (dp_id d) None None None None)
  | ev_finalized =>
      '(text, bytes) ← lift (of_option PiOwnershipError visible);
      apply_final now user target d t e envelope_hash sequence_hash text bytes
  end.

(** ** The adapter's receipts and recovery *)

Definition mark_pi_adapter_acknowledged (now : Z) (user target incarnation accepted : string) : ptx unit :=
  require (_SAFE_HASH accepted) PiOwnershipError;;
  '(d, _) ← owned_row user target incarnation;
  require (accepted_envelope d == Some accepted) PiOwnershipError;;
  if dp_acknowledged d == None then
    modify (update_dispatches (is_dispatch incarnation)
      (λ d, d <| dp_acknowledged := Some now |> <| dp_capability_enc := "" |> <| dp_prompt_enc := "" |> <| dp_updated := now |>))
  else mret tt.
Definition mark_pi_dispatch_attempt (now : Z) (incarnation : string) (s : pi_db) : pi_db :=
  update_dispatches (is_dispatch incarnation) (λ d, d <| dp_last_attempt := Some now |> <| dp_updated := now |>) s.

Definition open_state (d : dispatch) : bool := (dp_state d == ds_prepared) || (dp_state d == ds_bound).
Definition needs_recovery (d : dispatch) : bool := open_state d || (dp_acknowledged d == None).
Definition by_update (a b : dispatch) : bool :=
  (dp_updated a <? dp_updated b) || (dp_updated a =? dp_updated b) && String.leb (dp_incarnation a) (dp_incarnation b).
(** A row that cannot be decrypted is left out and rotated behind the others. *)
Fixpoint recover_rows (now : Z) (rows : list dispatch) (s : pi_db) : list dispatch_view * pi_db :=
  match rows with
  | [] => ([], s)
  | d :: rows' =>
      match _row_dispatch d true with
      | Ok v => let '(views, s') := recover_rows now rows' s in (v :: views, s')
      | Err _ => recover_rows now rows' (mark_pi_dispatch_attempt now (dp_incarnation d) s)
      end
  end.
Definition recover_tx (now : Z) (rows : list dispatch) : ptx (list dispatch_view) := λ s, Ok (recover_rows now rows s).
Definition get_recoverable_dispatches (now limit : Z) : ptx (list dispatch_view) :=
  require (bounded 1 PI_MAX_RECOVERY_BATCH limit) PiValueError;;
  rows ← read (λ s, take limit (order_by by_update (select needs_recovery (pd_dispatches s))));
  recover_tx now rows.

Record dispatch_details := {
  dd_view : dispatch_view; dd_session : option string; dd_user_entry : option string; dd_assistant_entry : option string; dd_visible : option string;
  dd_failure : option string; dd_acknowledged : option Z;
}.
Definition joined (user target : string) (s : pi_db) (d : dispatch) : bool :=
  (di_user (dp_id d) == user) && exists_row (λ c, (cn_id c == di_conversation (dp_id d)) && (cn_user c == user) && (cn_target c == target)) (pd_conversations s).
Definition get_pi_dispatch (user target incarnation : string) (include_secret : bool) (s : pi_db) : res pi_error dispatch_details :=
  d ← of_option PiLookupError (fetchone (λ d, is_dispatch incarnation d && joined user target s d) (pd_dispatches s));
  view ← _row_dispatch d include_secret;
  mret (Build_dispatch_details view (dp_session d) (dp_user_entry d) (dp_assistant_entry d) (dp_final d ≫= fc_visible) (xc_code <$> dp_failure d) (dp_acknowledged d)).

Definition turn_has_pi_ownership (turn_id : string) (s : pi_db) : bool := exists_row (of_turn turn_id) (pd_dispatches s).
Definition has_pi_ownership (user target turn_id : string) (s : pi_db) : bool :=
  exists_row (λ d, of_turn turn_id d && joined user target s d) (pd_dispatches s).
Definition fallback_candidate (s : pi_db) (conversation_id : string) (t : turn) : bool :=
  (tn_conversation t == conversation_id) && negb (listed (tn_status t) ["cancelled"; "failed"]) && negb (turn_has_pi_ownership (tn_id t) s) &&
  negb (listed (tn_id t) (pd_structured s)).
Definition has_terminal_fallback_candidates (user target : string) (s : pi_db) : bool :=
  match fetchone (λ c, (cn_user c == user) && (cn_target c == target)) (pd_conversations s) with
  | Some c => exists_row (fallback_candidate s (cn_id c)) (pd_turns s)
  | None => false
  end.
Definition get_pi_ownership_diagnostics (user target : string) (s : pi_db) : list (dispatch_state * Z) * Z :=
  let mine := select (joined user target s) (pd_dispatches s) in
  (map (λ st, (st, count (λ d, dp_state d == st) mine)) [ds_prepared; ds_bound; ds_finalized; ds_failed], count needs_recovery mine).
End Store.
