(* ===== verification/PiInvariant.v ===== *)
(** * The life of a dispatch

    [life] is what may happen to a dispatch, [pi_turn] what may happen to the
    store; [PiSteps] shows that every operation is a sequence of such steps.
    [pi_ok] is what they preserve. *)

From stdpp Require Import base option list strings numbers sets relations.
From Stdlib Require Import ZArith Lia.
From S2P Require Import Prelude Sql Feed Json Text PiEnvelope Pi.

Open Scope string_scope.
Open Scope list_scope.
Open Scope Z_scope.

Implicit Types (d x : dispatch) (s : pi_db) (t : turn) (m : message) (i : dispatch_identity).

(** ** Dispatches *)

Definition acknowledge (now : Z) d : dispatch :=
  d <| dp_acknowledged := Some now |> <| dp_capability_enc := "" |> <| dp_prompt_enc := "" |> <| dp_updated := now |>.
Definition attempt (now : Z) d : dispatch := d <| dp_last_attempt := Some now |> <| dp_updated := now |>.
(** The prompt that was dispatched, bound while the capability lived. *)
Definition within i (sha : option string) (bound_at : option Z) : Prop :=
  sha = Some (di_prompt i) ∧ ∃ at_, bound_at = Some at_ ∧ di_created i - 5000 ≤ at_ ≤ di_expires i.

Inductive life : dispatch → dispatch → Prop :=
| life_attempt d now : life d (attempt now d)
| life_bind d e encoded sequence_hash envelope_hash now : dp_state d = ds_prepared → within (dp_id d) (en_user_sha e) (en_bound_at e) →
    life d (bind_columns e encoded sequence_hash envelope_hash now d)
| life_finalize d e sequence_hash envelope_hash bytes now : dp_state d = ds_bound → life d (final_update e sequence_hash envelope_hash bytes now d)
| life_fail d code envelope_hash now : dp_state d = ds_prepared ∨ dp_state d = ds_bound → life d (fail_dispatch code envelope_hash now d)
| life_acknowledge d now : dp_state d = ds_finalized ∨ dp_state d = ds_failed → dp_acknowledged d = None → life d (acknowledge now d).

(** The evidence of each state. *)
Definition bound_within d : Prop := ∃ b, dp_binding d = Some b ∧ within (dp_id d) (bc_user_sha b) (bc_bound_at b).
Record evidence_ok d : Prop := {
  eo_prepared : dp_state d = ds_prepared → dp_binding d = None ∧ dp_final d = None ∧ dp_failure d = None ∧ dp_acknowledged d = None;
  eo_bound : dp_state d = ds_bound → bound_within d ∧ dp_final d = None ∧ dp_failure d = None ∧ dp_acknowledged d = None;
  eo_finalized : dp_state d = ds_finalized → bound_within d ∧ is_Some (dp_final d) ∧ dp_failure d = None;
  eo_failed : dp_state d = ds_failed → (dp_binding d = None ∨ bound_within d) ∧ dp_final d = None ∧ is_Some (dp_failure d);
}.
Lemma life_id d x : life d x → dp_id x = dp_id d.
Proof. by destruct 1. Qed.
Lemma life_evidence d x : life d x → evidence_ok d → evidence_ok x.
Proof.
  intros Hl [Hp Hb Hf Hx]. destruct Hl as [|? ? ? ? ? ? Hs Hw|? ? ? ? ? ? Hs|? ? ? ? Hs|? ? Hs Ha]; split; cbn; intros E; try done; try (by auto).
  - destruct (Hp Hs) as (? & ? & ? & ?). split; [|done]. eexists. by split.
  - destruct (Hb Hs) as (? & ? & ? & ?). split_and!; [done|by eexists|done].
  - destruct Hs as [Hs|Hs]; [destruct (Hp Hs) as (? & ? & ? & ?)|destruct (Hb Hs) as (? & ? & ? & ?)]; split_and!; try done; (by left) || (by right) || by eexists.
  - by rewrite E in Hs; destruct Hs.
  - by rewrite E in Hs; destruct Hs.
Qed.
Definition closed d : Prop := dp_state d = ds_finalized ∨ dp_state d = ds_failed.
(** The evidence of a closed dispatch stays. *)
Lemma life_closed d x : life d x → closed d →
  dp_state x = dp_state d ∧ dp_binding x = dp_binding d ∧ dp_source x = dp_source d ∧ dp_final x = dp_final d ∧ dp_failure x = dp_failure d.
Proof.
  intros Hl Hc. destruct Hl as [|? ? ? ? ? ? Hs Hw|? ? ? ? ? ? Hs|? ? ? ? Hs|? ? Hs Ha]; try done;
    unfold closed in Hc; intuition congruence.
Qed.

(** ** The store *)

Definition free_entry d (rows : list dispatch) : Prop := ∀ x, x ∈ rows → dp_incarnation x ≠ dp_incarnation d → entry_clash d x = false.
Definition moved d (f : dispatch → dispatch) s : pi_db := update_dispatches (is_dispatch (dp_incarnation d)) f s.
Definition is_new d : Prop := dp_state d = ds_prepared ∧ dp_binding d = None ∧ dp_source d = None ∧ dp_final d = None ∧ dp_failure d = None ∧ dp_acknowledged d = None.

Inductive pi_turn : pi_db → pi_db → Prop :=
| pt_prepare s d rows : is_new d → insert dispatch_clash d (pd_dispatches s) = Some rows →
    exists_row (is_primary (di_turn (dp_id d))) (pd_messages s) = false → pi_turn s (s <| pd_dispatches := rows |>)
| pt_move s d f : d ∈ pd_dispatches s → life d (f d) → dp_state (f d) ≠ ds_finalized ∨ dp_state d = ds_finalized → free_entry (f d) (pd_dispatches s) →
    pi_turn s (moved d f s)
| pt_fail s d t code envelope_hash now : d ∈ pd_dispatches s → dp_state d = ds_prepared ∨ dp_state d = ds_bound → t ∈ pd_turns s → tn_id t = di_turn (dp_id d) →
    ended (tn_lifecycle t) = false → pi_turn s (end_turn "failed" "failed" 1 now (di_turn (dp_id d)) (moved d (fail_dispatch code envelope_hash now) s))
| pt_deliver s s1 d t e sequence_hash envelope_hash text bytes now upserted increment : d ∈ pd_dispatches s → dp_state d = ds_bound →
    t ∈ pd_turns s → tn_id t = di_turn (dp_id d) → frozen t = false →
    free_entry (final_update e sequence_hash envelope_hash bytes now d) (pd_dispatches s) →
    _upsert_final_message now (dp_id d) t text s = Ok (upserted, s1) →
    pi_turn s (touch_conversation now (di_conversation (dp_id d))
                 (moved d (final_update e sequence_hash envelope_hash bytes now) (end_turn "answered" "completed" increment now (di_turn (dp_id d)) s1))).

(** Owners: nothing is owned twice. Feed: the changes of a conversation are
    numbered from 0 without a gap. *)
Record owners_ok (rows : list dispatch) : Prop := {
  ow_incarnation : NoDup (map dp_incarnation rows);
  ow_capability : NoDup (map (λ d, di_capability (dp_id d)) rows);
  ow_turn : NoDup (map (λ d, di_turn (dp_id d)) rows);
  ow_message : NoDup (map (λ d, di_message (dp_id d)) rows);
  ow_entry : ∀ a b, a ∈ rows → b ∈ rows → dp_incarnation a ≠ dp_incarnation b → entry_clash a b = false;
}.
Definition in_feed (c : string) (r : change) : bool := ch_conversation r == c.
Record pi_ok s : Prop := {
  pk_owners : owners_ok (pd_dispatches s);
  pk_evidence : ∀ d, d ∈ pd_dispatches s → evidence_ok d;
  pk_conversations : NoDup (map cn_id (pd_conversations s));
  pk_turns : NoDup (map tn_id (pd_turns s));
  pk_messages : NoDup (map mg_id (pd_messages s));
  pk_feed : ∀ c, numbered ch_sequence (in_feed c) (-1) (pd_changes s);
}.

(** ** Owners *)

Lemma both_equal_sym a b : both_equal a b = both_equal b a.
Proof. destruct a, b; simpl; try done. apply String.eqb_sym. Qed.
Lemma entry_clash_sym a b : entry_clash a b = entry_clash b a.
Proof. unfold entry_clash. by rewrite (both_equal_sym (dp_session a)), (both_equal_sym (dp_user_entry a)), (both_equal_sym (dp_assistant_entry a)). Qed.
Lemma only_dispatch rows d x : NoDup (map dp_incarnation rows) → d ∈ rows → x ∈ rows → is_dispatch (dp_incarnation d) x = true → x = d.
Proof. intros Hn Hd Hx E. unfold is_dispatch in E. bools. by eapply NoDup_key_inj. Qed.
Lemma map_moved {K} (k : dispatch_identity → K) rows d f : NoDup (map dp_incarnation rows) → d ∈ rows → dp_id (f d) = dp_id d →
  map (λ x, k (dp_id x)) (update (is_dispatch (dp_incarnation d)) f rows) = map (λ x, k (dp_id x)) rows.
Proof.
  intros Hn Hd Hf. apply (map_update_in (λ x, k (dp_id x))). intros r Hr Hp. rewrite (only_dispatch rows d r) by done. by rewrite Hf.
Qed.
Lemma elem_of_moved rows d f x : NoDup (map dp_incarnation rows) → d ∈ rows → x ∈ update (is_dispatch (dp_incarnation d)) f rows →
  x = f d ∨ x ∈ rows ∧ dp_incarnation x ≠ dp_incarnation d.
Proof.
  intros Hn Hd (x' & Hx' & ->)%elem_of_update. destruct (is_dispatch (dp_incarnation d) x') eqn:E.
  - left. by rewrite (only_dispatch rows d x').
  - right. split; [done|]. unfold is_dispatch in E. by bools.
Qed.
Lemma in_moved rows d f x : x ∈ rows → x ≠ d → NoDup (map dp_incarnation rows) → d ∈ rows → x ∈ update (is_dispatch (dp_incarnation d)) f rows.
Proof.
  intros Hx Hne Hn Hd. pose proof (update_in (is_dispatch (dp_incarnation d)) f rows x Hx) as Hin.
  destruct (is_dispatch (dp_incarnation d) x) eqn:E; [|done]. by destruct (Hne (only_dispatch rows d x Hn Hd Hx E)).
Qed.
Lemma moved_in rows d f : d ∈ rows → f d ∈ update (is_dispatch (dp_incarnation d)) f rows.
Proof.
  intros Hd. pose proof (update_in (is_dispatch (dp_incarnation d)) f rows d Hd) as Hin. unfold is_dispatch in Hin at 1. by rewrite bool_decide_true in Hin.
Qed.

Lemma owners_moved rows d f : owners_ok rows → d ∈ rows → dp_id (f d) = dp_id d → free_entry (f d) rows →
  owners_ok (update (is_dispatch (dp_incarnation d)) f rows).
Proof.
  intros [Hi Hc Ht Hm He] Hd Hf Hfree. assert (dp_incarnation (f d) = dp_incarnation d) as Hinc by (unfold dp_incarnation; by rewrite Hf).
  split; try (by rewrite (map_moved _ rows d f)); [by rewrite (map_moved di_incarnation)|]. intros a b Ha Hb Hab.
  apply (elem_of_moved rows d f) in Ha as [->|[Ha Hna]], Hb as [->|[Hb Hnb]]; try done; [by apply Hfree; congruence| |by apply He].
  rewrite entry_clash_sym. apply Hfree; congruence.
Qed.
Lemma owners_inserted rows d rows' : owners_ok rows → insert dispatch_clash d rows = Some rows' → owners_ok rows'.
Proof.
  intros [Hi Hc Ht Hm He] Hins. pose proof Hins as [-> Hclash]%insert_some.
  assert (∀ x, x ∈ rows → identity_clash d x = false ∧ entry_clash d x = false) as Hfree by (intros x Hx; apply orb_false_iff; by apply Hclash).
  unfold identity_clash in Hfree. split.
  - apply (insert_NoDup dp_incarnation dispatch_clash d rows); [|done..]. intros a b E. unfold dispatch_clash, identity_clash. by rewrite (bool_decide_true _ E).
  - apply (insert_NoDup (λ d, di_capability (dp_id d)) dispatch_clash d rows); [|done..]. intros a b E. unfold dispatch_clash, identity_clash. by rewrite (bool_decide_true _ E), ?orb_true_r.
  - apply (insert_NoDup (λ d, di_turn (dp_id d)) dispatch_clash d rows); [|done..]. intros a b E. unfold dispatch_clash, identity_clash. by rewrite (bool_decide_true _ E), ?orb_true_r.
  - apply (insert_NoDup (λ d, di_message (dp_id d)) dispatch_clash d rows); [|done..]. intros a b E. unfold dispatch_clash, identity_clash. by rewrite (bool_decide_true _ E), ?orb_true_r.
  - intros a b [Ha|Ha%list_elem_of_singleton]%elem_of_app [Hb|Hb%list_elem_of_singleton]%elem_of_app Hab; subst; try done; [by apply He| |by apply Hfree].
    rewrite entry_clash_sym. by apply Hfree.
Qed.

(** ** The answer of a turn *)

(** A delivered answer. *)
Definition answers i (text : string) m : Prop :=
  mg_id m = di_message i ∧ mg_turn m = di_turn i ∧ mg_slot m = "primary" ∧ mg_role m = "assistant" ∧ mg_type m = "conversation" ∧ mg_text m = text ∧
  mg_visible m = true ∧ mg_source m = PI_SOURCE_NAME ∧ mg_content_source m = PI_CONTENT_SOURCE ∧ mg_structured m = None.
(** What an upsert does: nothing, an insertion or an overwriting, recorded in
    the feed of the message's conversation. *)
Definition recorded m s s1 : Prop := pd_changes s1 = pd_changes s ++
  [Build_change (mg_conversation m) (default (-1) (max_of ch_sequence (in_feed (mg_conversation m)) (pd_changes s)) + 1) (mg_id m) (mg_revision m) (mg_updated m)].
Inductive written i (text : string) s s1 m : Prop :=
| written_same : pd_messages s1 = pd_messages s → pd_changes s1 = pd_changes s → m ∈ pd_messages s → written i text s s1 m
| written_new : pd_messages s1 = pd_messages s ++ [m] → (∀ y, y ∈ pd_messages s → mg_id y ≠ di_message i) → recorded m s s1 → mg_revision m = 1 → written i text s s1 m
| written_over m0 index now : m0 ∈ pd_messages s → mg_id m0 = di_message i → mg_turn m0 = di_turn i → mg_content_source m0 ≠ "structured" →
    m = overwrite index text now m0 → pd_messages s1 = update (λ y, mg_id y == di_message i) (overwrite index text now) (pd_messages s) → recorded m s s1 →
    written i text s s1 m.

Lemma record_cases id s u s1 : _record_message_change id s = Ok (u, s1) → ∃ m, fetchone (λ m, mg_id m == id) (pd_messages s) = Some m ∧ recorded m s s1 ∧
  pd_messages s1 = pd_messages s ∧ pd_dispatches s1 = pd_dispatches s ∧ pd_turns s1 = pd_turns s ∧ pd_conversations s1 = pd_conversations s ∧ pd_structured s1 = pd_structured s.
Proof.
  unfold _record_message_change, insert_change. intros H. tx_inv.
  match goal with Hf : fetchone _ _ = Some ?m |- _ => exists m; split; [done|]; pose proof Hf as [_ Hid]%fetchone_some end. bools.
  match goal with Hi : insert _ _ _ = Some _ |- _ => apply insert_some in Hi as [-> _] end. split; [|done]. unfold recorded. cbn. rewrite <- Hid.
  do 3 f_equal. unfold in_feed. by destruct (max_of _ _ _).
Qed.
Lemma upsert_message_cases now i t text s u s1 : _upsert_final_message now i t text s = Ok (u, s1) → NoDup (map mg_id (pd_messages s)) →
  pd_dispatches s1 = pd_dispatches s ∧ pd_turns s1 = pd_turns s ∧ pd_conversations s1 = pd_conversations s ∧ pd_structured s1 = pd_structured s ∧
  ∃ m, m ∈ pd_messages s1 ∧ answers i text m ∧ mg_revision m = u.1 ∧ written i text s s1 m.
Proof.
  unfold _upsert_final_message. intros H Hn. tx_inv; repeat match goal with
    | Hf : fetchone _ _ = Some _ |- _ => apply fetchone_some in Hf as [? ?]
    | Hi : insert_message _ _ = Ok _ |- _ => unfold insert_message in Hi; tx_inv
    end; bools.
  - split_and!; [done..|]. exists m. unfold unchanged in *. bools. split_and!; [done| |done|by constructor]. by unfold answers.
  - match goal with Hr : _record_message_change _ _ = _ |- _ => apply record_cases in Hr as (m1 & Hf & Hrec & Em & Ed & Et & Ec & Es) end.
    cbn -[fetchone update overwrite] in Hf. rewrite (fetchone_update (λ m, mg_id m == di_message i)) in Hf by done. cbn in Hf.
    match goal with Hin : m ∈ pd_messages ?s |- _ => rewrite (fetchone_unique mg_id _ _ m Hn Hin) in Hf; [|by apply bool_decide_true|intros; bools; congruence] end.
    cbn in Hf. rewrite bool_decide_true in Hf by done. injection Hf as <-. rewrite Ed, Et, Ec, Es. split_and!; [done..|].
    exists (overwrite (tn_sequence t * 1000 + 999) text now m). split_and!; [|by unfold answers|done|].
    + rewrite Em. cbn. match goal with Hin : m ∈ pd_messages ?s |- _ => pose proof (update_in (λ m, mg_id m == di_message i) (overwrite (tn_sequence t * 1000 + 999) text now) _ _ Hin) as Hup end.
      cbv beta in Hup. by rewrite bool_decide_true in Hup.
    + eapply (written_over _ _ _ _ _ m); [done..|by rewrite Em|done].
  - match goal with Hr : _record_message_change _ _ = _ |- _ => apply record_cases in Hr as (m1 & Hf & Hrec & Em & Ed & Et & Ec & Es) end.
    match goal with Hi : insert message_clash _ _ = Some _ |- _ => apply insert_some in Hi as [-> Hfresh] end. cbn in Hf.
    match goal with Hno : fetchone _ _ = None |- _ => rewrite (fetchone_app_none _ _ _ Hno) in Hf end. cbn in Hf. rewrite bool_decide_true in Hf by done. injection Hf as <-.
    rewrite Ed, Et, Ec, Es. split_and!; [done..|]. eexists. split_and!; [rewrite Em; cbn; apply elem_of_app; right; by apply list_elem_of_singleton|by unfold answers|done|]. apply written_new; [by rewrite Em| |done|done].
    intros y Hy Hid. match goal with Hno : fetchone _ _ = None |- _ => apply (fetchone_none _ _ _ Hno) in Hy end. by bools.
Qed.

Lemma recorded_feed m s s1 : recorded m s s1 → (∀ c, numbered ch_sequence (in_feed c) (-1) (pd_changes s)) → ∀ c, numbered ch_sequence (in_feed c) (-1) (pd_changes s1).
Proof.
  unfold recorded. intros -> Hf c. destruct (in_feed c (Build_change (mg_conversation m) (default (-1) (max_of ch_sequence (in_feed (mg_conversation m)) (pd_changes s)) + 1) (mg_id m) (mg_revision m) (mg_updated m))) eqn:E.
  - apply numbered_next; [done| |by apply Hf]. unfold in_feed in E. bools. cbn in *. rewrite E. rewrite (numbered_max_from _ _ _ _ (Hf c)). lia.
  - apply numbered_skip; [done|by apply Hf].
Qed.
Lemma written_ok i text s s1 m : written i text s s1 m → mg_id m = di_message i → NoDup (map mg_id (pd_messages s)) → (∀ c, numbered ch_sequence (in_feed c) (-1) (pd_changes s)) →
  NoDup (map mg_id (pd_messages s1)) ∧ ∀ c, numbered ch_sequence (in_feed c) (-1) (pd_changes s1).
Proof.
  intros Hw Hid Hn Hf. destruct Hw as [Em Ec Hm|Em Hfresh Hrec _|m0 index now Hm0 Hid0 _ _ -> Em Hrec].
  - by rewrite Em, Ec.
  - split; [|by eapply recorded_feed]. rewrite Em, map_app. apply NoDup_app. split; [done|]. split; [|apply NoDup_singleton].
    intros k (y & -> & Hy)%list_elem_of_fmap Hk%list_elem_of_singleton. apply (Hfresh y Hy). congruence.
  - split; [|by eapply recorded_feed]. by rewrite Em, map_update.
Qed.
Lemma new_evidence d : is_new d → evidence_ok d.
Proof. intros (Hs & Hb & Hsrc & Hf & Hx & Ha). split; intros E; try (rewrite Hs in E; discriminate E). done. Qed.

Lemma moved_ok s d f : pi_ok s → d ∈ pd_dispatches s → dp_id (f d) = dp_id d → evidence_ok (f d) → free_entry (f d) (pd_dispatches s) → pi_ok (moved d f s).
Proof.
  intros [Ho He Hc Ht Hm Hf] Hd Hid Hev Hfree. split; try done.
  - by apply owners_moved.
  - cbn. intros x Hx. apply (elem_of_moved _ d f) in Hx as [->|[Hx _]]; [done|by apply He|apply Ho|done].
Qed.
Lemma end_turn_ok status lifecycle increment now id s : pi_ok s → pi_ok (end_turn status lifecycle increment now id s).
Proof. intros [Ho He Hc Ht Hm Hf]. split; try done. cbn. by rewrite map_update. Qed.
Lemma touch_ok now id s : pi_ok s → pi_ok (touch_conversation now id s).
Proof. intros [Ho He Hc Ht Hm Hf]. split; try done. cbn. by rewrite map_update. Qed.
Lemma open_free s d f : pi_ok s → d ∈ pd_dispatches s → dp_id (f d) = dp_id d → dp_binding (f d) = dp_binding d → dp_assistant_entry (f d) = dp_assistant_entry d →
  free_entry (f d) (pd_dispatches s).
Proof.
  intros Hs Hd Hid Hb Ha x Hx Hne. assert (dp_incarnation (f d) = dp_incarnation d) as Hinc by (unfold dp_incarnation; by rewrite Hid). rewrite Hinc in Hne.
  pose proof (ow_entry _ (pk_owners s Hs) d x Hd Hx (not_eq_sym Hne)) as Hfree. unfold entry_clash, dp_session, dp_user_entry in *. by rewrite Hb, Ha.
Qed.

Lemma pi_turn_ok s s' : pi_turn s s' → pi_ok s → pi_ok s'.
Proof.
  intros Hstep Hs. destruct Hstep as [s d rows Hnew Hins Hno|s d f Hd Hl Hst Hfree|s d t code eh now Hd Hst Ht Htid Hend|s s1 d t e sh eh text bytes now u inc Hd Hst Ht Htid Hfr Hfree Hup].
  - destruct Hs as [Ho He Hc Ht Hm Hf]. split; try done; [by eapply owners_inserted|]. cbn. apply insert_some in Hins as [-> _].
    intros x [Hx|Hx%list_elem_of_singleton]%elem_of_app; [by apply He|]. subst. by apply new_evidence.
  - apply moved_ok; try done; [by apply life_id|]. eapply life_evidence; [exact Hl|by apply (pk_evidence s Hs)].
  - apply end_turn_ok, moved_ok; try done.
    + eapply life_evidence; [by apply (life_fail d code eh now)|by apply (pk_evidence s Hs)].
    + by apply open_free.
  - apply touch_ok. destruct (upsert_message_cases _ _ _ _ _ _ _ Hup (pk_messages s Hs)) as (Ed & Et & Ec & Es & m & Hm & (Hid & _) & _ & Hw).
    destruct (written_ok _ _ _ _ _ Hw Hid (pk_messages s Hs) (pk_feed s Hs)) as [Hn1 Hf1].
    assert (pi_ok s1) as Hs1. { destruct Hs as [Ho He Hc Ht' Hm' Hf]. split; rewrite ?Ed, ?Et, ?Ec; done. }
    apply (moved_ok _ d); cbn; rewrite ?Ed; try done; [by apply end_turn_ok|].
    eapply life_evidence; [by apply (life_finalize d e sh eh bytes now)|by apply (pk_evidence s Hs)].
Qed.
Lemma pi_turns_ok s s' : rtc pi_turn s s' → pi_ok s → pi_ok s'.
Proof. induction 1 as [|s s1 s2 Hst _ IH]; [done|]. intros Hs. apply IH. by eapply pi_turn_ok. Qed.
