(* ===== verification/PiSteps.v ===== *)
(** * Every operation follows the contract

    A run of the store ([pi_after]) is a sequence of [pi_turn]s. *)

From stdpp Require Import base option list strings numbers sets relations.
From Stdlib Require Import ZArith Lia.
From S2P Require Import Prelude Sql Feed Json Text PiEnvelope Pi PiInvariant.

Open Scope string_scope.
Open Scope list_scope.
Open Scope Z_scope.

Implicit Types (d x : dispatch) (s : pi_db) (t : turn) (m : message) (i : dispatch_identity) (e : PiOwnershipEnvelope).

(** ** Updates *)

Lemma guarded_cases incarnation st f s u s' : guarded_update incarnation st f s = Ok (u, s') → owners_ok (pd_dispatches s) →
  ∃ d, d ∈ pd_dispatches s ∧ dp_incarnation d = incarnation ∧ dp_state d = st ∧ s' = moved d f s ∧
    (dp_incarnation (f d) = dp_incarnation d → free_entry (f d) (pd_dispatches s)).
Proof.
  unfold guarded_update. intros H Ho. tx_inv. bools. set (target := λ d, is_dispatch incarnation d && (dp_state d == st)) in *.
  match goal with Hc : count target (pd_dispatches ?s0) = 1, Hno : exists_row _ _ = false |- _ =>
    rewrite exists_row_false in Hno; rename Hno into Hclash; rename s0 into s;
    destruct (select target (pd_dispatches s)) as [|d l] eqn:Es; [by unfold count in Hc; rewrite Es in Hc|] end.
  assert (d ∈ select target (pd_dispatches s)) as [Hd Htd]%elem_of_select by (rewrite Es; apply list_elem_of_here).
  pose proof Htd as [Hinc Hst]%andb_prop. unfold is_dispatch in Hinc. bools. exists d. split_and!; try done.
  - assert (update target f (pd_dispatches s) = update (is_dispatch (dp_incarnation d)) f (pd_dispatches s)) as Heq; [|exact (f_equal (λ rows, s <| pd_dispatches := rows |>) Heq)].
    unfold update. apply map_ext_in. intros x Hx%list_elem_of_In.
    destruct (is_dispatch (dp_incarnation d) x) eqn:Ex.
    + rewrite (only_dispatch _ d x (ow_incarnation _ Ho) Hd Hx Ex). by rewrite Htd.
    + unfold target. rewrite <- Hinc. by rewrite Ex.
  - intros Hf x Hx Hne. specialize (Hclash d Hd). cbv beta in Hclash. change (target d && exists_row (λ x, negb (is_dispatch incarnation x) && entry_clash (f d) x) (pd_dispatches s) = false) in Hclash.
    rewrite Htd in Hclash. cbn [andb] in Hclash. rewrite exists_row_false in Hclash. specialize (Hclash x Hx). cbv beta in Hclash.
    unfold is_dispatch in Hclash. rewrite bool_decide_false in Hclash by congruence. done.
Qed.
Lemma owned_cases user target incarnation s d t : _owned_row user target incarnation s = Ok (d, t) →
  d ∈ pd_dispatches s ∧ dp_incarnation d = incarnation ∧ di_user (dp_id d) = user ∧ t ∈ pd_turns s ∧ tn_id t = di_turn (dp_id d) ∧
  ∃ c, c ∈ pd_conversations s ∧ cn_id c = di_conversation (dp_id d) ∧ cn_user c = user ∧ cn_target c = target.
Proof.
  unfold _owned_row. intros H. tx_inv. bools. repeat match goal with Hf : fetchone _ _ = Some _ |- _ => apply fetchone_some in Hf as [? ?] end.
  unfold is_dispatch in *. bools. naive_solver.
Qed.
Lemma owned_ok user target incarnation s r s' : owned_row user target incarnation s = Ok (r, s') ↔ s' = s ∧ _owned_row user target incarnation s = Ok r.
Proof. unfold owned_row. destruct (_owned_row _ _ _ _); naive_solver. Qed.
(** In a good state the dispatch of an incarnation is the only one. *)
Lemma same_dispatch s d x : pi_ok s → d ∈ pd_dispatches s → x ∈ pd_dispatches s → dp_incarnation d = dp_incarnation x → d = x.
Proof. intros Hs Hd Hx E. eapply (NoDup_key_inj dp_incarnation); [apply (ow_incarnation _ (pk_owners s Hs))|done..]. Qed.
Lemma guarded_dispatch d st f s u s' : guarded_update (dp_incarnation d) st f s = Ok (u, s') → pi_ok s → d ∈ pd_dispatches s → dp_id (f d) = dp_id d →
  dp_state d = st ∧ s' = moved d f s ∧ free_entry (f d) (pd_dispatches s).
Proof.
  intros H Hs Hd Hf. apply guarded_cases in H as (x & Hx & Hi & Hst & -> & Hfree); [|apply Hs].
  apply (same_dispatch s x d Hs) in Hx as ->; [|done..]. split_and!; [done..|]. apply Hfree. unfold dp_incarnation. by rewrite Hf.
Qed.

(** ** Operations *)

Section Operations.
Context `{Codec} (decrypt_token : string → option string).

Lemma allocate_cases a now draws s d s' : allocate a now draws s = Ok (d, s') → ∃ r, r ∈ draws ∧ d = new_dispatch a r now ∧
  insert dispatch_clash d (pd_dispatches s) = Some (pd_dispatches s') ∧ s' = s <| pd_dispatches := pd_dispatches s' |>.
Proof.
  induction draws as [|r draws IH]; cbn [allocate]; [done|].
  destruct (insert dispatch_clash (new_dispatch a r now) (pd_dispatches s)) as [rows|] eqn:E; [|intros (x & ? & ? & ?)%IH; set_solver].
  intros [= <- <-]. exists r. split; [set_solver|]. done.
Qed.
Lemma prepare_turn now draws a s v s' : prepare_pi_dispatch decrypt_token now draws a s = Ok (v, s') → rtc pi_turn s s'.
Proof.
  unfold prepare_pi_dispatch. intros H0. tx_inv; [done|]. bools.
  match goal with Ha : allocate _ _ _ _ = Ok _ |- _ => apply allocate_cases in Ha as (r & _ & -> & Hins & ->) end.
  apply rtc_once. eapply pt_prepare; [|exact Hins|done]. done.
Qed.

Lemma binding_cases now d e sequence_hash envelope_hash s status s' : _apply_binding now d e sequence_hash envelope_hash s = Ok (status, s') →
  pi_ok s → d ∈ pd_dispatches s →
  within (dp_id d) (en_user_sha e) (en_bound_at e) ∧
  (status = as_duplicate ∧ dp_state d = ds_bound ∧ s' = s ∨
   status = as_applied ∧ ∃ encoded, let f := bind_columns e encoded sequence_hash envelope_hash now in
     dp_state d = ds_prepared ∧ s' = moved d f s ∧ free_entry (f d) (pd_dispatches s)).
Proof.
  unfold _apply_binding. intros H0 Hs Hd. tx_inv. bools.
  match goal with Hb : en_bound_at e = Some ?b |- _ => assert (within (dp_id d) (en_user_sha e) (en_bound_at e)) as Hw by (split; [done|by exists b]) end.
  split; [done|]. destruct (dp_state d) eqn:Ed; tx_inv; bools.
  - right. split; [done|]. match goal with Hg : guarded_update _ _ _ _ = _ |- _ => apply guarded_dispatch in Hg as (_ & -> & Hfree); [|done..] end. eauto.
  - by left.
Qed.
Lemma binding_turn now d e sequence_hash envelope_hash s status s' : _apply_binding now d e sequence_hash envelope_hash s = Ok (status, s') →
  pi_ok s → d ∈ pd_dispatches s → rtc pi_turn s s'.
Proof.
  intros H0 Hs Hd. apply binding_cases in H0 as (Hw & [(_ & _ & ->)|(_ & encoded & Hst & -> & Hfree)]); [done| |done..].
  apply rtc_once, pt_move; [done|by apply life_bind| |done]. by left.
Qed.

Lemma failure_turn now d t e envelope_hash s r s' : apply_failure now d t e envelope_hash s = Ok (r, s') → pi_ok s → d ∈ pd_dispatches s → t ∈ pd_turns s →
  tn_id t = di_turn (dp_id d) → rtc pi_turn s s'.
Proof.
  unfold apply_failure. intros H0 Hs Hd Ht Hid.
  assert (∀ code, dp_state d = ds_prepared ∨ dp_state d = ds_bound →
    rtc pi_turn s (if ended (tn_lifecycle t) then moved d (fail_dispatch code envelope_hash now) s
                   else end_turn "failed" "failed" 1 now (di_turn (dp_id d)) (moved d (fail_dispatch code envelope_hash now) s))) as Hfail.
  { intros code Ho. apply rtc_once. destruct (ended (tn_lifecycle t)) eqn:Ee; [|by eapply pt_fail].
    apply pt_move; [done|by apply life_fail|by left|by apply open_free]. }
  destruct (dp_state d) eqn:Ed; tx_inv; bools; try done; (eapply rtc_eq_r || idtac); apply Hfail; auto.
Qed.

Definition owned d t s : Prop := d ∈ pd_dispatches s ∧ t ∈ pd_turns s ∧ tn_id t = di_turn (dp_id d).
Lemma settle_cases now user target d t e s d' t' s' : settle_binding now user target d t e s = Ok ((d', t'), s') → pi_ok s → owned d t s →
  dp_incarnation d = en_incarnation e → dp_state d = ds_prepared ∨ dp_state d = ds_bound →
  s' = s ∧ d' = d ∧ t' = t ∧ dp_state d = ds_bound ∧ dp_session d = en_session e ∧ dp_user_entry d = en_user e ∨
  ∃ prefix encoded binding_hash binding_envelope, let f := bind_columns (binding_payload e prefix binding_hash) encoded binding_hash binding_envelope now in
    dp_state d = ds_prepared ∧ within (dp_id d) (en_user_sha e) (en_bound_at e) ∧ free_entry (f d) (pd_dispatches s) ∧
    s' = moved d f s ∧ d' = f d ∧ owned d' t' s'.
Proof.
  unfold settle_binding. intros H0 Hs (Hd & Ht & Hid) Hinc Hst. tx_inv; bools.
  - right. match goal with Hb : _apply_binding _ _ (binding_payload _ ?p _) ?bh ?be _ = _ |- _ =>
      apply binding_cases in Hb as (Hw & [(_ & Hb & _)|(_ & encoded & _ & -> & Hfree)]); [congruence| |done..]; exists p, encoded, bh, be end.
    match goal with Ho : owned_row _ _ _ _ = _ |- _ => apply owned_ok in Ho as [-> Ho]; apply owned_cases in Ho as (Hd' & Hi' & _ & Ht' & Hid' & _) end.
    pose proof Hd' as Hin. apply (elem_of_moved _ d) in Hd' as [->|[_ Hne]]; [done|congruence|apply (pk_owners s2 Hs)|done].
  - left. simplify_eq. unfold binding_kept in *. tx_inv. bools. by destruct Hst.
Qed.
Lemma settle_turn now user target d t e s d' t' s' : settle_binding now user target d t e s = Ok ((d', t'), s') → pi_ok s → owned d t s →
  dp_incarnation d = en_incarnation e → dp_state d = ds_prepared ∨ dp_state d = ds_bound →
  rtc pi_turn s s' ∧ owned d' t' s' ∧ dp_state d' = ds_bound ∧ dp_id d' = dp_id d ∧ pd_messages s' = pd_messages s ∧ pd_turns s' = pd_turns s ∧
  pd_conversations s' = pd_conversations s ∧ pd_changes s' = pd_changes s.
Proof.
  intros H0 Hs Ho Hinc Hst. pose proof (settle_cases _ _ _ _ _ _ _ _ _ _ H0 Hs Ho Hinc Hst) as [(-> & -> & -> & Hb & _)|(p & encoded & bh & be & Hp & Hw & Hfree & -> & -> & Ho')]; [done|].
  split_and!; try done. apply rtc_once, pt_move; [apply Ho|by apply life_bind|by left|done].
Qed.

Lemma deliver_turn now d t e envelope_hash sequence_hash text bytes s r s' : deliver now d t e envelope_hash sequence_hash text bytes s = Ok (r, s') → pi_ok s →
  owned d t s → dp_state d = ds_bound → pi_turn s s'.
Proof.
  unfold deliver. intros H0 Hs (Hd & Ht & Hid) Hst. tx_inv.
  - match goal with Hg : guarded_update _ _ _ _ = _ |- _ => apply guarded_dispatch in Hg as (_ & -> & Hfree); [|done..] end.
    apply pt_move; [done|apply life_fail; by right|by left|done].
  - match goal with Hu : _upsert_final_message _ _ _ _ _ = Ok (?u, ?s1) |- _ => destruct (upsert_message_cases _ _ _ _ _ _ _ Hu (pk_messages s Hs)) as (Ed & Et & Ec & Es & m & Hm & (Hmid & _) & _ & Hw);
      destruct (written_ok _ _ _ _ _ Hw Hmid (pk_messages s Hs) (pk_feed s Hs)) as [Hn1 Hf1];
      assert (pi_ok s1) as Hs1 by (destruct Hs as [Ho He Hc Ht' Hm' Hf]; split; rewrite ?Ed, ?Et, ?Ec; done) end.
    match goal with Hg : guarded_update _ _ _ _ = _ |- _ => apply guarded_dispatch in Hg as (_ & -> & Hfree); [|by apply end_turn_ok|cbn; by rewrite Ed|done] end.
    cbn in Hfree. rewrite Ed in Hfree. by eapply pt_deliver.
Qed.

Lemma final_turn now user target d t e envelope_hash sequence_hash text bytes s r s' :
  apply_final now user target d t e envelope_hash sequence_hash text bytes s = Ok (r, s') → pi_ok s → owned d t s → dp_incarnation d = en_incarnation e →
  s' = s ∧ ar_status r = as_duplicate ∧ (dp_state d = ds_finalized ∨ dp_state d = ds_failed) ∨
  ∃ d1 t1 s1, settle_binding now user target d t e s = Ok ((d1, t1), s1) ∧ (dp_state d = ds_prepared ∨ dp_state d = ds_bound) ∧
    deliver now d1 t1 e envelope_hash sequence_hash text bytes s1 = Ok (r, s').
Proof.
  unfold apply_final. intros H0 Hs Ho Hinc. tx_inv. destruct (dp_state d) eqn:Ed; tx_inv; try (left; auto; fail).
  all: match goal with Hx : (let '(_, _) := ?p in _) _ = Ok _ |- _ => destruct p as [d1 t1] end; right; eauto 10.
Qed.

(** A successful application, by event. *)
Inductive applied (now : Z) (user target : string) e d t s (r : apply_result) (s' : pi_db) : Prop :=
| applied_nothing : s' = s → ar_status r = as_pending ∨ ar_status r = as_duplicate → applied now user target e d t s r s'
| applied_failure envelope_hash : en_event e = ev_failed → apply_failure now d t e envelope_hash s = Ok (r, s') → applied now user target e d t s r s'
| applied_binding sequence_hash envelope_hash status : en_event e = ev_bound → _apply_binding now d e sequence_hash envelope_hash s = Ok (status, s') →
    ar_status r = status → ar_state r = ds_bound → _validate_sequence e false = Ok sequence_hash → applied now user target e d t s r s'
| applied_final envelope_hash sequence_hash text bytes d1 t1 s1 : en_event e = ev_finalized → _semantic_envelope_hash e = Ok envelope_hash →
    _validate_sequence e true = Ok sequence_hash → _visible_text e = Ok (text, bytes) → check_times now e = Ok tt →
    (dp_state d = ds_prepared ∨ dp_state d = ds_bound) → settle_binding now user target d t e s = Ok ((d1, t1), s1) →
    deliver now d1 t1 e envelope_hash sequence_hash text bytes s1 = Ok (r, s') → applied now user target e d t s r s'.
Lemma apply_cases now user target capability e s r s' : apply_pi_ownership_envelope now user target capability e s = Ok (r, s') → pi_ok s →
  model_validate e = true ∧ ∃ d t, _owned_row user target (en_incarnation e) s = Ok (d, t) ∧ _verify_identity (dp_id d) e capability = Ok tt ∧
    applied now user target e d t s r s'.
Proof.
  unfold apply_pi_ownership_envelope. intros H0 Hs. tx_inv.
  match goal with Hc : check_envelope e = Ok ?p |- _ => destruct p as [[envelope_hash sequence_hash] visible]; unfold check_envelope in Hc; rename Hc into Hcheck end.
  tx_inv. match goal with Ho : owned_row _ _ _ _ = Ok (?p, _) |- _ => destruct p as [d t]; apply owned_ok in Ho as [-> Ho] end.
  tx_inv. split; [done|]. exists d, t. split; [done|]. split; [done|].
  destruct (en_event e) eqn:Ev; tx_inv; simplify_eq.
  - apply applied_nothing; [done|by left].
  - match goal with Hb : _apply_binding _ _ _ ?sh ?eh _ = Ok (?st, _) |- _ => by apply (applied_binding _ _ _ _ _ _ _ _ _ sh eh st) end.
  - match goal with Hx : (let '(_, _) := ?p in _) _ = Ok _ |- _ => destruct p as [text bytes]; rename Hx into Hfinal end.
    match goal with Hs0 : pi_ok ?s0 |- _ => pose proof (owned_cases _ _ _ s0 _ _ ltac:(eassumption)) as (Hd & Hinc & _ & Ht & Hid & _) end.
    assert (check_times now e = Ok tt) as Htimes.
    { unfold apply_final in Hfinal. by tx_inv. }
    apply final_turn in Hfinal as [(-> & Hdup & _)|(d1 & t1 & s1 & Hset & Hst & Hdel)]; [apply applied_nothing; [done|by right]| |done|done|done].
    by eapply applied_final.
  - match goal with Hf : apply_failure _ _ _ _ ?eh _ = _ |- _ => by apply (applied_failure _ _ _ _ _ _ _ _ _ eh) end.
Qed.

Lemma apply_turn now user target capability e s r s' : apply_pi_ownership_envelope now user target capability e s = Ok (r, s') → pi_ok s → rtc pi_turn s s'.
Proof.
  intros H0 Hs. apply apply_cases in H0 as (_ & d & t & Ho & _ & Ha); [|done]. apply owned_cases in Ho as (Hd & Hinc & _ & Ht & Hid & _).
  destruct Ha as [-> _|eh _ Hf|sh eh st _ Hb _ _ _|eh sh text bytes d1 t1 s1 _ _ _ _ _ Hst Hset Hdel]; [done|by eapply failure_turn|by eapply binding_turn|].
  pose proof (settle_turn _ _ _ _ _ _ _ _ _ _ Hset Hs (conj Hd (conj Ht Hid)) Hinc Hst) as (Hr & Ho & Hb & _). etrans; [exact Hr|]. apply rtc_once.
  eapply deliver_turn; [exact Hdel|by eapply pi_turns_ok|done|done].
Qed.
Lemma acknowledge_turn now user target incarnation accepted s u s' : mark_pi_adapter_acknowledged now user target incarnation accepted s = Ok (u, s') → pi_ok s →
  rtc pi_turn s s'.
Proof.
  unfold mark_pi_adapter_acknowledged. intros H0 Hs. tx_inv.
  match goal with Ho : owned_row _ _ _ _ = Ok (?p, _) |- _ => destruct p as [d t]; apply owned_ok in Ho as [-> Ho]; apply owned_cases in Ho as (Hd & Hinc & _) end.
  tx_inv; bools; [|done]. subst. apply rtc_once. apply (pt_move _ d (acknowledge now)); [done| | |by apply open_free].
  - apply life_acknowledge; [|done]. unfold accepted_envelope in *. destruct (dp_state d); auto; done.
  - destruct (dp_state d) eqn:Ed; cbn; rewrite Ed; auto.
Qed.
Lemma attempt_turn now incarnation s : pi_ok s → rtc pi_turn s (mark_pi_dispatch_attempt now incarnation s).
Proof.
  intros Hs. destruct (fetchone (is_dispatch incarnation) (pd_dispatches s)) as [d|] eqn:E.
  - apply fetchone_some in E as [Hd Hi]. unfold is_dispatch in Hi. bools. subst. apply rtc_once. apply (pt_move _ d (attempt now)); [done|constructor| |by apply open_free].
    destruct (dp_state d) eqn:Ed; cbn; rewrite Ed; auto.
  - assert (update (is_dispatch incarnation) (attempt now) (pd_dispatches s) = pd_dispatches s) as Heq.
    { apply update_id. intros x Hx Hp. eapply fetchone_none in E; [|exact Hx]. congruence. }
    assert (mark_pi_dispatch_attempt now incarnation s = s) as ->; [|done]. etrans; [exact (f_equal (λ rows, s <| pd_dispatches := rows |>) Heq)|]. by destruct s.
Qed.
Lemma recover_turn now rows s : pi_ok s → rtc pi_turn s (recover_rows decrypt_token now rows s).2.
Proof.
  revert s. induction rows as [|d rows IH]; intros s Hs; cbn [recover_rows]; [done|]. destruct (_row_dispatch decrypt_token d true).
  - specialize (IH s Hs). destruct (recover_rows decrypt_token now rows s). exact IH.
  - pose proof (attempt_turn now (dp_incarnation d) s Hs) as Ha. etrans; [exact Ha|]. apply IH. by eapply pi_turns_ok.
Qed.

(** ** Runs *)

Inductive pi_op :=
| PPrepare (now : Z) (draws : list draw) (a : prepare_args)
| PApply (now : Z) (user target capability : string) (e : PiOwnershipEnvelope)
| PAcknowledge (now : Z) (user target incarnation accepted : string)
| PAttempt (now : Z) (incarnation : string)
| PRecover (now limit : Z).
Definition pi_step (op : pi_op) s : pi_db :=
  match op with
  | PPrepare now draws a => (commit (prepare_pi_dispatch decrypt_token now draws a) s).2
  | PApply now user target capability e => (commit (apply_pi_ownership_envelope now user target capability e) s).2
  | PAcknowledge now user target incarnation accepted => (commit (mark_pi_adapter_acknowledged now user target incarnation accepted) s).2
  | PAttempt now incarnation => mark_pi_dispatch_attempt now incarnation s
  | PRecover now limit => (commit (get_recoverable_dispatches decrypt_token now limit) s).2
  end.
Definition pi_after (ops : list pi_op) s : pi_db := foldl (λ s op, pi_step op s) s ops.

Lemma committed_turns {A} (p : ptx A) s : (∀ a s', p s = Ok (a, s') → rtc pi_turn s s') → rtc pi_turn s (commit p s).2.
Proof. intros Hp. unfold commit. destruct (p s) as [[a s']|err] eqn:E; [by eapply Hp|done]. Qed.
Lemma pi_step_turns op s : pi_ok s → rtc pi_turn s (pi_step op s).
Proof.
  intros Hs. destruct op; cbn [pi_step].
  - apply committed_turns. intros v s' E. by eapply prepare_turn.
  - apply committed_turns. intros v s' E. by eapply apply_turn.
  - apply committed_turns. intros v s' E. by eapply acknowledge_turn.
  - by apply attempt_turn.
  - apply committed_turns. intros v s' E. unfold get_recoverable_dispatches in E. tx_inv. unfold recover_tx in *.
    match goal with Hr : Ok (recover_rows _ ?n ?rows ?s0) = Ok _ |- _ => pose proof (recover_turn n rows s0 Hs) as Hrec; injection Hr as Hr; rewrite Hr in Hrec end. exact Hrec.
Qed.
Lemma pi_after_turns ops s : pi_ok s → rtc pi_turn s (pi_after ops s).
Proof.
  revert s. induction ops as [|op ops IH]; intros s Hs; [done|]. change (pi_after (op :: ops) s) with (pi_after ops (pi_step op s)).
  pose proof (pi_step_turns op s Hs) as Ho. etrans; [exact Ho|]. apply IH. by eapply pi_turns_ok.
Qed.
Lemma pi_after_ok ops s : pi_ok s → pi_ok (pi_after ops s).
Proof. intros Hs. eapply pi_turns_ok; [by apply pi_after_turns|done]. Qed.
End Operations.
