(* ===== verification/PiTheorems.v ===== *)
(** * What stays

    Consequences of the contract for every later state: dispatches live on,
    closed ones keep their evidence, delivered answers and the messages of
    frozen turns are not touched. *)

From stdpp Require Import base option list strings numbers sets relations.
From Stdlib Require Import ZArith Lia.
From S2P Require Import Prelude Sql Feed Json Text PiEnvelope Pi PiInvariant PiSteps.

Open Scope string_scope.
Open Scope list_scope.
Open Scope Z_scope.

Implicit Types (d x : dispatch) (s : pi_db) (t : turn) (m : message) (i : dispatch_identity) (e : PiOwnershipEnvelope).

(** ** One step *)

Lemma turn_dispatch s s' d : pi_turn s s' → pi_ok s → d ∈ pd_dispatches s → ∃ x, x ∈ pd_dispatches s' ∧ rtc life d x.
Proof.
  intros Hstep Hs Hd.
  assert (∀ y f (rows : list dispatch), rows = pd_dispatches s → y ∈ rows → life y (f y) → ∃ x, x ∈ update (is_dispatch (dp_incarnation y)) f rows ∧ rtc life d x) as Hmove.
  { intros y f rows -> Hy Hl. destruct (decide (dp_incarnation d = dp_incarnation y)) as [E|E].
    - rewrite (same_dispatch s d y Hs Hd Hy E). exists (f y). split; [by apply moved_in|by apply rtc_once].
    - exists d. split; [|done]. apply in_moved; [done|congruence|apply (pk_owners s Hs)|done]. }
  destruct Hstep as [s y rows _ Hins _|s y f Hy Hl _ _|s y t code eh now Hy Hst _ _ _|s s1 y t e sh eh text bytes now u inc Hy Hst _ _ _ _ Hup].
  - exists d. split; [|done]. apply insert_some in Hins as [-> _]. apply elem_of_app. by left.
  - by apply (Hmove y f (pd_dispatches s)).
  - apply (Hmove y (fail_dispatch code eh now) (pd_dispatches s)); [done..|]. by constructor.
  - destruct (upsert_message_cases _ _ _ _ _ _ _ Hup (pk_messages s Hs)) as (Ed & _). cbn. rewrite Ed.
    apply (Hmove y (final_update e sh eh bytes now) (pd_dispatches s)); [done..|]. by constructor.
Qed.
Lemma turn_turn s s' t : pi_turn s s' → pi_ok s → t ∈ pd_turns s → ∃ t', t' ∈ pd_turns s' ∧ tn_id t' = tn_id t ∧ (frozen t = true → frozen t' = true).
Proof.
  intros Hstep Hs Ht.
  assert (∀ status lifecycle increment now id s1, pd_turns s1 = pd_turns s → (tn_id t = id → frozen t = true → listed status ["cancelled"; "failed"] = true) →
    ∃ t', t' ∈ pd_turns (end_turn status lifecycle increment now id s1) ∧ tn_id t' = tn_id t ∧ (frozen t = true → frozen t' = true)) as Hend.
  { intros status lifecycle increment now id s1 E Hk. cbn. rewrite E. eexists. split; [by apply update_in|]. cbv beta. destruct (tn_id t == id) eqn:Ei; [|done].
    bools. split; [done|]. intros Hf. change (listed status ["cancelled"; "failed"] || listed lifecycle ["cancelled"; "failed"] = true). by rewrite Hk. }
  destruct Hstep as [s y rows _ _ _|s y f _ _ _ _|s y t1 code eh now Hy Hst Ht1 Hid _|s s1 y t1 e sh eh text bytes now u inc Hy Hst Ht1 Hid Hfr _ Hup]; [by exists t..| |].
  - by apply Hend.
  - destruct (upsert_message_cases _ _ _ _ _ _ _ Hup (pk_messages s Hs)) as (_ & Et & _). apply Hend; [done|]. intros E Hf.
    assert (t = t1) as -> by (eapply (NoDup_key_inj tn_id); [apply (pk_turns s Hs)|done|done|congruence]). congruence.
Qed.
Lemma turn_conversation s s' c : pi_turn s s' → pi_ok s → c ∈ pd_conversations s →
  ∃ c', c' ∈ pd_conversations s' ∧ cn_id c' = cn_id c ∧ cn_user c' = cn_user c ∧ cn_target c' = cn_target c.
Proof.
  intros Hstep Hs Hc. destruct Hstep as [s y rows _ _ _|s y f _ _ _ _|s y t1 code eh now Hy Hst Ht1 Hid _|s s1 y t1 e sh eh text bytes now u inc Hy Hst Ht1 Hid Hfr _ Hup]; [by exists c..|].
  destruct (upsert_message_cases _ _ _ _ _ _ _ Hup (pk_messages s Hs)) as (_ & _ & Ec & _). cbn. rewrite Ec. eexists. split; [by apply update_in|]. cbv beta. by destruct (cn_id c == _).
Qed.
(** A message is only written for a bound dispatch that reserved it. *)
Lemma turn_message s s' m : pi_turn s s' → pi_ok s → m ∈ pd_messages s →
  (∀ d, d ∈ pd_dispatches s → di_message (dp_id d) = mg_id m → dp_state d ≠ ds_bound) → m ∈ pd_messages s'.
Proof.
  intros Hstep Hs Hm Hno. destruct Hstep as [s y rows _ _ _|s y f _ _ _ _|s y t1 code eh now Hy Hst Ht1 Hid _|s s1 y t1 e sh eh text bytes now u inc Hy Hst Ht1 Hid Hfr _ Hup]; [done..|].
  destruct (upsert_message_cases _ _ _ _ _ _ _ Hup (pk_messages s Hs)) as (_ & _ & _ & _ & m1 & _ & _ & _ & Hw). cbn.
  destruct Hw as [Em _ _|Em _ _ _|m0 index now' _ _ _ _ -> Em _]; rewrite Em; [done|apply elem_of_app; by left|].
  pose proof (update_in (λ y0, mg_id y0 == di_message (dp_id y)) (overwrite index text now') _ _ Hm) as Hin. cbv beta in Hin.
  rewrite bool_decide_false in Hin; [done|]. intros E. by apply (Hno y Hy).
Qed.
(** The messages of a frozen turn. *)
Definition in_turn (id : string) m : bool := mg_turn m == id.
Lemma turn_frozen s s' t : pi_turn s s' → pi_ok s → t ∈ pd_turns s → frozen t = true → select (in_turn (tn_id t)) (pd_messages s') = select (in_turn (tn_id t)) (pd_messages s).
Proof.
  intros Hstep Hs Ht Hf. destruct Hstep as [s y rows _ _ _|s y f _ _ _ _|s y t1 code eh now Hy Hst Ht1 Hid _|s s1 y t1 e sh eh text bytes now u inc Hy Hst Ht1 Hid Hfr _ Hup]; [done..|].
  destruct (upsert_message_cases _ _ _ _ _ _ _ Hup (pk_messages s Hs)) as (_ & _ & _ & _ & m1 & _ & (_ & Hturn & _) & _ & Hw). cbn.
  assert (tn_id t ≠ di_turn (dp_id y)) as Hne.
  { intros E. assert (t = t1) as -> by (eapply (NoDup_key_inj tn_id); [apply (pk_turns s Hs)|done|done|congruence]). congruence. }
  destruct Hw as [Em _ _|Em _ _ _|m0 index now' Hm0 Hid0 Ht0 _ -> Em _]; rewrite Em; [done| |].
  - rewrite select_app. unfold select at 2. cbn. unfold in_turn at 2. rewrite bool_decide_false by congruence. by rewrite app_nil_r.
  - apply select_update_other. intros r Hr E. bools. assert (r = m0) as -> by (eapply (NoDup_key_inj mg_id); [apply (pk_messages s Hs)|done|done|congruence]).
    unfold in_turn. cbn. split; apply bool_decide_false; congruence.
Qed.

(** ** Later states *)

Lemma turns_dispatch s s' d : rtc pi_turn s s' → pi_ok s → d ∈ pd_dispatches s → ∃ x, x ∈ pd_dispatches s' ∧ rtc life d x.
Proof.
  intros Hr. revert d. induction Hr as [|s s1 s2 Hst _ IH]; intros d Hs Hd; [by exists d|]. destruct (turn_dispatch s s1 d Hst Hs Hd) as (x & Hx & Hl).
  destruct (IH x (pi_turn_ok _ _ Hst Hs) Hx) as (y & Hy & Hl'). exists y. split; [done|]. by etrans.
Qed.
Lemma turns_turn s s' t : rtc pi_turn s s' → pi_ok s → t ∈ pd_turns s → ∃ t', t' ∈ pd_turns s' ∧ tn_id t' = tn_id t ∧ (frozen t = true → frozen t' = true).
Proof.
  intros Hr. revert t. induction Hr as [|s s1 s2 Hst _ IH]; intros t Hs Ht; [by exists t|]. destruct (turn_turn s s1 t Hst Hs Ht) as (x & Hx & Hid & Hf).
  destruct (IH x (pi_turn_ok _ _ Hst Hs) Hx) as (y & Hy & Hid' & Hf'). exists y. split_and!; [done|congruence|auto].
Qed.
Lemma turns_conversation s s' c : rtc pi_turn s s' → pi_ok s → c ∈ pd_conversations s →
  ∃ c', c' ∈ pd_conversations s' ∧ cn_id c' = cn_id c ∧ cn_user c' = cn_user c ∧ cn_target c' = cn_target c.
Proof.
  intros Hr. revert c. induction Hr as [|s s1 s2 Hst _ IH]; intros c Hs Hc; [by exists c|]. destruct (turn_conversation s s1 c Hst Hs Hc) as (x & Hx & ? & ? & ?).
  destruct (IH x (pi_turn_ok _ _ Hst Hs) Hx) as (y & Hy & ? & ? & ?). exists y. split_and!; congruence.
Qed.
Lemma lives_id d x : rtc life d x → dp_id x = dp_id d.
Proof. induction 1 as [|d x y Hl _ IH]; [done|]. rewrite IH. by apply life_id. Qed.
Definition same_evidence d x : Prop :=
  dp_state x = dp_state d ∧ dp_binding x = dp_binding d ∧ dp_source x = dp_source d ∧ dp_final x = dp_final d ∧ dp_failure x = dp_failure d.
Lemma lives_closed d x : rtc life d x → closed d → same_evidence d x.
Proof.
  induction 1 as [|d x y Hl _ IH]; intros Hc; [by unfold same_evidence|]. destruct (life_closed _ _ Hl Hc) as (E1 & E2 & E3 & E4 & E5).
  destruct IH as (F1 & F2 & F3 & F4 & F5); [unfold closed in *; by rewrite E1|]. unfold same_evidence. split_and!; congruence.
Qed.
(** A message reserved by a closed dispatch. *)
Lemma turns_message s s' m d : rtc pi_turn s s' → pi_ok s → d ∈ pd_dispatches s → closed d → di_message (dp_id d) = mg_id m → m ∈ pd_messages s → m ∈ pd_messages s'.
Proof.
  intros Hr. revert d. induction Hr as [|s s1 s2 Hst _ IH]; intros d Hs Hd Hc Hid Hm; [done|].
  destruct (turn_dispatch s s1 d Hst Hs Hd) as (x & Hx & Hl). eapply (IH x); [by eapply pi_turn_ok|done| | |].
  - destruct (lives_closed _ _ Hl Hc) as (E & _). unfold closed in *. by rewrite E.
  - by rewrite (lives_id _ _ Hl).
  - eapply turn_message; [done..|]. intros y Hy Hyid.
    assert (y = d) as -> by (eapply (NoDup_key_inj (λ d, di_message (dp_id d))); [apply (ow_message _ (pk_owners s Hs))|done|done|congruence]).
    unfold closed in Hc. intuition congruence.
Qed.
Lemma turns_frozen s s' t : rtc pi_turn s s' → pi_ok s → t ∈ pd_turns s → frozen t = true →
  select (in_turn (tn_id t)) (pd_messages s') = select (in_turn (tn_id t)) (pd_messages s).
Proof.
  intros Hr. revert t. induction Hr as [|s s1 s2 Hst _ IH]; intros t Hs Ht Hf; [done|]. destruct (turn_turn s s1 t Hst Hs Ht) as (x & Hx & Hid & Hfx).
  rewrite <- (turn_frozen s s1 t Hst Hs Ht Hf), <- Hid. apply IH; [by eapply pi_turn_ok|done|auto].
Qed.
