(* ===== verification/PiClaims.v ===== *)
(** * What the adapter and its readers rely on *)

From stdpp Require Import base option list strings numbers sets relations.
From Stdlib Require Import ZArith Lia.
From S2P Require Import Prelude Sql Feed Json Text PiEnvelope Pi PiInvariant PiSteps PiTheorems.

Open Scope string_scope.
Open Scope list_scope.
Open Scope Z_scope.

Implicit Types (d x : dispatch) (s : pi_db) (t : turn) (m : message) (i : dispatch_identity) (e : PiOwnershipEnvelope).

Lemma start_ok s : pd_dispatches s = [] → pd_changes s = [] → NoDup (map cn_id (pd_conversations s)) → NoDup (map tn_id (pd_turns s)) →
  NoDup (map mg_id (pd_messages s)) → pi_ok s.
Proof.
  intros Ed Ec Hc Ht Hm. split; rewrite ?Ed, ?Ec; try done; [|by intros ? ?%elem_of_nil].
  split; try constructor; by intros ? ? ?%elem_of_nil.
Qed.

Section Claims.
Context `{Codec} (decrypt_token : string → option string).
Local Abbreviation after := (pi_after decrypt_token).
Local Abbreviation step := (pi_step decrypt_token).

Lemma entries_named e : model_validate e = true → ∀ y, y ∈ en_sequence e → se_id y ≠ "".
Proof.
  unfold model_validate, valid_fields. intros Hv x Hx. bools. apply valid_entry_id.
  match goal with Hf : forallb valid_entry _ = true |- _ => rewrite forallb_forall in Hf; apply Hf end. by apply list_elem_of_In.
Qed.
Lemma visible_text_is e text bytes : _visible_text e = Ok (text, bytes) → text = join "" (map cb_text (en_content e)) ∧
  map cb_index (en_content e) = seqZ 0 (Z.of_nat (length (en_content e))) ∧ (∃ h, json_hash (visible_json (en_content e)) = Ok h ∧ en_visible_sha e = Some h) ∧
  str_len text ≤ PI_MAX_VISIBLE_CHARS ∧ strip text ≠ "".
Proof. unfold _visible_text. intros Hv. tx_inv. bools. simplify_eq. split_and!; eauto. Qed.
Lemma verified i e capability : _verify_identity i e capability = Ok tt → di_capability i = sha256_hex capability ∧ en_capability e = di_capability i ∧
  en_tenant e = di_tenant i ∧ en_principal e = di_principal i ∧ en_conversation e = di_conversation i ∧ en_turn e = di_turn i ∧ en_message e = di_message i ∧
  en_objective e = di_objective i ∧ en_run e = di_run i.
Proof. unfold _verify_identity, _capability_hash. intros Hv. tx_inv. bools. simplify_eq. split_and!; congruence. Qed.

Lemma deliver_cases now d t e envelope_hash sequence_hash text bytes s r s' : deliver now d t e envelope_hash sequence_hash text bytes s = Ok (r, s') → pi_ok s →
  owned d t s → dp_state d = ds_bound →
  (frozen t = true ∧ r = answer as_discarded ds_failed (dp_id d) None None None (Some envelope_hash) ∧ s' = moved d (fail_dispatch FROZEN envelope_hash now) s) ∨
  (frozen t = false ∧ ∃ u m s1, r = answer as_applied ds_finalized (dp_id d) (Some u.1) (Some u.2) (en_visible_sha e) (Some envelope_hash) ∧
     pd_turns s1 = pd_turns s ∧ pd_dispatches s1 = pd_dispatches s ∧ m ∈ pd_messages s1 ∧ answers (dp_id d) text m ∧ mg_revision m = u.1 ∧
     s' = touch_conversation now (di_conversation (dp_id d)) (moved d (final_update e sequence_hash envelope_hash bytes now)
            (end_turn "answered" "completed" (if tn_lifecycle t == "completed" then 0 else 1) now (di_turn (dp_id d)) s1))).
Proof.
  unfold deliver. intros H0 Hs (Hd & Ht & Hid) Hst. tx_inv.
  - left. match goal with Hg : guarded_update _ _ _ _ = _ |- _ => by apply guarded_dispatch in Hg as (_ & -> & Hfree) end.
  - right. split; [done|].
    match goal with Hu : _upsert_final_message _ _ _ _ _ = Ok (?u, ?s1) |- _ => destruct (upsert_message_cases _ _ _ _ _ _ _ Hu (pk_messages s Hs)) as (Ed & Et & Ec & Es & m & Hm & Ha & Hrev & Hw);
      pose proof Ha as (Hmid & _); destruct (written_ok _ _ _ _ _ Hw Hmid (pk_messages s Hs) (pk_feed s Hs)) as [Hn1 Hf1];
      assert (pi_ok s1) as Hs1 by (destruct Hs as [Ho He Hc Ht' Hm' Hf]; split; rewrite ?Ed, ?Et, ?Ec; done); exists u, m, s1 end.
    match goal with Hg : guarded_update _ _ _ _ = _ |- _ => apply guarded_dispatch in Hg as (_ & -> & Hfree); [|by apply end_turn_ok|cbn; by rewrite Ed|done] end.
    by split_and!.
Qed.

Lemma ended_turn status lifecycle increment now t s : t ∈ pd_turns s →
  ∃ t', t' ∈ pd_turns (end_turn status lifecycle increment now (tn_id t) s) ∧ tn_id t' = tn_id t ∧ tn_status t' = status ∧ tn_lifecycle t' = lifecycle.
Proof.
  intros Ht. eexists. split; [cbn; by apply update_in|]. cbv beta. by rewrite bool_decide_true.
Qed.

(** C26. A final envelope writes exactly the answer it proves. When an envelope
    is applied as final, its source entries form one gap-free chain with
    consecutive orders in which the prompt is the only message of a user and the
    answer the last message of the assistant, both between the markers of the
    dispatch; the dispatch belongs to the caller, to the capability and to the
    turn the envelope names, was bound to that prompt while the capability
    lived, and records that answer entry; the reserved message holds the visible
    text of the envelope, and the turn is answered. *)
Theorem final_delivered now user target capability e s r s' :
  apply_pi_ownership_envelope now user target capability e s = Ok (r, s') → pi_ok s → ar_status r = as_applied → ar_state r = ds_finalized →
  source_owned e true ∧
  ∃ d m t, d ∈ pd_dispatches s' ∧ m ∈ pd_messages s' ∧ t ∈ pd_turns s' ∧
    dp_incarnation d = en_incarnation e ∧ di_user (dp_id d) = user ∧ di_capability (dp_id d) = sha256_hex capability ∧
    di_turn (dp_id d) = en_turn e ∧ di_message (dp_id d) = en_message e ∧
    dp_state d = ds_finalized ∧ bound_within d ∧ dp_session d = en_session e ∧ dp_user_entry d = en_user e ∧ dp_assistant_entry d = en_assistant e ∧
    answers (dp_id d) (join "" (map cb_text (en_content e))) m ∧ ar_revision r = Some (mg_revision m) ∧
    tn_id t = en_turn e ∧ tn_status t = "answered" ∧ tn_lifecycle t = "completed".
Proof.
  intros E Hs Hst Hfin. apply apply_cases in E as (Hv & d & t & Ho & Hver & Ha); [|done]. pose proof (owned_cases _ _ _ _ _ _ Ho) as (Hd & Hinc & Huser & Ht & Hid & _).
  destruct Ha as [_ [Hr|Hr]|eh _ Hf|sh eh st _ Hb Hr Hb' _|eh sh text bytes d1 t1 s1 Hev Heh Hseq Htext _ Hopen Hset Hdel]; try congruence.
  { unfold apply_failure in Hf. destruct (dp_state d); tx_inv; simplify_eq/=. }
  split; [by apply (validated_source_owned e true sh Hseq), entries_named|].
  pose proof (settle_turn _ _ _ _ _ _ _ _ _ _ Hset Hs (conj Hd (conj Ht Hid)) Hinc Hopen) as (Hrun & Ho1 & Hb1 & Hid1 & _).
  assert (dp_session d1 = en_session e ∧ dp_user_entry d1 = en_user e) as [Hse Hus].
  { by destruct (settle_cases _ _ _ _ _ _ _ _ _ _ Hset Hs (conj Hd (conj Ht Hid)) Hinc Hopen) as [(_ & -> & _ & _ & ? & ?)|(p & enc & bh & be & _ & _ & _ & _ & -> & _)]. }
  pose proof (pi_turns_ok _ _ Hrun Hs) as Hs1. pose proof Ho1 as (Hd1 & Ht1 & Htid1). destruct (eo_bound _ (pk_evidence _ Hs1 _ Hd1) Hb1) as (Hw1 & _).
  apply deliver_cases in Hdel as [(_ & -> & _)|(_ & u & m & s2 & -> & Et & Ed & Hm & Hans & Hrev & ->)]; [done| |done..].
  apply visible_text_is in Htext as (-> & _). apply verified in Hver as (Hcap & _ & _ & _ & _ & Hturn & Hmsg & _).
  destruct (ended_turn "answered" "completed" (if tn_lifecycle t1 == "completed" then 0 else 1) now t1 s2) as (t2 & Ht2 & Hi2 & Hs2 & Hl2); [by rewrite Et|].
  rewrite Htid1 in Ht2. exists (final_update e sh eh bytes now d1), m, t2.
  split; [change (final_update e sh eh bytes now d1 ∈ update (is_dispatch (dp_incarnation d1)) (final_update e sh eh bytes now) (pd_dispatches s2)); rewrite Ed; by apply moved_in|].
  split; [exact Hm|]. split; [exact Ht2|]. unfold dp_incarnation in *. cbn. rewrite Hid1 in *. split_and!; try done; congruence.
Qed.

(** A delivered answer stays. Once a dispatch is finalized its evidence and
    the message it delivered are the same in every later state, whatever is
    prepared, applied, acknowledged or recovered. *)
Theorem answer_stays ops s d m : pi_ok s → d ∈ pd_dispatches s → dp_state d = ds_finalized → m ∈ pd_messages s → mg_id m = di_message (dp_id d) →
  m ∈ pd_messages (after ops s) ∧ ∃ x, x ∈ pd_dispatches (after ops s) ∧ dp_id x = dp_id d ∧ same_evidence d x.
Proof.
  intros Hs Hd Hst Hm Hid. pose proof (pi_after_turns decrypt_token ops s Hs) as Hr. split; [eapply turns_message; [done..| |done|done]; by left|].
  destruct (turns_dispatch _ _ d Hr Hs Hd) as (x & Hx & Hl). exists x. split_and!; [done|by apply lives_id|]. apply lives_closed; [done|by left].
Qed.

(** A frozen turn is silent. After a turn was cancelled or failed, no
    operation writes, changes or adds a message of it, and it stays frozen:
    a final envelope for it is a receipt without text. *)
Theorem frozen_turn_silent ops s t : pi_ok s → t ∈ pd_turns s → frozen t = true →
  select (in_turn (tn_id t)) (pd_messages (after ops s)) = select (in_turn (tn_id t)) (pd_messages s) ∧
  ∃ t', t' ∈ pd_turns (after ops s) ∧ tn_id t' = tn_id t ∧ frozen t' = true.
Proof.
  intros Hs Ht Hf. pose proof (pi_after_turns decrypt_token ops s Hs) as Hr. split; [by eapply turns_frozen|].
  destruct (turns_turn _ _ t Hr Hs Ht) as (t' & Ht' & Hid & Hf'). exists t'. auto.
Qed.

(** The store implements its contract: from a good state every operation is
    a sequence of steps of [pi_turn], in which a dispatch only follows [life],
    and the state stays good. *)
Theorem pi_refines op s : pi_ok s →
  rtc pi_turn s (step op s) ∧ pi_ok (step op s) ∧ ∀ d, d ∈ pd_dispatches s → ∃ x, x ∈ pd_dispatches (step op s) ∧ rtc life d x ∧ evidence_ok x.
Proof.
  intros Hs. pose proof (pi_step_turns decrypt_token op s Hs) as Hr. pose proof (pi_turns_ok _ _ Hr Hs) as Hs'. split_and!; [done..|].
  intros d Hd. destruct (turns_dispatch _ _ d Hr Hs Hd) as (x & Hx & Hl). exists x. split_and!; [done..|]. by apply (pk_evidence _ Hs').
Qed.

(** C27. One owner. In every run two dispatches that share a capability, a turn,
    a message, or the prompt or answer entry of one session are the same. The
    marker entries of a session (prepare, bind, finalize) have no owner: two
    dispatches may share them ([markers_shared]). *)
Theorem single_owner ops s a b : pi_ok s → a ∈ pd_dispatches (after ops s) → b ∈ pd_dispatches (after ops s) →
  di_capability (dp_id a) = di_capability (dp_id b) ∨ di_turn (dp_id a) = di_turn (dp_id b) ∨ di_message (dp_id a) = di_message (dp_id b) ∨
  (∃ session entry, dp_session a = Some session ∧ dp_session b = Some session ∧
     (dp_user_entry a = Some entry ∧ dp_user_entry b = Some entry ∨ dp_assistant_entry a = Some entry ∧ dp_assistant_entry b = Some entry)) → a = b.
Proof.
  intros Hs Ha Hb Hshare. pose proof (pk_owners _ (pi_after_ok decrypt_token ops s Hs)) as [Hi Hc Ht Hm He].
  destruct Hshare as [E|[E|[E|(session & entry & Ea & Eb & Hentry)]]]; [by eapply NoDup_key_inj; [exact Hc|..]|by eapply NoDup_key_inj; [exact Ht|..]|by eapply NoDup_key_inj; [exact Hm|..]|].
  destruct (decide (dp_incarnation a = dp_incarnation b)) as [E|E]; [by eapply NoDup_key_inj; [exact Hi|..]|]. exfalso. specialize (He a b Ha Hb E).
  unfold entry_clash in He. rewrite Ea, Eb in He. cbn in He. rewrite String.eqb_refl in He.
  destruct Hentry as [[E1 E2]|[E1 E2]]; rewrite E1, E2 in He; cbn in He; by rewrite String.eqb_refl, ?orb_true_r in He.
Qed.

(** The same envelope under another nonce. *)
Definition with_nonce (nonce : string) e : PiOwnershipEnvelope :=
  Build_PiOwnershipEnvelope (en_event e) nonce (en_incarnation e) (en_capability e) (en_tenant e) (en_principal e) (en_conversation e) (en_turn e) (en_message e)
    (en_objective e) (en_run e) (en_revision e) (en_session e) (en_prepare e) (en_user e) (en_user_order e) (en_user_sha e) (en_bind e) (en_assistant e)
    (en_assistant_order e) (en_finalize e) (en_finality e) (en_stop e) (en_bound_at e) (en_finalized_at e) (en_start e) (en_end e) (en_cursor e) (en_sequence e)
    (en_sequence_sha e) (en_visible_sha e) (en_content e) (en_error e).

(** The row of a dispatch in a later state. *)
Lemma owned_later user target incarnation s d t ops : _owned_row user target incarnation s = Ok (d, t) → pi_ok s →
  ∃ x t', _owned_row user target incarnation (after ops s) = Ok (x, t') ∧ rtc life d x.
Proof.
  intros Ho Hs. apply owned_cases in Ho as (Hd & Hinc & Huser & Ht & Hid & c & Hc & Hcid & Hcu & Hct). pose proof (pi_after_turns decrypt_token ops s Hs) as Hr.
  pose proof (pi_after_ok decrypt_token ops s Hs) as [[Hni _ _ _ _] _ Hnc Hnt _ _].
  destruct (turns_dispatch _ _ d Hr Hs Hd) as (x & Hx & Hl), (turns_turn _ _ t Hr Hs Ht) as (t' & Ht' & Hid' & _), (turns_conversation _ _ c Hr Hs Hc) as (c' & Hc' & Hci & Hcu' & Hct').
  pose proof (lives_id _ _ Hl) as Hxid. exists x, t'. split; [|done]. unfold _owned_row.
  rewrite (fetchone_unique dp_incarnation _ _ x Hni Hx); [|unfold is_dispatch, dp_incarnation in *; rewrite Hxid; by rewrite !bool_decide_true|
    intros y Hy; unfold is_dispatch, dp_incarnation in *; bools; congruence]. cbn.
  rewrite (fetchone_unique cn_id _ _ c' Hnc Hc'); [|apply bool_decide_true; congruence|intros y Hy; bools; congruence]. cbn.
  rewrite (fetchone_unique tn_id _ _ t' Hnt Ht'); [|apply bool_decide_true; congruence|intros y Hy; bools; congruence]. cbn.
  by rewrite !bool_decide_true by congruence.
Qed.

Lemma check_final e eh sh text bytes : model_validate e = true → en_event e = ev_finalized → _semantic_envelope_hash e = Ok eh → _validate_sequence e true = Ok sh →
  _visible_text e = Ok (text, bytes) → check_envelope e = Ok (eh, sh, Some (text, bytes)).
Proof. intros Hv Hev Heh Hsh Ht. unfold check_envelope. rewrite Hv. cbn. rewrite Heh. cbn. rewrite Hev, Hsh. cbn. by rewrite Ht. Qed.
Lemma check_times_later now now' e : check_times now e = Ok tt → now ≤ now' → check_times now' e = Ok tt.
Proof.
  unfold check_times. intros Ht Hle. tx_inv. bools. repeat match goal with Hx : en_bound_at e = _ |- _ => rewrite Hx | Hx : en_finalized_at e = _ |- _ => rewrite Hx end. cbn.
  unfold ensure. by rewrite !(proj2 (Z.leb_le _ _)) by lia.
Qed.
(** A finalized row answers its envelope with the acceptance it stored. *)
Lemma replay_runs now user target capability e s x t eh sh text bytes f : check_envelope e = Ok (eh, sh, Some (text, bytes)) → en_event e = ev_finalized →
  _owned_row user target (en_incarnation e) s = Ok (x, t) → _verify_identity (dp_id x) e capability = Ok tt → check_times now e = Ok tt →
  dp_state x = ds_finalized → dp_final x = Some f → fc_envelope f = eh → fc_visible f = en_visible_sha e → fc_assistant f = en_assistant e →
  ∃ revision, apply_pi_ownership_envelope now user target capability e s =
    Ok (answer as_duplicate ds_finalized (dp_id x) revision None None (Some eh), s).
Proof.
  intros Hc Hev Ho Hv Ht Hst Hf He Hvis Ha. unfold apply_pi_ownership_envelope.
  erewrite bind_run by (unfold lift; by rewrite Hc). cbv beta iota. erewrite bind_run by (unfold owned_row; by rewrite Ho). cbv beta iota.
  erewrite bind_run by (unfold lift; by rewrite Hv). rewrite Hev. erewrite bind_run by reflexivity. cbv beta iota. unfold apply_final.
  erewrite bind_run by (unfold lift; by rewrite Ht). rewrite Hst. eexists. unfold dp_assistant_entry. rewrite Hf. cbn. by rewrite He, Hvis, Ha, !bool_decide_true by done.
Qed.

(** A retry is recognised. The final envelope that was applied, sent again
    under any nonce and at any later time, is answered as a duplicate of the
    same acceptance and changes nothing, whatever ran in between. *)
Theorem final_replayed now user target capability e s r s1 ops nonce now' :
  apply_pi_ownership_envelope now user target capability e s = Ok (r, s1) → pi_ok s → ar_status r = as_applied → ar_state r = ds_finalized →
  model_validate (with_nonce nonce e) = true → now ≤ now' →
  ∃ r', apply_pi_ownership_envelope now' user target capability (with_nonce nonce e) (after ops s1) = Ok (r', after ops s1) ∧
    ar_status r' = as_duplicate ∧ ar_state r' = ds_finalized ∧ ar_message r' = ar_message r ∧ ar_accepted r' = ar_accepted r.
Proof.
  intros E Hs Hst Hfin Hv' Hle. assert (after ops s1 = after (PApply now user target capability e :: ops) s) as Hafter.
  { unfold pi_after. cbn [foldl pi_step]. unfold commit. by rewrite E. }
  assert (rtc pi_turn s s1) as Hrun1 by (by eapply apply_turn). pose proof (pi_turns_ok _ _ Hrun1 Hs) as Hs1.
  pose proof (apply_cases _ _ _ _ _ _ _ _ E Hs) as (Hv & d & t & Ho & Hver & Ha). pose proof (owned_cases _ _ _ _ _ _ Ho) as (Hd & Hinc & Huser & Ht & Hid & _).
  destruct (owned_later user target (en_incarnation e) s d t (PApply now user target capability e :: ops) Ho Hs) as (x & t' & Ho' & Hl).
  destruct Ha as [_ [Hr|Hr]|eh _ Hf|sh eh st _ Hb Hr Hb' _|eh sh text bytes d1 t1 s2 Hev Heh Hseq Htext Htimes Hopen Hset Hdel]; try congruence.
  { unfold apply_failure in Hf. destruct (dp_state d); tx_inv; simplify_eq/=. }
  pose proof (settle_turn _ _ _ _ _ _ _ _ _ _ Hset Hs (conj Hd (conj Ht Hid)) Hinc Hopen) as (Hrun & Ho1 & Hb1 & Hid1 & _). pose proof (pi_turns_ok _ _ Hrun Hs) as Hs2.
  apply deliver_cases in Hdel as [(_ & -> & _)|(_ & u & m & s3 & -> & Et & Ed & Hm & Hans & Hrev & Es1)]; [done| |done..].
  set (d2 := final_update e sh eh bytes now d1). assert (d2 ∈ pd_dispatches s1) as Hd2.
  { rewrite Es1. change (d2 ∈ update (is_dispatch (dp_incarnation d1)) (final_update e sh eh bytes now) (pd_dispatches s3)). rewrite Ed. apply moved_in, Ho1. }
  destruct (turns_dispatch _ _ d2 (pi_after_turns decrypt_token ops s1 Hs1) Hs1 Hd2) as (y & Hy & Hly).
  assert (y = x) as ->.
  { rewrite <- Hafter in Ho'. apply owned_cases in Ho' as (Hx & _). apply (same_dispatch (after ops s1) y x (pi_after_ok decrypt_token ops s1 Hs1) Hy Hx).
    unfold dp_incarnation. rewrite (lives_id _ _ Hly), (lives_id _ _ Hl). cbn. by rewrite Hid1. }
  destruct (lives_closed _ _ Hly) as (Hstx & _ & _ & Hfx & _); [by left|].
  destruct (replay_runs now' user target capability (with_nonce nonce e) (after ops s1) x t' eh sh text bytes
    (Build_final_columns (en_assistant e) (en_assistant_order e) (en_finalize e) (en_visible_sha e) bytes eh (en_finalized_at e))) as (revision & Hrun'); try done.
  - by apply check_final.
  - by rewrite Hafter.
  - rewrite (lives_id _ _ Hl). exact Hver.
  - by eapply check_times_later.
  - eexists. split; [exact Hrun'|]. split_and!; try done. cbn. by rewrite (lives_id _ _ Hl), Hid1.
Qed.
End Claims.
