(* ===== verification/PiWitness.v ===== *)
(** * One captain turn

    A conversation with an open and a cancelled turn; the dispatch of a prompt,
    its binding, its final envelope with a tool call on the way, and a second
    dispatch for the cancelled turn. *)

From stdpp Require Import base option list strings numbers sets relations.
From Stdlib Require Import ZArith Lia.
From S2P Require Import Prelude Sql Feed Json Text Samples PiEnvelope Pi PiInvariant PiSteps PiTheorems PiClaims.

Open Scope string_scope.
Open Scope list_scope.
Open Scope Z_scope.

Definition T0 : Z := 1700000000000.
Definition entry order id parent kind role custom stop : PiSourceEntry := Build_PiSourceEntry order id parent kind role custom stop.
Definition bind_entries : list PiSourceEntry :=
  [entry 10 "p1" None et_custom None (Some PI_PREPARE_ENTRY_TYPE) None; entry 11 "u1" (Some "p1") et_message (Some er_user) None None;
   entry 12 "b1" (Some "u1") et_custom None (Some PI_BIND_ENTRY_TYPE) None].
Definition answer_entries : list PiSourceEntry :=
  [entry 13 "a0" (Some "b1") et_message (Some er_assistant) None (Some sr_tool_use); entry 14 "r1" (Some "a0") et_redacted None None None;
   entry 15 "a1" (Some "r1") et_message (Some er_assistant) None (Some sr_stop); entry 16 "f1" (Some "a1") et_custom None (Some PI_FINALIZE_ENTRY_TYPE) None].

#[export] Instance pi_codec : Codec :=
  {| sha256_hex := sample_sha; dumps := λ j, Some (print j);
     loads := λ text, if String.eqb text (print (sequence_json bind_entries)) then Some (sequence_json bind_entries) else None; utf8_length := str_len |}.
Definition plain_text (s : string) : option string := Some s.

Definition capability1 : string := "pic_0123456789012345678901234567890123456789".
Definition capability2 : string := "pic_9876543210987654321098765432109876543210".
Definition draws1 : list draw := [{| dr_incarnation := "pdi_dispatch-number-one"; dr_capability := capability1; dr_capability_enc := capability1; dr_prompt_enc := "Ship it?" |}].
Definition draws2 : list draw := draws1 ++
  [{| dr_incarnation := "pdi_dispatch-number-two"; dr_capability := capability2; dr_capability_enc := capability2; dr_prompt_enc := "Again?" |}].
Definition ask_one : prepare_args :=
  {| pa_user := "ann"; pa_conversation := "cv_1"; pa_turn := "ct_1"; pa_message := "cm_1"; pa_objective := "obj_1"; pa_run := "run_1"; pa_prompt := "Ship it?";
     pa_visible := "Ship it?"; pa_ttl := PI_DEFAULT_CAPABILITY_TTL_MS |}.
Definition ask_two : prepare_args :=
  {| pa_user := "ann"; pa_conversation := "cv_1"; pa_turn := "ct_2"; pa_message := "cm_2"; pa_objective := "obj_2"; pa_run := "run_2"; pa_prompt := "Again?";
     pa_visible := "Again?"; pa_ttl := PI_DEFAULT_CAPABILITY_TTL_MS |}.

Definition turn1 : turn := Build_turn "ct_1" "cv_1" "submitted" "active" 1 None 0 T0 T0.
Definition turn2 : turn := Build_turn "ct_2" "cv_1" "cancelled" "cancelled" 2 None 1 T0 T0.
Definition history : pi_db := Build_pi_db [] [Build_conversation "cv_1" "ann" "firstmate" T0 T0] [turn1; turn2] [] [] [].

Definition hash_of (j : json) : string := match json_hash j with Ok h => h | Err _ => "" end.
Definition blocks : list PiAssistantContentBlock := [{| cb_index := 0; cb_text := "Shipped" |}; {| cb_index := 1; cb_text := " at noon." |}].
Definition bound_envelope : PiOwnershipEnvelope :=
  Build_PiOwnershipEnvelope ev_bound "nonce-0123456789" "pdi_dispatch-number-one" (sample_sha capability1) "ann" "ann" "cv_1" "ct_1" "cm_1" "obj_1" "run_1" 1
    (Some "session-1") (Some "p1") (Some "u1") (Some 11) (Some (sample_sha "Ship it?")) (Some "b1") None None None fi_pending None (Some (T0 + 50)) None
    (Some 10) (Some 12) (Some "b1") bind_entries (Some (hash_of (sequence_json bind_entries))) None [] None.
Definition final_envelope : PiOwnershipEnvelope :=
  Build_PiOwnershipEnvelope ev_finalized "nonce-abcdefghij" "pdi_dispatch-number-one" (sample_sha capability1) "ann" "ann" "cv_1" "ct_1" "cm_1" "obj_1" "run_1" 2
    (Some "session-1") (Some "p1") (Some "u1") (Some 11) (Some (sample_sha "Ship it?")) (Some "b1") (Some "a1") (Some 15) (Some "f1") fi_final (Some sr_stop)
    (Some (T0 + 50)) (Some (T0 + 900)) (Some 10) (Some 16) (Some "f1") (bind_entries ++ answer_entries)
    (Some (hash_of (sequence_json (bind_entries ++ answer_entries)))) (Some (hash_of (visible_json blocks))) blocks None.

Definition run_pi (ops : list pi_op) : pi_db := pi_after plain_text ops history.
Definition bound_ops : list pi_op := [PPrepare T0 draws1 ask_one; PApply (T0 + 60) "ann" "firstmate" capability1 bound_envelope].
Definition final_op : pi_op := PApply (T0 + 1000) "ann" "firstmate" capability1 final_envelope.
Definition apply_to (s : pi_db) (now : Z) (e : PiOwnershipEnvelope) := apply_pi_ownership_envelope now "ann" "firstmate" capability1 e s.
Definition state_of (r : res pi_error (apply_result * pi_db)) : pi_db := match r with Ok (_, s) => s | Err _ => history end.
Definition result_of (r : res pi_error (apply_result * pi_db)) : option apply_result := match r with Ok (a, _) => Some a | Err _ => None end.

Example delivered : ar_status <$> result_of (apply_to (run_pi bound_ops) (T0 + 1000) final_envelope) = Some as_applied.
Proof. vm_compute. reflexivity. Qed.
(** A gateway that missed the binding takes it from the final envelope. *)
Example recovered : ar_status <$> result_of (apply_to (run_pi [PPrepare T0 draws1 ask_one]) (T0 + 1000) final_envelope) = Some as_applied.
Proof. vm_compute. reflexivity. Qed.
(** A second binding with another prompt entry order, and an envelope with a gap. *)
Example gap_refused : apply_to (run_pi [PPrepare T0 draws1 ask_one]) (T0 + 60)
  (Build_PiOwnershipEnvelope ev_bound "nonce-0123456789" "pdi_dispatch-number-one" (sample_sha capability1) "ann" "ann" "cv_1" "ct_1" "cm_1" "obj_1" "run_1" 1
    (Some "session-1") (Some "p1") (Some "u1") (Some 11) (Some (sample_sha "Ship it?")) (Some "b1") None None None fi_pending None (Some (T0 + 50)) None
    (Some 10) (Some 13) (Some "b1") bind_entries (Some (hash_of (sequence_json bind_entries))) None [] None) = Err PiOwnershipError.
Proof. vm_compute. reflexivity. Qed.

Lemma history_ok : pi_ok history.
Proof.
  apply start_ok; [reflexivity..| | |constructor]; cbn.
  - apply NoDup_singleton.
  - apply NoDup_cons. split; [|apply NoDup_singleton]. intros Hin. apply list_elem_of_singleton in Hin. discriminate Hin.
Qed.
Lemma run_pi_ok ops : pi_ok (run_pi ops).
Proof. apply pi_after_ok, history_ok. Qed.

Definition final_run := apply_to (run_pi bound_ops) (T0 + 1000) final_envelope.
Definition s_final : pi_db := state_of final_run.
Definition sample_result : apply_result := Build_apply_result as_pending ds_prepared "" "" "" None None None None.
Definition r_final : apply_result := default sample_result (result_of final_run).
Lemma final_runs : apply_pi_ownership_envelope (T0 + 1000) "ann" "firstmate" capability1 final_envelope (run_pi bound_ops) = Ok (r_final, s_final).
Proof. vm_compute. reflexivity. Qed.
Lemma final_applied : ar_status r_final = as_applied.
Proof. vm_compute. reflexivity. Qed.
Lemma final_state : ar_state r_final = ds_finalized.
Proof. vm_compute. reflexivity. Qed.
Definition first_dispatch (s : pi_db) : dispatch := default (new_dispatch ask_one (Build_draw "" "" "" "") 0) (head (pd_dispatches s)).
Definition first_message (s : pi_db) : message := default (final_message (dp_id (first_dispatch s)) 0 "" 0) (head (pd_messages s)).

Lemma final_delivered_witness : source_owned final_envelope true ∧ ∃ m, m ∈ pd_messages s_final ∧ mg_text m = "Shipped at noon." ∧ mg_id m = "cm_1".
Proof.
  destruct (final_delivered (T0 + 1000) "ann" "firstmate" capability1 final_envelope (run_pi bound_ops) r_final s_final final_runs (run_pi_ok bound_ops) final_applied final_state)
    as (Hs & d & m & t & _ & Hm & _ & _ & _ & _ & _ & Hmsg & _ & _ & _ & _ & _ & (Hid & _ & _ & _ & _ & Ht & _) & _).
  split; [exact Hs|]. exists m. split; [exact Hm|]. split; [rewrite Ht; reflexivity|]. rewrite Hid, Hmsg. reflexivity.
Defined.

Definition later_ops : list pi_op :=
  [PPrepare (T0 + 2000) draws2 ask_two; PAttempt (T0 + 2100) "pdi_dispatch-number-one"; PApply (T0 + 2200) "ann" "firstmate" capability1 bound_envelope; PRecover (T0 + 2300) 10].
Lemma s_final_ok : pi_ok s_final.
Proof. eapply pi_turns_ok; [eapply apply_turn; [exact final_runs|apply run_pi_ok]|apply run_pi_ok]. Qed.

Lemma single_owner_witness : first_dispatch (run_pi bound_ops) = first_dispatch (pi_after plain_text bound_ops history).
Proof.
  refine (single_owner plain_text bound_ops history (first_dispatch (run_pi bound_ops)) (first_dispatch (pi_after plain_text bound_ops history)) history_ok _ _ _).
  - vm_compute. constructor.
  - vm_compute. constructor.
  - right. right. right. exists "session-1", "u1". split; [vm_compute; reflexivity|]. split; [vm_compute; reflexivity|]. left. split; vm_compute; reflexivity.
Defined.

(** ** Markers are not owned

    Only the prompt and the answer entry of a session are unique: a second
    dispatch is bound under the prepare and bind markers of the first. *)
Definition bind_entries2 : list PiSourceEntry :=
  [entry 10 "p1" None et_custom None (Some PI_PREPARE_ENTRY_TYPE) None; entry 11 "u2" (Some "p1") et_message (Some er_user) None None;
   entry 12 "b1" (Some "u2") et_custom None (Some PI_BIND_ENTRY_TYPE) None].
Definition bound_envelope2 : PiOwnershipEnvelope :=
  Build_PiOwnershipEnvelope ev_bound "nonce-9876543210" "pdi_dispatch-number-two" (sample_sha capability2) "ann" "ann" "cv_1" "ct_2" "cm_2" "obj_2" "run_2" 1
    (Some "session-1") (Some "p1") (Some "u2") (Some 11) (Some (sample_sha "Again?")) (Some "b1") None None None fi_pending None (Some (T0 + 2050)) None
    (Some 10) (Some 12) (Some "b1") bind_entries2 (Some (hash_of (sequence_json bind_entries2))) None [] None.
Lemma markers_shared :
  map (λ d, (dp_state d, dp_session d, dp_binding d ≫= bc_prepare, dp_user_entry d, dp_binding d ≫= bc_bind))
    (pd_dispatches (run_pi (bound_ops ++ [PPrepare (T0 + 2000) draws2 ask_two; PApply (T0 + 2060) "ann" "firstmate" capability2 bound_envelope2]))) =
  [(ds_bound, Some "session-1", Some "p1", Some "u1", Some "b1"); (ds_bound, Some "session-1", Some "p1", Some "u2", Some "b1")].
Proof. vm_compute. reflexivity. Qed.
